(* ===== verification/_CoqProject ===== *)
-Q . S2P
Prelude.v
RustStr.v
Utf8.v
BTree.v
Json.v
CoreError.v
CoreIds.v
CorePath.v
CoreResource.v
CoreRequest.v
CoreShell.v
CoreDecision.v
CorePermit.v
CoreProps.v
Redaction.v
RedactionProps.v
PolicyModel.v
PolicyEngine.v
PolicySpec.v
PolicyProps.v
PolicyLoad.v
AuditModel.v
AuditVerify.v
AuditChain.v
AuditProps.v
ApprovalModel.v
ApprovalBroker.v
ApprovalSpec.v
ApprovalLife.v
Instances.v
ApprovalProps.v
EnforceFs.v
EnforceFsProps.v
EnforceCmd.v
EnforceCmdProps.v
EnforceNet.v
EnforceNetProps.v
EnforceExamples.v
Runtime.v
RuntimeSpec.v
RuntimeProps.v
RuntimeHistory.v
RuntimeMachine.v
RuntimeExamples.v
ConfigLoad.v
ConfigProps.v
GatewayModel.v
GatewayTypes.v
Gateway.v
GatewayProps.v
GatewayMachine.v
GatewayServer.v
CliServe.v
CliPolicy.v
CliCommands.v
CliProps.v
McpProtocol.v
McpProxy.v
McpProps.v
DashEvent.v
Dashboard.v
DashProps.v
Setup.v
SetupMerge.v
SetupProps.v
DashExamples.v
StoreOpen.v
StoreOpenProps.v
GatewayHttp.v
GatewayExamples.v
GatewayServe.v
CliMain.v
CliMainProps.v
CliRuns.v
TestPolicy.v
TestCore.v
TestRecords.v
TestEnforce.v
TestRuntime.v
TestCli.v
