(* ===== verification/Prelude.v ===== *)
(** * KAVACH: a verified model of the authorization pipeline

    KAVACH stands between an agent and the tools it wants to use.  A tool request
    is validated, evaluated against policies, possibly held until a person approves
    it, and carried out by an adapter that demands a one-time permit; every step is
    written to a hash-chained audit log, and secrets are masked in what is returned.
    The runtime composes these steps; an HTTP gateway and an MCP proxy offer them to
    clients, and the command line starts either from a layered configuration; a
    set-up command wires hooks into agent programs, and a dashboard shows the
    decisions.  The files of this directory translate that pipeline from the Rust sources (under
    src/crates/) into executable functions and prove what makes it correct.

    ** The program and the files

    - kavach-core: the vocabulary.  [CoreError] (error.rs: domain errors, field
      paths), [CoreIds] (ids.rs, subject.rs), [CorePath] and [CoreResource]
      (resource.rs: lexical path normalization, endpoints, commands, metadata),
      [CoreRequest] (request.rs: operations, the request and its validation),
      [CoreShell] (shell.rs: the scanner for shell constructs), [CoreDecision]
      (decision.rs) and [CorePermit] (permit.rs, digest.rs).  [CoreProps] states
      their properties.
    - kavach-policy: [PolicyModel] (model.rs: rules and their validators),
      [PolicyEngine] (engine.rs: compilation, baselines, matching, precedence),
      [PolicyLoad] (io.rs, with
      the readers that serde derives for the tables of a TOML document).  [PolicySpec] is the declarative specification, in terms
      of the rules as written, and [PolicyProps] proves that the engine refines it.
    - kavach-audit: [AuditModel] (event.rs, canonical.rs, hash.rs, store.rs: the
      append transaction and the queries), [AuditVerify] (verification.rs,
      checkpoint.rs).  [AuditChain] proves the chain invariant, [AuditProps] the
      encoding lemmas and the properties.
    - Opening the two databases: [StoreOpen] (the builder, [open],
      [configure_connection] and [run_migrations] of kavach-audit/store.rs and
      kavach-approval/store.rs over a schema, statement by statement), with
      [StoreOpenProps].
    - kavach-approval: [ApprovalModel] (types.rs, error.rs, token.rs, store.rs),
      [ApprovalBroker] (broker.rs).  [ApprovalSpec] lists the possible effects of a
      broker call and proves that every call has one of them; [ApprovalLife] lifts
      this to histories of calls; [ApprovalProps] states the properties.
    - kavach-redaction: [Redaction] (types.rs, error.rs, helpers.rs, redactor.rs and
      the detectors), with [RedactionProps].
    - kavach-enforcement: [EnforceFs] (lib.rs: the filesystem adapter),
      [EnforceCmd] (command.rs: the command adapter) and [EnforceNet] (network.rs),
      with [EnforceFsProps], [EnforceCmdProps], [EnforceNetProps] and the runs of
      [EnforceExamples].
    - kavach-runtime: [Runtime] (runtime.rs, outcome.rs, error.rs, config.rs,
      registry.rs and the guard of lib.rs) over the models above.  [RuntimeSpec]
      inverts its operations, [RuntimeProps] states what one call does,
      [RuntimeHistory] what holds over histories of calls, [RuntimeMachine] what an
      execution can do to the machine and what it reveals;
      [RuntimeExamples] runs it.
    - kavach-config: [ConfigLoad] (lib.rs, with the derived readers of its document),
      with [ConfigProps].
    - kavach-gateway: [GatewayModel] (error.rs, auth.rs, state.rs and the
      middleware), [GatewayTypes] (types.rs), [Gateway] (the handlers of routes/ and
      the layers around them), [GatewayServer] (server.rs: bind addresses and the
      start).  [GatewayProps] has the properties of one request, [GatewayMachine]
      the step relation of interleaved requests.
      [GatewayHttp] has the answers with status, headers and JSON body and the layers
      of server.rs and middleware/ in their order, [GatewayExamples] runs of both.
      [GatewayServe] has the builder, the listener and the run of the server from its
      start to its end, and relates a session to the steps of [GatewayMachine].
    - kavach-cli: [CliServe] (the start of serve and of mcp, exit codes), [CliPolicy]
      (policy, request and config commands, output), [CliCommands] (audit, approval
      and doctor commands, the dispatch), with [CliProps].  [Setup] (commands/setup.rs) is the set-up command over a file system,
      [SetupMerge] proves its merges into JSON documents, [SetupProps] the whole
      command, [DashExamples] runs it (module [SetupRuns]).
      [CliMain] has main itself, with the two commands that serve, over the gateway
      and the proxy as they run; [CliMainProps] states what the program does,
      [CliRuns] runs all of them.
    - kavach-dashboard: [DashEvent] (event.rs) and [Dashboard] (feed.rs, routes.rs,
      main.rs) over any sequence of polls of the feed file and of the database, with
      [DashProps] and [DashExamples].
    - kavach-mcp: [McpProtocol] (protocol.rs), [McpProxy] (proxy.rs, transport.rs, with
      the spawning of the server), with [McpProps], and its runs in [CliRuns] (module [Proxies]).
    - [Prelude], [RustStr], [Utf8], [BTree] and [Json] hold what the components
      share: results and the state-error monad, Rust's strings and bytes, the decoder
      of UTF-8, ordered sets and maps, JSON values.  [Instances] has concrete instances of the
      parameters.
    - The program's own unit tests, translated and evaluated on the model: [TestCore]
      (kavach-core and the approval broker), [TestPolicy] (the engine's and the
      loader's tests), [TestRecords] (redaction and audit), [TestEnforce] (the three
      adapters), [TestRuntime] (runtime, policy guard and gateway),
      [TestCli] (proxy, configuration, dashboard, and the
      command line up to runs of the whole program).  A test is a
      definition of the same name, a boolean or a computation that may panic, over the
      parameters of [Instances]; each module ends with its list of tests and the
      evaluation that all of them pass.

    ** How the model relates to the code

    Each definition keeps the name and the order of the checks of the function it
    translates; PROJECT.json gives the lines.  Strings are lists of bytes, lengths
    and machine integers are in [Z] with the range checks and saturation of the code
    written out, times are nanoseconds since the epoch passed as arguments where the
    code reads the clock.  [let? x := c in k] is Rust's question mark.  Stateful
    code (the audit store, the broker, the adapters) is in the monad [stateful] of
    the prelude, which keeps the state when an error is returned, as the code does.
    SQLite tables are lists of rows in rowid order; every statement may fail, the
    failures being arguments ([StoreFaults] and the like), and a failing transaction
    is rolled back.  The adapters act on a world of which only the calls are known;
    a ghost log, which no definition reads, records what was touched.  The gateway
    keeps issued permits in a heap of cells shared by the requests that have found
    them, as the code keeps them behind reference-counted locks; a handler is split
    where it holds no lock, and requests interleave at these points.  A poisoned lock
    is an argument.

    Code of other packages is a class: [Sha256], [RequestJson] and [AuditJson]
    (serde_json), [HexLib], [Rfc3339] (chrono), [GlobLib] (globset), [TomlLib],
    [PolicyFiles], [UnicodeLower] and [UnicodeUpper] (the Unicode tables beyond
    ASCII), [FsOs], [ProcOs] and [NetOs] (the operating system, DNS and the HTTP
    client), [ResourceDebug] (derived debug texts), [RegexLib] (regex), [F64] (the
    floating point of the entropy detector), [ConfigSources] (the configuration
    file, its TOML document and the environment), [CliFiles] (files of requests and
    scenarios), [GatewayTexts], [JsonText] and [JsonPrint] (texts of library errors,
    serde_json), [SqliteTexts] (messages of SQLite), [SetupTexts] (the files that the
    binary embeds).  The laws some theorems need
    (digests of 32 bytes, decoders that invert encoders, the order of RFC 3339
    texts, a file is not a directory, JSON texts that parse back: [JsonLaws] and
    [PrettyLaws]) are separate classes; [Instances], [EnforceExamples] and
    [DashExamples] show that they can hold.  Collision resistance is never
    assumed: the theorem on the head hash finds the collision among the texts that
    were hashed for the two logs.

    Recursion is structural, on the input's bytes, segments, rules, rows, calls or
    lines, with these exceptions, which take fuel.  The polling loop of the command
    adapter takes a number of polls computed from its timeout, and [wait_terminates]
    proves it sufficient.  The search for an exact secret has one round per byte and
    two more, the entropy scan one per byte ([redaction_panics_exactly] shows that
    the redactor then returns or panics as the code does), the decoder of UTF-8 one
    per byte, also where it replaces invalid bytes.  The MCP proxy has one round per line of the client and one more, and
    [mcp_command_vetted] includes that it ends within them.  Its
    redaction of a text that is itself JSON nests: [mcp_redact_text_stable] shows
    that fuel does not change a result and [mcp_redact_text_total] when it is enough;
    the handlers take the redaction of texts as an argument, and what is proved of
    them holds for every such function.

    ** What is proved

    - Requests and paths: validation accepts exactly the well-formed requests and
      reports fixed texts; a path is refused exactly when it climbs above its
      start; a constructed path contains no traversal; the shell scanner finds a
      construct exactly where there is one; permits are used at most once.
    - The program's own tests hold of the model, except one property test that the code
      fails as well: redacting a redacted text can change it
      ([TestRecords.RedactorTests.redaction_not_idempotent]).  Of the property tests,
      those of kavach-core hold for every text their generators make, that of the audit
      chain for every length; those of kavach-approval are run on chosen texts.
    - Policies: the engine returns exactly the decision of the declarative
      specification; an allow is sound; a deny rule always wins; adding
      restrictions never opens access; the order of rules does not matter; matching,
      validation and loading are characterized exactly.
    - Audit: every reachable log verifies; verification accepts exactly the chains;
      equal head hashes mean equal logs, or a collision among the texts that were
      hashed for them; an append adds exactly the redacted event; the encoding is injective on single-line fields.
    - Opening: the audit database can be opened after any interruption of its
      migration; the approval database cannot, after an interruption between its
      indexes; one file for both is accepted and serves only one of them.
    - Approvals: rows only move along their life cycle; an approval is consumed at
      most once and only after its approval with the right token; limits hold for
      sequential calls; every transition leaves one audit event, of its category unless
      the approval expired during an attempt, which is logged as the attempt; what is
      stored is read back.  The interleaving of two requests shows that the limits do not hold
      for concurrent calls.
    - Adapters: the filesystem adapter never leaves the workspace and acts only
      under a permit it has consumed; processes are started only in a safe
      configuration; the network adapter contacts only addresses it has resolved and
      checked, at every hop; outputs, bodies and waiting are bounded.
    - Redaction: the result is the input with exactly the merged matches replaced,
      and the inputs on which the code panics are characterized.
    - Runtime: an evaluation hands out exactly what the policies decide and records
      it; an execution leaves the machine alone or ran under a valid permit with its
      start on record and within the bounds of its adapter; over any history of
      calls an approval yields at most one permit, bought with the token of its
      approval for the request that asked for it; outputs hold no configured secret.
    - Gateway: no handler runs without the operator's token; under any interleaving
      an execution that has an effect was entitled by an earlier decision of this
      gateway, and a permit has an effect at most once; the rate limiter is an exact
      sliding window.  Over HTTP, answers of routes carry the security headers, and
      requests without the token change nothing; a permit survives its way to the
      client and back.
    - Configuration and start: loading is characterized exactly; a gateway that the
      command line brings up is in the secure posture.
    - Command line: the exit code of a policy check is the decision of the
      specification, a policy test succeeds exactly when every scenario is decided as
      labelled, the audit command accepts exactly the valid chains, only one command
      writes to the databases, and a displayed command can be read back.
    - Set-up: merges only add, register what they promise and are idempotent; whatever
      fails, the command changes or creates only the configuration files of the agents
      it detects, and adds its scripts, policy and plugin where they are missing; running
      it twice is running it once, on documents without fractional numbers (the texts of
      those are the library's choice and may not read back unchanged).
    - Dashboard: the feed lines that the policy commands write are read as the decisions
      they were written for, and each is published, in order, and a second time only when
      it is written between the length and the read of a poll; the history is
      the newest matching events; the poller of the database publishes in order but
      skips the event after each batch.
    - MCP proxy: the server gets only what the client sent, and among it no tool-call
      request that was not allowed; a notification escapes the evaluation.
    - The program: whatever arrives at the listener of serve, the machine stays as it
      was unless a request with the operator's token executed what an earlier decision
      of the same run entitled, and without such requests the databases keep their
      contents; the server that the command mcp starts is sent only what the client
      sent, its tool-call requests allowed by a runtime built from the configured policies in
      the secure posture, and the command ends, always with an error.

    ** Not modelled

    The tests of threads, sockets, derived JSON readers, the argument parser and
    compile-time properties, the benchmarks, fuzz targets and examples; the parser of the
    arguments (clap); the pages of the dashboards; how axum matches
    paths and decodes bodies, the semaphore and the timer (axum, tokio, tower-http:
    their verdicts are part of a request); SQLite itself beyond the statements it is
    given; how the operating system runs the MCP server (what it writes is an
    argument); log messages; accessors that return a field, conversions between error
    types that only rename.  Races of other processes on
    the file system and on the database files stay outside, except where a sequence of
    polls or openings is an argument. *)

From stdpp Require Import base tactics list strings.
From Stdlib Require Import ZArith Lia.

(** ** Results

    Rust's [Result<A, E>]; the error type comes first so that partial
    applications read [result DomainError]. *)
Inductive result (E A : Type) : Type :=
| Ok (a : A)
| Err (e : E).

Arguments Ok {E A} a.
Arguments Err {E A} e.

Declare Scope kavach_scope.
Delimit Scope kavach_scope with kavach.

(** Rust's [?] operator: [let? x := c in k] propagates the error of [c]. *)
Notation "'let?' x := c 'in' k" :=
  (match c with Ok x => k | Err e => Err e end)
  (at level 10, x pattern, c at level 100, k at level 200) : kavach_scope.

Open Scope kavach_scope.

(** [Result::map_err]. *)
Definition map_err {E F A} (f : E -> F) (r : result E A) : result F A :=
  match r with Ok a => Ok a | Err e => Err (f e) end.

(** [Option::ok_or_else]. *)
Definition ok_or {E A} (e : E) (o : option A) : result E A :=
  match o with Some a => Ok a | None => Err e end.

Definition is_ok {E A} (r : result E A) : bool :=
  match r with Ok _ => true | Err _ => false end.

(** A [for] loop whose body may return early with an error. *)
Fixpoint for_each {E A} (f : A -> result E unit) (l : list A) : result E unit :=
  match l with
  | [] => Ok tt
  | x :: l' => let? _ := f x in for_each f l'
  end.

(** The same loop over [iter().enumerate()]. *)
Fixpoint for_each_i {E A} (f : Z -> A -> result E unit) (i : Z) (l : list A)
  : result E unit :=
  match l with
  | [] => Ok tt
  | x :: l' => let? _ := f i x in for_each_i f (i + 1)%Z l'
  end.

(** [iter().map(f).collect::<Result<Vec<_>, _>>()]. *)
Fixpoint map_result {E A B} (f : A -> result E B) (l : list A) : result E (list B) :=
  match l with
  | [] => Ok []
  | x :: l' => let? y := f x in let? ys := map_result f l' in Ok (y :: ys)
  end.

(** ** Effects

    Code that threads state and may fail: a computation returns a result and the
    state it leaves behind, which an error does not undo. *)
Definition stateful (S E A : Type) : Type := S -> result E A * S.

Definition st_ret {S E A} (a : A) : stateful S E A := fun s => (Ok a, s).
Definition st_lift {S E A} (r : result E A) : stateful S E A := fun s => (r, s).
Definition st_bind {S E A B} (m : stateful S E A) (k : A -> stateful S E B) : stateful S E B :=
  fun s => match m s with
           | (Ok a, s1) => k a s1
           | (Err e, s1) => (Err e, s1)
           end.

Notation "'let!' x := m 'in' k" := (st_bind m (fun x => k))
  (at level 10, x name, m at level 100, k at level 200) : kavach_scope.

(** ** Automation *)

Create HintDb kavach.

(** Decompose the [match]es and [if]s that produced a value, keeping the
    equations; closes the contradictory branches. *)
Ltac inv_step :=
  match goal with
  | H : Ok _ = Ok _ |- _ => injection H as H; subst
  | H : Err _ = Err _ |- _ => injection H as H; subst
  | H : Ok _ = Err _ |- _ => discriminate H
  | H : Err _ = Ok _ |- _ => discriminate H
  | H : Some _ = Some _ |- _ => injection H as H; subst
  | H : None = Some _ |- _ => discriminate H
  | H : Some _ = None |- _ => discriminate H
  | H : true = false |- _ => discriminate H
  | H : false = true |- _ => discriminate H
  | H : match ?x with _ => _ end = _ |- _ =>
      let E := fresh "E" in destruct x eqn:E
  end.

Ltac inv_all := repeat inv_step.

(** Turn boolean facts into propositions. *)
Ltac bool_prop :=
  repeat match goal with
  | H : (_ && _)%bool = true |- _ => apply andb_true_iff in H as [? ?]
  | H : (_ || _)%bool = false |- _ => apply orb_false_iff in H as [? ?]
  | H : negb _ = true |- _ => apply negb_true_iff in H
  | H : negb _ = false |- _ => apply negb_false_iff in H
  | H : (_ <? _)%Z = true |- _ => apply Z.ltb_lt in H
  | H : (_ <? _)%Z = false |- _ => apply Z.ltb_ge in H
  | H : (_ <=? _)%Z = true |- _ => apply Z.leb_le in H
  | H : (_ <=? _)%Z = false |- _ => apply Z.leb_gt in H
  | H : (_ =? _)%Z = true |- _ => apply Z.eqb_eq in H
  | H : (_ =? _)%Z = false |- _ => apply Z.eqb_neq in H
  | H : String.eqb _ _ = true |- _ => apply String.eqb_eq in H
  | H : String.eqb _ _ = false |- _ => apply String.eqb_neq in H
  | H : bool_decide _ = true |- _ => apply bool_decide_eq_true in H
  | H : bool_decide _ = false |- _ => apply bool_decide_eq_false in H
  end.

(** ** Lemmas on results and loops *)

Lemma is_ok_true {E A} (r : result E A) : is_ok r = true <-> exists a, r = Ok a.
Proof. destruct r; simpl; split; [eauto|done|done|intros [? ?]; done]. Qed.

Lemma map_err_ok {E F A} (f : E -> F) (r : result E A) a :
  map_err f r = Ok a <-> r = Ok a.
Proof. destruct r; simpl; split; congruence. Qed.

Lemma result_unit_bind {E} (r : result E unit) (k : result E unit) :
  (let? _ := r in k) = Ok tt <-> r = Ok tt /\ k = Ok tt.
Proof. destruct r as [[]|]; naive_solver. Qed.

Lemma result_unit_bind_err {E} (r : result E unit) (k : result E unit) e :
  (let? _ := r in k) = Err e <-> r = Err e \/ (r = Ok tt /\ k = Err e).
Proof. destruct r as [[]|]; naive_solver. Qed.

Lemma option_check_ok {E A} (o : option A) (f : A -> result E unit) :
  match o with Some a => f a | None => Ok tt end = Ok tt <->
  forall a, o = Some a -> f a = Ok tt.
Proof. destruct o; naive_solver. Qed.

Lemma option_check_err {E A} (o : option A) (f : A -> result E unit) e :
  match o with Some a => f a | None => Ok tt end = Err e <->
  exists a, o = Some a /\ f a = Err e.
Proof. destruct o; naive_solver. Qed.

Lemma for_each_ok {E A} (f : A -> result E unit) l :
  for_each f l = Ok tt <-> Forall (fun x => f x = Ok tt) l.
Proof.
  induction l as [|x l IH]; simpl; [by split; auto|].
  rewrite Forall_cons. destruct (f x) as [[]|e]; [|naive_solver].
  rewrite IH. naive_solver.
Qed.

Lemma for_each_err {E A} (f : A -> result E unit) l e :
  for_each f l = Err e -> exists x, x ∈ l /\ f x = Err e.
Proof.
  induction l as [|x l IH]; simpl; [done|]. intros H. destruct (f x) eqn:Ex.
  - destruct (IH H) as (y & Hy & Hf). exists y. split; [by right|done].
  - exists x. split; [left|congruence].
Qed.

Lemma map_err_err {E F A} (f : E -> F) (r : result E A) e :
  map_err f r = Err e <-> exists e', r = Err e' /\ e = f e'.
Proof. destruct r; simpl; naive_solver. Qed.

Lemma for_each_i_ok {E A} (f : Z -> A -> result E unit) i l :
  (forall j x, f j x = Ok tt <-> f 0%Z x = Ok tt) ->
  for_each_i f i l = Ok tt <-> Forall (fun x => f 0%Z x = Ok tt) l.
Proof.
  intros Hf. revert i. induction l as [|x l IH]; intros i; simpl; [by split; auto|].
  rewrite Forall_cons. specialize (Hf i x).
  destruct (f i x) as [[]|e] eqn:E1; [rewrite IH; naive_solver|].
  split; [done|]. intros [H _]. apply Hf in H. done.
Qed.

Lemma map_result_ok {E A B} (f : A -> result E B) l ys :
  map_result f l = Ok ys <-> Forall2 (fun x y => f x = Ok y) l ys.
Proof.
  revert ys. induction l as [|x l IH]; intros ys; simpl.
  - split; [intros [= <-]; constructor | by inversion 1].
  - split.
    + intros H. inv_all. constructor; [done|]. by apply IH.
    + inversion 1 as [|? y ? ys' Hx Hl]; subst. rewrite Hx.
      apply IH in Hl as ->. done.
Qed.

(** ** Lemmas on effects *)

Lemma st_bind_inv {S E A B} (m : stateful S E A) (k : A -> stateful S E B) s r s' :
  st_bind m k s = (r, s') ->
  (exists e, m s = (Err e, s') /\ r = Err e) \/
  (exists a s1, m s = (Ok a, s1) /\ k a s1 = (r, s')).
Proof.
  unfold st_bind. destruct (m s) as [[a|e] s1]; [by right; eauto|].
  intros [= <- <-]. left. eauto.
Qed.

Lemma st_bind_ok {S E A B} (m : stateful S E A) (k : A -> stateful S E B) s b s' :
  st_bind m k s = (Ok b, s') <-> exists a s1, m s = (Ok a, s1) /\ k a s1 = (Ok b, s').
Proof. unfold st_bind. destruct (m s) as [[a|e] s1]; naive_solver. Qed.

Lemma st_bind_run {S E A B} (m : stateful S E A) (k : A -> stateful S E B) s a s1 :
  m s = (Ok a, s1) -> st_bind m k s = k a s1.
Proof. unfold st_bind. by intros ->. Qed.

Lemma st_bind_stop {S E A B} (m : stateful S E A) (k : A -> stateful S E B) s e s1 :
  m s = (Err e, s1) -> st_bind m k s = (Err e, s1).
Proof. unfold st_bind. by intros ->. Qed.

(** Run the first step of a sequence, whose outcome [H] determines. *)
Ltac st_run H :=
  erewrite st_bind_run; [|first [exact H | unfold st_lift; rewrite H; reflexivity]];
  cbv beta zeta.

(** A computation only moves the state along [R]. *)
Definition moves {S E A} (R : S -> S -> Prop) (m : stateful S E A) : Prop :=
  forall s, R s (snd (m s)).

Section Moves.
Context {S : Type} (R : S -> S -> Prop) `{!PreOrder R} {E : Type}.

Lemma moves_ret {A} (a : A) : moves R (st_ret a : stateful S E A).
Proof. intros s. apply reflexivity. Qed.

Lemma moves_lift {A} (r : result E A) : moves R (st_lift r).
Proof. intros s. apply reflexivity. Qed.

Lemma moves_bind {A B} (m : stateful S E A) (k : A -> stateful S E B) :
  moves R m -> (forall a, moves R (k a)) -> moves R (st_bind m k).
Proof.
  intros Hm Hk s. unfold st_bind. specialize (Hm s).
  destruct (m s) as [[a|e] s1]; [|done]. etrans; [exact Hm|apply Hk].
Qed.

End Moves.

#[export] Hint Resolve moves_ret moves_lift : kavach.
