(* ===== verification/RustStr.v ===== *)
(** * Rust strings and bytes

    The part of Rust's standard library on [str], [String] and [u8] that the
    program uses.  A [str] is its UTF-8 byte sequence, an [ascii] being one byte;
    [len] is the byte length, as [str::len].  ASCII patterns never match inside
    a multi-byte scalar of valid UTF-8, so the functions that search for ASCII
    characters work on bytes; [chars] decodes the scalars for the few places
    that look at them. *)

From stdpp Require Import base tactics list strings pretty.
From Stdlib Require Import ZArith Lia Ascii.
From S2P Require Import Prelude.

Open Scope Z_scope.

(** The value of a byte. *)
Definition byte_val (c : ascii) : Z := Z.of_N (N_of_ascii c).

(** The byte with a given value (taken modulo 256, as an [as u8] cast). *)
Definition byte_of (z : Z) : ascii := ascii_of_N (Z.to_N (z mod 256)).

(** [str::len]. *)
Definition len (s : string) : Z := Z.of_nat (String.length s).

Definition is_empty (s : string) : bool :=
  match s with "" => true | _ => false end.

(** ** Byte classes of [u8] *)

Definition in_range (lo hi : Z) (c : ascii) : bool :=
  (lo <=? byte_val c) && (byte_val c <=? hi).

Definition is_ascii_digit (c : ascii) : bool := in_range 48 57 c.
Definition is_ascii_uppercase (c : ascii) : bool := in_range 65 90 c.
Definition is_ascii_lowercase (c : ascii) : bool := in_range 97 122 c.
Definition is_ascii_alphabetic (c : ascii) : bool :=
  is_ascii_uppercase c || is_ascii_lowercase c.
Definition is_ascii_alphanumeric (c : ascii) : bool :=
  is_ascii_alphabetic c || is_ascii_digit c.
Definition is_ascii_control (c : ascii) : bool :=
  (byte_val c <? 32) || (byte_val c =? 127).
Definition is_ascii_byte (c : ascii) : bool := byte_val c <? 128.
Definition is_ascii_hexdigit (b : ascii) : bool :=
  is_ascii_digit b || in_range 97 102 b || in_range 65 70 b.

(** ** Iterating over bytes *)

(** [s.bytes().any(p)] and [s.bytes().all(p)]. *)
Fixpoint any_byte (p : ascii -> bool) (s : string) : bool :=
  match s with
  | EmptyString => false
  | String c s' => p c || any_byte p s'
  end.

Fixpoint all_bytes (p : ascii -> bool) (s : string) : bool :=
  match s with
  | EmptyString => true
  | String c s' => p c && all_bytes p s'
  end.

Fixpoint map_bytes (f : ascii -> ascii) (s : string) : string :=
  match s with
  | EmptyString => ""
  | String c s' => String (f c) (map_bytes f s')
  end.

(** [str::is_ascii]. *)
Definition is_ascii (s : string) : bool := all_bytes is_ascii_byte s.

(** [u8::to_ascii_lowercase] and [str::to_ascii_lowercase]. *)
Definition byte_lower (c : ascii) : ascii :=
  if is_ascii_uppercase c then byte_of (byte_val c + 32) else c.

Definition to_ascii_lowercase (s : string) : string := map_bytes byte_lower s.

(** [str::to_lowercase] lowers every scalar by the Unicode tables of the
    standard library; on ASCII strings it is [to_ascii_lowercase].  The tables
    are a parameter. *)
Class UnicodeLower := { unicode_lowercase : string -> string }.

Definition to_lowercase `{UnicodeLower} (s : string) : string :=
  if is_ascii s then to_ascii_lowercase s else unicode_lowercase s.

(** [str::to_uppercase], likewise. *)
Definition byte_upper (c : ascii) : ascii :=
  if is_ascii_lowercase c then byte_of (byte_val c - 32) else c.

Class UnicodeUpper := { unicode_uppercase : string -> string }.

Definition to_uppercase `{UnicodeUpper} (s : string) : string :=
  if is_ascii s then map_bytes byte_upper s else unicode_uppercase s.

(** ** Scalars *)

(** [str::chars]: UTF-8 decoding. *)
Fixpoint chars (s : string) : list Z :=
  match s with
  | EmptyString => []
  | String b0 s0 =>
      let v0 := byte_val b0 in
      if v0 <? 128 then v0 :: chars s0
      else if v0 <? 224 then
        match s0 with
        | String b1 s1 => ((v0 - 192) * 64 + (byte_val b1 - 128)) :: chars s1
        | _ => [v0]
        end
      else if v0 <? 240 then
        match s0 with
        | String b1 (String b2 s2) =>
            ((v0 - 224) * 4096 + (byte_val b1 - 128) * 64 + (byte_val b2 - 128))
              :: chars s2
        | _ => [v0]
        end
      else
        match s0 with
        | String b1 (String b2 (String b3 s3)) =>
            ((v0 - 240) * 262144 + (byte_val b1 - 128) * 4096
             + (byte_val b2 - 128) * 64 + (byte_val b3 - 128)) :: chars s3
        | _ => [v0]
        end
  end.

(** [char::is_control]: the Unicode category Cc. *)
Definition is_control (c : Z) : bool :=
  ((0 <=? c) && (c <? 32)) || ((127 <=? c) && (c <? 160)).

(** [s.chars().count()]. *)
Definition chars_count (s : string) : Z := Z.of_nat (List.length (chars s)).

(** ** White space *)

(** Unicode white space, by its UTF-8 bytes. *)
Definition is_ws1 (b : ascii) : bool := in_range 9 13 b || in_range 32 32 b.
Definition is_ws2 (b0 b1 : ascii) : bool :=
  in_range 194 194 b0 && (in_range 133 133 b1 || in_range 160 160 b1).
Definition is_ws3 (b0 b1 b2 : ascii) : bool :=
  (in_range 225 225 b0 && in_range 154 154 b1 && in_range 128 128 b2)
  || (in_range 226 226 b0
      && ((in_range 128 128 b1 && (in_range 128 138 b2 || in_range 168 169 b2 || in_range 175 175 b2))
          || (in_range 129 129 b1 && in_range 159 159 b2)))
  || (in_range 227 227 b0 && in_range 128 128 b1 && in_range 128 128 b2).

(** [str::trim_start], [str::trim_end] and [str::trim]. *)
Fixpoint trim_start (s : string) : string :=
  match s with
  | EmptyString => s
  | String b0 s1 =>
      if is_ws1 b0 then trim_start s1
      else
        match s1 with
        | EmptyString => s
        | String b1 s2 =>
            if is_ws2 b0 b1 then trim_start s2
            else
              match s2 with
              | EmptyString => s
              | String b2 s3 => if is_ws3 b0 b1 b2 then trim_start s3 else s
              end
        end
  end.

Fixpoint trim_end (s : string) : string :=
  match s with
  | EmptyString => ""
  | String c s' => if is_empty (trim_start s) then "" else String c (trim_end s')
  end.

Definition trim (s : string) : string := trim_end (trim_start s).

(** ** Prefixes, suffixes, searching *)

(** [str::strip_prefix]. *)
Fixpoint strip_prefix (p s : string) : option string :=
  match p, s with
  | EmptyString, _ => Some s
  | String c p', String d s' => if Ascii.eqb c d then strip_prefix p' s' else None
  | String _ _, EmptyString => None
  end.

(** [str::starts_with]. *)
Definition starts_with (p s : string) : bool :=
  match strip_prefix p s with Some _ => true | None => false end.

(** [str::strip_suffix]. *)
Fixpoint strip_suffix (p s : string) : option string :=
  if String.eqb p s then Some ""
  else match s with
       | EmptyString => None
       | String c s' =>
           match strip_suffix p s' with Some r => Some (String c r) | None => None end
       end.

(** [str::ends_with]. *)
Definition ends_with (p s : string) : bool :=
  match strip_suffix p s with Some _ => true | None => false end.

(** The line feed. *)
Definition is_lf (b : ascii) : bool := Ascii.eqb b (byte_of 10).

(** [s.trim_end_matches(c)] for a one-byte pattern. *)
Fixpoint trim_end_matches (c : ascii) (s : string) : string :=
  match s with
  | EmptyString => ""
  | String d s' =>
      let r := trim_end_matches c s' in
      if Ascii.eqb c d && is_empty r then "" else String d r
  end.

(** [s.split(p)]: the pieces between the matching bytes, never empty. *)
Fixpoint split_on (p : ascii -> bool) (s : string) : list string :=
  match s with
  | EmptyString => [""]
  | String c s' =>
      if p c then "" :: split_on p s'
      else match split_on p s' with
           | h :: t => String c h :: t
           | [] => [String c ""]
           end
  end.

(** [str::contains] with a string pattern. *)
Fixpoint contains (p s : string) : bool :=
  starts_with p s || match s with EmptyString => false | String _ s' => contains p s' end.

(** The part before the first matching byte and the part from it
    ([bytes().position] and slicing there). *)
Fixpoint find_split (p : ascii -> bool) (s : string) : option (string * string) :=
  match s with
  | EmptyString => None
  | String c s' =>
      if p c then Some ("", s)
      else match find_split p s' with
           | Some (a, b) => Some (String c a, b)
           | None => None
           end
  end.

(** The prefix and the rest of a string at a byte offset ([str::split_at]). *)
Fixpoint split_at (n : nat) (s : string) : string * string :=
  match n, s with
  | S n', String c s' => let '(a, b) := split_at n' s' in (String c a, b)
  | _, _ => ("", s)
  end.

(** [slice::join] and [format!("{}{}")]. *)
Definition join (sep : string) (l : list string) : string := String.concat sep l.

(** The decimal rendering of an unsigned integer ([to_string] on [u16], [u64],
    [usize]). *)
Definition dec (n : Z) : string := pretty (Z.to_N n).

(** ** Lemmas *)

Lemma byte_val_inj c d : byte_val c = byte_val d -> c = d.
Proof.
  unfold byte_val. intros H. apply N2Z.inj in H.
  by rewrite <- (ascii_N_embedding c), <- (ascii_N_embedding d), H.
Qed.

Lemma byte_val_range c : 0 <= byte_val c < 256.
Proof. unfold byte_val. pose proof (N_ascii_bounded c). lia. Qed.

Lemma len_nonneg s : 0 <= len s.
Proof. unfold len. lia. Qed.

Lemma is_empty_true s : is_empty s = true <-> s = "".
Proof. destruct s; done. Qed.

Lemma is_empty_false s : is_empty s = false <-> s <> "".
Proof. destruct s; done. Qed.

Lemma append_cons c a b : String c a +:+ b = String c (a +:+ b).
Proof. done. Qed.

Lemma append_nil_l b : "" +:+ b = b.
Proof. done. Qed.

Lemma append_nil_r a : a +:+ "" = a.
Proof. induction a as [|c a IH]; [done|]. by rewrite append_cons, IH. Qed.

Lemma append_assoc a b c : (a +:+ b) +:+ c = a +:+ b +:+ c.
Proof. induction a as [|x a IH]; [done|]. by rewrite !append_cons, IH. Qed.

Lemma append_inj_l a b c : a +:+ b = a +:+ c -> b = c.
Proof. induction a as [|x a IH]; [done|]. rewrite !append_cons. intros [=]. auto. Qed.

Lemma len_append a b : len (a +:+ b) = len a + len b.
Proof.
  unfold len. induction a as [|c a IH]; [done|].
  rewrite append_cons. simpl. lia.
Qed.

Lemma len_cons c s : len (String c s) = 1 + len s.
Proof. unfold len. simpl. lia. Qed.

Lemma len_zero s : len s = 0 -> s = "".
Proof. destruct s; [done|]. rewrite len_cons. pose proof (len_nonneg s). lia. Qed.

Lemma any_byte_append p a b : any_byte p (a +:+ b) = any_byte p a || any_byte p b.
Proof.
  induction a as [|c a IH]; [done|].
  rewrite append_cons. simpl. by rewrite IH, orb_assoc.
Qed.

Lemma all_bytes_append p a b : all_bytes p (a +:+ b) = all_bytes p a && all_bytes p b.
Proof.
  induction a as [|c a IH]; [done|].
  rewrite append_cons. simpl. by rewrite IH, andb_assoc.
Qed.

Lemma any_byte_all p s : any_byte p s = negb (all_bytes (fun c => negb (p c)) s).
Proof. induction s as [|c s IH]; [done|]. simpl. rewrite IH. by destruct (p c). Qed.

Lemma any_byte_false_mono p q s :
  (forall c, q c = true -> p c = true) -> any_byte p s = false -> any_byte q s = false.
Proof.
  intros Hpq. induction s as [|c s IH]; [done|]. simpl.
  intros H. bool_prop. destruct (q c) eqn:E; [rewrite Hpq in *; done|]. auto.
Qed.

Lemma strip_prefix_Some p s r : strip_prefix p s = Some r <-> s = p +:+ r.
Proof.
  revert s. induction p as [|c p IH]; intros s; simpl; [naive_solver|].
  rewrite append_cons. destruct s as [|d s]; [done|].
  destruct (Ascii.eqb_spec c d) as [->|Hne]; [rewrite IH|]; naive_solver.
Qed.

Lemma starts_with_spec p s : starts_with p s = true <-> exists r, s = p +:+ r.
Proof.
  unfold starts_with. split.
  - destruct (strip_prefix p s) as [r|] eqn:E; [|done].
    intros _. exists r. by apply strip_prefix_Some.
  - intros [r Hr]. apply strip_prefix_Some in Hr. by rewrite Hr.
Qed.

Lemma append_inj_r a b p : a +:+ p = b +:+ p -> a = b.
Proof.
  revert b. induction a as [|x a IH]; intros [|y b];
    rewrite ?append_nil_l, ?append_cons; intros H; [done| | |].
  1: apply (f_equal len) in H; rewrite len_cons, len_append in H;
     pose proof (len_nonneg b); lia.
  1: apply (f_equal len) in H; rewrite len_cons, len_append in H;
     pose proof (len_nonneg a); lia.
  injection H as -> H. f_equal. auto.
Qed.

Lemma strip_suffix_append p r : strip_suffix p (r +:+ p) = Some r.
Proof.
  induction r as [|c r IH].
  - rewrite append_nil_l. destruct p; simpl; [done|]. by rewrite Ascii.eqb_refl, String.eqb_refl.
  - rewrite append_cons. simpl. rewrite IH.
    destruct (String.eqb_spec p (String c (r +:+ p))) as [Heq|]; [|done].
    apply (f_equal len) in Heq. rewrite len_cons, len_append in Heq.
    pose proof (len_nonneg r). lia.
Qed.

Lemma strip_suffix_Some p s r : strip_suffix p s = Some r <-> s = r +:+ p.
Proof.
  split; [|intros ->; apply strip_suffix_append].
  revert r. induction s as [|c s IH]; intros r; simpl.
  - destruct (String.eqb_spec p ""); intros; by simplify_eq.
  - destruct (String.eqb_spec p (String c s)) as [->|Hne]; [by intros [= <-]|].
    destruct (strip_suffix p s) as [q|]; [|done].
    intros [= <-]. rewrite append_cons. f_equal. by apply IH.
Qed.

(** Splitting. *)

Lemma split_on_nonempty p s : exists h t, split_on p s = h :: t.
Proof.
  induction s as [|c s (h & t & IH)]; simpl; [eauto|].
  rewrite IH. destruct (p c); eauto.
Qed.

Lemma split_on_pieces p s : Forall (fun x => any_byte p x = false) (split_on p s).
Proof.
  induction s as [|c s IH]; simpl; [repeat constructor|].
  destruct (p c) eqn:Hc; [by constructor|].
  destruct (split_on p s) as [|h t]; [by repeat constructor; simpl; rewrite Hc|].
  inversion_clear IH. constructor; [simpl; by rewrite Hc|done].
Qed.

Lemma split_on_none p s : any_byte p s = false -> split_on p s = [s].
Proof.
  induction s as [|c s IH]; [done|]. simpl. intros H. bool_prop.
  rewrite H, IH by done. done.
Qed.

Lemma split_on_append p a c b :
  any_byte p a = false -> p c = true ->
  split_on p (a +:+ String c b) = a :: split_on p b.
Proof.
  intros Ha Hc. induction a as [|x a IH].
  - rewrite append_nil_l. simpl. by rewrite Hc.
  - simpl in Ha. bool_prop. rewrite append_cons. simpl. by rewrite H, IH.
Qed.

Lemma concat_cons2 sep x y l :
  String.concat sep (x :: y :: l) = x +:+ sep +:+ String.concat sep (y :: l).
Proof. done. Qed.

(** [split] undoes [join] when the pieces hold no separator. *)
Lemma split_on_join p c l :
  p c = true -> l <> [] -> Forall (fun x => any_byte p x = false) l ->
  split_on p (join (String c "") l) = l.
Proof.
  intros Hc. unfold join. induction l as [|x l IH]; intros Hne Hl; [done|].
  inversion_clear Hl. destruct l as [|y l].
  - simpl. by apply split_on_none.
  - rewrite concat_cons2, append_cons, append_nil_l.
    rewrite split_on_append by done. f_equal. by apply IH.
Qed.

(** [join] undoes [split] on the separator itself. *)
Lemma join_split_on c s :
  join (String c "") (split_on (Ascii.eqb c) s) = s.
Proof.
  unfold join. induction s as [|d s IH]; [done|]. simpl.
  destruct (split_on_nonempty (Ascii.eqb c) s) as (h & t & Hs).
  rewrite Hs in *. destruct (Ascii.eqb_spec c d) as [->|Hne].
  - rewrite concat_cons2, append_nil_l, append_cons, append_nil_l. by rewrite IH.
  - destruct t as [|h' t].
    + simpl in *. by rewrite IH.
    + rewrite concat_cons2 in *. rewrite append_cons. by rewrite IH.
Qed.

Lemma split_at_append n s : let '(a, b) := split_at n s in s = a +:+ b.
Proof.
  revert s. induction n as [|n IH]; intros [|c s]; simpl; try done.
  specialize (IH s). destruct (split_at n s) as [a b].
  rewrite append_cons. by rewrite <- IH.
Qed.

(** Trimming. *)

Lemma trim_end_matches_idem c s :
  trim_end_matches c (trim_end_matches c s) = trim_end_matches c s.
Proof.
  induction s as [|d s IH]; [done|]. simpl.
  destruct (Ascii.eqb c d && is_empty (trim_end_matches c s)) eqn:E; [done|].
  simpl. rewrite IH, E. done.
Qed.

Lemma trim_end_matches_any p c s :
  any_byte p s = false -> any_byte p (trim_end_matches c s) = false.
Proof.
  induction s as [|d s IH]; [done|]. simpl. intros H. bool_prop.
  destruct (_ && _); [done|]. simpl. rewrite H. auto.
Qed.

Lemma trim_end_matches_id c s :
  any_byte (Ascii.eqb c) s = false -> trim_end_matches c s = s.
Proof.
  induction s as [|d s IH]; [done|]. simpl. intros H. bool_prop.
  rewrite H. simpl. by rewrite IH.
Qed.

(** Decimal rendering. *)

Lemma dec_inj n m : 0 <= n -> 0 <= m -> dec n = dec m -> n = m.
Proof.
  unfold dec. intros Hn Hm H. apply (inj pretty) in H. lia.
Qed.

(** The bytes of a decimal number are digits. *)
Lemma pretty_N_go_bytes p x s :
  (forall d, p (pretty_N_char d) = false) -> any_byte p s = false ->
  any_byte p (pretty_N_go x s) = false.
Proof.
  intros Hd. revert s. induction (N.lt_wf_0 x) as [x _ IH]. intros s Hs.
  destruct (decide (0 < x)%N) as [Hx|Hx].
  - rewrite pretty_N_go_step by done. apply IH; [by apply N.div_lt|]. simpl. by rewrite Hd.
  - assert (x = 0%N) as -> by lia. by rewrite pretty_N_go_0.
Qed.

Lemma dec_bytes p n : (forall d, p (pretty_N_char d) = false) -> any_byte p (dec n) = false.
Proof.
  intros Hd. unfold dec, pretty, pretty_N. case_decide as H0; [|by apply pretty_N_go_bytes].
  simpl. rewrite orb_false_r. apply (Hd 0%N).
Qed.
