(* ===== verification/Utf8.v ===== *)
(** * UTF-8 text

    Rust's [&str] is UTF-8: validity ([str::from_utf8]), character boundaries, and
    the operations that panic off a boundary (slicing and [String::replace_range]).
    Offsets are numbers of bytes. *)

From stdpp Require Import base tactics list strings.
From Stdlib Require Import ZArith Lia Ascii.
From S2P Require Import Prelude RustStr.

Open Scope Z_scope.

(** ** Validity *)

Definition is_continuation (b : ascii) : bool := in_range 128 191 b.

(** The text after its first scalar; [None] if it does not start with one. *)
Definition utf8_char (s : string) : option string :=
  match s with
  | EmptyString => None
  | String b0 s1 =>
      if in_range 0 127 b0 then Some s1
      else
        match s1 with
        | EmptyString => None
        | String b1 s2 =>
            if in_range 194 223 b0 then if is_continuation b1 then Some s2 else None
            else
              match s2 with
              | EmptyString => None
              | String b2 s3 =>
                  if (in_range 224 224 b0 && in_range 160 191 b1)
                     || (in_range 225 236 b0 && is_continuation b1)
                     || (in_range 237 237 b0 && in_range 128 159 b1)
                     || (in_range 238 239 b0 && is_continuation b1) then
                    if is_continuation b2 then Some s3 else None
                  else
                    match s3 with
                    | EmptyString => None
                    | String b3 s4 =>
                        if (in_range 240 240 b0 && in_range 144 191 b1)
                           || (in_range 241 243 b0 && is_continuation b1)
                           || (in_range 244 244 b0 && in_range 128 143 b1) then
                          if is_continuation b2 && is_continuation b3 then Some s4 else None
                        else None
                    end
              end
        end
  end.

Fixpoint utf8_go (fuel : nat) (s : string) : bool :=
  match fuel with
  | O => is_empty s
  | S n => is_empty s || match utf8_char s with Some r => utf8_go n r | None => false end
  end.

(** [str::from_utf8] accepts the bytes; every scalar takes at least one. *)
Definition utf8 (s : string) : bool := utf8_go (String.length s) s.

(** The same, as a relation. *)
Inductive Utf8 : string -> Prop :=
| Utf8_nil : Utf8 ""
| Utf8_char s r : utf8_char s = Some r -> Utf8 r -> Utf8 s.

(** ** Boundaries *)

Definition str_take (n : nat) (s : string) : string := fst (split_at n s).
Definition str_drop (n : nat) (s : string) : string := snd (split_at n s).

(** [str::is_char_boundary]: the start, the end, or a byte that does not continue
    a scalar. *)
Definition is_char_boundary (s : string) (i : nat) : bool :=
  if (i =? 0)%nat then true
  else
    match String.get i s with
    | Some c => negb (is_continuation c)
    | None => (i =? String.length s)%nat
    end.

(** [&s[i..]]; [None] is a panic. *)
Definition slice_from (s : string) (i : nat) : option string :=
  if is_char_boundary s i then Some (str_drop i s) else None.

(** [s.replace_range(a..b, with)]. *)
Definition replace_range (s : string) (a b : nat) (w : string) : option string :=
  if (a <=? b)%nat && is_char_boundary s a && is_char_boundary s b then
    Some (str_take a s +:+ w +:+ str_drop b s)
  else None.

(** The first occurrence of [p] ([str::find]). *)
Fixpoint str_find (p s : string) : option nat :=
  if starts_with p s then Some O
  else match s with EmptyString => None | String _ s' => option_map S (str_find p s') end.

(** [String::from_utf8_lossy]: a maximal start of a scalar that does not go on, or else a
    single byte, becomes the replacement character. *)
Definition bad_length (s : string) : nat :=
  match s with
  | String b0 (String b1 s2) =>
      if (in_range 224 224 b0 && in_range 160 191 b1)
         || (in_range 225 236 b0 && is_continuation b1)
         || (in_range 237 237 b0 && in_range 128 159 b1)
         || (in_range 238 239 b0 && is_continuation b1) then 2
      else if (in_range 240 240 b0 && in_range 144 191 b1)
              || (in_range 241 243 b0 && is_continuation b1)
              || (in_range 244 244 b0 && in_range 128 143 b1) then
        match s2 with String b2 _ => if is_continuation b2 then 3 else 2 | EmptyString => 2 end
      else 1
  | _ => 1
  end.

Definition REPLACEMENT : string :=
  String (byte_of 239) (String (byte_of 191) (String (byte_of 189) "")).

Fixpoint lossy_go (fuel : nat) (s : string) : string :=
  match fuel with
  | O => ""
  | S n =>
      if is_empty s then ""
      else match utf8_char s with
           | Some r => str_take (String.length s - String.length r) s +:+ lossy_go n r
           | None => REPLACEMENT +:+ lossy_go n (str_drop (bad_length s) s)
           end
  end.

Definition utf8_lossy (s : string) : string := lossy_go (String.length s) s.

(** Whether the text starts inside a scalar. *)
Definition starts_inside (s : string) : bool :=
  match s with String c _ => is_continuation c | EmptyString => false end.

(** ** Lemmas *)

Lemma utf8_char_cases s r :
  utf8_char s = Some r ->
  exists b0 p, s = String b0 (p +:+ r) /\ is_continuation b0 = false /\
    all_bytes is_continuation p = true.
Proof.
  assert (Hc : forall lo hi b, in_range lo hi b = true -> 192 <= lo -> is_continuation b = false).
  { intros lo hi b. unfold is_continuation, in_range. rewrite andb_true_iff, Z.leb_le. intros [Hl _] H2.
    apply andb_false_iff. right. apply Z.leb_gt. lia. }
  assert (Hr : forall lo hi b, in_range lo hi b = true -> 128 <= lo -> hi <= 191 -> is_continuation b = true).
  { intros lo hi b. unfold is_continuation, in_range. rewrite !andb_true_iff, !Z.leb_le. lia. }
  unfold utf8_char. destruct s as [|b0 s1]; [done|].
  destruct (in_range 0 127 b0) eqn:E0.
  { intros [= ->]. exists b0, "". split_and!; [done| |done].
    unfold is_continuation, in_range in *. rewrite andb_true_iff, !Z.leb_le in E0.
    apply andb_false_iff. left. apply Z.leb_gt. lia. }
  destruct s1 as [|b1 s2]; [done|].
  destruct (in_range 194 223 b0) eqn:E1.
  { destruct (is_continuation b1) eqn:C1; [|done]. intros [= ->].
    exists b0, (String b1 ""). split_and!; [done|by apply (Hc _ _ _ E1)|simpl; by rewrite C1]. }
  destruct s2 as [|b2 s3]; [done|].
  match goal with |- context [if ?c then _ else _] => destruct c eqn:E2 end.
  { destruct (is_continuation b2) eqn:C2; [|done]. intros [= ->].
    exists b0, (String b1 (String b2 "")). simpl. rewrite C2. rewrite !orb_true_iff, !andb_true_iff in E2.
    split_and!; [done| |].
    - destruct E2 as [[[[E2 _]|[E2 _]]|[E2 _]]|[E2 _]]; by apply (Hc _ _ _ E2).
    - rewrite andb_true_r. destruct E2 as [[[[_ E2]|[_ E2]]|[_ E2]]|[_ E2]]; try done;
        by apply (Hr _ _ _ E2). }
  destruct s3 as [|b3 s4]; [done|].
  match goal with |- context [if ?c then _ else _] => destruct c eqn:E3 end; [|done].
  destruct (is_continuation b2) eqn:C2; [|done]. destruct (is_continuation b3) eqn:C3; [|done].
  intros [= ->]. exists b0, (String b1 (String b2 (String b3 ""))). simpl. rewrite C2, C3.
  rewrite !orb_true_iff, !andb_true_iff in E3. split_and!; [done| |].
  - destruct E3 as [[[E3 _]|[E3 _]]|[E3 _]]; by apply (Hc _ _ _ E3).
  - rewrite andb_true_r. destruct E3 as [[[_ E3]|[_ E3]]|[_ E3]]; try done; by apply (Hr _ _ _ E3).
Qed.

Lemma utf8_char_append a r b : utf8_char a = Some r -> utf8_char (a +:+ b) = Some (r +:+ b).
Proof.
  unfold utf8_char.
  destruct a as [|b0 [|b1 [|b2 [|b3 a]]]]; simpl; try done; repeat case_match; try done;
    by intros [= <-].
Qed.

Lemma utf8_char_shorter s r : utf8_char s = Some r -> (String.length r < String.length s)%nat.
Proof.
  intros (b0 & p & -> & _)%utf8_char_cases. simpl.
  pose proof (len_append p r). unfold len in *. lia.
Qed.

Lemma utf8_go_spec n s : (String.length s <= n)%nat -> utf8_go n s = true <-> Utf8 s.
Proof.
  revert s. induction n as [|n IH]; intros s Hn; simpl.
  - destruct s; simpl in *; [|lia]. split; [intros _; constructor|done].
  - rewrite orb_true_iff, is_empty_true. split.
    + intros [->|Hs]; [constructor|]. destruct (utf8_char s) as [r|] eqn:E; [|done].
      econstructor; [exact E|]. apply IH; [|done]. apply utf8_char_shorter in E. lia.
    + inversion 1 as [|? r E Hr]; subst; [by left|right]. rewrite E. apply IH; [|done].
      apply utf8_char_shorter in E. lia.
Qed.

Lemma utf8_spec s : utf8 s = true <-> Utf8 s.
Proof. by apply utf8_go_spec. Qed.

Lemma Utf8_append a b : Utf8 a -> Utf8 b -> Utf8 (a +:+ b).
Proof.
  induction 1 as [|a r E _ IH]; intros Hb; [done|]. econstructor; [by apply utf8_char_append|auto].
Qed.

Lemma Utf8_append_inv a b : Utf8 a -> Utf8 (a +:+ b) -> Utf8 b.
Proof.
  induction 1 as [|a r E _ IH]; intros Hab; [done|]. apply IH.
  pose proof (utf8_char_append a r b E) as E'. inversion Hab as [Hn|? r' E2 Hr]; subst.
  - apply utf8_char_cases in E as (b0 & p & -> & _). done.
  - congruence.
Qed.

(** No text starts inside a scalar. *)
Lemma Utf8_starts s : Utf8 s -> starts_inside s = false.
Proof. inversion 1 as [|? r E _]; [done|]. by apply utf8_char_cases in E as (b0 & p & -> & Hb & _). Qed.

Lemma str_length_append a b : String.length (a +:+ b) = (String.length a + String.length b)%nat.
Proof. pose proof (len_append a b). unfold len in *. lia. Qed.

(** The bytes of a scalar do not depend on what follows. *)
Lemma utf8_char_frame c p x y :
  utf8_char (String c (p +:+ x)) = Some x -> utf8_char (String c (p +:+ y)) = Some y.
Proof.
  unfold utf8_char.
  destruct p as [|c1 [|c2 [|c3 [|c4 p]]]]; rewrite ?append_cons, ?append_nil_l; intros E;
    repeat case_match; try done; exfalso; subst;
    apply (f_equal (option_map String.length)) in E; injection E as E;
    repeat (cbn [String.length] in E; rewrite ?str_length_append in E); lia.
Qed.

(** A scalar is not cut by a boundary. *)
Lemma utf8_char_split a b r :
  utf8_char (a +:+ b) = Some r -> a <> "" -> starts_inside b = false ->
  exists a', utf8_char a = Some a' /\ r = a' +:+ b.
Proof.
  intros E Ha Hb. pose proof E as (b0 & p & Heq & _ & Hp)%utf8_char_cases.
  destruct a as [|c a]; [done|]. rewrite append_cons in Heq. injection Heq as <- Heq.
  assert (Hpre : exists a', a = p +:+ a' /\ r = a' +:+ b).
  { clear E Ha. revert p Heq Hp. induction a as [|d a IH]; intros p Heq Hp.
    - rewrite append_nil_l in Heq. destruct p as [|d p]; [by exists ""|]. subst b.
      rewrite append_cons in Hb. simpl in Hb, Hp. by rewrite Hb in Hp.
    - destruct p as [|d' p]; [by exists (String d a)|]. rewrite !append_cons in Heq.
      injection Heq as <- Heq. simpl in Hp. apply andb_true_iff in Hp as [_ Hp].
      destruct (IH p Heq Hp) as (a' & -> & ->). by exists a'. }
  destruct Hpre as (a' & -> & ->). exists a'. split; [|done].
  rewrite append_cons, append_assoc in E. by eapply utf8_char_frame.
Qed.

(** A boundary splits a text into texts. *)
Lemma Utf8_split a b : Utf8 (a +:+ b) -> starts_inside b = false -> Utf8 a /\ Utf8 b.
Proof.
  intros Hab Hb. remember (a +:+ b) as s eqn:Es. revert a Es.
  induction Hab as [|s r E Hr IH]; intros a Es.
  - destruct a; [|done]. rewrite append_nil_l in Es. subst b. split; constructor.
  - subst s. destruct a as [|c a]; [split; [constructor|by econstructor]|].
    apply utf8_char_split in E as (a' & Ha & ->); [|done..].
    destruct (IH a' eq_refl) as [Ha' Hb']. split; [by econstructor|done].
Qed.

(** *** Offsets *)

Lemma take_drop n s : s = str_take n s +:+ str_drop n s.
Proof. unfold str_take, str_drop. pose proof (split_at_append n s). by destruct (split_at n s). Qed.

Lemma str_take_0 s : str_take 0 s = "".
Proof. by destruct s. Qed.

Lemma str_drop_0 s : str_drop 0 s = s.
Proof. by destruct s. Qed.

Lemma str_take_S n c s : str_take (S n) (String c s) = String c (str_take n s).
Proof. unfold str_take. simpl. by destruct (split_at n s). Qed.

Lemma str_drop_S n c s : str_drop (S n) (String c s) = str_drop n s.
Proof. unfold str_drop. simpl. by destruct (split_at n s). Qed.

Lemma take_length n s : String.length (str_take n s) = Nat.min n (String.length s).
Proof.
  revert s. induction n as [|n IH]; intros s; [by rewrite str_take_0|].
  destruct s; [done|]. rewrite str_take_S. simpl. by rewrite IH.
Qed.

Lemma drop_length n s : String.length (str_drop n s) = (String.length s - n)%nat.
Proof.
  pose proof (f_equal String.length (take_drop n s)) as H.
  rewrite str_length_append, take_length in H. lia.
Qed.

Lemma take_append n a b : (n <= String.length a)%nat -> str_take n (a +:+ b) = str_take n a.
Proof.
  revert a. induction n as [|n IH]; intros a Hn; [by rewrite !str_take_0|].
  destruct a as [|c a]; simpl in Hn; [lia|]. rewrite append_cons, !str_take_S, IH; [done|lia].
Qed.

Lemma drop_append n a b : (n <= String.length a)%nat -> str_drop n (a +:+ b) = str_drop n a +:+ b.
Proof.
  revert a. induction n as [|n IH]; intros a Hn; [by rewrite !str_drop_0|].
  destruct a as [|c a]; simpl in Hn; [lia|]. rewrite append_cons, !str_drop_S, IH; [done|lia].
Qed.

Lemma drop_append_r n a b :
  (String.length a <= n)%nat -> str_drop n (a +:+ b) = str_drop (n - String.length a) b.
Proof.
  revert n. induction a as [|c a IH]; intros n Hn.
  - rewrite append_nil_l. simpl. f_equal. lia.
  - simpl in Hn. destruct n; [lia|]. rewrite append_cons, str_drop_S, IH by lia. done.
Qed.

Lemma drop_drop n m s : str_drop n (str_drop m s) = str_drop (m + n) s.
Proof.
  revert s. induction m as [|m IH]; intros s; [by rewrite str_drop_0|].
  destruct s; [by destruct n|]. by rewrite str_drop_S, IH, Nat.add_succ_l, str_drop_S.
Qed.

Lemma take_all n s : (String.length s <= n)%nat -> str_take n s = s.
Proof.
  revert s. induction n as [|n IH]; intros s Hn; destruct s; simpl in *; try done; [lia|].
  rewrite str_take_S, IH; [done|lia].
Qed.

Lemma get_drop i s : String.get i s = match str_drop i s with String c _ => Some c | _ => None end.
Proof.
  revert s. induction i as [|i IH]; intros s; destruct s as [|c s]; try done.
  rewrite str_drop_S. apply IH.
Qed.

(** The boundaries of a text are where it splits. *)
Lemma char_boundary_spec s i :
  Utf8 s ->
  is_char_boundary s i = true <->
  (i <= String.length s)%nat /\ Utf8 (str_take i s) /\ Utf8 (str_drop i s).
Proof.
  intros Hs. unfold is_char_boundary. destruct (Nat.eqb_spec i 0) as [->|Hi].
  { rewrite str_take_0, str_drop_0. split; [intros _|done]. split_and!; [lia|constructor|done]. }
  rewrite get_drop. pose proof (drop_length i s) as Hl. split.
  - intros Hb. assert (Hin : starts_inside (str_drop i s) = false /\ (i <= String.length s)%nat).
    { destruct (str_drop i s); simpl in *; [apply Nat.eqb_eq in Hb; split; [done|lia]|].
      apply negb_true_iff in Hb. split; [done|lia]. }
    destruct Hin as [Hin Hle]. split; [done|]. apply Utf8_split; [by rewrite <- take_drop|done].
  - intros (Hle & _ & Hd%Utf8_starts). destruct (str_drop i s); simpl in *; [apply Nat.eqb_eq; lia|].
    by rewrite Hd.
Qed.

Lemma char_boundary_le s i : is_char_boundary s i = true -> (i <= String.length s)%nat.
Proof.
  unfold is_char_boundary. rewrite get_drop. pose proof (drop_length i s) as Hl.
  destruct (Nat.eqb_spec i 0); [lia|].
  destruct (str_drop i s); simpl in *; [intros ->%Nat.eqb_eq; lia|]. lia.
Qed.

(** *** Occurrences *)

(** [p] occurs in [s] at [i]. *)
Definition occurs_at (p s : string) (i : nat) : Prop :=
  (i <= String.length s)%nat /\ starts_with p (str_drop i s) = true.

Lemma occurs_S p c s i : occurs_at p (String c s) (S i) <-> occurs_at p s i.
Proof. unfold occurs_at. rewrite str_drop_S. simpl. split; intros [? ?]; (split; [lia|done]). Qed.

Lemma occurs_end p s i : occurs_at p s i -> (i + String.length p <= String.length s)%nat.
Proof.
  intros [Hi [r Hr]%starts_with_spec]. pose proof (drop_length i s) as Hl.
  rewrite Hr, str_length_append in Hl. lia.
Qed.

(** [str_find] returns the first occurrence. *)
Lemma str_find_Some p s i :
  str_find p s = Some i -> occurs_at p s i /\ forall j, (j < i)%nat -> ~ occurs_at p s j.
Proof.
  revert i. induction s as [|c s IH]; intros i; simpl.
  - destruct (starts_with p "") eqn:E; [|done]. intros [= <-]. split; [|lia]. by split.
  - destruct (starts_with p (String c s)) eqn:E.
    { intros [= <-]. split; [|lia]. split; [lia|]. by rewrite str_drop_0. }
    destruct (str_find p s) as [k|]; [|done]. intros [= <-].
    destruct (IH k eq_refl) as [Hk Hj]. split; [by apply occurs_S|].
    intros [|j] Hlt Ho; [|apply (Hj j); [lia|by apply occurs_S in Ho]].
    destruct Ho as [_ Ho]. rewrite str_drop_0 in Ho. congruence.
Qed.

Lemma str_find_None p s : str_find p s = None -> forall j, ~ occurs_at p s j.
Proof.
  induction s as [|c s IH]; simpl; intros Hf j Ho.
  - destruct (starts_with p "") eqn:E; [done|]. destruct Ho as [Hj Ho]. simpl in Hj.
    assert (j = 0%nat) as -> by lia. rewrite str_drop_0 in Ho. congruence.
  - destruct (starts_with p (String c s)) eqn:E; [done|].
    destruct (str_find p s) eqn:Ef; [done|]. destruct j as [|j].
    + destruct Ho as [_ Ho]. rewrite str_drop_0 in Ho. congruence.
    + apply occurs_S in Ho. by apply (IH eq_refl j).
Qed.

Lemma occurs_drop p s n i :
  (n <= String.length s)%nat -> occurs_at p (str_drop n s) i <-> occurs_at p s (n + i).
Proof. intros Hn. unfold occurs_at. rewrite drop_drop, drop_length. split; intros [? ?]; (split; [lia|done]). Qed.

(** In a text, a text occurs between boundaries. *)
Lemma occurs_boundaries p s i :
  Utf8 s -> Utf8 p -> p <> "" -> occurs_at p s i ->
  is_char_boundary s i = true /\ is_char_boundary s (i + String.length p) = true.
Proof.
  intros Hs Hp Hne Ho. pose proof (occurs_end p s i Ho) as Hend. destruct Ho as [Hi [r Hr]%starts_with_spec].
  assert (Hin : starts_inside (str_drop i s) = false).
  { rewrite Hr. apply Utf8_starts in Hp. by destruct p. }
  pose proof (take_drop i s) as Htd.
  destruct (Utf8_split (str_take i s) (str_drop i s)) as [Ha Hb]; [by rewrite <- Htd|done|].
  rewrite Hr in Hb. pose proof (Utf8_append_inv p r Hp Hb) as Hrest.
  assert (Hl : String.length (str_take i s) = i) by (rewrite take_length; lia).
  split; apply char_boundary_spec; [done| |done|].
  - split_and!; [lia|done|rewrite Hr; done].
  - assert (Hs' : s = (str_take i s +:+ p) +:+ r) by (rewrite append_assoc, <- Hr; exact Htd).
    split; [lia|]. rewrite Hs'.
    assert (Hlen : (i + String.length p)%nat = String.length (str_take i s +:+ p))
      by (rewrite str_length_append, Hl; done).
    rewrite Hlen, take_append, drop_append by lia. rewrite take_all by lia.
    assert (Hz : str_drop (String.length (str_take i s +:+ p)) (str_take i s +:+ p) = "").
    { apply len_zero. unfold len. rewrite drop_length. lia. }
    rewrite Hz, append_nil_l. split; [by apply Utf8_append|done].
Qed.

(** Valid text is left alone. *)
Lemma lossy_go_valid n s : (String.length s <= n)%nat -> Utf8 s -> lossy_go n s = s.
Proof.
  intros Hn Hs. revert n Hn. induction Hs as [|s r Hr Hs IH]; intros n Hn; [by destruct n|].
  pose proof (utf8_char_shorter _ _ Hr) as Hl. destruct n as [|n]; [lia|]. simpl. rewrite Hr.
  destruct s as [|c s]; [done|]. cbn [is_empty]. rewrite IH by (simpl in *; lia).
  destruct (utf8_char_cases _ _ Hr) as (b0 & p & E & _). rewrite E.
  change (String b0 (p +:+ r)) with (String b0 p +:+ r). rewrite str_length_append.
  rewrite Nat.add_sub, take_append by lia. by rewrite take_all.
Qed.

Lemma utf8_lossy_valid s : Utf8 s -> utf8_lossy s = s.
Proof. by apply lossy_go_valid. Qed.

(** The bytes of the first scalar are a text of their own. *)
Lemma utf8_char_alone s r : utf8_char s = Some r -> exists c, s = c +:+ r /\ utf8_char c = Some "".
Proof.
  unfold utf8_char at 1. destruct s as [|b0 s1]; [done|].
  destruct (in_range 0 127 b0) eqn:E0.
  { intros [= ->]. exists (String b0 ""). split; [done|]. unfold utf8_char. by rewrite E0. }
  destruct s1 as [|b1 s2]; [done|]. destruct (in_range 194 223 b0) eqn:E1.
  { destruct (is_continuation b1) eqn:C1; [|done]. intros [= ->]. exists (String b0 (String b1 "")).
    split; [done|]. unfold utf8_char. by rewrite E0, E1, C1. }
  destruct s2 as [|b2 s3]; [done|].
  match goal with |- context [if ?c then _ else _] => destruct c eqn:E2 end.
  { destruct (is_continuation b2) eqn:C2; [|done]. intros [= ->].
    exists (String b0 (String b1 (String b2 ""))). split; [done|]. unfold utf8_char. by rewrite E0, E1, E2, C2. }
  destruct s3 as [|b3 s4]; [done|].
  match goal with |- context [if ?c then _ else _] => destruct c eqn:E3 end; [|done].
  destruct (is_continuation b2 && is_continuation b3) eqn:C; [|done]. intros [= ->].
  exists (String b0 (String b1 (String b2 (String b3 "")))). split; [done|].
  unfold utf8_char. by rewrite E0, E1, E2, E3, C.
Qed.

(** What is read with replacements is always valid. *)
Lemma lossy_go_Utf8 n s : Utf8 (lossy_go n s).
Proof.
  revert s. induction n as [|n IH]; intros s; [constructor|]. simpl. destruct (is_empty s); [constructor|].
  destruct (utf8_char s) as [r|] eqn:Hr; [|apply Utf8_append; [by apply utf8_spec|apply IH]].
  destruct (utf8_char_alone _ _ Hr) as (c & -> & Hc). apply Utf8_append; [|apply IH].
  rewrite str_length_append, Nat.add_sub, take_append by lia. rewrite take_all by lia.
  econstructor; [exact Hc|constructor].
Qed.

Lemma utf8_lossy_Utf8 s : Utf8 (utf8_lossy s).
Proof. apply lossy_go_Utf8. Qed.
