(* ===== verification/BTree.v ===== *)
(** * Ordered collections

    [BTreeSet<K>] and [BTreeMap<K, V>] as sorted lists, in the order their
    iterators produce them, and [Vec::sort] with [Vec::dedup].  The order of
    the keys is the class [OrdKey], with the byte order of [String] as its
    instance. *)

From stdpp Require Import base tactics list sets strings.
From Stdlib Require Import ZArith Lia Ascii Sorted.
From S2P Require Import Prelude RustStr.

(** ** The order of the keys ([Ord]) *)
Class OrdKey (K : Type) := {
  key_cmp : K -> K -> comparison;
  key_cmp_eq : forall x y, key_cmp x y = Eq <-> x = y;
  key_cmp_antisym : forall x y, key_cmp y x = CompOpp (key_cmp x y);
  key_cmp_trans : forall x y z,
    key_cmp x y = Lt -> key_cmp y z = Lt -> key_cmp x z = Lt;
}.

Definition key_lt {K} `{OrdKey K} (x y : K) : Prop := key_cmp x y = Lt.

(** [Ord for str]: lexicographic on bytes. *)
Fixpoint str_cmp (a b : string) : comparison :=
  match a, b with
  | EmptyString, EmptyString => Eq
  | EmptyString, String _ _ => Lt
  | String _ _, EmptyString => Gt
  | String c a', String d b' =>
      match (byte_val c ?= byte_val d)%Z with
      | Eq => str_cmp a' b'
      | o => o
      end
  end.

Lemma str_cmp_eq a b : str_cmp a b = Eq <-> a = b.
Proof.
  revert b. induction a as [|c a IH]; intros [|d b]; simpl; try done.
  destruct (Z.compare_spec (byte_val c) (byte_val d)) as [E|E|E].
  - apply byte_val_inj in E as ->. rewrite IH. naive_solver.
  - split; [done|]. intros [= -> ->]. lia.
  - split; [done|]. intros [= -> ->]. lia.
Qed.

Lemma str_cmp_antisym a b : str_cmp b a = CompOpp (str_cmp a b).
Proof.
  revert b. induction a as [|c a IH]; intros [|d b]; simpl; try done.
  rewrite (Z.compare_antisym (byte_val c) (byte_val d)).
  destruct (byte_val c ?= byte_val d)%Z; simpl; auto.
Qed.

Lemma str_cmp_trans a b c :
  str_cmp a b = Lt -> str_cmp b c = Lt -> str_cmp a c = Lt.
Proof.
  revert b c. induction a as [|x a IH]; intros [|y b] [|z c]; simpl; try done.
  destruct (Z.compare_spec (byte_val x) (byte_val y));
    destruct (Z.compare_spec (byte_val y) (byte_val z)); try done;
    destruct (Z.compare_spec (byte_val x) (byte_val z)); try done; try lia.
  apply IH.
Qed.

#[export] Instance str_ord : OrdKey string := {|
  key_cmp := str_cmp;
  key_cmp_eq := str_cmp_eq;
  key_cmp_antisym := str_cmp_antisym;
  key_cmp_trans := str_cmp_trans;
|}.

(** Keys ordered through an injective rank: derived [Ord] on enums. *)
Section Ranked.
Context {K : Type} (rank : K -> Z) (rank_inj : forall x y, rank x = rank y -> x = y).

Definition rank_cmp (x y : K) : comparison := (rank x ?= rank y)%Z.

Lemma rank_cmp_eq x y : rank_cmp x y = Eq <-> x = y.
Proof. unfold rank_cmp. rewrite Z.compare_eq_iff. split; [auto|by intros ->]. Qed.

Lemma rank_cmp_antisym x y : rank_cmp y x = CompOpp (rank_cmp x y).
Proof. apply Z.compare_antisym. Qed.

Lemma rank_cmp_trans x y z : rank_cmp x y = Lt -> rank_cmp y z = Lt -> rank_cmp x z = Lt.
Proof. unfold rank_cmp. rewrite !Z.compare_lt_iff. lia. Qed.

Definition by_rank_ord : OrdKey K := {|
  key_cmp := rank_cmp;
  key_cmp_eq := rank_cmp_eq;
  key_cmp_antisym := rank_cmp_antisym;
  key_cmp_trans := rank_cmp_trans;
|}.

End Ranked.

(** Newtypes over [String] are ordered by the string they hold. *)
Section ByString.
Context {K : Type} (f : K -> string) (f_inj : forall x y, f x = f y -> x = y).

Lemma by_string_eq x y : str_cmp (f x) (f y) = Eq <-> x = y.
Proof. rewrite str_cmp_eq. split; [auto|by intros ->]. Qed.

Definition by_string_ord : OrdKey K := {|
  key_cmp x y := str_cmp (f x) (f y);
  key_cmp_eq := by_string_eq;
  key_cmp_antisym x y := str_cmp_antisym (f x) (f y);
  key_cmp_trans x y z := str_cmp_trans (f x) (f y) (f z);
|}.

End ByString.

(** ** Sets *)
Section Sets.
Context {K : Type} `{OrdKey K}.
Implicit Types (x y : K) (s : list K).

(** [BTreeSet::insert] on the set; [bset_mem] tells whether it was present. *)
Fixpoint bset_add x s : list K :=
  match s with
  | [] => [x]
  | y :: s' =>
      match key_cmp x y with
      | Lt => x :: s
      | Eq => s
      | Gt => y :: bset_add x s'
      end
  end.

Fixpoint bset_mem x s : bool :=
  match s with
  | [] => false
  | y :: s' => match key_cmp x y with Eq => true | _ => bset_mem x s' end
  end.

(** [iter().collect::<BTreeSet<_>>()]. *)
Definition bset_of_list (l : list K) : list K := foldl (fun s x => bset_add x s) [] l.

(** [Vec::sort] (stable; insertion order of equal keys kept) and [Vec::dedup]. *)
Fixpoint sort_insert x s : list K :=
  match s with
  | [] => [x]
  | y :: s' => match key_cmp x y with Gt => y :: sort_insert x s' | _ => x :: s end
  end.

Fixpoint vec_sort (l : list K) : list K :=
  match l with [] => [] | x :: l' => sort_insert x (vec_sort l') end.

Fixpoint vec_dedup (l : list K) : list K :=
  match l with
  | [] => []
  | x :: l' =>
      match l' with
      | y :: _ => match key_cmp x y with Eq => vec_dedup l' | _ => x :: vec_dedup l' end
      | [] => [x]
      end
  end.

Definition bset_sorted (s : list K) : Prop := StronglySorted key_lt s.

Lemma key_cmp_refl x : key_cmp x x = Eq.
Proof. by apply key_cmp_eq. Qed.

Lemma key_lt_irrefl x : ~ key_lt x x.
Proof. unfold key_lt. by rewrite key_cmp_refl. Qed.

Lemma key_cmp_Gt x y : key_cmp x y = Gt <-> key_lt y x.
Proof.
  unfold key_lt. rewrite (key_cmp_antisym x y). by destruct (key_cmp x y).
Qed.

Lemma elem_of_bset_add x y s : y ∈ bset_add x s <-> y = x \/ y ∈ s.
Proof.
  induction s as [|z s IH]; simpl; [set_solver|].
  destruct (key_cmp x z) eqn:E; [apply key_cmp_eq in E as ->| |];
    rewrite ?elem_of_cons, ?IH; set_solver.
Qed.

Lemma bset_mem_spec x s : bset_mem x s = true <-> x ∈ s.
Proof.
  induction s as [|y s IH]; simpl; [set_solver|].
  rewrite elem_of_cons. destruct (key_cmp x y) eqn:E.
  - apply key_cmp_eq in E. naive_solver.
  - rewrite IH. split; [auto|]. intros [->|]; [by rewrite key_cmp_refl in E|done].
  - rewrite IH. split; [auto|]. intros [->|]; [by rewrite key_cmp_refl in E|done].
Qed.

Lemma bset_add_sorted x s : bset_sorted s -> bset_sorted (bset_add x s).
Proof.
  unfold bset_sorted. induction s as [|y s IH]; intros Hs; simpl; [repeat constructor|].
  apply StronglySorted_inv in Hs as [Hs Hy].
  destruct (key_cmp x y) eqn:E.
  - by constructor.
  - constructor; [by constructor|]. constructor; [done|].
    eapply Forall_impl; [exact Hy|]. simpl. intros z. by apply key_cmp_trans.
  - constructor; [auto|]. apply Forall_forall. intros z Hz.
    apply elem_of_bset_add in Hz as [->|Hz]; [by apply key_cmp_Gt|].
    rewrite Forall_forall in Hy. auto.
Qed.

Lemma elem_of_bset_of_list x l : x ∈ bset_of_list l <-> x ∈ l.
Proof.
  unfold bset_of_list.
  assert (forall s, x ∈ foldl (fun s x => bset_add x s) s l <-> x ∈ s \/ x ∈ l) as Hg.
  { induction l as [|y l IH]; intros s; simpl; [set_solver|].
    rewrite IH, elem_of_bset_add. set_solver. }
  rewrite Hg. set_solver.
Qed.

Lemma bset_of_list_sorted l : bset_sorted (bset_of_list l).
Proof.
  unfold bset_of_list.
  assert (forall s, bset_sorted s -> bset_sorted (foldl (fun s x => bset_add x s) s l)) as Hg.
  { induction l as [|y l IH]; intros s Hs; simpl; [done|]. by apply IH, bset_add_sorted. }
  apply Hg. constructor.
Qed.

Lemma bset_sorted_NoDup s : bset_sorted s -> NoDup s.
Proof.
  induction s as [|x s IH]; intros Hs; [constructor|].
  apply StronglySorted_inv in Hs as [Hs Hx]. constructor; [|auto].
  intros Hin. rewrite Forall_forall in Hx. by apply (key_lt_irrefl x), Hx.
Qed.

(** A sorted list is determined by its elements. *)
Lemma bset_sorted_ext s t :
  bset_sorted s -> bset_sorted t -> (forall x, x ∈ s <-> x ∈ t) -> s = t.
Proof.
  revert t. induction s as [|x s IH]; intros [|y t] Hs Ht Heq; [done|set_solver|set_solver|].
  apply StronglySorted_inv in Hs as [Hs Hx]. apply StronglySorted_inv in Ht as [Ht Hy].
  rewrite Forall_forall in Hx, Hy.
  assert (x = y) as <-.
  { assert (x ∈ y :: t) as [->|Hxt]%elem_of_cons by (apply Heq; set_solver); [done|].
    assert (y ∈ x :: s) as [->|Hys]%elem_of_cons by (apply Heq; set_solver); [done|].
    exfalso. apply (key_lt_irrefl x). eapply key_cmp_trans; [apply Hx|apply Hy]; done. }
  f_equal. apply IH; [done|done|]. intros z. specialize (Heq z).
  rewrite !elem_of_cons in Heq. split; intros Hz.
  - assert (z = x \/ z ∈ t) as [->|] by (apply Heq; auto); [|done].
    by apply Hx, key_lt_irrefl in Hz.
  - assert (z = x \/ z ∈ s) as [->|] by (apply Heq; auto); [|done].
    by apply Hy, key_lt_irrefl in Hz.
Qed.

Lemma bset_of_list_perm l l' : l ≡ₚ l' -> bset_of_list l = bset_of_list l'.
Proof.
  intros Hp. apply bset_sorted_ext; [apply bset_of_list_sorted..|].
  intros x. by rewrite !elem_of_bset_of_list, Hp.
Qed.

Lemma bset_of_list_sorted_id s : bset_sorted s -> bset_of_list s = s.
Proof.
  intros Hs. apply bset_sorted_ext; [apply bset_of_list_sorted|done|].
  intros x. apply elem_of_bset_of_list.
Qed.

Lemma bset_of_list_nil l : bset_of_list l = [] <-> l = [].
Proof.
  split; [|by intros ->]. intros Hl. destruct l as [|x l]; [done|].
  exfalso. apply (not_elem_of_nil x). rewrite <- Hl, elem_of_bset_of_list. set_solver.
Qed.

(** Sorting. *)

Lemma sort_insert_perm x s : sort_insert x s ≡ₚ x :: s.
Proof.
  induction s as [|y s IH]; simpl; [done|].
  destruct (key_cmp x y); [done|done|]. rewrite IH. constructor.
Qed.

Lemma vec_sort_perm l : vec_sort l ≡ₚ l.
Proof. induction l as [|x l IH]; simpl; [done|]. by rewrite sort_insert_perm, IH. Qed.

Lemma vec_sort_bset_sorted s : bset_sorted s -> vec_sort s = s.
Proof.
  induction s as [|x s IH]; intros Hs; simpl; [done|].
  apply StronglySorted_inv in Hs as [Hs Hx]. rewrite IH by done.
  destruct s as [|y s]; [done|]. simpl. inversion_clear Hx.
  unfold key_lt in *. by rewrite H0.
Qed.

Definition key_le x y : Prop := key_cmp x y <> Gt.

Lemma key_le_trans x y z : key_le x y -> key_le y z -> key_le x z.
Proof.
  unfold key_le. intros Hxy Hyz.
  destruct (key_cmp x y) eqn:E1; [apply key_cmp_eq in E1 as ->; done| |done].
  destruct (key_cmp y z) eqn:E2; [apply key_cmp_eq in E2 as <-| |done].
  - by rewrite E1.
  - by rewrite (key_cmp_trans _ _ _ E1 E2).
Qed.

Lemma sort_insert_le x s :
  StronglySorted key_le s -> StronglySorted key_le (sort_insert x s).
Proof.
  induction s as [|y s IH]; intros Hs; simpl; [repeat constructor|].
  apply StronglySorted_inv in Hs as [Hs Hy].
  assert (key_cmp x y <> Gt -> StronglySorted key_le (x :: y :: s)) as Hle.
  { intros Hxy. constructor; [by constructor|]. constructor; [done|].
    eapply Forall_impl; [exact Hy|]. intros z. by apply key_le_trans. }
  destruct (key_cmp x y) eqn:E; [by apply Hle|by apply Hle|].
  constructor; [auto|]. rewrite sort_insert_perm. constructor; [|done].
  unfold key_le. rewrite key_cmp_antisym, E. done.
Qed.

Lemma vec_sort_le l : StronglySorted key_le (vec_sort l).
Proof. induction l as [|x l IH]; simpl; [constructor|]. by apply sort_insert_le. Qed.

Lemma vec_dedup_elem x l : x ∈ vec_dedup l <-> x ∈ l.
Proof.
  induction l as [|y l IH]; [done|]. simpl. destruct l as [|z l]; [done|].
  destruct (key_cmp y z) eqn:E; [apply key_cmp_eq in E as ->| |];
    rewrite ?elem_of_cons, IH, !elem_of_cons; naive_solver.
Qed.

Lemma vec_dedup_sorted l : StronglySorted key_le l -> bset_sorted (vec_dedup l).
Proof.
  unfold bset_sorted. induction l as [|y l IH]; intros Hl; [constructor|].
  apply StronglySorted_inv in Hl as [Hl Hy]. simpl.
  destruct l as [|z l]; [repeat constructor|].
  assert (key_lt y z -> StronglySorted key_lt (y :: vec_dedup (z :: l))) as Hlt.
  { intros Hyz. constructor; [auto|]. apply Forall_forall. intros w Hw.
    rewrite vec_dedup_elem, elem_of_cons in Hw. destruct Hw as [->|Hw]; [done|].
    apply StronglySorted_inv in Hl as [_ Hz]. rewrite Forall_forall in Hz.
    specialize (Hz w Hw). unfold key_le in Hz.
    destruct (key_cmp z w) eqn:E; [by apply key_cmp_eq in E as <-| |done].
    eapply key_cmp_trans; done. }
  inversion_clear Hy. unfold key_le in *. destruct (key_cmp y z) eqn:E; [auto|by apply Hlt|done].
Qed.

(** [v.sort(); v.dedup()] is the set of the elements, in order. *)
Lemma sort_dedup_bset l : vec_dedup (vec_sort l) = bset_of_list l.
Proof.
  apply bset_sorted_ext; [apply vec_dedup_sorted, vec_sort_le|apply bset_of_list_sorted|].
  intros x. by rewrite vec_dedup_elem, vec_sort_perm, elem_of_bset_of_list.
Qed.

End Sets.

(** ** Maps *)
Section Maps.
Context {K V : Type} `{OrdKey K}.
Implicit Types (k : K) (v : V) (m : list (K * V)).

(** [BTreeMap::insert]: replaces the value of a present key. *)
Fixpoint bmap_insert k v m : list (K * V) :=
  match m with
  | [] => [(k, v)]
  | (k', v') :: m' =>
      match key_cmp k k' with
      | Lt => (k, v) :: m
      | Eq => (k, v) :: m'
      | Gt => (k', v') :: bmap_insert k v m'
      end
  end.

(** [BTreeMap::get]. *)
Fixpoint bmap_get k m : option V :=
  match m with
  | [] => None
  | (k', v') :: m' => match key_cmp k k' with Eq => Some v' | _ => bmap_get k m' end
  end.

(** [BTreeMap::contains_key]. *)
Definition bmap_contains_key k m : bool :=
  match bmap_get k m with Some _ => true | None => false end.

Definition bmap_sorted m : Prop := bset_sorted (m.*1).

Lemma bmap_get_insert k v m k' :
  bmap_get k' (bmap_insert k v m) =
  match key_cmp k' k with Eq => Some v | _ => bmap_get k' m end.
Proof.
  induction m as [|[q w] m IH]; simpl; [done|].
  destruct (key_cmp k q) eqn:E; simpl.
  - apply key_cmp_eq in E as ->. by destruct (key_cmp k' q).
  - done.
  - rewrite IH. destruct (key_cmp k' k) eqn:E1; [|done|done].
    apply key_cmp_eq in E1 as ->. by rewrite E.
Qed.

Lemma bmap_insert_keys k v m q : q ∈ (bmap_insert k v m).*1 <-> q = k \/ q ∈ m.*1.
Proof.
  induction m as [|[k' w] m IH]; simpl; [set_solver|].
  destruct (key_cmp k k') eqn:E; [apply key_cmp_eq in E as ->| |];
    simpl; rewrite ?elem_of_cons, ?IH; set_solver.
Qed.

Lemma bmap_insert_sorted k v m : bmap_sorted m -> bmap_sorted (bmap_insert k v m).
Proof.
  unfold bmap_sorted, bset_sorted. induction m as [|[q w] m IH]; intros Hm; simpl;
    [repeat constructor|].
  simpl in Hm. apply StronglySorted_inv in Hm as [Hm Hq].
  destruct (key_cmp k q) eqn:E; simpl.
  - apply key_cmp_eq in E as ->. by constructor.
  - constructor; [by constructor|]. constructor; [done|].
    eapply Forall_impl; [exact Hq|]. intros z. by apply key_cmp_trans.
  - constructor; [auto|]. apply Forall_forall. intros z Hz.
    apply bmap_insert_keys in Hz as [->|Hz]; [by apply key_cmp_Gt|].
    rewrite Forall_forall in Hq. auto.
Qed.

(** The number of entries grows by one exactly when the key is new. *)
Lemma bmap_get_none k m :
  Forall (fun q => key_cmp k q <> Eq) (m.*1) -> bmap_get k m = None.
Proof.
  induction m as [|[q w] m IH]; simpl; [done|].
  rewrite Forall_cons. intros [Hq Hm]. destruct (key_cmp k q); [done|auto|auto].
Qed.

Lemma bmap_insert_length k v m :
  bmap_sorted m ->
  length (bmap_insert k v m) =
  if bmap_contains_key k m then length m else S (length m).
Proof.
  unfold bmap_sorted, bset_sorted, bmap_contains_key.
  induction m as [|[q w] m IH]; intros Hm; simpl; [done|].
  simpl in Hm. apply StronglySorted_inv in Hm as [Hm Hq].
  destruct (key_cmp k q) eqn:E; simpl; [done| |].
  - rewrite bmap_get_none; [done|].
    eapply Forall_impl; [exact Hq|]. intros z Hz Hk. apply key_cmp_eq in Hk as <-.
    unfold key_lt in *. rewrite key_cmp_antisym in Hz. by rewrite E in Hz.
  - rewrite IH by done. by destruct (bmap_get k m).
Qed.

Lemma bmap_insert_elem k v m q w :
  bmap_sorted m ->
  (q, w) ∈ bmap_insert k v m <-> (q = k /\ w = v) \/ (q <> k /\ (q, w) ∈ m).
Proof.
  unfold bmap_sorted, bset_sorted.
  induction m as [|[k' v'] m IH]; intros Hm; simpl.
  - rewrite list_elem_of_singleton. split; [naive_solver|].
    intros [[-> ->]|[_ Hn]]; [done|]. by apply not_elem_of_nil in Hn.
  - simpl in Hm. apply StronglySorted_inv in Hm as [Hm Hk].
    rewrite Forall_forall in Hk.
    assert (forall z, (k', z) ∈ m -> False) as Hfresh.
    { intros z Hz. apply (key_lt_irrefl k'), Hk. apply list_elem_of_fmap. by exists (k', z). }
    destruct (key_cmp k k') eqn:E.
    + apply key_cmp_eq in E as ->. rewrite !elem_of_cons. naive_solver.
    + assert (forall z, (k, z) ∈ (k', v') :: m -> False) as Hfk.
      { intros z Hz. apply elem_of_cons in Hz as [[= -> ->]|Hz].
        - by rewrite key_cmp_refl in E.
        - assert (key_lt k' k) as Hlt.
          { apply Hk, list_elem_of_fmap. by exists (k, z). }
          unfold key_lt in Hlt. rewrite key_cmp_antisym, E in Hlt. done. }
      rewrite elem_of_cons. naive_solver.
    + assert (k' <> k) as Hne by (intros ->; by rewrite key_cmp_refl in E).
      rewrite !elem_of_cons, IH by done. naive_solver.
Qed.

End Maps.

(** ** Stable sorting *)

(** [slice::sort_by] with the order [le] ("not greater"). *)
Section SortBy.
Context {A : Type} (le : A -> A -> bool).

Fixpoint insert_by (x : A) (l : list A) : list A :=
  match l with
  | [] => [x]
  | y :: l' => if le x y then x :: l else y :: insert_by x l'
  end.

Fixpoint sort_by (l : list A) : list A :=
  match l with
  | [] => []
  | x :: l' => insert_by x (sort_by l')
  end.

Lemma insert_by_perm x l : insert_by x l ≡ₚ x :: l.
Proof.
  induction l as [|y l IH]; simpl; [done|]. destruct (le x y); [done|]. rewrite IH. constructor.
Qed.

Lemma sort_by_perm l : sort_by l ≡ₚ l.
Proof. induction l as [|x l IH]; simpl; [done|]. by rewrite insert_by_perm, IH. Qed.

Lemma elem_of_sort_by x l : x ∈ sort_by l <-> x ∈ l.
Proof. by rewrite sort_by_perm. Qed.

Context (le_total : forall x y, le x y = true \/ le y x = true).
Context (le_trans : forall x y z, le x y = true -> le y z = true -> le x z = true).

Abbreviation sorted := (StronglySorted (fun x y => le x y = true)).

Lemma insert_by_sorted x l : sorted l -> sorted (insert_by x l).
Proof.
  induction 1 as [|y l Hs IH Hy]; simpl; [by repeat constructor|].
  destruct (le x y) eqn:E.
  - constructor; [by constructor|]. apply Forall_cons. split; [done|].
    eapply Forall_impl; [exact Hy|]. intros z. by apply le_trans.
  - constructor; [done|]. rewrite insert_by_perm. apply Forall_cons. split; [|done].
    destruct (le_total x y); congruence.
Qed.

Lemma sort_by_sorted l : sorted (sort_by l).
Proof. induction l as [|x l IH]; [constructor|]. by apply insert_by_sorted. Qed.

(** A sorted list is left alone. *)
Lemma sort_by_id l : sorted l -> sort_by l = l.
Proof.
  induction 1 as [|x l Hs IH Hx]; simpl; [done|]. rewrite IH. destruct l as [|y l]; [done|].
  simpl. apply Forall_cons in Hx as [-> _]. done.
Qed.

End SortBy.
