(* ===== verification/Json.v ===== *)
(** * JSON values

    [serde_json::Value] and its accessors; the texts are parsed and printed by the
    library, a parameter.
    Then what is asked of the JSON library: the values that Rust can hold, and what
    serde_json documents of its texts, which parse to the value they were printed from. *)

From stdpp Require Import base tactics list sets strings.
From Stdlib Require Import ZArith Lia Ascii Sorting.Sorted.
From S2P Require Import Prelude RustStr Utf8 BTree.

Open Scope Z_scope.

(** [serde_json::Value]; an object is the list of its entries, and a number that is
    no integer is kept as its text. *)
Inductive Value :=
| V_Null
| V_Bool (b : bool)
| V_Int (n : Z)
| V_Float (text : string)
| V_String (s : string)
| V_Array (l : list Value)
| V_Object (o : list (string * Value)).

Abbreviation JsonObject := (list (string * Value)).

(** [Map::get] and [Map::contains_key]. *)
Definition obj_get (k : string) (o : JsonObject) : option Value :=
  option_map snd (List.find (fun kv => String.eqb kv.1 k) o).

Definition obj_has (k : string) (o : JsonObject) : bool :=
  match obj_get k o with Some _ => true | None => false end.

(** [Value::as_object], [as_str], [as_array] and [Value::get]. *)
Definition as_object (v : Value) : option JsonObject :=
  match v with V_Object o => Some o | _ => None end.
Definition as_str (v : Value) : option string := match v with V_String s => Some s | _ => None end.
Definition as_array (v : Value) : option (list Value) :=
  match v with V_Array l => Some l | _ => None end.
Definition value_get (k : string) (v : Value) : option Value :=
  match v with V_Object o => obj_get k o | _ => None end.

(** [serde_json::from_str] and [to_string], and the messages of the two kinds of
    errors (syntax, and conversion of a value). *)
Class JsonText := {
  json_from_str : string -> result string Value;
  json_to_string : Value -> result string string;
  conversion_error : string -> Value -> string;
}.

(** The object of the [json!] macro: its map keeps the keys in order, and a later entry
    replaces an earlier one. *)
Definition json_object (entries : JsonObject) : Value :=
  V_Object (fold_left (fun m kv => bmap_insert kv.1 kv.2 m) entries []).

(** [Display] of a value, and [serde_json::to_string_pretty]. *)
Class JsonPrint := {
  value_display : Value -> string;
  json_to_string_pretty : Value -> result string string;
}.

(** ** Lemmas *)

Lemma obj_get_insert k k' v (o : JsonObject) :
  obj_get k (bmap_insert k' v o) = if String.eqb k' k then Some v else obj_get k o.
Proof.
  induction o as [|[k1 v1] o IH]; unfold obj_get in *; cbn -[key_cmp].
  - by destruct (String.eqb k' k).
  - destruct (key_cmp k' k1) eqn:E; cbn.
    + apply key_cmp_eq in E as ->. by destruct (String.eqb k1 k).
    + by destruct (String.eqb k' k).
    + destruct (String.eqb_spec k1 k) as [->|Hne]; [|exact IH].
      destruct (String.eqb_spec k' k) as [->|]; [|done]. by rewrite key_cmp_refl in E.
Qed.

(** The last entry with a key counts. *)
Lemma json_object_get k entries :
  value_get k (json_object entries)
  = option_map snd (List.find (fun kv => String.eqb kv.1 k) (reverse entries)).
Proof.
  unfold json_object. cbn [value_get]. rewrite <- (reverse_involutive entries) at 1.
  induction (reverse entries) as [|[k' v] l IH]; [done|].
  rewrite reverse_cons, fold_left_app. cbn [fold_left]. rewrite obj_get_insert. cbn.
  by destruct (String.eqb k' k).
Qed.

(** ** JSON values that Rust can hold *)

(** The keys of an object are in order. *)
Fixpoint keys_sorted (o : JsonObject) : bool :=
  match o with
  | (k, _) :: ((k', _) :: _) as o' => match key_cmp k k' with Lt => true | _ => false end && keys_sorted o'
  | _ => true
  end.

(** Strings are UTF-8, integers fit, and the keys of an object are in order; fractions,
    whose texts the library chooses, are left out.  The parser refuses arrays and objects
    that are nested more than 127 deep. *)
Fixpoint json_wf_at (depth : nat) (v : Value) {struct v} : bool :=
  match v with
  | V_Null | V_Bool _ => true
  | V_Int n => (- 2 ^ 63 <=? n) && (n <? 2 ^ 64)
  | V_Float _ => false
  | V_String s => utf8 s
  | V_Array l => match depth with S d => forallb (json_wf_at d) l | O => false end
  | V_Object o =>
      match depth with
      | S d => forallb (fun kv => utf8 kv.1 && json_wf_at d kv.2) o && keys_sorted o
      | O => false
      end
  end.

Definition json_wf (v : Value) : bool := json_wf_at 127 v.

(** What serde_json documents: a value is printed as one line of UTF-8 that parses to the
    value again, and the text of an object is in braces. *)
Class JsonLaws `{JsonText} := {
  json_round_trip v : json_wf v = true ->
    exists t, json_to_string v = Ok t /\ json_from_str t = Ok v /\ Utf8 t /\ any_byte is_lf t = false;
  json_braces o t : json_to_string (V_Object o) = Ok t -> exists m, t = "{" +:+ m +:+ "}";
}.

(** The same of the indented texts. *)
Class PrettyLaws `{JsonText} `{JsonPrint} := {
  pretty_round_trip v : json_wf v = true ->
    exists t, json_to_string_pretty v = Ok t /\ json_from_str t = Ok v /\ utf8 t = true;
}.

(** ** Well-formed values *)

Lemma json_wf_at_get n k o w :
  json_wf_at (S n) (V_Object o) = true -> obj_get k o = Some w -> json_wf_at n w = true.
Proof.
  cbn. unfold obj_get. intros [Hall _]%andb_true_iff.
  rewrite forallb_forall in Hall. destruct (find _ o) as [[k' w']|] eqn:E; [|done].
  intros [= <-]. apply find_some in E as [Hin _]. by apply Hall, andb_true_iff in Hin as [_ ?].
Qed.

Lemma keys_sorted_spec (o : JsonObject) : keys_sorted o = true <-> bmap_sorted o.
Proof.
  unfold bmap_sorted, bset_sorted. induction o as [|[k v] o IH]; [by split; [constructor|]|].
  destruct o as [|[k' v'] o]; [by split; [repeat constructor|]|].
  cbn [keys_sorted]. rewrite andb_true_iff, IH. cbn [fmap list_fmap fst]. split.
  - intros [Hk Ho]. destruct (key_cmp k k') eqn:E; try done.
    pose proof Ho as Ho'. apply StronglySorted_inv in Ho' as [_ Hall].
    constructor; [done|]. constructor; [done|].
    eapply Forall_impl; [exact Hall|]. intros z Hz. by eapply key_cmp_trans.
  - intros [Ho Hall]%StronglySorted_inv. apply Forall_cons in Hall as [Hk _].
    unfold key_lt in Hk. by rewrite Hk.
Qed.

(** Replacing a value of an object. *)
Lemma json_wf_at_insert n k v o :
  utf8 k = true -> json_wf_at n v = true -> json_wf_at (S n) (V_Object o) = true ->
  json_wf_at (S n) (V_Object (bmap_insert k v o)) = true.
Proof.
  intros Hk Hv. cbn [json_wf_at]. rewrite !andb_true_iff, !keys_sorted_spec, !forallb_forall.
  intros [Hall Hs]. split; [|by apply bmap_insert_sorted].
  intros [k' v'] Hin%list_elem_of_In. apply bmap_insert_elem in Hin as [[-> ->]|[_ Hin]]; [| |done].
  - cbn [fst snd]. by rewrite Hk, Hv.
  - by apply Hall, list_elem_of_In.
Qed.

Lemma json_wf_at_nil n : json_wf_at (S n) (V_Object []) = true.
Proof. done. Qed.

Lemma json_wf_at_array n l : json_wf_at (S n) (V_Array l) = true <-> Forall (fun v => json_wf_at n v = true) l.
Proof.
  cbn. rewrite forallb_forall, List.Forall_forall. done.
Qed.
