(* ===== verification/CoreError.v ===== *)
(** * Domain errors and field paths (crates/kavach-core/src/error.rs) *)

From stdpp Require Import base tactics list strings.
From Stdlib Require Import ZArith Lia Ascii.
From S2P Require Import Prelude RustStr.

Open Scope Z_scope.

(** [DomainErrorKind]. *)
Inductive DomainErrorKind :=
| DEK_InvalidId
| DEK_OversizedField
| DEK_InvalidCharacter
| DEK_InvalidValue
| DEK_OversizedCollection
| DEK_UnknownVariant
| DEK_Missing.

#[export] Instance DomainErrorKind_eq_dec : EqDecision DomainErrorKind.
Proof. solve_decision. Defined.

(** The derived [Debug] label, used by [Display]. *)
Definition DomainErrorKind_debug (k : DomainErrorKind) : string :=
  match k with
  | DEK_InvalidId => "InvalidId"
  | DEK_OversizedField => "OversizedField"
  | DEK_InvalidCharacter => "InvalidCharacter"
  | DEK_InvalidValue => "InvalidValue"
  | DEK_OversizedCollection => "OversizedCollection"
  | DEK_UnknownVariant => "UnknownVariant"
  | DEK_Missing => "Missing"
  end.

(** [DomainError]. *)
Record DomainError := DomainError_new {
  de_kind : DomainErrorKind;
  de_context : string;
}.

#[export] Instance DomainError_eq_dec : EqDecision DomainError.
Proof. solve_decision. Defined.

(** [Display for DomainError]. *)
Definition DomainError_display (e : DomainError) : string :=
  DomainErrorKind_debug (de_kind e) +:+ ": " +:+ de_context e.

(** [FieldPath(String)]. *)
Record FieldPath := FieldPath_raw { fp_str : string }.

#[export] Instance FieldPath_eq_dec : EqDecision FieldPath.
Proof. solve_decision. Defined.

Definition MAX_FIELD_PATH_LEN : Z := 256.

(** [FieldPath::ident_is_valid]. *)
Definition FieldPath_ident_is_valid (ident : string) : bool :=
  negb (is_empty ident)
  && all_bytes (fun b => is_ascii_lowercase b || is_ascii_digit b || Ascii.eqb b "_") ident.

(** [FieldPath::segment_is_valid]: [name] or [name[i]]. *)
Definition FieldPath_segment_is_valid (segment : string) : bool :=
  match find_split (Ascii.eqb "[") segment with
  | None => FieldPath_ident_is_valid segment
  | Some (ident, rest) =>
      match strip_prefix "[" rest with
      | None => false
      | Some r =>
          match strip_suffix "]" r with
          | None => false
          | Some inner =>
              if is_empty inner || negb (all_bytes is_ascii_digit inner) then false
              else FieldPath_ident_is_valid ident
          end
      end
  end.

(** The loop over the dot-separated segments in [FieldPath::new_inner]. *)
Definition FieldPath_check_segment (segment : string) : result DomainError unit :=
  if is_empty segment then
    Err (DomainError_new DEK_InvalidValue "field path contains empty segment")
  else if negb (FieldPath_segment_is_valid segment) then
    Err (DomainError_new DEK_InvalidCharacter "field path segment is malformed")
  else Ok tt.

(** [FieldPath::new_inner] (and [new], [from_str], [try_from]). *)
Definition FieldPath_new (s : string) : result DomainError FieldPath :=
  if is_empty s then Err (DomainError_new DEK_Missing "empty field path")
  else if MAX_FIELD_PATH_LEN <? len s then
    Err (DomainError_new DEK_OversizedField "field path exceeds maximum length")
  else if any_byte is_ascii_control s then
    Err (DomainError_new DEK_InvalidCharacter "field path contains control characters")
  else
    let? _ := for_each FieldPath_check_segment (split_on (Ascii.eqb ".") s) in
    Ok (FieldPath_raw s).

(** [FieldPath::push]. *)
Definition FieldPath_push (p : FieldPath) (child : string) : result DomainError FieldPath :=
  FieldPath_new (fp_str p +:+ "." +:+ child).

(** [FieldPath::push_indexed]. *)
Definition FieldPath_push_indexed (p : FieldPath) (name : string) (index : Z)
  : result DomainError FieldPath :=
  FieldPath_push p (name +:+ "[" +:+ dec index +:+ "]").

(** [FieldPath::root]. *)
Definition FieldPath_root : FieldPath := FieldPath_raw "request".

(** [DomainValidationError]. *)
Record DomainValidationError := DomainValidationError_new {
  dve_field : FieldPath;
  dve_source : DomainError;
}.

#[export] Instance DomainValidationError_eq_dec : EqDecision DomainValidationError.
Proof. solve_decision. Defined.

(** [DomainValidationError::at]. *)
Definition DomainValidationError_at (field : string) (kind : DomainErrorKind) (context : string)
  : result DomainError DomainValidationError :=
  let? f := FieldPath_new field in
  Ok (DomainValidationError_new f (DomainError_new kind context)).

(** [DomainValidationError::at_field]. *)
Definition DomainValidationError_at_field (field : string) (kind : DomainErrorKind)
    (context : string) : DomainValidationError :=
  let path := match FieldPath_new field with Ok p => p | Err _ => FieldPath_root end in
  DomainValidationError_new path (DomainError_new kind context).

(** [DomainValidationError::nested]. *)
Definition DomainValidationError_nested (parent : FieldPath) (child : string)
    (source : DomainError) : result DomainError DomainValidationError :=
  let? f := FieldPath_push parent child in
  Ok (DomainValidationError_new f source).

(** [Display for DomainValidationError]. *)
Definition DomainValidationError_display (e : DomainValidationError) : string :=
  fp_str (dve_field e) +:+ ": " +:+ DomainError_display (dve_source e).

(** ** Well-formed field paths *)

(** What every constructed field path satisfies: a bounded, non-empty dotted
    sequence of valid segments. *)
Definition FieldPath_wf (p : FieldPath) : Prop :=
  fp_str p <> "" /\ len (fp_str p) <= MAX_FIELD_PATH_LEN /\
  Forall (fun seg => FieldPath_segment_is_valid seg = true)
         (split_on (Ascii.eqb ".") (fp_str p)).

Lemma FieldPath_check_segment_ok seg :
  FieldPath_check_segment seg = Ok tt <-> FieldPath_segment_is_valid seg = true.
Proof.
  unfold FieldPath_check_segment. destruct seg as [|c seg]; simpl; [done|].
  by destruct (FieldPath_segment_is_valid _).
Qed.

Lemma FieldPath_new_wf s p : FieldPath_new s = Ok p -> fp_str p = s /\ FieldPath_wf p.
Proof.
  unfold FieldPath_new. intros H. inv_all. split; [done|].
  bool_prop. unfold FieldPath_wf. simpl. split_and!; [by apply is_empty_false|done|].
  destruct a. apply for_each_ok in E2.
  eapply Forall_impl; [exact E2|]. intros x. apply FieldPath_check_segment_ok.
Qed.

Lemma FieldPath_root_wf : FieldPath_wf FieldPath_root.
Proof. split_and!; [done|by vm_compute|]. repeat constructor. Qed.

Lemma FieldPath_push_wf p child q : FieldPath_push p child = Ok q -> FieldPath_wf q.
Proof. unfold FieldPath_push. intros H. by apply FieldPath_new_wf in H as [_ ?]. Qed.

(** Every error built by [at_field] carries a well-formed path, malformed
    literals included. *)
Lemma DomainValidationError_at_field_wf field kind context :
  FieldPath_wf (dve_field (DomainValidationError_at_field field kind context)).
Proof.
  unfold DomainValidationError_at_field.
  destruct (FieldPath_new field) eqn:E; simpl;
    [by apply FieldPath_new_wf in E as [_ ?]|apply FieldPath_root_wf].
Qed.

#[export] Hint Resolve FieldPath_root_wf DomainValidationError_at_field_wf : kavach.
#[export] Hint Resolve FieldPath_push_wf : kavach.
