(* ===== verification/CoreIds.v ===== *)
(** * Identifiers, capabilities, trust levels and subjects

    crates/kavach-core/src/ids.rs and crates/kavach-core/src/subject.rs.  The
    macro [id_newtype!] is the family [Id] indexed by the newtype it makes. *)

From stdpp Require Import base tactics list strings.
From Stdlib Require Import ZArith Lia Ascii.
From S2P Require Import Prelude RustStr BTree CoreError.

Open Scope Z_scope.

(** ** Identifiers *)

Definition MAX_ID_LEN : Z := 256.

(** [validate_id], shared by every identifier newtype. *)
Definition validate_id (value : string) : result DomainError unit :=
  let n := chars_count value in
  if is_empty value then Err (DomainError_new DEK_InvalidId "empty id")
  else if MAX_ID_LEN <? n then
    Err (DomainError_new DEK_OversizedField "id exceeds maximum length")
  else if existsb is_control (chars value) then
    Err (DomainError_new DEK_InvalidCharacter "id contains control characters")
  else Ok tt.

(** The newtypes [id_newtype!] declares. *)
Inductive IdKind := KAgent | KSession | KRequest | KRule | KPolicy | KApproval.

Record Id (k : IdKind) := Id_raw { id_str : string }.
Arguments Id_raw {k} id_str.
Arguments id_str {k} _.

Abbreviation AgentId := (Id KAgent).
Abbreviation SessionId := (Id KSession).
Abbreviation RequestId := (Id KRequest).
Abbreviation RuleId := (Id KRule).
Abbreviation PolicyId := (Id KPolicy).
Abbreviation ApprovalId := (Id KApproval).

#[export] Instance Id_eq_dec k : EqDecision (Id k).
Proof. solve_decision. Defined.

Lemma id_str_inj {k} (x y : Id k) : id_str x = id_str y -> x = y.
Proof. destruct x, y. simpl. by intros ->. Qed.

#[export] Instance Id_ord k : OrdKey (Id k) := by_string_ord id_str id_str_inj.

(** [$name::new] (and [from_str], [try_from], deserialization). *)
Definition Id_new {k} (value : string) : result DomainError (Id k) :=
  let? _ := validate_id value in Ok (Id_raw value).

(** ** Capabilities and trust *)

Definition MAX_CAPABILITY_LEN : Z := 64.

(** [is_capability_char], on an ASCII scalar. *)
Definition is_capability_char (c : Z) : bool :=
  ((48 <=? c) && (c <=? 57)) || ((65 <=? c) && (c <=? 90)) || ((97 <=? c) && (c <=? 122))
  || (c =? 95) || (c =? 46) || (c =? 45).

Record Capability := Capability_raw { cap_str : string }.

#[export] Instance Capability_eq_dec : EqDecision Capability.
Proof. solve_decision. Defined.

Lemma cap_str_inj (x y : Capability) : cap_str x = cap_str y -> x = y.
Proof. destruct x, y. simpl. by intros ->. Qed.

#[export] Instance Capability_ord : OrdKey Capability := by_string_ord cap_str cap_str_inj.

(** [Capability::new]. *)
Definition Capability_new (s : string) : result DomainError Capability :=
  let n := chars_count s in
  if is_empty s then Err (DomainError_new DEK_InvalidId "empty capability")
  else if MAX_CAPABILITY_LEN <? n then
    Err (DomainError_new DEK_OversizedField "capability exceeds maximum length")
  else if existsb (fun c => is_control c || negb (is_capability_char c)) (chars s) then
    Err (DomainError_new DEK_InvalidCharacter "capability contains disallowed characters")
  else Ok (Capability_raw s).

(** [TrustLevel]. *)
Inductive TrustLevel := Untrusted | Restricted | Standard | Trusted | System.

#[export] Instance TrustLevel_eq_dec : EqDecision TrustLevel.
Proof. solve_decision. Defined.

(** [TrustLevel::as_str]. *)
Definition TrustLevel_as_str (t : TrustLevel) : string :=
  match t with
  | Untrusted => "untrusted"
  | Restricted => "restricted"
  | Standard => "standard"
  | Trusted => "trusted"
  | System => "system"
  end.

(** [FromStr for TrustLevel]. *)
Definition TrustLevel_from_str (s : string) : result DomainError TrustLevel :=
  if String.eqb s "untrusted" then Ok Untrusted
  else if String.eqb s "restricted" then Ok Restricted
  else if String.eqb s "standard" then Ok Standard
  else if String.eqb s "trusted" then Ok Trusted
  else if String.eqb s "system" then Ok System
  else Err (DomainError_new DEK_UnknownVariant ("unknown trust level: " +:+ s)).

(** [CapabilitySet = BTreeSet<Capability>]. *)
Abbreviation CapabilitySet := (list Capability).

(** [AgentSubject]. *)
Record AgentSubject := {
  as_agent_id : AgentId;
  as_session_id : SessionId;
  as_display_name : option string;
  as_trust_level : TrustLevel;
  as_declared_capabilities : CapabilitySet;
}.

(** [crate::request::MAX_SHORT_STRING_LEN]. *)
Definition MAX_SHORT_STRING_LEN : Z := 4096.

(** The byte test [b == 0 || b.is_ascii_control() && b != b'\t'] that the crate
    repeats for every free-form field. *)
Definition bad_text_byte (b : ascii) : bool :=
  (byte_val b =? 0) || (is_ascii_control b && negb (byte_val b =? 9)).

(** [AgentSubject::validate_invariants]. *)
Definition AgentSubject_validate_invariants (a : AgentSubject) : result DomainError unit :=
  let? _ := validate_id (id_str (as_agent_id a)) in
  let? _ := validate_id (id_str (as_session_id a)) in
  match as_display_name a with
  | None => Ok tt
  | Some name =>
      if MAX_SHORT_STRING_LEN <? len name then
        Err (DomainError_new DEK_OversizedField "display name exceeds maximum length")
      else if any_byte bad_text_byte name then
        Err (DomainError_new DEK_InvalidCharacter "display name contains control characters")
      else Ok tt
  end.

(** ** Lemmas *)

(** The accepted identifiers. *)
Definition id_ok (s : string) : Prop :=
  s <> "" /\ chars_count s <= MAX_ID_LEN /\
  Forall (fun c => is_control c = false) (chars s).

Lemma existsb_false_Forall {A} (f : A -> bool) l :
  existsb f l = false <-> Forall (fun x => f x = false) l.
Proof.
  induction l as [|x l IH]; simpl; [by split; constructor|].
  rewrite orb_false_iff, Forall_cons, IH. done.
Qed.

Lemma validate_id_ok s : validate_id s = Ok tt <-> id_ok s.
Proof.
  unfold validate_id, id_ok. rewrite <- existsb_false_Forall.
  destruct (is_empty s) eqn:E1; [apply is_empty_true in E1 as ->; naive_solver|].
  apply is_empty_false in E1.
  destruct (Z.ltb_spec MAX_ID_LEN (chars_count s)); [split; [done|lia]|].
  destruct (existsb _ _); naive_solver.
Qed.

Lemma Id_new_ok {k} s (i : Id k) : Id_new s = Ok i <-> id_ok s /\ i = Id_raw s.
Proof.
  unfold Id_new. rewrite <- validate_id_ok.
  destruct (validate_id s) as [[]|e]; naive_solver.
Qed.

Lemma TrustLevel_round_trip t : TrustLevel_from_str (TrustLevel_as_str t) = Ok t.
Proof. by destruct t. Qed.

Definition subject_ok (a : AgentSubject) : Prop :=
  id_ok (id_str (as_agent_id a)) /\ id_ok (id_str (as_session_id a)) /\
  (forall name, as_display_name a = Some name ->
     len name <= MAX_SHORT_STRING_LEN /\ any_byte bad_text_byte name = false).

Lemma AgentSubject_validate_ok a :
  AgentSubject_validate_invariants a = Ok tt <-> subject_ok a.
Proof.
  unfold AgentSubject_validate_invariants, subject_ok.
  rewrite <- !validate_id_ok.
  destruct (validate_id _) as [[]|e]; [|naive_solver].
  destruct (validate_id _) as [[]|e]; [|naive_solver].
  destruct (as_display_name a) as [name|]; [|naive_solver].
  destruct (Z.ltb_spec MAX_SHORT_STRING_LEN (len name)).
  - split; [done|]. intros (_ & _ & Hn). destruct (Hn name eq_refl). lia.
  - destruct (any_byte _ name) eqn:E.
    + split; [done|]. intros (_ & _ & Hn). destruct (Hn name eq_refl). congruence.
    + naive_solver.
Qed.
