(* ===== verification/CorePath.v ===== *)
(** * Lexical paths (crates/kavach-core/src/resource.rs, first part)

    [PathError], [NormalizedPath] and the lexical normalization: no file
    system, only strings. *)

From stdpp Require Import base tactics list strings.
From Stdlib Require Import ZArith Lia Ascii.
From S2P Require Import Prelude RustStr CoreError CoreIds.

Open Scope Z_scope.

Definition MAX_PATH_LEN : Z := 4096.
Definition MAX_IDENTIFIER_LEN : Z := 1024.

(** [PathErrorKind]. *)
Inductive PathErrorKind :=
| PEK_Empty
| PEK_Oversized
| PEK_InvalidCharacter
| PEK_Escape
| PEK_InvalidValue
| PEK_InvalidEndpoint.

#[export] Instance PathErrorKind_eq_dec : EqDecision PathErrorKind.
Proof. solve_decision. Defined.

(** [PathError]. *)
Record PathError := PathError_from_kind {
  pe_kind : PathErrorKind;
  pe_context : string;
}.

#[export] Instance PathError_eq_dec : EqDecision PathError.
Proof. solve_decision. Defined.

(** [From<PathError> for DomainError]. *)
Definition DomainError_from_PathError (e : PathError) : DomainError :=
  let kind :=
    match pe_kind e with
    | PEK_Empty | PEK_Oversized | PEK_InvalidEndpoint => DEK_InvalidValue
    | PEK_InvalidCharacter => DEK_InvalidCharacter
    | PEK_Escape | PEK_InvalidValue => DEK_InvalidValue
    end in
  DomainError_new kind (pe_context e).

(** The separators of [body.split(['/', '\\'])]. *)
Definition is_sep (c : ascii) : bool := Ascii.eqb c "/" || Ascii.eqb c "\".

(** [has_drive_prefix]. *)
Definition has_drive_prefix (s : string) : bool :=
  match s with
  | String b0 (String b1 _) => is_ascii_alphabetic b0 && Ascii.eqb b1 ":"
  | _ => false
  end.

(** [strip_known_prefix]: the label and the remainder.  The first branch splits
    after 7 bytes, as the code does. *)
Definition strip_known_prefix (s : string) : option (string * string) :=
  let lower := to_ascii_lowercase s in
  if starts_with "\\?\unc\" lower then Some (split_at 7 s)
  else if starts_with "\\?\" lower then Some (split_at 4 s)
  else if has_drive_prefix s then Some (split_at 2 s)
  else None.

(** One iteration of the loop in [normalize_body], on the stack of segments
    (the last pushed segment first). *)
Definition normalize_step (segments : list string) (raw_seg : string) : option (list string) :=
  let seg := trim_end_matches "000" raw_seg in
  if String.eqb seg "" || String.eqb seg "." then Some segments
  else if String.eqb seg ".." then
    match segments with
    | [] => None
    | _ :: rest => Some rest
    end
  else Some (seg :: segments).

Fixpoint normalize_loop (segments : list string) (raws : list string) : option (list string) :=
  match raws with
  | [] => Some segments
  | r :: raws' =>
      match normalize_step segments r with
      | None => None
      | Some segments' => normalize_loop segments' raws'
      end
  end.

(** [normalize_body]. *)
Definition normalize_body (body : string) : option string :=
  match normalize_loop [] (split_on is_sep body) with
  | None => None
  | Some segments => Some (join "/" (reverse segments))
  end.

(** [merge_prefix]. *)
Definition merge_prefix (label body : string) : string :=
  if is_empty body then label
  else
    let sep := if starts_with "/" body || ends_with "\" label then "" else "/" in
    label +:+ sep +:+ body.

(** [normalize_lexical]. *)
Definition normalize_lexical (input : string) : option string :=
  match strip_known_prefix input with
  | Some (label, rest) =>
      match normalize_body rest with
      | None => None
      | Some body => Some (merge_prefix label body)
      end
  | None =>
      match strip_prefix "/" input with
      | Some body =>
          match normalize_body body with
          | None => None
          | Some nb => Some ("/" +:+ nb)
          end
      | None => normalize_body input
      end
  end.

(** [NormalizedPath]. *)
Record NormalizedPath := mkNormalizedPath {
  np_raw : string;
  np_normalized : string;
  np_absolute : bool;
}.

#[export] Instance NormalizedPath_eq_dec : EqDecision NormalizedPath.
Proof. solve_decision. Defined.

(** The absoluteness test of the constructor and of the re-validation. *)
Definition path_is_absolute (s : string) : bool :=
  starts_with "/" s || starts_with "\" s || has_drive_prefix s.

(** [NormalizedPath::new] (and [from_str], [try_from], deserialization). *)
Definition NormalizedPath_new (s : string) : result PathError NormalizedPath :=
  if is_empty s then Err (PathError_from_kind PEK_Empty "empty path")
  else if MAX_PATH_LEN <? len s then
    Err (PathError_from_kind PEK_Oversized "path exceeds maximum length")
  else if any_byte bad_text_byte s then
    Err (PathError_from_kind PEK_InvalidCharacter "path contains null or control bytes")
  else
    let absolute := path_is_absolute s in
    let? normalized :=
      ok_or (PathError_from_kind PEK_Escape "path escapes its own root via '..'")
            (normalize_lexical s) in
    Ok (mkNormalizedPath s normalized absolute).

(** [NormalizedPath::segments]. *)
Definition NormalizedPath_segments (p : NormalizedPath) : list string :=
  let s := np_normalized p in
  let s := match strip_known_prefix s with Some (_, rest) => rest | None => s end in
  let s := match strip_prefix "/" s with Some rest => rest | None => s end in
  filter (fun seg => is_empty seg = false) (split_on (Ascii.eqb "/") s).

(** [NormalizedPath::validate_invariants]. *)
Definition NormalizedPath_validate_invariants (p : NormalizedPath) : result PathError unit :=
  if is_empty (np_raw p) then Err (PathError_from_kind PEK_Empty "empty path")
  else if MAX_PATH_LEN <? len (np_raw p) then
    Err (PathError_from_kind PEK_Oversized "path exceeds maximum length")
  else if any_byte bad_text_byte (np_raw p) then
    Err (PathError_from_kind PEK_InvalidCharacter "path contains null or control bytes")
  else if negb (Bool.eqb (path_is_absolute (np_raw p)) (np_absolute p)) then
    Err (PathError_from_kind PEK_InvalidCharacter
           "path absolute marker disagrees with raw form")
  else
    let? rederived :=
      ok_or (PathError_from_kind PEK_Escape "path escapes its own root via '..'")
            (normalize_lexical (np_raw p)) in
    if negb (String.eqb rederived (np_normalized p)) then
      Err (PathError_from_kind PEK_InvalidValue "normalized field does not match raw path")
    else Ok tt.

(** [Display for NormalizedPath], [From<NormalizedPath> for String]. *)
Definition NormalizedPath_display (p : NormalizedPath) : string := np_normalized p.
Definition NormalizedPath_into_string (p : NormalizedPath) : string := np_raw p.

(** ** Segments *)

(** A segment that survives normalization. *)
Definition proper_segment (seg : string) : Prop :=
  seg <> "" /\ seg <> "." /\ seg <> ".." /\ any_byte is_sep seg = false /\
  trim_end_matches "000" seg = seg.

Lemma proper_segment_step segs seg :
  proper_segment seg -> normalize_step segs seg = Some (seg :: segs).
Proof.
  intros (H1 & H2 & H3 & _ & H5). unfold normalize_step. rewrite H5.
  destruct (String.eqb_spec seg ""), (String.eqb_spec seg "."),
    (String.eqb_spec seg ".."); done.
Qed.

Lemma normalize_step_proper segs raw segs' :
  Forall proper_segment segs -> any_byte is_sep raw = false ->
  normalize_step segs raw = Some segs' -> Forall proper_segment segs'.
Proof.
  intros Hs Hraw. unfold normalize_step.
  set (seg := trim_end_matches "000" raw).
  assert (any_byte is_sep seg = false) as Hsep by (by apply trim_end_matches_any).
  assert (trim_end_matches "000" seg = seg) as Htrim by apply trim_end_matches_idem.
  destruct (String.eqb_spec seg ""), (String.eqb_spec seg "."),
    (String.eqb_spec seg ".."); simpl; intros H; inv_all; try done.
  - by inversion_clear Hs.
  - by constructor.
Qed.

Lemma normalize_loop_proper segs raws segs' :
  Forall proper_segment segs -> Forall (fun r => any_byte is_sep r = false) raws ->
  normalize_loop segs raws = Some segs' -> Forall proper_segment segs'.
Proof.
  revert segs. induction raws as [|r raws IH]; intros segs Hs Hr H; simpl in H.
  - by inv_all.
  - inversion_clear Hr. inv_all. eauto using normalize_step_proper.
Qed.

Lemma normalize_loop_id segs l :
  Forall proper_segment l -> normalize_loop segs l = Some (reverse l ++ segs).
Proof.
  intros Hl. revert segs. induction Hl as [|x l Hx Hl IH]; intros segs; simpl; [done|].
  rewrite proper_segment_step by done. rewrite IH, reverse_cons.
  by rewrite <- (assoc_L (++)).
Qed.

(** The normal form: segments joined by slashes. *)
Lemma normalize_body_form body nb :
  normalize_body body = Some nb ->
  exists segs, Forall proper_segment segs /\ nb = join "/" segs.
Proof.
  unfold normalize_body. intros H. inv_all. exists (reverse l). split; [|done].
  apply Forall_reverse. eapply normalize_loop_proper; [|apply split_on_pieces|done]. constructor.
Qed.

Lemma proper_sep_free segs :
  Forall proper_segment segs -> Forall (fun x => any_byte is_sep x = false) segs.
Proof. intros H. eapply Forall_impl; [exact H|]. intros x (_ & _ & _ & ? & _). done. Qed.

Lemma normalize_body_join segs :
  Forall proper_segment segs -> normalize_body (join "/" segs) = Some (join "/" segs).
Proof.
  intros Hs. destruct segs as [|x segs]; [done|].
  unfold normalize_body. rewrite split_on_join by (done || by apply proper_sep_free).
  rewrite normalize_loop_id by done. by rewrite app_nil_r, reverse_involutive.
Qed.

Lemma normalize_body_idem body nb :
  normalize_body body = Some nb -> normalize_body nb = Some nb.
Proof. intros (segs & Hs & ->)%normalize_body_form. by apply normalize_body_join. Qed.

(** A leading separator does not matter. *)
Lemma normalize_body_cons_sep c body :
  is_sep c = true -> normalize_body (String c body) = normalize_body body.
Proof. intros Hc. unfold normalize_body. simpl. by rewrite Hc. Qed.

(** A leading proper segment is kept. *)
Lemma split_on_join_head seg segs :
  Forall proper_segment (seg :: segs) ->
  seg +:+ "/" +:+ join "/" segs = join "/" (seg :: segs) \/ segs = [].
Proof. destruct segs as [|y segs]; [by right|]. intros _. by left. Qed.

(** ** Prefixes *)

Lemma byte_lower_fixed c d :
  is_ascii_lowercase d = false -> byte_lower c = d -> c = d.
Proof.
  unfold byte_lower. intros Hd. destruct (is_ascii_uppercase c) eqn:E; [|done].
  intros <-. exfalso.
  destruct c as [[] [] [] [] [] [] [] []]; vm_compute in E, Hd; discriminate.
Qed.

Lemma byte_lower_cases c d :
  byte_lower c = d -> c = d \/ byte_val c = byte_val d - 32.
Proof.
  intros <-. destruct c as [[] [] [] [] [] [] [] []]; vm_compute; auto.
Qed.

(** The letters of the UNC marker, in either case, make a proper segment. *)
Lemma unc_proper a b c :
  to_ascii_lowercase (String a (String b (String c ""))) = "unc" ->
  proper_segment (String a (String b (String c ""))) /\ Ascii.eqb "\" c = false.
Proof.
  unfold to_ascii_lowercase. simpl. intros H.
  injection H as Ha Hb Hc.
  assert (a = "u"%char \/ a = "U"%char) as Ha'.
  { apply byte_lower_cases in Ha as [?|Ha]; [by left|right; by apply byte_val_inj]. }
  assert (b = "n"%char \/ b = "N"%char) as Hb'.
  { apply byte_lower_cases in Hb as [?|Hb]; [by left|right; by apply byte_val_inj]. }
  assert (c = "c"%char \/ c = "C"%char) as Hc'.
  { apply byte_lower_cases in Hc as [?|Hc]; [by left|right; by apply byte_val_inj]. }
  destruct Ha' as [-> | ->], Hb' as [-> | ->], Hc' as [-> | ->]; done.
Qed.

Lemma lower_cons_inv c t s :
  to_ascii_lowercase s = String c t ->
  exists d s', s = String d s' /\ byte_lower d = c /\ to_ascii_lowercase s' = t.
Proof.
  destruct s as [|d s']; [done|]. unfold to_ascii_lowercase. simpl.
  intros [= H1 H2]. eauto.
Qed.

(** The verbatim marker is the same in lower case. *)
Lemma verbatim_prefix_inv t s :
  to_ascii_lowercase s = "\\?\" +:+ t ->
  exists s', s = "\\?\" +:+ s' /\ to_ascii_lowercase s' = t.
Proof.
  rewrite !append_cons, append_nil_l. intros H.
  do 4 (apply lower_cons_inv in H as (? & ? & -> & Hc & H);
        apply byte_lower_fixed in Hc as ->; [|done]).
  eauto.
Qed.

(** The three prefixes, with the text they leave. *)
Inductive prefix_view (s : string) : option (string * string) -> Prop :=
| pv_unc a b c rest :
    s = "\\?\" +:+ String a (String b (String c (String "\" rest))) ->
    to_ascii_lowercase (String a (String b (String c ""))) = "unc" ->
    prefix_view s (Some ("\\?\" +:+ String a (String b (String c "")), String "\" rest))
| pv_verbatim rest :
    s = "\\?\" +:+ rest -> prefix_view s (Some ("\\?\", rest))
| pv_drive d rest :
    s = String d (String ":" rest) -> is_ascii_alphabetic d = true ->
    prefix_view s (Some (String d ":", rest))
| pv_none :
    has_drive_prefix s = false ->
    (forall r, s <> "\\?\" +:+ r) -> prefix_view s None.

Lemma strip_known_prefix_view s : prefix_view s (strip_known_prefix s).
Proof.
  unfold strip_known_prefix.
  destruct (starts_with "\\?\unc\" _) eqn:E1.
  { apply starts_with_spec in E1 as [r Hr].
    change "\\?\unc\" with ("\\?\" +:+ "unc\") in Hr. rewrite append_assoc in Hr.
    apply verbatim_prefix_inv in Hr as (s' & -> & Hr).
    rewrite !append_cons, append_nil_l in Hr.
    apply lower_cons_inv in Hr as (a & ? & -> & Ha & Hr).
    apply lower_cons_inv in Hr as (b & ? & -> & Hb & Hr).
    apply lower_cons_inv in Hr as (c & ? & -> & Hc & Hr).
    apply lower_cons_inv in Hr as (d & rest & -> & Hd & Hr).
    apply byte_lower_fixed in Hd as ->; [|done].
    apply (pv_unc _ a b c rest); [done|]. unfold to_ascii_lowercase. simpl.
    by rewrite Ha, Hb, Hc. }
  destruct (starts_with "\\?\" (to_ascii_lowercase s)) eqn:E2.
  { apply starts_with_spec in E2 as [r Hr].
    apply verbatim_prefix_inv in Hr as (s' & -> & Hr).
    by apply pv_verbatim. }
  destruct (has_drive_prefix s) eqn:E3.
  { destruct s as [|d [|e rest]]; [done..|]. simpl in E3. bool_prop.
    apply Ascii.eqb_eq in H0 as ->. by apply pv_drive. }
  apply pv_none; [done|]. intros r ->.
  assert (starts_with "\\?\" (to_ascii_lowercase ("\\?\" +:+ r)) = true) as Hc; [|congruence].
  apply starts_with_spec. by exists (to_ascii_lowercase r).
Qed.

Lemma strip_known_prefix_verbatim x :
  any_byte (Ascii.eqb "\") x = false ->
  strip_known_prefix ("\\?\" +:+ x) = Some ("\\?\", x).
Proof.
  intros Hx. destruct (strip_known_prefix_view ("\\?\" +:+ x)) as
    [a b c rest Heq _|rest Heq|d rest Heq Hd|_ Hn].
  - apply append_inj_l in Heq as ->. simpl in Hx.
    by rewrite !orb_true_r in Hx.
  - apply append_inj_l in Heq as ->. done.
  - injection Heq as <- Heq. by vm_compute in Hd.
  - by destruct (Hn x).
Qed.

Lemma strip_known_prefix_drive d rest :
  is_ascii_alphabetic d = true ->
  strip_known_prefix (String d (String ":" rest)) = Some (String d ":", rest).
Proof.
  intros Hd. destruct (strip_known_prefix_view (String d (String ":" rest))) as
    [a b c r Heq _|r Heq|e r Heq He|Hn _].
  - injection Heq as -> Heq. by vm_compute in Hd.
  - injection Heq as -> Heq. by vm_compute in Hd.
  - by injection Heq as -> ->.
  - simpl in Hn. by rewrite Hd in Hn.
Qed.

Lemma strip_known_prefix_plain s :
  has_drive_prefix s = false -> starts_with "\" s = false -> strip_known_prefix s = None.
Proof.
  intros Hd Hb. destruct (strip_known_prefix_view s) as
    [a b c r -> _|r ->|e r -> He|_ _]; [done|done| |done].
  simpl in Hd. by rewrite He in Hd.
Qed.

Lemma join_no_backslash segs :
  Forall proper_segment segs -> any_byte (Ascii.eqb "\") (join "/" segs) = false.
Proof.
  unfold join. induction 1 as [|x segs (_ & _ & _ & Hx & _) Hs IH]; [done|].
  assert (any_byte (Ascii.eqb "\") x = false) as Hx'.
  { eapply any_byte_false_mono; [|exact Hx]. intros c Hc.
    apply Ascii.eqb_eq in Hc as <-. done. }
  destruct segs as [|y segs]; [done|].
  rewrite concat_cons2, !any_byte_append, Hx'. simpl. done.
Qed.

(** A joined sequence of proper segments starts with a segment, not a
    separator. *)
Lemma join_head_not_sep segs c s :
  Forall proper_segment segs -> join "/" segs = String c s -> is_sep c = false.
Proof.
  unfold join. destruct 1 as [|x segs (Hx & _ & _ & Hs & _) _]; [done|].
  destruct x as [|d x]; [done|]. simpl in Hs. bool_prop.
  destruct segs as [|y segs]; [by intros [= -> _]|].
  rewrite concat_cons2, append_cons. by intros [= -> _].
Qed.

Lemma is_sep_false_slash c : is_sep c = false -> Ascii.eqb "/" c = false /\ Ascii.eqb "\" c = false.
Proof.
  unfold is_sep. intros H. bool_prop. rewrite !(Ascii.eqb_sym _ c). done.
Qed.

Lemma join_no_leading segs :
  Forall proper_segment segs ->
  strip_prefix "/" (join "/" segs) = None /\ starts_with "/" (join "/" segs) = false /\
  starts_with "\" (join "/" segs) = false.
Proof.
  intros Hs. destruct (join "/" segs) as [|c s] eqn:E; [done|].
  apply join_head_not_sep, is_sep_false_slash in E as [H1 H2]; [|done].
  unfold starts_with. cbn [strip_prefix]. by rewrite H1, H2.
Qed.

Lemma join_nonempty segs :
  segs <> [] -> Forall proper_segment segs -> is_empty (join "/" segs) = false.
Proof.
  destruct 2 as [|x segs [Hx _] _]; [done|]. unfold join.
  destruct segs; [by apply is_empty_false|]. rewrite concat_cons2.
  destruct x; [done|by rewrite append_cons].
Qed.

(** [merge_prefix] on a normalized body. *)
Lemma merge_prefix_join label segs :
  Forall proper_segment segs ->
  merge_prefix label (join "/" segs) =
  if is_empty (join "/" segs) then label
  else label +:+ (if ends_with "\" label then "" else "/") +:+ join "/" segs.
Proof.
  intros Hs. unfold merge_prefix. destruct (join_no_leading segs Hs) as (_ & -> & _).
  done.
Qed.

(** Re-normalizing a prefixed normal form gives it back. *)
Lemma normalize_prefixed_verbatim x :
  any_byte (Ascii.eqb "\") x = false -> normalize_body x = Some x ->
  starts_with "/" x = false ->
  normalize_lexical ("\\?\" +:+ x) = Some ("\\?\" +:+ x).
Proof.
  intros Hb Hn Hs. unfold normalize_lexical. rewrite strip_known_prefix_verbatim by done.
  rewrite Hn. unfold merge_prefix. destruct x as [|c x]; [done|]. cbn [is_empty].
  by rewrite Hs.
Qed.

Lemma unc_segments a b c segs :
  to_ascii_lowercase (String a (String b (String c ""))) = "unc" ->
  Forall proper_segment segs ->
  merge_prefix ("\\?\" +:+ String a (String b (String c ""))) (join "/" segs) =
  "\\?\" +:+ join "/" (String a (String b (String c "")) :: segs).
Proof.
  intros [_ Hc]%unc_proper Hs. rewrite merge_prefix_join by done.
  assert (ends_with "\" ("\\?\" +:+ String a (String b (String c ""))) = false) as ->.
  { unfold ends_with. destruct (strip_suffix _ _) as [r|] eqn:E; [|done].
    apply strip_suffix_Some in E. exfalso.
    do 7 (destruct r as [|? r]; [injection E; intros; subst; by vm_compute in Hc|
          rewrite append_cons in E; injection E as <- E]).
    destruct r; discriminate. }
  destruct segs as [|x segs]; [done|].
  rewrite join_nonempty by done. by rewrite append_assoc.
Qed.

Lemma drive_label_not_backslash d : ends_with "\" (String d ":") = false.
Proof. by destruct d as [[] [] [] [] [] [] [] []]. Qed.

(** The shapes a normalized path takes. *)
Inductive normal_form (s : string) : string -> Prop :=
| nf_relative segs :
    has_drive_prefix s = false -> Forall proper_segment segs ->
    normal_form s (join "/" segs)
| nf_rooted segs :
    Forall proper_segment segs -> normal_form s ("/" +:+ join "/" segs)
| nf_verbatim segs :
    Forall proper_segment segs -> normal_form s ("\\?\" +:+ join "/" segs)
| nf_drive_root d :
    is_ascii_alphabetic d = true -> normal_form s (String d ":")
| nf_drive d segs :
    is_ascii_alphabetic d = true -> segs <> [] -> Forall proper_segment segs ->
    normal_form s (String d (String ":" (String "/" (join "/" segs)))).

Lemma normalize_lexical_form s n : normalize_lexical s = Some n -> normal_form s n.
Proof.
  unfold normalize_lexical.
  destruct (strip_known_prefix_view s) as [a b c rest -> Hunc|rest ->|d rest -> Hd|Hd Hn].
  - intros H. inv_all. apply normalize_body_form in E as (segs & Hs & ->).
    rewrite unc_segments by done. apply nf_verbatim. constructor; [|done].
    by apply unc_proper.
  - intros H. inv_all. apply normalize_body_form in E as (segs & Hs & ->).
    rewrite merge_prefix_join by done.
    destruct (is_empty _) eqn:E; [|by apply nf_verbatim].
    apply (nf_verbatim _ []). constructor.
  - intros H. inv_all. apply normalize_body_form in E as (segs & Hs & ->).
    rewrite merge_prefix_join by done.
    destruct (is_empty _) eqn:E; [by apply nf_drive_root|].
    rewrite drive_label_not_backslash.
    apply nf_drive; [done| |done]. by intros ->.
  - destruct (strip_prefix "/" s) as [body|] eqn:E.
    + intros H. inv_all. apply normalize_body_form in E0 as (segs & Hs & ->).
      by apply nf_rooted.
    + intros (segs & Hs & ->)%normalize_body_form. by apply nf_relative.
Qed.

(** ** Traversal *)

(** What a raw segment does to the current directory. *)
Definition seg_class (raw : string) : Z :=
  let seg := trim_end_matches "000" raw in
  if String.eqb seg "" || String.eqb seg "." then 0
  else if String.eqb seg ".." then -1
  else 1.

(** The depth reached after walking the segments. *)
Definition walk_depth (raws : list string) : Z :=
  foldr Z.add 0 (seg_class <$> raws).

Lemma normalize_step_depth segs raw :
  match normalize_step segs raw with
  | Some segs' => Z.of_nat (length segs') = Z.of_nat (length segs) + seg_class raw
  | None => Z.of_nat (length segs) + seg_class raw < 0
  end.
Proof.
  unfold normalize_step, seg_class.
  destruct (_ || _); [lia|].
  destruct (String.eqb _ ".."); [destruct segs|]; simpl length; lia.
Qed.

Lemma walk_depth_cons r raws : walk_depth (r :: raws) = seg_class r + walk_depth raws.
Proof. done. Qed.

Lemma normalize_loop_depth segs raws :
  normalize_loop segs raws = None <->
  exists k, Z.of_nat (length segs) + walk_depth (take k raws) < 0.
Proof.
  revert segs. induction raws as [|r raws IH]; intros segs; simpl.
  - split; [done|]. intros [k Hk]. rewrite take_nil in Hk.
    change (walk_depth []) with 0 in Hk. lia.
  - pose proof (normalize_step_depth segs r) as Hstep.
    destruct (normalize_step segs r) as [segs'|].
    + rewrite IH. split; intros [k Hk].
      * exists (S k). rewrite firstn_cons, walk_depth_cons. lia.
      * destruct k as [|k]; [change (walk_depth (take 0 (r :: raws))) with 0 in Hk; lia|].
        exists k. rewrite firstn_cons, walk_depth_cons in Hk. lia.
    + split; [|done]. intros _. exists 1%nat.
      rewrite firstn_cons, walk_depth_cons. change (walk_depth (take 0 raws)) with 0. lia.
Qed.

(** Every piece of a normalized path, between any separators. *)
Definition no_traversal (n : string) : Prop :=
  Forall (fun seg => seg <> "." /\ seg <> "..") (split_on is_sep n).

Lemma no_traversal_join segs : Forall proper_segment segs -> no_traversal (join "/" segs).
Proof.
  intros Hs. unfold no_traversal. destruct segs as [|x segs]; [by repeat constructor|].
  rewrite split_on_join by (done || by apply proper_sep_free).
  eapply Forall_impl; [exact Hs|]. by intros y (_ & ? & ? & _).
Qed.

Lemma no_traversal_cons a c n :
  any_byte is_sep a = false -> is_sep c = true -> a <> "." -> a <> ".." ->
  no_traversal n -> no_traversal (a +:+ String c n).
Proof.
  intros Ha Hc H1 H2 Hn. unfold no_traversal. rewrite split_on_append by done.
  by constructor.
Qed.

Lemma normal_form_no_traversal s n : normal_form s n -> no_traversal n.
Proof.
  destruct 1 as [segs _ Hs|segs Hs|segs Hs|d Hd|d segs Hd _ Hs].
  - by apply no_traversal_join.
  - apply (no_traversal_cons "" "/"); [done..|]. by apply no_traversal_join.
  - do 2 (apply (no_traversal_cons "" "\"); [done..|]).
    apply (no_traversal_cons "?" "\"); [done..|]. by apply no_traversal_join.
  - unfold no_traversal. rewrite split_on_none; [by repeat constructor|].
    destruct d as [[] [] [] [] [] [] [] []]; by vm_compute in Hd |- *.
  - apply (no_traversal_cons (String d ":") "/");
      [by destruct d as [[] [] [] [] [] [] [] []]|done|done|done|].
    by apply no_traversal_join.
Qed.

(** ** The constructor and the re-validation agree *)

Lemma NormalizedPath_new_ok s p :
  NormalizedPath_new s = Ok p <->
  s <> "" /\ len s <= MAX_PATH_LEN /\ any_byte bad_text_byte s = false /\
  np_raw p = s /\ np_absolute p = path_is_absolute s /\
  normalize_lexical s = Some (np_normalized p).
Proof.
  unfold NormalizedPath_new. split.
  - intros H. inv_all. bool_prop. apply is_empty_false in E. simpl.
    unfold ok_or in E2. inv_all. done.
  - intros (Hs & Hl & Hb & Hr & Ha & Hn). apply is_empty_false in Hs. rewrite Hs.
    apply Z.ltb_ge in Hl. rewrite Hl, Hb, Hn. simpl. destruct p; simpl in *. by subst.
Qed.

Lemma NormalizedPath_validate_iff p :
  NormalizedPath_validate_invariants p = Ok tt <-> NormalizedPath_new (np_raw p) = Ok p.
Proof.
  rewrite NormalizedPath_new_ok. unfold NormalizedPath_validate_invariants. split.
  - intros H. inv_all. bool_prop. apply is_empty_false in E.
    apply Bool.eqb_prop in E2. unfold ok_or in E3. inv_all. naive_solver.
  - intros (Hs & Hl & Hb & Hr & Ha & Hn). apply is_empty_false in Hs. rewrite Hs.
    apply Z.ltb_ge in Hl. rewrite Hl, Hb, Ha, Hn, Bool.eqb_reflx. simpl.
    by rewrite String.eqb_refl.
Qed.

Lemma normalize_lexical_idem s n :
  normalize_lexical s = Some n ->
  (has_drive_prefix n = true -> has_drive_prefix s = true) ->
  normalize_lexical n = Some n.
Proof.
  intros [segs Hd Hs|segs Hs|segs Hs|d Hd|d segs Hd Hne Hs]%normalize_lexical_form Hn.
  - destruct (join_no_leading segs Hs) as (H1 & H2 & H3).
    assert (has_drive_prefix (join "/" segs) = false) as Hdp.
    { destruct (has_drive_prefix (join "/" segs)); [rewrite Hn in Hd|]; done. }
    unfold normalize_lexical. rewrite strip_known_prefix_plain by done. rewrite H1. by apply normalize_body_join.
  - assert (has_drive_prefix ("/" +:+ join "/" segs) = false) as Hdp
      by (by destruct (join "/" segs)).
    unfold normalize_lexical. rewrite strip_known_prefix_plain by done.
    change (strip_prefix "/" ("/" +:+ join "/" segs)) with (Some (join "/" segs)).
    cbv iota. by rewrite normalize_body_join.
  - apply normalize_prefixed_verbatim;
      [by apply join_no_backslash|by apply normalize_body_join|by apply join_no_leading].
  - unfold normalize_lexical. by rewrite strip_known_prefix_drive.
  - unfold normalize_lexical. rewrite strip_known_prefix_drive by done.
    rewrite normalize_body_cons_sep, normalize_body_join by done.
    rewrite merge_prefix_join, join_nonempty by done.
    by rewrite drive_label_not_backslash.
Qed.
