(* ===== verification/CoreResource.v ===== *)
(** * Protected resources (crates/kavach-core/src/resource.rs, second part)

    Network endpoints, commands, request metadata and the [Resource] sum. *)

From stdpp Require Import base tactics list strings.
From Stdlib Require Import ZArith Lia Ascii.
From S2P Require Import Prelude RustStr BTree CoreError CoreIds CorePath.

Open Scope Z_scope.

(** ** Network endpoints *)

Record NetworkScheme := NetworkScheme_raw { scheme_str : string }.
Record NetworkHost := NetworkHost_raw { host_str : string }.
(** A [u16]. *)
Record NetworkPort := NetworkPort_new { port_value : Z }.

(** [NetworkScheme::new].  The accepted characters are ASCII, on which
    [to_lowercase] is [to_ascii_lowercase]. *)
Definition NetworkScheme_new (s : string) : result PathError NetworkScheme :=
  if is_empty s then Err (PathError_from_kind PEK_InvalidEndpoint "empty scheme")
  else if 32 <? len s then
    Err (PathError_from_kind PEK_Oversized "scheme exceeds maximum length")
  else if negb (all_bytes (fun c => is_ascii_alphanumeric c || Ascii.eqb c "+"
                                    || Ascii.eqb c "-" || Ascii.eqb c ".") s) then
    Err (PathError_from_kind PEK_InvalidCharacter "scheme contains invalid characters")
  else Ok (NetworkScheme_raw (to_ascii_lowercase s)).

(** The characters [NetworkHost::new] accepts. *)
Definition is_host_char (c : ascii) : bool :=
  is_ascii_alphanumeric c || Ascii.eqb c "." || Ascii.eqb c "-" || Ascii.eqb c ":"
  || Ascii.eqb c "_" || Ascii.eqb c "[" || Ascii.eqb c "]".

(** [NetworkHost::new]. *)
Definition NetworkHost_new (s : string) : result PathError NetworkHost :=
  if is_empty s then Err (PathError_from_kind PEK_InvalidEndpoint "empty host")
  else if 255 <? len s then
    Err (PathError_from_kind PEK_Oversized "host exceeds maximum length")
  else if negb (all_bytes is_host_char s) then
    Err (PathError_from_kind PEK_InvalidCharacter "host contains invalid characters")
  else Ok (NetworkHost_raw (to_ascii_lowercase s)).

Record NetworkResource := {
  net_scheme : NetworkScheme;
  net_host : NetworkHost;
  net_port : option NetworkPort;
  net_path : NormalizedPath;
}.

(** [NetworkResource::new]. *)
Definition NetworkResource_new (scheme : NetworkScheme) (host : NetworkHost)
    (port : option NetworkPort) (path : string) : result PathError NetworkResource :=
  if is_empty path then Err (PathError_from_kind PEK_InvalidEndpoint "empty path")
  else
    let? p := NormalizedPath_new path in
    Ok {| net_scheme := scheme; net_host := host; net_port := port; net_path := p |}.

(** [NetworkResource::validate_invariants]. *)
Definition NetworkResource_validate_invariants (n : NetworkResource) : result PathError unit :=
  NormalizedPath_validate_invariants (net_path n).

(** ** Commands *)

Record CommandResource := mkCommandResource {
  cmd_executable : string;
  cmd_arguments : list string;
}.

(** The loop body over the arguments, shared by [CommandResource::new] and
    [CommandResource::validate_invariants]. *)
Definition check_argument (arg : string) : result PathError unit :=
  if MAX_PATH_LEN <? len arg then
    Err (PathError_from_kind PEK_Oversized "argument exceeds maximum length")
  else if any_byte bad_text_byte arg then
    Err (PathError_from_kind PEK_InvalidCharacter "argument contains null or control bytes")
  else Ok tt.

(** [CommandResource::validate_invariants]. *)
Definition CommandResource_validate_invariants (c : CommandResource) : result PathError unit :=
  if is_empty (cmd_executable c) then
    Err (PathError_from_kind PEK_InvalidEndpoint "empty executable")
  else if MAX_PATH_LEN <? len (cmd_executable c) then
    Err (PathError_from_kind PEK_Oversized "executable exceeds maximum length")
  else if any_byte bad_text_byte (cmd_executable c) then
    Err (PathError_from_kind PEK_InvalidCharacter "executable contains null or control bytes")
  else for_each check_argument (cmd_arguments c).

(** [CommandResource::new]. *)
Definition CommandResource_new (exe : string) (arguments : list string)
  : result PathError CommandResource :=
  if is_empty exe then Err (PathError_from_kind PEK_InvalidEndpoint "empty executable")
  else if MAX_PATH_LEN <? len exe then
    Err (PathError_from_kind PEK_Oversized "executable exceeds maximum length")
  else if any_byte bad_text_byte exe then
    Err (PathError_from_kind PEK_InvalidCharacter "executable contains null or control bytes")
  else
    let? _ := for_each check_argument arguments in
    Ok (mkCommandResource exe arguments).

(** ** Metadata *)

(** [RequestMetadata(BTreeMap<String, String>)]. *)
Record RequestMetadata := RequestMetadata_raw { md_entries : list (string * string) }.

Definition MAX_METADATA_ENTRIES : Z := 32.

(** [RequestMetadata::new]. *)
Definition RequestMetadata_new : RequestMetadata := RequestMetadata_raw [].

(** [RequestMetadata::insert]; the map is unchanged when an error is returned. *)
Definition RequestMetadata_insert (m : RequestMetadata) (key value : string)
  : result PathError RequestMetadata :=
  if is_empty key || (128 <? len key) then
    Err (PathError_from_kind PEK_Oversized "metadata key invalid length")
  else if MAX_PATH_LEN <? len value then
    Err (PathError_from_kind PEK_Oversized "metadata value exceeds maximum length")
  else if negb (bmap_contains_key key (md_entries m))
          && (MAX_METADATA_ENTRIES <? Z.of_nat (length (md_entries m)) + 1) then
    Err (PathError_from_kind PEK_Oversized "metadata exceeds maximum entries")
  else Ok (RequestMetadata_raw (bmap_insert key value (md_entries m))).

(** [RequestMetadata::get]. *)
Definition RequestMetadata_get (m : RequestMetadata) (key : string) : option string :=
  bmap_get key (md_entries m).

(** The loop body of [RequestMetadata::validate_invariants]. *)
Definition check_metadata_entry (kv : string * string) : result PathError unit :=
  let '(key, value) := kv in
  if is_empty key || (128 <? len key) then
    Err (PathError_from_kind PEK_Oversized "metadata key invalid length")
  else if any_byte (fun b => (byte_val b =? 0) || is_ascii_control b) key then
    Err (PathError_from_kind PEK_InvalidCharacter "metadata key contains null or control bytes")
  else if MAX_PATH_LEN <? len value then
    Err (PathError_from_kind PEK_Oversized "metadata value exceeds maximum length")
  else if any_byte bad_text_byte value then
    Err (PathError_from_kind PEK_InvalidCharacter "metadata value contains null or control bytes")
  else Ok tt.

(** [RequestMetadata::validate_invariants]. *)
Definition RequestMetadata_validate_invariants (m : RequestMetadata) : result PathError unit :=
  if MAX_METADATA_ENTRIES <? Z.of_nat (length (md_entries m)) then
    Err (PathError_from_kind PEK_Oversized "metadata exceeds maximum entries")
  else for_each check_metadata_entry (md_entries m).

(** ** Resources *)

(** [ResourceKind]. *)
Inductive ResourceKind :=
| RK_File | RK_Directory | RK_Command | RK_NetworkEndpoint | RK_Secret | RK_ExternalTool
| RK_Unknown.

#[export] Instance ResourceKind_eq_dec : EqDecision ResourceKind.
Proof. solve_decision. Defined.

(** [Display for ResourceKind]. *)
Definition ResourceKind_display (k : ResourceKind) : string :=
  match k with
  | RK_File => "file"
  | RK_Directory => "directory"
  | RK_Command => "command"
  | RK_NetworkEndpoint => "network_endpoint"
  | RK_Secret => "secret"
  | RK_ExternalTool => "external_tool"
  | RK_Unknown => "unknown"
  end.

(** [FromStr for ResourceKind]. *)
Definition ResourceKind_from_str (s : string) : result DomainError ResourceKind :=
  if String.eqb s "file" then Ok RK_File
  else if String.eqb s "directory" then Ok RK_Directory
  else if String.eqb s "command" then Ok RK_Command
  else if String.eqb s "network_endpoint" then Ok RK_NetworkEndpoint
  else if String.eqb s "secret" then Ok RK_Secret
  else if String.eqb s "external_tool" then Ok RK_ExternalTool
  else if String.eqb s "unknown" then Ok RK_Unknown
  else Err (DomainError_new DEK_UnknownVariant ("unknown resource kind: " +:+ s)).

(** [Resource]. *)
Inductive Resource :=
| R_File (path : NormalizedPath)
| R_Directory (path : NormalizedPath)
| R_Command (cmd : CommandResource)
| R_NetworkEndpoint (net : NetworkResource)
| R_Secret (identifier : string)
| R_ExternalTool (identifier : string)
| R_Unknown.

(** [Resource::file] and [Resource::directory]. *)
Definition Resource_file (path : string) : result PathError Resource :=
  let? p := NormalizedPath_new path in Ok (R_File p).
Definition Resource_directory (path : string) : result PathError Resource :=
  let? p := NormalizedPath_new path in Ok (R_Directory p).

(** [Resource::kind]. *)
Definition Resource_kind (r : Resource) : ResourceKind :=
  match r with
  | R_File _ => RK_File
  | R_Directory _ => RK_Directory
  | R_Command _ => RK_Command
  | R_NetworkEndpoint _ => RK_NetworkEndpoint
  | R_Secret _ => RK_Secret
  | R_ExternalTool _ => RK_ExternalTool
  | R_Unknown => RK_Unknown
  end.

(** [Resource::path]. *)
Definition Resource_path (r : Resource) : option NormalizedPath :=
  match r with
  | R_File path | R_Directory path => Some path
  | _ => None
  end.

(** [validate_secret_or_tool_identifier]. *)
Definition validate_secret_or_tool_identifier (identifier : string) : result PathError unit :=
  if is_empty identifier then Err (PathError_from_kind PEK_InvalidEndpoint "empty identifier")
  else if MAX_IDENTIFIER_LEN <? len identifier then
    Err (PathError_from_kind PEK_Oversized "identifier exceeds maximum length")
  else if any_byte bad_text_byte identifier then
    Err (PathError_from_kind PEK_InvalidCharacter "identifier contains null or control bytes")
  else Ok tt.

(** [Resource::validate_invariants]. *)
Definition Resource_validate_invariants (r : Resource) : result PathError unit :=
  match r with
  | R_File path | R_Directory path => NormalizedPath_validate_invariants path
  | R_Command cmd => CommandResource_validate_invariants cmd
  | R_NetworkEndpoint net => NetworkResource_validate_invariants net
  | R_Secret identifier | R_ExternalTool identifier =>
      validate_secret_or_tool_identifier identifier
  | R_Unknown => Ok tt
  end.

(** ** Invariants *)

(** A bounded free-form string: no NUL, no control byte but tab. *)
Definition text_ok (max : Z) (s : string) : Prop :=
  len s <= max /\ any_byte bad_text_byte s = false.

Definition text_okb (max : Z) (s : string) : bool :=
  (len s <=? max) && negb (any_byte bad_text_byte s).

Lemma text_okb_spec max s : text_okb max s = true <-> text_ok max s.
Proof.
  unfold text_okb, text_ok. rewrite andb_true_iff, Z.leb_le, negb_true_iff. done.
Qed.

Definition command_ok (c : CommandResource) : Prop :=
  cmd_executable c <> "" /\ text_ok MAX_PATH_LEN (cmd_executable c) /\
  Forall (text_ok MAX_PATH_LEN) (cmd_arguments c).

Lemma check_argument_ok arg : check_argument arg = Ok tt <-> text_ok MAX_PATH_LEN arg.
Proof.
  unfold check_argument, text_ok.
  destruct (Z.ltb_spec MAX_PATH_LEN (len arg)); [split; [done|lia]|].
  destruct (any_byte _ _); naive_solver.
Qed.

Lemma check_arguments_ok args :
  for_each check_argument args = Ok tt <-> Forall (text_ok MAX_PATH_LEN) args.
Proof.
  rewrite for_each_ok. split; intros H; (eapply Forall_impl; [exact H|]);
    intros x; apply check_argument_ok.
Qed.

Lemma CommandResource_validate_ok c :
  CommandResource_validate_invariants c = Ok tt <-> command_ok c.
Proof.
  unfold CommandResource_validate_invariants, command_ok. rewrite <- check_arguments_ok.
  unfold text_ok. destruct (is_empty _) eqn:E1.
  { apply is_empty_true in E1. naive_solver. }
  apply is_empty_false in E1.
  destruct (Z.ltb_spec MAX_PATH_LEN (len (cmd_executable c))); [split; [done|lia]|].
  destruct (any_byte _ _); naive_solver.
Qed.

Lemma CommandResource_new_ok exe args c :
  CommandResource_new exe args = Ok c <->
  c = mkCommandResource exe args /\ CommandResource_validate_invariants c = Ok tt.
Proof.
  unfold CommandResource_new. split.
  - intros H. inv_all. destruct a. split; [done|].
    unfold CommandResource_validate_invariants. simpl. by rewrite E, E0, E1, E2.
  - intros [-> H]. unfold CommandResource_validate_invariants in H. simpl in H. inv_all.
    by rewrite H.
Qed.

Lemma NetworkResource_new_valid scheme host port path n :
  NetworkResource_new scheme host port path = Ok n ->
  NetworkResource_validate_invariants n = Ok tt.
Proof.
  unfold NetworkResource_new, NetworkResource_validate_invariants. intros H. inv_all.
  simpl. apply NormalizedPath_validate_iff.
  pose proof E0 as Hr. apply NormalizedPath_new_ok in Hr as (_ & _ & _ & Hr & _).
  by rewrite Hr.
Qed.

Definition metadata_ok (m : RequestMetadata) : Prop :=
  Z.of_nat (length (md_entries m)) <= MAX_METADATA_ENTRIES /\
  Forall (fun kv => check_metadata_entry kv = Ok tt) (md_entries m).

Lemma RequestMetadata_validate_ok m :
  RequestMetadata_validate_invariants m = Ok tt <-> metadata_ok m.
Proof.
  unfold RequestMetadata_validate_invariants, metadata_ok.
  destruct (Z.ltb_spec MAX_METADATA_ENTRIES (Z.of_nat (length (md_entries m))));
    [split; [done|lia]|]. rewrite for_each_ok. naive_solver.
Qed.

(** The invariant [insert] maintains. *)
Definition metadata_inv (m : RequestMetadata) : Prop :=
  bmap_sorted (md_entries m) /\
  Z.of_nat (length (md_entries m)) <= MAX_METADATA_ENTRIES /\
  forall k v, (k, v) ∈ md_entries m -> k <> "" /\ len k <= 128 /\ len v <= MAX_PATH_LEN.

Lemma metadata_inv_new : metadata_inv RequestMetadata_new.
Proof.
  split_and!; [constructor|done|]. intros k v Hk. by apply not_elem_of_nil in Hk.
Qed.

Lemma metadata_insert_inv m key value m' :
  metadata_inv m -> RequestMetadata_insert m key value = Ok m' -> metadata_inv m'.
Proof.
  intros (Hs & Hl & He) H. unfold RequestMetadata_insert in H. inv_all. bool_prop.
  apply is_empty_false in H. unfold metadata_inv. simpl. split_and!.
  - by apply bmap_insert_sorted.
  - rewrite bmap_insert_length by done.
    destruct (bmap_contains_key _ _); [done|]. simpl in E1. bool_prop. lia.
  - intros k v. rewrite bmap_insert_elem by done. intros [[-> ->]|[_ Hin]]; eauto.
Qed.
