(* ===== verification/CoreRequest.v ===== *)
(** * Tool requests (crates/kavach-core/src/request.rs)

    Operations, the request context, the request envelope and its deep
    validation, and the subject builder. *)

From stdpp Require Import base tactics list strings.
From Stdlib Require Import ZArith Lia Ascii.
From S2P Require Import Prelude RustStr BTree CoreError CoreIds CorePath CoreResource.

Open Scope Z_scope.

(** ** Operations *)

(** [Operation]; [max_bytes] is a [u64]. *)
Inductive Operation :=
| FileRead (max_bytes : option Z)
| FileWrite
| FileCreate
| FileDelete
| FileMove (destination : option NormalizedPath)
| DirectoryList
| DirectoryCreate
| DirectoryDelete
| CommandExecute
| NetworkRequest
| SecretAccess
| ToolInvoke (tool_id : string).

(** [Operation::as_str], also [discriminant] and [Display]. *)
Definition Operation_as_str (op : Operation) : string :=
  match op with
  | FileRead _ => "file_read"
  | FileWrite => "file_write"
  | FileCreate => "file_create"
  | FileDelete => "file_delete"
  | FileMove _ => "file_move"
  | DirectoryList => "directory_list"
  | DirectoryCreate => "directory_create"
  | DirectoryDelete => "directory_delete"
  | CommandExecute => "command_execute"
  | NetworkRequest => "network_request"
  | SecretAccess => "secret_access"
  | ToolInvoke _ => "tool_invoke"
  end.

(** [Operation::from_label] (and [FromStr]). *)
Definition Operation_from_label (label : string) : result DomainError Operation :=
  if String.eqb label "file_read" then Ok (FileRead None)
  else if String.eqb label "file_write" then Ok FileWrite
  else if String.eqb label "file_create" then Ok FileCreate
  else if String.eqb label "file_delete" then Ok FileDelete
  else if String.eqb label "file_move" then Ok (FileMove None)
  else if String.eqb label "directory_list" then Ok DirectoryList
  else if String.eqb label "directory_create" then Ok DirectoryCreate
  else if String.eqb label "directory_delete" then Ok DirectoryDelete
  else if String.eqb label "command_execute" then Ok CommandExecute
  else if String.eqb label "network_request" then Ok NetworkRequest
  else if String.eqb label "secret_access" then Ok SecretAccess
  else if String.eqb label "tool_invoke" then Ok (ToolInvoke "")
  else Err (DomainError_new DEK_UnknownVariant ("unknown operation: " +:+ label)).

(** [validate_tool_id]. *)
Definition validate_tool_id (tool_id : string) (field : FieldPath)
  : result DomainValidationError unit :=
  if is_empty tool_id then
    Err (DomainValidationError_new field (DomainError_new DEK_Missing "empty tool id"))
  else if MAX_SHORT_STRING_LEN <? len tool_id then
    Err (DomainValidationError_new field
           (DomainError_new DEK_OversizedField "tool id exceeds maximum length"))
  else if any_byte bad_text_byte tool_id then
    Err (DomainValidationError_new field
           (DomainError_new DEK_InvalidCharacter "tool id contains control characters"))
  else Ok tt.

(** The closure [|e| DomainValidationError::at_field(field, e.kind(), e.context())]
    that follows every [push]. *)
Definition at_field_of (field : string) (e : DomainError) : DomainValidationError :=
  DomainValidationError_at_field field (de_kind e) (de_context e).

(** [Operation::validate_invariants]. *)
Definition Operation_validate_invariants (op : Operation) (parent : FieldPath)
  : result DomainValidationError unit :=
  match op with
  | ToolInvoke tool_id =>
      let? field := map_err (at_field_of "operation.tool_id")
                            (FieldPath_push parent "tool_id") in
      validate_tool_id tool_id field
  | FileMove (Some dest) =>
      let? field := map_err (at_field_of "operation.destination")
                            (FieldPath_push parent "destination") in
      map_err (fun e => DomainValidationError_new field (DomainError_from_PathError e))
              (NormalizedPath_validate_invariants dest)
  | _ => Ok tt
  end.

(** ** Request context *)

(** [RequestContext]; [SystemTime] is a number of nanoseconds. *)
Record RequestContext := {
  ctx_timestamp : Z;
  ctx_working_directory : option NormalizedPath;
  ctx_declared_intent : option string;
  ctx_parent_request_id : option RequestId;
  ctx_metadata : RequestMetadata;
  ctx_dry_run : bool;
}.

(** [RequestContext::new]; [now] is the value of [SystemTime::now()]. *)
Definition RequestContext_new (now : Z) (working_directory declared_intent : option string)
    (parent_request_id : option RequestId) (metadata : option RequestMetadata) (dry_run : bool)
  : result PathError RequestContext :=
  let? wd :=
    match working_directory with
    | None | Some "" => Ok None
    | Some w => let? p := NormalizedPath_new w in Ok (Some p)
    end in
  let? intent :=
    match declared_intent with
    | None | Some "" => Ok None
    | Some d =>
        if MAX_SHORT_STRING_LEN <? len d then
          Err (PathError_from_kind PEK_Oversized "declared intent exceeds maximum length")
        else if any_byte (fun b => byte_val b =? 0) d then
          Err (PathError_from_kind PEK_InvalidCharacter "declared intent contains null bytes")
        else Ok (Some d)
    end in
  Ok {| ctx_timestamp := now;
        ctx_working_directory := wd;
        ctx_declared_intent := intent;
        ctx_parent_request_id := parent_request_id;
        ctx_metadata := match metadata with Some m => m | None => RequestMetadata_new end;
        ctx_dry_run := dry_run |}.

(** [path_error_to_validation_error]. *)
Definition path_error_to_validation_error (field : string) (e : PathError)
  : DomainValidationError :=
  let kind := match pe_kind e with
              | PEK_InvalidCharacter => DEK_InvalidCharacter
              | _ => DEK_InvalidValue
              end in
  DomainValidationError_at_field field kind (pe_context e).

(** [RequestContext::validate]. *)
Definition RequestContext_validate (c : RequestContext) : result DomainValidationError unit :=
  let? _ :=
    match ctx_working_directory c with
    | Some wd => map_err (path_error_to_validation_error "context.working_directory")
                         (NormalizedPath_validate_invariants wd)
    | None => Ok tt
    end in
  let? _ :=
    match ctx_declared_intent c with
    | Some intent =>
        if MAX_SHORT_STRING_LEN <? len intent then
          Err (DomainValidationError_at_field "context.declared_intent" DEK_OversizedField
                 "declared intent exceeds maximum length")
        else if any_byte (fun b => byte_val b =? 0) intent then
          Err (DomainValidationError_at_field "context.declared_intent" DEK_InvalidCharacter
                 "declared intent contains null bytes")
        else Ok tt
    | None => Ok tt
    end in
  let? _ :=
    match ctx_parent_request_id c with
    | Some parent => map_err (at_field_of "context.parent_request_id")
                             (validate_id (id_str parent))
    | None => Ok tt
    end in
  map_err (path_error_to_validation_error "context.metadata")
          (RequestMetadata_validate_invariants (ctx_metadata c)).

(** ** The request envelope *)

(** [ToolRequest]. *)
Record ToolRequest := ToolRequest_new {
  tr_request_id : RequestId;
  tr_subject : AgentSubject;
  tr_operation : Operation;
  tr_resource : Resource;
  tr_context : RequestContext;
}.

(** [merge_context_error]. *)
Definition merge_context_error (context_field : FieldPath) (e : DomainValidationError)
  : DomainValidationError :=
  let child := fp_str (dve_field e) in
  let rest := match strip_prefix "context." child with Some r => r | None => child end in
  match FieldPath_push context_field rest with
  | Ok path => DomainValidationError_new path (dve_source e)
  | Err _ => DomainValidationError_new context_field (dve_source e)
  end.

(** The [match] of [check_operation_resource_compatibility]. *)
Definition operation_resource_compatible (op : Operation) (r : Resource) : bool :=
  match op, r with
  | (FileRead _ | FileWrite | FileCreate | FileDelete | FileMove _), R_File _ => true
  | (DirectoryList | DirectoryCreate | DirectoryDelete), R_Directory _ => true
  | CommandExecute, R_Command _ => true
  | NetworkRequest, R_NetworkEndpoint _ => true
  | SecretAccess, R_Secret _ => true
  | ToolInvoke _, R_ExternalTool _ => true
  | _, _ => false
  end.

(** The context of the compatibility error. *)
Definition incompatibility_message (op_label kind_label : string) : string :=
  "operation `" +:+ op_label +:+ "` is not compatible with resource kind `"
  +:+ kind_label +:+ "`".

(** [check_operation_resource_compatibility]. *)
Definition check_operation_resource_compatibility (op : Operation) (r : Resource)
    (root : FieldPath) : result DomainValidationError unit :=
  if negb (operation_resource_compatible op r) then
    let? op_field := map_err (at_field_of "operation") (FieldPath_push root "operation") in
    Err (DomainValidationError_new op_field
           (DomainError_new DEK_InvalidValue
              (incompatibility_message (Operation_as_str op)
                 (ResourceKind_display (Resource_kind r)))))
  else Ok tt.

(** [ToolRequest::validate]. *)
Definition ToolRequest_validate (r : ToolRequest) : result DomainValidationError unit :=
  let? root := map_err (at_field_of "request") (FieldPath_new "request") in
  let? _ := map_err (at_field_of "request_id") (validate_id (id_str (tr_request_id r))) in
  let? subject_field := map_err (at_field_of "subject") (FieldPath_push root "subject") in
  let? _ := map_err (DomainValidationError_new subject_field)
                    (AgentSubject_validate_invariants (tr_subject r)) in
  let? operation_field := map_err (at_field_of "operation")
                                  (FieldPath_push root "operation") in
  let? _ := Operation_validate_invariants (tr_operation r) operation_field in
  let? resource_field := map_err (at_field_of "resource")
                                 (FieldPath_push root "resource") in
  let? _ := map_err (fun e => DomainValidationError_new resource_field
                                (DomainError_from_PathError e))
                    (Resource_validate_invariants (tr_resource r)) in
  let? _ :=
    match tr_resource r with
    | R_Unknown =>
        Err (DomainValidationError_new resource_field
               (DomainError_new DEK_UnknownVariant
                  "resource kind is unknown; request fails closed"))
    | _ => Ok tt
    end in
  let? _ := check_operation_resource_compatibility (tr_operation r) (tr_resource r) root in
  let? context_field := map_err (at_field_of "context") (FieldPath_push root "context") in
  match RequestContext_validate (tr_context r) with
  | Err e => Err (merge_context_error context_field e)
  | Ok _ => Ok tt
  end.

(** ** Building subjects *)

(** [AgentSubjectBuilder] has the fields of the subject it builds. *)
Record AgentSubjectBuilder := {
  asb_agent_id : AgentId;
  asb_session_id : SessionId;
  asb_display_name : option string;
  asb_trust_level : TrustLevel;
  asb_declared_capabilities : CapabilitySet;
}.

(** [AgentSubjectBuilder::new]. *)
Definition AgentSubjectBuilder_new (agent_id : AgentId) (session_id : SessionId)
  : AgentSubjectBuilder :=
  {| asb_agent_id := agent_id; asb_session_id := session_id; asb_display_name := None;
     asb_trust_level := Untrusted; asb_declared_capabilities := [] |}.

(** [AgentSubjectBuilder::display_name]. *)
Definition AgentSubjectBuilder_display_name (b : AgentSubjectBuilder) (name : option string)
  : result DomainError AgentSubjectBuilder :=
  let? name' :=
    match name with
    | None => Ok None
    | Some s =>
        if any_byte bad_text_byte s then
          Err (DomainError_new DEK_InvalidCharacter "display name contains control characters")
        else if MAX_SHORT_STRING_LEN <? len s then
          Err (DomainError_new DEK_OversizedField "display name exceeds maximum length")
        else Ok (Some s)
    end in
  Ok {| asb_agent_id := asb_agent_id b; asb_session_id := asb_session_id b;
        asb_display_name := name'; asb_trust_level := asb_trust_level b;
        asb_declared_capabilities := asb_declared_capabilities b |}.

(** [AgentSubjectBuilder::trust_level]. *)
Definition AgentSubjectBuilder_trust_level (b : AgentSubjectBuilder) (level : TrustLevel)
  : AgentSubjectBuilder :=
  {| asb_agent_id := asb_agent_id b; asb_session_id := asb_session_id b;
     asb_display_name := asb_display_name b; asb_trust_level := level;
     asb_declared_capabilities := asb_declared_capabilities b |}.

(** [AgentSubjectBuilder::capability]. *)
Definition AgentSubjectBuilder_capability (b : AgentSubjectBuilder) (c : Capability)
  : AgentSubjectBuilder :=
  {| asb_agent_id := asb_agent_id b; asb_session_id := asb_session_id b;
     asb_display_name := asb_display_name b; asb_trust_level := asb_trust_level b;
     asb_declared_capabilities := bset_add c (asb_declared_capabilities b) |}.

(** [AgentSubjectBuilder::build]. *)
Definition AgentSubjectBuilder_build (b : AgentSubjectBuilder) : AgentSubject :=
  {| as_agent_id := asb_agent_id b; as_session_id := asb_session_id b;
     as_display_name := asb_display_name b; as_trust_level := asb_trust_level b;
     as_declared_capabilities := asb_declared_capabilities b |}.

(** ** Characterization of validation *)

Definition operation_ok (op : Operation) : Prop :=
  match op with
  | ToolInvoke tool_id => tool_id <> "" /\ text_ok MAX_SHORT_STRING_LEN tool_id
  | FileMove (Some dest) => NormalizedPath_new (np_raw dest) = Ok dest
  | _ => True
  end.

Definition resource_ok (r : Resource) : Prop :=
  match r with
  | R_File p | R_Directory p => NormalizedPath_new (np_raw p) = Ok p
  | R_Command c => command_ok c
  | R_NetworkEndpoint n => NormalizedPath_new (np_raw (net_path n)) = Ok (net_path n)
  | R_Secret i | R_ExternalTool i => i <> "" /\ text_ok MAX_IDENTIFIER_LEN i
  | R_Unknown => False
  end.

Definition context_ok (c : RequestContext) : Prop :=
  (forall wd, ctx_working_directory c = Some wd -> NormalizedPath_new (np_raw wd) = Ok wd) /\
  (forall d, ctx_declared_intent c = Some d ->
     len d <= MAX_SHORT_STRING_LEN /\ any_byte (fun b => byte_val b =? 0) d = false) /\
  (forall p, ctx_parent_request_id c = Some p -> id_ok (id_str p)) /\
  metadata_ok (ctx_metadata c).

(** The kind of resource an operation acts on. *)
Definition acts_on (op : Operation) : ResourceKind :=
  match op with
  | FileRead _ | FileWrite | FileCreate | FileDelete | FileMove _ => RK_File
  | DirectoryList | DirectoryCreate | DirectoryDelete => RK_Directory
  | CommandExecute => RK_Command
  | NetworkRequest => RK_NetworkEndpoint
  | SecretAccess => RK_Secret
  | ToolInvoke _ => RK_ExternalTool
  end.

(** A request that satisfies every documented invariant. *)
Record request_ok (r : ToolRequest) : Prop := {
  rok_id : id_ok (id_str (tr_request_id r));
  rok_subject : subject_ok (tr_subject r);
  rok_operation : operation_ok (tr_operation r);
  rok_resource : resource_ok (tr_resource r);
  rok_compatible : Resource_kind (tr_resource r) = acts_on (tr_operation r);
  rok_context : context_ok (tr_context r);
}.

(** The request-level field paths are fixed literals. *)
Lemma root_path : FieldPath_new "request" = Ok FieldPath_root.
Proof. by vm_compute. Qed.

Definition sub_path (child : string) : FieldPath := FieldPath_raw ("request." +:+ child).

Lemma push_subject : FieldPath_push FieldPath_root "subject" = Ok (sub_path "subject").
Proof. by vm_compute. Qed.
Lemma push_operation : FieldPath_push FieldPath_root "operation" = Ok (sub_path "operation").
Proof. by vm_compute. Qed.
Lemma push_resource : FieldPath_push FieldPath_root "resource" = Ok (sub_path "resource").
Proof. by vm_compute. Qed.
Lemma push_context : FieldPath_push FieldPath_root "context" = Ok (sub_path "context").
Proof. by vm_compute. Qed.
Lemma push_tool_id :
  FieldPath_push (sub_path "operation") "tool_id" = Ok (sub_path "operation.tool_id").
Proof. by vm_compute. Qed.
Lemma push_destination :
  FieldPath_push (sub_path "operation") "destination" = Ok (sub_path "operation.destination").
Proof. by vm_compute. Qed.

Lemma validate_tool_id_ok tool_id field :
  validate_tool_id tool_id field = Ok tt <->
  tool_id <> "" /\ text_ok MAX_SHORT_STRING_LEN tool_id.
Proof.
  unfold validate_tool_id, text_ok.
  destruct (is_empty tool_id) eqn:E1; [apply is_empty_true in E1; naive_solver|].
  apply is_empty_false in E1.
  destruct (Z.ltb_spec MAX_SHORT_STRING_LEN (len tool_id)); [split; [done|lia]|].
  destruct (any_byte _ _); naive_solver.
Qed.

Lemma Operation_validate_ok op :
  Operation_validate_invariants op (sub_path "operation") = Ok tt <-> operation_ok op.
Proof.
  destruct op as [| | | |[dest|]| | | | | | |];
    cbn [Operation_validate_invariants operation_ok]; try done.
  - rewrite push_destination. simpl. by rewrite map_err_ok, NormalizedPath_validate_iff.
  - rewrite push_tool_id. simpl. apply validate_tool_id_ok.
Qed.

Lemma validate_identifier_ok i :
  validate_secret_or_tool_identifier i = Ok tt <-> i <> "" /\ text_ok MAX_IDENTIFIER_LEN i.
Proof.
  unfold validate_secret_or_tool_identifier, text_ok.
  destruct (is_empty i) eqn:E1; [apply is_empty_true in E1; naive_solver|].
  apply is_empty_false in E1.
  destruct (Z.ltb_spec MAX_IDENTIFIER_LEN (len i)); [split; [done|lia]|].
  destruct (any_byte _ _); naive_solver.
Qed.

Lemma Resource_validate_ok r :
  Resource_validate_invariants r = Ok tt <-> r = R_Unknown \/ resource_ok r.
Proof.
  destruct r as [p|p|c|n|i|i|]; simpl; unfold NetworkResource_validate_invariants;
    rewrite ?NormalizedPath_validate_iff, ?CommandResource_validate_ok,
            ?validate_identifier_ok; naive_solver.
Qed.

Lemma RequestContext_validate_ok c : RequestContext_validate c = Ok tt <-> context_ok c.
Proof.
  unfold RequestContext_validate, context_ok.
  rewrite !result_unit_bind, !option_check_ok, map_err_ok, RequestMetadata_validate_ok.
  setoid_rewrite map_err_ok. setoid_rewrite NormalizedPath_validate_iff.
  setoid_rewrite validate_id_ok.
  assert (Hi : forall d : string,
    (if MAX_SHORT_STRING_LEN <? len d then
       Err (DomainValidationError_at_field "context.declared_intent" DEK_OversizedField
              "declared intent exceeds maximum length")
     else if any_byte (fun b => byte_val b =? 0) d then
       Err (DomainValidationError_at_field "context.declared_intent" DEK_InvalidCharacter
              "declared intent contains null bytes")
     else Ok tt) = Ok tt <->
    len d <= MAX_SHORT_STRING_LEN /\ any_byte (fun b => byte_val b =? 0) d = false).
  { intros d. destruct (Z.ltb_spec MAX_SHORT_STRING_LEN (len d)); [split; [done|lia]|].
    destruct (any_byte _ d); naive_solver. }
  setoid_rewrite Hi. done.
Qed.

(** [validate] with its literal field paths evaluated. *)
Lemma ToolRequest_validate_unfold r :
  ToolRequest_validate r =
  (let? _ := map_err (at_field_of "request_id") (validate_id (id_str (tr_request_id r))) in
   let? _ := map_err (DomainValidationError_new (sub_path "subject"))
                     (AgentSubject_validate_invariants (tr_subject r)) in
   let? _ := Operation_validate_invariants (tr_operation r) (sub_path "operation") in
   let? _ := map_err (fun e => DomainValidationError_new (sub_path "resource")
                                 (DomainError_from_PathError e))
                     (Resource_validate_invariants (tr_resource r)) in
   let? _ := match tr_resource r with
             | R_Unknown =>
                 Err (DomainValidationError_new (sub_path "resource")
                        (DomainError_new DEK_UnknownVariant
                           "resource kind is unknown; request fails closed"))
             | _ => Ok tt
             end in
   let? _ := check_operation_resource_compatibility (tr_operation r) (tr_resource r)
               FieldPath_root in
   map_err (merge_context_error (sub_path "context")) (RequestContext_validate (tr_context r))).
Proof.
  unfold ToolRequest_validate. rewrite root_path. cbn [map_err].
  rewrite push_subject, push_operation, push_resource, push_context. cbn [map_err].
  by destruct (RequestContext_validate (tr_context r)) as [[]|].
Qed.

Lemma compat_ok op r :
  check_operation_resource_compatibility op r FieldPath_root = Ok tt <->
  Resource_kind r = acts_on op.
Proof.
  assert (Hc : operation_resource_compatible op r = true <-> Resource_kind r = acts_on op)
    by (by destruct op, r).
  rewrite <- Hc. unfold check_operation_resource_compatibility.
  destruct (operation_resource_compatible op r); cbn [negb]; [done|].
  by rewrite push_operation.
Qed.

Lemma ToolRequest_validate_iff r : ToolRequest_validate r = Ok tt <-> request_ok r.
Proof.
  rewrite ToolRequest_validate_unfold, !result_unit_bind, !map_err_ok, validate_id_ok,
    AgentSubject_validate_ok, Operation_validate_ok, Resource_validate_ok, compat_ok,
    RequestContext_validate_ok.
  split.
  - intros (? & ? & ? & Hr & Hu & ? & ?). constructor; try done.
    destruct (tr_resource r); naive_solver.
  - intros []. split_and!; auto. by destruct (tr_resource r).
Qed.

(** ** Error reports *)

(** The field paths [validate] may report. *)
Definition validation_fields : list string :=
  ["request_id"; "request.subject"; "request.operation"; "request.operation.tool_id";
   "request.operation.destination"; "request.resource"; "request.context.working_directory";
   "request.context.declared_intent"; "request.context.parent_request_id";
   "request.context.metadata"].

(** The messages of the validators [validate] calls; none is computed from the
    contents of the request. *)
Definition validation_messages : list string :=
  ["empty id"; "id exceeds maximum length"; "id contains control characters";
   "display name exceeds maximum length"; "display name contains control characters";
   "empty tool id"; "tool id exceeds maximum length"; "tool id contains control characters";
   "empty path"; "path exceeds maximum length"; "path contains null or control bytes";
   "path absolute marker disagrees with raw form"; "path escapes its own root via '..'";
   "normalized field does not match raw path";
   "empty executable"; "executable exceeds maximum length";
   "executable contains null or control bytes"; "argument exceeds maximum length";
   "argument contains null or control bytes"; "empty identifier";
   "identifier exceeds maximum length"; "identifier contains null or control bytes";
   "resource kind is unknown; request fails closed";
   "declared intent exceeds maximum length"; "declared intent contains null bytes";
   "metadata exceeds maximum entries"; "metadata key invalid length";
   "metadata key contains null or control bytes"; "metadata value exceeds maximum length";
   "metadata value contains null or control bytes"].

Ltac solve_message := apply (bool_decide_unpack _); vm_compute; exact I.

Lemma validate_id_message s e : validate_id s = Err e -> de_context e ∈ validation_messages.
Proof. unfold validate_id. intros H. inv_all; solve_message. Qed.

Lemma subject_message a e :
  AgentSubject_validate_invariants a = Err e -> de_context e ∈ validation_messages.
Proof.
  unfold AgentSubject_validate_invariants. intros H.
  inv_all; try solve_message; by eapply validate_id_message.
Qed.

Lemma path_message p e :
  NormalizedPath_validate_invariants p = Err e -> pe_context e ∈ validation_messages.
Proof.
  unfold NormalizedPath_validate_invariants, ok_or. intros H. inv_all; solve_message.
Qed.

Lemma command_message c e :
  CommandResource_validate_invariants c = Err e -> pe_context e ∈ validation_messages.
Proof.
  unfold CommandResource_validate_invariants. intros H. inv_all; try solve_message.
  apply for_each_err in H as (x & _ & H). unfold check_argument in H. inv_all; solve_message.
Qed.

Lemma identifier_message i e :
  validate_secret_or_tool_identifier i = Err e -> pe_context e ∈ validation_messages.
Proof. unfold validate_secret_or_tool_identifier. intros H. inv_all; solve_message. Qed.

Lemma resource_message r e :
  Resource_validate_invariants r = Err e -> pe_context e ∈ validation_messages.
Proof.
  destruct r; simpl; solve [by apply path_message | by apply command_message
                           | by apply identifier_message | done].
Qed.

Lemma metadata_message m e :
  RequestMetadata_validate_invariants m = Err e -> pe_context e ∈ validation_messages.
Proof.
  unfold RequestMetadata_validate_invariants. intros H. inv_all; [solve_message|].
  apply for_each_err in H as ([k v] & _ & H). unfold check_metadata_entry in H.
  inv_all; solve_message.
Qed.

(** A reported error: a fixed field and a fixed message. *)
Definition report_ok (r : ToolRequest) (e : DomainValidationError) : Prop :=
  fp_str (dve_field e) ∈ validation_fields /\
  (de_context (dve_source e) ∈ validation_messages \/
   de_context (dve_source e) =
     incompatibility_message (Operation_as_str (tr_operation r))
       (ResourceKind_display (Resource_kind (tr_resource r)))).

Lemma operation_report r e :
  Operation_validate_invariants (tr_operation r) (sub_path "operation") = Err e ->
  report_ok r e.
Proof.
  intros H. destruct (tr_operation r) as [| | | |[dest|]| | | | | | |tool_id];
    cbn [Operation_validate_invariants] in H; try done.
  - rewrite push_destination in H. cbn [map_err] in H.
    apply map_err_err in H as (e' & H & ->).
    split; [solve_message|]. left. by eapply path_message.
  - rewrite push_tool_id in H. cbn [map_err] in H. unfold validate_tool_id in H.
    inv_all; (split; [solve_message|left; solve_message]).
Qed.

Lemma merge_context_at field kind msg :
  FieldPath_new ("context." +:+ field) = Ok (FieldPath_raw ("context." +:+ field)) ->
  FieldPath_push (sub_path "context") field = Ok (sub_path ("context." +:+ field)) ->
  merge_context_error (sub_path "context")
    (DomainValidationError_at_field ("context." +:+ field) kind msg) =
  DomainValidationError_new (sub_path ("context." +:+ field)) (DomainError_new kind msg).
Proof.
  intros H1 H2. unfold merge_context_error, DomainValidationError_at_field.
  rewrite H1. cbn [dve_field dve_source fp_str].
  assert (Hs : strip_prefix "context." ("context." +:+ field) = Some field)
    by (by apply strip_prefix_Some).
  rewrite Hs. by rewrite H2.
Qed.

Definition context_fields : list string :=
  ["working_directory"; "declared_intent"; "parent_request_id"; "metadata"].

(** The errors of [RequestContext::validate]. *)
Definition context_error (e : DomainValidationError) : Prop :=
  exists field kind msg,
    e = DomainValidationError_at_field ("context." +:+ field) kind msg /\
    field ∈ context_fields /\ msg ∈ validation_messages.

Lemma context_error_intro field kind msg :
  field ∈ context_fields -> msg ∈ validation_messages ->
  context_error (DomainValidationError_at_field ("context." +:+ field) kind msg).
Proof. intros. by exists field, kind, msg. Qed.

Lemma RequestContext_validate_error c e : RequestContext_validate c = Err e -> context_error e.
Proof.
  unfold RequestContext_validate.
  rewrite !result_unit_bind_err, !option_check_err, map_err_err.
  intros [(wd & _ & H)|(_ & [(d & _ & H)|(_ & [(q & _ & H)|(_ & e' & H & ->)])])].
  - apply map_err_err in H as (e' & H & ->).
    apply (context_error_intro "working_directory"); [solve_message|by eapply path_message].
  - inv_all; (apply (context_error_intro "declared_intent"); solve_message).
  - apply map_err_err in H as (e' & H & ->).
    apply (context_error_intro "parent_request_id"); [solve_message|].
    by eapply validate_id_message.
  - apply (context_error_intro "metadata"); [solve_message|by eapply metadata_message].
Qed.

Lemma context_report r e :
  context_error e -> report_ok r (merge_context_error (sub_path "context") e).
Proof.
  intros (field & kind & msg & -> & Hf & Hm). unfold context_fields in Hf.
  rewrite !elem_of_cons in Hf. destruct Hf as [->|[->|[->|[->|Hf]]]];
    [..|by apply not_elem_of_nil in Hf];
    (rewrite merge_context_at by (by vm_compute); split; [solve_message|by left]).
Qed.

Lemma compat_report r e :
  check_operation_resource_compatibility (tr_operation r) (tr_resource r) FieldPath_root = Err e ->
  report_ok r e.
Proof.
  unfold check_operation_resource_compatibility.
  destruct (operation_resource_compatible _ _); cbn [negb]; [done|].
  rewrite push_operation. cbn [map_err]. intros [= <-]. split; [solve_message|by right].
Qed.

Lemma ToolRequest_validate_report r e : ToolRequest_validate r = Err e -> report_ok r e.
Proof.
  rewrite ToolRequest_validate_unfold, !result_unit_bind_err, !map_err_err.
  intros [(e' & H & ->)|(_ & [(e' & H & ->)|(_ & [H|(_ & [(e' & H & ->)|(_ & [H|(_ &
    [H|(_ & e' & H & ->)])])])])])].
  - split; [solve_message|left; exact (validate_id_message _ _ H)].
  - split; [solve_message|left; by eapply subject_message].
  - by apply operation_report.
  - split; [solve_message|left; by eapply resource_message].
  - destruct (tr_resource r) eqn:Er; try done. injection H as <-.
    split; [solve_message|left; solve_message].
  - by apply compat_report.
  - by eapply context_report, RequestContext_validate_error.
Qed.
