(* ===== verification/CoreShell.v ===== *)
(** * The shell-hazard scanner (crates/kavach-core/src/shell.rs) *)

From stdpp Require Import base tactics list strings.
From Stdlib Require Import ZArith Lia Ascii.
From S2P Require Import Prelude RustStr BTree.

Open Scope Z_scope.

(** [ShellHazard]. *)
Inductive ShellHazard :=
| SH_CommandSubstitution
| SH_Backtick
| SH_EnvVarBraced
| SH_EnvVar
| SH_SubshellOpen
| SH_SubshellClose
| SH_ShellAnd
| SH_ShellOr
| SH_Pipe
| SH_Semicolon
| SH_RedirectOut
| SH_RedirectIn.

#[export] Instance ShellHazard_eq_dec : EqDecision ShellHazard.
Proof. solve_decision. Defined.

(** The derived [Ord]: declaration order. *)
Definition ShellHazard_rank (h : ShellHazard) : Z :=
  match h with
  | SH_CommandSubstitution => 0
  | SH_Backtick => 1
  | SH_EnvVarBraced => 2
  | SH_EnvVar => 3
  | SH_SubshellOpen => 4
  | SH_SubshellClose => 5
  | SH_ShellAnd => 6
  | SH_ShellOr => 7
  | SH_Pipe => 8
  | SH_Semicolon => 9
  | SH_RedirectOut => 10
  | SH_RedirectIn => 11
  end.

Lemma ShellHazard_rank_inj x y : ShellHazard_rank x = ShellHazard_rank y -> x = y.
Proof. by destruct x, y. Qed.

#[export] Instance ShellHazard_ord : OrdKey ShellHazard :=
  by_rank_ord ShellHazard_rank ShellHazard_rank_inj.

(** [ShellHazard::as_str] (and [Display]). *)
Definition ShellHazard_as_str (h : ShellHazard) : string :=
  match h with
  | SH_CommandSubstitution => "command_substitution"
  | SH_Backtick => "backtick"
  | SH_EnvVarBraced => "env_var_braced"
  | SH_EnvVar => "env_var"
  | SH_SubshellOpen => "subshell_open"
  | SH_SubshellClose => "subshell_close"
  | SH_ShellAnd => "shell_and"
  | SH_ShellOr => "shell_or"
  | SH_Pipe => "pipe"
  | SH_Semicolon => "semicolon"
  | SH_RedirectOut => "redirect_out"
  | SH_RedirectIn => "redirect_in"
  end.

(** [scan_dangerous_shell_constructs]: the [while] loop from byte [i], on the
    remaining bytes; [i += 2] drops the following byte too. *)
Fixpoint scan_dangerous_shell_constructs (s : string) : list ShellHazard :=
  match s with
  | EmptyString => []
  | String b rest =>
      if Ascii.eqb b "$" then
        match rest with
        | String next rest' =>
            if Ascii.eqb next "(" then
              SH_CommandSubstitution :: scan_dangerous_shell_constructs rest'
            else if Ascii.eqb next "{" then
              SH_EnvVarBraced :: scan_dangerous_shell_constructs rest'
            else if is_ascii_alphanumeric next || Ascii.eqb next "_" then
              SH_EnvVar :: scan_dangerous_shell_constructs rest'
            else scan_dangerous_shell_constructs rest
        | EmptyString => scan_dangerous_shell_constructs rest
        end
      else if Ascii.eqb b "`" then SH_Backtick :: scan_dangerous_shell_constructs rest
      else if Ascii.eqb b "(" then SH_SubshellOpen :: scan_dangerous_shell_constructs rest
      else if Ascii.eqb b ")" then SH_SubshellClose :: scan_dangerous_shell_constructs rest
      else if Ascii.eqb b "&" then
        match rest with
        | String next rest' =>
            if Ascii.eqb next "&" then SH_ShellAnd :: scan_dangerous_shell_constructs rest'
            else SH_ShellAnd :: scan_dangerous_shell_constructs rest
        | EmptyString => SH_ShellAnd :: scan_dangerous_shell_constructs rest
        end
      else if Ascii.eqb b "|" then
        match rest with
        | String next rest' =>
            if Ascii.eqb next "|" then SH_ShellOr :: scan_dangerous_shell_constructs rest'
            else SH_Pipe :: scan_dangerous_shell_constructs rest
        | EmptyString => SH_Pipe :: scan_dangerous_shell_constructs rest
        end
      else if Ascii.eqb b ";" then SH_Semicolon :: scan_dangerous_shell_constructs rest
      else if Ascii.eqb b ">" then SH_RedirectOut :: scan_dangerous_shell_constructs rest
      else if Ascii.eqb b "<" then SH_RedirectIn :: scan_dangerous_shell_constructs rest
      else scan_dangerous_shell_constructs rest
  end.

(** [has_dangerous_shell_construct]. *)
Definition has_dangerous_shell_construct (s : string) : bool :=
  negb (match scan_dangerous_shell_constructs s with [] => true | _ => false end).

(** The [matches!] of [has_substitution_hazard]. *)
Definition is_substitution (h : ShellHazard) : bool :=
  match h with
  | SH_CommandSubstitution | SH_Backtick | SH_EnvVarBraced | SH_EnvVar => true
  | _ => false
  end.

(** [has_substitution_hazard]. *)
Definition has_substitution_hazard (s : string) : bool :=
  existsb is_substitution (scan_dangerous_shell_constructs s).

(** ** What the scanner looks for

    The specification does not scan: it says which byte sequences make a
    position of the string dangerous. *)

(** A substitution starts at the head of [s]. *)
Definition substitution_at (s : string) : bool :=
  match s with
  | String b rest =>
      Ascii.eqb b "`"
      || (Ascii.eqb b "$"
          && match rest with
             | String n _ => Ascii.eqb n "(" || Ascii.eqb n "{"
                             || is_ascii_alphanumeric n || Ascii.eqb n "_"
             | EmptyString => false
             end)
  | EmptyString => false
  end.

(** A shell metacharacter. *)
Definition is_metachar (b : ascii) : bool :=
  Ascii.eqb b "(" || Ascii.eqb b ")" || Ascii.eqb b "&" || Ascii.eqb b "|"
  || Ascii.eqb b ";" || Ascii.eqb b ">" || Ascii.eqb b "<".

Definition hazard_at (s : string) : bool :=
  substitution_at s || match s with String b _ => is_metachar b | EmptyString => false end.

(** [P] holds at some position. *)
Fixpoint somewhere (P : string -> bool) (s : string) : bool :=
  P s || match s with String _ rest => somewhere P rest | EmptyString => false end.

Lemma somewhere_spec P s : somewhere P s = true <-> exists a b, s = a +:+ b /\ P b = true.
Proof.
  induction s as [|c s IH]; simpl; rewrite orb_true_iff.
  - split.
    + intros [H|H]; [by exists "", ""|done].
    + intros ([|] & b & Hs & H); [rewrite append_nil_l in Hs; subst b; by left|done].
  - rewrite IH. split.
    + intros [H|(a & b & -> & H)]; [by exists "", (String c s)|by exists (String c a), b].
    + intros ([|c' a] & b & Hs & H).
      * left. by rewrite append_nil_l in Hs; subst.
      * rewrite append_cons in Hs. injection Hs as -> ->. right. by exists a, b.
Qed.

(** Decide every byte comparison the scanner makes, substituting the byte. *)
Ltac byte_cases :=
  repeat match goal with
  | |- context [Ascii.eqb ?x ?y] =>
      is_var x; destruct (Ascii.eqb_spec x y); [subst x|]
  end.

Lemma somewhere_cons P c s : somewhere P (String c s) = P (String c s) || somewhere P s.
Proof. done. Qed.

Lemma not_substitution_cons c s :
  Ascii.eqb c "`" = false -> Ascii.eqb c "$" = false -> substitution_at (String c s) = false.
Proof. intros H1 H2. simpl. by rewrite H1, H2. Qed.

Lemma alnum_not_special c :
  is_ascii_alphanumeric c || Ascii.eqb c "_" = true ->
  Ascii.eqb c "`" = false /\ Ascii.eqb c "$" = false.
Proof.
  intros H. split; (destruct (Ascii.eqb_spec c "`") + destruct (Ascii.eqb_spec c "$"));
    subst; try done; by vm_compute in H.
Qed.

(** Induction two bytes at a time. *)
Lemma string_ind2 (P : string -> Prop) :
  P "" -> (forall c, P (String c "")) ->
  (forall c d s, P s -> P (String d s) -> P (String c (String d s))) -> forall s, P s.
Proof.
  intros H0 H1 H2. assert (H : forall s, P s /\ forall c, P (String c s)).
  { induction s as [|d s [IH1 IH2]]; split; auto. }
  intros s. apply H.
Qed.

Lemma has_dangerous_somewhere s :
  has_dangerous_shell_construct s = somewhere hazard_at s.
Proof.
  unfold has_dangerous_shell_construct. induction s as [|c|c d s IH1 IH2] using string_ind2.
  - done.
  - simpl. unfold hazard_at, is_metachar. simpl. by byte_cases.
  - rewrite somewhere_cons. rewrite <- IH2. clear IH2.
    unfold hazard_at at 1, is_metachar, substitution_at.
    cbn [scan_dangerous_shell_constructs].
    destruct (Ascii.eqb_spec c "$"); [subst c|].
    { destruct (is_ascii_alphanumeric d) eqn:Hd; byte_cases; simpl; try done; by rewrite ?orb_true_r. }
    byte_cases; simpl; try done; by rewrite ?orb_true_r.
Qed.

(** Skipping a byte that starts no substitution loses none. *)
Lemma somewhere_substitution_skip c s :
  Ascii.eqb c "`" = false -> Ascii.eqb c "$" = false ->
  somewhere substitution_at (String c s) = somewhere substitution_at s.
Proof. intros H1 H2. by rewrite somewhere_cons, not_substitution_cons. Qed.

(** The scan from a byte that starts no substitution. *)
Lemma scan_other c d s :
  Ascii.eqb c "$" = false -> Ascii.eqb c "`" = false ->
  existsb is_substitution (scan_dangerous_shell_constructs (String c (String d s))) =
  existsb is_substitution
    (if (Ascii.eqb c "&" && Ascii.eqb d "&") || (Ascii.eqb c "|" && Ascii.eqb d "|")
     then scan_dangerous_shell_constructs s
     else scan_dangerous_shell_constructs (String d s)).
Proof.
  intros H1 H2. cbn [scan_dangerous_shell_constructs]. rewrite H1, H2. clear H1 H2.
  destruct (Ascii.eqb_spec c "(") as [->|_]; [done|].
  destruct (Ascii.eqb_spec c ")") as [->|_]; [done|].
  destruct (Ascii.eqb_spec c "&") as [->|_]; [by destruct (Ascii.eqb d "&")|].
  destruct (Ascii.eqb_spec c "|") as [->|_]; [by destruct (Ascii.eqb d "|")|].
  by repeat case_match.
Qed.

Lemma has_substitution_somewhere s :
  has_substitution_hazard s = somewhere substitution_at s.
Proof.
  unfold has_substitution_hazard. induction s as [|c|c d s IH1 IH2] using string_ind2.
  - done.
  - simpl. by byte_cases.
  - destruct (Ascii.eqb_spec c "$") as [->|Hdollar].
    + rewrite somewhere_cons, <- IH2. unfold substitution_at.
      cbn [scan_dangerous_shell_constructs].
      destruct (is_ascii_alphanumeric d); byte_cases; simpl; by rewrite ?orb_true_r.
    + destruct (Ascii.eqb_spec c "`") as [->|Htick]; [done|].
      apply Ascii.eqb_neq in Hdollar, Htick.
      rewrite (somewhere_substitution_skip c), scan_other by done.
      destruct (_ || _) eqn:Hd; [|exact IH2].
      rewrite IH1, (somewhere_substitution_skip d); [done|..];
        (rewrite orb_true_iff, !andb_true_iff, !Ascii.eqb_eq in Hd;
         destruct Hd as [[_ ->]|[_ ->]]; done).
Qed.
