(* ===== verification/CoreDecision.v ===== *)
(** * Authorization decisions (crates/kavach-core/src/decision.rs) *)

From stdpp Require Import base tactics list strings.
From Stdlib Require Import ZArith Lia.
From S2P Require Import Prelude RustStr BTree CoreError CoreIds.

Open Scope Z_scope.

(** [DecisionEffect]. *)
Inductive DecisionEffect := Allow | Deny | RequireApproval.

#[export] Instance DecisionEffect_eq_dec : EqDecision DecisionEffect.
Proof. solve_decision. Defined.

(** [DecisionEffect::as_str] (and [Display]). *)
Definition DecisionEffect_as_str (e : DecisionEffect) : string :=
  match e with
  | Allow => "allow"
  | Deny => "deny"
  | RequireApproval => "require_approval"
  end.

(** [ReasonCode]. *)
Inductive ReasonCode :=
| KavachAllowPolicyMatch
| KavachDenyExplicitRule
| KavachDenyDefault
| KavachDenyInvalidRequest
| KavachApprovalRequired
| KavachApprovalDestructiveOperation
| KavachDenyUnknownResource
| KavachDenyPathEscape.

#[export] Instance ReasonCode_eq_dec : EqDecision ReasonCode.
Proof. solve_decision. Defined.

(** [ReasonCode::as_str] (and [Display]). *)
Definition ReasonCode_as_str (r : ReasonCode) : string :=
  match r with
  | KavachAllowPolicyMatch => "kavach_allow_policy_match"
  | KavachDenyExplicitRule => "kavach_deny_explicit_rule"
  | KavachDenyDefault => "kavach_deny_default"
  | KavachDenyInvalidRequest => "kavach_deny_invalid_request"
  | KavachApprovalRequired => "kavach_approval_required"
  | KavachApprovalDestructiveOperation => "kavach_approval_destructive_operation"
  | KavachDenyUnknownResource => "kavach_deny_unknown_resource"
  | KavachDenyPathEscape => "kavach_deny_path_escape"
  end.

(** [FromStr for ReasonCode]. *)
Definition ReasonCode_from_str (s : string) : result DomainError ReasonCode :=
  if String.eqb s "kavach_allow_policy_match" then Ok KavachAllowPolicyMatch
  else if String.eqb s "kavach_deny_explicit_rule" then Ok KavachDenyExplicitRule
  else if String.eqb s "kavach_deny_default" then Ok KavachDenyDefault
  else if String.eqb s "kavach_deny_invalid_request" then Ok KavachDenyInvalidRequest
  else if String.eqb s "kavach_approval_required" then Ok KavachApprovalRequired
  else if String.eqb s "kavach_approval_destructive_operation" then
    Ok KavachApprovalDestructiveOperation
  else if String.eqb s "kavach_deny_unknown_resource" then Ok KavachDenyUnknownResource
  else if String.eqb s "kavach_deny_path_escape" then Ok KavachDenyPathEscape
  else Err (DomainError_new DEK_UnknownVariant ("unknown reason code: " +:+ s)).

(** [ApprovalRequirements]. *)
Record ApprovalRequirements := {
  ar_approval_id : ApprovalId;
  ar_summary : string;
}.

(** [DecisionTrace]. *)
Record DecisionTrace := {
  baseline_triggered : option string;
  failed_conditions : list string;
}.

(** [AuthorizationDecision]; [evaluated_at] in nanoseconds. *)
Record AuthorizationDecision := {
  ad_effect : DecisionEffect;
  ad_reason : ReasonCode;
  ad_explanation : string;
  ad_matched_rule_ids : list RuleId;
  ad_evaluated_at : Z;
  ad_request_id : RequestId;
  ad_risk_score : option Z;
  ad_approval : option ApprovalRequirements;
  ad_trace : option DecisionTrace;
}.

(** [AuthorizationDecision::new]: the [BTreeSet] is collected in order and then
    sorted. *)
Definition AuthorizationDecision_new (effect : DecisionEffect) (reason : ReasonCode)
    (explanation : string) (matched_rule_ids : list RuleId) (evaluated_at : Z)
    (request_id : RequestId) (risk_score : option Z) (approval : option ApprovalRequirements)
  : AuthorizationDecision :=
  {| ad_effect := effect;
     ad_reason := reason;
     ad_explanation := explanation;
     ad_matched_rule_ids := vec_sort matched_rule_ids;
     ad_evaluated_at := evaluated_at;
     ad_request_id := request_id;
     ad_risk_score := risk_score;
     ad_approval := approval;
     ad_trace := None |}.

(** [AuthorizationDecision::with_trace]. *)
Definition AuthorizationDecision_with_trace (d : AuthorizationDecision) (trace : DecisionTrace)
  : AuthorizationDecision :=
  {| ad_effect := ad_effect d;
     ad_reason := ad_reason d;
     ad_explanation := ad_explanation d;
     ad_matched_rule_ids := ad_matched_rule_ids d;
     ad_evaluated_at := ad_evaluated_at d;
     ad_request_id := ad_request_id d;
     ad_risk_score := ad_risk_score d;
     ad_approval := ad_approval d;
     ad_trace := Some trace |}.

(** [AuthorizationDecision::new_with_trace]. *)
Definition AuthorizationDecision_new_with_trace (effect : DecisionEffect) (reason : ReasonCode)
    (explanation : string) (matched_rule_ids : list RuleId) (evaluated_at : Z)
    (request_id : RequestId) (risk_score : option Z) (approval : option ApprovalRequirements)
    (trace : DecisionTrace) : AuthorizationDecision :=
  AuthorizationDecision_with_trace
    (AuthorizationDecision_new effect reason explanation matched_rule_ids evaluated_at
       request_id risk_score approval) trace.

Lemma ReasonCode_round_trip r : ReasonCode_from_str (ReasonCode_as_str r) = Ok r.
Proof. by destruct r. Qed.
