(* ===== verification/CorePermit.v ===== *)
(** * Execution permits and request digests

    crates/kavach-core/src/permit.rs and crates/kavach-core/src/digest.rs.
    SHA-256 and the JSON serializer are other crates' code: [sha256] and
    [request_to_json] are parameters.  Byte slices are [string]s of bytes; times
    are nanoseconds since the epoch. *)

From stdpp Require Import base tactics list strings.
From Stdlib Require Import ZArith Lia.
From S2P Require Import Prelude RustStr BTree CoreError CoreIds CorePath CoreResource CoreRequest.

Open Scope Z_scope.

(** The [sha2] crate. *)
Class Sha256 := { sha256 : string -> string }.

(** [serde_json::to_string] on a request ([None] when it fails). *)
Class RequestJson := { request_to_json : ToolRequest -> option string }.

(** ** Digests *)

(** [compute_request_digest]; [unwrap_or_default] makes a failed serialization
    the empty string. *)
Definition compute_request_digest `{Sha256, RequestJson} (request : ToolRequest) : string :=
  let json := match request_to_json request with Some j => j | None => "" end in
  sha256 json.

(** ** Permits *)

(** [PermitScope]. *)
Inductive PermitScope :=
| FilesystemRead
| FilesystemWrite
| FilesystemMutation
| CommandLowRisk
| CommandElevated
| CommandDestructive
| PS_NetworkRequest.

#[export] Instance PermitScope_eq_dec : EqDecision PermitScope.
Proof. solve_decision. Defined.

(** [ExecutionPermit]. *)
Record ExecutionPermit := {
  ep_token_hash : string;
  ep_request_id : RequestId;
  ep_scope : PermitScope;
  ep_matched_rule_ids : list RuleId;
  ep_issued_at : Z;
  ep_expires_at : Z;
  ep_request_digest : string;
  ep_consumed : bool;
}.

(** [SystemTime::checked_add] fails beyond the seconds of an [i64]. *)
Definition MAX_SYSTEM_TIME : Z := 2 ^ 63 * 1000000000 - 1.

Definition checked_add (now ttl : Z) : option Z :=
  if now + ttl <=? MAX_SYSTEM_TIME then Some (now + ttl) else None.

(** [ExecutionPermit::new] at time [now]. *)
Definition ExecutionPermit_new `{Sha256} (now : Z) (permit_secret : string)
    (request_id : RequestId) (scope : PermitScope) (matched_rule_ids : list RuleId)
    (request_digest : string) (ttl : Z) : ExecutionPermit :=
  {| ep_token_hash := sha256 permit_secret;
     ep_request_id := request_id;
     ep_scope := scope;
     ep_matched_rule_ids := matched_rule_ids;
     ep_issued_at := now;
     ep_expires_at := match checked_add now ttl with Some t => t | None => now end;
     ep_request_digest := request_digest;
     ep_consumed := false |}.

(** [ExecutionPermit::verify_secret]; [constant_time_eq] is equality of bytes. *)
Definition ExecutionPermit_verify_secret `{Sha256} (p : ExecutionPermit) (secret : string)
  : bool := String.eqb (sha256 secret) (ep_token_hash p).

(** [ExecutionPermit::is_expired] at time [now]. *)
Definition ExecutionPermit_is_expired (now : Z) (p : ExecutionPermit) : bool :=
  ep_expires_at p <=? now.

(** [ExecutionPermit::is_consumed]. *)
Definition ExecutionPermit_is_consumed (p : ExecutionPermit) : bool := ep_consumed p.

(** [ExecutionPermit::is_valid] at time [now]. *)
Definition ExecutionPermit_is_valid (now : Z) (p : ExecutionPermit) : bool :=
  negb (ExecutionPermit_is_expired now p) && negb (ExecutionPermit_is_consumed p).

(** [ExecutionPermit::consume]: the returned flag and the permit afterwards. *)
Definition ExecutionPermit_consume (p : ExecutionPermit) : bool * ExecutionPermit :=
  if ep_consumed p then (false, p)
  else (true,
        {| ep_token_hash := ep_token_hash p;
           ep_request_id := ep_request_id p;
           ep_scope := ep_scope p;
           ep_matched_rule_ids := ep_matched_rule_ids p;
           ep_issued_at := ep_issued_at p;
           ep_expires_at := ep_expires_at p;
           ep_request_digest := ep_request_digest p;
           ep_consumed := true |}).

(** [ExecutionPermit::verify_request_digest]. *)
Definition ExecutionPermit_verify_request_digest (p : ExecutionPermit) (digest : string) : bool :=
  String.eqb (ep_request_digest p) digest.

(** [required_scope]. *)
Definition required_scope (op : Operation) : PermitScope :=
  match op with
  | FileRead _ => FilesystemRead
  | FileWrite => FilesystemWrite
  | FileCreate | FileDelete | FileMove _ => FilesystemMutation
  | DirectoryList | DirectoryCreate | DirectoryDelete => FilesystemMutation
  | CommandExecute => CommandLowRisk
  | NetworkRequest => PS_NetworkRequest
  | SecretAccess | ToolInvoke _ => FilesystemRead
  end.

(** ** Lemmas *)

Lemma consume_true p : fst (ExecutionPermit_consume p) = true <-> ep_consumed p = false.
Proof. unfold ExecutionPermit_consume. destruct (ep_consumed p); simpl; naive_solver. Qed.

Lemma consume_consumed p : ep_consumed (snd (ExecutionPermit_consume p)) = true.
Proof. unfold ExecutionPermit_consume. by destruct (ep_consumed p) eqn:E. Qed.

Lemma consume_frame p :
  let q := snd (ExecutionPermit_consume p) in
  ep_token_hash q = ep_token_hash p /\ ep_request_id q = ep_request_id p /\
  ep_scope q = ep_scope p /\ ep_expires_at q = ep_expires_at p /\
  ep_request_digest q = ep_request_digest p.
Proof. unfold ExecutionPermit_consume. by destruct (ep_consumed p). Qed.

Lemma ExecutionPermit_is_valid_spec now p :
  ExecutionPermit_is_valid now p = true <-> now < ep_expires_at p /\ ep_consumed p = false.
Proof.
  unfold ExecutionPermit_is_valid, ExecutionPermit_is_expired, ExecutionPermit_is_consumed.
  rewrite andb_true_iff, !negb_true_iff, Z.leb_gt. done.
Qed.
