(* ===== verification/CoreProps.v ===== *)
(** * Properties of the core crate

    Path normalization, request validation and its reports, metadata, labels,
    the shell scanner and permits. *)

From stdpp Require Import base tactics list strings.
From Stdlib Require Import ZArith Lia Ascii.
From S2P Require Import Prelude RustStr BTree CoreError CoreIds CorePath CoreResource CoreRequest.
From S2P Require Import CoreShell CorePermit.

Open Scope Z_scope.

(** ** Paths *)

(** The part of a path that [normalize_lexical] walks. *)
Definition path_body (s : string) : string :=
  match strip_known_prefix s with
  | Some (_, rest) => rest
  | None => match strip_prefix "/" s with Some body => body | None => s end
  end.

Lemma normalize_lexical_none s :
  normalize_lexical s = None <->
  exists k, walk_depth (take k (split_on is_sep (path_body s))) < 0.
Proof.
  assert (Hb : normalize_lexical s = None <-> normalize_body (path_body s) = None).
  { unfold normalize_lexical, path_body. destruct (strip_known_prefix s) as [[label rest]|].
    - by destruct (normalize_body rest).
    - destruct (strip_prefix "/" s) as [body|]; [by destruct (normalize_body body)|done]. }
  rewrite Hb. unfold normalize_body.
  pose proof (normalize_loop_depth [] (split_on is_sep (path_body s))) as Hd. simpl in Hd.
  rewrite <- Hd. by destruct (normalize_loop [] _).
Qed.

(** (C30) A constructed path is bounded, clean, free of dot and dot-dot
    segments whichever separator is used to split it, and records the input and
    its absoluteness. *)
Theorem path_new_safe s p :
  NormalizedPath_new s = Ok p ->
  no_traversal (np_normalized p) /\ np_raw p = s /\ len s <= MAX_PATH_LEN /\
  any_byte bad_text_byte s = false /\ np_absolute p = path_is_absolute s.
Proof.
  intros (Hne & Hl & Hb & Hr & Ha & Hn)%NormalizedPath_new_ok. split_and!; [|done..].
  by eapply normal_form_no_traversal, normalize_lexical_form.
Qed.

(** (C29) A clean bounded path is refused exactly when walking its segments
    climbs above the point it starts from, at any moment of the walk. *)
Theorem path_escape_exact s :
  s <> "" -> len s <= MAX_PATH_LEN -> any_byte bad_text_byte s = false ->
  NormalizedPath_new s =
    Err (PathError_from_kind PEK_Escape "path escapes its own root via '..'") <->
  exists k, walk_depth (take k (split_on is_sep (path_body s))) < 0.
Proof.
  intros Hne Hl Hb. rewrite <- normalize_lexical_none. unfold NormalizedPath_new.
  apply is_empty_false in Hne as ->. apply Z.ltb_ge in Hl as ->. rewrite Hb.
  by destruct (normalize_lexical s).
Qed.

(** Re-validating a path after deserialization accepts exactly the values
    the constructor produces from the stored raw form. *)
Theorem path_revalidation_exact p :
  NormalizedPath_validate_invariants p = Ok tt <-> NormalizedPath_new (np_raw p) = Ok p.
Proof. apply NormalizedPath_validate_iff. Qed.

(** Normalization is idempotent, unless it uncovers a drive prefix that
    the input did not start with. *)
Theorem normalize_idempotent s n :
  normalize_lexical s = Some n ->
  (has_drive_prefix n = true -> has_drive_prefix s = true) ->
  normalize_lexical n = Some n.
Proof. apply normalize_lexical_idem. Qed.

(** ** Requests *)

(** [ToolRequest::validate] accepts exactly the requests that satisfy every
    invariant of their parts and pair the operation with a resource of its own
    kind; an unknown resource is never accepted. *)
Theorem request_validate_exact r : ToolRequest_validate r = Ok tt <-> request_ok r.
Proof. apply ToolRequest_validate_iff. Qed.

(** A refusal reports a fixed field path and a fixed message; nothing of
    the request but the operation and resource-kind labels reaches it. *)
Theorem request_validate_report r e :
  ToolRequest_validate r = Err e ->
  FieldPath_wf (dve_field e) /\ fp_str (dve_field e) ∈ validation_fields /\
  (de_context (dve_source e) ∈ validation_messages \/
   exists op kind, de_context (dve_source e) =
     incompatibility_message (Operation_as_str op) (ResourceKind_display kind)).
Proof.
  intros [Hf Hm]%ToolRequest_validate_report. split_and!; [|done|naive_solver].
  assert (Hwf : Forall (fun s => FieldPath_new s = Ok (FieldPath_raw s)) validation_fields)
    by (repeat constructor).
  rewrite Forall_forall in Hwf. apply Hwf in Hf. apply FieldPath_new_wf in Hf as [_ Hf].
  by destruct (dve_field e).
Qed.

(** The operation labels round trip: a label parses to an operation that
    prints as that label, every operation's label parses, and nothing else
    does. *)
Theorem operation_label_round_trip :
  (forall s op, Operation_from_label s = Ok op -> Operation_as_str op = s) /\
  (forall op, exists op', Operation_from_label (Operation_as_str op) = Ok op' /\
     Operation_as_str op' = Operation_as_str op).
Proof.
  split.
  - intros s op. unfold Operation_from_label. intros Hl. inv_all; by bool_prop.
  - intros op. destruct op; simpl; eauto.
Qed.

(** ** Metadata *)

(** [RequestMetadata::insert] keeps the map sorted, bounded and with bounded
    entries, and reading it back gives the inserted value and leaves the other
    keys alone. *)
Theorem metadata_insert_correct m key value m' :
  metadata_inv m -> RequestMetadata_insert m key value = Ok m' ->
  metadata_inv m' /\
  forall k, RequestMetadata_get m' k =
    if String.eqb k key then Some value else RequestMetadata_get m k.
Proof.
  intros Hm Hi. split; [by eapply metadata_insert_inv|]. intros k.
  unfold RequestMetadata_insert in Hi. inv_all. unfold RequestMetadata_get. simpl.
  rewrite bmap_get_insert. pose proof (key_cmp_eq k key) as Hk.
  destruct (String.eqb_spec k key) as [->|Hne]; [by rewrite key_cmp_refl|].
  by destruct (key_cmp k key); naive_solver.
Qed.

(** ** Shell scanner *)

(** (C32) The scanner misses nothing and invents nothing: it reports a hazard iff
    some position of the string starts one, and a substitution hazard iff some
    position starts a substitution. *)
Theorem shell_scanner_exact s :
  (has_dangerous_shell_construct s = true <-> exists a b, s = a +:+ b /\ hazard_at b = true) /\
  (has_substitution_hazard s = true <-> exists a b, s = a +:+ b /\ substitution_at b = true).
Proof.
  rewrite has_dangerous_somewhere, has_substitution_somewhere, !somewhere_spec. done.
Qed.

(** ** Permits *)

(** A permit is consumed at most once and only its flag changes; it is
    valid exactly before its expiry and before it is consumed, and its expiry
    never precedes its issue. *)
Theorem permit_single_use `{Sha256} now secret id scope rules digest ttl later :
  0 <= ttl ->
  let p := ExecutionPermit_new now secret id scope rules digest ttl in
  let '(first, q) := ExecutionPermit_consume p in
  let '(second, q') := ExecutionPermit_consume q in
  first = true /\ second = false /\ q' = q /\
  ExecutionPermit_verify_secret q secret = true /\
  ExecutionPermit_verify_request_digest q digest = true /\ ep_scope q = scope /\
  ExecutionPermit_is_valid later q = false /\
  now <= ep_expires_at p <= now + ttl /\
  (ExecutionPermit_is_valid later p = true <-> later < ep_expires_at p).
Proof.
  intros Httl. simpl. unfold ExecutionPermit_verify_secret, ExecutionPermit_verify_request_digest.
  simpl. rewrite !String.eqb_refl. unfold checked_add.
  split_and!; try done.
  - unfold ExecutionPermit_is_valid, ExecutionPermit_is_consumed. simpl. apply andb_false_r.
  - destruct (_ <=? _); lia.
  - destruct (_ <=? _); lia.
  - rewrite ExecutionPermit_is_valid_spec. simpl. naive_solver.
Qed.

(** ** Witnesses *)

Definition ex_source_path : NormalizedPath := mkNormalizedPath "./a/../b" "b" false.

Lemma path_new_safe_witness : no_traversal "b".
Proof. exact (proj1 (path_new_safe "./a/../b" ex_source_path eq_refl)). Defined.

Lemma path_escape_exact_witness :
  NormalizedPath_new "/a/../../etc" =
  Err (PathError_from_kind PEK_Escape "path escapes its own root via '..'").
Proof.
  apply (path_escape_exact "/a/../../etc"); [done|by vm_compute|done|].
  exists 3%nat. by vm_compute.
Defined.

Lemma normalize_idempotent_witness : normalize_lexical "C:/b" = Some "C:/b".
Proof. apply (normalize_idempotent "C:\a\..\b" "C:/b"); by vm_compute. Defined.

Definition ex_bad_request : ToolRequest :=
  {| tr_request_id := Id_raw "req-1";
     tr_subject := AgentSubjectBuilder_build
                     (AgentSubjectBuilder_new (Id_raw "agent-1") (Id_raw "session-1"));
     tr_operation := FileRead None;
     tr_resource := R_Directory (mkNormalizedPath "src" "src" false);
     tr_context := {| ctx_timestamp := 0; ctx_working_directory := None;
                      ctx_declared_intent := None; ctx_parent_request_id := None;
                      ctx_metadata := RequestMetadata_new; ctx_dry_run := false |} |}.

Lemma request_validate_report_witness : "request.operation" ∈ validation_fields.
Proof.
  exact (proj1 (proj2 (request_validate_report ex_bad_request
    (DomainValidationError_new (FieldPath_raw "request.operation")
      (DomainError_new DEK_InvalidValue (incompatibility_message "file_read" "directory")))
    eq_refl))).
Defined.

Lemma metadata_insert_correct_witness :
  RequestMetadata_get (RequestMetadata_raw [("k", "v")]) "k" = Some "v".
Proof.
  exact (proj2 (metadata_insert_correct RequestMetadata_new "k" "v"
                  (RequestMetadata_raw [("k", "v")]) metadata_inv_new eq_refl) "k").
Defined.

#[local] Instance identity_hash : Sha256 := {| sha256 s := s |}.

Lemma permit_single_use_witness :
  ep_expires_at (ExecutionPermit_new 10 "s" (Id_raw "req-1") FilesystemRead [] "d" 5) <= 10 + 5.
Proof.
  destruct (permit_single_use 10 "s" (Id_raw "req-1") FilesystemRead [] "d" 5 12)
    as (_ & _ & _ & _ & _ & _ & _ & [_ Hle] & _); [lia|exact Hle].
Defined.
