(* ===== verification/RedactionProps.v ===== *)
(** * Properties of redaction

    Merging keeps exactly the detected bytes, the replacement is the left-to-right
    one, configured secrets do not survive, and the redactor panics in exactly one
    situation. *)

From stdpp Require Import base tactics list strings.
From Stdlib Require Import ZArith Lia Ascii Sorted.
From S2P Require Import Prelude RustStr Utf8 BTree Redaction.

Open Scope nat_scope.

(** ** Merging *)

Definition span_ok (m : SecretMatch) : Prop := sm_start m <= sm_end m.
Definition inside (m M : SecretMatch) : Prop := sm_start M <= sm_start m /\ sm_end m <= sm_end M.
Definition covers (m : SecretMatch) (i : nat) : Prop := sm_start m <= i < sm_end m.
Definition before (A B : SecretMatch) : Prop := sm_end A < sm_start B.

(** The spans of [out] are separate, ascending, and hide exactly what [ms] matches. *)
Record merged_from (ms out : list SecretMatch) : Prop := {
  mg_ok : Forall span_ok out;
  mg_sorted : StronglySorted before out;
  mg_inside : forall m, m ∈ ms -> exists M, M ∈ out /\ inside m M;
  mg_covered : forall M i, M ∈ out -> covers M i -> exists m, m ∈ ms /\ covers m i;
  mg_start : forall M, M ∈ out -> exists m, m ∈ ms /\ sm_start M = sm_start m;
  mg_end : forall M, M ∈ out -> exists m, m ∈ ms /\ sm_end M = sm_end m;
}.

Lemma merge_loop_head last ms : exists M rest, merge_loop last ms = M :: rest /\ sm_start M = sm_start last.
Proof.
  revert last. induction ms as [|m ms IH]; intros last; simpl; [by exists last, []|].
  destruct (sm_start m <=? sm_end last); [|by eauto].
  destruct (IH (SecretMatch_new (sm_start last)
    (if sm_end last <? sm_end m then sm_end m else sm_end last)
    (if bool_decide (sm_category m = sm_category last) then sm_category last else Password)))
    as (M & rest & -> & HM). by exists M, rest.
Qed.

Lemma merged_nil : merged_from [] [].
Proof.
  assert (Hn : forall m : SecretMatch, m ∈ [] -> False) by (intros m; by apply not_elem_of_nil).
  split; [by apply Forall_nil|apply SSorted_nil|..]; intros; exfalso; eauto.
Qed.

(** A match that starts within the last span extends it. *)
Lemma merged_extend last m M0 ms out :
  span_ok last -> span_ok m -> sm_start last <= sm_start m <= sm_end last ->
  sm_start M0 = sm_start last -> sm_end M0 = Nat.max (sm_end last) (sm_end m) ->
  merged_from (M0 :: ms) out -> merged_from (last :: m :: ms) out.
Proof.
  unfold span_ok. intros Hl Hm Hle H0s H0e [Ok So In Co St En].
  assert (Hin0 : forall x, inside x M0 -> exists M, M ∈ out /\ inside x M).
  { intros x Hx. destruct (In M0) as (M & HM & HMi); [by left|]. exists M. unfold inside in *.
    split; [done|lia]. }
  constructor; [done|done| | | |].
  - intros x [->|[->|Hx]%elem_of_cons]%elem_of_cons; [apply Hin0..|apply In; by right];
      unfold inside; lia.
  - intros M i HM Hi. destruct (Co M i HM Hi) as (x & [->|Hx]%elem_of_cons & Hc);
      [|exists x; split; [by right; right|done]]. unfold covers in *.
    destruct (decide (i < sm_end last)); [exists last|exists m]; (split; [|lia]);
      [by left|right; by left].
  - intros M HM. destruct (St M HM) as (x & [->|Hx]%elem_of_cons & Hc);
      [exists last; split; [by left|congruence]|exists x; split; [by right; right|done]].
  - intros M HM. destruct (En M HM) as (x & [->|Hx]%elem_of_cons & Hc);
      [|exists x; split; [by right; right|done]].
    rewrite Hc, H0e. destruct (Nat.max_spec (sm_end last) (sm_end m)) as [[_ ->]|[_ ->]];
      [exists m|exists last]; (split; [|done]); [right; by left|by left].
Qed.

(** Spans that all start after the last one leave it alone. *)
Lemma merged_cons last ms out :
  span_ok last -> Forall (before last) out -> merged_from ms out ->
  merged_from (last :: ms) (last :: out).
Proof.
  intros Hl Hb [Ok So In Co St En].
  assert (Hmap : forall (P : SecretMatch -> SecretMatch -> Prop) M, P M M \/ M <> last ->
            (M ∈ out -> exists m, m ∈ ms /\ P M m) -> M ∈ last :: out ->
            exists m, m ∈ last :: ms /\ P M m).
  { intros P M HP Hout [->|HM]%elem_of_cons.
    - destruct HP as [HP|]; [|done]. exists last. split; [by left|done].
    - destruct (Hout HM) as (m & Hm & HPm). exists m. split; [by right|done]. }
  constructor; [by apply Forall_cons|by constructor| | | |].
  - intros x [->|Hx]%elem_of_cons; [exists last; split; [by left|split; lia]|].
    destruct (In x Hx) as (M & HM & Hin). exists M. split; [by right|done].
  - intros M i HM Hi. apply (Hmap (fun _ m => covers m i) M); [by left|intros; by apply (Co M)|done].
  - intros M HM. apply (Hmap (fun M m => sm_start M = sm_start m) M); [by left|by apply St|done].
  - intros M HM. apply (Hmap (fun M m => sm_end M = sm_end m) M); [by left|by apply En|done].
Qed.

(** All of a separated list comes after what its head comes after. *)
Lemma before_all last M out :
  before last M -> Forall span_ok (M :: out) -> StronglySorted before (M :: out) ->
  Forall (before last) (M :: out).
Proof.
  intros Hb [HM _]%Forall_cons [_ Hs]%StronglySorted_inv. apply Forall_cons. split; [done|].
  eapply Forall_impl; [exact Hs|]. unfold before, span_ok in *. intros x. lia.
Qed.

Lemma merge_loop_spec last ms :
  Forall span_ok (last :: ms) -> StronglySorted (fun a b => sm_start a <= sm_start b) (last :: ms) ->
  merged_from (last :: ms) (merge_loop last ms).
Proof.
  revert last. induction ms as [|m ms IH]; intros last Hok Hs; simpl.
  - apply Forall_cons in Hok as [Hok _]. apply merged_cons; [done|by apply Forall_nil|apply merged_nil].
  - apply StronglySorted_inv in Hs as [Hs [Hlm Hlr]%Forall_cons].
    apply Forall_cons in Hok as [Hok Hok2]. pose proof Hok2 as [Hokm Hokr]%Forall_cons.
    pose proof Hs as [Hs2 Hm]%StronglySorted_inv.
    destruct (Nat.leb_spec (sm_start m) (sm_end last)) as [Hle|Hgt].
    + set (M0 := SecretMatch_new _ _ _).
      assert (H0e : sm_end M0 = Nat.max (sm_end last) (sm_end m))
        by (simpl; destruct (Nat.ltb_spec (sm_end last) (sm_end m)); lia).
      apply (merged_extend last m M0); [done|done|done|done|done|]. apply IH; [|by constructor].
      apply Forall_cons. split; [|done]. unfold span_ok in *. rewrite H0e. simpl. lia.
    + specialize (IH m Hok2 Hs). apply merged_cons; [done| |done].
      destruct (merge_loop_head m ms) as (Mh & rest & Hmh & Hst). destruct IH as [Ok So _ _ _ _].
      rewrite Hmh in *. apply before_all; [unfold before; lia|done|done].
Qed.

(** *** The sorts *)

Lemma sorts_sorted ms :
  StronglySorted (fun a b => sm_start a <= sm_start b) (sort_by by_start_longest ms).
Proof.
  eapply StronglySorted_ind with (R := fun a b => by_start_longest a b = true);
    [constructor| |apply sort_by_sorted].
  - intros a l _ IH Ha. constructor; [done|]. eapply Forall_impl; [exact Ha|].
    unfold by_start_longest. intros x. rewrite orb_true_iff, andb_true_iff, Nat.ltb_lt, Nat.eqb_eq. lia.
  - intros x y. unfold by_start_longest. destruct (Nat.lt_trichotomy (sm_start x) (sm_start y)) as [H|[H|H]].
    + left. apply orb_true_iff. left. by apply Nat.ltb_lt.
    + rewrite H, Nat.ltb_irrefl, Nat.eqb_refl, !orb_false_l, !andb_true_l, !Nat.leb_le. lia.
    + right. apply orb_true_iff. left. by apply Nat.ltb_lt.
  - intros x y z. unfold by_start_longest.
    rewrite !orb_true_iff, !andb_true_iff, !Nat.ltb_lt, !Nat.eqb_eq, !Nat.leb_le. lia.
Qed.

Lemma insert_by_last {A} (le : A -> A -> bool) x l :
  Forall (fun y => le x y = false) l -> insert_by le x l = l ++ [x].
Proof. induction 1 as [|y l Hy _ IH]; simpl; [done|]. by rewrite Hy, IH. Qed.

(** The last sort reverses the spans. *)
Lemma sort_desc_rev out :
  Forall span_ok out -> StronglySorted before out -> sort_by by_start_desc out = rev out.
Proof.
  intros Hok. induction 1 as [|M out Hs IH HM]; [done|]. apply Forall_cons in Hok as [HMok Hok].
  simpl. rewrite IH by done. apply insert_by_last. apply Forall_rev.
  eapply Forall_impl; [exact HM|]. unfold before, by_start_desc, span_ok in *.
  intros x Hx. apply Nat.leb_gt. lia.
Qed.

(** What [merge_overlapping] returns, read from left to right. *)
Lemma merge_overlapping_spec ms :
  Forall span_ok ms -> exists out, merge_overlapping ms = rev out /\ merged_from ms out.
Proof.
  intros Hok. unfold merge_overlapping. pose proof (sorts_sorted ms) as Hs.
  pose proof (sort_by_perm by_start_longest ms) as Hp.
  destruct (sort_by by_start_longest ms) as [|m rest] eqn:E.
  - apply Permutation_nil_l in Hp. subst ms. exists []. split; [done|apply merged_nil].
  - destruct (merge_loop_spec m rest) as [Ok So In Co St En]; [by rewrite Hp|done|].
    exists (merge_loop m rest). split; [by apply sort_desc_rev|].
    constructor; [done|done|..].
    + intros x Hx. apply In. by rewrite Hp.
    + setoid_rewrite <- Hp. exact Co.
    + setoid_rewrite <- Hp. exact St.
    + setoid_rewrite <- Hp. exact En.
Qed.

(** ** Replacing *)

(** The reference: from offset [p] on, copy what lies between the spans and write a
    marker for each span. *)
Fixpoint splice (s : string) (p : nat) (spans : list SecretMatch) : string :=
  match spans with
  | [] => str_drop p s
  | m :: rest => str_sub s p (sm_start m) +:+ marker_for (sm_category m) +:+ splice s (sm_end m) rest
  end.

(** The parts that are copied. *)
Fixpoint kept (s : string) (p : nat) (spans : list SecretMatch) : list string :=
  match spans with
  | [] => [str_drop p s]
  | m :: rest => str_sub s p (sm_start m) :: kept s (sm_end m) rest
  end.

(** A span between two boundaries of [s]. *)
Definition span_in (s : string) (m : SecretMatch) : Prop :=
  span_ok m /\ is_char_boundary s (sm_start m) = true /\ is_char_boundary s (sm_end m) = true.

Lemma marker_utf8 c : Utf8 (marker_for c).
Proof. apply utf8_spec. by destruct c; vm_compute. Qed.

Lemma take_split s p q : p <= q -> str_take q s = str_take p s +:+ str_sub s p q.
Proof.
  unfold str_sub. revert s q. induction p as [|p IH]; intros s q Hq.
  - by rewrite str_take_0, str_drop_0, append_nil_l, Nat.sub_0_r.
  - destruct q; [lia|]. destruct s; [simpl; by destruct (q - p)|]. rewrite !str_take_S, str_drop_S, append_cons.
    simpl. rewrite (IH s q) by lia. done.
Qed.

(** The text between two boundaries is a text. *)
Lemma sub_utf8 s p q :
  Utf8 s -> p <= q -> is_char_boundary s p = true -> is_char_boundary s q = true -> Utf8 (str_sub s p q).
Proof.
  intros Hs Hpq (_ & Hp & _)%char_boundary_spec (_ & Hq & _)%char_boundary_spec; [|done..].
  rewrite (take_split s p q Hpq) in Hq. exact (Utf8_append_inv _ _ Hp Hq).
Qed.

Lemma splice_utf8 s p spans :
  Utf8 s -> is_char_boundary s p = true -> Forall (span_in s) spans ->
  StronglySorted before spans -> Forall (fun m => p <= sm_start m) spans ->
  Utf8 (splice s p spans).
Proof.
  intros Hs. revert p. induction spans as [|m spans IH]; intros p Hp Hin Hsort Hle; simpl.
  - by apply char_boundary_spec in Hp as (_ & _ & Hd).
  - apply Forall_cons in Hin as [(Hok & Hb1 & Hb2) Hin], Hle as [Hle _].
    apply StronglySorted_inv in Hsort as [Hsort Hm].
    apply Utf8_append; [by apply sub_utf8|]. apply Utf8_append; [apply marker_utf8|].
    apply IH; try done. eapply Forall_impl; [exact Hm|]. unfold before. intros x. lia.
Qed.

(** Boundaries inside the untouched prefix stay boundaries. *)
Lemma prefix_boundary s e Y i :
  Utf8 s -> Utf8 Y -> is_char_boundary s e = true -> i <= e -> is_char_boundary s i = true ->
  is_char_boundary (str_take e s +:+ Y) i = true.
Proof.
  intros Hs HY He Hi Hb. pose proof (char_boundary_le _ _ He) as Hel.
  apply char_boundary_spec in He as (_ & Hte & _), Hb as (_ & Hti & _); [|done..].
  assert (Hl : String.length (str_take e s) = e) by (rewrite take_length; lia).
  apply char_boundary_spec; [by apply Utf8_append|].
  rewrite str_length_append, Hl, take_append, drop_append by lia.
  rewrite (take_split s i e Hi) in *. rewrite take_append by (rewrite take_length; lia).
  rewrite take_all by (rewrite take_length; lia).
  split; [lia|]. split; [done|]. apply Utf8_append; [|done].
  rewrite drop_append_r by (rewrite take_length; lia).
  assert (Hz : i - String.length (str_take i s) = 0) by (rewrite take_length; lia).
  rewrite Hz, str_drop_0. exact (Utf8_append_inv _ _ Hti Hte).
Qed.

Lemma apply_loop_app l1 l2 t cs :
  apply_loop (l1 ++ l2) t cs =
  match apply_loop l1 t cs with Ok tc => apply_loop l2 tc.1 tc.2 | Err f => Err f end.
Proof.
  revert t cs. induction l1 as [|m l1 IH]; intros t cs; simpl; [done|].
  by destruct (replace_range _ _ _ _).
Qed.

(** Replacing from the right gives the reference. *)
Lemma apply_loop_splice s spans p cs :
  Utf8 s -> is_char_boundary s p = true -> Forall (span_in s) spans ->
  StronglySorted before spans -> Forall (fun m => p <= sm_start m) spans ->
  exists cs', apply_loop (rev spans) s cs = Ok (str_take p s +:+ splice s p spans, cs').
Proof.
  intros Hs. revert p. induction spans as [|m spans IH]; intros p Hp Hin Hsort Hle.
  { exists cs. simpl. by rewrite <- take_drop. }
  apply Forall_cons in Hin as [(Hok & Hb1 & Hb2) Hin], Hle as [Hle _].
  apply StronglySorted_inv in Hsort as [Hsort Hm].
  assert (Hle2 : Forall (fun x => sm_end m <= sm_start x) spans)
    by (eapply Forall_impl; [exact Hm|]; unfold before; intros x; lia).
  destruct (IH (sm_end m) Hb2 Hin Hsort Hle2) as (cs' & Hcs). unfold span_ok in Hok.
  simpl rev. rewrite apply_loop_app, Hcs. cbn [apply_loop fst snd]. unfold replace_range.
  pose proof (splice_utf8 s _ _ Hs Hb2 Hin Hsort Hle2) as HY. set (Y := splice s (sm_end m) spans) in *.
  rewrite !prefix_boundary, (proj2 (Nat.leb_le _ _) Hok) by (done || lia). cbn [andb].
  pose proof (char_boundary_le _ _ Hb2) as He.
  assert (Hl : String.length (str_take (sm_end m) s) = sm_end m) by (rewrite take_length; lia).
  eexists. rewrite take_append by lia. rewrite drop_append_r by lia. rewrite Hl, Nat.sub_diag, str_drop_0.
  f_equal. f_equal. simpl. rewrite (take_split s (sm_start m) (sm_end m) Hok).
  rewrite take_append by (rewrite take_length; lia). rewrite take_all by (rewrite take_length; lia).
  by rewrite (take_split s p (sm_start m) Hle), !append_assoc.
Qed.

(** ** Detectors stay on boundaries *)

Lemma ascii_not_continuation b : is_ascii_byte b = true -> is_continuation b = false.
Proof.
  unfold is_ascii_byte, is_continuation, in_range. rewrite Z.ltb_lt. intros Hb.
  apply andb_false_iff. left. apply Z.leb_gt. lia.
Qed.

(** Both sides of an ASCII byte are boundaries. *)
Lemma ascii_boundaries s i b r :
  Utf8 s -> str_drop i s = String b r -> is_ascii_byte b = true ->
  is_char_boundary s i = true /\ is_char_boundary s (S i) = true.
Proof.
  intros Hs Hd Hb. pose proof (drop_length i s) as Hl. rewrite Hd in Hl. simpl in Hl.
  assert (Hi : is_char_boundary s i = true).
  { unfold is_char_boundary. rewrite get_drop, Hd. destruct (i =? 0); [done|].
    by rewrite ascii_not_continuation. }
  split; [done|]. apply char_boundary_spec in Hi as (Hle & Ht & Hdr); [|done].
  assert (Hd1 : str_drop (S i) s = r).
  { replace (S i) with (i + 1) by lia. rewrite <- drop_drop, Hd. apply str_drop_0. }
  assert (Hr : Utf8 r).
  { rewrite Hd in Hdr. inversion Hdr as [|? q E Hq]; subst. simpl in E.
    assert (Hz : in_range 0 127 b = true).
    { unfold in_range, is_ascii_byte in *. apply Z.ltb_lt in Hb. pose proof (byte_val_range b).
      apply andb_true_iff. rewrite !Z.leb_le. lia. }
    rewrite Hz in E. congruence. }
  apply Utf8_starts in Hr. unfold is_char_boundary. rewrite get_drop, Hd1.
  destruct r; cbn [Nat.eqb starts_inside] in *; [apply (Nat.eqb_eq (S i)); cbn [String.length] in Hl; lia|by rewrite Hr].
Qed.

Section Detection.
Context {RX : RegexLib} {RXL : RegexLaws}.

Lemma find_matches_in pattern keep c s :
  Utf8 s -> Forall (span_in s) (find_matches pattern keep c s).
Proof.
  intros Hs. unfold find_matches. apply Forall_map. apply Forall_forall. intros [a b] Hin.
  apply list_elem_of_In, filter_In in Hin as [Hin _]. apply list_elem_of_In in Hin.
  apply (regex_match_bounds pattern s a b Hs) in Hin. exact Hin.
Qed.

Lemma find_split_spec p s a b :
  find_split p s = Some (a, b) -> s = a +:+ b /\ exists c r, b = String c r /\ p c = true.
Proof.
  revert a b. induction s as [|c s IH]; intros a b; simpl; [done|].
  destruct (p c) eqn:E; [intros [= <- <-]; split; [done|by exists c, s]|].
  destruct (find_split p s) as [[x y]|]; [|done]. intros [= <- <-].
  destruct (IH x y eq_refl) as [-> Hy]. done.
Qed.

Lemma assignments_in s : Utf8 s -> Forall (span_in s) (assignments_detect s).
Proof.
  intros Hs. unfold assignments_detect. apply Forall_forall. intros m Hm.
  apply list_elem_of_omap in Hm as ([a b] & Hin & Hv).
  apply (regex_match_bounds _ s a b Hs) in Hin as (Hab & Ha & Hb).
  unfold assignment_value in Hv. simpl in Hv.
  destruct (find_split _ (str_sub s a b)) as [[pre post]|] eqn:E; [|done]. injection Hv as <-.
  apply find_split_spec in E as (Hsub & c & r & -> & Hc). unfold str_sub in Hsub.
  pose proof (char_boundary_le _ _ Hb) as Hbl.
  assert (Hl : String.length (str_take (b - a) (str_drop a s)) = b - a)
    by (rewrite take_length, drop_length; lia).
  rewrite Hsub, str_length_append in Hl. simpl in Hl.
  pose proof (take_drop (b - a) (str_drop a s)) as Hd. rewrite Hsub, append_assoc, append_cons in Hd.
  assert (Hdd : str_drop (a + String.length pre) s = String c (r +:+ str_drop (b - a) (str_drop a s))).
  { rewrite <- drop_drop. rewrite Hd at 1. rewrite drop_append_r by lia.
    by rewrite Nat.sub_diag, str_drop_0. }
  assert (Hasc : is_ascii_byte c = true).
  { apply orb_true_iff in Hc as [Hc|Hc]; apply Ascii.eqb_eq in Hc as ->; done. }
  destruct (ascii_boundaries s _ c _ Hs Hdd Hasc) as [_ Hb1].
  unfold span_in, span_ok. simpl. split_and!; [lia| |done].
  by replace (a + String.length pre + 1) with (S (a + String.length pre)) by lia.
Qed.

Lemma pattern_detect_in d s : Utf8 s -> Forall (span_in s) (pattern_detect d s).
Proof. destruct d; [apply find_matches_in..|apply assignments_in|apply find_matches_in|apply find_matches_in]. Qed.

(** *** Configured secrets *)

(** The secret starts with a character of more than one byte. *)
Definition multibyte_start (s : string) : bool :=
  match s with String b _ => negb (is_ascii_byte b) | EmptyString => false end.

(** A proper secret: a text that is not empty. *)
Definition secret_ok (s : string) : Prop := Utf8 s /\ s <> "".

Definition secret_match (secret : string) (i : nat) : SecretMatch :=
  SecretMatch_new i (i + String.length secret) ConfiguredSecret.

(** The byte after the first of a longer character is no boundary. *)
Lemma multibyte_inside secret s i :
  secret_ok secret -> multibyte_start secret = true -> occurs_at secret s i ->
  is_char_boundary s (S i) = false.
Proof.
  intros [Hu Hne] Hm [Hi [r Hr]%starts_with_spec].
  inversion Hu as [|? q E Hq]; subst; [done|]. pose proof E as (b0 & p & -> & _ & Hp)%utf8_char_cases.
  simpl in Hm. apply negb_true_iff in Hm.
  assert (exists b1 p', p = String b1 p' /\ is_continuation b1 = true) as (b1 & p' & -> & Hb1).
  { destruct p as [|b1 p']; [|simpl in Hp; apply andb_true_iff in Hp as [Hb1 _]; by eauto].
    exfalso. rewrite append_nil_l in E.
    assert (Hz : in_range 0 127 b0 = false).
    { unfold in_range, is_ascii_byte in *. apply Z.ltb_ge in Hm. apply andb_false_iff. right.
      apply Z.leb_gt. lia. }
    unfold utf8_char in E. rewrite Hz in E. repeat case_match; try done; subst;
      apply (f_equal (option_map String.length)) in E; injection E as E; simpl in E; lia. }
  unfold is_char_boundary. rewrite get_drop.
  replace (S i) with (i + 1) by lia. rewrite <- drop_drop, Hr. simpl.
  destruct (i + 1) eqn:Ei; [lia|]. by rewrite Hb1.
Qed.

Lemma ascii_start_boundary secret s i :
  Utf8 s -> secret_ok secret -> multibyte_start secret = false -> occurs_at secret s i ->
  is_char_boundary s (S i) = true.
Proof.
  intros Hs [_ Hne] Hm [Hi [r Hr]%starts_with_spec]. destruct secret as [|b secret]; [done|].
  simpl in Hm. apply negb_false_iff in Hm. rewrite append_cons in Hr.
  by destruct (ascii_boundaries s i b _ Hs Hr Hm).
Qed.

(** The search from [ss] on: all occurrences, unless a character is cut. *)
Lemma exact_loop_spec fuel s secret ss :
  Utf8 s -> secret_ok secret -> is_char_boundary s ss = true -> String.length s + 2 <= fuel + ss ->
  match exact_loop fuel s secret ss with
  | Ok ms =>
      (multibyte_start secret = true -> forall i, ss <= i -> ~ occurs_at secret s i) /\
      forall m, m ∈ ms <-> exists i, ss <= i /\ occurs_at secret s i /\ m = secret_match secret i
  | Err f => f = RF_Panic /\ multibyte_start secret = true /\ exists i, ss <= i /\ occurs_at secret s i
  end.
Proof.
  intros Hs Hsec. revert ss. induction fuel as [|fuel IH]; intros ss Hb Hf.
  { apply char_boundary_le in Hb. lia. }
  pose proof (char_boundary_le _ _ Hb) as Hle. cbn [exact_loop]. unfold slice_from. rewrite Hb.
  destruct (str_find secret (str_drop ss s)) as [pos|] eqn:Ef.
  - apply str_find_Some in Ef as [Ho Hno]. apply occurs_drop in Ho; [|done].
    set (ap := ss + pos) in *. replace (ap + 1) with (S ap) by lia.
    assert (Hfirst : forall i, ss <= i -> occurs_at secret s i -> i = ap \/ S ap <= i).
    { intros i Hi Hoi. destruct (decide (i < ap)) as [Hlt|]; [|lia]. exfalso.
      apply (Hno (i - ss)); [lia|]. apply occurs_drop; [done|]. by replace (ss + (i - ss)) with i by lia. }
    destruct (multibyte_start secret) eqn:Em.
    + assert (Hx : exact_loop fuel s secret (S ap) = Err RF_Panic).
      { destruct fuel as [|fuel]; [lia|]. simpl. unfold slice_from.
        by rewrite (multibyte_inside secret). }
      rewrite Hx. split_and!; [done|done|]. exists ap. split; [lia|done].
    + pose proof (ascii_start_boundary secret s ap Hs Hsec Em Ho) as Hb'.
      specialize (IH (S ap) Hb' ltac:(lia)).
      destruct (exact_loop fuel s secret (S ap)) as [ms|f]; [|by destruct IH as (_ & [=] & _)].
      destruct IH as [_ IH]. split; [done|]. intros m. rewrite elem_of_cons, IH. split.
      * intros [->|(i & Hi & Hoi & ->)]; [exists ap|exists i]; split_and!; [lia|done|done|lia|done|done].
      * intros (i & Hi & Hoi & ->). destruct (Hfirst i Hi Hoi) as [->|Hlt]; [by left|right; eauto].
  - assert (Hnone : forall i, ss <= i -> ~ occurs_at secret s i).
    { intros i Hi Hoi. apply (str_find_None _ _ Ef (i - ss)). apply occurs_drop; [done|].
      by replace (ss + (i - ss)) with i by lia. }
    split; [done|]. intros m. split; [by intros ?%not_elem_of_nil|].
    intros (i & Hi & Hoi & _). by destruct (Hnone i Hi).
Qed.

Lemma exact_secrets_spec s secrets :
  Utf8 s -> Forall secret_ok secrets ->
  match exact_secrets s secrets with
  | Ok ms =>
      (forall x i, x ∈ secrets -> multibyte_start x = true -> ~ occurs_at x s i) /\
      forall m, m ∈ ms <-> exists x i, x ∈ secrets /\ occurs_at x s i /\ m = secret_match x i
  | Err f => f = RF_Panic /\ exists x i, x ∈ secrets /\ multibyte_start x = true /\ occurs_at x s i
  end.
Proof.
  intros Hs. induction secrets as [|x xs IH]; intros Hok; simpl.
  { split; [intros x i ?%not_elem_of_nil; done|]. intros m. split; [by intros ?%not_elem_of_nil|].
    intros (x & i & ?%not_elem_of_nil & _). done. }
  apply Forall_cons in Hok as [Hx Hok]. specialize (IH Hok).
  pose proof (exact_loop_spec (String.length s + 2) s x 0 Hs Hx eq_refl ltac:(lia)) as Hl.
  destruct (exact_loop _ s x 0) as [found|f].
  2: { destruct Hl as (-> & Hm & i & _ & Ho). split; [done|]. exists x, i. split; [by left|done]. }
  destruct Hl as [Hno Hl]. destruct (exact_secrets s xs) as [more|f].
  2: { destruct IH as (-> & y & i & Hy & Hm & Ho). split; [done|]. exists y, i. split; [by right|done]. }
  destruct IH as [IHno IH]. split.
  - intros y i [->|Hy]%elem_of_cons Hm; [apply Hno; [done|lia]|by apply IHno].
  - intros m. rewrite elem_of_app, Hl, IH. split.
    + intros [(i & _ & Ho & ->)|(y & i & Hy & Ho & ->)];
        [exists x, i; split; [by left|done]|exists y, i; split; [by right|done]].
    + intros (y & i & [->|Hy]%elem_of_cons & Ho & ->); [left|right]; [exists i|exists y, i]; auto with lia.
Qed.

(** *** Entropy *)

Lemma word_byte_ascii b : is_word_byte b = true -> is_ascii_byte b = true.
Proof.
  unfold is_word_byte, is_ascii_byte, is_ascii_alphanumeric, is_ascii_alphabetic, is_ascii_lowercase,
    is_ascii_uppercase, is_ascii_digit, in_range.
  rewrite !orb_true_iff, !andb_true_iff, !Z.leb_le, Z.ltb_lt.
  intros [[H|H]|H]; [lia|apply Ascii.eqb_eq in H as ->; by vm_compute..].
Qed.

(** The first and the last byte of a run. *)
Lemma word_run_ends s k :
  word_run s = S k ->
  (exists b r, s = String b r /\ is_word_byte b = true) /\
  exists b r, str_drop k s = String b r /\ is_word_byte b = true.
Proof.
  revert k. induction s as [|b s IH]; intros k; simpl; [done|].
  destruct (is_word_byte b) eqn:E; [|done]. intros [= <-]. split; [by eauto|].
  destruct (word_run s) as [|j] eqn:Ew; [rewrite str_drop_0; eauto|].
  rewrite str_drop_S. by destruct (IH j eq_refl) as [_ Hl].
Qed.

Context {FL : F64}.

Lemma entropy_loop_in d fuel s start :
  Utf8 s -> String.length s <= fuel + start ->
  exists ms, entropy_loop d fuel s start = Ok ms /\ Forall (span_in s) ms.
Proof.
  intros Hs. revert start. induction fuel as [|fuel IH]; intros start Hf; simpl;
    (destruct (Nat.leb_spec (String.length s) start); [exists []; split; [done|by apply Forall_nil]|]); [lia|].
  destruct (word_run (str_drop start s)) as [|k] eqn:Ew; [apply IH; lia|].
  apply word_run_ends in Ew as [(b & r & Hd & Hb) (b' & r' & Hd' & Hb')].
  rewrite drop_drop in Hd'. apply word_byte_ascii in Hb, Hb'.
  destruct (ascii_boundaries s _ _ _ Hs Hd Hb) as [Hb1 _].
  destruct (ascii_boundaries s _ _ _ Hs Hd' Hb') as [_ Hb2]. rewrite <- Nat.add_succ_r in Hb2.
  unfold slice. rewrite Hb1, Hb2, (proj2 (Nat.leb_le _ _)) by lia. cbn [andb].
  destruct (IH (start + S k)) as (ms & -> & Hms); [lia|]. eexists. split; [done|].
  destruct (_ && _); [|done]. apply Forall_cons. split; [|done].
  split_and!; [unfold span_ok; simpl; lia|done|done].
Qed.

(** *** All detectors *)

(** The configured secrets of a redactor. *)
Definition configured (c : CompositeRedactor) : list string :=
  match cr_exact_detector c with Some d => sc_sorted_by_len d | None => [] end.

(** A configured secret that starts with a longer character occurs in the text. *)
Definition cuts_character (c : CompositeRedactor) (s : string) : Prop :=
  exists x i, x ∈ configured c /\ multibyte_start x = true /\ occurs_at x s i.

Lemma detect_all_spec c s :
  Utf8 s -> Forall secret_ok (configured c) ->
  match detect_all c s with
  | Ok ms => ~ cuts_character c s /\ Forall (span_in s) ms /\
      forall x i, x ∈ configured c -> occurs_at x s i -> secret_match x i ∈ ms
  | Err f => f = RF_Panic /\ cuts_character c s
  end.
Proof.
  intros Hs Hok. unfold detect_all.
  assert (Hpat : Forall (span_in s) (flat_map (fun d => pattern_detect d s) (cr_detectors c))).
  { induction (cr_detectors c) as [|d ds IH]; simpl; [by apply Forall_nil|].
    apply Forall_app. split; [by apply pattern_detect_in|done]. }
  assert (Hent : exists en, match cr_entropy_detector c with
                            | Some d => entropy_detect d s | None => Ok [] end = Ok en /\
                            Forall (span_in s) en).
  { destruct (cr_entropy_detector c) as [d|]; [apply entropy_loop_in; [done|lia]|by eauto]. }
  destruct Hent as (en & Hen & Hens).
  pose proof (exact_secrets_spec s (configured c) Hs Hok) as Hx.
  assert (Heq : match cr_exact_detector c with
                | Some d => exact_detect d s | None => Ok [] end = exact_secrets s (configured c))
    by (unfold configured; by destruct (cr_exact_detector c)).
  rewrite Heq. destruct (exact_secrets s (configured c)) as [ex|f]; [|by destruct Hx].
  destruct Hx as [Hno Hx]. rewrite Hen. split_and!.
  - intros (x & i & Hin & Hm & Ho). by apply (Hno x i Hin Hm).
  - rewrite !Forall_app. split_and!; [done| |done]. apply Forall_forall. intros m Hm.
    apply Hx in Hm as (x & i & Hin & Ho & ->). rewrite Forall_forall in Hok.
    destruct (Hok x Hin) as [Hu Hne]. split; [unfold span_ok; simpl; lia|]. by apply occurs_boundaries.
  - intros x i Hin Ho. rewrite !elem_of_app. right. left. apply Hx. eauto.
Qed.

(** ** Redaction *)

Abbreviation redact := CompositeRedactor_redact_text.

Lemma merged_in s ms spans :
  Forall (span_in s) ms -> merged_from ms spans -> Forall (span_in s) spans.
Proof.
  intros Hms [Ok _ _ _ St En]. rewrite Forall_forall in *. intros M HM.
  destruct (St M HM) as (m & Hm & Hs), (En M HM) as (m' & Hm' & He).
  split_and!; [by apply Ok|rewrite Hs; by apply Hms|rewrite He; by apply Hms].
Qed.

(** Everything there is to know about [redact_text]. *)
Lemma redact_text_spec c s :
  Utf8 s -> Forall secret_ok (configured c) ->
  match redact c s with
  | Ok r => (len s <= MAX_INPUT_BYTES)%Z /\ ~ cuts_character c s /\
      exists ms spans, detect_all c s = Ok ms /\ merged_from ms spans /\ Forall (span_in s) spans /\
        rr_redacted r = splice s 0 spans /\ rr_count r = length spans
  | Err f =>
      (f = RF_Error (RDE_InputTooLarge (len s) MAX_INPUT_BYTES) /\ (MAX_INPUT_BYTES < len s)%Z) \/
      (f = RF_Panic /\ (len s <= MAX_INPUT_BYTES)%Z /\ cuts_character c s)
  end.
Proof.
  intros Hs Hok. unfold CompositeRedactor_redact_text. destruct (Z.ltb_spec MAX_INPUT_BYTES (len s)); [by left|].
  pose proof (detect_all_spec c s Hs Hok) as Hd. destruct (detect_all c s) as [ms|f];
    [|right; by destruct Hd as [-> Hd]].
  destruct Hd as (Hno & Hin & _).
  assert (Hok' : Forall span_ok (sort_by by_start ms)).
  { rewrite sort_by_perm. eapply Forall_impl; [exact Hin|]. by intros m [? _]. }
  destruct (merge_overlapping_spec _ Hok') as (spans & -> & Hm).
  assert (Hin' : Forall (span_in s) spans)
    by (eapply merged_in; [|exact Hm]; by rewrite sort_by_perm).
  destruct (apply_loop_splice s spans 0 [] Hs eq_refl Hin' (mg_sorted _ _ Hm)) as (cs & Ha);
    [apply Forall_forall; lia|].
  unfold apply_redactions. rewrite Ha. split_and!; [lia|done|]. exists ms, spans. simpl.
  rewrite str_take_0, append_nil_l, length_rev. split_and!; try done.
  destruct Hm as [? ? Mi Mc Ms Me]. constructor; [done|done|..].
  - intros m Hm. apply Mi. by apply elem_of_sort_by.
  - setoid_rewrite <- (sort_by_perm by_start ms). exact Mc.
  - setoid_rewrite <- (sort_by_perm by_start ms). exact Ms.
  - setoid_rewrite <- (sort_by_perm by_start ms). exact Me.
Qed.

(** (C28) Redaction replaces exactly what the detectors found: the output copies the
    input from left to right with one marker for each of a list of separate spans;
    every match of a detector lies in a span, every byte of a span is covered by a
    match, and the count is the number of spans. *)
Theorem redaction_exact c s r :
  Utf8 s -> Forall secret_ok (configured c) -> redact c s = Ok r ->
  exists ms spans, detect_all c s = Ok ms /\ merged_from ms spans /\
    rr_redacted r = splice s 0 spans /\ rr_count r = length spans.
Proof.
  intros Hs Hok Hr. pose proof (redact_text_spec c s Hs Hok) as Hx. rewrite Hr in Hx.
  destruct Hx as (_ & _ & ms & spans & Hd & Hm & _ & Hs' & Hc). by exists ms, spans.
Qed.

(** (C39) On valid text the redactor refuses exactly the texts over the limit, and
    panics exactly when a configured secret occurs that starts with a character of
    more than one byte: the search for its next occurrence then slices inside that
    character. *)
Theorem redaction_panics_exactly c s :
  Utf8 s -> Forall secret_ok (configured c) -> (len s <= MAX_INPUT_BYTES)%Z ->
  (redact c s = Err RF_Panic <-> cuts_character c s) /\
  ((exists r, redact c s = Ok r) <-> ~ cuts_character c s).
Proof.
  intros Hs Hok Hl. pose proof (redact_text_spec c s Hs Hok) as Hx.
  destruct (redact c s) as [r|f].
  - destruct Hx as (_ & Hno & _). split; split; [done|done|done|by eexists].
  - destruct Hx as [[_ Hx]|(-> & _ & Hx)]; [lia|]. split; split; [done|done|by intros [? [=]]|done].
Qed.

(** *** Kept text *)

Lemma contains_occurs p s : contains p s = true -> exists i, occurs_at p s i.
Proof.
  induction s as [|c s IH]; simpl; rewrite orb_true_iff.
  - intros [H|H]; [|done]. exists 0. by split; [|rewrite str_drop_0].
  - intros [H|H]; [exists 0; split; [lia|by rewrite str_drop_0]|].
    destruct (IH H) as (i & Hi). exists (S i). by apply occurs_S.
Qed.

Lemma occurs_sub p s a b i :
  a <= b <= String.length s -> occurs_at p (str_sub s a b) i ->
  occurs_at p s (a + i) /\ a + i + String.length p <= b.
Proof.
  intros Hab Ho. unfold str_sub in *. pose proof (occurs_end _ _ _ Ho) as He.
  rewrite take_length, drop_length in He. destruct Ho as [Hi [r Hr]%starts_with_spec].
  rewrite take_length, drop_length in Hi.
  split; [|lia]. split; [lia|]. apply starts_with_spec.
  exists (r +:+ str_drop (b - a) (str_drop a s)). rewrite <- append_assoc, <- Hr.
  rewrite <- drop_append by (rewrite take_length, drop_length; lia).
  by rewrite <- take_drop, drop_drop.
Qed.

(** A kept piece is a part of the input no span touches. *)
Lemma kept_apart s p spans piece :
  p <= String.length s -> Forall (span_in s) spans -> StronglySorted before spans ->
  Forall (fun m => p <= sm_start m) spans -> piece ∈ kept s p spans ->
  exists a b, piece = str_sub s a b /\ p <= a <= b /\ b <= String.length s /\
    forall M, M ∈ spans -> sm_end M <= a \/ b <= sm_start M.
Proof.
  revert p. induction spans as [|m spans IH]; intros p Hp Hin Hs Hle; simpl.
  - intros ->%list_elem_of_singleton. exists p, (String.length s). split_and!; [|lia..|].
    + unfold str_sub. rewrite take_all; [done|]. rewrite drop_length. lia.
    + by intros M ?%not_elem_of_nil.
  - apply Forall_cons in Hin as [(Hok & Hb1 & Hb2) Hin], Hle as [Hle Hle'].
    apply char_boundary_le in Hb1, Hb2. unfold span_ok in Hok.
    apply StronglySorted_inv in Hs as [Hs Hm]. intros [->|Hpc]%elem_of_cons.
    + exists p, (sm_start m). split_and!; [done|lia..|]. rewrite Forall_forall in Hm.
      intros M [->|HM]%elem_of_cons; [lia|]. specialize (Hm M HM). unfold before in Hm. lia.
    + destruct (IH (sm_end m)) as (a & b & Hpab & Hab & Hbl & Hsep); [lia|done|done| |done|].
      { eapply Forall_impl; [exact Hm|]. unfold before. intros x. lia. }
      exists a, b. split_and!; [done|lia..|]. intros M [->|HM]%elem_of_cons; [lia|by apply Hsep].
Qed.

(** The pieces kept by a redaction hold no configured secret. *)
Lemma secrets_removed c s r :
  Utf8 s -> Forall secret_ok (configured c) -> redact c s = Ok r ->
  exists spans, rr_redacted r = splice s 0 spans /\
    forall x, x ∈ configured c -> Forall (fun piece => contains x piece = false) (kept s 0 spans).
Proof.
  intros Hs Hok Hr. pose proof (redact_text_spec c s Hs Hok) as Hspec. rewrite Hr in Hspec.
  destruct Hspec as (_ & _ & ms & spans & Hd & Hm & Hin & Hred & _).
  pose proof (detect_all_spec c s Hs Hok) as Hall. rewrite Hd in Hall. destruct Hall as (_ & _ & Hall).
  exists spans. split; [done|]. intros x Hx. apply Forall_forall. intros piece Hpc.
  destruct (contains x piece) eqn:Ec; [|done]. exfalso. apply contains_occurs in Ec as (i & Ho).
  apply kept_apart in Hpc as (a & b & -> & Hab & Hbl & Hsep);
    [|lia|done|apply Hm|apply Forall_forall; lia].
  apply occurs_sub in Ho as [Ho Hend]; [|lia].
  destruct (mg_inside _ _ Hm _ (Hall x _ Hx Ho)) as (M & HM & H1 & H2). simpl in H1, H2.
  rewrite Forall_forall in Hok. destruct (Hok x Hx) as [_ Hne].
  assert (0 < String.length x) by (destruct x; simpl; [done|lia]).
  destruct (Hsep M HM); lia.
Qed.

(** Configured secrets do not survive: in the output, no piece copied from the
    input contains a configured secret, not even one that overlaps another. *)
Theorem configured_secrets_removed c s r x :
  Utf8 s -> Forall secret_ok (configured c) -> redact c s = Ok r -> x ∈ configured c ->
  exists spans, rr_redacted r = splice s 0 spans /\
    Forall (fun piece => contains x piece = false) (kept s 0 spans).
Proof.
  intros Hs Hok Hr Hx. destruct (secrets_removed c s r Hs Hok Hr) as (spans & Hred & Hk).
  exists spans. split; [done|by apply Hk].
Qed.

End Detection.

(** ** The container *)

(** What a container promises: at most the allowed number of distinct secrets, none
    empty or too long, and the search order is theirs, longest first. *)
Record container_ok (c : SecretContainer) : Prop := {
  ck_count : (Z.of_nat (length (sc_secrets c)) <= MAX_CONFIGURED_SECRETS)%Z;
  ck_distinct : NoDup (sc_secrets c);
  ck_bounds : Forall (fun x => (0 < len x <= MAX_CONFIGURED_SECRET_LENGTH)%Z) (sc_secrets c);
  ck_same : sc_sorted_by_len c ≡ₚ sc_secrets c;
  ck_order : StronglySorted (fun a b => (len b <=? len a)%Z = true) (sc_sorted_by_len c);
}.

Lemma container_new_ok : container_ok SecretContainer_new.
Proof. constructor; simpl; [done|by apply NoDup_nil_2|by apply Forall_nil|done|constructor]. Qed.

Lemma resort_order secrets :
  StronglySorted (fun a b => (len b <=? len a)%Z = true)
    (sc_sorted_by_len (SecretContainer_resort secrets)).
Proof.
  apply sort_by_sorted; [intros x y; rewrite !Z.leb_le; lia|].
  intros x y z. rewrite !Z.leb_le. lia.
Qed.

(** Adding a secret keeps the container's promises, keeps the secrets it had,
    and makes the new one searched for; a refused secret is empty, too long or one
    too many. *)
Theorem container_add_exact c x :
  container_ok c ->
  match SecretContainer_add x c with
  | Ok c' => container_ok c' /\ (forall y, y ∈ sc_sorted_by_len c' <-> y = x \/ y ∈ sc_sorted_by_len c)
  | Err RDE_EmptyConfiguredSecret => x = ""
  | Err (RDE_ConfiguredSecretTooLong n m) =>
      n = len x /\ m = MAX_CONFIGURED_SECRET_LENGTH /\ (m < n)%Z
  | Err (RDE_TooManyConfiguredSecrets n m) =>
      n = (m + 1)%Z /\ m = Z.of_nat (length (sc_secrets c)) /\ m = MAX_CONFIGURED_SECRETS
  | Err _ => False
  end.
Proof.
  intros [Hcount Hnd Hb Hsame Hord]. unfold SecretContainer_add.
  destruct (is_empty x) eqn:Ee; [by apply is_empty_true|]. apply is_empty_false in Ee.
  destruct (Z.ltb_spec MAX_CONFIGURED_SECRET_LENGTH (len x)); [done|].
  destruct (Z.leb_spec MAX_CONFIGURED_SECRETS (Z.of_nat (length (sc_secrets c)))).
  { split_and!; lia. }
  assert (Hx : (0 < len x)%Z).
  { pose proof (len_nonneg x). destruct (decide (len x = 0%Z)) as [Hz|]; [by apply len_zero in Hz|lia]. }
  destruct (existsb (String.eqb x) (sc_secrets c)) eqn:Ex.
  - apply existsb_exists in Ex as (y & Hy & ->%String.eqb_eq). apply list_elem_of_In in Hy.
    split; [constructor; simpl; [lia|done|done|apply sort_by_perm|apply resort_order]|].
    intros z. simpl. rewrite elem_of_sort_by, Hsame. naive_solver.
  - assert (Hnew : x ∉ sc_secrets c).
    { intros Hin%list_elem_of_In. apply not_true_iff_false in Ex. apply Ex, existsb_exists.
      exists x. split; [done|by apply String.eqb_refl]. }
    split; [constructor; simpl|].
    + rewrite length_app. simpl. lia.
    + apply NoDup_app. split_and!; [done| |apply NoDup_singleton]. by intros y Hy ->%list_elem_of_singleton.
    + apply Forall_app. split; [done|]. by apply Forall_singleton.
    + apply sort_by_perm.
    + apply resort_order.
    + intros z. simpl. rewrite elem_of_sort_by, elem_of_app, list_elem_of_singleton, Hsame. naive_solver.
Qed.

(** ** A concrete pattern library *)

(** It knows one pattern, and finds its first occurrence. *)
#[export] Instance aws_only : RegexLib :=
  {| regex_find_iter pattern input :=
       if String.eqb pattern AWS_PATTERN then
         match str_find "AKIA" input with Some i => [(i, i + 4)] | None => [] end
       else [] |}.

#[export] Instance aws_only_laws : RegexLaws.
Proof.
  constructor. intros pattern input a b Hu. simpl.
  destruct (String.eqb pattern AWS_PATTERN); [|by intros ?%not_elem_of_nil].
  destruct (str_find "AKIA" input) as [i|] eqn:Ef; [|by intros ?%not_elem_of_nil].
  intros [= -> ->]%list_elem_of_singleton. apply str_find_Some in Ef as [Ho _].
  split; [lia|]. apply (occurs_boundaries "AKIA"); [done| |done|done]. by apply utf8_spec.
Qed.

(** Scores are lengths. *)
#[export] Instance length_scores : F64 :=
  {| f64 := nat; f64_zero := 0; f64_4_5 := 4; f64_of n := n; f64_add := Nat.add; f64_mul x _ := x;
     f64_div x _ := x; f64_neg x := x; f64_log2 x := x; f64_ge x y := y <=? x |}.

Definition rd_add (x : string) (c : SecretContainer) : SecretContainer :=
  match SecretContainer_add x c with Ok c' => c' | Err _ => c end.

(** Two overlapping secrets, and one that starts with an accented letter. *)
Definition rd_secrets : SecretContainer := rd_add "cdef" (rd_add "abcd" SecretContainer_new).
Definition rd_accent : string := String (byte_of 195) (String (byte_of 169) "t").

Definition rd_redactor (secrets : SecretContainer) : CompositeRedactor :=
  CompositeRedactorBuilder_build
    {| cb_include_bearer := true; cb_include_jwt := true; cb_include_pem := true;
       cb_include_assignments := true; cb_include_github := true; cb_include_aws := true;
       cb_exact_secrets := Some secrets; cb_entropy := false; cb_entropy_min_length := 20;
       cb_entropy_max_length := 256; cb_entropy_threshold := 4 |}.

Definition rd_input : string := "x abcdef y AKIA z".
Definition rd_output : RedactionResult :=
  {| rr_redacted := "x [REDACTED:configured_secret] y [REDACTED:aws_key_id] z"; rr_count := 2;
     rr_categories := [AwsKeyId; ConfiguredSecret]; rr_changed := true |}.

Lemma rd_run : CompositeRedactor_redact_text (rd_redactor rd_secrets) rd_input = Ok rd_output.
Proof. vm_compute. reflexivity. Defined.

Lemma rd_input_utf8 : Utf8 rd_input.
Proof. by apply utf8_spec. Defined.

Lemma rd_secrets_ok : Forall secret_ok (configured (rd_redactor rd_secrets)).
Proof.
  repeat (apply Forall_cons; split; [split; [by apply utf8_spec|done]|]). by apply Forall_nil.
Defined.

(** ** Witnesses *)

Lemma redaction_exact_witness :
  exists spans, rr_redacted rd_output = splice rd_input 0 spans /\ length spans = 2.
Proof.
  destruct (redaction_exact (rd_redactor rd_secrets) rd_input rd_output rd_input_utf8 rd_secrets_ok rd_run)
    as (ms & spans & _ & _ & Hs & Hc). exists spans. split; [exact Hs|symmetry; exact Hc].
Defined.

Lemma configured_secrets_removed_witness :
  exists spans, rr_redacted rd_output = splice rd_input 0 spans /\
    Forall (fun piece => contains "cdef" piece = false) (kept rd_input 0 spans).
Proof.
  apply (configured_secrets_removed (rd_redactor rd_secrets) rd_input rd_output "cdef" rd_input_utf8
    rd_secrets_ok rd_run).
  vm_compute. right. left.
Defined.

Definition rd_cut : CompositeRedactor := rd_redactor (rd_add rd_accent SecretContainer_new).

Lemma redaction_panics_exactly_witness : CompositeRedactor_redact_text rd_cut rd_accent = Err RF_Panic.
Proof.
  apply (redaction_panics_exactly rd_cut rd_accent).
  - by apply utf8_spec.
  - apply Forall_singleton. split; [by apply utf8_spec|done].
  - by vm_compute.
  - exists rd_accent, 0. split; [vm_compute; left|].
    split; [vm_compute; reflexivity|]. split; [apply Nat.le_0_l|vm_compute; reflexivity].
Defined.

Lemma container_add_exact_witness :
  container_ok (rd_add "abcd" SecretContainer_new).
Proof. exact (proj1 (container_add_exact SecretContainer_new "abcd" container_new_ok)). Defined.
