(* ===== verification/PolicyModel.v ===== *)
(** * The policy model (crates/kavach-policy/src/model.rs)

    Rules, conditions and policies with their load-time validation.  The
    [globset] crate is another crate's code: [GlobLib] is its interface, and
    [GlobLaws] states the one documented fact the matching theorems use. *)

From stdpp Require Import base tactics list strings.
From Stdlib Require Import ZArith Lia Ascii.
From S2P Require Import Prelude RustStr BTree CoreError CoreIds CorePath CoreResource CoreDecision.

Open Scope Z_scope.

(** ** The glob library *)

Class GlobLib := {
  Glob : Type;
  GlobSet : Type;
  (** [globset::Glob::new(pat)] succeeds. *)
  glob_new_ok : string -> bool;
  (** [GlobBuilder::new(pat)] with the engine's options, [build()]. *)
  glob_build : string -> option Glob;
  (** [GlobSetBuilder] with the globs added in order, [build()]. *)
  globset_build : list Glob -> option GlobSet;
  (** [GlobSet::is_match]. *)
  is_match : GlobSet -> string -> bool;
  (** [GlobMatcher::is_match] of a single glob. *)
  glob_matches : Glob -> string -> bool;
}.

(** "A GlobSet matches a path when any of its globs does." *)
Class GlobLaws `{GlobLib} := {
  globset_build_match gs s path :
    globset_build gs = Some s ->
    is_match s path = existsb (fun g => glob_matches g path) gs;
}.

(** ** Limits *)

Definition MAX_PATH_GLOB_PATTERNS : Z := 32.
Definition MAX_PATH_GLOB_LENGTH : Z := 1024.
Definition MAX_EXECUTABLE_PATTERNS : Z := 64.
Definition MAX_EXECUTABLE_LENGTH : Z := 256.
Definition MAX_NETWORK_HOST_PATTERNS : Z := 32.
Definition MAX_NETWORK_SCHEME_PATTERNS : Z := 16.
Definition MAX_SECRET_IDENTIFIER_PATTERNS : Z := 32.
Definition MAX_TOOL_IDENTIFIER_PATTERNS : Z := 32.
Definition MAX_IDENTIFIER_LENGTH : Z := 256.
Definition MAX_NETWORK_PORT_PATTERNS : Z := 32.
Definition MAX_ARGUMENT_PATTERN_COUNT : Z := 64.
Definition MAX_ARGUMENT_PATTERN_LENGTH : Z := 256.

(** ** Effects *)

(** [Effect]. *)
Inductive Effect := E_Allow | E_Deny | E_RequireApproval.

#[export] Instance Effect_eq_dec : EqDecision Effect.
Proof. solve_decision. Defined.

(** [Effect::to_decision_effect]. *)
Definition Effect_to_decision_effect (e : Effect) : DecisionEffect :=
  match e with
  | E_Allow => Allow
  | E_Deny => Deny
  | E_RequireApproval => RequireApproval
  end.

(** [DefaultEffect]: there is no [Allow]. *)
Inductive DefaultEffect := D_Deny | D_RequireApproval.

(** [DefaultEffect::reason_code]. *)
Definition DefaultEffect_reason_code (d : DefaultEffect) : ReasonCode :=
  match d with
  | D_Deny => KavachDenyDefault
  | D_RequireApproval => KavachApprovalRequired
  end.

(** [DefaultEffect::to_decision_effect]. *)
Definition DefaultEffect_to_decision_effect (d : DefaultEffect) : DecisionEffect :=
  match d with
  | D_Deny => Deny
  | D_RequireApproval => RequireApproval
  end.

(** ** Errors *)

(** [PolicyValidationError]. *)
Inductive PolicyValidationError :=
| DuplicateRuleId (id : RuleId)
| EmptyConditions (id : RuleId)
| EmptyPathGlobs (id : RuleId)
| TooManyPathGlobs (id : RuleId) (count : Z)
| EmptyGlobPattern (id : RuleId) (index : Z)
| GlobPatternTooLong (id : RuleId) (index length : Z)
| DuplicateGlobPattern (id : RuleId)
| InvalidGlobPattern (id : RuleId) (index : Z)
| GlobCompileConflict (id : RuleId)
| EmptyExecutables (id : RuleId)
| TooManyExecutables (id : RuleId) (count : Z)
| EmptyExecutable (id : RuleId) (index : Z)
| ExecutableTooLong (id : RuleId) (index length : Z)
| DuplicateExecutable (id : RuleId)
| InvalidExecutable (id : RuleId) (index : Z)
| EmptyNetworkHosts (id : RuleId)
| TooManyNetworkHosts (id : RuleId) (count : Z)
| EmptyNetworkHost (id : RuleId) (index : Z)
| NetworkHostTooLong (id : RuleId) (index length : Z)
| DuplicateNetworkHost (id : RuleId)
| InvalidNetworkHost (id : RuleId) (index : Z)
| EmptyNetworkSchemes (id : RuleId)
| TooManyNetworkSchemes (id : RuleId) (count : Z)
| EmptyNetworkScheme (id : RuleId) (index : Z)
| NetworkSchemeTooLong (id : RuleId) (index length : Z)
| DuplicateNetworkScheme (id : RuleId)
| InvalidNetworkScheme (id : RuleId) (index : Z)
| EmptySecretIdentifiers (id : RuleId)
| TooManySecretIdentifiers (id : RuleId) (count : Z)
| EmptySecretIdentifier (id : RuleId) (index : Z)
| SecretIdentifierTooLong (id : RuleId) (index length : Z)
| DuplicateSecretIdentifier (id : RuleId)
| InvalidSecretIdentifier (id : RuleId) (index : Z)
| EmptyToolIdentifiers (id : RuleId)
| TooManyToolIdentifiers (id : RuleId) (count : Z)
| EmptyToolIdentifier (id : RuleId) (index : Z)
| ToolIdentifierTooLong (id : RuleId) (index length : Z)
| DuplicateToolIdentifier (id : RuleId)
| InvalidToolIdentifier (id : RuleId) (index : Z)
| EmptyNetworkPorts (id : RuleId)
| TooManyNetworkPorts (id : RuleId) (count : Z)
| DuplicateNetworkPort (id : RuleId)
| EmptyArgumentRules (id : RuleId)
| TooManyArgumentPatterns (id : RuleId) (which : string) (count : Z)
| EmptyArgumentPattern (id : RuleId) (which : string) (index : Z)
| ArgumentPatternTooLong (id : RuleId) (which : string) (index length : Z)
| DuplicateArgumentPattern (id : RuleId) (which : string)
| InvalidArgumentPattern (id : RuleId) (which : string) (index : Z).

(** The [#[error]] texts of [PolicyValidationError]. *)
Definition PolicyValidationError_display (e : PolicyValidationError) : string :=
  match e with
  | DuplicateRuleId r =>
      "duplicate rule id: " +:+ id_str r
  | EmptyConditions r =>
      "rule " +:+ id_str r +:+ " has no active conditions; empty conditions are not allowed"
  | EmptyPathGlobs r =>
      "rule " +:+ id_str r
        +:+ ": path_globs present but empty; either set patterns or omit path_globs"
  | TooManyPathGlobs r a =>
      "rule " +:+ id_str r +:+ ": too many path_glob patterns (" +:+ dec a +:+ "); maximum is "
        +:+ dec MAX_PATH_GLOB_PATTERNS
  | EmptyGlobPattern r a =>
      "rule " +:+ id_str r +:+ ": empty glob pattern at index " +:+ dec a
  | GlobPatternTooLong r a b =>
      "rule " +:+ id_str r +:+ ": glob pattern at index " +:+ dec a +:+ " is " +:+ dec b
        +:+ " bytes; maximum is " +:+ dec MAX_PATH_GLOB_LENGTH
  | DuplicateGlobPattern r =>
      "rule " +:+ id_str r +:+ ": duplicate glob pattern"
  | InvalidGlobPattern r a =>
      "rule " +:+ id_str r +:+ ": invalid glob pattern at index " +:+ dec a
  | GlobCompileConflict r =>
      "rule " +:+ id_str r +:+ ": glob patterns cannot be compiled into a single matcher"
  | EmptyExecutables r =>
      "rule " +:+ id_str r +:+ ": executables present but empty; either list executables or omit"
  | TooManyExecutables r a =>
      "rule " +:+ id_str r +:+ ": too many executables (" +:+ dec a +:+ "); maximum is "
        +:+ dec MAX_EXECUTABLE_PATTERNS
  | EmptyExecutable r a =>
      "rule " +:+ id_str r +:+ ": empty executable at index " +:+ dec a
  | ExecutableTooLong r a b =>
      "rule " +:+ id_str r +:+ ": executable at index " +:+ dec a +:+ " is " +:+ dec b
        +:+ " bytes; maximum is " +:+ dec MAX_EXECUTABLE_LENGTH
  | DuplicateExecutable r =>
      "rule " +:+ id_str r +:+ ": duplicate executable"
  | InvalidExecutable r a =>
      "rule " +:+ id_str r +:+ ": invalid executable at index " +:+ dec a
  | EmptyNetworkHosts r =>
      "rule " +:+ id_str r +:+ ": network_hosts present but empty; either list hosts or omit"
  | TooManyNetworkHosts r a =>
      "rule " +:+ id_str r +:+ ": too many network hosts (" +:+ dec a +:+ "); maximum is "
        +:+ dec MAX_NETWORK_HOST_PATTERNS
  | EmptyNetworkHost r a =>
      "rule " +:+ id_str r +:+ ": empty network host at index " +:+ dec a
  | NetworkHostTooLong r a b =>
      "rule " +:+ id_str r +:+ ": network host at index " +:+ dec a +:+ " is " +:+ dec b
        +:+ " bytes; maximum is " +:+ dec MAX_IDENTIFIER_LENGTH
  | DuplicateNetworkHost r =>
      "rule " +:+ id_str r +:+ ": duplicate network host"
  | InvalidNetworkHost r a =>
      "rule " +:+ id_str r +:+ ": invalid network host at index " +:+ dec a
  | EmptyNetworkSchemes r =>
      "rule " +:+ id_str r +:+ ": network_schemes present but empty; either list schemes or omit"
  | TooManyNetworkSchemes r a =>
      "rule " +:+ id_str r +:+ ": too many network schemes (" +:+ dec a +:+ "); maximum is "
        +:+ dec MAX_NETWORK_SCHEME_PATTERNS
  | EmptyNetworkScheme r a =>
      "rule " +:+ id_str r +:+ ": empty network scheme at index " +:+ dec a
  | NetworkSchemeTooLong r a b =>
      "rule " +:+ id_str r +:+ ": network scheme at index " +:+ dec a +:+ " is " +:+ dec b
        +:+ " bytes; maximum is " +:+ dec MAX_IDENTIFIER_LENGTH
  | DuplicateNetworkScheme r =>
      "rule " +:+ id_str r +:+ ": duplicate network scheme"
  | InvalidNetworkScheme r a =>
      "rule " +:+ id_str r +:+ ": invalid network scheme at index " +:+ dec a
  | EmptySecretIdentifiers r =>
      "rule " +:+ id_str r
        +:+ ": secret_identifiers present but empty; either list identifiers or omit"
  | TooManySecretIdentifiers r a =>
      "rule " +:+ id_str r +:+ ": too many secret identifiers (" +:+ dec a +:+ "); maximum is "
        +:+ dec MAX_SECRET_IDENTIFIER_PATTERNS
  | EmptySecretIdentifier r a =>
      "rule " +:+ id_str r +:+ ": empty secret identifier at index " +:+ dec a
  | SecretIdentifierTooLong r a b =>
      "rule " +:+ id_str r +:+ ": secret identifier at index " +:+ dec a +:+ " is " +:+ dec b
        +:+ " bytes; maximum is " +:+ dec MAX_IDENTIFIER_LENGTH
  | DuplicateSecretIdentifier r =>
      "rule " +:+ id_str r +:+ ": duplicate secret identifier"
  | InvalidSecretIdentifier r a =>
      "rule " +:+ id_str r +:+ ": invalid secret identifier at index " +:+ dec a
  | EmptyToolIdentifiers r =>
      "rule " +:+ id_str r
        +:+ ": tool_identifiers present but empty; either list identifiers or omit"
  | TooManyToolIdentifiers r a =>
      "rule " +:+ id_str r +:+ ": too many tool identifiers (" +:+ dec a +:+ "); maximum is "
        +:+ dec MAX_TOOL_IDENTIFIER_PATTERNS
  | EmptyToolIdentifier r a =>
      "rule " +:+ id_str r +:+ ": empty tool identifier at index " +:+ dec a
  | ToolIdentifierTooLong r a b =>
      "rule " +:+ id_str r +:+ ": tool identifier at index " +:+ dec a +:+ " is " +:+ dec b
        +:+ " bytes; maximum is " +:+ dec MAX_IDENTIFIER_LENGTH
  | DuplicateToolIdentifier r =>
      "rule " +:+ id_str r +:+ ": duplicate tool identifier"
  | InvalidToolIdentifier r a =>
      "rule " +:+ id_str r +:+ ": invalid tool identifier at index " +:+ dec a
  | EmptyNetworkPorts r =>
      "rule " +:+ id_str r +:+ ": network_ports present but empty; either list ports or omit"
  | TooManyNetworkPorts r a =>
      "rule " +:+ id_str r +:+ ": too many network ports (" +:+ dec a +:+ "); maximum is "
        +:+ dec MAX_NETWORK_PORT_PATTERNS
  | DuplicateNetworkPort r =>
      "rule " +:+ id_str r +:+ ": duplicate network port"
  | EmptyArgumentRules r =>
      "rule " +:+ id_str r
        +:+ ": argument_rules present but empty; either list patterns or omit argument_rules"
  | TooManyArgumentPatterns r a b =>
      "rule " +:+ id_str r +:+ ": too many argument patterns in " +:+ a +:+ " (" +:+ dec b
        +:+ "); maximum is " +:+ dec MAX_ARGUMENT_PATTERN_COUNT
  | EmptyArgumentPattern r a b =>
      "rule " +:+ id_str r +:+ ": empty argument pattern in " +:+ a +:+ " at index " +:+ dec b
  | ArgumentPatternTooLong r a b c =>
      "rule " +:+ id_str r +:+ ": argument pattern in " +:+ a +:+ " at index " +:+ dec b
        +:+ " is " +:+ dec c +:+ " bytes; maximum is " +:+ dec MAX_ARGUMENT_PATTERN_LENGTH
  | DuplicateArgumentPattern r a =>
      "rule " +:+ id_str r +:+ ": duplicate argument pattern in " +:+ a
  | InvalidArgumentPattern r a b =>
      "rule " +:+ id_str r +:+ ": invalid argument pattern in " +:+ a +:+ " at index " +:+ dec b
  end.

(** ** Rules *)

Definition list_is_empty {A} (l : list A) : bool := match l with [] => true | _ => false end.
Definition is_none {A} (o : option A) : bool := match o with None => true | _ => false end.

(** [ArgumentRules]. *)
Record ArgumentRules := {
  deny_if_matches : option (list string);
  require_match : option (list string);
}.

(** [ArgumentRules::is_empty]. *)
Definition ArgumentRules_is_empty (r : ArgumentRules) : bool :=
  match deny_if_matches r with Some v => list_is_empty v | None => true end
  && match require_match r with Some v => list_is_empty v | None => true end.

(** [RuleConditions]. *)
Record RuleConditions := {
  operations : list string;
  resource_kinds : list ResourceKind;
  agent_ids : list string;
  min_trust_level : option TrustLevel;
  required_capabilities : list string;
  intent_prefix : option string;
  path_globs : option (list string);
  executables : option (list string);
  network_hosts : option (list string);
  network_schemes : option (list string);
  secret_identifiers : option (list string);
  tool_identifiers : option (list string);
  network_ports : option (list Z);
  argument_rules : option ArgumentRules;
}.

(** [RuleConditions::default()]. *)
Definition RuleConditions_default : RuleConditions :=
  {| operations := []; resource_kinds := []; agent_ids := []; min_trust_level := None;
     required_capabilities := []; intent_prefix := None; path_globs := None;
     executables := None; network_hosts := None; network_schemes := None;
     secret_identifiers := None; tool_identifiers := None; network_ports := None;
     argument_rules := None |}.

(** [RuleConditions::is_empty]. *)
Definition RuleConditions_is_empty (c : RuleConditions) : bool :=
  list_is_empty (operations c)
  && list_is_empty (resource_kinds c)
  && list_is_empty (agent_ids c)
  && is_none (min_trust_level c)
  && list_is_empty (required_capabilities c)
  && is_none (intent_prefix c)
  && is_none (path_globs c)
  && is_none (executables c)
  && is_none (network_hosts c)
  && is_none (network_schemes c)
  && is_none (secret_identifiers c)
  && is_none (tool_identifiers c)
  && is_none (network_ports c)
  && match argument_rules c with Some r => ArgumentRules_is_empty r | None => true end.

(** [pat.contains('\u{0}') || pat.bytes().any(|b| b.is_ascii_control() && b != b'\t')]. *)
Definition has_bad_pattern_byte (pat : string) : bool :=
  any_byte (fun b => byte_val b =? 0) pat
  || any_byte (fun b => is_ascii_control b && negb (byte_val b =? 9)) pat.

(** The seven list validators share one body; they differ in the limits, the
    errors they return and in the glob-syntax check of the pattern lists. *)
Record ListErrors := {
  le_empty_list : PolicyValidationError;
  le_too_many : Z -> PolicyValidationError;
  le_empty_item : Z -> PolicyValidationError;
  le_too_long : Z -> Z -> PolicyValidationError;
  le_invalid : Z -> PolicyValidationError;
  le_duplicate : PolicyValidationError;
}.

(** The loop over [iter().enumerate()] with its [seen] set. *)
Fixpoint validate_items (errs : ListErrors) (max_len : Z) (syntax_ok : string -> bool)
    (i : Z) (seen : list string) (items : list string) : result PolicyValidationError unit :=
  match items with
  | [] => Ok tt
  | item :: rest =>
      if is_empty item then Err (le_empty_item errs i)
      else if max_len <? len item then Err (le_too_long errs i (len item))
      else if has_bad_pattern_byte item then Err (le_invalid errs i)
      else if bset_mem item seen then Err (le_duplicate errs)
      else if negb (syntax_ok item) then Err (le_invalid errs i)
      else validate_items errs max_len syntax_ok (i + 1) (bset_add item seen) rest
  end.

Definition validate_list (errs : ListErrors) (max_count max_len : Z)
    (syntax_ok : string -> bool) (o : option (list string)) : result PolicyValidationError unit :=
  match o with
  | None => Ok tt
  | Some items =>
      if list_is_empty items then Err (le_empty_list errs)
      else if max_count <? Z.of_nat (length items) then
        Err (le_too_many errs (Z.of_nat (length items)))
      else validate_items errs max_len syntax_ok 0 [] items
  end.

(** [RuleConditions::validate_path_globs]. *)
Definition validate_path_globs `{GlobLib} (c : RuleConditions) (rule_id : RuleId)
  : result PolicyValidationError unit :=
  validate_list
    {| le_empty_list := EmptyPathGlobs rule_id;
       le_too_many := TooManyPathGlobs rule_id;
       le_empty_item := EmptyGlobPattern rule_id;
       le_too_long := GlobPatternTooLong rule_id;
       le_invalid := InvalidGlobPattern rule_id;
       le_duplicate := DuplicateGlobPattern rule_id |}
    MAX_PATH_GLOB_PATTERNS MAX_PATH_GLOB_LENGTH glob_new_ok (path_globs c).

(** [RuleConditions::validate_executables]. *)
Definition validate_executables (c : RuleConditions) (rule_id : RuleId)
  : result PolicyValidationError unit :=
  validate_list
    {| le_empty_list := EmptyExecutables rule_id;
       le_too_many := TooManyExecutables rule_id;
       le_empty_item := EmptyExecutable rule_id;
       le_too_long := ExecutableTooLong rule_id;
       le_invalid := InvalidExecutable rule_id;
       le_duplicate := DuplicateExecutable rule_id |}
    MAX_EXECUTABLE_PATTERNS MAX_EXECUTABLE_LENGTH (fun _ => true) (executables c).

(** [RuleConditions::validate_network_hosts]. *)
Definition validate_network_hosts (c : RuleConditions) (rule_id : RuleId)
  : result PolicyValidationError unit :=
  validate_list
    {| le_empty_list := EmptyNetworkHosts rule_id;
       le_too_many := TooManyNetworkHosts rule_id;
       le_empty_item := EmptyNetworkHost rule_id;
       le_too_long := NetworkHostTooLong rule_id;
       le_invalid := InvalidNetworkHost rule_id;
       le_duplicate := DuplicateNetworkHost rule_id |}
    MAX_NETWORK_HOST_PATTERNS MAX_IDENTIFIER_LENGTH (fun _ => true) (network_hosts c).

(** [RuleConditions::validate_network_schemes]. *)
Definition validate_network_schemes (c : RuleConditions) (rule_id : RuleId)
  : result PolicyValidationError unit :=
  validate_list
    {| le_empty_list := EmptyNetworkSchemes rule_id;
       le_too_many := TooManyNetworkSchemes rule_id;
       le_empty_item := EmptyNetworkScheme rule_id;
       le_too_long := NetworkSchemeTooLong rule_id;
       le_invalid := InvalidNetworkScheme rule_id;
       le_duplicate := DuplicateNetworkScheme rule_id |}
    MAX_NETWORK_SCHEME_PATTERNS MAX_IDENTIFIER_LENGTH (fun _ => true) (network_schemes c).

(** [RuleConditions::validate_secret_identifiers]. *)
Definition validate_secret_identifiers (c : RuleConditions) (rule_id : RuleId)
  : result PolicyValidationError unit :=
  validate_list
    {| le_empty_list := EmptySecretIdentifiers rule_id;
       le_too_many := TooManySecretIdentifiers rule_id;
       le_empty_item := EmptySecretIdentifier rule_id;
       le_too_long := SecretIdentifierTooLong rule_id;
       le_invalid := InvalidSecretIdentifier rule_id;
       le_duplicate := DuplicateSecretIdentifier rule_id |}
    MAX_SECRET_IDENTIFIER_PATTERNS MAX_IDENTIFIER_LENGTH (fun _ => true) (secret_identifiers c).

(** [RuleConditions::validate_tool_identifiers]. *)
Definition validate_tool_identifiers (c : RuleConditions) (rule_id : RuleId)
  : result PolicyValidationError unit :=
  validate_list
    {| le_empty_list := EmptyToolIdentifiers rule_id;
       le_too_many := TooManyToolIdentifiers rule_id;
       le_empty_item := EmptyToolIdentifier rule_id;
       le_too_long := ToolIdentifierTooLong rule_id;
       le_invalid := InvalidToolIdentifier rule_id;
       le_duplicate := DuplicateToolIdentifier rule_id |}
    MAX_TOOL_IDENTIFIER_PATTERNS MAX_IDENTIFIER_LENGTH (fun _ => true) (tool_identifiers c).

(** [RuleConditions::validate_argument_pattern_list]. *)
Definition validate_argument_pattern_list `{GlobLib} (rule_id : RuleId) (which : string)
    (patterns : option (list string)) : result PolicyValidationError unit :=
  validate_list
    {| le_empty_list := EmptyArgumentRules rule_id;
       le_too_many := TooManyArgumentPatterns rule_id which;
       le_empty_item := EmptyArgumentPattern rule_id which;
       le_too_long := ArgumentPatternTooLong rule_id which;
       le_invalid := InvalidArgumentPattern rule_id which;
       le_duplicate := DuplicateArgumentPattern rule_id which |}
    MAX_ARGUMENT_PATTERN_COUNT MAX_ARGUMENT_PATTERN_LENGTH glob_new_ok patterns.

(** [RuleConditions::validate_argument_rules]. *)
Definition validate_argument_rules `{GlobLib} (c : RuleConditions) (rule_id : RuleId)
  : result PolicyValidationError unit :=
  match argument_rules c with
  | None => Ok tt
  | Some rules =>
      if ArgumentRules_is_empty rules then Err (EmptyArgumentRules rule_id)
      else
        let? _ := validate_argument_pattern_list rule_id "deny_if_matches"
                    (deny_if_matches rules) in
        validate_argument_pattern_list rule_id "require_match" (require_match rules)
  end.

(** The loop of [validate_network_ports]; the set of [u16]s is kept as a list. *)
Fixpoint validate_ports (rule_id : RuleId) (seen : list Z) (ports : list Z)
  : result PolicyValidationError unit :=
  match ports with
  | [] => Ok tt
  | port :: rest =>
      if existsb (Z.eqb port) seen then Err (DuplicateNetworkPort rule_id)
      else validate_ports rule_id (port :: seen) rest
  end.

(** [RuleConditions::validate_network_ports]. *)
Definition validate_network_ports (c : RuleConditions) (rule_id : RuleId)
  : result PolicyValidationError unit :=
  match network_ports c with
  | None => Ok tt
  | Some ports =>
      if list_is_empty ports then Err (EmptyNetworkPorts rule_id)
      else if MAX_NETWORK_PORT_PATTERNS <? Z.of_nat (length ports) then
        Err (TooManyNetworkPorts rule_id (Z.of_nat (length ports)))
      else validate_ports rule_id [] ports
  end.

(** [is_relative_glob_pattern]. *)
Definition is_relative_glob_pattern (pat : string) : bool :=
  if starts_with "/" pat || starts_with "\" pat then false
  else if match pat with
          | String b0 (String b1 _) => is_ascii_alphabetic b0 && Ascii.eqb b1 ":"
          | _ => false
          end then false
  else if starts_with "\\?\" (to_ascii_lowercase pat) then false
  else true.

(** [PolicyWarning]. *)
Record PolicyWarning := {
  pw_rule_id : RuleId;
  pw_message : string;
}.

(** [PolicyWarning::relative_path_pattern]. *)
Definition PolicyWarning_relative_path_pattern (rule_id : RuleId) (pattern : string)
  : PolicyWarning :=
  {| pw_rule_id := rule_id;
     pw_message := "relative path pattern '" +:+ pattern +:+
       "' has no guaranteed working_directory context and may not match absolute resource paths as expected" |}.

(** [Rule]. *)
Record Rule := {
  rule_id : RuleId;
  rule_description : string;
  rule_effect : Effect;
  rule_conditions : RuleConditions;
}.

(** [Policy]. *)
Record Policy := {
  policy_id : PolicyId;
  policy_name : string;
  policy_description : string;
  policy_default_effect : DefaultEffect;
  policy_rules : list Rule;
}.

(** The checks [Policy::validate] makes on one rule. *)
Definition validate_rule `{GlobLib} (rule : Rule) : result PolicyValidationError unit :=
  let c := rule_conditions rule in
  let id := rule_id rule in
  if RuleConditions_is_empty c then Err (EmptyConditions id)
  else
    let? _ := validate_path_globs c id in
    let? _ := validate_executables c id in
    let? _ := validate_network_hosts c id in
    let? _ := validate_network_schemes c id in
    let? _ := validate_secret_identifiers c id in
    let? _ := validate_tool_identifiers c id in
    let? _ := validate_network_ports c id in
    validate_argument_rules c id.

(** The loop of [Policy::validate], with its [seen] set of rule ids. *)
Fixpoint validate_rules `{GlobLib} (seen : list RuleId) (rules : list Rule)
  : result PolicyValidationError unit :=
  match rules with
  | [] => Ok tt
  | rule :: rest =>
      let? _ := validate_rule rule in
      if bset_mem (rule_id rule) seen then Err (DuplicateRuleId (rule_id rule))
      else validate_rules (bset_add (rule_id rule) seen) rest
  end.

(** [Policy::validate]. *)
Definition Policy_validate `{GlobLib} (p : Policy) : result PolicyValidationError unit :=
  validate_rules [] (policy_rules p).

(** The warnings of one rule. *)
Definition rule_warnings (rule : Rule) : list PolicyWarning :=
  match path_globs (rule_conditions rule) with
  | None => []
  | Some globs =>
      map (PolicyWarning_relative_path_pattern (rule_id rule))
          (List.filter is_relative_glob_pattern globs)
  end.

(** [Policy::warnings]. *)
Definition Policy_warnings (p : Policy) : list PolicyWarning :=
  flat_map rule_warnings (policy_rules p).

(** [Policy::validate_with_warnings]. *)
Definition Policy_validate_with_warnings `{GlobLib} (p : Policy)
  : result PolicyValidationError (list PolicyWarning) :=
  let? _ := Policy_validate p in Ok (Policy_warnings p).

(** [trust_level_rank]. *)
Definition trust_level_rank (level : TrustLevel) : Z :=
  match level with
  | Untrusted => 0
  | Restricted => 1
  | Standard => 2
  | Trusted => 3
  | System => 4
  end.

(** ** What validation accepts *)

(** An item of a validated pattern list. *)
Definition item_ok (max_len : Z) (syntax_ok : string -> bool) (item : string) : Prop :=
  item <> "" /\ len item <= max_len /\ has_bad_pattern_byte item = false /\
  syntax_ok item = true.

(** A validated pattern list: absent, or a non-empty bounded list of distinct
    items. *)
Definition pattern_list_ok (max_count max_len : Z) (syntax_ok : string -> bool)
    (o : option (list string)) : Prop :=
  forall items, o = Some items ->
    items <> [] /\ Z.of_nat (length items) <= max_count /\
    Forall (item_ok max_len syntax_ok) items /\ NoDup items.

Lemma list_is_empty_true {A} (l : list A) : list_is_empty l = true <-> l = [].
Proof. by destruct l. Qed.

Lemma list_is_empty_false {A} (l : list A) : list_is_empty l = false <-> l <> [].
Proof. by destruct l. Qed.

Lemma bset_mem_false {K} `{OrdKey K} (x : K) s : bset_mem x s = false <-> x ∉ s.
Proof. rewrite <- bset_mem_spec. by destruct (bset_mem x s). Qed.

Lemma validate_items_ok errs max_len syntax_ok i seen items :
  validate_items errs max_len syntax_ok i seen items = Ok tt <->
  Forall (item_ok max_len syntax_ok) items /\ NoDup items /\
  (forall x, x ∈ items -> x ∉ seen).
Proof.
  revert i seen. induction items as [|item items IH]; intros i seen; simpl.
  { split; [|done]. intros _. split_and!; [constructor|constructor|].
    intros x Hx. by apply not_elem_of_nil in Hx. }
  rewrite Forall_cons, NoDup_cons. unfold item_ok at 1.
  destruct (is_empty item) eqn:E1; [apply is_empty_true in E1; naive_solver|].
  apply is_empty_false in E1.
  destruct (Z.ltb_spec max_len (len item)); [split; [done|lia]|].
  destruct (has_bad_pattern_byte item); [naive_solver|].
  destruct (bset_mem item seen) eqn:E2.
  { apply bset_mem_spec in E2. split; [done|]. intros (_ & _ & Hs).
    by destruct (Hs item (list_elem_of_here _ _)). }
  apply bset_mem_false in E2.
  destruct (syntax_ok item); simpl; [|naive_solver].
  rewrite IH. setoid_rewrite elem_of_bset_add. setoid_rewrite elem_of_cons. naive_solver.
Qed.

Lemma validate_list_ok errs max_count max_len syntax_ok o :
  validate_list errs max_count max_len syntax_ok o = Ok tt <->
  pattern_list_ok max_count max_len syntax_ok o.
Proof.
  unfold validate_list, pattern_list_ok. destruct o as [items|]; [|naive_solver].
  destruct (list_is_empty items) eqn:E1.
  { apply list_is_empty_true in E1. naive_solver. }
  apply list_is_empty_false in E1.
  destruct (Z.ltb_spec max_count (Z.of_nat (length items))).
  { split; [done|]. intros Hi. destruct (Hi items eq_refl). lia. }
  rewrite validate_items_ok. split; [naive_solver|].
  intros Hi. destruct (Hi items eq_refl) as (_ & _ & ? & ?). split_and!; [done..|].
  intros x _. apply not_elem_of_nil.
Qed.

Lemma existsb_eqb_false p l : existsb (Z.eqb p) l = false <-> p ∉ l.
Proof.
  induction l as [|q l IH]; simpl; [split; [intros _; apply not_elem_of_nil|done]|].
  rewrite orb_false_iff, Z.eqb_neq, IH, not_elem_of_cons. done.
Qed.

Lemma validate_ports_ok id seen ports :
  validate_ports id seen ports = Ok tt <-> NoDup ports /\ (forall p, p ∈ ports -> p ∉ seen).
Proof.
  revert seen. induction ports as [|p ports IH]; intros seen; simpl.
  { split; [|done]. intros _. split; [constructor|].
    intros x Hx. by apply not_elem_of_nil in Hx. }
  rewrite NoDup_cons. destruct (existsb _ _) eqn:E.
  - split; [done|]. intros (_ & Hs). apply not_false_iff_true in E. destruct E.
    apply existsb_eqb_false, Hs. left.
  - apply existsb_eqb_false in E. rewrite IH. setoid_rewrite elem_of_cons. naive_solver.
Qed.

Definition ports_ok (o : option (list Z)) : Prop :=
  forall ports, o = Some ports ->
    ports <> [] /\ Z.of_nat (length ports) <= MAX_NETWORK_PORT_PATTERNS /\ NoDup ports.

Lemma validate_network_ports_ok c id :
  validate_network_ports c id = Ok tt <-> ports_ok (network_ports c).
Proof.
  unfold validate_network_ports, ports_ok. destruct (network_ports c) as [ports|]; [|naive_solver].
  destruct (list_is_empty ports) eqn:E1.
  { apply list_is_empty_true in E1. naive_solver. }
  apply list_is_empty_false in E1.
  destruct (Z.ltb_spec MAX_NETWORK_PORT_PATTERNS (Z.of_nat (length ports))).
  { split; [done|]. intros Hi. destruct (Hi ports eq_refl). lia. }
  rewrite validate_ports_ok. split; [naive_solver|].
  intros Hi. destruct (Hi ports eq_refl) as (_ & _ & ?). split; [done|].
  intros x _. apply not_elem_of_nil.
Qed.

Section Validation.
Context {GL : GlobLib}.

Definition argument_rules_ok (o : option ArgumentRules) : Prop :=
  forall r, o = Some r ->
    ArgumentRules_is_empty r = false /\
    pattern_list_ok MAX_ARGUMENT_PATTERN_COUNT MAX_ARGUMENT_PATTERN_LENGTH glob_new_ok
      (deny_if_matches r) /\
    pattern_list_ok MAX_ARGUMENT_PATTERN_COUNT MAX_ARGUMENT_PATTERN_LENGTH glob_new_ok
      (require_match r).

Lemma validate_argument_rules_ok c id :
  validate_argument_rules c id = Ok tt <-> argument_rules_ok (argument_rules c).
Proof.
  unfold validate_argument_rules, argument_rules_ok, validate_argument_pattern_list.
  destruct (argument_rules c) as [r|]; [|by split].
  destruct (ArgumentRules_is_empty r) eqn:E.
  { split; [done|]. intros Hr. destruct (Hr r eq_refl). congruence. }
  rewrite result_unit_bind, !validate_list_ok. split.
  - intros ? ? [= <-]. by split.
  - intros Hr. by destruct (Hr r eq_refl).
Qed.

(** Every condition of a validated rule. *)
Record conditions_ok (c : RuleConditions) : Prop := {
  cok_nonempty : RuleConditions_is_empty c = false;
  cok_path_globs : pattern_list_ok MAX_PATH_GLOB_PATTERNS MAX_PATH_GLOB_LENGTH glob_new_ok
                     (path_globs c);
  cok_executables : pattern_list_ok MAX_EXECUTABLE_PATTERNS MAX_EXECUTABLE_LENGTH
                      (fun _ => true) (executables c);
  cok_hosts : pattern_list_ok MAX_NETWORK_HOST_PATTERNS MAX_IDENTIFIER_LENGTH
                (fun _ => true) (network_hosts c);
  cok_schemes : pattern_list_ok MAX_NETWORK_SCHEME_PATTERNS MAX_IDENTIFIER_LENGTH
                  (fun _ => true) (network_schemes c);
  cok_secrets : pattern_list_ok MAX_SECRET_IDENTIFIER_PATTERNS MAX_IDENTIFIER_LENGTH
                  (fun _ => true) (secret_identifiers c);
  cok_tools : pattern_list_ok MAX_TOOL_IDENTIFIER_PATTERNS MAX_IDENTIFIER_LENGTH
                (fun _ => true) (tool_identifiers c);
  cok_ports : ports_ok (network_ports c);
  cok_arguments : argument_rules_ok (argument_rules c);
}.

Lemma validate_rule_ok r :
  validate_rule r = Ok tt <-> conditions_ok (rule_conditions r).
Proof.
  unfold validate_rule. destruct (RuleConditions_is_empty _) eqn:E.
  { split; [done|]. intros []. congruence. }
  rewrite !result_unit_bind, validate_network_ports_ok, validate_argument_rules_ok.
  unfold validate_path_globs, validate_executables, validate_network_hosts,
    validate_network_schemes, validate_secret_identifiers, validate_tool_identifiers.
  rewrite !validate_list_ok. split.
  - intros (? & ? & ? & ? & ? & ? & ? & ?). by constructor.
  - intros []. tauto.
Qed.

Lemma validate_rules_ok seen rules :
  validate_rules seen rules = Ok tt <->
  Forall (fun r => conditions_ok (rule_conditions r)) rules /\
  NoDup (map rule_id rules) /\ (forall x, x ∈ map rule_id rules -> x ∉ seen).
Proof.
  revert seen. induction rules as [|r rules IH]; intros seen; simpl.
  { split; [|done]. intros _. split_and!; [constructor|constructor|].
    intros x Hx. by apply not_elem_of_nil in Hx. }
  rewrite result_unit_bind, validate_rule_ok, Forall_cons, NoDup_cons.
  destruct (bset_mem (rule_id r) seen) eqn:E2.
  { apply bset_mem_spec in E2. split; [naive_solver|]. intros (_ & _ & Hs).
    by destruct (Hs (rule_id r) (list_elem_of_here _ _)). }
  apply bset_mem_false in E2. rewrite IH.
  setoid_rewrite elem_of_bset_add. setoid_rewrite elem_of_cons. naive_solver.
Qed.

(** A policy that passed validation. *)
Definition policy_ok (p : Policy) : Prop :=
  Forall (fun r => conditions_ok (rule_conditions r)) (policy_rules p) /\
  NoDup (map rule_id (policy_rules p)).

Lemma Policy_validate_ok p : Policy_validate p = Ok tt <-> policy_ok p.
Proof.
  unfold Policy_validate, policy_ok. rewrite validate_rules_ok.
  split; [naive_solver|]. intros []. split_and!; [done..|].
  intros x _. apply not_elem_of_nil.
Qed.

End Validation.
