(* ===== verification/PolicyEngine.v ===== *)
(** * The policy engine (crates/kavach-policy/src/engine.rs)

    Compilation of validated policies, rule matching, the built-in baselines
    and [PolicyEngine::evaluate]. *)

From stdpp Require Import base tactics list strings.
From Stdlib Require Import ZArith Lia Ascii.
From S2P Require Import Prelude RustStr BTree CoreError CoreIds CorePath CoreResource CoreRequest.
From S2P Require Import CoreShell CoreDecision PolicyModel.

Open Scope Z_scope.

Section Engine.
Context {GL : GlobLib} {UL : UnicodeLower}.

(** ** Compiled policies *)

(** [CompiledRule]. *)
Record CompiledRule := {
  cr_rule : Rule;
  cr_path_matcher : option GlobSet;
  cr_has_relative_patterns : bool;
  cr_arg_deny_matcher : option GlobSet;
  cr_arg_require_matcher : option GlobSet;
}.

(** [CompiledPolicy]. *)
Record CompiledPolicy := {
  cp_id : string;
  cp_name : string;
  cp_default_effect : DefaultEffect;
  cp_rules : list CompiledRule;
}.

(** [PolicySummary]. *)
Record PolicySummary := {
  ps_id : string;
  ps_name : string;
  ps_default_effect : DefaultEffect;
  ps_rule_count : Z;
}.

(** [PolicyEngine]. *)
Record PolicyEngine := { compiled : list CompiledPolicy }.

(** [compile_shared_glob]. *)
Definition compile_shared_glob (pat : string) (rule_id : RuleId) (index : Z)
  : result PolicyValidationError Glob :=
  ok_or (InvalidGlobPattern rule_id index) (glob_build pat).

(** The loop that adds the compiled patterns to the builder. *)
Fixpoint compile_globs (compile : string -> Z -> result PolicyValidationError Glob)
    (i : Z) (pats : list string) : result PolicyValidationError (list Glob) :=
  match pats with
  | [] => Ok []
  | pat :: rest =>
      let? g := compile pat i in
      let? gs := compile_globs compile (i + 1) rest in
      Ok (g :: gs)
  end.

(** [build_path_matcher]. *)
Definition build_path_matcher (cond : RuleConditions) (rule_id : RuleId)
  : result PolicyValidationError (option GlobSet) :=
  match path_globs cond with
  | None => Ok None
  | Some globs =>
      if list_is_empty globs then Ok None
      else
        let? gs := compile_globs (fun pat i => compile_shared_glob pat rule_id i) 0 globs in
        let? s := ok_or (GlobCompileConflict rule_id) (globset_build gs) in
        Ok (Some s)
  end.

(** The closure [compile_list] of [build_argument_matchers]. *)
Definition compile_list (rule_id : RuleId) (patterns : option (list string))
  : result PolicyValidationError (option GlobSet) :=
  match patterns with
  | None => Ok None
  | Some pats =>
      if list_is_empty pats then Ok None
      else
        let? gs := compile_globs
                     (fun pat i => map_err (fun _ => InvalidArgumentPattern rule_id "argument_rules" i)
                                     (compile_shared_glob pat rule_id i)) 0 pats in
        let? s := ok_or (GlobCompileConflict rule_id) (globset_build gs) in
        Ok (Some s)
  end.

(** [build_argument_matchers]. *)
Definition build_argument_matchers (cond : RuleConditions) (rule_id : RuleId)
  : result PolicyValidationError (option GlobSet * option GlobSet) :=
  match argument_rules cond with
  | None => Ok (None, None)
  | Some rules =>
      let? d := compile_list rule_id (deny_if_matches rules) in
      let? r := compile_list rule_id (require_match rules) in
      Ok (d, r)
  end.

(** The cross-policy duplicate check: the inner loop over the rules of one
    policy, returning the [seen] set, and the outer loop over policies. *)
Fixpoint insert_rule_ids (seen : list RuleId) (rules : list Rule)
  : result PolicyValidationError (list RuleId) :=
  match rules with
  | [] => Ok seen
  | rule :: rest =>
      if bset_mem (rule_id rule) seen then Err (DuplicateRuleId (rule_id rule))
      else insert_rule_ids (bset_add (rule_id rule) seen) rest
  end.

Fixpoint check_cross_policy (seen : list RuleId) (policies : list Policy)
  : result PolicyValidationError unit :=
  match policies with
  | [] => Ok tt
  | policy :: rest =>
      let? seen' := insert_rule_ids seen (policy_rules policy) in
      check_cross_policy seen' rest
  end.

(** The bodies of the compilation loops of [PolicyEngine::new]. *)
Definition compile_rule (rule : Rule) : result PolicyValidationError CompiledRule :=
  let cond := rule_conditions rule in
  let? path_matcher := build_path_matcher cond (rule_id rule) in
  let has_relative_patterns :=
    match path_globs cond with
    | Some globs => existsb is_relative_glob_pattern globs
    | None => false
    end in
  let? matchers := build_argument_matchers cond (rule_id rule) in
  Ok {| cr_rule := rule;
        cr_path_matcher := path_matcher;
        cr_has_relative_patterns := has_relative_patterns;
        cr_arg_deny_matcher := fst matchers;
        cr_arg_require_matcher := snd matchers |}.

Definition compile_policy (policy : Policy) : result PolicyValidationError CompiledPolicy :=
  let? rules := map_result compile_rule (policy_rules policy) in
  Ok {| cp_id := id_str (policy_id policy);
        cp_name := policy_name policy;
        cp_default_effect := policy_default_effect policy;
        cp_rules := rules |}.

(** [PolicyEngine::new]. *)
Definition PolicyEngine_new (policies : list Policy)
  : result PolicyValidationError PolicyEngine :=
  let? _ := for_each Policy_validate policies in
  let? _ := check_cross_policy [] policies in
  let? cps := map_result compile_policy policies in
  Ok {| compiled := cps |}.

(** [PolicyEngine::warnings]. *)
Definition PolicyEngine_warnings (e : PolicyEngine) : list PolicyWarning :=
  flat_map (fun cp => flat_map (fun cr => rule_warnings (cr_rule cr)) (cp_rules cp)) (compiled e).

(** [PolicyEngine::summaries]. *)
Definition PolicyEngine_summaries (e : PolicyEngine) : list PolicySummary :=
  map (fun policy =>
         {| ps_id := cp_id policy;
            ps_name := cp_name policy;
            ps_default_effect := cp_default_effect policy;
            ps_rule_count := Z.of_nat (length (cp_rules policy)) |}) (compiled e).

(** ** Baselines *)

Definition BASELINE_DANGEROUS_INTERPRETER_RULE_ID : string := "baseline-dangerous-interpreter".
Definition BASELINE_SHELL_HAZARD_RULE_ID : string := "baseline-shell-hazard".

(** [executable_basename]: the last component of [rsplit(['/', '\\'])]. *)
Definition executable_basename (exe : string) : string :=
  let base := to_lowercase (List.last (split_on is_sep exe) exe) in
  match strip_suffix ".exe" base with Some b => b | None => base end.

(** [is_known_interpreter]. *)
Definition is_known_interpreter (base : string) : bool :=
  String.eqb base "python"
  || starts_with "python3" base
  || starts_with "python2" base
  || String.eqb base "perl"
  || String.eqb base "ruby"
  || String.eqb base "node"
  || String.eqb base "nodejs".

(** [dangerous_invocation_reason]. *)
Definition dangerous_invocation_reason (cmd : CommandResource) : option string :=
  let base := executable_basename (cmd_executable cmd) in
  let args := cmd_arguments cmd in
  let interpreter_reason :=
    if is_known_interpreter base then
      match args with
      | [] => None
      | first :: more =>
          if String.eqb first "-c" || String.eqb first "-e" then Some "interpreter eval flag"
          else if String.eqb first "-m" then
            match more with
            | [] => None
            | module :: _ =>
                let module_lower := to_lowercase module in
                if String.eqb module_lower "pip" || String.eqb module_lower "easy_install"
                then Some "interpreter package-manager module"
                else None
            end
          else None
      end
    else None in
  match interpreter_reason with
  | Some reason => Some reason
  | None =>
      if existsb has_substitution_hazard args
      then Some "shell substitution or expansion in arguments"
      else None
  end.

(** [is_known_dangerous_invocation]. *)
Definition is_known_dangerous_invocation (cmd : CommandResource) : bool :=
  negb (is_none (dangerous_invocation_reason cmd)).

(** [shell_hazard_reason]; the [BTreeSet] collects the hazards that are not
    substitutions. *)
Definition shell_hazard_reason (cmd : CommandResource) : option string :=
  let kinds :=
    foldl (fun kinds arg =>
             foldl (fun kinds hazard =>
                      if is_substitution hazard then kinds else bset_add hazard kinds)
                   kinds (scan_dangerous_shell_constructs arg))
          [] (cmd_arguments cmd) in
  if list_is_empty kinds then None
  else Some ("shell hazards in arguments: " +:+ join ", " (map ShellHazard_as_str kinds)).

(** [join_ids]. *)
Definition join_ids (ids : list RuleId) : string := join ", " (map id_str ids).

(** ** Rule matching *)

Definition MAX_TRACE_FAILED_CONDITIONS : Z := 16.

(** [strip_workspace_prefix]. *)
Definition strip_workspace_prefix (absolute workspace : string) : option string :=
  if String.eqb workspace "/" then strip_prefix "/" absolute
  else
    match strip_prefix workspace absolute with
    | None => None
    | Some rest => strip_prefix "/" rest
    end.

(** [path_matches_with_cwd]. *)
Definition path_matches_with_cwd (matcher : GlobSet) (has_relative_patterns : bool)
    (resource_path : NormalizedPath) (working_directory : option NormalizedPath) : bool :=
  let normalized := np_normalized resource_path in
  if is_match matcher normalized then true
  else if negb has_relative_patterns || negb (np_absolute resource_path) then false
  else
    match working_directory with
    | None => false
    | Some w =>
        match strip_workspace_prefix normalized (np_normalized w) with
        | Some remainder => is_match matcher remainder
        | None => false
        end
    end.

(** One predicate per condition dimension: the block of [rule_match_outcome]
    does not call [fail!]. *)

Definition operations_match (cond : RuleConditions) (request : ToolRequest) : bool :=
  list_is_empty (operations cond)
  || existsb (fun o => String.eqb o (Operation_as_str (tr_operation request))) (operations cond).

Definition resource_kinds_match (cond : RuleConditions) (request : ToolRequest) : bool :=
  list_is_empty (resource_kinds cond)
  || existsb (fun k => bool_decide (k = Resource_kind (tr_resource request)))
             (resource_kinds cond).

Definition agent_ids_match (cond : RuleConditions) (request : ToolRequest) : bool :=
  list_is_empty (agent_ids cond)
  || existsb (fun a => String.eqb a (id_str (as_agent_id (tr_subject request)))) (agent_ids cond).

Definition min_trust_level_match (cond : RuleConditions) (request : ToolRequest) : bool :=
  match min_trust_level cond with
  | None => true
  | Some min_trust =>
      negb (trust_level_rank (as_trust_level (tr_subject request)) <? trust_level_rank min_trust)
  end.

Definition required_capabilities_match (cond : RuleConditions) (request : ToolRequest) : bool :=
  let declared := map cap_str (as_declared_capabilities (tr_subject request)) in
  forallb (fun required => existsb (String.eqb required) declared) (required_capabilities cond).

Definition intent_prefix_match (cond : RuleConditions) (request : ToolRequest) : bool :=
  match intent_prefix cond with
  | None => true
  | Some prefix =>
      match ctx_declared_intent (tr_context request) with
      | Some intent => starts_with prefix intent
      | None => false
      end
  end.

Definition executables_match (cond : RuleConditions) (request : ToolRequest) : bool :=
  match executables cond with
  | None => true
  | Some exes =>
      match tr_resource request with
      | R_Command cmd => existsb (fun e => String.eqb e (cmd_executable cmd)) exes
      | _ => false
      end
  end.

Definition argument_rules_match (cr : CompiledRule) (request : ToolRequest) : bool :=
  match argument_rules (rule_conditions (cr_rule cr)) with
  | None => true
  | Some _ =>
      match tr_resource request with
      | R_Command cmd =>
          match cr_arg_deny_matcher cr with
          | Some deny_matcher => negb (existsb (is_match deny_matcher) (cmd_arguments cmd))
          | None => true
          end
          && match cr_arg_require_matcher cr with
             | Some require_matcher => existsb (is_match require_matcher) (cmd_arguments cmd)
             | None => true
             end
      | _ => false
      end
  end.

Definition network_hosts_match (cond : RuleConditions) (request : ToolRequest) : bool :=
  match network_hosts cond with
  | None => true
  | Some hosts =>
      match tr_resource request with
      | R_NetworkEndpoint nr => existsb (fun h => String.eqb h (host_str (net_host nr))) hosts
      | _ => false
      end
  end.

Definition network_schemes_match (cond : RuleConditions) (request : ToolRequest) : bool :=
  match network_schemes cond with
  | None => true
  | Some schemes =>
      match tr_resource request with
      | R_NetworkEndpoint nr =>
          existsb (fun s => String.eqb s (scheme_str (net_scheme nr))) schemes
      | _ => false
      end
  end.

Definition network_ports_match (cond : RuleConditions) (request : ToolRequest) : bool :=
  match network_ports cond with
  | None => true
  | Some ports =>
      match tr_resource request with
      | R_NetworkEndpoint nr =>
          existsb (fun p => if p =? 0 then true
                            else match net_port nr with
                                 | Some net_port => port_value net_port =? p
                                 | None => false
                                 end) ports
      | _ => false
      end
  end.

Definition secret_identifiers_match (cond : RuleConditions) (request : ToolRequest) : bool :=
  match secret_identifiers cond with
  | None => true
  | Some ids =>
      match tr_resource request with
      | R_Secret identifier => existsb (fun i => String.eqb i identifier) ids
      | _ => false
      end
  end.

Definition tool_identifiers_match (cond : RuleConditions) (request : ToolRequest) : bool :=
  match tool_identifiers cond with
  | None => true
  | Some ids =>
      match tr_resource request with
      | R_ExternalTool identifier => existsb (fun i => String.eqb i identifier) ids
      | _ => false
      end
  end.

Definition path_globs_match (cr : CompiledRule) (request : ToolRequest) : bool :=
  match cr_path_matcher cr with
  | None => true
  | Some matcher =>
      match Resource_path (tr_resource request) with
      | None => false
      | Some resource_path =>
          path_matches_with_cwd matcher (cr_has_relative_patterns cr) resource_path
            (ctx_working_directory (tr_context request))
      end
  end.

(** [rule_match_outcome]: the first failing dimension is the only one reported. *)
Definition rule_match_outcome (cr : CompiledRule) (request : ToolRequest)
  : bool * list string :=
  let cond := rule_conditions (cr_rule cr) in
  if negb (operations_match cond request) then (false, ["operations"])
  else if negb (resource_kinds_match cond request) then (false, ["resource_kinds"])
  else if negb (agent_ids_match cond request) then (false, ["agent_ids"])
  else if negb (min_trust_level_match cond request) then (false, ["min_trust_level"])
  else if negb (required_capabilities_match cond request) then
    (false, ["required_capabilities"])
  else if negb (intent_prefix_match cond request) then (false, ["intent_prefix"])
  else if negb (executables_match cond request) then (false, ["executables"])
  else if negb (argument_rules_match cr request) then (false, ["argument_rules"])
  else if negb (network_hosts_match cond request) then (false, ["network_hosts"])
  else if negb (network_schemes_match cond request) then (false, ["network_schemes"])
  else if negb (network_ports_match cond request) then (false, ["network_ports"])
  else if negb (secret_identifiers_match cond request) then (false, ["secret_identifiers"])
  else if negb (tool_identifiers_match cond request) then (false, ["tool_identifiers"])
  else if negb (path_globs_match cr request) then (false, ["path_globs"])
  else (true, []).

(** ** Evaluation *)

(** The local variables of [evaluate]'s rule loop. *)
Record EvalState := {
  es_deny : list RuleId;
  es_approval : list RuleId;
  es_allow : list RuleId;
  es_failed : list string;
}.

(** The loop over the failed names of one rule. *)
Fixpoint record_failed (failed_conditions : list string) (failed : list string) : list string :=
  match failed with
  | [] => failed_conditions
  | name :: rest =>
      if MAX_TRACE_FAILED_CONDITIONS <=? Z.of_nat (length failed_conditions)
      then failed_conditions
      else if existsb (String.eqb name) failed_conditions
      then record_failed failed_conditions rest
      else record_failed (failed_conditions ++ [name]) rest
  end.

(** The body of the rule loop. *)
Definition eval_rule (request : ToolRequest) (st : EvalState) (cr : CompiledRule) : EvalState :=
  let '(matched, failed) := rule_match_outcome cr request in
  let id := rule_id (cr_rule cr) in
  if matched then
    match rule_effect (cr_rule cr) with
    | E_Deny => {| es_deny := bset_add id (es_deny st); es_approval := es_approval st;
                   es_allow := es_allow st; es_failed := es_failed st |}
    | E_RequireApproval =>
        {| es_deny := es_deny st; es_approval := bset_add id (es_approval st);
           es_allow := es_allow st; es_failed := es_failed st |}
    | E_Allow => {| es_deny := es_deny st; es_approval := es_approval st;
                    es_allow := bset_add id (es_allow st); es_failed := es_failed st |}
    end
  else {| es_deny := es_deny st; es_approval := es_approval st; es_allow := es_allow st;
          es_failed := record_failed (es_failed st) failed |}.

(** Step 2 of [evaluate]: the nested loops over policies and rules. *)
Definition eval_rules (e : PolicyEngine) (request : ToolRequest) : EvalState :=
  foldl (fun st cp => foldl (eval_rule request) st (cp_rules cp))
        {| es_deny := []; es_approval := []; es_allow := []; es_failed := [] |}
        (compiled e).

(** Step 3 of [evaluate]: precedence. *)
Definition resolve (e : PolicyEngine) (now : Z) (request_id : RequestId) (st : EvalState)
  : AuthorizationDecision :=
  let trace := {| baseline_triggered := None; failed_conditions := es_failed st |} in
  if negb (list_is_empty (es_deny st)) then
    AuthorizationDecision_new_with_trace Deny KavachDenyExplicitRule
      ("denied by explicit rules: " +:+ join_ids (es_deny st))
      (bset_of_list (es_deny st)) now request_id None None trace
  else if negb (list_is_empty (es_approval st)) then
    AuthorizationDecision_new_with_trace RequireApproval KavachApprovalRequired
      ("approval required by rules: " +:+ join_ids (es_approval st))
      (bset_of_list (es_approval st)) now request_id None None trace
  else if negb (list_is_empty (es_allow st)) then
    AuthorizationDecision_new_with_trace Allow KavachAllowPolicyMatch
      ("allowed by rules: " +:+ join_ids (es_allow st))
      (bset_of_list (es_allow st)) now request_id None None trace
  else
    let default := match compiled e with
                   | p :: _ => cp_default_effect p
                   | [] => D_Deny
                   end in
    AuthorizationDecision_new_with_trace (DefaultEffect_to_decision_effect default)
      (DefaultEffect_reason_code default)
      ("no rule matched; policy default applied ("
       +:+ DecisionEffect_as_str (DefaultEffect_to_decision_effect default) +:+ ")")
      [] now request_id None None trace.

(** The decision of a baseline that fired. *)
Definition baseline_decision (now : Z) (request_id : RequestId) (cmd : CommandResource)
    (baseline reason : string) : AuthorizationDecision :=
  let ids := match Id_new baseline with Ok baseline_id => bset_add baseline_id [] | Err _ => [] end in
  AuthorizationDecision_new_with_trace Deny KavachDenyExplicitRule
    ("denied by built-in baseline (" +:+ reason +:+ "): refusing "
     +:+ executable_basename (cmd_executable cmd) +:+ " invocation")
    ids now request_id None None
    {| baseline_triggered := Some reason; failed_conditions := [] |}.

(** Steps 1b and 1c of [evaluate]. *)
Definition check_baselines (now : Z) (request : ToolRequest) : option AuthorizationDecision :=
  match tr_resource request with
  | R_Command cmd =>
      match dangerous_invocation_reason cmd with
      | Some reason =>
          Some (baseline_decision now (tr_request_id request) cmd
                  BASELINE_DANGEROUS_INTERPRETER_RULE_ID reason)
      | None =>
          match shell_hazard_reason cmd with
          | Some reason =>
              Some (baseline_decision now (tr_request_id request) cmd
                      BASELINE_SHELL_HAZARD_RULE_ID reason)
          | None => None
          end
      end
  | _ => None
  end.

(** [PolicyEngine::evaluate] at time [now]. *)
Definition PolicyEngine_evaluate (e : PolicyEngine) (now : Z) (request : ToolRequest)
  : AuthorizationDecision :=
  match ToolRequest_validate request with
  | Err err =>
      AuthorizationDecision_new Deny KavachDenyInvalidRequest
        ("request validation failed: " +:+ DomainValidationError_display err)
        [] now (tr_request_id request) None None
  | Ok _ =>
      match check_baselines now request with
      | Some d => d
      | None => resolve e now (tr_request_id request) (eval_rules e request)
      end
  end.

End Engine.
