(* ===== verification/PolicySpec.v ===== *)
(** * Specification of policy evaluation

    What a rule means on the source policy, what an authorization decision must
    be, and the proof that [PolicyEngine::new] followed by
    [PolicyEngine::evaluate] implements it. *)

From stdpp Require Import base tactics list strings.
From Stdlib Require Import ZArith Lia Ascii.
From S2P Require Import Prelude RustStr BTree CoreError CoreIds CorePath CoreResource CoreRequest.
From S2P Require Import CoreShell CoreDecision PolicyModel PolicyEngine.

Open Scope Z_scope.

(** ** Boolean tests as propositions *)

Lemma existsb_elem {A} (f : A -> bool) l : existsb f l = true <-> exists x, x ∈ l /\ f x = true.
Proof.
  rewrite existsb_exists. split; intros (x & Hx & Hf); exists x; split; auto;
    by apply list_elem_of_In.
Qed.

Lemma existsb_string (s : string) l : existsb (fun x => String.eqb x s) l = true <-> s ∈ l.
Proof.
  rewrite existsb_elem. setoid_rewrite String.eqb_eq. naive_solver.
Qed.

Lemma existsb_not {A} (f : A -> bool) l :
  negb (existsb f l) = true <-> forall x, x ∈ l -> f x = false.
Proof.
  rewrite negb_true_iff, existsb_false_Forall, Forall_forall. done.
Qed.

Lemma empty_or_string (s : string) l :
  list_is_empty l || existsb (fun x => String.eqb x s) l = true <-> l = [] \/ s ∈ l.
Proof. rewrite orb_true_iff, list_is_empty_true, existsb_string. done. Qed.

Section Spec.
Context {GL : GlobLib} {UL : UnicodeLower}.

(** ** The meaning of a rule *)

(** Some pattern of the list matches [s]. *)
Definition patterns_hit (pats : list string) (s : string) : bool :=
  existsb (fun pat => match glob_build pat with
                      | Some g => glob_matches g s
                      | None => false
                      end) pats.

(** [rest] is the path below the workspace directory [wd]. *)
Definition below (wd path rest : string) : Prop :=
  if String.eqb wd "/" then path = "/" +:+ rest else path = wd +:+ "/" +:+ rest.

(** A path condition: the path itself, or, when a pattern is relative and the
    path absolute, the part of it below the working directory. *)
Definition path_hit (pats : list string) (path : NormalizedPath)
    (working_directory : option NormalizedPath) : Prop :=
  patterns_hit pats (np_normalized path) = true \/
  ((exists pat, pat ∈ pats /\ is_relative_glob_pattern pat = true) /\
   np_absolute path = true /\
   exists w rest, working_directory = Some w /\
     below (np_normalized w) (np_normalized path) rest /\ patterns_hit pats rest = true).

(** Every condition of the rule holds of the request. *)
Record rule_applies (r : Rule) (q : ToolRequest) : Prop := {
  ra_operation : operations (rule_conditions r) = [] \/
    Operation_as_str (tr_operation q) ∈ operations (rule_conditions r);
  ra_kind : resource_kinds (rule_conditions r) = [] \/
    Resource_kind (tr_resource q) ∈ resource_kinds (rule_conditions r);
  ra_agent : agent_ids (rule_conditions r) = [] \/
    id_str (as_agent_id (tr_subject q)) ∈ agent_ids (rule_conditions r);
  ra_trust : forall t, min_trust_level (rule_conditions r) = Some t ->
    trust_level_rank t <= trust_level_rank (as_trust_level (tr_subject q));
  ra_capabilities : forall s, s ∈ required_capabilities (rule_conditions r) ->
    exists c, c ∈ as_declared_capabilities (tr_subject q) /\ cap_str c = s;
  ra_intent : forall p, intent_prefix (rule_conditions r) = Some p ->
    exists rest, ctx_declared_intent (tr_context q) = Some (p +:+ rest);
  ra_executable : forall l, executables (rule_conditions r) = Some l ->
    exists cmd, tr_resource q = R_Command cmd /\ cmd_executable cmd ∈ l;
  ra_arguments : forall a, argument_rules (rule_conditions r) = Some a ->
    exists cmd, tr_resource q = R_Command cmd /\
      (forall pats arg, deny_if_matches a = Some pats -> arg ∈ cmd_arguments cmd ->
         patterns_hit pats arg = false) /\
      (forall pats, require_match a = Some pats ->
         exists arg, arg ∈ cmd_arguments cmd /\ patterns_hit pats arg = true);
  ra_host : forall l, network_hosts (rule_conditions r) = Some l ->
    exists n, tr_resource q = R_NetworkEndpoint n /\ host_str (net_host n) ∈ l;
  ra_scheme : forall l, network_schemes (rule_conditions r) = Some l ->
    exists n, tr_resource q = R_NetworkEndpoint n /\ scheme_str (net_scheme n) ∈ l;
  ra_port : forall l, network_ports (rule_conditions r) = Some l ->
    exists n, tr_resource q = R_NetworkEndpoint n /\
      (0 ∈ l \/ exists p, net_port n = Some p /\ port_value p ∈ l);
  ra_secret : forall l, secret_identifiers (rule_conditions r) = Some l ->
    exists i, tr_resource q = R_Secret i /\ i ∈ l;
  ra_tool : forall l, tool_identifiers (rule_conditions r) = Some l ->
    exists i, tr_resource q = R_ExternalTool i /\ i ∈ l;
  ra_path : forall pats, path_globs (rule_conditions r) = Some pats ->
    exists p, Resource_path (tr_resource q) = Some p /\
      path_hit pats p (ctx_working_directory (tr_context q));
}.

(** ** Compilation *)

Lemma compile_globs_ok compile pats i gs :
  (forall pat j g, compile pat j = Ok g -> glob_build pat = Some g) ->
  compile_globs compile i pats = Ok gs ->
  Forall2 (fun pat g => glob_build pat = Some g) pats gs.
Proof.
  intros Hcomp. revert i gs.
  induction pats as [|pat pats IH]; intros i gs; simpl; intros Hc; inv_all; constructor; eauto.
Qed.

Lemma compile_shared_glob_ok pat id i g :
  compile_shared_glob pat id i = Ok g -> glob_build pat = Some g.
Proof. unfold compile_shared_glob, ok_or. intros Hc. by inv_all. Qed.

Context {GLaws : GlobLaws}.

(** A compiled matcher decides whether some pattern hits. *)
Definition matcher_for (o : option (list string)) (m : option GlobSet) : Prop :=
  match o with
  | None => m = None
  | Some pats => exists s, m = Some s /\ forall x, is_match s x = patterns_hit pats x
  end.

Lemma matcher_patterns pats gs s x :
  Forall2 (fun pat g => glob_build pat = Some g) pats gs ->
  globset_build gs = Some s -> is_match s x = patterns_hit pats x.
Proof.
  intros Hf Hs. rewrite (globset_build_match gs s x Hs). clear Hs. unfold patterns_hit.
  induction Hf as [|pat g pats gs Hg Hf IH]; simpl; [done|]. by rewrite Hg, IH.
Qed.

Lemma build_path_matcher_ok cond id m :
  path_globs cond <> Some [] -> build_path_matcher cond id = Ok m ->
  matcher_for (path_globs cond) m.
Proof.
  unfold build_path_matcher, matcher_for, ok_or. intros Hne Hb.
  destruct (path_globs cond) as [pats|]; [|congruence].
  destruct pats as [|pat pats]; [done|]. cbn [list_is_empty] in Hb. inv_all.
  eexists; split; [done|]. intros x. eapply matcher_patterns; [|done].
  eapply compile_globs_ok; [|done]. intros ???. apply compile_shared_glob_ok.
Qed.

Lemma compile_list_ok id o m :
  o <> Some [] -> compile_list id o = Ok m -> matcher_for o m.
Proof.
  unfold compile_list, matcher_for, ok_or. intros Hne Hb.
  destruct o as [pats|]; [|congruence].
  destruct pats as [|pat pats]; [done|]. cbn [list_is_empty] in Hb. inv_all.
  eexists; split; [done|]. intros x. eapply matcher_patterns; [|done].
  eapply compile_globs_ok; [|done]. intros ??? Hc. apply map_err_ok in Hc.
  by eapply compile_shared_glob_ok.
Qed.

(** What a compiled rule carries. *)
Record compiled_for (r : Rule) (cr : CompiledRule) : Prop := {
  cf_rule : cr_rule cr = r;
  cf_path : matcher_for (path_globs (rule_conditions r)) (cr_path_matcher cr);
  cf_relative : cr_has_relative_patterns cr =
    match path_globs (rule_conditions r) with
    | Some globs => existsb is_relative_glob_pattern globs
    | None => false
    end;
  cf_arguments : forall a, argument_rules (rule_conditions r) = Some a ->
    matcher_for (deny_if_matches a) (cr_arg_deny_matcher cr) /\
    matcher_for (require_match a) (cr_arg_require_matcher cr);
}.

Lemma pattern_list_ok_nonempty max_count max_len syntax_ok o :
  pattern_list_ok max_count max_len syntax_ok o -> o <> Some [].
Proof. intros Ho ->. by destruct (Ho [] eq_refl). Qed.

Lemma compile_rule_ok r cr :
  conditions_ok (rule_conditions r) -> compile_rule r = Ok cr -> compiled_for r cr.
Proof.
  intros Hok. unfold compile_rule. intros Hc. inv_all. constructor; simpl; [done|..|done|].
  - eapply build_path_matcher_ok; [|done]. eapply pattern_list_ok_nonempty, cok_path_globs, Hok.
  - intros ar Har. unfold build_argument_matchers in E0. rewrite Har in E0. inv_all. simpl.
    destruct (cok_arguments _ Hok ar Har) as (_ & Hd & Hr).
    split; (eapply compile_list_ok; [eapply pattern_list_ok_nonempty; eassumption|eassumption]).
Qed.

(** ** Matching *)

Lemma strip_workspace_prefix_iff path wd rest :
  strip_workspace_prefix path wd = Some rest <-> below wd path rest.
Proof.
  unfold strip_workspace_prefix, below.
  destruct (String.eqb _ "/"); [apply strip_prefix_Some|].
  destruct (strip_prefix wd path) as [t|] eqn:E.
  - apply strip_prefix_Some in E. rewrite strip_prefix_Some, E. split; [by intros ->|].
    apply append_inj_l.
  - split; [done|]. intros Hb.
    assert (strip_prefix wd path = Some ("/" +:+ rest)) by (by apply strip_prefix_Some).
    congruence.
Qed.

Lemma path_matches_iff pats s rel p wd :
  (forall x, is_match s x = patterns_hit pats x) ->
  rel = existsb is_relative_glob_pattern pats ->
  path_matches_with_cwd s rel p wd = true <-> path_hit pats p wd.
Proof.
  intros Hm ->. unfold path_matches_with_cwd, path_hit. rewrite Hm.
  destruct (patterns_hit pats (np_normalized p)) eqn:E1; [naive_solver|].
  destruct (existsb is_relative_glob_pattern pats) eqn:E2; simpl.
  2:{ split; [done|]. intros [|(Hr & _)]; [done|]. apply existsb_elem in Hr. congruence. }
  apply existsb_elem in E2. destruct (np_absolute p); simpl; [|naive_solver].
  destruct wd as [w|]; [|naive_solver].
  pose proof (strip_workspace_prefix_iff (np_normalized p) (np_normalized w)) as Hs.
  destruct (strip_workspace_prefix _ _) as [rest|] eqn:E3.
  - rewrite Hm. split.
    + intros Hh. right. split_and!; [done..|]. exists w, rest. split_and!; [done| |done].
      by apply Hs.
    + intros [|(_ & _ & w' & rest' & [= <-] & Hb & Hh)]; [done|]. apply Hs in Hb. congruence.
  - split; [done|]. intros [|(_ & _ & w' & rest' & [= <-] & Hb & Hh)]; [done|].
    apply Hs in Hb. congruence.
Qed.

(** Conditions that only some resources can satisfy. *)
Lemma option_cond_iff {A} (o : option A) (f : A -> bool) (P : A -> Prop) :
  (forall a, f a = true <-> P a) ->
  match o with Some a => f a | None => true end = true <-> (forall a, o = Some a -> P a).
Proof. intros Hf. destruct o as [a|]; [rewrite Hf; naive_solver|naive_solver]. Qed.

Lemma resource_kinds_match_iff c q :
  resource_kinds_match c q = true <->
  resource_kinds c = [] \/ Resource_kind (tr_resource q) ∈ resource_kinds c.
Proof.
  unfold resource_kinds_match. rewrite orb_true_iff, list_is_empty_true, existsb_elem.
  setoid_rewrite bool_decide_eq_true. naive_solver.
Qed.

Lemma min_trust_level_match_iff c q :
  min_trust_level_match c q = true <->
  (forall t, min_trust_level c = Some t ->
     trust_level_rank t <= trust_level_rank (as_trust_level (tr_subject q))).
Proof.
  apply option_cond_iff. intros t. rewrite negb_true_iff, Z.ltb_ge. done.
Qed.

Lemma required_capabilities_match_iff c q :
  required_capabilities_match c q = true <->
  (forall s, s ∈ required_capabilities c ->
     exists cap, cap ∈ as_declared_capabilities (tr_subject q) /\ cap_str cap = s).
Proof.
  unfold required_capabilities_match. rewrite forallb_forall.
  split; intros Hs s Hin; [apply list_elem_of_In in Hin|apply list_elem_of_In in Hin];
    apply Hs in Hin.
  - apply existsb_elem in Hin as (x & Hx & Heq). apply String.eqb_eq in Heq as ->.
    apply list_elem_of_fmap in Hx as (cap & -> & Hc). eauto.
  - destruct Hin as (cap & Hc & <-). apply existsb_elem. exists (cap_str cap).
    rewrite String.eqb_refl. split; [|done]. by apply list_elem_of_fmap_2.
Qed.

Lemma intent_prefix_match_iff c q :
  intent_prefix_match c q = true <->
  (forall p, intent_prefix c = Some p ->
     exists rest, ctx_declared_intent (tr_context q) = Some (p +:+ rest)).
Proof.
  apply option_cond_iff. intros p. destruct (ctx_declared_intent _) as [intent|].
  - rewrite starts_with_spec. naive_solver.
  - naive_solver.
Qed.

Lemma executables_match_iff c q :
  executables_match c q = true <->
  (forall l, executables c = Some l ->
     exists cmd, tr_resource q = R_Command cmd /\ cmd_executable cmd ∈ l).
Proof.
  apply option_cond_iff. intros l. destruct (tr_resource q); rewrite ?existsb_string; naive_solver.
Qed.

Lemma network_hosts_match_iff c q :
  network_hosts_match c q = true <->
  (forall l, network_hosts c = Some l ->
     exists n, tr_resource q = R_NetworkEndpoint n /\ host_str (net_host n) ∈ l).
Proof.
  apply option_cond_iff. intros l. destruct (tr_resource q); rewrite ?existsb_string; naive_solver.
Qed.

Lemma network_schemes_match_iff c q :
  network_schemes_match c q = true <->
  (forall l, network_schemes c = Some l ->
     exists n, tr_resource q = R_NetworkEndpoint n /\ scheme_str (net_scheme n) ∈ l).
Proof.
  apply option_cond_iff. intros l. destruct (tr_resource q); rewrite ?existsb_string; naive_solver.
Qed.

Lemma secret_identifiers_match_iff c q :
  secret_identifiers_match c q = true <->
  (forall l, secret_identifiers c = Some l -> exists i, tr_resource q = R_Secret i /\ i ∈ l).
Proof.
  apply option_cond_iff. intros l. destruct (tr_resource q); rewrite ?existsb_string; naive_solver.
Qed.

Lemma tool_identifiers_match_iff c q :
  tool_identifiers_match c q = true <->
  (forall l, tool_identifiers c = Some l -> exists i, tr_resource q = R_ExternalTool i /\ i ∈ l).
Proof.
  apply option_cond_iff. intros l. destruct (tr_resource q); rewrite ?existsb_string; naive_solver.
Qed.

Lemma network_ports_match_iff c q :
  network_ports_match c q = true <->
  (forall l, network_ports c = Some l ->
     exists n, tr_resource q = R_NetworkEndpoint n /\
       (0 ∈ l \/ exists p, net_port n = Some p /\ port_value p ∈ l)).
Proof.
  apply option_cond_iff. intros l. destruct (tr_resource q) as [| | |n| | |]; try naive_solver.
  rewrite existsb_elem. split.
  - intros (p & Hp & Hm). exists n. split; [done|].
    destruct (Z.eqb_spec p 0) as [->|_]; [by left|].
    destruct (net_port n) as [np|] eqn:E; [|done]. apply Z.eqb_eq in Hm as <-. eauto.
  - intros (n' & [= <-] & [Hz|(p & Hn & Hp)]); [by exists 0|].
    exists (port_value p). split; [done|]. rewrite Hn, Z.eqb_refl. by destruct (_ =? 0).
Qed.

Section Compiled.
Context (r : Rule) (cr : CompiledRule) (Hcr : compiled_for r cr).

Lemma argument_rules_match_iff q :
  argument_rules_match cr q = true <->
  (forall a, argument_rules (rule_conditions r) = Some a ->
    exists cmd, tr_resource q = R_Command cmd /\
      (forall pats arg, deny_if_matches a = Some pats -> arg ∈ cmd_arguments cmd ->
         patterns_hit pats arg = false) /\
      (forall pats, require_match a = Some pats ->
         exists arg, arg ∈ cmd_arguments cmd /\ patterns_hit pats arg = true)).
Proof.
  unfold argument_rules_match. rewrite (cf_rule r cr Hcr).
  pose proof (cf_arguments r cr Hcr) as Ha.
  destruct (argument_rules (rule_conditions r)) as [a|]; [|naive_solver].
  destruct (Ha a eq_refl) as [Hd Hr]. clear Ha.
  destruct (tr_resource q) as [| |cmd| | | |]; try naive_solver.
  assert (Hdeny : match cr_arg_deny_matcher cr with
                  | Some m => negb (existsb (is_match m) (cmd_arguments cmd)) | None => true
                  end = true <->
    (forall pats arg, deny_if_matches a = Some pats -> arg ∈ cmd_arguments cmd ->
       patterns_hit pats arg = false)).
  { unfold matcher_for in Hd. destruct (deny_if_matches a) as [pats|].
    - destruct Hd as (s & -> & Hs). rewrite existsb_not. setoid_rewrite Hs. naive_solver.
    - rewrite Hd. naive_solver. }
  assert (Hreq : match cr_arg_require_matcher cr with
                 | Some m => existsb (is_match m) (cmd_arguments cmd) | None => true
                 end = true <->
    (forall pats, require_match a = Some pats ->
       exists arg, arg ∈ cmd_arguments cmd /\ patterns_hit pats arg = true)).
  { unfold matcher_for in Hr. destruct (require_match a) as [pats|].
    - destruct Hr as (s & -> & Hs). rewrite existsb_elem. setoid_rewrite Hs. naive_solver.
    - rewrite Hr. naive_solver. }
  rewrite andb_true_iff, Hdeny, Hreq. naive_solver.
Qed.

Lemma path_globs_match_iff q :
  path_globs_match cr q = true <->
  (forall pats, path_globs (rule_conditions r) = Some pats ->
     exists p, Resource_path (tr_resource q) = Some p /\
       path_hit pats p (ctx_working_directory (tr_context q))).
Proof.
  unfold path_globs_match. pose proof (cf_path r cr Hcr) as Hp.
  pose proof (cf_relative r cr Hcr) as Hrel.
  destruct (path_globs (rule_conditions r)) as [pats|]; simpl in Hp.
  - destruct Hp as (s & -> & Hs). destruct (Resource_path (tr_resource q)) as [p|].
    + rewrite (path_matches_iff pats s _ p _ Hs Hrel). naive_solver.
    + naive_solver.
  - rewrite Hp. naive_solver.
Qed.

(** The outcome is the conjunction of the dimensions. *)
Lemma rule_match_outcome_fst q :
  fst (rule_match_outcome cr q) = true <->
  (let c := rule_conditions (cr_rule cr) in
   operations_match c q = true /\ resource_kinds_match c q = true /\
   agent_ids_match c q = true /\ min_trust_level_match c q = true /\
   required_capabilities_match c q = true /\ intent_prefix_match c q = true /\
   executables_match c q = true /\ argument_rules_match cr q = true /\
   network_hosts_match c q = true /\ network_schemes_match c q = true /\
   network_ports_match c q = true /\ secret_identifiers_match c q = true /\
   tool_identifiers_match c q = true /\ path_globs_match cr q = true).
Proof.
  unfold rule_match_outcome. cbn zeta.
  repeat (match goal with
          | |- fst (if negb ?b then _ else _) = true <-> _ =>
              destruct b; cbn [negb fst]; [|split; [done|intros; exfalso; intuition congruence]]
          end).
  cbn [fst]. tauto.
Qed.

Lemma rule_match_iff q : fst (rule_match_outcome cr q) = true <-> rule_applies r q.
Proof.
  rewrite rule_match_outcome_fst. cbn zeta. rewrite (cf_rule r cr Hcr).
  unfold operations_match, agent_ids_match.
  rewrite !empty_or_string, resource_kinds_match_iff, min_trust_level_match_iff,
    required_capabilities_match_iff, intent_prefix_match_iff, executables_match_iff,
    argument_rules_match_iff, network_hosts_match_iff, network_schemes_match_iff,
    network_ports_match_iff, secret_identifiers_match_iff, tool_identifiers_match_iff,
    path_globs_match_iff.
  split; [intros (?&?&?&?&?&?&?&?&?&?&?&?&?&?); by constructor|intros []; tauto].
Qed.

End Compiled.
(** ** Evaluation *)

(** The set the loop collects for an effect. *)
Definition es_of (eff : Effect) (st : EvalState) : list RuleId :=
  match eff with
  | E_Deny => es_deny st
  | E_RequireApproval => es_approval st
  | E_Allow => es_allow st
  end.

Lemma eval_rule_es_of q st cr eff :
  es_of eff (eval_rule q st cr) =
  if fst (rule_match_outcome cr q) && bool_decide (rule_effect (cr_rule cr) = eff)
  then bset_add (rule_id (cr_rule cr)) (es_of eff st) else es_of eff st.
Proof.
  unfold eval_rule. destruct (rule_match_outcome cr q) as [[] failed]; simpl.
  - by destruct (rule_effect (cr_rule cr)), eff.
  - by destruct eff.
Qed.

Lemma eval_fold_es_of q crs st eff x :
  x ∈ es_of eff (foldl (eval_rule q) st crs) <->
  x ∈ es_of eff st \/
  exists cr, cr ∈ crs /\ fst (rule_match_outcome cr q) = true /\
    rule_effect (cr_rule cr) = eff /\ rule_id (cr_rule cr) = x.
Proof.
  revert st. induction crs as [|cr crs IH]; intros st; simpl.
  { setoid_rewrite elem_of_nil. naive_solver. }
  rewrite IH, eval_rule_es_of. setoid_rewrite elem_of_cons.
  destruct (fst (rule_match_outcome cr q)) eqn:E1; simpl.
  - case_bool_decide.
    + rewrite elem_of_bset_add. naive_solver.
    + naive_solver.
  - naive_solver congruence.
Qed.

Lemma eval_fold_sorted q crs st eff :
  bset_sorted (es_of eff st) -> bset_sorted (es_of eff (foldl (eval_rule q) st crs)).
Proof.
  revert st. induction crs as [|cr crs IH]; intros st Hs; simpl; [done|].
  apply IH. rewrite eval_rule_es_of. destruct (_ && _); [by apply bset_add_sorted|done].
Qed.

(** The nested loops visit the concatenation of the policies' rules. *)
Lemma eval_rules_flat e q :
  eval_rules e q =
  foldl (eval_rule q) {| es_deny := []; es_approval := []; es_allow := []; es_failed := [] |}
    (flat_map cp_rules (compiled e)).
Proof.
  unfold eval_rules. generalize {| es_deny := []; es_approval := []; es_allow := [];
                                   es_failed := [] |}.
  induction (compiled e) as [|cp cps IH]; intros st; simpl; [done|].
  rewrite foldl_app. apply IH.
Qed.

Lemma eval_rules_sorted e q eff : bset_sorted (es_of eff (eval_rules e q)).
Proof. rewrite eval_rules_flat. apply eval_fold_sorted. destruct eff; constructor. Qed.

(** The rules of a list of policies. *)
Definition all_rules (ps : list Policy) : list Rule := flat_map policy_rules ps.

(** Rule [id] of the policies has effect [eff] and applies to [q]. *)
Definition matches (ps : list Policy) (eff : Effect) (q : ToolRequest) (id : RuleId) : Prop :=
  exists r, r ∈ all_rules ps /\ rule_effect r = eff /\ rule_id r = id /\ rule_applies r q.

Definition engine_for (ps : list Policy) (e : PolicyEngine) : Prop :=
  Forall2 compiled_for (all_rules ps) (flat_map cp_rules (compiled e)) /\
  map cp_default_effect (compiled e) = map policy_default_effect ps.

Lemma compile_policy_ok p cp :
  policy_ok p -> compile_policy p = Ok cp ->
  Forall2 compiled_for (policy_rules p) (cp_rules cp) /\
  cp_default_effect cp = policy_default_effect p /\ cp_id cp = id_str (policy_id p) /\
  cp_name cp = policy_name p.
Proof.
  intros [Hok _]. unfold compile_policy. intros Hc. inv_all. simpl. split_and!; [|done..].
  apply map_result_ok in E. revert Hok. induction E as [|r cr rs crs Hr Hrs IH]; [constructor|].
  rewrite Forall_cons. intros [H1 H2]. constructor; [by apply compile_rule_ok|by apply IH].
Qed.

Lemma PolicyEngine_new_valid ps e :
  PolicyEngine_new ps = Ok e ->
  Forall policy_ok ps /\ Forall2 (fun p cp => compile_policy p = Ok cp) ps (compiled e).
Proof.
  unfold PolicyEngine_new. intros Hn. inv_all. destruct a, a0. apply for_each_ok in E.
  split; [|by apply map_result_ok].
  eapply Forall_impl; [exact E|]. intros p. apply Policy_validate_ok.
Qed.

Lemma PolicyEngine_new_for ps e : PolicyEngine_new ps = Ok e -> engine_for ps e.
Proof.
  intros [Hok Hc]%PolicyEngine_new_valid. unfold engine_for, all_rules.
  induction Hc as [|p cp ps' cps Hp Hps IH]; simpl; [split; constructor|].
  apply Forall_cons in Hok as [Hok1 Hok2]. destruct (IH Hok2) as [IH1 IH2].
  destruct (compile_policy_ok _ _ Hok1 Hp) as (Hr & Hd & _).
  split; [by apply Forall2_app|by f_equal].
Qed.

Lemma Forall2_elem_l {A B} (P : A -> B -> Prop) l k x :
  Forall2 P l k -> x ∈ l -> exists y, y ∈ k /\ P x y.
Proof.
  induction 1 as [|a b l k Hab Hl IH]; [by intros ?%not_elem_of_nil|].
  intros [->|Hx]%elem_of_cons; [exists b; split; [left|done]|].
  destruct (IH Hx) as (y & Hy & HP). exists y. split; [by right|done].
Qed.

Lemma Forall2_elem_r {A B} (P : A -> B -> Prop) l k y :
  Forall2 P l k -> y ∈ k -> exists x, x ∈ l /\ P x y.
Proof. intros Hf. apply (Forall2_elem_l (fun b a => P a b)). by apply Forall2_flip. Qed.

(** The collected sets are exactly the matching rules. *)
Lemma eval_rules_matches ps e q eff id :
  engine_for ps e -> id ∈ es_of eff (eval_rules e q) <-> matches ps eff q id.
Proof.
  intros [Hf _]. rewrite eval_rules_flat, eval_fold_es_of. unfold matches. split.
  - intros [Hin|(cr & Hcr & Hm & He & Hid)].
    { destruct eff; by apply not_elem_of_nil in Hin. }
    destruct (Forall2_elem_r _ _ _ _ Hf Hcr) as (r & Hr & Hc).
    exists r. rewrite (cf_rule r cr Hc) in He, Hid. split_and!; [done..|].
    by apply (rule_match_iff r cr Hc).
  - intros (r & Hr & He & Hid & Ha). right.
    destruct (Forall2_elem_l _ _ _ _ Hf Hr) as (cr & Hcr & Hc).
    exists cr. rewrite (cf_rule r cr Hc). split_and!; [done|by apply (rule_match_iff r cr Hc)|done..].
Qed.
(** ** Baselines *)

(** An interpreter started with an evaluation flag or a package manager. *)
Definition interpreter_abuse (cmd : CommandResource) : Prop :=
  is_known_interpreter (executable_basename (cmd_executable cmd)) = true /\
  ((exists more, cmd_arguments cmd = "-c" :: more) \/
   (exists more, cmd_arguments cmd = "-e" :: more) \/
   (exists m more, cmd_arguments cmd = "-m" :: m :: more /\
      (to_lowercase m = "pip" \/ to_lowercase m = "easy_install"))).

(** Some argument has a position where [P] holds. *)
Definition some_argument (P : string -> bool) (cmd : CommandResource) : Prop :=
  exists arg a b, arg ∈ cmd_arguments cmd /\ arg = a +:+ b /\ P b = true.

Lemma some_argument_iff P cmd :
  some_argument P cmd <-> exists arg, arg ∈ cmd_arguments cmd /\ somewhere P arg = true.
Proof. unfold some_argument. setoid_rewrite somewhere_spec. naive_solver. Qed.

Lemma dangerous_invocation_iff cmd :
  dangerous_invocation_reason cmd <> None <->
  interpreter_abuse cmd \/ some_argument substitution_at cmd.
Proof.
  rewrite some_argument_iff. unfold dangerous_invocation_reason, interpreter_abuse.
  set (sub := existsb has_substitution_hazard (cmd_arguments cmd)).
  assert (Hsub : sub = true <->
    exists arg, arg ∈ cmd_arguments cmd /\ somewhere substitution_at arg = true).
  { unfold sub. rewrite existsb_elem. setoid_rewrite has_substitution_somewhere. done. }
  rewrite <- Hsub. clear Hsub. clearbody sub.
  destruct (is_known_interpreter _); [|destruct sub; naive_solver].
  destruct (cmd_arguments cmd) as [|first more]; [destruct sub; naive_solver|].
  destruct (String.eqb_spec first "-c") as [->|Hc]; simpl; [naive_solver|].
  destruct (String.eqb_spec first "-e") as [->|He]; simpl; [naive_solver|].
  destruct (String.eqb_spec first "-m") as [->|Hm]; simpl; [|destruct sub; naive_solver].
  destruct more as [|m more]; [destruct sub; naive_solver|].
  destruct (String.eqb_spec (to_lowercase m) "pip"); simpl; [naive_solver|].
  destruct (String.eqb_spec (to_lowercase m) "easy_install"); simpl; [naive_solver|].
  destruct sub; naive_solver.
Qed.

Lemma hazard_kinds_elem args init x :
  x ∈ foldl (fun kinds arg =>
               foldl (fun kinds hazard =>
                        if is_substitution hazard then kinds else bset_add hazard kinds)
                     kinds (scan_dangerous_shell_constructs arg)) init args <->
  x ∈ init \/ (is_substitution x = false /\
              exists arg, arg ∈ args /\ x ∈ scan_dangerous_shell_constructs arg).
Proof.
  assert (Hinner : forall hs k, x ∈ foldl (fun kinds hazard =>
      if is_substitution hazard then kinds else bset_add hazard kinds) k hs <->
      x ∈ k \/ (is_substitution x = false /\ x ∈ hs)).
  { induction hs as [|h hs IH]; intros k; simpl; [setoid_rewrite elem_of_nil; naive_solver|].
    rewrite IH, elem_of_cons. destruct (is_substitution h) eqn:E; [naive_solver congruence|].
    rewrite elem_of_bset_add. naive_solver. }
  revert init. induction args as [|arg args IH]; intros init; simpl.
  { setoid_rewrite elem_of_nil. naive_solver. }
  rewrite IH, Hinner. setoid_rewrite elem_of_cons. naive_solver.
Qed.

Lemma list_nonempty_elem {A} (l : list A) : l <> [] <-> exists x, x ∈ l.
Proof.
  destruct l as [|x l]; split; [done|intros [x Hx]; by apply not_elem_of_nil in Hx| |done].
  intros _. exists x. left.
Qed.

Lemma shell_hazard_iff cmd :
  shell_hazard_reason cmd <> None <->
  exists arg h, arg ∈ cmd_arguments cmd /\ h ∈ scan_dangerous_shell_constructs arg /\
    is_substitution h = false.
Proof.
  unfold shell_hazard_reason. cbn zeta.
  match goal with |- context [list_is_empty ?k] => set (kinds := k) end.
  assert (Hk : kinds <> [] <-> exists arg h, arg ∈ cmd_arguments cmd /\
    h ∈ scan_dangerous_shell_constructs arg /\ is_substitution h = false).
  { rewrite list_nonempty_elem. unfold kinds. setoid_rewrite hazard_kinds_elem.
    setoid_rewrite elem_of_nil. naive_solver. }
  rewrite <- Hk. destruct kinds; simpl; naive_solver.
Qed.

(** Together the baselines refuse every argument with any hazard. *)
Lemma baselines_none cmd :
  dangerous_invocation_reason cmd = None -> shell_hazard_reason cmd = None ->
  ~ interpreter_abuse cmd /\ ~ some_argument hazard_at cmd.
Proof.
  intros Hd Hs.
  assert (Hn : ~ (interpreter_abuse cmd \/ some_argument substitution_at cmd)).
  { rewrite <- dangerous_invocation_iff. congruence. }
  split; [tauto|]. rewrite some_argument_iff. intros (arg & Harg & Hh).
  rewrite <- has_dangerous_somewhere in Hh. unfold has_dangerous_shell_construct in Hh.
  destruct (scan_dangerous_shell_constructs arg) as [|h hs] eqn:E; [done|].
  destruct (is_substitution h) eqn:Eh.
  - apply Hn. right. apply some_argument_iff. exists arg. split; [done|].
    rewrite <- has_substitution_somewhere. unfold has_substitution_hazard. rewrite E. simpl.
    by rewrite Eh.
  - assert (Hc : shell_hazard_reason cmd <> None); [|congruence].
    apply shell_hazard_iff. exists arg, h. rewrite E. split_and!; [done|left|done].
Qed.

Lemma shell_hazard_some cmd :
  shell_hazard_reason cmd <> None -> some_argument hazard_at cmd.
Proof.
  rewrite shell_hazard_iff, some_argument_iff. intros (arg & h & Harg & Hh & _).
  exists arg. split; [done|]. rewrite <- has_dangerous_somewhere.
  unfold has_dangerous_shell_construct.
  destruct (scan_dangerous_shell_constructs arg); [by apply not_elem_of_nil in Hh|done].
Qed.

(** A request the interpreter baseline, or the shell baseline, refuses. *)
Definition interpreter_baseline (q : ToolRequest) : Prop :=
  exists cmd, tr_resource q = R_Command cmd /\
    (interpreter_abuse cmd \/ some_argument substitution_at cmd).

Definition shell_baseline (q : ToolRequest) : Prop :=
  exists cmd, tr_resource q = R_Command cmd /\ some_argument hazard_at cmd.

(** ** The decision *)

(** The set of rule ids for [eff], in the order of a decision. *)
Definition ids_for (ps : list Policy) (eff : Effect) (q : ToolRequest) (ids : list RuleId) : Prop :=
  bset_sorted ids /\ forall id, id ∈ ids <-> matches ps eff q id.

Definition no_match (ps : list Policy) (eff : Effect) (q : ToolRequest) : Prop :=
  forall id, ~ matches ps eff q id.

Definition default_of (ps : list Policy) : DefaultEffect :=
  match ps with p :: _ => policy_default_effect p | [] => D_Deny end.

(** The decision a request must get: invalid requests and baseline hazards are
    denied first, then deny rules win over approval rules, those over allow
    rules, and those over the default. *)
Inductive decision_spec (ps : list Policy) (q : ToolRequest)
  : DecisionEffect -> ReasonCode -> list RuleId -> Prop :=
| ds_invalid :
    ~ request_ok q -> decision_spec ps q Deny KavachDenyInvalidRequest []
| ds_interpreter :
    request_ok q -> interpreter_baseline q ->
    decision_spec ps q Deny KavachDenyExplicitRule
      [Id_raw BASELINE_DANGEROUS_INTERPRETER_RULE_ID]
| ds_shell :
    request_ok q -> ~ interpreter_baseline q -> shell_baseline q ->
    decision_spec ps q Deny KavachDenyExplicitRule [Id_raw BASELINE_SHELL_HAZARD_RULE_ID]
| ds_deny ids :
    request_ok q -> ~ interpreter_baseline q -> ~ shell_baseline q ->
    ids_for ps E_Deny q ids -> ids <> [] ->
    decision_spec ps q Deny KavachDenyExplicitRule ids
| ds_approval ids :
    request_ok q -> ~ interpreter_baseline q -> ~ shell_baseline q ->
    no_match ps E_Deny q -> ids_for ps E_RequireApproval q ids -> ids <> [] ->
    decision_spec ps q RequireApproval KavachApprovalRequired ids
| ds_allow ids :
    request_ok q -> ~ interpreter_baseline q -> ~ shell_baseline q ->
    no_match ps E_Deny q -> no_match ps E_RequireApproval q ->
    ids_for ps E_Allow q ids -> ids <> [] ->
    decision_spec ps q Allow KavachAllowPolicyMatch ids
| ds_default :
    request_ok q -> ~ interpreter_baseline q -> ~ shell_baseline q ->
    no_match ps E_Deny q -> no_match ps E_RequireApproval q -> no_match ps E_Allow q ->
    decision_spec ps q (DefaultEffect_to_decision_effect (default_of ps))
      (DefaultEffect_reason_code (default_of ps)) [].

(** What of a decision drives authorization. *)
Definition decides (ps : list Policy) (q : ToolRequest) (d : AuthorizationDecision) : Prop :=
  decision_spec ps q (ad_effect d) (ad_reason d) (ad_matched_rule_ids d).

Lemma es_of_none ps e q eff :
  engine_for ps e -> list_is_empty (es_of eff (eval_rules e q)) = true -> no_match ps eff q.
Proof.
  intros He Hl id Hm. apply list_is_empty_true in Hl.
  apply (eval_rules_matches ps e q eff id He) in Hm. rewrite Hl in Hm.
  by apply not_elem_of_nil in Hm.
Qed.

Lemma es_of_some ps e q eff :
  engine_for ps e -> list_is_empty (es_of eff (eval_rules e q)) = false ->
  exists ids, vec_sort (bset_of_list (es_of eff (eval_rules e q))) = ids /\
    ids_for ps eff q ids /\ ids <> [].
Proof.
  intros He Hl. apply list_is_empty_false in Hl. pose proof (eval_rules_sorted e q eff) as Hs.
  exists (es_of eff (eval_rules e q)).
  rewrite bset_of_list_sorted_id, vec_sort_bset_sorted by done.
  split; [done|split; [|done]]. split; [done|]. intros id. by apply eval_rules_matches.
Qed.

Lemma default_of_engine ps e :
  engine_for ps e ->
  match compiled e with p :: _ => cp_default_effect p | [] => D_Deny end = default_of ps.
Proof. intros [_ Hd]. destruct (compiled e), ps; simplify_eq/=; done. Qed.

Lemma resolve_decides ps e q now :
  engine_for ps e -> request_ok q -> ~ interpreter_baseline q -> ~ shell_baseline q ->
  decides ps q (resolve e now (tr_request_id q) (eval_rules e q)).
Proof.
  intros He Hok Hi Hs. unfold resolve, decides.
  destruct (list_is_empty (es_deny (eval_rules e q))) eqn:E1; simpl.
  2:{ destruct (es_of_some ps e q E_Deny He E1) as (ids & Heq & Hids & Hne).
      cbn [es_of] in Heq. rewrite Heq.
      by apply ds_deny. }
  apply (es_of_none ps e q E_Deny He) in E1.
  destruct (list_is_empty (es_approval (eval_rules e q))) eqn:E2; simpl.
  2:{ destruct (es_of_some ps e q E_RequireApproval He E2) as (ids & Heq & Hids & Hne).
      cbn [es_of] in Heq. rewrite Heq.
      by apply ds_approval. }
  apply (es_of_none ps e q E_RequireApproval He) in E2.
  destruct (list_is_empty (es_allow (eval_rules e q))) eqn:E3; simpl.
  2:{ destruct (es_of_some ps e q E_Allow He E3) as (ids & Heq & Hids & Hne).
      cbn [es_of] in Heq. rewrite Heq.
      by apply ds_allow. }
  apply (es_of_none ps e q E_Allow He) in E3.
  rewrite (default_of_engine ps e He). by apply ds_default.
Qed.

Lemma evaluate_decides ps e q now :
  PolicyEngine_new ps = Ok e -> decides ps q (PolicyEngine_evaluate e now q).
Proof.
  intros He%PolicyEngine_new_for. unfold PolicyEngine_evaluate.
  destruct (ToolRequest_validate q) as [[]|err] eqn:Ev.
  2:{ apply ds_invalid. rewrite <- ToolRequest_validate_iff. congruence. }
  apply ToolRequest_validate_iff in Ev. unfold check_baselines.
  destruct (tr_resource q) as [| |cmd| | | |] eqn:Er;
    try (apply resolve_decides; [done..| |]; intros (c & Hc & _); congruence).
  destruct (dangerous_invocation_reason cmd) eqn:E1.
  { apply ds_interpreter; [done|]. exists cmd. split; [done|].
    apply dangerous_invocation_iff. congruence. }
  assert (Hi : ~ interpreter_baseline q).
  { intros (c & Hc & Hi). rewrite Er in Hc. injection Hc as <-.
    apply dangerous_invocation_iff in Hi. congruence. }
  destruct (shell_hazard_reason cmd) eqn:E2.
  { apply ds_shell; [done..|]. exists cmd. split; [done|]. apply shell_hazard_some. congruence. }
  apply resolve_decides; [done..|]. intros (c & Hc & Hs). rewrite Er in Hc. injection Hc as <-.
  by destruct (baselines_none cmd E1 E2).
Qed.

(** The specification admits one decision. *)
Lemma ids_for_unique ps eff q ids1 ids2 :
  ids_for ps eff q ids1 -> ids_for ps eff q ids2 -> ids1 = ids2.
Proof.
  intros [Hs1 H1] [Hs2 H2]. apply bset_sorted_ext; [done..|].
  intros x. by rewrite H1, H2.
Qed.

Lemma ids_for_no_match ps eff q ids : ids_for ps eff q ids -> no_match ps eff q -> ids = [].
Proof.
  intros [_ Hids] Hn. destruct ids as [|id ids]; [done|].
  destruct (Hn id). apply Hids. left.
Qed.

Lemma decision_spec_unique ps q e1 r1 i1 e2 r2 i2 :
  decision_spec ps q e1 r1 i1 -> decision_spec ps q e2 r2 i2 ->
  e1 = e2 /\ r1 = r2 /\ i1 = i2.
Proof.
  intros S1 S2. destruct S1, S2; try done;
    try (by split_and!; [done..|eapply ids_for_unique]);
    match goal with
    | Hi : ids_for ps ?eff q _, Hn : no_match ps ?eff q |- _ =>
        by pose proof (ids_for_no_match ps eff q _ Hi Hn)
    end.
Qed.
End Spec.
