(* ===== verification/PolicyProps.v ===== *)
(** * Properties of policy evaluation

    Consequences of the refinement in [PolicySpec], the bounds of the decision
    trace, and concrete policies that exercise them. *)

From stdpp Require Import base tactics list strings sets.
From Stdlib Require Import ZArith Lia Ascii.
From S2P Require Import Prelude RustStr BTree CoreError CoreIds CorePath CoreResource CoreRequest.
From S2P Require Import CoreShell CoreDecision PolicyModel PolicyEngine PolicySpec.

Open Scope Z_scope.

Section Properties.
Context {GL : GlobLib} {UL : UnicodeLower}.

(** ** The decision trace *)

Lemma record_failed_invariant acc failed :
  NoDup acc -> Z.of_nat (length acc) <= MAX_TRACE_FAILED_CONDITIONS ->
  NoDup (record_failed acc failed) /\
  Z.of_nat (length (record_failed acc failed)) <= MAX_TRACE_FAILED_CONDITIONS.
Proof.
  revert acc. induction failed as [|name failed IH]; intros acc Hn Hl; simpl; [done|].
  destruct (Z.leb_spec MAX_TRACE_FAILED_CONDITIONS (Z.of_nat (length acc))); [done|].
  destruct (existsb (String.eqb name) acc) eqn:E; [by apply IH|].
  apply IH.
  - apply NoDup_app. split_and!; [done| |apply NoDup_singleton].
    intros x Hx ->%list_elem_of_singleton. apply not_true_iff_false in E. apply E.
    apply existsb_elem. exists name. by rewrite String.eqb_refl.
  - rewrite length_app. simpl. lia.
Qed.

Lemma eval_fold_trace q crs st :
  NoDup (es_failed st) -> Z.of_nat (length (es_failed st)) <= MAX_TRACE_FAILED_CONDITIONS ->
  NoDup (es_failed (foldl (eval_rule q) st crs)) /\
  Z.of_nat (length (es_failed (foldl (eval_rule q) st crs))) <= MAX_TRACE_FAILED_CONDITIONS.
Proof.
  revert st. induction crs as [|cr crs IH]; intros st Hn Hl; simpl; [done|].
  assert (Hst : NoDup (es_failed (eval_rule q st cr)) /\
    Z.of_nat (length (es_failed (eval_rule q st cr))) <= MAX_TRACE_FAILED_CONDITIONS).
  { unfold eval_rule. destruct (rule_match_outcome cr q) as [[] failed]; simpl.
    - by destruct (rule_effect (cr_rule cr)).
    - by apply record_failed_invariant. }
  destruct Hst. by apply IH.
Qed.

Lemma resolve_trace e now id st :
  ad_trace (resolve e now id st) =
  Some {| baseline_triggered := None; failed_conditions := es_failed st |}.
Proof. unfold resolve. by repeat case_match. Qed.

(** The trace of a decision is bounded and names each failed dimension
    once: at most [MAX_TRACE_FAILED_CONDITIONS] distinct names, for any number
    of rules. *)
Theorem evaluate_trace_bounded e now q t :
  ad_trace (PolicyEngine_evaluate e now q) = Some t ->
  NoDup (failed_conditions t) /\
  Z.of_nat (length (failed_conditions t)) <= MAX_TRACE_FAILED_CONDITIONS.
Proof.
  unfold PolicyEngine_evaluate, check_baselines. intros Ht.
  destruct (ToolRequest_validate q); [|done].
  assert (Hres : Some t = ad_trace (resolve e now (tr_request_id q) (eval_rules e q)) ->
    NoDup (failed_conditions t) /\
    Z.of_nat (length (failed_conditions t)) <= MAX_TRACE_FAILED_CONDITIONS).
  { rewrite resolve_trace. intros [= ->]. simpl. rewrite eval_rules_flat.
    apply eval_fold_trace; [constructor|done]. }
  destruct (tr_resource q); [by apply Hres..| |by apply Hres|by apply Hres|by apply Hres|by apply Hres].
  repeat case_match; simplify_eq/=; [split; [constructor|done]..|by apply Hres].
Qed.

Lemma insert_rule_ids_ok seen rules seen' :
  insert_rule_ids seen rules = Ok seen' ->
  NoDup (map rule_id rules) /\ (forall x, x ∈ map rule_id rules -> x ∉ seen) /\
  (forall x, x ∈ seen' <-> x ∈ seen \/ x ∈ map rule_id rules).
Proof.
  revert seen. induction rules as [|r rules IH]; intros seen; simpl; intros Hi.
  { simplify_eq. split_and!; [constructor|set_solver..]. }
  destruct (bset_mem (rule_id r) seen) eqn:E; [done|]. apply bset_mem_false in E.
  apply IH in Hi as (Hnd & Hd & Hs). setoid_rewrite elem_of_bset_add in Hd.
  setoid_rewrite elem_of_bset_add in Hs. setoid_rewrite elem_of_cons.
  split_and!; [constructor; [|done]|naive_solver..]. intros Hx. apply Hd in Hx. naive_solver.
Qed.

Lemma check_cross_policy_ok seen ps :
  check_cross_policy seen ps = Ok tt ->
  NoDup (map rule_id (all_rules ps)) /\ (forall x, x ∈ map rule_id (all_rules ps) -> x ∉ seen).
Proof.
  revert seen. induction ps as [|p ps IH]; intros seen; simpl; intros Hc.
  { split; [constructor|set_solver]. }
  inv_all. apply insert_rule_ids_ok in E as (Hnd & Hd & Hs). apply IH in Hc as [Hnd' Hd'].
  setoid_rewrite Hs in Hd'. rewrite map_app. setoid_rewrite elem_of_app.
  split; [apply NoDup_app; split_and!; [done| |done]|]; naive_solver.
Qed.

Lemma compile_policy_shape p cp :
  compile_policy p = Ok cp ->
  map cr_rule (cp_rules cp) = policy_rules p /\ length (cp_rules cp) = length (policy_rules p) /\
  cp_id cp = id_str (policy_id p) /\ cp_name cp = policy_name p /\
  cp_default_effect cp = policy_default_effect p.
Proof.
  unfold compile_policy. intros Hc. inv_all. apply map_result_ok in E. simpl.
  split_and!; [|symmetry; by eapply Forall2_length|done..].
  induction E as [|r cr rs crs Hr Hrs IH]; simpl; [done|]. f_equal; [|done].
  unfold compile_rule in Hr. by inv_all.
Qed.

Context {GLaws : GlobLaws}.

(** (C5) Evaluation implements the precedence specification and nothing else:
    an engine built from policies [ps] returns exactly the effect, reason and
    rule ids that the specification gives for the request. *)
Theorem evaluate_refines_spec ps e now q eff reason ids :
  PolicyEngine_new ps = Ok e ->
  decision_spec ps q eff reason ids <->
  (let d := PolicyEngine_evaluate e now q in
   ad_effect d = eff /\ ad_reason d = reason /\ ad_matched_rule_ids d = ids).
Proof.
  intros He. pose proof (evaluate_decides ps e q now He) as Hd. split.
  - intros Hs. exact (decision_spec_unique _ _ _ _ _ _ _ _ Hd Hs).
  - cbn zeta. intros (<- & <- & <-). exact Hd.
Qed.

(** (C6) A request is allowed only if it is well formed, no argument of a
    command carries a shell hazard or abuses an interpreter, some allow rule
    applies, and no deny or approval rule applies; the reported ids are exactly
    the applicable allow rules. *)
Theorem allow_is_sound ps e now q :
  PolicyEngine_new ps = Ok e -> ad_effect (PolicyEngine_evaluate e now q) = Allow ->
  request_ok q /\
  (forall cmd, tr_resource q = R_Command cmd ->
     ~ interpreter_abuse cmd /\
     forall arg a b, arg ∈ cmd_arguments cmd -> arg = a +:+ b -> hazard_at b = false) /\
  (exists r, r ∈ all_rules ps /\ rule_effect r = E_Allow /\ rule_applies r q) /\
  (forall r, r ∈ all_rules ps -> rule_applies r q -> rule_effect r = E_Allow) /\
  (forall id, id ∈ ad_matched_rule_ids (PolicyEngine_evaluate e now q) <->
     matches ps E_Allow q id).
Proof.
  intros He Ha. pose proof (evaluate_decides ps e q now He) as Hd. unfold decides in Hd.
  inversion Hd as [| | | | |ids Hok Hi Hs Hnd Hna [Hsort Hids] Hne|Hok Hi Hs Hnd Hna Hnl Heff];
    try congruence; [|destruct (default_of ps); simpl in *; congruence].
  split_and!; [done| | | |by intros id; rewrite <- Hids].
  - intros cmd Hc. split; [intros Habuse; apply Hi; exists cmd; tauto|].
    intros arg a b Harg Hab. destruct (hazard_at b) eqn:Eb; [|done]. destruct Hs.
    exists cmd. split; [done|]. by exists arg, a, b.
  - apply list_nonempty_elem in Hne as [id Hid]. apply Hids in Hid as (r & ? & ? & ? & ?). eauto.
  - intros r Hr Happ. destruct (rule_effect r) eqn:E; [done|..]; exfalso.
    + apply (Hnd (rule_id r)). by exists r.
    + apply (Hna (rule_id r)). by exists r.
Qed.

(** Deny wins: when a deny rule of any policy applies, the decision is a
    denial, whatever other rules there are and wherever they stand. *)
Theorem deny_rule_wins ps e now q r :
  PolicyEngine_new ps = Ok e -> r ∈ all_rules ps -> rule_effect r = E_Deny ->
  rule_applies r q -> ad_effect (PolicyEngine_evaluate e now q) = Deny.
Proof.
  intros He Hr Heff Happ. pose proof (evaluate_decides ps e q now He) as Hd. unfold decides in Hd.
  assert (Hm : matches ps E_Deny q (rule_id r)) by (by exists r).
  inversion Hd; try done; exfalso;
    match goal with Hn : no_match ps E_Deny q |- _ => by apply (Hn (rule_id r)) end.
Qed.

(** (C17) Tightening a policy never opens it: if [ps'] has every rule of [ps]
    that denies or requires approval, and no allow rule that [ps] lacks, then
    what [ps'] allows [ps] allows too. *)
Theorem tightening_is_monotone ps ps' e e' now q :
  PolicyEngine_new ps = Ok e -> PolicyEngine_new ps' = Ok e' ->
  (forall r, r ∈ all_rules ps -> rule_effect r <> E_Allow -> r ∈ all_rules ps') ->
  (forall r, r ∈ all_rules ps' -> rule_effect r = E_Allow -> r ∈ all_rules ps) ->
  ad_effect (PolicyEngine_evaluate e' now q) = Allow ->
  ad_effect (PolicyEngine_evaluate e now q) = Allow.
Proof.
  intros He He' Hsub Hall Ha. pose proof (evaluate_decides ps e q now He) as Hd.
  pose proof (evaluate_decides ps' e' q now He') as Hd'. unfold decides in Hd, Hd'.
  inversion Hd' as [| | | | |ids Hok Hi Hs Hnd Hna [Hsort Hids] Hne|Hok Hi Hs Hnd Hna Hnl Heff];
    try congruence; [|destruct (default_of ps'); simpl in *; congruence].
  assert (Hn : forall eff, eff <> E_Allow -> no_match ps' eff q -> no_match ps eff q).
  { intros eff Hne' Hn id (r & Hr & <- & <- & Happ). apply (Hn (rule_id r)).
    exists r. split_and!; auto. }
  assert (Hm : exists id, matches ps E_Allow q id).
  { apply list_nonempty_elem in Hne as [id Hid]. exists id.
    apply Hids in Hid as (r & ? & ? & ? & ?). exists r. split_and!; auto. }
  apply Hn in Hnd; [|done]. apply Hn in Hna; [|done]. destruct Hm as [id Hm].
  inversion Hd; try done;
    solve [ match goal with Hn' : no_match ps E_Allow q |- _ => destruct (Hn' id Hm) end
          | match goal with
            | Hi' : ids_for ps ?eff q _, Hn' : no_match ps ?eff q |- _ =>
                by pose proof (ids_for_no_match ps eff q _ Hi' Hn')
            end ].
Qed.

(** Rule order does not matter: two sets of policies with the same rules in
    any order and grouping, and the same first default, decide every request
    alike. *)
Theorem rule_order_irrelevant ps ps' e e' now now' q :
  PolicyEngine_new ps = Ok e -> PolicyEngine_new ps' = Ok e' ->
  all_rules ps ≡ₚ all_rules ps' -> default_of ps = default_of ps' ->
  let d := PolicyEngine_evaluate e now q in
  let d' := PolicyEngine_evaluate e' now' q in
  ad_effect d = ad_effect d' /\ ad_reason d = ad_reason d' /\
  ad_matched_rule_ids d = ad_matched_rule_ids d'.
Proof.
  intros He He' Hp Hdef. cbn zeta.
  eapply decision_spec_unique; [exact (evaluate_decides ps e q now He)|].
  pose proof (evaluate_decides ps' e' q now' He') as Hd'. unfold decides in Hd'.
  assert (Hm : forall eff id, matches ps eff q id <-> matches ps' eff q id).
  { intros. unfold matches. by setoid_rewrite Hp. }
  assert (Hn : forall eff, no_match ps' eff q -> no_match ps eff q).
  { intros eff Hn id. rewrite Hm. apply Hn. }
  assert (Hi : forall eff ids, ids_for ps' eff q ids -> ids_for ps eff q ids).
  { intros eff ids [Hs Hids]. split; [done|]. intros id. by rewrite Hm. }
  destruct Hd'; rewrite <- ?Hdef; constructor; auto.
Qed.

(** An engine exists only for policies whose rules all passed validation
    and whose rule ids are distinct across policies; it keeps each policy's id,
    name, default and rules, in order. *)
Theorem engine_new_invariant ps e :
  PolicyEngine_new ps = Ok e ->
  Forall policy_ok ps /\ NoDup (map rule_id (all_rules ps)) /\
  map cr_rule (flat_map cp_rules (compiled e)) = all_rules ps /\
  PolicyEngine_summaries e =
    map (fun p => {| ps_id := id_str (policy_id p); ps_name := policy_name p;
                     ps_default_effect := policy_default_effect p;
                     ps_rule_count := Z.of_nat (length (policy_rules p)) |}) ps /\
  PolicyEngine_warnings e = flat_map Policy_warnings ps.
Proof.
  intros Hn. pose proof (PolicyEngine_new_valid ps e Hn) as [Hok Hc].
  split_and!; [done|..].
  { unfold PolicyEngine_new in Hn. inv_all. destruct a0. apply (check_cross_policy_ok _ _ E0). }
  all: clear Hok Hn; unfold PolicyEngine_summaries, PolicyEngine_warnings, all_rules;
    induction Hc as [|p cp ps' cps Hp Hps IH]; simpl; [done|];
    destruct (compile_policy_shape p cp Hp) as (Hr & Hl & Hi & Hn & Hd).
  - by rewrite map_app, Hr, IH.
  - by rewrite Hi, Hn, Hd, Hl, IH.
  - rewrite IH. f_equal. unfold Policy_warnings. rewrite <- Hr.
    by rewrite !flat_map_concat_map, map_map.
Qed.

(** (C31) Rule matching is exact: the compiled matcher of a validated rule accepts
    a request iff every condition the author wrote holds of it; a refusal names
    exactly one failed dimension. *)
Theorem rule_match_exact r cr q :
  conditions_ok (rule_conditions r) -> compile_rule r = Ok cr ->
  (fst (rule_match_outcome cr q) = true <-> rule_applies r q) /\
  length (snd (rule_match_outcome cr q)) = (if fst (rule_match_outcome cr q) then 0%nat else 1%nat).
Proof.
  intros Hok Hc. split; [by apply rule_match_iff, compile_rule_ok|].
  unfold rule_match_outcome. by repeat case_match.
Qed.

(** Policy validation accepts exactly the documented policies: every rule
    has some condition, each pattern list is absent or non-empty, bounded,
    duplicate free and made of bounded printable patterns the glob parser
    accepts, and rule ids are distinct. *)
Theorem policy_validate_exact p : Policy_validate p = Ok tt <-> policy_ok p.
Proof. apply Policy_validate_ok. Qed.

End Properties.

(** ** A concrete glob library and policy, for the witnesses *)

(** A literal pattern matches itself, and the double star matches everything. *)
Definition literal_matches (g s : string) : bool := String.eqb g "**" || String.eqb g s.

#[local] Instance literal_globs : GlobLib := {|
  Glob := string;
  GlobSet := list string;
  glob_new_ok _ := true;
  glob_build s := Some s;
  globset_build gs := Some gs;
  is_match gs s := existsb (fun g => literal_matches g s) gs;
  glob_matches := literal_matches;
|}.

#[local] Instance literal_globs_laws : GlobLaws.
Proof. constructor. intros gs s path [= <-]. done. Qed.

#[local] Instance ascii_lower : UnicodeLower := {| unicode_lowercase := to_ascii_lowercase |}.

Definition ex_rule (id : string) (eff : Effect) (ops : list string) : Rule :=
  {| rule_id := Id_raw id; rule_description := ""; rule_effect := eff;
     rule_conditions :=
       {| operations := ops; resource_kinds := []; agent_ids := []; min_trust_level := None;
          required_capabilities := []; intent_prefix := None; path_globs := Some ["**"];
          executables := None; network_hosts := None; network_schemes := None;
          secret_identifiers := None; tool_identifiers := None; network_ports := None;
          argument_rules := None |} |}.

Definition ex_policy (rules : list Rule) : Policy :=
  {| policy_id := Id_raw "p1"; policy_name := "example"; policy_description := "";
     policy_default_effect := D_Deny; policy_rules := rules |}.

Definition ex_subject : AgentSubject :=
  AgentSubjectBuilder_build
    (AgentSubjectBuilder_new (Id_raw "agent-1") (Id_raw "session-1")).

Definition ex_context : RequestContext :=
  {| ctx_timestamp := 0; ctx_working_directory := None; ctx_declared_intent := None;
     ctx_parent_request_id := None; ctx_metadata := RequestMetadata_new;
     ctx_dry_run := false |}.

Definition ex_path : NormalizedPath := mkNormalizedPath "src/main.rs" "src/main.rs" false.

Definition ex_request (op : Operation) (r : Resource) : ToolRequest :=
  ToolRequest_new (Id_raw "req-1") ex_subject op r ex_context.

Definition ex_read : ToolRequest := ex_request (FileRead None) (R_File ex_path).

Definition ex_allow : list Policy := [ex_policy [ex_rule "allow-read" E_Allow ["file_read"]]].
Definition ex_both : list Policy :=
  [ex_policy [ex_rule "allow-read" E_Allow ["file_read"];
              ex_rule "deny-read" E_Deny ["file_read"]]].
Definition ex_swapped : list Policy :=
  [ex_policy [ex_rule "deny-read" E_Deny ["file_read"];
              ex_rule "allow-read" E_Allow ["file_read"]]].

Definition ex_engine (ps : list Policy) : PolicyEngine :=
  match PolicyEngine_new ps with Ok e => e | Err _ => {| compiled := [] |} end.

Lemma ex_allow_new : PolicyEngine_new ex_allow = Ok (ex_engine ex_allow).
Proof. vm_compute. reflexivity. Defined.
Lemma ex_both_new : PolicyEngine_new ex_both = Ok (ex_engine ex_both).
Proof. vm_compute. reflexivity. Defined.
Lemma ex_swapped_new : PolicyEngine_new ex_swapped = Ok (ex_engine ex_swapped).
Proof. vm_compute. reflexivity. Defined.

(** ** Witnesses *)

Lemma evaluate_trace_bounded_witness :
  NoDup ["operations"] /\ Z.of_nat (length ["operations"]) <= MAX_TRACE_FAILED_CONDITIONS.
Proof.
  exact (evaluate_trace_bounded (ex_engine ex_both) 0
           (ex_request FileWrite (R_File ex_path))
           {| baseline_triggered := None; failed_conditions := ["operations"] |} eq_refl).
Defined.

Lemma evaluate_refines_spec_witness :
  decision_spec ex_both ex_read Deny KavachDenyExplicitRule [Id_raw "deny-read"].
Proof.
  apply (evaluate_refines_spec ex_both (ex_engine ex_both) 0 ex_read _ _ _ ex_both_new).
  vm_compute. split; [reflexivity|split; reflexivity].
Defined.

Lemma allow_is_sound_witness : request_ok ex_read.
Proof.
  exact (proj1 (allow_is_sound ex_allow (ex_engine ex_allow) 0 ex_read ex_allow_new eq_refl)).
Defined.

Lemma ex_rule_applies eff id : rule_applies (ex_rule id eff ["file_read"]) ex_read.
Proof.
  constructor; simpl; try done; try (by left).
  - right. left.
  - intros s Hs. by apply not_elem_of_nil in Hs.
  - intros pats [= <-]. exists ex_path. split; [done|]. by left.
Defined.

Lemma deny_rule_wins_witness :
  ad_effect (PolicyEngine_evaluate (ex_engine ex_both) 0 ex_read) = Deny.
Proof.
  apply (deny_rule_wins ex_both (ex_engine ex_both) 0 ex_read
           (ex_rule "deny-read" E_Deny ["file_read"]) ex_both_new).
  - right. left.
  - reflexivity.
  - apply ex_rule_applies.
Defined.

Definition ex_tight : list Policy :=
  [ex_policy [ex_rule "allow-read" E_Allow ["file_read"];
              ex_rule "deny-write" E_Deny ["file_write"]]].

Lemma ex_tight_new : PolicyEngine_new ex_tight = Ok (ex_engine ex_tight).
Proof. vm_compute. reflexivity. Defined.

Lemma tightening_is_monotone_witness :
  ad_effect (PolicyEngine_evaluate (ex_engine ex_allow) 0 ex_read) = Allow.
Proof.
  apply (tightening_is_monotone ex_allow ex_tight (ex_engine ex_allow) (ex_engine ex_tight) 0
           ex_read ex_allow_new ex_tight_new); [| |reflexivity].
  - intros r [->|Hr]%elem_of_cons; [done|by apply not_elem_of_nil in Hr].
  - intros r [->|[->|Hr]%elem_of_cons]%elem_of_cons; [left|done|by apply not_elem_of_nil in Hr].
Defined.

Lemma rule_order_irrelevant_witness :
  ad_matched_rule_ids (PolicyEngine_evaluate (ex_engine ex_both) 0 ex_read) =
  ad_matched_rule_ids (PolicyEngine_evaluate (ex_engine ex_swapped) 7 ex_read).
Proof.
  refine (proj2 (proj2 (rule_order_irrelevant ex_both ex_swapped (ex_engine ex_both)
            (ex_engine ex_swapped) 0 7 ex_read ex_both_new ex_swapped_new _ eq_refl))).
  simpl. apply Permutation_swap.
Defined.

Lemma engine_new_invariant_witness : NoDup (map rule_id (all_rules ex_both)).
Proof.
  exact (proj1 (proj2 (engine_new_invariant ex_both (ex_engine ex_both) ex_both_new))).
Defined.

Definition ex_deny_rule : Rule := ex_rule "deny-read" E_Deny ["file_read"].

Definition ex_compiled : CompiledRule :=
  {| cr_rule := ex_deny_rule; cr_path_matcher := Some ["**"];
     cr_has_relative_patterns := true; cr_arg_deny_matcher := None;
     cr_arg_require_matcher := None |}.

Lemma rule_match_exact_witness : rule_applies ex_deny_rule ex_read.
Proof.
  refine (proj1 (proj1 (rule_match_exact ex_deny_rule ex_compiled ex_read _ eq_refl)) eq_refl).
  apply validate_rule_ok. vm_compute. reflexivity.
Defined.
