(* ===== verification/PolicyLoad.v ===== *)
(** * Loading policies (crates/kavach-policy/src/io.rs)

    The conversion of a deserialized TOML document into a validated [Policy],
    and the size-checked loading of a file.  The TOML parser and the file system
    are parameters. *)

From stdpp Require Import base tactics option list strings.
From Stdlib Require Import ZArith Lia.
From S2P Require Import Prelude RustStr BTree CoreError CoreIds CorePath CoreResource CoreDecision.
From S2P Require Import PolicyModel.

Open Scope Z_scope.

Definition MAX_POLICY_FILE_SIZE : Z := 1024 * 1024.

(** [PolicyLoadError]. *)
Inductive PolicyLoadError :=
| PLE_Io (msg : string)
| PLE_FileTooLarge
| PLE_Parse (msg : string)
| PLE_Validation (e : PolicyValidationError)
| PLE_InvalidRuleId (id msg : string)
| PLE_InvalidPolicyId (id msg : string)
| PLE_UnsupportedSchemaVersion (version : Z).

(** [Display for PolicyLoadError]. *)
Definition PolicyLoadError_display (e : PolicyLoadError) : string :=
  match e with
  | PLE_Io msg => "failed to read policy file: " +:+ msg
  | PLE_FileTooLarge => "policy file exceeds maximum size of " +:+ dec MAX_POLICY_FILE_SIZE +:+ " bytes"
  | PLE_Parse msg => "failed to parse policy TOML: " +:+ msg
  | PLE_Validation inner => PolicyValidationError_display inner
  | PLE_InvalidRuleId id msg => "invalid rule id '" +:+ id +:+ "': " +:+ msg
  | PLE_InvalidPolicyId id msg => "invalid policy id '" +:+ id +:+ "': " +:+ msg
  | PLE_UnsupportedSchemaVersion v =>
      "unsupported schema_version: " +:+ dec v +:+ "; only 1 is supported"
  end.

(** [TomlArgumentRules]. *)
Record TomlArgumentRules := {
  tar_deny_if_matches : option (list string);
  tar_require_match : option (list string);
}.

(** [TomlRuleConditions]. *)
Record TomlRuleConditions := {
  trc_operations : list string;
  trc_resource_kinds : list ResourceKind;
  trc_agent_ids : list string;
  trc_min_trust_level : option TrustLevel;
  trc_required_capabilities : list string;
  trc_intent_prefix : option string;
  trc_path_globs : option (list string);
  trc_executables : option (list string);
  trc_network_hosts : option (list string);
  trc_network_schemes : option (list string);
  trc_secret_identifiers : option (list string);
  trc_tool_identifiers : option (list string);
  trc_network_ports : option (list Z);
  trc_argument_rules : option TomlArgumentRules;
}.

(** [TomlRule]. *)
Record TomlRule := {
  trl_id : string;
  trl_description : option string;
  trl_effect : Effect;
  trl_conditions : option TomlRuleConditions;
}.

(** [TomlPolicyHeader]. *)
Record TomlPolicyHeader := {
  tph_id : string;
  tph_name : option string;
  tph_description : option string;
  tph_default_effect : DefaultEffect;
}.

(** [TomlDocument]; [schema_version] is a [u32]. *)
Record TomlDocument := {
  td_schema_version : Z;
  td_policy : TomlPolicyHeader;
  td_rules : list TomlRule;
}.

(** ** The derived deserializers *)

(** [toml::Value]; dates and floats, which no field accepts, are [TV_Other]. *)
Inductive TomlValue :=
| TV_String (s : string)
| TV_Int (n : Z)
| TV_Bool (b : bool)
| TV_Array (l : list TomlValue)
| TV_Table (entries : list (string * TomlValue))
| TV_Other.

Definition toml_get (k : string) (t : list (string * TomlValue)) : option TomlValue :=
  snd <$> List.find (fun kv => String.eqb kv.1 k) t.

(** A field that has to be there, an [Option] and one with [serde(default)]. *)
Definition toml_field {A} (decode : TomlValue -> option A) (k : string) (t : list (string * TomlValue)) : option A :=
  v ← toml_get k t; decode v.
Definition toml_opt {A} (decode : TomlValue -> option A) (k : string) (t : list (string * TomlValue))
  : option (option A) :=
  match toml_get k t with Some v => Some <$> decode v | None => Some None end.
Definition toml_default {A} (decode : TomlValue -> option (list A)) (k : string) (t : list (string * TomlValue))
  : option (list A) :=
  match toml_get k t with Some v => decode v | None => Some [] end.

(** [deny_unknown_fields]. *)
Definition toml_struct {A} (fields : list string) (decode : list (string * TomlValue) -> option A)
    (v : TomlValue) : option A :=
  match v with
  | TV_Table t => if forallb (fun kv => existsb (String.eqb kv.1) fields) t then decode t else None
  | _ => None
  end.

Definition toml_string (v : TomlValue) : option string := match v with TV_String s => Some s | _ => None end.
Definition toml_bool (v : TomlValue) : option bool := match v with TV_Bool b => Some b | _ => None end.
Definition toml_uint (max : Z) (v : TomlValue) : option Z :=
  match v with TV_Int n => if (0 <=? n) && (n <=? max) then Some n else None | _ => None end.
Definition toml_list {A} (decode : TomlValue -> option A) (v : TomlValue) : option (list A) :=
  match v with TV_Array l => mapM decode l | _ => None end.
(** An enumeration with [rename_all = "snake_case"]. *)
Definition toml_enum {A} (variants : list (string * A)) (v : TomlValue) : option A :=
  match v with TV_String s => snd <$> List.find (fun p => String.eqb p.1 s) variants | _ => None end.

(** The derived [Deserialize] of the enumerations and structs, by their fields in order. *)
Definition Effect_deserialize : TomlValue -> option Effect :=
  toml_enum [("allow", E_Allow); ("deny", E_Deny); ("require_approval", E_RequireApproval)].
Definition DefaultEffect_deserialize : TomlValue -> option DefaultEffect :=
  toml_enum [("deny", D_Deny); ("require_approval", D_RequireApproval)].
Definition ResourceKind_deserialize : TomlValue -> option ResourceKind :=
  toml_enum [("file", RK_File); ("directory", RK_Directory); ("command", RK_Command);
             ("network_endpoint", RK_NetworkEndpoint); ("secret", RK_Secret);
             ("external_tool", RK_ExternalTool); ("unknown", RK_Unknown)].
Definition TrustLevel_deserialize : TomlValue -> option TrustLevel :=
  toml_enum [("untrusted", Untrusted); ("restricted", Restricted); ("standard", Standard);
             ("trusted", Trusted); ("system", System)].

Definition TomlArgumentRules_deserialize : TomlValue -> option TomlArgumentRules :=
  toml_struct ["deny_if_matches"; "require_match"] (fun t =>
    deny ← toml_opt (toml_list toml_string) "deny_if_matches" t;
    required ← toml_opt (toml_list toml_string) "require_match" t;
    Some {| tar_deny_if_matches := deny; tar_require_match := required |}).

Definition TomlRuleConditions_deserialize : TomlValue -> option TomlRuleConditions :=
  let strings := toml_list toml_string in
  toml_struct
    ["operations"; "resource_kinds"; "agent_ids"; "min_trust_level"; "required_capabilities";
     "intent_prefix"; "path_globs"; "executables"; "network_hosts"; "network_schemes";
     "secret_identifiers"; "tool_identifiers"; "network_ports"; "argument_rules"] (fun t =>
    operations ← toml_default strings "operations" t;
    resource_kinds ← toml_default (toml_list ResourceKind_deserialize) "resource_kinds" t;
    agent_ids ← toml_default strings "agent_ids" t;
    min_trust_level ← toml_opt TrustLevel_deserialize "min_trust_level" t;
    required_capabilities ← toml_default strings "required_capabilities" t;
    intent_prefix ← toml_opt toml_string "intent_prefix" t;
    path_globs ← toml_opt strings "path_globs" t;
    executables ← toml_opt strings "executables" t;
    network_hosts ← toml_opt strings "network_hosts" t;
    network_schemes ← toml_opt strings "network_schemes" t;
    secret_identifiers ← toml_opt strings "secret_identifiers" t;
    tool_identifiers ← toml_opt strings "tool_identifiers" t;
    network_ports ← toml_opt (toml_list (toml_uint 65535)) "network_ports" t;
    argument_rules ← toml_opt TomlArgumentRules_deserialize "argument_rules" t;
    Some
      {| trc_operations := operations; trc_resource_kinds := resource_kinds; trc_agent_ids := agent_ids;
         trc_min_trust_level := min_trust_level; trc_required_capabilities := required_capabilities;
         trc_intent_prefix := intent_prefix; trc_path_globs := path_globs; trc_executables := executables;
         trc_network_hosts := network_hosts; trc_network_schemes := network_schemes;
         trc_secret_identifiers := secret_identifiers; trc_tool_identifiers := tool_identifiers;
         trc_network_ports := network_ports; trc_argument_rules := argument_rules |}).

Definition TomlRule_deserialize : TomlValue -> option TomlRule :=
  toml_struct ["id"; "description"; "effect"; "conditions"] (fun t =>
    id ← toml_field toml_string "id" t;
    description ← toml_opt toml_string "description" t;
    effect ← toml_field Effect_deserialize "effect" t;
    conditions ← toml_opt TomlRuleConditions_deserialize "conditions" t;
    Some {| trl_id := id; trl_description := description; trl_effect := effect; trl_conditions := conditions |}).

Definition TomlPolicyHeader_deserialize : TomlValue -> option TomlPolicyHeader :=
  toml_struct ["id"; "name"; "description"; "default_effect"] (fun t =>
    id ← toml_field toml_string "id" t;
    name ← toml_opt toml_string "name" t;
    description ← toml_opt toml_string "description" t;
    default_effect ← toml_field DefaultEffect_deserialize "default_effect" t;
    Some {| tph_id := id; tph_name := name; tph_description := description;
            tph_default_effect := default_effect |}).

Definition TomlDocument_deserialize : TomlValue -> option TomlDocument :=
  toml_struct ["schema_version"; "policy"; "rules"] (fun t =>
    version ← toml_field (toml_uint (2 ^ 32 - 1)) "schema_version" t;
    header ← toml_field TomlPolicyHeader_deserialize "policy" t;
    rules ← toml_default (toml_list TomlRule_deserialize) "rules" t;
    Some {| td_schema_version := version; td_policy := header; td_rules := rules |}).

(** [toml::from_str::<TomlDocument>], with the error as its message. *)
Class TomlLib := { toml_from_str : string -> result string TomlDocument }.

(** [std::fs::metadata(path).len()] and [std::fs::read_to_string], with the
    error messages the code formats. *)
Class PolicyFiles := {
  file_len : string -> result string Z;
  read_to_string : string -> result string string;
}.

Definition or_empty (o : option string) : string := match o with Some s => s | None => "" end.

(** The [match] on [toml_rule.conditions] in [convert]. *)
Definition convert_conditions (o : option TomlRuleConditions) : RuleConditions :=
  match o with
  | Some c =>
      {| operations := trc_operations c;
         resource_kinds := trc_resource_kinds c;
         agent_ids := trc_agent_ids c;
         min_trust_level := trc_min_trust_level c;
         required_capabilities := trc_required_capabilities c;
         intent_prefix := trc_intent_prefix c;
         path_globs := trc_path_globs c;
         executables := trc_executables c;
         network_hosts := trc_network_hosts c;
         network_schemes := trc_network_schemes c;
         secret_identifiers := trc_secret_identifiers c;
         tool_identifiers := trc_tool_identifiers c;
         network_ports := trc_network_ports c;
         argument_rules :=
           match trc_argument_rules c with
           | Some a => Some {| deny_if_matches := tar_deny_if_matches a;
                               require_match := tar_require_match a |}
           | None => None
           end |}
  | None => RuleConditions_default
  end.

(** The loop body of [convert]. *)
Definition convert_rule (r : TomlRule) : result PolicyLoadError Rule :=
  let? id := map_err (fun e => PLE_InvalidRuleId (trl_id r) (DomainError_display e))
                     (Id_new (trl_id r)) in
  Ok {| rule_id := id;
        rule_description := or_empty (trl_description r);
        rule_effect := trl_effect r;
        rule_conditions := convert_conditions (trl_conditions r) |}.

(** The duplicate check of [convert]. *)
Fixpoint check_rule_ids (seen : list RuleId) (rules : list Rule) : result PolicyLoadError unit :=
  match rules with
  | [] => Ok tt
  | rule :: rest =>
      if bset_mem (rule_id rule) seen then Err (PLE_Validation (DuplicateRuleId (rule_id rule)))
      else check_rule_ids (bset_add (rule_id rule) seen) rest
  end.

Section Load.
Context {GL : GlobLib}.

(** [convert]. *)
Definition convert (doc : TomlDocument) : result PolicyLoadError Policy :=
  let header := td_policy doc in
  let? policy_id := map_err (fun e => PLE_InvalidPolicyId (tph_id header) (DomainError_display e))
                            (Id_new (tph_id header)) in
  let? rules := map_result convert_rule (td_rules doc) in
  let? _ := check_rule_ids [] rules in
  let policy :=
    {| policy_id := policy_id;
       policy_name := or_empty (tph_name header);
       policy_description := or_empty (tph_description header);
       policy_default_effect := tph_default_effect header;
       policy_rules := rules |} in
  let? _ := map_err PLE_Validation (Policy_validate policy) in
  Ok policy.

(** [load_policy_from_str]. *)
Definition load_policy_from_str `{TomlLib} (toml_str : string) : result PolicyLoadError Policy :=
  let? doc := map_err PLE_Parse (toml_from_str toml_str) in
  if negb (td_schema_version doc =? 1) then
    Err (PLE_UnsupportedSchemaVersion (td_schema_version doc))
  else convert doc.

(** [load_policy_from_file]. *)
Definition load_policy_from_file `{TomlLib} `{PolicyFiles} (path : string)
  : result PolicyLoadError Policy :=
  let? n := map_err PLE_Io (file_len path) in
  if MAX_POLICY_FILE_SIZE <? n then Err PLE_FileTooLarge
  else
    let? contents := map_err PLE_Io (read_to_string path) in
    if MAX_POLICY_FILE_SIZE <? len contents then Err PLE_FileTooLarge
    else load_policy_from_str contents.

(** ** What a loaded policy is *)

(** A rule of the document and the rule it becomes. *)
Definition rule_from (t : TomlRule) (r : Rule) : Prop :=
  id_ok (trl_id t) /\ rule_id r = Id_raw (trl_id t) /\
  rule_description r = or_empty (trl_description t) /\ rule_effect r = trl_effect t /\
  rule_conditions r = convert_conditions (trl_conditions t).

Lemma convert_rule_ok t r : convert_rule t = Ok r <-> rule_from t r.
Proof.
  unfold convert_rule, rule_from. split.
  - intros Hc. inv_all. apply map_err_ok, Id_new_ok in E as [Hok ->]. by split_and!.
  - intros (Hok & Hid & Hd & He & Hc). destruct r; simpl in *; subst.
    assert (Hn : Id_new (k := KRule) (trl_id t) = Ok (Id_raw (trl_id t))) by (by apply Id_new_ok).
    by rewrite Hn.
Qed.

Lemma check_rule_ids_ok seen rules :
  check_rule_ids seen rules = Ok tt <->
  NoDup (map rule_id rules) /\ (forall x, x ∈ map rule_id rules -> x ∉ seen).
Proof.
  revert seen. induction rules as [|r rules IH]; intros seen; simpl.
  { split; [|done]. intros _. split; [constructor|]. intros x Hx. by apply not_elem_of_nil in Hx. }
  rewrite NoDup_cons. destruct (bset_mem (rule_id r) seen) eqn:E.
  { apply bset_mem_spec in E. split; [done|]. intros (_ & Hs).
    by destruct (Hs (rule_id r) (list_elem_of_here _ _)). }
  apply bset_mem_false in E. rewrite IH. setoid_rewrite elem_of_bset_add.
  setoid_rewrite elem_of_cons. naive_solver.
Qed.

(** The policy a document denotes. *)
Record policy_from (doc : TomlDocument) (p : Policy) : Prop := {
  pf_id : id_ok (tph_id (td_policy doc));
  pf_policy_id : policy_id p = Id_raw (tph_id (td_policy doc));
  pf_name : policy_name p = or_empty (tph_name (td_policy doc));
  pf_description : policy_description p = or_empty (tph_description (td_policy doc));
  pf_default : policy_default_effect p = tph_default_effect (td_policy doc);
  pf_rules : Forall2 rule_from (td_rules doc) (policy_rules p);
}.

Lemma convert_ok doc p : convert doc = Ok p <-> policy_from doc p /\ policy_ok p.
Proof.
  unfold convert. split.
  - intros Hc. inv_all. destruct a2. apply map_err_ok, Policy_validate_ok in E2.
    apply map_err_ok, Id_new_ok in E as [Hok ->]. apply map_result_ok in E0.
    split; [|done]. constructor; simpl; try done.
    eapply Forall2_impl; [exact E0|]. intros t r. apply convert_rule_ok.
  - intros [[Hid Hpid Hn Hd Hdef Hr] Hok].
    assert (Hi : Id_new (k := KPolicy) (tph_id (td_policy doc)) = Ok (Id_raw (tph_id (td_policy doc))))
      by (by apply Id_new_ok).
    rewrite Hi. cbn [map_err].
    assert (Hm : map_result convert_rule (td_rules doc) = Ok (policy_rules p)).
    { apply map_result_ok. eapply Forall2_impl; [exact Hr|]. intros t r. apply convert_rule_ok. }
    rewrite Hm. assert (Hch : check_rule_ids [] (policy_rules p) = Ok tt).
    { apply check_rule_ids_ok. split; [apply Hok|]. intros x _. apply not_elem_of_nil. }
    rewrite Hch. apply Policy_validate_ok in Hok. destruct p; simpl in *; subst. by rewrite Hok.
Qed.

(** Loading a policy file yields exactly the policy its document denotes:
    it succeeds iff the file and its contents are within 1 MiB, the text parses
    to a version 1 document, the ids are well formed and the resulting policy
    passes validation; no field of a rule is dropped or altered. *)
Theorem load_policy_exact `{TomlLib} `{PolicyFiles} path p :
  load_policy_from_file path = Ok p <->
  exists n contents doc,
    file_len path = Ok n /\ n <= MAX_POLICY_FILE_SIZE /\
    read_to_string path = Ok contents /\ len contents <= MAX_POLICY_FILE_SIZE /\
    toml_from_str contents = Ok doc /\ td_schema_version doc = 1 /\
    policy_from doc p /\ policy_ok p.
Proof.
  unfold load_policy_from_file, load_policy_from_str. setoid_rewrite <- convert_ok. split.
  - intros Hl. inv_all. bool_prop.
    repeat match goal with H : map_err _ _ = Ok _ |- _ => apply map_err_ok in H end.
    by do 3 eexists.
  - intros (n & contents & doc & Hn & Hle & Hr & Hle' & Hd & Hv & Hc).
    apply Z.ltb_ge in Hle, Hle'. rewrite Hn. cbn [map_err]. rewrite Hle, Hr. cbn [map_err].
    rewrite Hle', Hd. cbn [map_err]. by rewrite Hv.
Qed.

End Load.
