(* ===== verification/AuditModel.v ===== *)
(** * The audit log: events, canonical encoding, hashing and the store

    crates/kavach-audit/src/event.rs, canonical.rs, hash.rs and store.rs.  SQLite,
    [serde_json] and [hex] are other crates' code: the table is modelled as its
    rows in primary-key order, JSON and hex are parameters, and every fallible
    database call takes the fault it may report as an argument. *)

From stdpp Require Import base tactics list strings.
From Stdlib Require Import ZArith Lia Ascii.
From S2P Require Import Prelude RustStr BTree CorePermit.

Open Scope Z_scope.

(** ** Errors *)

(** [AuditErrorKind]; [AuditError] only wraps it. *)
Inductive AuditError :=
| AE_InvalidEvent (detail : string)
| AE_InvalidField (detail : string)
| AE_InputTooLarge (bytes max : Z)
| AE_RedactionFailure (detail : string)
| AE_DatabaseOpen (detail : string)
| AE_MigrationFailure (detail : string)
| AE_DatabaseCorruption (detail : string)
| AE_TransactionFailure (detail : string)
| AE_AppendFailure (detail : string)
| AE_SequenceConflict (expected actual : Z)
| AE_HashMismatch (sequence : Z) (expected actual : string)
| AE_BrokenChain (detail : string)
| AE_MissingEvent (sequence : Z)
| AE_VerificationRangeTooLarge (requested max : Z)
| AE_UnsupportedSchemaVersion (version : Z)
| AE_SerializationFailure (detail : string).

(** [Display for AuditError]. *)
Definition AuditError_display (e : AuditError) : string :=
  match e with
  | AE_InvalidEvent detail => "invalid audit event: " +:+ detail
  | AE_InvalidField detail => "invalid field: " +:+ detail
  | AE_InputTooLarge bytes max =>
      "input too large: " +:+ dec bytes +:+ " bytes exceeds maximum " +:+ dec max
  | AE_RedactionFailure detail => "redaction failure: " +:+ detail
  | AE_DatabaseOpen detail => "database open failure: " +:+ detail
  | AE_MigrationFailure detail => "migration failure: " +:+ detail
  | AE_DatabaseCorruption detail => "database corruption: " +:+ detail
  | AE_TransactionFailure detail => "transaction failure: " +:+ detail
  | AE_AppendFailure detail => "append failure: " +:+ detail
  | AE_SequenceConflict expected actual =>
      "sequence conflict: expected " +:+ dec expected +:+ ", got " +:+ dec actual
  | AE_HashMismatch sequence expected actual =>
      "hash mismatch at sequence " +:+ dec sequence +:+ ": expected " +:+ expected
      +:+ ", got " +:+ actual
  | AE_BrokenChain detail => "broken chain: " +:+ detail
  | AE_MissingEvent sequence => "missing event at sequence " +:+ dec sequence
  | AE_VerificationRangeTooLarge requested max =>
      "verification range too large: " +:+ dec requested +:+ " exceeds maximum " +:+ dec max
  | AE_UnsupportedSchemaVersion version => "unsupported schema version: " +:+ dec version
  | AE_SerializationFailure detail => "serialization failure: " +:+ detail
  end.

(** ** Events *)

Definition SCHEMA_VERSION : Z := 1.
Definition AUDIT_MAX_METADATA_ENTRIES : Z := 64.
Definition MAX_METADATA_KEY_LENGTH : Z := 128.
Definition MAX_METADATA_VALUE_LENGTH : Z := 1024.
Definition MAX_RESOURCE_SUMMARY_LENGTH : Z := 2048.
Definition MAX_REASON_CODE_LENGTH : Z := 128.
Definition MAX_MATCHED_RULE_IDS : Z := 64.
Definition MAX_EVENT_QUERY_COUNT : Z := 1000.
Definition MAX_VERIFICATION_RANGE : Z := 100000.

(** [AuditEventCategory]. *)
Inductive AuditEventCategory :=
| RequestReceived | RequestRejected | DecisionAllow | DecisionDeny
| ApprovalRequested | ApprovalApproved | ApprovalDenied | ApprovalExpired | ApprovalConsumed
| ExecutionStarted | ExecutionSucceeded | ExecutionFailed
| PolicyLoaded | PolicyRejected | AuditVerification | SecurityWarning.

#[export] Instance AuditEventCategory_eq_dec : EqDecision AuditEventCategory.
Proof. solve_decision. Defined.

(** [Display for AuditEventCategory]. *)
Definition category_display (c : AuditEventCategory) : string :=
  match c with
  | RequestReceived => "RequestReceived"
  | RequestRejected => "RequestRejected"
  | DecisionAllow => "DecisionAllow"
  | DecisionDeny => "DecisionDeny"
  | ApprovalRequested => "ApprovalRequested"
  | ApprovalApproved => "ApprovalApproved"
  | ApprovalDenied => "ApprovalDenied"
  | ApprovalExpired => "ApprovalExpired"
  | ApprovalConsumed => "ApprovalConsumed"
  | ExecutionStarted => "ExecutionStarted"
  | ExecutionSucceeded => "ExecutionSucceeded"
  | ExecutionFailed => "ExecutionFailed"
  | PolicyLoaded => "PolicyLoaded"
  | PolicyRejected => "PolicyRejected"
  | AuditVerification => "AuditVerification"
  | SecurityWarning => "SecurityWarning"
  end.

(** [parse_category]. *)
Definition parse_category (s : string) : option AuditEventCategory :=
  if String.eqb s "RequestReceived" then Some RequestReceived
  else if String.eqb s "RequestRejected" then Some RequestRejected
  else if String.eqb s "DecisionAllow" then Some DecisionAllow
  else if String.eqb s "DecisionDeny" then Some DecisionDeny
  else if String.eqb s "ApprovalRequested" then Some ApprovalRequested
  else if String.eqb s "ApprovalApproved" then Some ApprovalApproved
  else if String.eqb s "ApprovalDenied" then Some ApprovalDenied
  else if String.eqb s "ApprovalExpired" then Some ApprovalExpired
  else if String.eqb s "ApprovalConsumed" then Some ApprovalConsumed
  else if String.eqb s "ExecutionStarted" then Some ExecutionStarted
  else if String.eqb s "ExecutionSucceeded" then Some ExecutionSucceeded
  else if String.eqb s "ExecutionFailed" then Some ExecutionFailed
  else if String.eqb s "PolicyLoaded" then Some PolicyLoaded
  else if String.eqb s "PolicyRejected" then Some PolicyRejected
  else if String.eqb s "AuditVerification" then Some AuditVerification
  else if String.eqb s "SecurityWarning" then Some SecurityWarning
  else None.

(** A [BTreeMap<String, String>]. *)
Abbreviation str_map := (list (string * string)).

(** [AuditAppendInput]. *)
Record AuditAppendInput := {
  ai_category : AuditEventCategory;
  ai_request_id : option string;
  ai_agent_id : option string;
  ai_operation : option string;
  ai_resource_kind : option string;
  ai_resource_summary : option string;
  ai_decision : option string;
  ai_reason_code : option string;
  ai_matched_rule_ids : list string;
  ai_metadata : str_map;
}.

(** [AuditEventRecord]; a [HashValue] is its 32 bytes. *)
Record AuditEventRecord := {
  ev_sequence : Z;
  ev_event_id : string;
  ev_timestamp : string;
  ev_category : AuditEventCategory;
  ev_request_id : option string;
  ev_agent_id : option string;
  ev_operation : option string;
  ev_resource_kind : option string;
  ev_resource_summary : option string;
  ev_decision : option string;
  ev_reason_code : option string;
  ev_matched_rule_ids : list string;
  ev_metadata : str_map;
  ev_previous_hash : string;
  ev_current_hash : string;
}.

(** The loop body over the metadata in [AuditAppendInput::validate]. *)
Definition validate_metadata_entry (kv : string * string) : result AuditError unit :=
  let '(k, v) := kv in
  if MAX_METADATA_KEY_LENGTH <? len k then
    Err (AE_InvalidField ("metadata key length " +:+ dec (len k) +:+ " exceeds maximum "
                          +:+ dec MAX_METADATA_KEY_LENGTH))
  else if MAX_METADATA_VALUE_LENGTH <? len v then
    Err (AE_InvalidField ("metadata value length " +:+ dec (len v) +:+ " exceeds maximum "
                          +:+ dec MAX_METADATA_VALUE_LENGTH))
  else Ok tt.

(** [AuditAppendInput::validate]. *)
Definition AuditAppendInput_validate (i : AuditAppendInput) : result AuditError unit :=
  let n := Z.of_nat (length (ai_metadata i)) in
  let m := Z.of_nat (length (ai_matched_rule_ids i)) in
  if AUDIT_MAX_METADATA_ENTRIES <? n then
    Err (AE_InvalidField ("metadata entries " +:+ dec n +:+ " exceeds maximum "
                          +:+ dec AUDIT_MAX_METADATA_ENTRIES))
  else
    let? _ := for_each validate_metadata_entry (ai_metadata i) in
    let? _ :=
      match ai_resource_summary i with
      | Some summary =>
          if MAX_RESOURCE_SUMMARY_LENGTH <? len summary then
            Err (AE_InvalidField ("resource summary length " +:+ dec (len summary)
                                  +:+ " exceeds maximum " +:+ dec MAX_RESOURCE_SUMMARY_LENGTH))
          else Ok tt
      | None => Ok tt
      end in
    let? _ :=
      match ai_reason_code i with
      | Some code =>
          if MAX_REASON_CODE_LENGTH <? len code then
            Err (AE_InvalidField ("reason code length " +:+ dec (len code)
                                  +:+ " exceeds maximum " +:+ dec MAX_REASON_CODE_LENGTH))
          else Ok tt
      | None => Ok tt
      end in
    if MAX_MATCHED_RULE_IDS <? m then
      Err (AE_InvalidField ("matched rule IDs " +:+ dec m +:+ " exceeds maximum "
                            +:+ dec MAX_MATCHED_RULE_IDS))
    else if existsb is_empty (ai_matched_rule_ids i) then
      Err (AE_InvalidField "matched rule ID must not be empty")
    else Ok tt.

(** ** Canonical encoding *)

(** [CanonicalEventFields]. *)
Record CanonicalEventFields := {
  cf_schema_version : Z;
  cf_sequence : Z;
  cf_event_id : string;
  cf_timestamp : string;
  cf_category : string;
  cf_request_id : option string;
  cf_agent_id : option string;
  cf_operation : option string;
  cf_resource_kind : option string;
  cf_resource_summary : option string;
  cf_decision : option string;
  cf_reason_code : option string;
  cf_matched_rule_ids : list string;
  cf_metadata : str_map;
}.

Definition NL : ascii := "010".
Definition QUOTE : ascii := "034".

(** [write_fmt], [write_opt], [write_array] and [write_map]: the bytes each one
    appends to the buffer. *)
Definition write_fmt (key value : string) : string :=
  key +:+ ": " +:+ value +:+ String NL "".

Definition write_opt (key : string) (value : option string) : string :=
  match value with Some v => write_fmt key v | None => "" end.

Definition quoted (v : string) : string := String QUOTE (v +:+ String QUOTE "").

Definition write_array (key : string) (values : list string) : string :=
  key +:+ ": [" +:+ join "," (map quoted values) +:+ "]" +:+ String NL "".

Definition write_map_entry (kv : string * string) : string :=
  "  " +:+ fst kv +:+ ": " +:+ snd kv +:+ String NL "".

Definition write_map (key : string) (m : str_map) : string :=
  key +:+ ":" +:+ String NL "" +:+ join "" (map write_map_entry m).

(** [encode_canonical]. *)
Definition encode_canonical (f : CanonicalEventFields) : string :=
  write_fmt "schema_version" (dec (cf_schema_version f))
  +:+ write_fmt "sequence" (dec (cf_sequence f))
  +:+ write_fmt "event_id" (cf_event_id f)
  +:+ write_fmt "timestamp" (cf_timestamp f)
  +:+ write_fmt "category" (cf_category f)
  +:+ write_opt "request_id" (cf_request_id f)
  +:+ write_opt "agent_id" (cf_agent_id f)
  +:+ write_opt "operation" (cf_operation f)
  +:+ write_opt "resource_kind" (cf_resource_kind f)
  +:+ write_opt "resource_summary" (cf_resource_summary f)
  +:+ write_opt "decision" (cf_decision f)
  +:+ write_opt "reason_code" (cf_reason_code f)
  +:+ write_array "matched_rule_ids" (cf_matched_rule_ids f)
  +:+ write_map "metadata" (cf_metadata f).

(** ** Hashing *)

Definition GENESIS_PHRASE : string := "kavach-audit-genesis-v1".

(** [HashValue::compute] and [HashValue::genesis]. *)
Definition HashValue_compute `{Sha256} (previous canonical : string) : string :=
  sha256 (previous +:+ canonical).
Definition HashValue_genesis `{Sha256} : string := sha256 GENESIS_PHRASE.

(** [TryInto<[u8; 32]>] of a blob. *)
Definition hash_from_blob (b : string) : option string :=
  if len b =? 32 then Some b else None.

(** A SHA-256 digest has 32 bytes. *)
Class Sha256Laws `{Sha256} := { sha256_len s : len (sha256 s) = 32 }.

(** The [hex] crate. *)
Class HexLib := {
  hex_encode : string -> string;
  hex_decode : string -> result string string;
}.

(** [serde_json] on the two JSON columns, and the message of a failed column
    conversion. *)
Class AuditJson := {
  ids_to_json : list string -> result string string;
  ids_from_json : string -> option (list string);
  map_to_json : str_map -> result string string;
  map_from_json : string -> option str_map;
  conversion_message : string -> string;
}.

(** What serialization writes, deserialization reads back. *)
Class AuditJsonLaws `{AuditJson} := {
  ids_json_round_trip ids j : ids_to_json ids = Ok j -> ids_from_json j = Some ids;
  map_json_round_trip m j : map_to_json m = Ok j -> map_from_json j = Some m;
}.

(** ** The store *)

(** A row of [audit_events], by column. *)
Record AuditRow := {
  row_sequence : Z;
  row_event_id : string;
  row_timestamp : string;
  row_category : string;
  row_request_id : option string;
  row_agent_id : option string;
  row_operation : option string;
  row_resource_kind : option string;
  row_resource_summary : option string;
  row_decision : option string;
  row_reason_code : option string;
  row_matched_rule_ids : string;
  row_metadata : string;
  row_previous_hash : string;
  row_current_hash : string;
}.

(** The table in primary-key order. *)
Abbreviation AuditTable := (list AuditRow).

Definition I64_MAX : Z := 2 ^ 63 - 1.
Definition U64_MAX : Z := 2 ^ 64 - 1.

Fixpoint insert_row (r : AuditRow) (t : AuditTable) : AuditTable :=
  match t with
  | [] => [r]
  | q :: t' => if row_sequence r <? row_sequence q then r :: t else q :: insert_row r t'
  end.

(** [INSERT INTO audit_events]: the primary key and the unique event id. *)
Definition sql_insert (r : AuditRow) (t : AuditTable) : option AuditTable :=
  if existsb (fun q => (row_sequence q =? row_sequence r)
                       || String.eqb (row_event_id q) (row_event_id r)) t
  then None else Some (insert_row r t).

(** The persisted summary. *)
Record PersistedEventSummary := {
  pes_sequence : Z;
  pes_event_id : string;
  pes_timestamp : string;
  pes_category : AuditEventCategory;
  pes_previous_hash : string;
  pes_current_hash : string;
}.

(** The redactor of the store, [redact_text] with its error as a message. *)
Abbreviation TextRedactor := (option (string -> result string string)).

(** The database faults of an append: taking the lock, opening the transaction
    or reading the head; executing the insert; committing. *)
Record AppendFaults := {
  fault_begin : option string;
  fault_execute : option string;
  fault_commit : option string;
}.

Definition no_faults : AppendFaults :=
  {| fault_begin := None; fault_execute := None; fault_commit := None |}.

Definition fail_if {A} (err : string -> AuditError) (fault : option string)
    (k : result AuditError A) : result AuditError A :=
  match fault with Some m => Err (err m) | None => k end.

(** [AuditStore::redact_opt]. *)
Definition redact_opt (redactor : TextRedactor) (value : option string)
  : result AuditError (option string) :=
  match value, redactor with
  | Some v, Some redact =>
      let? r := map_err AE_RedactionFailure (redact v) in Ok (Some r)
  | v, _ => Ok v
  end.

(** [AuditStore::redact_metadata]. *)
Definition redact_metadata (redactor : TextRedactor) (metadata : str_map)
  : result AuditError str_map :=
  match redactor with
  | None => Ok metadata
  | Some redact =>
      let? pairs := map_result (fun kv =>
                      let? r := map_err AE_RedactionFailure (redact (snd kv)) in
                      Ok (fst kv, r)) metadata in
      Ok (foldl (fun m kv => bmap_insert (fst kv) (snd kv) m) [] pairs)
  end.

Section Store.
Context `{Sha256} `{HexLib} `{AuditJson}.

(** The head of the chain: the next sequence number and the previous hash. *)
Definition next_position (t : AuditTable) : result AuditError (Z * string) :=
  match last t with
  | Some r =>
      let? arr := ok_or (AE_DatabaseCorruption "invalid hash length in database")
                        (hash_from_blob (row_current_hash r)) in
      if U64_MAX <? row_sequence r + 1 then Err (AE_AppendFailure "sequence overflow")
      else Ok (row_sequence r + 1, arr)
  | None => Ok (1, HashValue_genesis)
  end.

(** The row written by an append, with its hash. *)
Definition build_row (sequence : Z) (previous_hash event_id timestamp : string)
    (input : AuditAppendInput) (resource_summary : option string) (metadata : str_map)
  : result AuditError AuditRow :=
  let matched_rule_ids := vec_dedup (vec_sort (ai_matched_rule_ids input)) in
  let canonical := encode_canonical
    {| cf_schema_version := SCHEMA_VERSION;
       cf_sequence := sequence;
       cf_event_id := event_id;
       cf_timestamp := timestamp;
       cf_category := category_display (ai_category input);
       cf_request_id := ai_request_id input;
       cf_agent_id := ai_agent_id input;
       cf_operation := ai_operation input;
       cf_resource_kind := ai_resource_kind input;
       cf_resource_summary := resource_summary;
       cf_decision := ai_decision input;
       cf_reason_code := ai_reason_code input;
       cf_matched_rule_ids := matched_rule_ids;
       cf_metadata := metadata |} in
  let? matched_json := map_err AE_SerializationFailure (ids_to_json matched_rule_ids) in
  let? metadata_json := map_err AE_SerializationFailure (map_to_json metadata) in
  Ok {| row_sequence := sequence;
        row_event_id := event_id;
        row_timestamp := timestamp;
        row_category := category_display (ai_category input);
        row_request_id := ai_request_id input;
        row_agent_id := ai_agent_id input;
        row_operation := ai_operation input;
        row_resource_kind := ai_resource_kind input;
        row_resource_summary := resource_summary;
        row_decision := ai_decision input;
        row_reason_code := ai_reason_code input;
        row_matched_rule_ids := matched_json;
        row_metadata := metadata_json;
        row_previous_hash := previous_hash;
        row_current_hash := HashValue_compute previous_hash canonical |}.

(** Everything [append] does, up to and including the commit: the summary and
    the table after it. *)
Definition append_result (redactor : TextRedactor) (faults : AppendFaults)
    (event_id timestamp : string) (t : AuditTable) (input : AuditAppendInput)
  : result AuditError (PersistedEventSummary * AuditTable) :=
  let? _ := AuditAppendInput_validate input in
  let? resource_summary := redact_opt redactor (ai_resource_summary input) in
  let? metadata := redact_metadata redactor (ai_metadata input) in
  fail_if AE_TransactionFailure (fault_begin faults)
   (let? pos := next_position t in
    let '(sequence, previous_hash) := pos in
    let? row := build_row sequence previous_hash event_id timestamp input
                  resource_summary metadata in
    fail_if AE_AppendFailure (fault_execute faults)
     (let? t' :=
        if I64_MAX <? sequence then
          Err (AE_AppendFailure (conversion_message "sequence out of range"))
        else ok_or (AE_AppendFailure (conversion_message "unique constraint"))
                   (sql_insert row t) in
      fail_if AE_TransactionFailure (fault_commit faults)
       (Ok ({| pes_sequence := sequence;
               pes_event_id := event_id;
               pes_timestamp := timestamp;
               pes_category := ai_category input;
               pes_previous_hash := hex_encode previous_hash;
               pes_current_hash := hex_encode (row_current_hash row) |}, t')))).

(** [AuditStore::append]: a transaction that is not committed is rolled back, so
    the table only changes on success. *)
Definition AuditStore_append (redactor : TextRedactor) (faults : AppendFaults)
    (event_id timestamp : string) (t : AuditTable) (input : AuditAppendInput)
  : result AuditError PersistedEventSummary * AuditTable :=
  match append_result redactor faults event_id timestamp t input with
  | Ok (summary, t') => (Ok summary, t')
  | Err e => (Err e, t)
  end.

(** [row_to_event]; [None] is a column conversion failure. *)
Definition row_to_event (r : AuditRow) : option AuditEventRecord :=
  match ids_from_json (row_matched_rule_ids r), map_from_json (row_metadata r),
        parse_category (row_category r), hash_from_blob (row_previous_hash r),
        hash_from_blob (row_current_hash r) with
  | Some matched_rule_ids, Some metadata, Some category, Some prev_arr, Some curr_arr =>
      if row_sequence r <? 0 then None
      else Some {| ev_sequence := row_sequence r;
                   ev_event_id := row_event_id r;
                   ev_timestamp := row_timestamp r;
                   ev_category := category;
                   ev_request_id := row_request_id r;
                   ev_agent_id := row_agent_id r;
                   ev_operation := row_operation r;
                   ev_resource_kind := row_resource_kind r;
                   ev_resource_summary := row_resource_summary r;
                   ev_decision := row_decision r;
                   ev_reason_code := row_reason_code r;
                   ev_matched_rule_ids := matched_rule_ids;
                   ev_metadata := metadata;
                   ev_previous_hash := prev_arr;
                   ev_current_hash := curr_arr |}
  | _, _, _, _, _ => None
  end.

(** [query_map(.., row_to_event).collect()], with its error mapping. *)
Definition read_rows (rows : list AuditRow) : result AuditError (list AuditEventRecord) :=
  map_result (fun r => ok_or (AE_TransactionFailure (conversion_message (row_event_id r)))
                             (row_to_event r)) rows.

(** [AuditStore::all_events]; [fault] is a failure of the lock or of the query. *)
Definition AuditStore_all_events (fault : option string) (t : AuditTable)
  : result AuditError (list AuditEventRecord) :=
  fail_if AE_TransactionFailure fault (read_rows t).

(** [AuditStore::latest_event] (and [latest_event_inner]). *)
Definition AuditStore_latest_event (fault : option string) (t : AuditTable)
  : result AuditError (option AuditEventRecord) :=
  fail_if AE_TransactionFailure fault
    match last t with
    | None => Ok None
    | Some r =>
        let? e := ok_or (AE_TransactionFailure (conversion_message (row_event_id r)))
                        (row_to_event r) in
        Ok (Some e)
    end.

(** [AuditStore::event_by_sequence]. *)
Definition AuditStore_event_by_sequence (fault : option string) (t : AuditTable) (sequence : Z)
  : result AuditError (option AuditEventRecord) :=
  fail_if AE_TransactionFailure fault
    match List.find (fun r => row_sequence r =? sequence) t with
    | None => Ok None
    | Some r =>
        let? e := ok_or (AE_TransactionFailure (conversion_message (row_event_id r)))
                        (row_to_event r) in
        Ok (Some e)
    end.

(** The [LIMIT] of the bounded queries. *)
Definition query_limit (limit : Z) : nat := Z.to_nat (Z.min limit MAX_EVENT_QUERY_COUNT).

(** [AuditStore::events_after_sequence]. *)
Definition AuditStore_events_after_sequence (fault : option string) (t : AuditTable)
    (after limit : Z) : result AuditError (list AuditEventRecord) :=
  fail_if AE_TransactionFailure fault
    (read_rows (take (query_limit limit) (List.filter (fun r => after <? row_sequence r) t))).

(** [AuditStore::events_before_sequence]: newest first. *)
Definition AuditStore_events_before_sequence (fault : option string) (t : AuditTable)
    (before limit : Z) : result AuditError (list AuditEventRecord) :=
  fail_if AE_TransactionFailure fault
    (read_rows (take (query_limit limit)
                  (reverse (List.filter (fun r => row_sequence r <? before) t)))).

(** [AuditStore::events_by_request_id]. *)
Definition AuditStore_events_by_request_id (fault : option string) (t : AuditTable)
    (request_id : string) (limit : Z) : result AuditError (list AuditEventRecord) :=
  fail_if AE_TransactionFailure fault
    (read_rows (take (query_limit limit)
                  (List.filter (fun r => match row_request_id r with
                                         | Some i => String.eqb i request_id
                                         | None => false
                                         end) t))).

(** [AuditStore::events_by_category]. *)
Definition AuditStore_events_by_category (fault : option string) (t : AuditTable)
    (category : AuditEventCategory) (limit : Z) : result AuditError (list AuditEventRecord) :=
  fail_if AE_TransactionFailure fault
    (read_rows (take (query_limit limit)
                  (List.filter (fun r => String.eqb (row_category r) (category_display category))
                     t))).

(** [AuditStore::event_count]. *)
Definition AuditStore_event_count (fault : option string) (t : AuditTable)
  : result AuditError Z :=
  fail_if AE_TransactionFailure fault (Ok (Z.of_nat (length t))).

(** [ChainStatus]. *)
Record ChainStatus := {
  cs_event_count : Z;
  cs_latest_sequence : option Z;
  cs_latest_hash : option string;
  cs_genesis_hash : string;
  cs_is_valid : bool;
}.

(** [AuditStore::chain_status]. *)
Definition AuditStore_chain_status (fault : option string) (t : AuditTable)
  : result AuditError ChainStatus :=
  let? count := AuditStore_event_count fault t in
  let? latest := AuditStore_latest_event None t in
  Ok {| cs_event_count := count;
        cs_latest_sequence := option_map ev_sequence latest;
        cs_latest_hash := option_map (fun e => hex_encode (ev_current_hash e)) latest;
        cs_genesis_hash := hex_encode HashValue_genesis;
        cs_is_valid := true |}.

(** The number of sequence numbers in a range, [end - start + 1] on [u64]s;
    [None] when that overflows (a panic with overflow checks on). *)
Definition range_length (start stop : Z) : option Z :=
  if (stop <? start) || (U64_MAX <? stop - start + 1) then None else Some (stop - start + 1).

(** [AuditStore::events_in_range]. *)
Definition AuditStore_events_in_range (fault : option string) (t : AuditTable) (start stop : Z)
  : option (result AuditError (list AuditEventRecord)) :=
  match range_length start stop with
  | None => None
  | Some n =>
      Some (if MAX_VERIFICATION_RANGE <? n then
              Err (AE_VerificationRangeTooLarge n MAX_VERIFICATION_RANGE)
            else
              fail_if AE_TransactionFailure fault
                (read_rows (List.filter (fun r => (start <=? row_sequence r)
                                                  && (row_sequence r <=? stop)) t)))
  end.

End Store.
