(* ===== verification/AuditVerify.v ===== *)
(** * Verification of the audit chain

    crates/kavach-audit/src/verification.rs and checkpoint.rs, with what a valid
    report means and the invariant that appends maintain. *)

From stdpp Require Import base tactics list strings.
From Stdlib Require Import ZArith Lia Ascii.
From S2P Require Import Prelude RustStr BTree CorePermit AuditModel.

Open Scope Z_scope.

(** [VerificationErrorKind]. *)
Inductive VerificationErrorKind :=
| VK_MissingEvent | VK_SequenceGap | VK_DuplicateSequence | VK_HashMismatch
| VK_PreviousHashLinkBroken | VK_MalformedHash | VK_GenesisMismatch | VK_DatabaseCorruption.

(** [VerificationError]. *)
Record VerificationError := {
  ve_sequence : Z;
  ve_kind : VerificationErrorKind;
  ve_detail : string;
}.

(** [VerificationReport]. *)
Record VerificationReport := {
  vr_chain_valid : bool;
  vr_event_count : Z;
  vr_verified_to : Z;
  vr_errors : list VerificationError;
}.

(** [VerificationError::gap], [hash] and [prev_link]. *)
Definition VerificationError_gap (expected actual : Z) : VerificationError :=
  {| ve_sequence := expected; ve_kind := VK_SequenceGap;
     ve_detail := "expected sequence " +:+ dec expected +:+ ", found " +:+ dec actual |}.

Definition VerificationError_hash (seq : Z) (expected actual : string) : VerificationError :=
  {| ve_sequence := seq; ve_kind := VK_HashMismatch;
     ve_detail := "hash mismatch at " +:+ dec seq +:+ ": expected " +:+ expected
                  +:+ ", got " +:+ actual |}.

Definition VerificationError_prev_link (seq : Z) (detail : string) : VerificationError :=
  {| ve_sequence := seq; ve_kind := VK_PreviousHashLinkBroken; ve_detail := detail |}.

Section Verify.
Context {SH : Sha256} {HX : HexLib} {AJ : AuditJson}.

(** The canonical fields of a stored event. *)
Definition event_fields (e : AuditEventRecord) : CanonicalEventFields :=
  {| cf_schema_version := 1;
     cf_sequence := ev_sequence e;
     cf_event_id := ev_event_id e;
     cf_timestamp := ev_timestamp e;
     cf_category := category_display (ev_category e);
     cf_request_id := ev_request_id e;
     cf_agent_id := ev_agent_id e;
     cf_operation := ev_operation e;
     cf_resource_kind := ev_resource_kind e;
     cf_resource_summary := ev_resource_summary e;
     cf_decision := ev_decision e;
     cf_reason_code := ev_reason_code e;
     cf_matched_rule_ids := ev_matched_rule_ids e;
     cf_metadata := ev_metadata e |}.

(** [recompute_hash]. *)
Definition recompute_hash (e : AuditEventRecord) (previous_hash : string) : string :=
  HashValue_compute previous_hash (encode_canonical (event_fields e)).

(** One iteration of the loop of [verify_events]: the errors it pushes. *)
Definition verify_event (prev_seq : option Z) (prev_hash : string) (e : AuditEventRecord)
  : list VerificationError :=
  let seq := ev_sequence e in
  match prev_seq with
  | Some p => if negb (seq =? p + 1) then [VerificationError_gap (p + 1) seq] else []
  | None => []
  end
  ++ (if negb (String.eqb (ev_previous_hash e) prev_hash) then
        [VerificationError_prev_link seq
           ("expected prev_hash " +:+ hex_encode prev_hash +:+ ", got "
            +:+ hex_encode (ev_previous_hash e))]
      else [])
  ++ (let recomputed := recompute_hash e prev_hash in
      if negb (String.eqb recomputed (ev_current_hash e)) then
        [VerificationError_hash seq (hex_encode recomputed) (hex_encode (ev_current_hash e))]
      else []).

Fixpoint verify_loop (prev_seq : option Z) (prev_hash : string) (events : list AuditEventRecord)
  : list VerificationError :=
  match events with
  | [] => []
  | e :: rest =>
      verify_event prev_seq prev_hash e
      ++ verify_loop (Some (ev_sequence e)) (ev_current_hash e) rest
  end.

(** [verify_events] (it always returns [Ok]). *)
Definition verify_events (events : list AuditEventRecord) (expected_prev_hash : option string)
  : VerificationReport :=
  match events with
  | [] => {| vr_chain_valid := true; vr_event_count := 0; vr_verified_to := 0; vr_errors := [] |}
  | first :: _ =>
      let genesis_errors :=
        match expected_prev_hash with
        | Some _ => []
        | None =>
            if negb (String.eqb (ev_previous_hash first) HashValue_genesis) then
              [{| ve_sequence := ev_sequence first; ve_kind := VK_GenesisMismatch;
                  ve_detail := "expected genesis " +:+ hex_encode HashValue_genesis
                               +:+ ", got " +:+ hex_encode (ev_previous_hash first) |}]
            else []
        end in
      let prev_hash := match expected_prev_hash with
                       | Some h => h
                       | None => HashValue_genesis
                       end in
      let errors := genesis_errors ++ verify_loop None prev_hash events in
      {| vr_chain_valid := match errors with [] => true | _ => false end;
         vr_event_count := Z.of_nat (length events);
         vr_verified_to := match last events with Some e => ev_sequence e | None => 0 end;
         vr_errors := errors |}
  end.

(** [AuditStore::verify_full]. *)
Definition AuditStore_verify_full (fault : option string) (t : AuditTable)
  : result AuditError VerificationReport :=
  let? events := AuditStore_all_events fault t in
  Ok (verify_events events None).

(** [parse_hex_hash]. *)
Definition parse_hex_hash (s : string) : result AuditError string :=
  let? bytes := map_err (fun m => AE_DatabaseCorruption ("malformed hash: " +:+ m))
                        (hex_decode s) in
  ok_or (AE_DatabaseCorruption "hash is not 32 bytes") (hash_from_blob bytes).

(** [AuditStore::verify_from_checkpoint]; [None] is an arithmetic overflow. *)
Definition AuditStore_verify_from_checkpoint (fault : option string) (t : AuditTable)
    (checkpoint_hash : string) (checkpoint_sequence : Z)
  : option (result AuditError VerificationReport) :=
  match AuditStore_events_in_range fault t checkpoint_sequence U64_MAX with
  | None => None
  | Some r =>
      Some (let? events := r in
            let? checkpoint_hash_val := parse_hex_hash checkpoint_hash in
            Ok (verify_events events (Some checkpoint_hash_val)))
  end.

(** [AuditStore::verify_range]. *)
Definition AuditStore_verify_range (fault : option string) (t : AuditTable) (start stop : Z)
  : option (result AuditError VerificationReport) :=
  match range_length start stop with
  | None => None
  | Some n =>
      if MAX_VERIFICATION_RANGE <? n then
        Some (Err (AE_VerificationRangeTooLarge n MAX_VERIFICATION_RANGE))
      else
        match AuditStore_events_in_range fault t start stop with
        | None => None
        | Some r =>
            Some (let? events := r in
                  let? prev_hash :=
                    if 1 <? start then
                      let? prev_event := AuditStore_event_by_sequence fault t (start - 1) in
                      match prev_event with
                      | Some e => Ok (ev_current_hash e)
                      | None => Err (AE_MissingEvent (start - 1))
                      end
                    else Ok HashValue_genesis in
                  Ok (verify_events events (Some prev_hash)))
        end
  end.

(** [Checkpoint]. *)
Record Checkpoint := {
  ck_ending_sequence : Z;
  ck_ending_hash : string;
  ck_created_at : string;
  ck_event_count : Z;
}.

(** [AuditStore::create_checkpoint]. *)
Definition AuditStore_create_checkpoint (fault : option string) (now : string) (t : AuditTable)
  : result AuditError Checkpoint :=
  let? latest := AuditStore_latest_event fault t in
  let? count := AuditStore_event_count fault t in
  match latest with
  | Some event =>
      Ok {| ck_ending_sequence := ev_sequence event;
            ck_ending_hash := hex_encode (ev_current_hash event);
            ck_created_at := now;
            ck_event_count := count |}
  | None =>
      Ok {| ck_ending_sequence := 0; ck_ending_hash := hex_encode HashValue_genesis;
            ck_created_at := now; ck_event_count := 0 |}
  end.

(** ** Valid chains *)

(** A chain of events from a previous hash and, optionally, a previous sequence
    number. *)
Inductive chain : option Z -> string -> list AuditEventRecord -> Prop :=
| chain_nil ps h : chain ps h []
| chain_cons ps h e es :
    (forall p, ps = Some p -> ev_sequence e = p + 1) ->
    ev_previous_hash e = h -> ev_current_hash e = recompute_hash e h ->
    chain (Some (ev_sequence e)) (ev_current_hash e) es ->
    chain ps h (e :: es).

Lemma app_nil_iff {A} (l k : list A) : l ++ k = [] <-> l = [] /\ k = [].
Proof. destruct l; simpl; naive_solver. Qed.

Lemma if_nil_iff {A} (b : bool) (x : A) : (if negb b then [x] else []) = [] <-> b = true.
Proof. by destruct b. Qed.

Lemma verify_loop_nil ps h es : verify_loop ps h es = [] <-> chain ps h es.
Proof.
  revert ps h. induction es as [|e es IH]; intros ps h; simpl.
  { split; [constructor|done]. }
  unfold verify_event. rewrite !app_nil_iff, IH, !if_nil_iff, !String.eqb_eq. split.
  - intros ((Hs & Hp & Hc) & Hes). constructor; [|done|by symmetry|done].
    intros p ->. apply if_nil_iff in Hs. lia.
  - inversion 1 as [|? ? ? ? Hs Hp Hc Hes]; subst. split_and!; [|done|by symmetry|done].
    destruct ps as [p|]; [|done]. apply if_nil_iff. rewrite (Hs p eq_refl). lia.
Qed.

Lemma verify_events_valid es :
  vr_chain_valid (verify_events es None) = true <-> chain None HashValue_genesis es.
Proof.
  destruct es as [|e es]; [split; [constructor|done]|].
  rewrite <- verify_loop_nil. unfold verify_events.
  set (errs := verify_loop None HashValue_genesis (e :: es)).
  simpl. destruct (String.eqb_spec (ev_previous_hash e) HashValue_genesis) as [Heq|Hne]; simpl.
  - by destruct errs.
  - split; [done|]. intros Herr. apply verify_loop_nil in Herr. by inversion Herr.
Qed.

Lemma verify_events_count es h : vr_event_count (verify_events es h) = Z.of_nat (length es).
Proof. by destruct es. Qed.

Lemma chain_snoc ps h es e :
  chain ps h es ->
  (forall p, match last es with Some l => Some (ev_sequence l) | None => ps end = Some p ->
     ev_sequence e = p + 1) ->
  ev_previous_hash e = match last es with Some l => ev_current_hash l | None => h end ->
  ev_current_hash e = recompute_hash e (ev_previous_hash e) ->
  chain ps h (es ++ [e]).
Proof.
  induction 1 as [ps h|ps h x es Hs Hp Hc Hes IH]; intros Hseq Hprev Hcur.
  { simpl in *. constructor; [done..| |constructor]. by rewrite <- Hprev. }
  constructor; [done..|]. rewrite last_cons in Hseq, Hprev.
  apply IH; [| |done]; destruct (last es); assumption.
Qed.

End Verify.
