(* ===== verification/AuditChain.v ===== *)
(** * The audit chain is append only and tamper evident

    Appends keep the chain valid and numbered from one, and two valid chains
    with the same head hash record the same canonical events, unless two different
    texts that were hashed for them have the same SHA-256 digest. *)

From stdpp Require Import base tactics list strings relations.
From Stdlib Require Import ZArith Lia Ascii.
From S2P Require Import Prelude RustStr BTree CorePermit AuditModel AuditVerify.

Open Scope Z_scope.

Section Chain.
Context {SH : Sha256} {HX : HexLib} {AJ : AuditJson}.

(** ** Reading rows back *)

Lemma row_to_event_fields r e :
  row_to_event r = Some e ->
  ev_sequence e = row_sequence r /\ 0 <= row_sequence r /\
  ev_current_hash e = row_current_hash r /\ ev_previous_hash e = row_previous_hash r /\
  ev_event_id e = row_event_id r /\ len (row_current_hash r) = 32.
Proof.
  unfold row_to_event, hash_from_blob. intros Hr. inv_all. bool_prop. simpl. by split_and!.
Qed.

Lemma read_rows_ok t es :
  read_rows t = Ok es <-> Forall2 (fun r e => row_to_event r = Some e) t es.
Proof.
  unfold read_rows. rewrite map_result_ok.
  split; intros Hf; (eapply Forall2_impl; [exact Hf|]); intros r e; unfold ok_or;
    destruct (row_to_event r); naive_solver.
Qed.

Lemma read_rows_last t es :
  read_rows t = Ok es ->
  match last t, last es with
  | Some r, Some e => row_to_event r = Some e
  | None, None => True
  | _, _ => False
  end.
Proof.
  intros Hf%read_rows_ok. induction Hf as [|r e t es Hr Hf IH]; [done|].
  rewrite !last_cons. by destruct (last t), (last es).
Qed.

(** In a chain no event is numbered above the last. *)
Lemma chain_le_last ps h es l :
  chain ps h es -> last es = Some l -> Forall (fun e => ev_sequence e <= ev_sequence l) es.
Proof.
  intros Hc. revert l. induction Hc as [ps h|ps h e es Hs Hp Hcur Hes IH]; intros l Hl; [done|].
  rewrite last_cons in Hl. destruct (last es) as [l'|] eqn:El; simplify_eq.
  - specialize (IH l eq_refl). constructor; [|done].
    destruct es as [|e' es]; [done|]. inversion Hes as [|? ? ? ? Hs' _ _ _]; subst.
    apply Forall_cons in IH as [Hle _]. rewrite (Hs' _ eq_refl) in Hle. lia.
  - apply last_None in El as ->. by repeat constructor.
Qed.

Lemma insert_row_last r t :
  Forall (fun q => row_sequence q < row_sequence r) t -> insert_row r t = t ++ [r].
Proof.
  induction 1 as [|q t Hq Ht IH]; simpl; [done|].
  apply Z.lt_asymm, Z.ltb_nlt in Hq. by rewrite Hq, IH.
Qed.

Lemma category_round_trip c : parse_category (category_display c) = Some c.
Proof. by destruct c. Qed.

Lemma hash_from_blob_Some b h : hash_from_blob b = Some h <-> h = b /\ len b = 32.
Proof. unfold hash_from_blob. destruct (Z.eqb_spec (len b) 32); naive_solver. Qed.

(** What an append records. *)
Definition recorded (redactor : TextRedactor) (input : AuditAppendInput)
    (s : PersistedEventSummary) (e : AuditEventRecord) : Prop :=
  ev_sequence e = pes_sequence s /\ ev_event_id e = pes_event_id s /\
  ev_timestamp e = pes_timestamp s /\ ev_category e = ai_category input /\
  ev_request_id e = ai_request_id input /\ ev_agent_id e = ai_agent_id input /\
  ev_operation e = ai_operation input /\ ev_resource_kind e = ai_resource_kind input /\
  ev_decision e = ai_decision input /\ ev_reason_code e = ai_reason_code input /\
  ev_matched_rule_ids e = bset_of_list (ai_matched_rule_ids input) /\
  redact_opt redactor (ai_resource_summary input) = Ok (ev_resource_summary e) /\
  redact_metadata redactor (ai_metadata input) = Ok (ev_metadata e).

Context {SHL : Sha256Laws} {AJL : AuditJsonLaws}.

Lemma build_row_event seq prev eid ts input summary metadata row :
  0 <= seq -> len prev = 32 ->
  build_row seq prev eid ts input summary metadata = Ok row ->
  exists e, row_to_event row = Some e /\ row_sequence row = seq /\ row_event_id row = eid /\
    ev_sequence e = seq /\ ev_event_id e = eid /\ ev_timestamp e = ts /\
    ev_category e = ai_category input /\
    ev_request_id e = ai_request_id input /\ ev_agent_id e = ai_agent_id input /\
    ev_operation e = ai_operation input /\ ev_resource_kind e = ai_resource_kind input /\
    ev_decision e = ai_decision input /\ ev_reason_code e = ai_reason_code input /\
    ev_matched_rule_ids e = bset_of_list (ai_matched_rule_ids input) /\
    ev_resource_summary e = summary /\ ev_metadata e = metadata /\
    ev_previous_hash e = prev /\ ev_current_hash e = recompute_hash e prev.
Proof.
  intros Hseq Hprev. unfold build_row. rewrite sort_dedup_bset. intros Hb. inv_all.
  apply map_err_ok, ids_json_round_trip in E. apply map_err_ok, map_json_round_trip in E0.
  eexists. split.
  { unfold row_to_event. simpl. rewrite E, E0, category_round_trip.
    assert (Hp : hash_from_blob prev = Some prev) by (by apply hash_from_blob_Some).
    rewrite Hp. unfold HashValue_compute, hash_from_blob. rewrite sha256_len. simpl.
    assert (Hs : (seq <? 0) = false) by lia. by rewrite Hs. }
  simpl. by split_and!.
Qed.

(** The position an append takes in a valid chain. *)
Lemma next_position_chain t es seq prev :
  read_rows t = Ok es -> next_position t = Ok (seq, prev) ->
  len prev = 32 /\ 0 <= seq /\
  match last es with
  | Some l => seq = ev_sequence l + 1 /\ prev = ev_current_hash l
  | None => seq = 1 /\ prev = HashValue_genesis
  end.
Proof.
  intros Hr Hn. pose proof (read_rows_last t es Hr) as Hl. unfold next_position in Hn.
  destruct (last t) as [r|], (last es) as [l|]; try done.
  - apply row_to_event_fields in Hl as (Hseq & Hpos & Hcur & _ & _ & Hlen).
    unfold ok_or in Hn. inv_all.
    match goal with Hb : hash_from_blob _ = Some _ |- _ =>
      apply hash_from_blob_Some in Hb as [-> _] end.
    rewrite Hseq, Hcur. split_and!; [done|lia|done|done].
  - simplify_eq. split_and!; [apply sha256_len|lia|done|done].
Qed.

(** The steps of a successful append. *)
Lemma append_result_inv redactor faults eid ts t input s t' :
  append_result redactor faults eid ts t input = Ok (s, t') ->
  exists summary metadata seq prev row,
    redact_opt redactor (ai_resource_summary input) = Ok summary /\
    redact_metadata redactor (ai_metadata input) = Ok metadata /\
    next_position t = Ok (seq, prev) /\
    build_row seq prev eid ts input summary metadata = Ok row /\
    sql_insert row t = Some t' /\
    pes_sequence s = seq /\ pes_event_id s = eid /\ pes_timestamp s = ts.
Proof.
  unfold append_result, fail_if. intros Ha.
  destruct (AuditAppendInput_validate input); [|done].
  destruct (redact_opt redactor _) as [summary|]; [|done].
  destruct (redact_metadata redactor _) as [metadata|]; [|done].
  destruct (fault_begin faults); [done|].
  destruct (next_position t) as [[seq prev]|]; [|done].
  destruct (build_row seq prev eid ts input summary metadata) as [row|] eqn:Eb; [|done].
  destruct (fault_execute faults); [done|].
  destruct (I64_MAX <? seq); [done|].
  destruct (sql_insert row t) as [t0|] eqn:Es; [|done]. cbn [ok_or] in Ha.
  destruct (fault_commit faults); [done|]. injection Ha as <- <-. simpl.
  by exists summary, metadata, seq, prev, row.
Qed.

Lemma sql_insert_last row t t' :
  sql_insert row t = Some t' ->
  Forall (fun q => row_sequence q < row_sequence row) t ->
  t' = t ++ [row] /\ forall q, q ∈ t -> row_event_id q <> row_event_id row.
Proof.
  unfold sql_insert. destruct (existsb _ t) eqn:E; [done|]. intros [= <-] Hf.
  split; [by apply insert_row_last|]. intros q Hq Heq.
  apply not_true_iff_false in E. apply E. apply existsb_exists. exists q.
  split; [by apply list_elem_of_In|]. rewrite Heq, String.eqb_refl. apply orb_true_r.
Qed.

Lemma rows_below t es seq :
  read_rows t = Ok es -> Forall (fun e => ev_sequence e < seq) es ->
  Forall (fun q => row_sequence q < seq) t.
Proof.
  intros Hf%read_rows_ok. induction Hf as [|r e t es Hr Hf IH]; [constructor|].
  intros [H1 H2]%Forall_cons. constructor; [|by apply IH].
  apply row_to_event_fields in Hr as [<- _]. done.
Qed.

Lemma append_chain redactor faults eid ts t es input s t' :
  read_rows t = Ok es -> chain None HashValue_genesis es ->
  append_result redactor faults eid ts t input = Ok (s, t') ->
  exists r e, t' = t ++ [r] /\ read_rows t' = Ok (es ++ [e]) /\
    row_sequence r = match last es with Some l => ev_sequence l + 1 | None => 1 end /\
    row_event_id r = eid /\ (forall q, q ∈ t -> row_event_id q <> eid) /\
    chain None HashValue_genesis (es ++ [e]) /\ recorded redactor input s e.
Proof.
  intros Hr Hc Ha. apply append_result_inv in Ha
    as (summary & metadata & seq & prev & row & Hsum & Hmeta & Hpos & Hb & Hins & Hps & Hpe & Hpt).
  destruct (next_position_chain t es _ _ Hr Hpos) as (Hlen & Hge & Hlast).
  destruct (build_row_event _ _ _ _ _ _ _ _ Hge Hlen Hb) as (e & He & Hrs & Hre & Hfields).
  destruct Hfields as (Hes & Hei & Het & Hca & Hri & Hag & Hop & Hrk & Hd & Hrc & Hm & Hsu & Hme
                       & Hpr & Hcu).
  assert (Hbelow : Forall (fun q => row_sequence q < row_sequence row) t).
  { rewrite Hrs. eapply rows_below; [done|].
    destruct (last es) as [l|] eqn:El; [|apply last_None in El as ->; constructor].
    eapply Forall_impl; [by eapply chain_le_last|]. simpl. lia. }
  destruct (sql_insert_last _ _ _ Hins Hbelow) as [-> Hids].
  exists row, e. split_and!; [done| | |done|by rewrite <- Hre| |].
  - apply read_rows_ok, Forall2_app; [by apply read_rows_ok|]. by repeat constructor.
  - rewrite Hrs. by destruct (last es) as [l|]; destruct Hlast.
  - apply chain_snoc; [done|..].
    + intros p Hp. destruct (last es) as [l|]; [|done]. destruct Hlast. congruence.
    + destruct (last es) as [l|]; destruct Hlast; congruence.
    + by rewrite Hpr.
  - unfold recorded. rewrite Hps, Hpe, Hpt, Hsum, Hmeta, Hsu, Hme. by split_and!.
Qed.

(** ** Reachable logs *)

(** One append, successful or not, with any input and any database fault. *)
Inductive audit_step : AuditTable -> AuditTable -> Prop :=
| audit_append redactor faults eid ts input t :
    audit_step t (snd (AuditStore_append redactor faults eid ts t input)).

Definition audit_reachable (t : AuditTable) : Prop := rtc audit_step [] t.

(** The invariant of a log: it reads back as a valid chain numbered from one,
    with distinct event ids. *)
Record log_ok (t : AuditTable) : Prop := {
  lok_chain : exists es, read_rows t = Ok es /\ chain None HashValue_genesis es;
  lok_sequences : map row_sequence t = map Z.of_nat (seq 1 (length t));
  lok_ids : NoDup (map row_event_id t);
}.

Lemma log_ok_nil : log_ok [].
Proof. constructor; [exists []; split; [done|constructor]|done|constructor]. Qed.

Lemma log_ok_next t es :
  log_ok t -> read_rows t = Ok es ->
  match last es with Some l => ev_sequence l + 1 | None => 1 end = Z.of_nat (S (length t)).
Proof.
  intros [_ Hs _] Hr. pose proof (read_rows_last t es Hr) as Hl.
  destruct t as [|r t] using rev_ind.
  { by destruct (last es). }
  rewrite last_snoc in Hl. destruct (last es) as [l|]; [|done].
  apply row_to_event_fields in Hl as [-> _].
  rewrite length_app, map_app, Nat.add_comm, seq_S, map_app in Hs. simpl in Hs.
  apply app_inj_tail in Hs as [_ Hs]. rewrite Hs, length_app. simpl. lia.
Qed.

Lemma audit_step_ok t t' : log_ok t -> audit_step t t' -> log_ok t'.
Proof.
  intros Hok Hstep. destruct Hstep as [redactor faults eid ts input t].
  unfold AuditStore_append.
  destruct (append_result redactor faults eid ts t input) as [[s t']|err] eqn:Ea; [|done].
  pose proof Hok as [(es & Hr & Hc) Hs Hi].
  destruct (append_chain _ _ _ _ _ _ _ _ _ Hr Hc Ea)
    as (r & e & -> & Hr' & Hseq & Hid & Hne & Hc' & _).
  constructor; simpl.
  - by exists (es ++ [e]).
  - rewrite map_app, Hs, length_app, Nat.add_comm, seq_S, map_app. f_equal. simpl.
    by rewrite Hseq, (log_ok_next t es).
  - rewrite map_app. apply NoDup_app. split_and!; [done| |apply NoDup_singleton].
    intros x (q & -> & Hq)%list_elem_of_fmap Hx%list_elem_of_singleton.
    apply (Hne q Hq). by rewrite Hx.
Qed.

Lemma audit_reachable_ok t : audit_reachable t -> log_ok t.
Proof.
  unfold audit_reachable. intros Hr. pose proof log_ok_nil as Hok. revert Hr Hok.
  generalize (@nil AuditRow) as t0. induction 1 as [|t1 t2 t3 Hstep Hr IH]; [done|].
  intros Hok. apply IH. by eapply audit_step_ok.
Qed.

(** ** Tamper evidence *)

(** The hash after the last event. *)
Definition head_hash (h : string) (es : list AuditEventRecord) : string :=
  match last es with Some e => ev_current_hash e | None => h end.

Definition canonical_bytes (e : AuditEventRecord) : string := encode_canonical (event_fields e).

(** The texts that are hashed for a log: the phrase of the genesis hash and, for each
    event in order, the hash before it followed by its canonical bytes. *)
Fixpoint hashed_after (h : string) (es : list AuditEventRecord) : list string :=
  match es with
  | [] => []
  | e :: rest => (h +:+ canonical_bytes e) :: hashed_after (ev_current_hash e) rest
  end.

Definition hashed (es : list AuditEventRecord) : list string :=
  GENESIS_PHRASE :: hashed_after HashValue_genesis es.

(** Two different texts with the same digest, one hashed for each of two logs. *)
Definition collision (es1 es2 : list AuditEventRecord) : Prop :=
  exists x y, x ∈ hashed es1 /\ y ∈ hashed es2 /\ x <> y /\ sha256 x = sha256 y.

Lemma hashed_snoc es e :
  hashed (es ++ [e])
  = hashed es ++ [head_hash HashValue_genesis es +:+ canonical_bytes e].
Proof.
  unfold hashed. simpl. f_equal. generalize HashValue_genesis as h.
  induction es as [|x es IH]; intros h; [done|]. simpl. rewrite IH. do 2 f_equal.
  unfold head_hash. rewrite last_cons. by destruct (last es).
Qed.

Lemma hashed_last es e : head_hash HashValue_genesis es +:+ canonical_bytes e ∈ hashed (es ++ [e]).
Proof. rewrite hashed_snoc. set_solver. Qed.

Lemma collision_sym es1 es2 : collision es1 es2 -> collision es2 es1.
Proof. intros (x & y & Hx & Hy & Hne & Hs). exists y, x. by split_and!. Qed.

Lemma collision_snoc es1 es2 e1 e2 : collision es1 es2 -> collision (es1 ++ [e1]) (es2 ++ [e2]).
Proof.
  intros (x & y & Hx & Hy & Hne & Hs). exists x, y. rewrite !hashed_snoc. set_solver.
Qed.

Lemma chain_app_inv ps h es e :
  chain ps h (es ++ [e]) ->
  chain ps h es /\ ev_current_hash e = recompute_hash e (head_hash h es).
Proof.
  revert ps h. induction es as [|x es IH]; intros ps h; simpl.
  - inversion 1; subst. split; [constructor|done].
  - inversion 1 as [|? ? ? ? Hs Hp Hc Hes]; subst. apply IH in Hes as [Hes He].
    split; [by constructor|]. rewrite He. unfold head_hash. rewrite last_cons.
    by destruct (last es).
Qed.

Lemma head_hash_len ps es : chain ps HashValue_genesis es -> len (head_hash HashValue_genesis es) = 32.
Proof.
  destruct es as [|e es] using rev_ind; intros Hc; [apply sha256_len|].
  apply chain_app_inv in Hc as [_ He]. unfold head_hash. rewrite last_snoc, He. apply sha256_len.
Qed.

Lemma append_inj_len (a b c d : string) : len a = len b -> a +:+ c = b +:+ d -> a = b /\ c = d.
Proof.
  revert b. induction a as [|x a IH]; intros [|y b]; intros Hl Heq.
  - done.
  - exfalso. rewrite len_cons in Hl. pose proof (len_nonneg b).
    change (len "") with 0 in Hl. lia.
  - exfalso. rewrite len_cons in Hl. pose proof (len_nonneg a).
    change (len "") with 0 in Hl. lia.
  - rewrite !append_cons in Heq. injection Heq as -> Heq. rewrite !len_cons in Hl.
    destruct (IH b) as [-> ->]; [lia|done|done].
Qed.

Lemma genesis_not_event es e ps :
  chain ps HashValue_genesis (es ++ [e]) -> HashValue_genesis = ev_current_hash e ->
  collision [] (es ++ [e]).
Proof.
  intros Hc Heq. apply chain_app_inv in Hc as [Hc He].
  exists GENESIS_PHRASE, (head_hash HashValue_genesis es +:+ canonical_bytes e).
  split_and!; [apply list_elem_of_here|apply hashed_last| |exact (eq_trans Heq He)].
  intros Hx. apply (f_equal len) in Hx. rewrite len_append, (head_hash_len _ _ Hc) in Hx.
  pose proof (len_nonneg (canonical_bytes e)). change (len GENESIS_PHRASE) with 23 in Hx. lia.
Qed.

Lemma same_head es1 es2 :
  chain None HashValue_genesis es1 -> chain None HashValue_genesis es2 ->
  head_hash HashValue_genesis es1 = head_hash HashValue_genesis es2 ->
  map canonical_bytes es1 = map canonical_bytes es2 \/ collision es1 es2.
Proof.
  revert es2. induction es1 as [|e1 es1 IH] using rev_ind; intros es2 Hc1 Hc2.
  - destruct es2 as [|e2 es2 _] using rev_ind; [by left|].
    unfold head_hash. rewrite last_snoc. intros Heq. right. by eapply genesis_not_event.
  - destruct es2 as [|e2 es2 _] using rev_ind; unfold head_hash; rewrite !last_snoc; intros Heq.
    { right. apply collision_sym. symmetry in Heq. by eapply genesis_not_event. }
    apply chain_app_inv in Hc1 as [Hc1 He1]. apply chain_app_inv in Hc2 as [Hc2 He2].
    unfold recompute_hash, HashValue_compute in He1, He2.
    set (x := head_hash HashValue_genesis es1 +:+ canonical_bytes e1).
    set (y := head_hash HashValue_genesis es2 +:+ canonical_bytes e2).
    destruct (decide (x = y)) as [Hxy|Hxy].
    + apply append_inj_len in Hxy as [Hh Hcan];
        [|by rewrite (head_hash_len _ _ Hc1), (head_hash_len _ _ Hc2)].
      destruct (IH es2 Hc1 Hc2 Hh) as [Hm|Hcol]; [left|right; by apply collision_snoc].
      rewrite !map_app. simpl. by rewrite Hm, Hcan.
    + right. exists x, y. split_and!; [apply hashed_last..|done|].
      unfold x, y, canonical_bytes. congruence.
Qed.

End Chain.
