(* ===== verification/AuditProps.v ===== *)
(** * Correctness of the audit log

    The canonical encoder writes field values unescaped, one per line.  On fields without
    line breaks (and rule ids without quotes, and metadata keys without colons) the encoding
    determines every field, and an example shows that the restriction is needed.  Then the
    properties of appending, verifying and checkpoints. *)

From stdpp Require Import base tactics list strings relations pretty.
From Stdlib Require Import ZArith Lia Ascii.
From S2P Require Import Prelude RustStr BTree CorePermit AuditModel AuditVerify AuditChain.

Open Scope Z_scope.

(** [c] does not occur in [s]. *)
Definition free_of (c : ascii) (s : string) : Prop := any_byte (Ascii.eqb c) s = false.

(** Strings are determined by a terminator they do not contain. *)
Lemma split_first c a b r r' :
  free_of c a -> free_of c b -> a +:+ String c r = b +:+ String c r' -> a = b /\ r = r'.
Proof.
  unfold free_of. revert b. induction a as [|x a IH]; intros [|y b] Ha Hb Heq.
  - rewrite !append_nil_l in Heq. naive_solver.
  - rewrite append_nil_l, append_cons in Heq. injection Heq as <- Heq.
    simpl in Hb. by rewrite Ascii.eqb_refl in Hb.
  - rewrite append_nil_l, append_cons in Heq. injection Heq as -> Heq.
    simpl in Ha. by rewrite Ascii.eqb_refl in Ha.
  - rewrite !append_cons in Heq. injection Heq as -> Heq. simpl in Ha, Hb.
    apply orb_false_iff in Ha as [_ Ha], Hb as [_ Hb].
    destruct (IH b Ha Hb Heq) as [-> ->]. done.
Qed.

Lemma free_of_app c a b : free_of c (a +:+ b) <-> free_of c a /\ free_of c b.
Proof. unfold free_of. rewrite any_byte_append, orb_false_iff. done. Qed.

Lemma free_of_cons c x s : free_of c (String x s) <-> c <> x /\ free_of c s.
Proof. unfold free_of. simpl. rewrite orb_false_iff, Ascii.eqb_neq. done. Qed.

(** ** Decimal numbers *)

Lemma dec_free_NL n : free_of NL (dec n).
Proof. apply dec_bytes. intros d. unfold pretty_N_char. by repeat case_match. Qed.

(** ** Lines *)

Definition unlines (l : list string) : string := join "" (map (fun s => s +:+ String NL "") l).

Lemma unlines_cons s l : unlines (s :: l) = s +:+ String NL (unlines l).
Proof.
  unfold unlines, join. destruct l as [|s' l]; simpl map.
  - done.
  - rewrite concat_cons2, append_nil_l, append_assoc. by rewrite append_cons, append_nil_l.
Qed.

Lemma unlines_app l k : unlines (l ++ k) = unlines l +:+ unlines k.
Proof.
  induction l as [|s l IH]; simpl; [by rewrite append_nil_l|].
  by rewrite !unlines_cons, IH, append_assoc, append_cons.
Qed.

Lemma unlines_inj l k :
  Forall (free_of NL) l -> Forall (free_of NL) k -> unlines l = unlines k -> l = k.
Proof.
  intros Hl. revert k. induction Hl as [|s l Hs Hl IH]; intros k Hk Heq.
  - destruct k as [|s k]; [done|]. rewrite unlines_cons in Heq. by destruct s.
  - destruct Hk as [|s' k Hs' Hk].
    + rewrite unlines_cons in Heq. by destruct s.
    + rewrite !unlines_cons in Heq. apply split_first in Heq as [-> Heq]; [|done..].
      by rewrite (IH k Hk Heq).
Qed.

Definition opt_line (kv : string * option string) : list string :=
  match snd kv with Some v => [fst kv +:+ ": " +:+ v] | None => [] end.

Definition entry_line (kv : string * string) : string := "  " +:+ fst kv +:+ ": " +:+ snd kv.

Definition array_value (ids : list string) : string := "[" +:+ join "," (map quoted ids) +:+ "]".

(** The optional fields, in order. *)
Definition optional_fields (f : CanonicalEventFields) : list (string * option string) :=
  [("request_id", cf_request_id f); ("agent_id", cf_agent_id f);
   ("operation", cf_operation f); ("resource_kind", cf_resource_kind f);
   ("resource_summary", cf_resource_summary f); ("decision", cf_decision f);
   ("reason_code", cf_reason_code f)].

Definition canonical_lines (f : CanonicalEventFields) : list string :=
  ["schema_version: " +:+ dec (cf_schema_version f); "sequence: " +:+ dec (cf_sequence f);
   "event_id: " +:+ cf_event_id f; "timestamp: " +:+ cf_timestamp f;
   "category: " +:+ cf_category f]
  ++ flat_map opt_line (optional_fields f)
  ++ ("matched_rule_ids: " +:+ array_value (cf_matched_rule_ids f))
  :: "metadata:" :: map entry_line (cf_metadata f).

Lemma write_fmt_line key v : write_fmt key v = unlines [key +:+ ": " +:+ v].
Proof. rewrite unlines_cons. unfold write_fmt. by rewrite !append_assoc. Qed.

Lemma write_opt_lines key v : write_opt key v = unlines (opt_line (key, v)).
Proof. destruct v; [apply write_fmt_line|done]. Qed.

Lemma write_map_lines m : join "" (map write_map_entry m) = unlines (map entry_line m).
Proof.
  unfold unlines. rewrite map_map. f_equal. apply map_ext. intros [k v].
  unfold write_map_entry, entry_line. simpl. by rewrite !append_assoc.
Qed.

Lemma write_array_line key ids :
  write_array key ids = unlines [key +:+ ": " +:+ array_value ids].
Proof.
  rewrite unlines_cons. unfold write_array, array_value. rewrite !append_assoc.
  do 2 f_equal.
Qed.

Lemma write_map_line key m :
  write_map key m = unlines ((key +:+ ":") :: map entry_line m).
Proof.
  rewrite unlines_cons, <- write_map_lines. unfold write_map.
  by rewrite !append_assoc, !append_cons, !append_nil_l.
Qed.

Lemma encode_canonical_lines f : encode_canonical f = unlines (canonical_lines f).
Proof.
  unfold encode_canonical.
  rewrite !write_fmt_line, !write_opt_lines, write_array_line, write_map_line.
  rewrite <- !unlines_app. f_equal. unfold canonical_lines. cbn [flat_map optional_fields].
  rewrite app_nil_r, <- !app_assoc. reflexivity.
Qed.

(** ** Injectivity *)

(** The fields the store writes on one line each. *)
Record fields_clean (f : CanonicalEventFields) : Prop := {
  fc_version : 0 <= cf_schema_version f;
  fc_sequence : 0 <= cf_sequence f;
  fc_event_id : free_of NL (cf_event_id f);
  fc_timestamp : free_of NL (cf_timestamp f);
  fc_category : free_of NL (cf_category f);
  fc_optional : forall k v, (k, Some v) ∈ optional_fields f -> free_of NL v;
  fc_rule_ids : Forall (fun i => free_of NL i /\ free_of QUOTE i) (cf_matched_rule_ids f);
  fc_metadata : Forall (fun kv => free_of NL (fst kv) /\ free_of ":" (fst kv) /\
                                  free_of NL (snd kv)) (cf_metadata f);
}.

Lemma quoted_free ids :
  Forall (fun i => free_of NL i /\ free_of QUOTE i) ids ->
  free_of NL (join "," (map quoted ids)).
Proof.
  intros Hf. unfold join. induction Hf as [|i ids [Hi _] Hf IH]; [done|].
  assert (Hq : free_of NL (quoted i)).
  { unfold quoted. apply free_of_cons. split; [done|]. by apply free_of_app. }
  destruct ids as [|j ids]; [done|]. simpl map. rewrite concat_cons2.
  apply free_of_app. split; [done|]. by apply free_of_app.
Qed.

Lemma canonical_lines_free f : fields_clean f -> Forall (free_of NL) (canonical_lines f).
Proof.
  intros [_ _ He Ht Hc Ho Hr Hm]. unfold canonical_lines.
  repeat (apply Forall_cons; split; [apply free_of_app; split; [done|done || apply dec_free_NL]|]).
  apply Forall_app. split; [|apply Forall_cons; split; [|apply Forall_cons; split; [done|]]].
  - apply Forall_forall. intros line (kv & Hkv & Hl)%list_elem_of_In%in_flat_map.
    destruct kv as [k [v|]]; [|done]. destruct Hl as [<-|[]].
    apply list_elem_of_In in Hkv. assert (Hk : free_of NL k).
    { unfold optional_fields in Hkv. rewrite !elem_of_cons in Hkv.
      destruct Hkv as [|[|[|[|[|[|[|Hn]]]]]]]; simplify_eq; try done.
      by apply not_elem_of_nil in Hn. }
    apply Ho in Hkv. simpl. apply free_of_app. split; [done|]. by apply free_of_app.
  - apply free_of_app. split; [done|]. unfold array_value.
    apply free_of_app. split; [done|]. apply free_of_app. split; [by apply quoted_free|done].
  - apply Forall_map. eapply Forall_impl; [exact Hm|]. intros [k v] (Hk & _ & Hv). simpl in *.
    unfold entry_line. simpl. apply free_of_app. split; [done|].
    apply free_of_app. split; [done|]. by apply free_of_app.
Qed.

Lemma key_inj k k' v v' :
  free_of ":" k -> free_of ":" k' -> k +:+ ": " +:+ v = k' +:+ ": " +:+ v' -> k = k' /\ v = v'.
Proof.
  intros Hk Hk' Heq. rewrite !append_cons in Heq.
  apply split_first in Heq as [-> Heq]; [|done..]. split; [done|].
  rewrite ?append_nil_l in Heq. by injection Heq.
Qed.

Lemma quoted_inj ids ids' :
  Forall (free_of QUOTE) ids -> Forall (free_of QUOTE) ids' ->
  join "," (map quoted ids) = join "," (map quoted ids') -> ids = ids'.
Proof.
  unfold join. intros Hf. revert ids'.
  assert (Hstep : forall i l, String.concat "," (map quoted (i :: l)) =
    String QUOTE (i +:+ String QUOTE (match l with [] => "" | _ => "," +:+
      String.concat "," (map quoted l) end))).
  { intros i l. simpl map. destruct l as [|j l]; [done|]. simpl map. rewrite concat_cons2.
    unfold quoted at 1. by rewrite append_cons, !append_assoc, append_cons, append_nil_l. }
  induction Hf as [|i ids Hi Hf IH]; intros ids' Hf' Heq.
  { destruct Hf'; [done|]. by rewrite Hstep in Heq. }
  destruct Hf' as [|i' ids' Hi' Hf']; [by rewrite Hstep in Heq|].
  rewrite !Hstep in Heq. injection Heq as Heq.
  apply split_first in Heq as [-> Heq]; [|done..]. f_equal.
  destruct ids as [|j ids], ids' as [|j' ids']; try done. apply IH; [done|].
  rewrite !append_cons, !append_nil_l in Heq. by injection Heq.
Qed.

(** Optional lines are recognized by their keys: equal line lists that continue
    with a line of another key come from the same options. *)
Lemma optional_inj ks os os' m v v' r r' :
  length os = length ks -> length os' = length ks -> NoDup (m :: ks) ->
  Forall (free_of ":") (m :: ks) ->
  flat_map opt_line (zip ks os) ++ (m +:+ ": " +:+ v) :: r =
  flat_map opt_line (zip ks os') ++ (m +:+ ": " +:+ v') :: r' ->
  os = os' /\ v = v' /\ r = r'.
Proof.
  intros Hl Hl' Hnd Hfree. apply NoDup_cons in Hnd as [Hm Hnd].
  apply Forall_cons in Hfree as [Hfm Hfree].
  revert os os' Hl Hl' Hm Hnd. induction Hfree as [|k ks Hk Hfree IH];
    intros [|o os] [|o' os']; try done; intros Hl Hl' Hm Hnd Heq; simpl in *.
  { injection Heq as Heq ->. by apply key_inj in Heq as [_ ->]. }
  apply not_elem_of_cons in Hm as [Hmk Hm]. apply NoDup_cons in Hnd as [Hk' Hnd].
  assert (Hother : forall (os : list (option string)) v r, length os = length ks ->
    forall w l, flat_map opt_line (zip ks os) ++ (m +:+ ": " +:+ v) :: r <> (k +:+ ": " +:+ w) :: l).
  { clear -Hk Hfree Hk' Hmk Hfm. intros os v r Hlen w l.
    revert os Hlen. induction Hfree as [|k1 ks Hk1 Hfree IH]; intros [|o os]; try done; intros Hlen Heq.
    - simpl in Heq. injection Heq as Heq _. apply key_inj in Heq as [-> _]; done.
    - apply not_elem_of_cons in Hk' as [Hne Hk']. destruct o as [w1|]; simpl in Heq.
      + injection Heq as Heq _. apply key_inj in Heq as [-> _]; done.
      + apply (IH Hk' os); [by injection Hlen|done]. }
  injection Hl as Hl. injection Hl' as Hl'.
  destruct o as [w|], o' as [w'|]; cbn [opt_line fst snd app] in Heq.
  - injection Heq as Hw Heq. apply key_inj in Hw as [_ ->]; [|done..].
    by destruct (IH os os' Hl Hl' Hm Hnd Heq) as (-> & -> & ->).
  - symmetry in Heq. by apply Hother in Heq.
  - by apply Hother in Heq.
  - by destruct (IH os os' Hl Hl' Hm Hnd Heq) as (-> & -> & ->).
Qed.

Lemma entry_lines_inj m m' :
  Forall (fun kv => free_of ":" (fst kv)) m -> Forall (fun kv => free_of ":" (fst kv)) m' ->
  map entry_line m = map entry_line m' -> m = m'.
Proof.
  intros Hm. revert m'. induction Hm as [|[k v] m Hk Hm IH]; intros m' Hm' Heq.
  { by destruct Hm'. }
  destruct Hm' as [|[k' v'] m' Hk' Hm']; [done|]. simpl in Heq. injection Heq as Hl Heq.
  apply key_inj in Hl as [-> ->]; [|done..]. f_equal. by apply IH.
Qed.

Definition optional_keys : list string :=
  ["request_id"; "agent_id"; "operation"; "resource_kind"; "resource_summary"; "decision";
   "reason_code"].

Definition optional_values (f : CanonicalEventFields) : list (option string) :=
  [cf_request_id f; cf_agent_id f; cf_operation f; cf_resource_kind f; cf_resource_summary f;
   cf_decision f; cf_reason_code f].

Lemma array_value_inj ids ids' :
  Forall (fun i => free_of NL i /\ free_of QUOTE i) ids ->
  Forall (fun i => free_of NL i /\ free_of QUOTE i) ids' ->
  array_value ids = array_value ids' -> ids = ids'.
Proof.
  intros Hf Hf' Heq. unfold array_value in Heq. apply append_inj_l, append_inj_r in Heq.
  apply quoted_inj; [..|done]; (eapply Forall_impl; [eassumption|by intros ? []]).
Qed.

Lemma canonical_lines_inj f f' :
  fields_clean f -> fields_clean f' -> canonical_lines f = canonical_lines f' -> f = f'.
Proof.
  intros [Hv Hs _ _ _ _ Hr Hm] [Hv' Hs' _ _ _ _ Hr' Hm'] Heq.
  unfold canonical_lines in Heq. cbn [app] in Heq.
  injection Heq as H1 H2 H3 H4 H5 Hrest.
  apply dec_inj in H1; [|done..]. apply dec_inj in H2; [|done..].
  assert (Hnd : NoDup ("matched_rule_ids" :: optional_keys)) by (by apply (bool_decide_unpack _)).
  assert (Hfree : Forall (free_of ":") ("matched_rule_ids" :: optional_keys))
    by (by repeat constructor).
  destruct (optional_inj optional_keys (optional_values f) (optional_values f')
              "matched_rule_ids" (array_value (cf_matched_rule_ids f))
              (array_value (cf_matched_rule_ids f')) _ _ eq_refl eq_refl Hnd Hfree Hrest)
    as (Hopt & Hids & Hmeta).
  apply array_value_inj in Hids; [|done..]. injection Hmeta as Hmeta.
  apply entry_lines_inj in Hmeta;
    [|eapply Forall_impl; [eassumption|by intros ? (? & ? & ?)]..].
  unfold optional_values in Hopt. destruct f, f'; simpl in *. simplify_eq. done.
Qed.

Lemma encode_canonical_inj f f' :
  fields_clean f -> fields_clean f' -> encode_canonical f = encode_canonical f' -> f = f'.
Proof.
  intros Hc Hc' Heq. rewrite !encode_canonical_lines in Heq.
  apply unlines_inj in Heq; [|by apply canonical_lines_free..]. by apply canonical_lines_inj.
Qed.

(** ** The properties *)

Section AuditProperties.
Context {SH : Sha256} {HX : HexLib} {AJ : AuditJson}.

(** A full verification reports a valid chain exactly when every row reads
    back, the first event links to the genesis hash, each later event links to
    its predecessor's hash and continues its numbering, and every stored hash is
    the hash of the event it is stored with. *)
Theorem verify_full_exact t rep :
  AuditStore_verify_full None t = Ok rep ->
  exists es, read_rows t = Ok es /\ vr_event_count rep = Z.of_nat (length t) /\
    (vr_chain_valid rep = true <-> chain None HashValue_genesis es).
Proof.
  unfold AuditStore_verify_full, AuditStore_all_events, fail_if. intros Hv. inv_all.
  exists a. split_and!; [done| |apply verify_events_valid].
  rewrite verify_events_count. apply read_rows_ok, Forall2_length in E. by rewrite E.
Qed.

(** Resuming verification from a checkpoint never verifies anything: for
    every sequence number a log can hold, the requested range runs to the
    largest [u64] and is refused as too large, whatever the log contains. *)
Theorem verify_from_checkpoint_refused fault t hash seq :
  1 <= seq <= I64_MAX ->
  AuditStore_verify_from_checkpoint fault t hash seq =
  Some (Err (AE_VerificationRangeTooLarge (U64_MAX - seq + 1) MAX_VERIFICATION_RANGE)).
Proof.
  intros Hseq. unfold AuditStore_verify_from_checkpoint, AuditStore_events_in_range, range_length.
  unfold I64_MAX, U64_MAX, MAX_VERIFICATION_RANGE in *.
  assert (H1 : (2 ^ 64 - 1 <? seq) = false) by lia.
  assert (H2 : (2 ^ 64 - 1 <? 2 ^ 64 - 1 - seq + 1) = false) by lia.
  rewrite H1, H2. cbn [orb].
  assert (H3 : (100000 <? 2 ^ 64 - 1 - seq + 1) = true) by lia. by rewrite H3.
Qed.

Context {SHL : Sha256Laws} {AJL : AuditJsonLaws}.

(** Appending to a valid log only adds a row at its end and leaves a valid
    log: the new event takes the next number, links to the old head, and
    records the input with its rule ids sorted and deduplicated and its summary
    and metadata redacted. *)
Theorem append_extends_log redactor faults eid ts t rep input s t' :
  AuditStore_verify_full None t = Ok rep -> vr_chain_valid rep = true ->
  AuditStore_append redactor faults eid ts t input = (Ok s, t') ->
  exists rep' r e,
    t' = t ++ [r] /\ row_to_event r = Some e /\ recorded redactor input s e /\
    pes_sequence s = vr_verified_to rep + 1 /\
    AuditStore_verify_full None t' = Ok rep' /\ vr_chain_valid rep' = true /\
    vr_event_count rep' = vr_event_count rep + 1 /\ vr_verified_to rep' = pes_sequence s.
Proof.
  intros Hv Hvalid Ha. unfold AuditStore_append in Ha.
  destruct (append_result redactor faults eid ts t input) as [[s0 t0]|] eqn:Er; simplify_eq.
  unfold AuditStore_verify_full, AuditStore_all_events, fail_if in *. inv_all.
  apply verify_events_valid in Hvalid.
  destruct (append_chain _ _ _ _ _ _ _ _ _ E Hvalid Er)
    as (r & e & -> & Hr & Hseq & Hid & Hne & Hc & Hrec).
  exists (verify_events (a ++ [e]) None), r, e. rewrite Hr.
  assert (Hre : row_to_event r = Some e).
  { pose proof (read_rows_last _ _ Hr) as Hl. by rewrite !last_snoc in Hl. }
  assert (Hs : pes_sequence s = row_sequence r).
  { destruct Hrec as [<- _]. by apply row_to_event_fields in Hre as [-> _]. }
  split_and!; [done..| | |by apply verify_events_valid| |].
  - rewrite Hs, Hseq. destruct a as [|x a]; [done|]. simpl. by destruct (last (x :: a)).
  - done.
  - rewrite !verify_events_count, length_app. simpl. lia.
  - destruct Hrec as [<- _]. unfold verify_events.
    destruct (a ++ [e]) as [|x l] eqn:El; [by destruct a|]. rewrite <- El. simpl.
    by rewrite last_snoc.
Qed.

(** (C20) Every log the store can reach, through any sequence of appends,
    successful or failing at any point, verifies, is numbered 1, 2, 3, ... without
    gaps, and has distinct event ids. *)
Theorem reachable_log_valid t :
  audit_reachable t ->
  exists rep, AuditStore_verify_full None t = Ok rep /\ vr_chain_valid rep = true /\
    vr_errors rep = [] /\
    map row_sequence t = map Z.of_nat (seq 1 (length t)) /\ NoDup (map row_event_id t).
Proof.
  intros [(es & Hr & Hc) Hs Hi]%audit_reachable_ok.
  exists (verify_events es None). unfold AuditStore_verify_full, AuditStore_all_events, fail_if.
  rewrite Hr. apply verify_events_valid in Hc as Hv. split_and!; [done..| |done|done].
  destruct es as [|e es]; [done|]. unfold verify_events in *. simpl in *.
  by destruct (_ ++ _).
Qed.

(** (C21) The head hash commits to the whole log: two logs that verify and end in
    the same hash have the same canonical events, number for number, or SHA-256 collides
    on two different texts that were hashed for these very logs, one for each: the
    genesis phrase or the hash before an event with that event's canonical bytes. *)
Theorem head_hash_commits t1 t2 es1 es2 rep1 rep2 :
  read_rows t1 = Ok es1 -> read_rows t2 = Ok es2 ->
  AuditStore_verify_full None t1 = Ok rep1 -> vr_chain_valid rep1 = true ->
  AuditStore_verify_full None t2 = Ok rep2 -> vr_chain_valid rep2 = true ->
  head_hash HashValue_genesis es1 = head_hash HashValue_genesis es2 ->
  map canonical_bytes es1 = map canonical_bytes es2 \/ collision es1 es2.
Proof.
  intros Hr1 Hr2 Hv1 Hb1 Hv2 Hb2 Hh.
  unfold AuditStore_verify_full, AuditStore_all_events, fail_if in *.
  rewrite Hr1 in Hv1. rewrite Hr2 in Hv2. inv_all.
  apply verify_events_valid in Hb1, Hb2. by apply same_head.
Qed.

End AuditProperties.

(** The canonical encoding determines the event: on fields without line
    breaks, rule ids without quotes and metadata keys without colons, equal
    encodings come from equal fields. *)
Theorem canonical_injective f f' :
  fields_clean f -> fields_clean f' -> encode_canonical f = encode_canonical f' -> f = f'.
Proof. apply encode_canonical_inj. Qed.

Definition ex_fields (request_id agent_id : option string) : CanonicalEventFields :=
  {| cf_schema_version := 1; cf_sequence := 1; cf_event_id := "e"; cf_timestamp := "t";
     cf_category := "RequestReceived"; cf_request_id := request_id; cf_agent_id := agent_id;
     cf_operation := None; cf_resource_kind := None; cf_resource_summary := None;
     cf_decision := None; cf_reason_code := None; cf_matched_rule_ids := [];
     cf_metadata := [] |}.

(** Without those restrictions it does not: a line break in a request id
    forges an agent id, so two different events share one encoding and hence
    one hash. *)
Theorem canonical_not_injective :
  exists f f', f <> f' /\ cf_agent_id f <> cf_agent_id f' /\
    encode_canonical f = encode_canonical f'.
Proof.
  exists (ex_fields (Some "r") (Some "x")),
         (ex_fields (Some ("r" +:+ String NL "agent_id: x")) None).
  split_and!; [done|done|vm_compute; reflexivity].
Qed.

(** ** Witnesses *)

(** A digest of the right size, and JSON that only writes empty collections. *)
Fixpoint fit (n : nat) (s : string) : string :=
  match n with
  | O => ""
  | S n' => match s with
            | EmptyString => String "x" (fit n' "")
            | String c s' => String c (fit n' s')
            end
  end.

Lemma fit_len n s : len (fit n s) = Z.of_nat n.
Proof.
  revert s. induction n as [|n IH]; intros s; [done|].
  destruct s; simpl fit; rewrite len_cons, IH; lia.
Qed.

#[local] Instance ex_sha : Sha256 := {| sha256 s := fit 32 s |}.
#[local] Instance ex_sha_laws : Sha256Laws := {| sha256_len s := fit_len 32 s |}.
#[local] Instance ex_hex : HexLib := {| hex_encode s := s; hex_decode s := Ok s |}.
#[local] Instance ex_json : AuditJson := {|
  ids_to_json ids := match ids with [] => Ok "[]" | _ => Err "unsupported" end;
  ids_from_json s := if String.eqb s "[]" then Some [] else None;
  map_to_json m := match m with [] => Ok "{}" | _ => Err "unsupported" end;
  map_from_json s := if String.eqb s "{}" then Some [] else None;
  conversion_message s := s;
|}.

#[local] Instance ex_json_laws : AuditJsonLaws.
Proof. constructor; [intros [|] j|intros [|] j]; simpl; intros [= <-]; done. Defined.

Definition ex_input : AuditAppendInput :=
  {| ai_category := RequestReceived; ai_request_id := Some "req-1"; ai_agent_id := None;
     ai_operation := None; ai_resource_kind := None; ai_resource_summary := None;
     ai_decision := None; ai_reason_code := None; ai_matched_rule_ids := [];
     ai_metadata := [] |}.

Definition ex_log (ids : list string) : AuditTable :=
  foldl (fun t id => snd (AuditStore_append None no_faults id "now" t ex_input)) [] ids.

Definition ex_report (t : AuditTable) : VerificationReport :=
  match AuditStore_verify_full None t with
  | Ok rep => rep
  | Err _ => {| vr_chain_valid := false; vr_event_count := 0; vr_verified_to := 0; vr_errors := [] |}
  end.

Definition ex_events (t : AuditTable) : list AuditEventRecord :=
  match read_rows t with Ok es => es | Err _ => [] end.

Lemma ex_one_verifies :
  AuditStore_verify_full None (ex_log ["a"]) = Ok (ex_report (ex_log ["a"])).
Proof. vm_compute. reflexivity. Defined.

Lemma ex_two_verifies :
  AuditStore_verify_full None (ex_log ["a"; "b"]) = Ok (ex_report (ex_log ["a"; "b"])).
Proof. vm_compute. reflexivity. Defined.

Lemma verify_full_exact_witness :
  exists es, read_rows (ex_log ["a"; "b"]) = Ok es /\ chain None HashValue_genesis es.
Proof.
  destruct (verify_full_exact (ex_log ["a"; "b"]) (ex_report (ex_log ["a"; "b"]))
              ex_two_verifies) as (es & Hr & _ & Hc).
  exists es. split; [exact Hr|apply Hc; vm_compute; reflexivity].
Defined.

Lemma verify_from_checkpoint_refused_witness :
  AuditStore_verify_from_checkpoint None (ex_log ["a"]) "h" 1 =
  Some (Err (AE_VerificationRangeTooLarge (U64_MAX - 1 + 1) MAX_VERIFICATION_RANGE)).
Proof. apply (verify_from_checkpoint_refused None (ex_log ["a"]) "h" 1). by vm_compute. Defined.

Lemma append_extends_log_witness :
  exists rep', AuditStore_verify_full None (ex_log ["a"; "b"]) = Ok rep' /\
    vr_chain_valid rep' = true.
Proof.
  destruct (append_extends_log None no_faults "b" "now" (ex_log ["a"]) (ex_report (ex_log ["a"]))
              ex_input {| pes_sequence := 2; pes_event_id := "b"; pes_timestamp := "now";
                          pes_category := RequestReceived;
                          pes_previous_hash := "kavach-audit-genesis-v1xxxxxxxxx";
                          pes_current_hash := "kavach-audit-genesis-v1xxxxxxxxx" |}
              (ex_log ["a"; "b"]) ex_one_verifies)
    as (rep' & _ & _ & _ & _ & _ & _ & Hv & Hb & _); [vm_compute; reflexivity..|].
  exists rep'. split; [exact Hv|exact Hb].
Defined.

Lemma reachable_log_valid_witness : NoDup (map row_event_id (ex_log ["a"])).
Proof.
  destruct (reachable_log_valid (ex_log ["a"])) as (_ & _ & _ & _ & _ & Hn); [|exact Hn].
  eapply rtc_l; [apply (audit_append None no_faults "a" "now" ex_input [])|apply rtc_refl].
Defined.

(** A digest that keeps only the first 32 bytes takes two different logs to the same
    head, and the two texts that it confuses are among those it was given. *)
Lemma head_hash_commits_witness :
  canonical_bytes <$> ex_events (ex_log ["a"]) <> canonical_bytes <$> ex_events (ex_log ["b"])
  /\ collision (ex_events (ex_log ["a"])) (ex_events (ex_log ["b"])).
Proof.
  assert (Hne : canonical_bytes <$> ex_events (ex_log ["a"])
                <> canonical_bytes <$> ex_events (ex_log ["b"])) by (vm_compute; discriminate).
  split; [exact Hne|].
  destruct (head_hash_commits (ex_log ["a"]) (ex_log ["b"]) (ex_events (ex_log ["a"]))
              (ex_events (ex_log ["b"])) (ex_report (ex_log ["a"])) (ex_report (ex_log ["b"])))
    as [Hsame|Hcol]; [vm_compute; reflexivity..|destruct (Hne Hsame)|exact Hcol].
Defined.

Lemma canonical_injective_witness : ex_fields (Some "r") (Some "x") = ex_fields (Some "r") (Some "x").
Proof.
  assert (Hc : fields_clean (ex_fields (Some "r") (Some "x"))).
  { constructor; try done; try constructor. intros k v. unfold optional_fields.
    rewrite !elem_of_cons. intros [|[|[|[|[|[|[|Hn]]]]]]]; simplify_eq/=; try done. by apply not_elem_of_nil in Hn. }
  exact (canonical_injective _ _ Hc Hc eq_refl).
Defined.
