(* ===== verification/ApprovalModel.v ===== *)
(** * Approvals: types, tokens and the approval store

    crates/kavach-approval/src/types.rs, error.rs, token.rs and store.rs.  The
    [approvals] table is the list of its rows in insertion order; RFC 3339
    formatting and parsing ([chrono]) are parameters, and every database call
    takes the faults it may report.  A [DateTime<Utc>] is a number of
    nanoseconds. *)

From stdpp Require Import base tactics list strings.
From Stdlib Require Import ZArith Lia Ascii.
From S2P Require Import Prelude RustStr BTree CoreError CoreIds CoreRequest CorePermit.
From S2P Require Import AuditModel.

Open Scope Z_scope.

(** ** Errors *)

(** [ApprovalErrorKind]; [ApprovalError] only wraps it. *)
Inductive ApprovalError :=
| APE_InvalidRequest (detail : string)
| APE_InvalidConfiguration (detail : string)
| APE_InvalidActor (detail : string)
| APE_InvalidReason (detail : string)
| APE_SummaryTooLarge (size : Z)
| APE_DatabaseOpen (detail : string)
| APE_MigrationFailure (detail : string)
| APE_DatabaseCorruption (detail : string)
| APE_ApprovalNotFound
| APE_DuplicateActiveApproval
| APE_PendingLimitReached
| APE_InvalidStateTransition (from to : string)
| APE_AlreadyApproved
| APE_AlreadyDenied
| APE_Cancelled
| APE_Expired
| APE_InvalidToken
| APE_TokenBindingMismatch
| APE_TokenAlreadyConsumed
| APE_RequestDigestMismatch
| APE_TransactionFailure (detail : string)
| APE_AuditFailure (detail : string)
| APE_RedactionFailure (detail : string)
| APE_QueryLimitExceeded.

(** [Display for ApprovalError]. *)
Definition ApprovalError_display (e : ApprovalError) : string :=
  match e with
  | APE_InvalidRequest d => "invalid request: " +:+ d
  | APE_InvalidConfiguration d => "invalid configuration: " +:+ d
  | APE_InvalidActor d => "invalid actor: " +:+ d
  | APE_InvalidReason d => "invalid reason: " +:+ d
  | APE_SummaryTooLarge s => "summary too large: " +:+ dec s +:+ " bytes exceeds maximum"
  | APE_DatabaseOpen d => "database open failure: " +:+ d
  | APE_MigrationFailure d => "migration failure: " +:+ d
  | APE_DatabaseCorruption d => "database corruption: " +:+ d
  | APE_ApprovalNotFound => "approval not found"
  | APE_DuplicateActiveApproval => "duplicate active approval for request"
  | APE_PendingLimitReached => "maximum pending approvals reached"
  | APE_InvalidStateTransition from to =>
      "invalid state transition: " +:+ from +:+ " -> " +:+ to
  | APE_AlreadyApproved => "approval already approved"
  | APE_AlreadyDenied => "approval already denied"
  | APE_Cancelled => "approval was cancelled"
  | APE_Expired => "approval has expired"
  | APE_InvalidToken => "invalid approval token"
  | APE_TokenBindingMismatch => "token binding does not match this approval"
  | APE_TokenAlreadyConsumed => "token has already been consumed"
  | APE_RequestDigestMismatch => "request digest does not match"
  | APE_TransactionFailure d => "transaction failure: " +:+ d
  | APE_AuditFailure d => "audit event append failed: " +:+ d
  | APE_RedactionFailure d => "redaction failure: " +:+ d
  | APE_QueryLimitExceeded => "query limit exceeded"
  end.

(** ** Types *)

Definition MAX_APPROVAL_TTL_SECONDS : Z := 86400.
Definition DEFAULT_APPROVAL_TTL_SECONDS : Z := 3600.
Definition MAX_PENDING_APPROVALS : Z := 10000.
Definition DEFAULT_MAX_PENDING_APPROVALS : Z := 1000.
Definition MAX_APPROVAL_SUMMARY_LENGTH : Z := 4096.
Definition MAX_ACTOR_ID_LENGTH : Z := 256.
Definition MAX_QUERY_LIMIT : Z := 1000.

(** [ApprovalStoreConfig] and its default. *)
Record ApprovalStoreConfig := {
  cfg_default_ttl_seconds : Z;
  cfg_max_pending : Z;
}.

Definition ApprovalStoreConfig_default : ApprovalStoreConfig :=
  {| cfg_default_ttl_seconds := DEFAULT_APPROVAL_TTL_SECONDS;
     cfg_max_pending := DEFAULT_MAX_PENDING_APPROVALS |}.

(** [ApprovalState]. *)
Inductive ApprovalState := AS_Pending | AS_Approved | AS_Denied | AS_Expired | AS_Consumed
| AS_Cancelled.

#[export] Instance ApprovalState_eq_dec : EqDecision ApprovalState.
Proof. solve_decision. Defined.

(** [Display for ApprovalState]. *)
Definition ApprovalState_display (s : ApprovalState) : string :=
  match s with
  | AS_Pending => "pending"
  | AS_Approved => "approved"
  | AS_Denied => "denied"
  | AS_Expired => "expired"
  | AS_Consumed => "consumed"
  | AS_Cancelled => "cancelled"
  end.

(** [ApprovalActor] and [ApprovalActor::new]. *)
Record ApprovalActor := ApprovalActor_raw { actor_str : string }.

Definition ApprovalActor_new (s : string) : result ApprovalError ApprovalActor :=
  if is_empty s then Err (APE_InvalidActor "actor id must not be empty")
  else if MAX_ACTOR_ID_LENGTH <? len s then
    Err (APE_InvalidActor ("actor id length " +:+ dec (len s) +:+ " exceeds maximum "
                           +:+ dec MAX_ACTOR_ID_LENGTH))
  else Ok (ApprovalActor_raw s).

(** [ApprovalRequest]. *)
Record ApprovalRequest := {
  areq_request : ToolRequest;
  areq_matched_rule_ids : list string;
  areq_summary : string;
}.

(** [PendingApproval]. *)
Record PendingApproval := {
  pa_approval_id : ApprovalId;
  pa_request_id : string;
  pa_request_digest : string;
  pa_summary : string;
  pa_operation : string;
  pa_resource_kind : string;
  pa_matched_rule_ids : list string;
  pa_created_at : Z;
  pa_expires_at : Z;
  pa_state : ApprovalState;
}.

(** [ApprovalRecord]. *)
Record ApprovalRecord := {
  ar_approval_id : ApprovalId;
  ar_request_id : string;
  ar_request_digest : string;
  ar_summary : string;
  ar_operation : string;
  ar_resource_kind : string;
  ar_matched_rule_ids : list string;
  ar_created_at : Z;
  ar_expires_at : Z;
  ar_state : ApprovalState;
  ar_actor : option ApprovalActor;
  ar_denial_reason : option string;
  ar_decision_at : option Z;
  ar_consumed_at : option Z;
  ar_audit_sequence : option Z;
}.

(** [ConsumedApproval]. *)
Record ConsumedApproval := {
  ca_approval_id : ApprovalId;
  ca_request_digest : string;
  ca_matched_rule_ids : list string;
  ca_consumed_at : Z;
  ca_audit_sequence : option Z;
}.

(** [ApprovalRow]. *)
Record ApprovalRow := {
  apr_approval_id : string;
  apr_request_id : string;
  apr_request_digest_hex : string;
  apr_summary : string;
  apr_operation : string;
  apr_resource_kind : string;
  apr_matched_rule_ids : string;
  apr_created_at : string;
  apr_expires_at : string;
  apr_state : string;
  apr_token_hash : option string;
  apr_actor_id : option string;
  apr_denial_reason : option string;
  apr_decision_at : option string;
  apr_consumed_at : option string;
  apr_audit_sequence : option Z;
}.

(** ** Parameters *)

(** [DateTime<Utc>] to and from RFC 3339 text. *)
Class Rfc3339 := {
  to_rfc3339 : Z -> string;
  parse_rfc3339 : string -> result string Z;
}.

(** The instants with a four-digit year, in nanoseconds since the epoch. *)
Definition rfc3339_range (t : Z) : Prop :=
  -62167219200 * 10 ^ 9 <= t < 253402300800 * 10 ^ 9.

(** What is printed reads back, and UTC times of four-digit years are printed
    in an order-preserving way. *)
Class Rfc3339Laws `{Rfc3339} := {
  rfc3339_round_trip t : rfc3339_range t -> parse_rfc3339 (to_rfc3339 t) = Ok t;
  rfc3339_order t u : rfc3339_range t -> rfc3339_range u ->
    str_cmp (to_rfc3339 t) (to_rfc3339 u) = (t ?= u);
}.

(** The text of the [serde_json] error for a malformed list of rule ids. *)
Class IdsJsonError := { ids_error : string -> string }.

(** [hex] decodes what it encodes. *)
Class HexLaws `{HexLib} := { hex_round_trip s : hex_decode (hex_encode s) = Ok s }.

(** ** Tokens *)

(** [ApprovalToken], its 32 bytes. *)
Record ApprovalToken := ApprovalToken_raw { token_value : string }.

(** [ApprovalToken::generate], from what [getrandom] delivers. *)
Definition ApprovalToken_generate (random : result string string)
  : result ApprovalError ApprovalToken :=
  match random with
  | Ok value => Ok (ApprovalToken_raw value)
  | Err e => Err (APE_InvalidConfiguration ("failed to generate random token: " +:+ e))
  end.

(** [ApprovalToken::hash]. *)
Definition ApprovalToken_hash `{Sha256} (t : ApprovalToken) : string := sha256 (token_value t).

(** [ApprovalToken::verify_hash]. *)
Definition ApprovalToken_verify_hash `{Sha256} (t : ApprovalToken) (stored_hash : string) : bool :=
  String.eqb (ApprovalToken_hash t) stored_hash.

(** ** The table *)

Abbreviation ApprovalTable := (list ApprovalRow).

(** A row with its decision columns replaced; the others never change. *)
Definition apr_update (r : ApprovalRow) (state : string)
    (token_hash actor_id denial_reason decision_at consumed_at : option string)
    (audit_sequence : option Z) : ApprovalRow :=
  {| apr_approval_id := apr_approval_id r;
     apr_request_id := apr_request_id r;
     apr_request_digest_hex := apr_request_digest_hex r;
     apr_summary := apr_summary r;
     apr_operation := apr_operation r;
     apr_resource_kind := apr_resource_kind r;
     apr_matched_rule_ids := apr_matched_rule_ids r;
     apr_created_at := apr_created_at r;
     apr_expires_at := apr_expires_at r;
     apr_state := state;
     apr_token_hash := token_hash;
     apr_actor_id := actor_id;
     apr_denial_reason := denial_reason;
     apr_decision_at := decision_at;
     apr_consumed_at := consumed_at;
     apr_audit_sequence := audit_sequence |}.

(** [WHERE approval_id = ?]. *)
Definition has_id (id : string) (r : ApprovalRow) : bool := String.eqb (apr_approval_id r) id.

(** [WHERE state IN ('pending', 'approved')]. *)
Definition is_active (r : ApprovalRow) : bool :=
  String.eqb (apr_state r) "pending" || String.eqb (apr_state r) "approved".

(** [... AND expires_at < ?]: columns are compared as text. *)
Definition is_overdue (now : string) (r : ApprovalRow) : bool :=
  is_active r && match str_cmp (apr_expires_at r) now with Lt => true | _ => false end.

(** [UPDATE approvals SET .. WHERE p]. *)
Definition sql_update (p : ApprovalRow -> bool) (f : ApprovalRow -> ApprovalRow)
    (t : ApprovalTable) : ApprovalTable :=
  map (fun r => if p r then f r else r) t.

(** [ORDER BY created_at ASC]; rows of the same time stay in table order. *)
Fixpoint insert_by_created (r : ApprovalRow) (t : ApprovalTable) : ApprovalTable :=
  match t with
  | [] => [r]
  | q :: t' =>
      match str_cmp (apr_created_at r) (apr_created_at q) with
      | Gt => q :: insert_by_created r t'
      | _ => r :: t
      end
  end.

Definition order_by_created (t : ApprovalTable) : ApprovalTable :=
  foldr insert_by_created [] t.

(** ** Database calls *)

(** The faults of a database call: taking the lock or opening the transaction,
    preparing or running the query, executing the statement, committing. *)
Record StoreFaults := {
  sf_begin : option string;
  sf_query : option string;
  sf_execute : option string;
  sf_commit : option string;
}.

Definition no_store_faults : StoreFaults :=
  {| sf_begin := None; sf_query := None; sf_execute := None; sf_commit := None |}.

(** How the body of a transaction ends: an early return rolls back, [commit]
    keeps the table. *)
Inductive TxOutcome (A : Type) :=
| Rollback (e : ApprovalError)
| Commit (r : result ApprovalError A) (t : ApprovalTable).
Arguments Rollback {A} e.
Arguments Commit {A} r t.

(** [transaction_with_behavior(Immediate)], the body, [commit]. *)
Definition transaction {A} (f : StoreFaults) (body : ApprovalTable -> TxOutcome A)
  : stateful ApprovalTable ApprovalError A :=
  fun t =>
    match sf_begin f with
    | Some m => (Err (APE_TransactionFailure m), t)
    | None =>
        match body t with
        | Rollback e => (Err e, t)
        | Commit r t' =>
            match sf_commit f with
            | Some m => (Err (APE_TransactionFailure m), t)
            | None => (r, t')
            end
        end
    end.

(** [tx.execute(..).map_err(transaction_failure)?] on the rest of the body. *)
Definition tx_execute {A} (f : StoreFaults) (k : TxOutcome A) : TxOutcome A :=
  match sf_execute f with
  | Some m => Rollback (APE_TransactionFailure m)
  | None => k
  end.

(** A [u64] parameter that does not fit SQLite's integers fails the statement. *)
Definition tx_bind_u64 `{AuditJson} {A} (n : Z) (k : TxOutcome A) : TxOutcome A :=
  if I64_MAX <? n then Rollback (APE_TransactionFailure (conversion_message "u64 out of range"))
  else k.

(** A query outside a transaction. *)
Definition read_query {A} (f : StoreFaults) (k : result ApprovalError A) : result ApprovalError A :=
  match sf_begin f with
  | Some m => Err (APE_TransactionFailure m)
  | None => match sf_query f with
            | Some m => Err (APE_TransactionFailure m)
            | None => k
            end
  end.

(** ** The store *)

(** [validate_config]. *)
Definition validate_config (config : ApprovalStoreConfig) : result ApprovalError unit :=
  if (cfg_default_ttl_seconds config =? 0)
     || (MAX_APPROVAL_TTL_SECONDS <? cfg_default_ttl_seconds config) then
    Err (APE_InvalidRequest ("default approval TTL must be between 1 and "
                             +:+ dec MAX_APPROVAL_TTL_SECONDS +:+ " seconds"))
  else if (cfg_max_pending config =? 0) || (MAX_PENDING_APPROVALS <? cfg_max_pending config) then
    Err (APE_InvalidRequest ("max pending approvals must be between 1 and "
                             +:+ dec MAX_PENDING_APPROVALS))
  else Ok tt.

Section Store.
Context {SH : Sha256} {HX : HexLib} {AJ : AuditJson} {CH : Rfc3339} {IE : IdsJsonError}.

(** The row [insert_pending] writes. *)
Definition pending_row (pending : PendingApproval) (rule_ids_json : string) : ApprovalRow :=
  {| apr_approval_id := id_str (pa_approval_id pending);
     apr_request_id := pa_request_id pending;
     apr_request_digest_hex := hex_encode (pa_request_digest pending);
     apr_summary := pa_summary pending;
     apr_operation := pa_operation pending;
     apr_resource_kind := pa_resource_kind pending;
     apr_matched_rule_ids := rule_ids_json;
     apr_created_at := to_rfc3339 (pa_created_at pending);
     apr_expires_at := to_rfc3339 (pa_expires_at pending);
     apr_state := "pending";
     apr_token_hash := None;
     apr_actor_id := None;
     apr_denial_reason := None;
     apr_decision_at := None;
     apr_consumed_at := None;
     apr_audit_sequence := None |}.

(** [insert_pending]; the approval id is the primary key. *)
Definition insert_pending (f : StoreFaults) (pending : PendingApproval)
  : stateful ApprovalTable ApprovalError unit :=
  fun t =>
    match sf_begin f with
    | Some m => (Err (APE_TransactionFailure m), t)
    | None =>
        match ids_to_json (pa_matched_rule_ids pending) with
        | Err e => (Err (APE_DatabaseCorruption e), t)
        | Ok rule_ids_json =>
            match sf_execute f with
            | Some m => (Err (APE_TransactionFailure m), t)
            | None =>
                if existsb (has_id (id_str (pa_approval_id pending))) t then
                  (Err (APE_TransactionFailure (conversion_message "unique constraint")), t)
                else (Ok tt, t ++ [pending_row pending rule_ids_json])
            end
        end
    end.

(** [SELECT COUNT] with a condition. *)
Definition count_rows (p : ApprovalRow -> bool) (t : ApprovalTable) : Z :=
  Z.of_nat (length (List.filter p t)).

(** [count_active_for_digest]. *)
Definition count_active_for_digest (f : StoreFaults) (digest : string) (t : ApprovalTable)
  : result ApprovalError Z :=
  read_query f
    (Ok (count_rows (fun r => String.eqb (apr_request_digest_hex r) (hex_encode digest)
                              && is_active r) t)).

(** [count_pending]. *)
Definition count_pending (f : StoreFaults) (t : ApprovalTable) : result ApprovalError Z :=
  read_query f (Ok (count_rows (fun r => String.eqb (apr_state r) "pending") t)).

(** [load]. *)
Definition load (f : StoreFaults) (approval_id : string) (t : ApprovalTable)
  : result ApprovalError (option ApprovalRow) :=
  read_query f (Ok (List.find (has_id approval_id) t)).

(** The row read at the start of a transition; every query error is reported as
    a missing approval. *)
Definition tx_select {A} (f : StoreFaults) (approval_id : string) (t : ApprovalTable)
    (k : ApprovalRow -> TxOutcome A) : TxOutcome A :=
  match sf_query f with
  | Some _ => Rollback APE_ApprovalNotFound
  | None => match List.find (has_id approval_id) t with
            | None => Rollback APE_ApprovalNotFound
            | Some r => k r
            end
  end.

(** The branch that expires a row whose time has passed and reports an invalid
    transition. *)
Definition tx_expire {A} (f : StoreFaults) (approval_id at_ from to : string) (t : ApprovalTable)
  : TxOutcome A :=
  tx_execute f
    (Commit (Err (APE_InvalidStateTransition from to))
       (sql_update (has_id approval_id)
          (fun r => apr_update r "expired" (apr_token_hash r) (apr_actor_id r)
                      (apr_denial_reason r) (Some at_) (apr_consumed_at r)
                      (apr_audit_sequence r)) t)).

(** [transition_to_approved]; [now] is the reading of the clock. *)
Definition transition_to_approved (f : StoreFaults) (approval_id token_hash actor_id decision_at : string)
    (audit_seq now : Z) : stateful ApprovalTable ApprovalError unit :=
  transaction f (fun t =>
    tx_select f approval_id t (fun row =>
      if negb (String.eqb (apr_state row) "pending") then
        Rollback (APE_InvalidStateTransition (apr_state row) "approved")
      else
        match parse_rfc3339 (apr_expires_at row) with
        | Err e => Rollback (APE_DatabaseCorruption ("invalid expires_at: " +:+ e))
        | Ok expires =>
            if expires <=? now then tx_expire f approval_id decision_at "pending" "approved" t
            else
              tx_execute f (tx_bind_u64 audit_seq
                (Commit (Ok tt)
                   (sql_update (has_id approval_id)
                      (fun r => apr_update r "approved" (Some (hex_encode token_hash))
                                  (Some actor_id) (apr_denial_reason r) (Some decision_at)
                                  (apr_consumed_at r) (Some audit_seq)) t)))
        end)).

(** [transition_to_denied]. *)
Definition transition_to_denied (f : StoreFaults) (approval_id actor_id : string)
    (denial_reason : option string) (decision_at : string) (audit_seq : Z)
  : stateful ApprovalTable ApprovalError unit :=
  transaction f (fun t =>
    tx_select f approval_id t (fun row =>
      if negb (String.eqb (apr_state row) "pending") then
        Rollback (APE_InvalidStateTransition (apr_state row) "denied")
      else
        tx_execute f (tx_bind_u64 audit_seq
          (Commit (Ok tt)
             (sql_update (has_id approval_id)
                (fun r => apr_update r "denied" (apr_token_hash r) (Some actor_id) denial_reason
                            (Some decision_at) (apr_consumed_at r) (Some audit_seq)) t))))).

(** [transition_to_cancelled]. *)
Definition transition_to_cancelled (f : StoreFaults) (approval_id decision_at : string)
    (audit_seq : Z) : stateful ApprovalTable ApprovalError unit :=
  transaction f (fun t =>
    tx_select f approval_id t (fun row =>
      if negb (String.eqb (apr_state row) "pending") then
        Rollback (APE_InvalidStateTransition (apr_state row) "cancelled")
      else
        tx_execute f (tx_bind_u64 audit_seq
          (Commit (Ok tt)
             (sql_update (has_id approval_id)
                (fun r => apr_update r "cancelled" (apr_token_hash r) (apr_actor_id r)
                            (apr_denial_reason r) (Some decision_at) (apr_consumed_at r)
                            (Some audit_seq)) t))))).

(** [has_overdue]. *)
Definition has_overdue (f : StoreFaults) (now : string) (t : ApprovalTable)
  : result ApprovalError bool :=
  read_query f (Ok (existsb (is_overdue now) t)).

(** [SqliteApprovalStore::expire_overdue]. *)
Definition store_expire_overdue (f : StoreFaults) (now : string) (audit_seq : Z)
  : stateful ApprovalTable ApprovalError (list string) :=
  transaction f (fun t =>
    match sf_query f with
    | Some m => Rollback (APE_TransactionFailure m)
    | None =>
        let ids := map apr_approval_id (List.filter (is_overdue now) t) in
        match ids with
        | [] => Commit (Ok ids) t
        | _ :: _ =>
            tx_execute f (tx_bind_u64 audit_seq
              (Commit (Ok ids)
                 (sql_update (is_overdue now)
                    (fun r => apr_update r "expired" (apr_token_hash r) (apr_actor_id r)
                                (apr_denial_reason r) (Some now) (apr_consumed_at r)
                                (Some audit_seq)) t)))
        end
    end).

(** [SqliteApprovalStore::consume]. *)
Definition store_consume (f : StoreFaults) (approval_id consumed_at : string) (audit_seq now : Z)
  : stateful ApprovalTable ApprovalError unit :=
  transaction f (fun t =>
    tx_select f approval_id t (fun row =>
      if negb (String.eqb (apr_state row) "approved") then
        Rollback (APE_InvalidStateTransition (apr_state row) "consumed")
      else
        match parse_rfc3339 (apr_expires_at row) with
        | Err e => Rollback (APE_DatabaseCorruption ("invalid expires_at: " +:+ e))
        | Ok expires =>
            if expires <=? now then tx_expire f approval_id consumed_at "approved" "consumed" t
            else
              tx_execute f (tx_bind_u64 audit_seq
                (Commit (Ok tt)
                   (sql_update (has_id approval_id)
                      (fun r => apr_update r "consumed" None (apr_actor_id r)
                                  (apr_denial_reason r) (apr_decision_at r) (Some consumed_at)
                                  (Some audit_seq)) t)))
        end)).

(** [SqliteApprovalStore::list_pending]. *)
Definition store_list_pending (f : StoreFaults) (limit : Z) (t : ApprovalTable)
  : result ApprovalError (list ApprovalRow) :=
  if MAX_QUERY_LIMIT <? limit then Err APE_QueryLimitExceeded
  else read_query f
         (Ok (take (Z.to_nat limit)
                (order_by_created
                   (List.filter (fun r => String.eqb (apr_state r) "pending") t)))).

(** [SqliteApprovalStore::list_after_sequence]. *)
Definition store_list_after_sequence (f : StoreFaults) (after_sequence limit : Z)
    (t : ApprovalTable) : result ApprovalError (list ApprovalRow) :=
  if MAX_QUERY_LIMIT <? limit then Err APE_QueryLimitExceeded
  else read_query f
         (if I64_MAX <? after_sequence then
            Err (APE_TransactionFailure (conversion_message "u64 out of range"))
          else
            Ok (take (Z.to_nat limit)
                  (order_by_created
                     (List.filter
                        (fun r => after_sequence <? default 0 (apr_audit_sequence r)) t)))).

(** [update_audit_sequence]. *)
Definition update_audit_sequence (f : StoreFaults) (approval_id : string) (audit_seq : Z)
  : stateful ApprovalTable ApprovalError unit :=
  fun t =>
    match sf_begin f with
    | Some m => (Err (APE_TransactionFailure m), t)
    | None =>
        match sf_execute f with
        | Some m => (Err (APE_TransactionFailure m), t)
        | None =>
            if I64_MAX <? audit_seq then
              (Err (APE_TransactionFailure (conversion_message "u64 out of range")), t)
            else
              (Ok tt, sql_update (has_id approval_id)
                        (fun r => apr_update r (apr_state r) (apr_token_hash r) (apr_actor_id r)
                                    (apr_denial_reason r) (apr_decision_at r)
                                    (apr_consumed_at r) (Some audit_seq)) t)
        end
    end.

(** [parse_state]. *)
Definition parse_state (s : string) : result ApprovalError ApprovalState :=
  if String.eqb s "pending" then Ok AS_Pending
  else if String.eqb s "approved" then Ok AS_Approved
  else if String.eqb s "denied" then Ok AS_Denied
  else if String.eqb s "expired" then Ok AS_Expired
  else if String.eqb s "consumed" then Ok AS_Consumed
  else if String.eqb s "cancelled" then Ok AS_Cancelled
  else Err (APE_DatabaseCorruption ("unknown approval state: " +:+ s)).

(** [parse_rule_ids] (broker.rs), also the same steps of [row_to_record]. *)
Definition parse_rule_ids (value : string) : result ApprovalError (list string) :=
  let? rule_ids := ok_or (APE_DatabaseCorruption ("invalid matched rule IDs: " +:+ ids_error value))
                         (ids_from_json value) in
  let? _ := for_each (fun rule_id =>
              map_err (fun e => APE_DatabaseCorruption
                                  ("invalid matched rule ID: " +:+ DomainError_display e))
                      (validate_id rule_id)) rule_ids in
  Ok rule_ids.

(** An optional column parsed as a timestamp. *)
Definition parse_opt_time (column : string) (value : option string)
  : result ApprovalError (option Z) :=
  match value with
  | None => Ok None
  | Some v =>
      let? t := map_err (fun e => APE_DatabaseCorruption
                           ("invalid " +:+ column +:+ " timestamp: " +:+ e)) (parse_rfc3339 v) in
      Ok (Some t)
  end.

(** [row_to_record]. *)
Definition row_to_record (row : ApprovalRow) : result ApprovalError ApprovalRecord :=
  let? digest_bytes :=
    map_err (fun e => APE_DatabaseCorruption ("invalid request digest: " +:+ e))
            (hex_decode (apr_request_digest_hex row)) in
  let? digest := ok_or (APE_DatabaseCorruption "request digest is not 32 bytes")
                       (hash_from_blob digest_bytes) in
  let? rule_ids := parse_rule_ids (apr_matched_rule_ids row) in
  let? created :=
    map_err (fun e => APE_DatabaseCorruption ("invalid created_at timestamp: " +:+ e))
            (parse_rfc3339 (apr_created_at row)) in
  let? expires :=
    map_err (fun e => APE_DatabaseCorruption ("invalid expires_at timestamp: " +:+ e))
            (parse_rfc3339 (apr_expires_at row)) in
  let? approval_id :=
    map_err (fun e => APE_DatabaseCorruption
                        ("invalid stored approval ID: " +:+ DomainError_display e))
            (Id_new (apr_approval_id row)) in
  let? actor :=
    match apr_actor_id row with
    | None => Ok None
    | Some a =>
        let? x := map_err (fun e => APE_DatabaseCorruption
                                      ("invalid stored actor: " +:+ ApprovalError_display e))
                          (ApprovalActor_new a) in
        Ok (Some x)
    end in
  let? decision_at := parse_opt_time "decision_at" (apr_decision_at row) in
  let? consumed_at := parse_opt_time "consumed_at" (apr_consumed_at row) in
  let? state := parse_state (apr_state row) in
  Ok {| ar_approval_id := approval_id;
        ar_request_id := apr_request_id row;
        ar_request_digest := digest;
        ar_summary := apr_summary row;
        ar_operation := apr_operation row;
        ar_resource_kind := apr_resource_kind row;
        ar_matched_rule_ids := rule_ids;
        ar_created_at := created;
        ar_expires_at := expires;
        ar_state := state;
        ar_actor := actor;
        ar_denial_reason := apr_denial_reason row;
        ar_decision_at := decision_at;
        ar_consumed_at := consumed_at;
        ar_audit_sequence := apr_audit_sequence row |}.

End Store.
