(* ===== verification/ApprovalBroker.v ===== *)
(** * The approval broker

    crates/kavach-approval/src/broker.rs.  A call reads and writes two separate
    databases, the approvals and the audit log; an error does not undo what the
    call has already written.  Everything a call takes from its surroundings
    (clock readings, random bytes, fresh identifiers, database faults) is in its
    [CallEnv]. *)

From stdpp Require Import base tactics list strings.
From Stdlib Require Import ZArith Lia Ascii.
From S2P Require Import Prelude RustStr BTree CoreError CoreIds CoreResource CoreRequest.
From S2P Require Import CorePermit AuditModel ApprovalModel.

Open Scope Z_scope.

(** ** State and surroundings *)

(** The two databases behind [SqliteApprovalBroker]. *)
Record BrokerState := {
  br_approvals : ApprovalTable;
  br_audit : AuditTable;
}.

Record CallEnv := {
  ce_lock : option string;          (** a poisoned transition lock *)
  ce_clock : nat -> Z;              (** the successive readings of the clock *)
  ce_store : nat -> StoreFaults;    (** the faults of the successive store calls *)
  ce_append : AppendFaults;         (** the faults of the audit append *)
  ce_event_id : string;             (** the fresh id of the audit event *)
  ce_timestamp : string;            (** the timestamp of the audit event *)
  ce_uuid : string;                 (** the fresh approval id *)
  ce_random : result string string; (** the bytes of [getrandom] *)
}.

Definition DEFAULT_PAGE_SIZE : Z := 100.

(** One second, in nanoseconds. *)
Definition SECOND : Z := 1000000000.

Section Broker.
Context {SH : Sha256} {HX : HexLib} {AJ : AuditJson} {CH : Rfc3339} {IE : IdsJsonError}.
Context {RJ : RequestJson}.

(** The configuration of the store and the redactor of the audit store. *)
Variable config : ApprovalStoreConfig.
Variable redactor : TextRedactor.

Abbreviation broker A := (stateful BrokerState ApprovalError A).

(** A store call that writes. *)
Definition on_store {A} (m : stateful ApprovalTable ApprovalError A) : broker A :=
  fun s =>
    let '(r, t) := m (br_approvals s) in
    (r, {| br_approvals := t; br_audit := br_audit s |}).

(** A store call that only reads. *)
Definition ask_store {A} (q : ApprovalTable -> result ApprovalError A) : broker A :=
  fun s => (q (br_approvals s), s).

(** [append_audit_event]. *)
Definition append_audit_event (env : CallEnv) (category : AuditEventCategory)
    (request_id operation resource_kind resource_summary decision reason_code : option string)
    (matched_rule_ids : list string) (metadata : str_map) : broker Z :=
  fun s =>
    let input := {| ai_category := category;
                    ai_request_id := request_id;
                    ai_agent_id := Some "kavach-approval";
                    ai_operation := operation;
                    ai_resource_kind := resource_kind;
                    ai_resource_summary := resource_summary;
                    ai_decision := decision;
                    ai_reason_code := reason_code;
                    ai_matched_rule_ids := matched_rule_ids;
                    ai_metadata := metadata |} in
    let '(r, log) := AuditStore_append redactor (ce_append env) (ce_event_id env)
                       (ce_timestamp env) (br_audit s) input in
    (match r with
     | Ok summary => Ok (pes_sequence summary)
     | Err e => Err (APE_AuditFailure (AuditError_display e))
     end,
     {| br_approvals := br_approvals s; br_audit := log |}).

(** The event a transition of [row] records. *)
Definition append_row_event (env : CallEnv) (category : AuditEventCategory) (row : ApprovalRow)
    (decision : string) (reason_code : option string) (matched_rule_ids : list string)
    (metadata : str_map) : broker Z :=
  append_audit_event env category (Some (apr_request_id row)) (Some (apr_operation row))
    (Some (apr_resource_kind row)) (Some (apr_summary row)) (Some decision) reason_code
    matched_rule_ids metadata.

(** The event an expiry records. *)
Definition append_expired_event (env : CallEnv) (metadata : str_map) : broker Z :=
  append_audit_event env ApprovalExpired None None None None (Some "expired") None [] metadata.

(** [self.transition_lock.lock()]. *)
Definition lock_transition (env : CallEnv) : result ApprovalError unit :=
  match ce_lock env with Some m => Err (APE_TransactionFailure m) | None => Ok tt end.

(** [ensure_transitionable]: clock reading 0, store calls 0 and 1. *)
Definition ensure_transitionable (env : CallEnv) (approval_id : ApprovalId)
    (expected_state target_state : string) : broker ApprovalRow :=
  let! loaded := ask_store (load (ce_store env 0) (id_str approval_id)) in
  let! row := st_lift (ok_or APE_ApprovalNotFound loaded) in
  if negb (String.eqb (apr_state row) expected_state) then
    st_lift (Err (APE_InvalidStateTransition (apr_state row) target_state))
  else
    let! expires_at := st_lift (map_err APE_DatabaseCorruption
                                  (parse_rfc3339 (apr_expires_at row))) in
    let now := ce_clock env 0 in
    if expires_at <=? now then
      let! seq := append_expired_event env [("approval_id", id_str approval_id)] in
      let! _ := on_store (store_expire_overdue (ce_store env 1) (to_rfc3339 now) seq) in
      st_lift (Err (APE_InvalidStateTransition "expired" target_state))
    else st_ret row.

(** ** The operations *)

(** The checks of [request_approval] and the approval it is about to insert
    (store calls 0 and 1). *)
Definition request_check (env : CallEnv) (request : ApprovalRequest) (ttl_seconds : option Z)
  : broker PendingApproval :=
  let now := ce_clock env 0 in
  let ttl := Z.min (default (cfg_default_ttl_seconds config) ttl_seconds)
               MAX_APPROVAL_TTL_SECONDS in
  let summary := areq_summary request in
  let req := areq_request request in
  if MAX_APPROVAL_SUMMARY_LENGTH <? len summary then
    st_lift (Err (APE_SummaryTooLarge (len summary)))
  else
    let request_digest := compute_request_digest req in
    let! active_count := ask_store (count_active_for_digest (ce_store env 0) request_digest) in
    if 0 <? active_count then st_lift (Err APE_DuplicateActiveApproval)
    else
      let! pending_count := ask_store (count_pending (ce_store env 1)) in
      if cfg_max_pending config <=? pending_count then st_lift (Err APE_PendingLimitReached)
      else
        let expires_at := now + ttl * SECOND in
        let rule_ids := vec_dedup (vec_sort (areq_matched_rule_ids request)) in
        let! approval_id := st_lift (map_err (fun e => APE_InvalidRequest (DomainError_display e))
                                       (Id_new (ce_uuid env))) in
        st_ret {| pa_approval_id := approval_id;
                  pa_request_id := id_str (tr_request_id req);
                  pa_request_digest := request_digest;
                  pa_summary := summary;
                  pa_operation := Operation_as_str (tr_operation req);
                  pa_resource_kind := ResourceKind_display (Resource_kind (tr_resource req));
                  pa_matched_rule_ids := rule_ids;
                  pa_created_at := now;
                  pa_expires_at := expires_at;
                  pa_state := AS_Pending |}.

(** The insertion, the audit event and the recording of its number (store
    calls 2 and 3). *)
Definition request_insert (env : CallEnv) (pending : PendingApproval) : broker PendingApproval :=
  let! _ := on_store (insert_pending (ce_store env 2) pending) in
  let metadata := bmap_insert "request_id" (pa_request_id pending)
                    (bmap_insert "approval_id" (id_str (pa_approval_id pending)) []) in
  let! seq := append_audit_event env ApprovalRequested (Some (pa_request_id pending))
                (Some (pa_operation pending)) (Some (pa_resource_kind pending))
                (Some (pa_summary pending)) (Some "pending") None
                (pa_matched_rule_ids pending) metadata in
  let! _ := on_store (update_audit_sequence (ce_store env 3)
                        (id_str (pa_approval_id pending)) seq) in
  st_ret pending.

(** [request_approval]; the transition lock is not taken. *)
Definition request_approval (env : CallEnv) (request : ApprovalRequest) (ttl_seconds : option Z)
  : broker PendingApproval :=
  let! pending := request_check env request ttl_seconds in
  request_insert env pending.

(** [approve]: clock readings 1 and 2, store call 2. *)
Definition approve (env : CallEnv) (approval_id : ApprovalId) (actor : ApprovalActor)
  : broker ApprovalToken :=
  let! _ := st_lift (lock_transition env) in
  let! row := ensure_transitionable env approval_id "pending" "approved" in
  let! matched_rule_ids := st_lift (parse_rule_ids (apr_matched_rule_ids row)) in
  let! token := st_lift (ApprovalToken_generate (ce_random env)) in
  let token_hash := ApprovalToken_hash token in
  let decision_at := to_rfc3339 (ce_clock env 1) in
  let metadata := bmap_insert "actor" (actor_str actor)
                    (bmap_insert "approval_id" (id_str approval_id) []) in
  let! seq := append_row_event env ApprovalApproved row "approved" None matched_rule_ids metadata in
  let! _ := on_store (transition_to_approved (ce_store env 2) (id_str approval_id) token_hash
                        (actor_str actor) decision_at seq (ce_clock env 2)) in
  st_ret token.

(** [deny]. *)
Definition deny (env : CallEnv) (approval_id : ApprovalId) (actor : ApprovalActor)
    (reason : option string) : broker unit :=
  let! _ := st_lift (lock_transition env) in
  let! row := ensure_transitionable env approval_id "pending" "denied" in
  let! matched_rule_ids := st_lift (parse_rule_ids (apr_matched_rule_ids row)) in
  let decision_at := to_rfc3339 (ce_clock env 1) in
  let metadata := bmap_insert "actor" (actor_str actor)
                    (bmap_insert "approval_id" (id_str approval_id) []) in
  let metadata := match reason with
                  | Some r => bmap_insert "reason" r metadata
                  | None => metadata
                  end in
  let! seq := append_row_event env ApprovalDenied row "denied" reason matched_rule_ids metadata in
  on_store (transition_to_denied (ce_store env 2) (id_str approval_id) (actor_str actor) reason
              decision_at seq).

(** [cancel]. *)
Definition cancel (env : CallEnv) (approval_id : ApprovalId) : broker unit :=
  let! _ := st_lift (lock_transition env) in
  let! row := ensure_transitionable env approval_id "pending" "cancelled" in
  let! matched_rule_ids := st_lift (parse_rule_ids (apr_matched_rule_ids row)) in
  let decision_at := to_rfc3339 (ce_clock env 1) in
  let metadata := [("approval_id", id_str approval_id)] in
  let! seq := append_row_event env DecisionDeny row "cancelled" (Some "cancelled")
                matched_rule_ids metadata in
  on_store (transition_to_cancelled (ce_store env 2) (id_str approval_id) decision_at seq).

(** [consume]: clock readings 1 to 3, store call 2. *)
Definition consume (env : CallEnv) (approval_id : ApprovalId) (token : ApprovalToken)
  : broker ConsumedApproval :=
  let! _ := st_lift (lock_transition env) in
  let! row := ensure_transitionable env approval_id "approved" "consumed" in
  let! matched_rule_ids := st_lift (parse_rule_ids (apr_matched_rule_ids row)) in
  let! stored_hash_hex := st_lift (ok_or APE_InvalidToken (apr_token_hash row)) in
  let! stored_hash := st_lift (map_err (fun _ => APE_InvalidToken) (hex_decode stored_hash_hex)) in
  if negb (ApprovalToken_verify_hash token stored_hash) then st_lift (Err APE_InvalidToken)
  else
    let! digest_bytes := st_lift (map_err (fun e => APE_DatabaseCorruption
                                                      ("invalid request digest: " +:+ e))
                                    (hex_decode (apr_request_digest_hex row))) in
    let! request_digest := st_lift (ok_or (APE_DatabaseCorruption "invalid request digest length")
                                      (hash_from_blob digest_bytes)) in
    let consumed_at := to_rfc3339 (ce_clock env 1) in
    let metadata := [("approval_id", id_str approval_id)] in
    let! seq := append_row_event env ApprovalConsumed row "consumed" None matched_rule_ids
                  metadata in
    let! _ := on_store (store_consume (ce_store env 2) (id_str approval_id) consumed_at seq
                          (ce_clock env 2)) in
    st_ret {| ca_approval_id := approval_id;
              ca_request_digest := request_digest;
              ca_matched_rule_ids := matched_rule_ids;
              ca_consumed_at := ce_clock env 3;
              ca_audit_sequence := Some seq |}.

(** [expire_overdue]. *)
Definition expire_overdue (env : CallEnv) : broker (list string) :=
  let! _ := st_lift (lock_transition env) in
  let now := to_rfc3339 (ce_clock env 0) in
  let! overdue := ask_store (has_overdue (ce_store env 0) now) in
  if negb overdue then st_ret []
  else
    let! seq := append_expired_event env [] in
    on_store (store_expire_overdue (ce_store env 1) now seq).

(** [list_pending]. *)
Definition list_pending (env : CallEnv) (limit : option Z) : broker (list ApprovalRecord) :=
  let! rows := ask_store (store_list_pending (ce_store env 0) (default DEFAULT_PAGE_SIZE limit)) in
  st_lift (map_result row_to_record rows).

(** [list_after_sequence]. *)
Definition list_after_sequence (env : CallEnv) (after_sequence : Z) (limit : option Z)
  : broker (list ApprovalRecord) :=
  let! rows := ask_store (store_list_after_sequence (ce_store env 0) after_sequence
                            (default DEFAULT_PAGE_SIZE limit)) in
  st_lift (map_result row_to_record rows).

(** [get_approval]. *)
Definition get_approval (env : CallEnv) (approval_id : ApprovalId) : broker ApprovalRecord :=
  let! loaded := ask_store (load (ce_store env 0) (id_str approval_id)) in
  let! row := st_lift (ok_or APE_ApprovalNotFound loaded) in
  st_lift (row_to_record row).

(** ** Histories *)

(** A call on the broker, and what it returned. *)
Inductive BrokerCall :=
| Call_request (request : ApprovalRequest) (ttl_seconds : option Z)
| Call_approve (approval_id : ApprovalId) (actor : ApprovalActor)
| Call_deny (approval_id : ApprovalId) (actor : ApprovalActor) (reason : option string)
| Call_cancel (approval_id : ApprovalId)
| Call_consume (approval_id : ApprovalId) (token : ApprovalToken)
| Call_expire
| Call_list_pending (limit : option Z)
| Call_list_after (after_sequence : Z) (limit : option Z)
| Call_get (approval_id : ApprovalId).

Inductive BrokerReply :=
| Reply_pending (r : result ApprovalError PendingApproval)
| Reply_token (r : result ApprovalError ApprovalToken)
| Reply_unit (r : result ApprovalError unit)
| Reply_consumed (r : result ApprovalError ConsumedApproval)
| Reply_ids (r : result ApprovalError (list string))
| Reply_records (r : result ApprovalError (list ApprovalRecord))
| Reply_record (r : result ApprovalError ApprovalRecord).

Definition reply {A} (f : result ApprovalError A -> BrokerReply) (m : broker A) (s : BrokerState)
  : BrokerReply * BrokerState :=
  let '(r, s') := m s in (f r, s').

Definition run_call (env : CallEnv) (call : BrokerCall) : BrokerState -> BrokerReply * BrokerState :=
  match call with
  | Call_request request ttl => reply Reply_pending (request_approval env request ttl)
  | Call_approve id actor => reply Reply_token (approve env id actor)
  | Call_deny id actor reason => reply Reply_unit (deny env id actor reason)
  | Call_cancel id => reply Reply_unit (cancel env id)
  | Call_consume id token => reply Reply_consumed (consume env id token)
  | Call_expire => reply Reply_ids (expire_overdue env)
  | Call_list_pending limit => reply Reply_records (list_pending env limit)
  | Call_list_after after limit => reply Reply_records (list_after_sequence env after limit)
  | Call_get id => reply Reply_record (get_approval env id)
  end.

(** What happened: the call, its surroundings and its reply. *)
Record Exchange := {
  ex_env : CallEnv;
  ex_call : BrokerCall;
  ex_reply : BrokerReply;
}.

(** The state and the exchanges after serving calls one after the other. *)
Fixpoint serve (calls : list (CallEnv * BrokerCall)) (s : BrokerState)
  : list Exchange * BrokerState :=
  match calls with
  | [] => ([], s)
  | (env, call) :: rest =>
      let '(r, s1) := run_call env call s in
      let '(h, s2) := serve rest s1 in
      ({| ex_env := env; ex_call := call; ex_reply := r |} :: h, s2)
  end.

Definition fresh_broker : BrokerState := {| br_approvals := []; br_audit := [] |}.

End Broker.
