(* ===== verification/ApprovalSpec.v ===== *)
(** * What a call on the approval broker can do

    [call_effect] lists every way a call can change the two databases; each call
    of [run_call], under any faults and clock readings, has one of these effects
    ([run_call_effect]). *)

From stdpp Require Import base tactics list strings relations.
From Stdlib Require Import ZArith Lia Ascii.
From S2P Require Import Prelude RustStr BTree CoreError CoreIds CoreResource CoreRequest.
From S2P Require Import CorePermit AuditModel AuditVerify AuditChain ApprovalModel ApprovalBroker.

Open Scope Z_scope.

(** ** The life cycle *)

Inductive approval_next : ApprovalState -> ApprovalState -> Prop :=
| next_approved : approval_next AS_Pending AS_Approved
| next_denied : approval_next AS_Pending AS_Denied
| next_cancelled : approval_next AS_Pending AS_Cancelled
| next_pending_expired : approval_next AS_Pending AS_Expired
| next_approved_expired : approval_next AS_Approved AS_Expired
| next_consumed : approval_next AS_Approved AS_Consumed.

(** The states no approval leaves. *)
Definition terminal (s : ApprovalState) : Prop := s <> AS_Pending /\ s <> AS_Approved.

(** The columns that bind an approval to its request. *)
Definition same_binding (r r' : ApprovalRow) : Prop :=
  apr_approval_id r' = apr_approval_id r /\ apr_request_id r' = apr_request_id r /\
  apr_request_digest_hex r' = apr_request_digest_hex r /\ apr_summary r' = apr_summary r /\
  apr_operation r' = apr_operation r /\ apr_resource_kind r' = apr_resource_kind r /\
  apr_matched_rule_ids r' = apr_matched_rule_ids r /\
  apr_created_at r' = apr_created_at r /\ apr_expires_at r' = apr_expires_at r.

#[export] Instance same_binding_preorder : PreOrder same_binding.
Proof.
  split; [by intros r; repeat split|].
  intros r1 r2 r3 H1 H2. unfold same_binding in *. intuition congruence.
Qed.

Lemma apr_update_binding r st th a d da ca sq : same_binding r (apr_update r st th a d da ca sq).
Proof. by repeat split. Qed.
#[export] Hint Resolve apr_update_binding : kavach.

Section Spec.
Context {SH : Sha256} {HX : HexLib} {AJ : AuditJson} {CH : Rfc3339} {IE : IdsJsonError}.
Context {RJ : RequestJson}.
Variable config : ApprovalStoreConfig.
Variable redactor : TextRedactor.

(** ** Effects *)

(** The log gained one event of the given category, numbered [seq]. *)
Definition logged (c : AuditEventCategory) (seq : Z) (log log' : AuditTable) : Prop :=
  exists input faults eid ts sum,
    append_result redactor faults eid ts log input = Ok (sum, log') /\
    ai_category input = c /\ pes_sequence sum = seq.

(** [r] is the row a request of [e] inserts. *)
Definition requested_by (e : Exchange) (r : ApprovalRow) : Prop :=
  exists req ttl,
    ex_call e = Call_request req ttl /\ apr_approval_id r = ce_uuid (ex_env e) /\
    apr_request_digest_hex r = hex_encode (compute_request_digest (areq_request req)) /\
    apr_state r = "pending" /\ apr_token_hash r = None /\
    len (areq_summary req) <= MAX_APPROVAL_SUMMARY_LENGTH.

(** The reply hands out nothing: no token and no consumption. *)
Definition grants_nothing (rep : BrokerReply) : Prop :=
  match rep with
  | Reply_token (Ok _) | Reply_consumed (Ok _) => False
  | _ => True
  end.

(** The rows of [t] that [p] selects become expired. *)
Definition expire_rows (p : ApprovalRow -> bool) (at_ : string) (sq : ApprovalRow -> option Z)
    (t : ApprovalTable) : ApprovalTable :=
  sql_update p (fun r => apr_update r "expired" (apr_token_hash r) (apr_actor_id r)
                           (apr_denial_reason r) (Some at_) (apr_consumed_at r) (sq r)) t.

(** The row with this id, read in the given state and not past its expiry. *)
Definition live_row (t : ApprovalTable) (id : string) (state : string) (now : Z)
    (row : ApprovalRow) : Prop :=
  List.find (has_id id) t = Some row /\ apr_state row = state /\
  exists expires, parse_rfc3339 (apr_expires_at row) = Ok expires /\ now < expires.

(** The row with this id, read in the given state past its expiry. *)
Definition stale_row (t : ApprovalTable) (id : string) (state : string) (now : Z)
    (row : ApprovalRow) : Prop :=
  List.find (has_id id) t = Some row /\ apr_state row = state /\
  exists expires, parse_rfc3339 (apr_expires_at row) = Ok expires /\ expires <= now.

(** The attempts that the store refuses when the approval expires while they are under
    way: the call, the approval it is about, the state it starts from and the category of
    the event that it has already written. *)
Inductive attempts : BrokerCall -> string -> ApprovalState -> AuditEventCategory -> Prop :=
| attempts_approve id actor : attempts (Call_approve id actor) (id_str id) AS_Pending ApprovalApproved
| attempts_consume id token : attempts (Call_consume id token) (id_str id) AS_Approved ApprovalConsumed.

Inductive call_effect (e : Exchange) (s : BrokerState) : BrokerState -> Prop :=
| eff_none :
    grants_nothing (ex_reply e) -> call_effect e s s
| eff_logged c seq log :
    grants_nothing (ex_reply e) -> logged c seq (br_audit s) log ->
    call_effect e s {| br_approvals := br_approvals s; br_audit := log |}
| eff_overdue now seq log :
    grants_nothing (ex_reply e) -> logged ApprovalExpired seq (br_audit s) log ->
    call_effect e s
      {| br_approvals := expire_rows (is_overdue now) now (fun _ => Some seq) (br_approvals s);
         br_audit := log |}
| eff_stale id state at_ row c seq log :
    grants_nothing (ex_reply e) -> attempts (ex_call e) id state c ->
    live_row (br_approvals s) id (ApprovalState_display state) (ce_clock (ex_env e) 0) row ->
    stale_row (br_approvals s) id (ApprovalState_display state) (ce_clock (ex_env e) 2) row ->
    logged c seq (br_audit s) log ->
    call_effect e s
      {| br_approvals := expire_rows (has_id id) at_ apr_audit_sequence (br_approvals s);
         br_audit := log |}
| eff_inserted row :
    grants_nothing (ex_reply e) -> requested_by e row ->
    existsb (has_id (apr_approval_id row)) (br_approvals s) = false ->
    count_rows (fun r => String.eqb (apr_request_digest_hex r) (apr_request_digest_hex row)
                         && is_active r) (br_approvals s) = 0 ->
    count_rows (fun r => String.eqb (apr_state r) "pending") (br_approvals s)
      < cfg_max_pending config ->
    call_effect e s {| br_approvals := br_approvals s ++ [row]; br_audit := br_audit s |}
| eff_requested row seq log :
    grants_nothing (ex_reply e) -> requested_by e row ->
    existsb (has_id (apr_approval_id row)) (br_approvals s) = false ->
    count_rows (fun r => String.eqb (apr_request_digest_hex r) (apr_request_digest_hex row)
                         && is_active r) (br_approvals s) = 0 ->
    count_rows (fun r => String.eqb (apr_state r) "pending") (br_approvals s)
      < cfg_max_pending config ->
    logged ApprovalRequested seq (br_audit s) log ->
    call_effect e s {| br_approvals := br_approvals s ++ [row]; br_audit := log |}
| eff_approved id actor tok row at_ seq log :
    ex_call e = Call_approve id actor -> ex_reply e = Reply_token (Ok tok) ->
    live_row (br_approvals s) (id_str id) "pending" (ce_clock (ex_env e) 0) row ->
    live_row (br_approvals s) (id_str id) "pending" (ce_clock (ex_env e) 2) row ->
    logged ApprovalApproved seq (br_audit s) log ->
    call_effect e s
      {| br_approvals :=
           sql_update (has_id (id_str id))
             (fun r => apr_update r "approved" (Some (hex_encode (ApprovalToken_hash tok)))
                         (Some (actor_str actor)) (apr_denial_reason r) (Some at_)
                         (apr_consumed_at r) (Some seq)) (br_approvals s);
         br_audit := log |}
| eff_refused id state actor_id reason row at_ c seq log :
    grants_nothing (ex_reply e) ->
    (state = "denied" /\ c = ApprovalDenied \/ state = "cancelled" /\ c = DecisionDeny) ->
    live_row (br_approvals s) id "pending" (ce_clock (ex_env e) 0) row ->
    logged c seq (br_audit s) log ->
    call_effect e s
      {| br_approvals :=
           sql_update (has_id id)
             (fun r => apr_update r state (apr_token_hash r) (actor_id r) (reason r) (Some at_)
                         (apr_consumed_at r) (Some seq)) (br_approvals s);
         br_audit := log |}
| eff_consumed id tok c row at_ seq log :
    ex_call e = Call_consume id tok -> ex_reply e = Reply_consumed (Ok c) ->
    live_row (br_approvals s) (id_str id) "approved" (ce_clock (ex_env e) 0) row ->
    live_row (br_approvals s) (id_str id) "approved" (ce_clock (ex_env e) 2) row ->
    (exists stored, apr_token_hash row = Some stored /\
       hex_decode stored = Ok (ApprovalToken_hash tok)) ->
    hex_decode (apr_request_digest_hex row) = Ok (ca_request_digest c) ->
    ca_approval_id c = id -> ca_audit_sequence c = Some seq ->
    logged ApprovalConsumed seq (br_audit s) log ->
    call_effect e s
      {| br_approvals :=
           sql_update (has_id (id_str id))
             (fun r => apr_update r "consumed" None (apr_actor_id r) (apr_denial_reason r)
                         (apr_decision_at r) (Some at_) (Some seq)) (br_approvals s);
         br_audit := log |}.

(** ** Inversion of the building blocks *)

Lemma st_lift_inv {S E A} (x : result E A) (s : S) r s' :
  st_lift x s = (r, s') -> r = x /\ s' = s.
Proof. by intros [= <- <-]. Qed.

Lemma ask_store_inv {A} (q : ApprovalTable -> result ApprovalError A) s r s' :
  ask_store q s = (r, s') -> r = q (br_approvals s) /\ s' = s.
Proof. by intros [= <- <-]. Qed.

Lemma on_store_inv {A} (m : stateful ApprovalTable ApprovalError A) s r s' :
  on_store m s = (r, s') ->
  exists t, m (br_approvals s) = (r, t) /\ s' = {| br_approvals := t; br_audit := br_audit s |}.
Proof. unfold on_store. destruct (m (br_approvals s)) as [x t]. intros [= <- <-]. eauto. Qed.

Lemma append_event_inv env c ri op rk rs d rc ids meta s r s' :
  append_audit_event redactor env c ri op rk rs d rc ids meta s = (r, s') ->
  (exists e, r = Err e /\ s' = s) \/
  (exists seq log, r = Ok seq /\ logged c seq (br_audit s) log /\
     s' = {| br_approvals := br_approvals s; br_audit := log |}).
Proof.
  unfold append_audit_event, AuditStore_append.
  destruct (append_result _ _ _ _ _ _) as [[sum log]|err] eqn:Ea; intros [= <- <-].
  - right. exists (pes_sequence sum), log. split_and!; [done| |done].
    by eexists _, _, _, _, _.
  - left. destruct s. eauto.
Qed.

Lemma read_query_ok {A} f (k : result ApprovalError A) a : read_query f k = Ok a -> k = Ok a.
Proof. unfold read_query. by repeat case_match. Qed.

(** A transaction keeps the table or commits. *)
Lemma transaction_inv {A} f (body : ApprovalTable -> TxOutcome A) t r t' :
  transaction f body t = (r, t') ->
  (exists e, r = Err e /\ t' = t) \/ body t = Commit r t'.
Proof. unfold transaction. repeat case_match; intros [= <- <-]; eauto. Qed.

Lemma tx_select_commit {A} f id t (k : ApprovalRow -> TxOutcome A) r t' :
  tx_select f id t k = Commit r t' ->
  exists row, List.find (has_id id) t = Some row /\ k row = Commit r t'.
Proof. unfold tx_select. repeat case_match; try done. eauto. Qed.

Lemma tx_execute_commit {A} f (k : TxOutcome A) r t' :
  tx_execute f k = Commit r t' -> k = Commit r t'.
Proof. unfold tx_execute. by case_match. Qed.

Lemma tx_bind_commit {A} n (k : TxOutcome A) r t' :
  tx_bind_u64 n k = Commit r t' -> k = Commit r t'.
Proof. unfold tx_bind_u64. by case_match. Qed.
End Spec.

(** Follow a computation through its binds. *)
Ltac st_step :=
  match goal with
  | H : (let _ := _ in _) _ = (_, _) |- _ => progress cbv zeta in H
  | H : st_bind _ _ _ = (_, _) |- _ =>
      let e := fresh "err" in let a := fresh "v" in let s := fresh "st" in
      let H1 := fresh "Hm" in let H2 := fresh "Hk" in
      apply st_bind_inv in H as [(e & H1 & ->)|(a & s & H1 & H2)]
  | H : st_lift _ _ = (_, _) |- _ => apply st_lift_inv in H as [? ->]
  | H : st_ret _ _ = (_, _) |- _ => injection H as ? <-
  | H : ask_store _ _ = (_, _) |- _ => apply ask_store_inv in H as [? ->]
  | H : append_row_event _ _ _ _ _ _ _ _ _ = (_, _) |- _ =>
      unfold append_row_event in H
  | H : append_expired_event _ _ _ _ = (_, _) |- _ => unfold append_expired_event in H
  | H : append_audit_event _ _ _ _ _ _ _ _ _ _ _ _ = (_, _) |- _ =>
      let e := fresh "err" in let seq := fresh "seq" in let log := fresh "log" in
      let Hl := fresh "Hlog" in let E := fresh "Eq" in
      apply append_event_inv in H as [(e & E & ->)|(seq & log & E & Hl & ->)]
  | H : on_store _ _ = (_, _) |- _ =>
      let t := fresh "tbl" in let H1 := fresh "Hst" in
      apply on_store_inv in H as (t & H1 & ->)
  | H : Ok _ = Ok _ |- _ => injection H as H; subst
  | H : Err _ = Err _ |- _ => injection H as H; subst
  | H : Ok _ = Err _ |- _ => discriminate H
  | H : Err _ = Ok _ |- _ => discriminate H
  end.
Ltac st_inv := repeat st_step; simpl in *.

Section Effects.
Context {SH : Sha256} {HX : HexLib} {AJ : AuditJson} {CH : Rfc3339} {IE : IdsJsonError}.
Context {RJ : RequestJson}.
Variable config : ApprovalStoreConfig.
Variable redactor : TextRedactor.

(** ** Store calls *)

Lemma approved_inv f id th actor at_ seq now t r t' :
  transition_to_approved f id th actor at_ seq now t = (r, t') ->
  (exists e, r = Err e /\ t' = t) \/
  (exists row e, r = Err e /\ stale_row t id "pending" now row /\
     t' = expire_rows (has_id id) at_ apr_audit_sequence t) \/
  (exists row, r = Ok tt /\ live_row t id "pending" now row /\
     t' = sql_update (has_id id)
            (fun r => apr_update r "approved" (Some (hex_encode th)) (Some actor)
                        (apr_denial_reason r) (Some at_) (apr_consumed_at r) (Some seq)) t).
Proof.
  intros [Hn|(row & Hf & Hk)%tx_select_commit]%transaction_inv; [by left|right].
  destruct (String.eqb (apr_state row) "pending") eqn:Es; [|done]. cbn [negb] in Hk. bool_prop.
  destruct (parse_rfc3339 (apr_expires_at row)) as [ex|] eqn:Ep; [|done].
  destruct (ex <=? now) eqn:El; bool_prop.
  - left. apply tx_execute_commit in Hk. injection Hk as <- <-.
    exists row, (APE_InvalidStateTransition "pending" "approved").
    split_and!; [done| |done]. by split_and!; eauto.
  - right. apply tx_execute_commit, tx_bind_commit in Hk. injection Hk as <- <-.
    exists row. split_and!; [done| |done]. by split_and!; eauto.
Qed.

Lemma consume_inv f id at_ seq now t r t' :
  store_consume f id at_ seq now t = (r, t') ->
  (exists e, r = Err e /\ t' = t) \/
  (exists row e, r = Err e /\ stale_row t id "approved" now row /\
     t' = expire_rows (has_id id) at_ apr_audit_sequence t) \/
  (exists row, r = Ok tt /\ live_row t id "approved" now row /\
     t' = sql_update (has_id id)
            (fun r => apr_update r "consumed" None (apr_actor_id r) (apr_denial_reason r)
                        (apr_decision_at r) (Some at_) (Some seq)) t).
Proof.
  intros [Hn|(row & Hf & Hk)%tx_select_commit]%transaction_inv; [by left|right].
  destruct (String.eqb (apr_state row) "approved") eqn:Es; [|done]. cbn [negb] in Hk. bool_prop.
  destruct (parse_rfc3339 (apr_expires_at row)) as [ex|] eqn:Ep; [|done].
  destruct (ex <=? now) eqn:El; bool_prop.
  - left. apply tx_execute_commit in Hk. injection Hk as <- <-.
    exists row, (APE_InvalidStateTransition "approved" "consumed").
    split_and!; [done| |done]. by split_and!; eauto.
  - right. apply tx_execute_commit, tx_bind_commit in Hk. injection Hk as <- <-.
    exists row. split_and!; [done| |done]. by split_and!; eauto.
Qed.

Lemma denied_inv f id actor reason at_ seq t r t' :
  transition_to_denied f id actor reason at_ seq t = (r, t') ->
  (exists e, r = Err e /\ t' = t) \/
  (r = Ok tt /\
   t' = sql_update (has_id id)
          (fun r => apr_update r "denied" (apr_token_hash r) (Some actor) reason (Some at_)
                      (apr_consumed_at r) (Some seq)) t).
Proof.
  intros [Hn|(row & Hf & Hk)%tx_select_commit]%transaction_inv; [by left|right].
  destruct (String.eqb (apr_state row) "pending"); [|done].
  apply tx_execute_commit, tx_bind_commit in Hk. by injection Hk as <- <-.
Qed.

Lemma cancelled_inv f id at_ seq t r t' :
  transition_to_cancelled f id at_ seq t = (r, t') ->
  (exists e, r = Err e /\ t' = t) \/
  (r = Ok tt /\
   t' = sql_update (has_id id)
          (fun r => apr_update r "cancelled" (apr_token_hash r) (apr_actor_id r)
                      (apr_denial_reason r) (Some at_) (apr_consumed_at r) (Some seq)) t).
Proof.
  intros [Hn|(row & Hf & Hk)%tx_select_commit]%transaction_inv; [by left|right].
  destruct (String.eqb (apr_state row) "pending"); [|done].
  apply tx_execute_commit, tx_bind_commit in Hk. by injection Hk as <- <-.
Qed.

Lemma overdue_inv f now seq t r t' :
  store_expire_overdue f now seq t = (r, t') ->
  t' = t \/ t' = expire_rows (is_overdue now) now (fun _ => Some seq) t.
Proof.
  intros [(e & _ & ->)|Hk]%transaction_inv; [by left|].
  destruct (sf_query f); [done|].
  destruct (map apr_approval_id (List.filter (is_overdue now) t)); [injection Hk; auto|].
  apply tx_execute_commit, tx_bind_commit in Hk. injection Hk as <- <-. by right.
Qed.

(** [ensure_transitionable] either hands out a live row and changes nothing, or
    fails, possibly after an expiry. *)
Lemma ensure_inv env id expected target s r s' :
  ensure_transitionable redactor env id expected target s = (r, s') ->
  (exists row, r = Ok row /\ s' = s /\
     live_row (br_approvals s) (id_str id) expected (ce_clock env 0) row) \/
  (exists err, r = Err err /\
     forall e, grants_nothing (ex_reply e) -> call_effect config redactor e s s').
Proof.
  unfold ensure_transitionable. intros He.
  assert (Hsame : forall err : ApprovalError, exists err', @Err _ ApprovalRow err = Err err' /\
            forall e, grants_nothing (ex_reply e) -> call_effect config redactor e s s)
    by (intros err; exists err; split; [done|]; intros e Hg; by constructor).
  apply st_bind_inv in He as [(e & [_ ->]%ask_store_inv & ->)|(o & s1 & [Hl ->]%ask_store_inv & He)];
    [by right|].
  symmetry in Hl. apply read_query_ok in Hl. injection Hl as Hf.
  apply st_bind_inv in He as [(e & [_ ->]%st_lift_inv & ->)|(row & s1 & [Hr ->]%st_lift_inv & He)];
    [by right|].
  destruct o as [row'|]; [|done]. injection Hr as <-.
  destruct (String.eqb (apr_state row) expected) eqn:Es; cbn [negb] in He; bool_prop;
    [|apply st_lift_inv in He as [-> ->]; by right].
  apply st_bind_inv in He as [(e & [_ ->]%st_lift_inv & ->)|(ex & s1 & [Hp ->]%st_lift_inv & He)];
    [by right|].
  symmetry in Hp. apply map_err_ok in Hp.
  destruct (ex <=? ce_clock env 0) eqn:El; bool_prop.
  - right. repeat st_step; [by apply Hsame|..];
      (simpl in Hst; apply overdue_inv in Hst; eexists; (split; [done|]); intros e Hg; simpl;
       destruct Hst as [Ht|Ht]; rewrite Ht; [by eapply eff_logged|by eapply eff_overdue]).
  - left. injection He as <- <-. exists row. split_and!; eauto. split_and!; eauto.
Qed.

(** ** Broker calls *)

(** The common start of a transition: the lock, the check, the rule ids. *)
Lemma begin_inv {A} env id expected target (k : ApprovalRow -> list string ->
    stateful BrokerState ApprovalError A) s r s' :
  (let! _ := st_lift (lock_transition env) in
   let! row := ensure_transitionable redactor env id expected target in
   let! ids := st_lift (parse_rule_ids (apr_matched_rule_ids row)) in
   k row ids) s = (r, s') ->
  (exists err, r = Err err /\
     forall e, grants_nothing (ex_reply e) -> call_effect config redactor e s s') \/
  (exists row ids, live_row (br_approvals s) (id_str id) expected (ce_clock env 0) row /\
     parse_rule_ids (apr_matched_rule_ids row) = Ok ids /\ k row ids s = (r, s')).
Proof.
  intros Hb.
  apply st_bind_inv in Hb as [(e & [_ ->]%st_lift_inv & ->)|(u & s1 & [_ ->]%st_lift_inv & Hb)].
  { left. exists e. split; [done|]. intros ex Hg. by constructor. }
  apply st_bind_inv in Hb as [(e & He & ->)|(row & s1 & He & Hb)].
  { apply ensure_inv in He as [(row & [=] & _)|(err & [= <-] & Heff)]. left. by exists e. }
  apply ensure_inv in He as [(row' & [= <-] & -> & Hlive)|(err & [=] & _)].
  apply st_bind_inv in Hb as [(e & [_ ->]%st_lift_inv & ->)|(ids & s1 & [Hi ->]%st_lift_inv & Hb)].
  { left. exists e. split; [done|]. intros ex Hg. by constructor. }
  right. by exists row, ids.
Qed.

Lemma approve_effect env id actor s r s' :
  approve redactor env id actor s = (r, s') ->
  call_effect config redactor
    {| ex_env := env; ex_call := Call_approve id actor; ex_reply := Reply_token r |} s s'.
Proof.
  intros [(err & -> & He)|(row & ids & Hlive & _ & Hk)]%begin_inv; [by apply He|].
  repeat st_step; try by constructor.
  - simpl in Hst. apply approved_inv in Hst as [(e & _ & ->)|[(row' & e & _ & Hs & ->)|(row' & [=] & _)]].
    + by eapply eff_logged.
    + replace row' with row in Hs by (destruct Hlive as [Hl _], Hs as [Hs _]; congruence).
      eapply (eff_stale _ _ _ _ _ AS_Pending); [done|constructor|exact Hlive|exact Hs|exact Hlog].
  - simpl in Hst. apply approved_inv in Hst as [(e & [=] & _)|[(row' & e & [=] & _)|(row' & _ & Hs & ->)]].
    replace row' with row in Hs by (destruct Hlive as [Hl _], Hs as [Hs _]; congruence).
    eapply eff_approved; [done|done|exact Hlive|exact Hs|exact Hlog].
Qed.

Lemma deny_effect env id actor reason s r s' :
  deny redactor env id actor reason s = (r, s') ->
  call_effect config redactor
    {| ex_env := env; ex_call := Call_deny id actor reason; ex_reply := Reply_unit r |} s s'.
Proof.
  intros [(err & -> & He)|(row & ids & Hlive & _ & Hk)]%begin_inv; [by apply He|].
  repeat st_step; try by constructor.
  simpl in Hst. apply denied_inv in Hst as [(e & -> & ->)|(-> & ->)]; [by eapply eff_logged|].
  eapply (eff_refused _ _ _ _ _ "denied" (fun _ => Some (actor_str actor)) (fun _ => reason));
    [done|by left|exact Hlive|exact Hlog].
Qed.

Lemma cancel_effect env id s r s' :
  cancel redactor env id s = (r, s') ->
  call_effect config redactor
    {| ex_env := env; ex_call := Call_cancel id; ex_reply := Reply_unit r |} s s'.
Proof.
  intros [(err & -> & He)|(row & ids & Hlive & _ & Hk)]%begin_inv; [by apply He|].
  repeat st_step; try by constructor.
  simpl in Hst. apply cancelled_inv in Hst as [(e & -> & ->)|(-> & ->)]; [by eapply eff_logged|].
  eapply (eff_refused _ _ _ _ _ "cancelled"); [done|by right|exact Hlive|exact Hlog].
Qed.

Lemma consume_effect env id token s r s' :
  consume redactor env id token s = (r, s') ->
  call_effect config redactor
    {| ex_env := env; ex_call := Call_consume id token; ex_reply := Reply_consumed r |} s s'.
Proof.
  intros [(err & -> & He)|(row & ids & Hlive & _ & Hk)]%begin_inv; [by apply He|].
  apply st_bind_inv in Hk as [(e & [_ ->]%st_lift_inv & ->)|(hx & s1 & [Hh ->]%st_lift_inv & Hk)];
    [by constructor|].
  apply st_bind_inv in Hk as [(e & [_ ->]%st_lift_inv & ->)|(st & s1 & [Hd ->]%st_lift_inv & Hk)];
    [by constructor|].
  destruct (ApprovalToken_verify_hash token st) eqn:Ev; cbn [negb] in Hk;
    [|st_step; subst; by constructor].
  apply st_bind_inv in Hk as [(e & [_ ->]%st_lift_inv & ->)|(db & s1 & [Hdb ->]%st_lift_inv & Hk)];
    [by constructor|].
  apply st_bind_inv in Hk as [(e & [_ ->]%st_lift_inv & ->)|(dg & s1 & [Hdg ->]%st_lift_inv & Hk)];
    [by constructor|].
  symmetry in Hd, Hdb. apply map_err_ok in Hd, Hdb.
  unfold ApprovalToken_verify_hash in Ev. bool_prop. subst st.
  repeat st_step; try by constructor.
  - simpl in Hst. apply consume_inv in Hst as [(e & _ & ->)|[(row' & e & _ & Hs & ->)|(row' & [=] & _)]].
    + by eapply eff_logged.
    + replace row' with row in Hs by (destruct Hlive as [Hl _], Hs as [Hs _]; congruence).
      eapply (eff_stale _ _ _ _ _ AS_Approved); [done|constructor|exact Hlive|exact Hs|exact Hlog].
  - simpl in Hst. apply consume_inv in Hst as [(e & [=] & _)|[(row' & e & [=] & _)|(row' & _ & Hs & ->)]].
    replace row' with row in Hs by (destruct Hlive as [Hl _], Hs as [Hs _]; congruence).
    destruct (apr_token_hash row) as [hx'|] eqn:Eh; [|done]. injection Hh as <-.
    unfold hash_from_blob, ok_or in Hdg. destruct (len db =? 32); [|done]. injection Hdg as <-.
    eapply eff_consumed; [done|done|exact Hlive|exact Hs|by eauto|exact Hdb|done|done|exact Hlog].
Qed.

Lemma expire_effect env s r s' :
  expire_overdue redactor env s = (r, s') ->
  call_effect config redactor
    {| ex_env := env; ex_call := Call_expire; ex_reply := Reply_ids r |} s s'.
Proof.
  unfold expire_overdue. intros He.
  repeat st_step; try by constructor.
  destruct v0; cbn [negb] in *; repeat st_step; try by constructor.
  simpl in Hst. apply overdue_inv in Hst as [-> | ->]; [by eapply eff_logged|by eapply eff_overdue].
Qed.

(** ** Requests *)

Lemma check_inv env request ttl s r s' :
  request_check config env request ttl s = (r, s') ->
  s' = s /\
  forall p, r = Ok p ->
    id_str (pa_approval_id p) = ce_uuid env /\
    pa_request_digest p = compute_request_digest (areq_request request) /\
    len (areq_summary request) <= MAX_APPROVAL_SUMMARY_LENGTH /\
    count_rows (fun q => String.eqb (apr_request_digest_hex q) (hex_encode (pa_request_digest p))
                         && is_active q) (br_approvals s) = 0 /\
    count_rows (fun q => String.eqb (apr_state q) "pending") (br_approvals s)
      < cfg_max_pending config.
Proof.
  unfold request_check. cbv zeta. intros Hc.
  destruct (MAX_APPROVAL_SUMMARY_LENGTH <? len (areq_summary request)) eqn:El; bool_prop;
    [by apply st_lift_inv in Hc as [-> ->]|].
  apply st_bind_inv in Hc as [(e & [_ ->]%ask_store_inv & ->)|(n & s1 & [Hn ->]%ask_store_inv & Hc)];
    [done|].
  symmetry in Hn. apply read_query_ok in Hn. injection Hn as Hn.
  destruct (0 <? n) eqn:En; bool_prop; [by apply st_lift_inv in Hc as [-> ->]|].
  apply st_bind_inv in Hc as [(e & [_ ->]%ask_store_inv & ->)|(m & s1 & [Hm ->]%ask_store_inv & Hc)];
    [done|].
  symmetry in Hm. apply read_query_ok in Hm. injection Hm as Hm.
  destruct (cfg_max_pending config <=? m) eqn:Em; bool_prop; [by apply st_lift_inv in Hc as [-> ->]|].
  apply st_bind_inv in Hc as [(e & [_ ->]%st_lift_inv & ->)|(i & s1 & [Hi ->]%st_lift_inv & Hc)];
    [done|].
  injection Hc as <- <-. split; [done|]. intros p [= <-]. simpl.
  symmetry in Hi. apply map_err_ok in Hi. unfold Id_new in Hi.
  destruct (validate_id (ce_uuid env)); [|done]. injection Hi as <-. rewrite Hm.
  split_and!; [done..| |done]. unfold count_rows in *. lia.
Qed.

Lemma insert_pending_inv f p t r t' :
  insert_pending f p t = (r, t') ->
  (exists e, r = Err e /\ t' = t) \/
  (exists json, r = Ok tt /\ t' = t ++ [pending_row p json] /\
     existsb (has_id (id_str (pa_approval_id p))) t = false).
Proof. unfold insert_pending. repeat case_match; intros [= <- <-]; eauto 10. Qed.

Lemma has_id_spec id r : has_id id r = true <-> apr_approval_id r = id.
Proof. apply String.eqb_eq. Qed.

Lemma sql_update_none p f t : existsb p t = false -> sql_update p f t = t.
Proof.
  induction t as [|r t IH]; [done|]. simpl. intros [-> Ht]%orb_false_iff. by rewrite IH.
Qed.

Lemma sql_update_snoc p f t r :
  existsb p t = false -> p r = true -> sql_update p f (t ++ [r]) = t ++ [f r].
Proof.
  intros Ht Hr. unfold sql_update. rewrite map_app. fold (sql_update p f t).
  rewrite sql_update_none by done. simpl. by rewrite Hr.
Qed.

Lemma update_sequence_inv f id seq t r t' :
  update_audit_sequence f id seq t = (r, t') ->
  t' = t \/
  t' = sql_update (has_id id)
         (fun r => apr_update r (apr_state r) (apr_token_hash r) (apr_actor_id r)
                     (apr_denial_reason r) (apr_decision_at r) (apr_consumed_at r) (Some seq)) t.
Proof. unfold update_audit_sequence. repeat case_match; intros [= <- <-]; eauto. Qed.

Lemma request_effect env request ttl s r s' :
  request_approval config redactor env request ttl s = (r, s') ->
  call_effect config redactor
    {| ex_env := env; ex_call := Call_request request ttl; ex_reply := Reply_pending r |} s s'.
Proof.
  unfold request_approval. intros Hr.
  apply st_bind_inv in Hr as [(e & [-> _]%check_inv & ->)|(p & s1 & [-> Hp]%check_inv & Hr)];
    [by constructor|].
  destruct (Hp p eq_refl) as (Hid & Hdig & Hlen & Hact & Hpen).
  assert (Hreq : forall rep json seq, requested_by
            {| ex_env := env; ex_call := Call_request request ttl; ex_reply := rep |}
            (apr_update (pending_row p json) "pending" None None None None None seq)).
  { intros rep json sq. exists request, ttl. simpl. by rewrite Hid, Hdig. }
  assert (Hreq0 : forall rep json, requested_by
            {| ex_env := env; ex_call := Call_request request ttl; ex_reply := rep |}
            (pending_row p json)) by (intros rep json; exact (Hreq rep json None)).
  unfold request_insert in Hr.
  apply st_bind_inv in Hr as [(e & (t & Hi & ->)%on_store_inv & ->)|(u & s1 & (t & Hi & ->)%on_store_inv & Hr)].
  { apply insert_pending_inv in Hi as [(e' & _ & ->)|(json & [=] & _)].
    destruct s. by constructor. }
  apply insert_pending_inv in Hi as [(e' & [=] & _)|(json & _ & -> & Hf)].
  repeat st_step; [by eapply eff_inserted|..];
    (simpl in Hst; apply update_sequence_inv in Hst as [-> | ->];
     [|rewrite sql_update_snoc by (done || apply String.eqb_refl)];
     by eapply eff_requested).
Qed.

(** ** Every call *)

Lemma run_call_effect env call s rep s' :
  run_call config redactor env call s = (rep, s') ->
  call_effect config redactor {| ex_env := env; ex_call := call; ex_reply := rep |} s s'.
Proof.
  assert (Hread : forall A (f : result ApprovalError A -> BrokerReply)
            (m : stateful BrokerState ApprovalError A) r,
            (forall r s1, m s = (r, s1) -> s1 = s) -> (forall x, grants_nothing (f x)) ->
            reply f m s = (r, s') ->
            call_effect config redactor {| ex_env := env; ex_call := call; ex_reply := r |} s s').
  { intros A f m r Hm Hg. unfold reply. destruct (m s) as [x s1] eqn:E. intros [= <- <-].
    rewrite (Hm _ _ eq_refl). constructor. apply Hg. }
  unfold run_call. destruct call; unfold reply at 1;
    try (match goal with |- context [let '(_, _) := ?m in _] => destruct m as [x s1] eqn:E end;
         intros [= <- <-]).
  - by apply request_effect.
  - by apply approve_effect.
  - by apply deny_effect.
  - by apply cancel_effect.
  - by apply consume_effect.
  - by apply expire_effect.
  - eapply (Hread _ Reply_records (list_pending env limit)); [|done|by unfold reply; rewrite E].
    unfold list_pending. intros. by repeat st_step.
  - eapply (Hread _ Reply_records (list_after_sequence env after_sequence limit));
      [|done|by unfold reply; rewrite E].
    unfold list_after_sequence. intros. by repeat st_step.
  - eapply (Hread _ Reply_record (get_approval env approval_id)); [|done|by unfold reply; rewrite E].
    unfold get_approval. intros. by repeat st_step.
Qed.

End Effects.
