(* ===== verification/ApprovalLife.v ===== *)
(** * Life cycle of approvals over histories of calls

    What [call_effect] means for the rows of the table, and the invariants every
    history of calls keeps: rows only move along [approval_next], an approval is
    consumed at most once and only after it was granted, the limits hold and the
    audit log stays valid. *)

From stdpp Require Import base tactics list strings relations.
From Stdlib Require Import ZArith Lia Ascii.
From S2P Require Import Prelude RustStr BTree CoreError CoreIds CoreResource CoreRequest.
From S2P Require Import CorePermit AuditModel AuditVerify AuditChain ApprovalModel ApprovalBroker.
From S2P Require Import ApprovalSpec.

Open Scope Z_scope.

(** ** Rows *)

Abbreviation row_ids t := (map apr_approval_id t).

(** The state column moves by at most one step of the life cycle. *)
Definition state_moves (r r' : ApprovalRow) : Prop :=
  apr_state r' = apr_state r \/
  exists a b, approval_next a b /\ apr_state r = ApprovalState_display a /\
    apr_state r' = ApprovalState_display b.

(** [e] is a successful consumption of the approval [id]. *)
Definition consumes (e : Exchange) (id : string) : bool :=
  match ex_call e, ex_reply e with
  | Call_consume i _, Reply_consumed (Ok _) => String.eqb (id_str i) id
  | _, _ => false
  end.

(** [e] is a successful approval of [id] that handed out [tok]. *)
Definition approves (e : Exchange) (id : string) (tok : ApprovalToken) : Prop :=
  exists i actor, ex_call e = Call_approve i actor /\ ex_reply e = Reply_token (Ok tok) /\
    id_str i = id.

Lemma grants_nothing_consumes e id : grants_nothing (ex_reply e) -> consumes e id = false.
Proof. unfold consumes. by destruct (ex_call e), (ex_reply e) as [| | |[]| | |]. Qed.

Lemma find_has_id id t row :
  List.find (has_id id) t = Some row -> row ∈ t /\ apr_approval_id row = id.
Proof. intros [Hi Hh]%find_some. split; [by apply list_elem_of_In|by apply has_id_spec]. Qed.

Lemma find_unique id t row q :
  NoDup (row_ids t) -> List.find (has_id id) t = Some row -> q ∈ t ->
  apr_approval_id q = id -> q = row.
Proof.
  intros Hn Hf Hq Hid. apply find_has_id in Hf as [Hr Hrid].
  apply list_elem_of_lookup in Hq as [i Hi], Hr as [j Hj].
  assert (i = j) as -> by (eapply (NoDup_lookup _ _ _ id Hn);
    rewrite list_lookup_fmap; [by rewrite Hi; simpl; f_equal|by rewrite Hj; simpl; f_equal]).
  congruence.
Qed.

Section Life.
Context {SH : Sha256} {HX : HexLib} {AJ : AuditJson} {CH : Rfc3339} {IE : IdsJsonError}.
Context {RJ : RequestJson}.
Variable config : ApprovalStoreConfig.
Variable redactor : TextRedactor.

(** What an exchange does to one row. *)
Record row_change (e : Exchange) (r r' : ApprovalRow) : Prop := {
  rc_binding : same_binding r r';
  rc_state : state_moves r r';
  rc_consumed : if consumes e (apr_approval_id r)
                then apr_state r = "approved" /\ apr_state r' = "consumed"
                else apr_state r' = "consumed" -> apr_state r = "consumed";
  rc_token : apr_state r' = "approved" ->
             (apr_state r = "approved" /\ apr_token_hash r' = apr_token_hash r) \/
             exists tok, approves e (apr_approval_id r) tok /\
               apr_token_hash r' = Some (hex_encode (ApprovalToken_hash tok));
}.

(** What it does to the table: at most one row is added, by a request within
    the limits; a consumption is of a row of the table. *)
Record table_change (e : Exchange) (t t' : ApprovalTable) : Prop := {
  tc_rows : exists t1 added, t' = t1 ++ added /\ Forall2 (row_change e) t t1 /\
    (added = [] \/ exists row, added = [row] /\ requested_by e row /\
       (apr_approval_id row ∉ row_ids t) /\
       count_rows (fun r => String.eqb (apr_request_digest_hex r) (apr_request_digest_hex row)
                            && is_active r) t = 0 /\
       count_rows (fun r => String.eqb (apr_state r) "pending") t < cfg_max_pending config);
  tc_consumed : forall id, consumes e id = true -> id ∈ row_ids t;
}.

Lemma row_change_refl e r : consumes e (apr_approval_id r) = false -> row_change e r r.
Proof. intros Hc. constructor; [done|by left|by rewrite Hc|by left]. Qed.

Lemma row_change_nil e t :
  grants_nothing (ex_reply e) -> Forall2 (row_change e) t t.
Proof.
  intros Hg. induction t; constructor; [|done]. by apply row_change_refl, grants_nothing_consumes.
Qed.

Lemma sql_update_change e p f t :
  (forall r, r ∈ t -> p r = true -> row_change e r (f r)) ->
  (forall r, r ∈ t -> p r = false -> consumes e (apr_approval_id r) = false) ->
  Forall2 (row_change e) t (sql_update p f t).
Proof.
  induction t as [|r t IH]; intros Hp Hn; simpl; [constructor|]. constructor.
  - destruct (p r) eqn:E; [apply Hp; [left|done]|apply row_change_refl, Hn; [left|done]].
  - apply IH; intros q Hq; [apply Hp|apply Hn]; by right.
Qed.

(** An update of the one row with a given id. *)
Lemma update_row_change e id f t row :
  NoDup (row_ids t) -> List.find (has_id id) t = Some row -> row_change e row (f row) ->
  (forall i, consumes e i = true -> i = id) ->
  Forall2 (row_change e) t (sql_update (has_id id) f t).
Proof.
  intros Hn Hf Hc Hid. apply sql_update_change.
  - intros r Hr Hh%has_id_spec. by rewrite (find_unique id t row r).
  - intros r Hr Hh. destruct (consumes e (apr_approval_id r)) eqn:Ec; [|done].
    apply Hid in Ec. unfold has_id in Hh. bool_prop. done.
Qed.

Lemma expire_change e r at_ sq :
  consumes e (apr_approval_id r) = false -> is_active r = true ->
  row_change e r (apr_update r "expired" (apr_token_hash r) (apr_actor_id r)
                    (apr_denial_reason r) (Some at_) (apr_consumed_at r) sq).
Proof.
  intros Hc Ha. apply orb_true_iff in Ha. constructor; simpl; [by repeat split| |by rewrite Hc|done].
  right. destruct Ha as [Ha|Ha]; apply String.eqb_eq in Ha.
  - exists AS_Pending, AS_Expired. by split_and!; [constructor|..].
  - exists AS_Approved, AS_Expired. by split_and!; [constructor|..].
Qed.

Lemma approve_change e id actor tok r at_ seq :
  ex_call e = Call_approve id actor -> ex_reply e = Reply_token (Ok tok) ->
  apr_approval_id r = id_str id -> apr_state r = "pending" ->
  row_change e r (apr_update r "approved" (Some (hex_encode (ApprovalToken_hash tok)))
                    (Some (actor_str actor)) (apr_denial_reason r) (Some at_)
                    (apr_consumed_at r) (Some seq)).
Proof.
  intros Hc Hr Hid Hs. constructor; simpl; [by repeat split| | |].
  - right. exists AS_Pending, AS_Approved. by split_and!; [constructor|..].
  - unfold consumes. by rewrite Hc.
  - intros _. right. exists tok. split; [|done]. by exists id, actor.
Qed.

Lemma refuse_change e r state actor reason at_ seq :
  grants_nothing (ex_reply e) -> apr_state r = "pending" ->
  state = "denied" \/ state = "cancelled" ->
  row_change e r (apr_update r state (apr_token_hash r) actor reason at_ (apr_consumed_at r) seq).
Proof.
  intros Hg Hs Hd. constructor; simpl; [by repeat split| | |].
  - right. destruct Hd as [-> | ->]; [exists AS_Pending, AS_Denied|exists AS_Pending, AS_Cancelled];
      by split_and!; [constructor|..].
  - rewrite grants_nothing_consumes by done. by destruct Hd as [-> | ->].
  - by destruct Hd as [-> | ->].
Qed.

Lemma consume_change e id tok c r at_ seq :
  ex_call e = Call_consume id tok -> ex_reply e = Reply_consumed (Ok c) ->
  apr_approval_id r = id_str id -> apr_state r = "approved" ->
  row_change e r (apr_update r "consumed" None (apr_actor_id r) (apr_denial_reason r)
                    (apr_decision_at r) (Some at_) (Some seq)).
Proof.
  intros Hc Hr Hid Hs. constructor; simpl; [by repeat split| | |done].
  - right. exists AS_Approved, AS_Consumed. by split_and!; [constructor|..].
  - unfold consumes. by rewrite Hc, Hr, Hid, String.eqb_refl.
Qed.

Lemma insert_change e row t :
  grants_nothing (ex_reply e) -> requested_by e row ->
  existsb (has_id (apr_approval_id row)) t = false ->
  count_rows (fun r => String.eqb (apr_request_digest_hex r) (apr_request_digest_hex row)
                       && is_active r) t = 0 ->
  count_rows (fun r => String.eqb (apr_state r) "pending") t < cfg_max_pending config ->
  table_change e t (t ++ [row]).
Proof.
  intros Hg Hr Hf Ha Hp. constructor.
  - exists t, [row]. split_and!; [done|by apply row_change_nil|].
    right. exists row. split_and!; [done|done| |done|done].
    intros (q & Hq & Hin)%list_elem_of_fmap. apply not_true_iff_false in Hf. apply Hf.
    apply existsb_exists. exists q. split; [by apply list_elem_of_In|by apply has_id_spec].
  - intros id Hc. by rewrite (grants_nothing_consumes e id Hg) in Hc.
Qed.

Lemma old_rows_change e t t' :
  Forall2 (row_change e) t t' -> (forall id, consumes e id = true -> id ∈ row_ids t) ->
  table_change e t t'.
Proof. intros Ht Hc. constructor; [|done]. exists t', []. rewrite app_nil_r. auto. Qed.

(** An exchange that grants nothing and rewrites old rows. *)
Lemma quiet_change e t t' :
  grants_nothing (ex_reply e) -> Forall2 (row_change e) t t' -> table_change e t t'.
Proof.
  intros Hg Ht. apply old_rows_change; [done|]. intros id.
  by rewrite grants_nothing_consumes.
Qed.

Lemma update_quiet_change e id f t row :
  NoDup (row_ids t) -> grants_nothing (ex_reply e) -> List.find (has_id id) t = Some row ->
  row_change e row (f row) -> table_change e t (sql_update (has_id id) f t).
Proof.
  intros Hn Hg Hf Hc. apply quiet_change; [done|]. eapply update_row_change; [done..|].
  intros i. by rewrite grants_nothing_consumes.
Qed.

Lemma effect_table e s s' :
  NoDup (row_ids (br_approvals s)) -> call_effect config redactor e s s' ->
  table_change e (br_approvals s) (br_approvals s').
Proof.
  intros Hn He. destruct He as
    [Hg|c seq log Hg Hl|now seq log Hg Hl|id state at_ row c seq log Hg Hst Hlive (Hf & Hs & Hold) Hl
    |row Hg Hr Hf Ha Hp|row seq log Hg Hr Hf Ha Hp Hl
    |id actor tok row at_ seq log Hc Hr (Hf & Hs & _) _ Hl
    |id state actor reason row at_ c seq log Hg Hst (Hf & Hs & _) Hl
    |id tok c row at_ seq log Hc Hr (Hf & Hs & _) _ _ _ _ _ Hl]; simpl.
  - by apply quiet_change, row_change_nil.
  - by apply quiet_change, row_change_nil.
  - apply quiet_change; [done|]. apply sql_update_change; intros r Hr Hp;
      [|by apply grants_nothing_consumes].
    apply andb_true_iff in Hp as [Ha _]. by apply expire_change; [apply grants_nothing_consumes|].
  - eapply update_quiet_change; [done..|].
    apply expire_change; [by apply grants_nothing_consumes|]. unfold is_active. rewrite Hs.
    by destruct Hst.
  - by apply insert_change.
  - by apply insert_change.
  - apply find_has_id in Hf as Hrow. apply old_rows_change; unfold consumes; rewrite ?Hc; [|done].
    eapply update_row_change; [done|exact Hf| |unfold consumes; by rewrite Hc].
    by eapply approve_change; [..|apply Hrow|].
  - eapply update_quiet_change; [done..|]. apply refuse_change; [done..|].
    destruct Hst as [[-> _]|[-> _]]; auto.
  - apply find_has_id in Hf as Hrow. destruct Hrow as [Hin Hid].
    assert (Hcons : forall i, consumes e i = true -> i = id_str id).
    { unfold consumes. rewrite Hc, Hr. by intros i ->%String.eqb_eq. }
    apply old_rows_change.
    + eapply update_row_change; [done|exact Hf| |done]. by eapply consume_change.
    + intros i ->%Hcons. rewrite <- Hid. apply list_elem_of_fmap. eauto.
Qed.

(** ** Histories *)

(** How often [h] consumed the approval [id]. *)
Definition consumptions (id : string) (h : list Exchange) : nat :=
  length (List.filter (fun e => consumes e id) h).

(** [e] is the request that created the row [r]. *)
Definition origin (e : Exchange) (r : ApprovalRow) : Prop :=
  exists req ttl,
    ex_call e = Call_request req ttl /\ apr_approval_id r = ce_uuid (ex_env e) /\
    apr_request_digest_hex r = hex_encode (compute_request_digest (areq_request req)).

(** What the history says about a row. *)
Record row_ok (h : list Exchange) (r : ApprovalRow) : Prop := {
  rk_state : exists a, apr_state r = ApprovalState_display a;
  rk_origin : exists e, e ∈ h /\ origin e r;
  rk_approved : apr_state r = "approved" ->
    exists e tok, e ∈ h /\ approves e (apr_approval_id r) tok /\
      apr_token_hash r = Some (hex_encode (ApprovalToken_hash tok));
  rk_consumed : consumptions (apr_approval_id r) h =
    if String.eqb (apr_state r) "consumed" then 1%nat else 0%nat;
}.

Definition pending_count (t : ApprovalTable) : Z :=
  count_rows (fun r => String.eqb (apr_state r) "pending") t.

Definition active_count (digest_hex : string) (t : ApprovalTable) : Z :=
  count_rows (fun r => String.eqb (apr_request_digest_hex r) digest_hex && is_active r) t.

Record table_ok (h : list Exchange) (t : ApprovalTable) : Prop := {
  tk_ids : NoDup (row_ids t);
  tk_rows : Forall (row_ok h) t;
  tk_unknown : forall id, id ∉ row_ids t -> consumptions id h = 0%nat;
  tk_pending : pending_count t <= Z.max 0 (cfg_max_pending config);
  tk_active : forall d, active_count d t <= 1;
}.

Lemma consumptions_snoc id h e :
  consumptions id (h ++ [e]) = (consumptions id h + if consumes e id then 1 else 0)%nat.
Proof.
  unfold consumptions. rewrite List.filter_app, length_app. simpl. by destruct (consumes e id).
Qed.

Lemma row_change_ids e t t1 : Forall2 (row_change e) t t1 -> row_ids t1 = row_ids t.
Proof. induction 1 as [|r r' t t1 [(Hid & _) _ _ _] _ IH]; simpl; [done|]. by rewrite Hid, IH. Qed.

Lemma count_rows_cons p r t : count_rows p (r :: t) = (if p r then 1 else 0) + count_rows p t.
Proof. unfold count_rows. simpl. destruct (p r); simpl; lia. Qed.

Lemma count_rows_app p t t' : count_rows p (t ++ t') = count_rows p t + count_rows p t'.
Proof. unfold count_rows. rewrite List.filter_app, length_app. lia. Qed.

(** No row moves into a state that counts. *)
Lemma count_change_le e p t t1 :
  (forall r r', row_change e r r' -> p r' = true -> p r = true) ->
  Forall2 (row_change e) t t1 -> count_rows p t1 <= count_rows p t.
Proof.
  intros Hp. induction 1 as [|r r' t t1 Hr _ IH]; [done|]. rewrite !count_rows_cons.
  specialize (Hp r r' Hr). destruct (p r'); [rewrite Hp by done; lia|]. destruct (p r); lia.
Qed.

Lemma pending_back e r r' :
  row_change e r r' -> String.eqb (apr_state r') "pending" = true ->
  String.eqb (apr_state r) "pending" = true.
Proof.
  intros [_ [Hs|(a & b & Hab & _ & Hb)] _ _]; [by rewrite Hs|]. rewrite Hb. by destruct Hab.
Qed.

Lemma active_back e d r r' :
  row_change e r r' -> String.eqb (apr_request_digest_hex r') d && is_active r' = true ->
  String.eqb (apr_request_digest_hex r) d && is_active r = true.
Proof.
  intros [(_ & _ & Hd & _) [Hs|(a & b & Hab & Ha & Hb)] _ _]; unfold is_active; rewrite Hd.
  - by rewrite Hs.
  - rewrite !andb_true_iff. intros [-> H]. rewrite Ha. rewrite Hb in H. by destruct Hab.
Qed.

Lemma row_ok_change h e r r' : row_ok h r -> row_change e r r' -> row_ok (h ++ [e]) r'.
Proof.
  intros [Hst (e0 & He0 & req & ttl & Hreq & Hou & Hod) Happ Hcons] Hch.
  pose proof Hch as [(Hid & _ & Hdig & _) Hmv Hrc Htok]. constructor.
  - destruct Hmv as [->|(a & b & _ & _ & Hb)]; [done|by exists b].
  - exists e0. split; [apply elem_of_app; by left|]. exists req, ttl. by rewrite Hid, Hdig.
  - intros Ha. destruct (Htok Ha) as [[Hr Ht]|(tok & Hap & Ht)].
    + destruct (Happ Hr) as (e1 & tok & He1 & Hap & Hh). exists e1, tok. rewrite Hid, Ht.
      split_and!; [apply elem_of_app; by left|done|done].
    + exists e, tok. rewrite Hid. split_and!; [apply elem_of_app; right; left|done|done].
  - rewrite Hid, consumptions_snoc, Hcons. destruct (consumes e (apr_approval_id r)).
    + by destruct Hrc as [-> ->].
    + destruct (String.eqb_spec (apr_state r') "consumed") as [Hc|Hc].
      { by rewrite (Hrc Hc). }
      destruct (String.eqb_spec (apr_state r) "consumed") as [Hc'|]; [|done].
      destruct Hmv as [Hmv|(a & b & Hab & Ha & _)]; [congruence|].
      rewrite Ha in Hc'. by destruct Hab.
Qed.

Lemma row_ok_new h e r :
  requested_by e r -> consumptions (apr_approval_id r) h = 0%nat -> row_ok (h ++ [e]) r.
Proof.
  intros (req & ttl & Hc & Hid & Hd & Hs & Ht & _) Hn. constructor.
  - by exists AS_Pending.
  - exists e. split; [apply elem_of_app; right; left|]. by exists req, ttl.
  - by rewrite Hs.
  - rewrite consumptions_snoc, Hn, Hs. unfold consumes. by rewrite Hc.
Qed.

Lemma table_ok_change h e t t' :
  table_ok h t -> table_change e t t' -> table_ok (h ++ [e]) t'.
Proof.
  intros [Hids Hrows Hunk Hpend Hact] [(t1 & added & -> & Hch & Hadd) Hcons].
  pose proof (row_change_ids e t t1 Hch) as Hi.
  assert (Hr1 : Forall (row_ok (h ++ [e])) t1).
  { clear -Hrows Hch. induction Hch as [|r r' t t1 Hr _ IH]; [constructor|].
    apply Forall_cons in Hrows as [? ?]. constructor; [by eapply row_ok_change|by apply IH]. }
  pose proof (count_change_le e _ t t1 (pending_back e) Hch) as Hp1.
  assert (Ha1 : forall d, active_count d t1 <= active_count d t)
    by (intros d; eapply count_change_le; [apply active_back|exact Hch]).
  assert (Hu1 : forall id, id ∉ row_ids t -> consumptions id (h ++ [e]) = 0%nat).
  { intros id Hid. rewrite consumptions_snoc, (Hunk id Hid).
    destruct (consumes e id) eqn:E; [|done]. by apply Hcons in E. }
  destruct Hadd as [->|(row & -> & Hreq & Hfresh & Hz & Hlt)].
  - rewrite app_nil_r. constructor; rewrite ?Hi; try done; [unfold pending_count in *; lia|].
    intros d. specialize (Ha1 d). specialize (Hact d). lia.
  - pose proof Hreq as (req & ttl & Hc & _ & _ & Hs & _). constructor.
    + rewrite map_app, Hi. simpl. apply NoDup_app. split_and!; [done| |apply NoDup_singleton].
      by intros x Hx ->%list_elem_of_singleton.
    + apply Forall_app. split; [done|]. constructor; [|done]. apply row_ok_new; [done|].
      by apply Hunk.
    + intros id Hid. apply Hu1. intros Hin. apply Hid. rewrite map_app, Hi. apply elem_of_app.
      by left.
    + unfold pending_count in *. rewrite count_rows_app, count_rows_cons, Hs.
      change (count_rows _ []) with 0. cbn [String.eqb Ascii.eqb Bool.eqb]. lia.
    + intros d. unfold active_count in *. specialize (Ha1 d). specialize (Hact d).
      rewrite count_rows_app, count_rows_cons. change (count_rows _ []) with 0.
      destruct (String.eqb_spec (apr_request_digest_hex row) d) as [<-|]; cbn [andb];
        [destruct (is_active row)|]; lia.
Qed.

(** ** The audit log behind the broker *)

Lemma logged_step c seq log log' : logged redactor c seq log log' -> audit_step log log'.
Proof.
  intros (input & faults & eid & ts & sum & Ha & _ & _).
  replace log' with (snd (AuditStore_append redactor faults eid ts log input)); [constructor|].
  unfold AuditStore_append. by rewrite Ha.
Qed.

(** An exchange leaves the log alone or appends one event. *)
Lemma effect_log e s s' :
  call_effect config redactor e s s' ->
  br_audit s' = br_audit s \/ exists c seq, logged redactor c seq (br_audit s) (br_audit s').
Proof. destruct 1; simpl; eauto. Qed.

Lemma logged_event `{!Sha256Laws} `{!AuditJsonLaws} c seq log log' :
  log_ok log -> logged redactor c seq log log' ->
  exists row ev, log' = log ++ [row] /\ row_to_event row = Some ev /\ ev_category ev = c /\
    ev_sequence ev = seq.
Proof.
  intros [(es & Hr & Hc) _ _] (input & faults & eid & ts & sum & Ha & Hcat & Hseq).
  destruct (append_chain _ _ _ _ _ _ _ _ _ Hr Hc Ha) as (r & e & -> & Hr' & _ & _ & _ & _ & Hrec).
  destruct Hrec as (Hs & _ & _ & Hca & _).
  exists r, e. split_and!; [done| |congruence|congruence].
  pose proof (read_rows_last _ _ Hr') as Hl. by rewrite !last_snoc in Hl.
Qed.

(** ** Serving calls *)

Record broker_ok (h : list Exchange) (s : BrokerState) : Prop := {
  bk_table : table_ok h (br_approvals s);
  bk_log : log_ok (br_audit s);
}.

Lemma fresh_ok : broker_ok [] fresh_broker.
Proof.
  constructor; [|apply log_ok_nil].
  constructor; simpl; [by apply NoDup_nil_2|by apply Forall_nil|done|change (pending_count []) with 0; lia|].
  intros d. by change (active_count d []) with 0.
Qed.

Context {SHL : Sha256Laws} {AJL : AuditJsonLaws}.

Lemma call_ok h s env call rep s' :
  broker_ok h s -> run_call config redactor env call s = (rep, s') ->
  broker_ok (h ++ [{| ex_env := env; ex_call := call; ex_reply := rep |}]) s'.
Proof.
  intros [Ht Hl] Hr. apply run_call_effect in Hr. constructor.
  - eapply table_ok_change; [exact Ht|]. eapply effect_table; [apply Ht|exact Hr].
  - apply effect_log in Hr as [->|(c & seq & Hlog)]; [done|].
    eapply audit_step_ok; [exact Hl|by eapply logged_step].
Qed.

Lemma serve_ok h0 calls s h s' :
  broker_ok h0 s -> serve config redactor calls s = (h, s') -> broker_ok (h0 ++ h) s'.
Proof.
  revert h0 s h. induction calls as [|[env call] calls IH]; intros h0 s h Hok Hs; simpl in Hs.
  { injection Hs as <- <-. by rewrite app_nil_r. }
  destruct (run_call config redactor env call s) as [rep s1] eqn:Er.
  destruct (serve config redactor calls s1) as [h1 s2] eqn:Es. injection Hs as <- <-.
  pose proof (call_ok _ _ _ _ _ _ Hok Er) as Hok1.
  specialize (IH _ _ _ Hok1 Es). by rewrite <- app_assoc in IH.
Qed.

Lemma served_ok calls h s :
  serve config redactor calls fresh_broker = (h, s) -> broker_ok h s.
Proof. intros Hs. by apply (serve_ok [] calls fresh_broker h s fresh_ok). Qed.

(** What the history says about a consumption that succeeds. *)
Lemma consume_provenance `{!HexLaws} h s env id tok c s' :
  broker_ok h s -> consume redactor env id tok s = (Ok c, s') ->
  exists e1 req ttl e2 actor tok',
    e1 ∈ h /\ ex_call e1 = Call_request req ttl /\ ce_uuid (ex_env e1) = id_str id /\
    ca_request_digest c = compute_request_digest (areq_request req) /\
    e2 ∈ h /\ ex_call e2 = Call_approve id actor /\ ex_reply e2 = Reply_token (Ok tok') /\
    ApprovalToken_hash tok' = ApprovalToken_hash tok /\
    consumptions (id_str id) h = 0%nat.
Proof.
  intros [[_ Hrows _ _ _] _] Hc%(consume_effect config).
  remember {| ex_env := env; ex_call := Call_consume id tok; ex_reply := Reply_consumed (Ok c) |}
    as e eqn:He.
  destruct Hc as [| | | | | |? ? ? ? ? ? ? Hcall| |
      id' tok0 c' row at_ seq log Hcall Hrep Hl0 Hl2 Hth Hd Hca Hseq Hlog]; try by rewrite He in *.
  rewrite He in Hcall, Hrep. injection Hcall as <- <-. injection Hrep as <-.
  destruct Hl0 as (Hf & Hs & _). apply find_has_id in Hf as [Hin Hid].
  rewrite Forall_forall in Hrows. destruct (Hrows row Hin) as [_ Ho Ha Hn].
  destruct Ho as (e1 & He1 & req & ttl & Hreq & Hu & Hdig).
  destruct (Ha Hs) as (e2 & tok' & He2 & (i & actor & Hi & Hr & Hii) & Ht).
  rewrite Hid in Hii. apply id_str_inj in Hii as ->.
  destruct Hth as (st & Hst & Hdec). rewrite Ht in Hst. injection Hst as <-.
  rewrite hex_round_trip in Hdec. injection Hdec as Hdec.
  rewrite Hdig, hex_round_trip in Hd. injection Hd as Hd.
  exists e1, req, ttl, e2, actor, tok'. rewrite Hid, Hs in Hn. split_and!; try done; congruence.
Qed.

Lemma consumptions_le_one h s id : broker_ok h s -> (consumptions id h <= 1)%nat.
Proof.
  intros [[Hids Hrows Hunk _ _] _].
  destruct (decide (id ∈ row_ids (br_approvals s))) as [Hin|Hout]; [|by rewrite Hunk; auto].
  apply list_elem_of_fmap in Hin as (r & -> & Hr).
  rewrite Forall_forall in Hrows. rewrite (rk_consumed _ _ (Hrows r Hr)).
  destruct (String.eqb _ _); lia.
Qed.

(** ** Evolution of a row *)

Definition row_evolves (r r' : ApprovalRow) : Prop :=
  same_binding r r' /\
  exists a b, apr_state r = ApprovalState_display a /\ apr_state r' = ApprovalState_display b /\
    rtc approval_next a b.

Lemma display_inj a b : ApprovalState_display a = ApprovalState_display b -> a = b.
Proof. by destruct a, b. Qed.

Lemma parse_display a : parse_state (ApprovalState_display a) = Ok a.
Proof. by destruct a. Qed.

Lemma row_evolves_change e r r' :
  (exists a, apr_state r = ApprovalState_display a) -> row_change e r r' -> row_evolves r r'.
Proof.
  intros (a & Ha) [Hb [Hs|(x & y & Hxy & Hx & Hy)] _ _]; (split; [done|]).
  - exists a, a. rewrite Hs. split_and!; [done..|apply rtc_refl].
  - exists x, y. split_and!; [done..|by apply rtc_once].
Qed.

Lemma row_evolves_trans r1 r2 r3 : row_evolves r1 r2 -> row_evolves r2 r3 -> row_evolves r1 r3.
Proof.
  intros (Hb & a & b & Ha & Hb1 & Hab) (Hb' & c & d & Hc & Hd & Hcd). split; [by etrans|].
  exists a, d. split_and!; [done..|]. rewrite Hb1 in Hc. apply display_inj in Hc as ->.
  by etrans.
Qed.

Lemma call_evolves h s env call rep s' i r :
  broker_ok h s -> run_call config redactor env call s = (rep, s') ->
  br_approvals s !! i = Some r ->
  exists r', br_approvals s' !! i = Some r' /\ row_evolves r r'.
Proof.
  intros [Ht _] Hr%run_call_effect Hi.
  destruct (effect_table _ _ _ (tk_ids _ _ Ht) Hr) as [(t1 & added & -> & Hch & _) _].
  destruct (Forall2_lookup_l _ _ _ _ _ Hch Hi) as (r' & Hr' & Hrc).
  exists r'. split; [by apply lookup_app_l_Some|]. eapply row_evolves_change; [|exact Hrc].
  apply (rk_state h). eapply Forall_lookup_1; [apply Ht|exact Hi].
Qed.

Lemma serve_evolves h0 calls s h s' i r :
  broker_ok h0 s -> serve config redactor calls s = (h, s') -> br_approvals s !! i = Some r ->
  exists r', br_approvals s' !! i = Some r' /\ row_evolves r r'.
Proof.
  revert h0 s h r. induction calls as [|[env call] calls IH]; intros h0 s h r Hok Hs Hi; simpl in Hs.
  { injection Hs as <- <-. exists r. split; [done|]. split; [done|].
    destruct (Forall_lookup_1 _ _ _ _ (tk_rows _ _ (bk_table _ _ Hok)) Hi) as [(a & Ha) _ _ _].
    exists a, a. by split_and!; [..|apply rtc_refl]. }
  destruct (run_call config redactor env call s) as [rep s1] eqn:Er.
  destruct (serve config redactor calls s1) as [h1 s2] eqn:Es. injection Hs as <- <-.
  destruct (call_evolves _ _ _ _ _ _ _ _ Hok Er Hi) as (r1 & Hi1 & Hev1).
  destruct (IH _ _ _ _ (call_ok _ _ _ _ _ _ Hok Er) Es Hi1) as (r2 & Hi2 & Hev2).
  exists r2. split; [done|]. by eapply row_evolves_trans.
Qed.

(** No step leaves a terminal state. *)
Lemma terminal_final a b : terminal a -> rtc approval_next a b -> b = a.
Proof. intros [Hp Ha] Hr. destruct Hr as [|x y z Hxy _]; [done|]. by destruct Hxy. Qed.

(** ** Transitions are audited *)

(** The category of the event of a transition. *)
Inductive transition_event : ApprovalState -> ApprovalState -> AuditEventCategory -> Prop :=
| te_approved : transition_event AS_Pending AS_Approved ApprovalApproved
| te_denied : transition_event AS_Pending AS_Denied ApprovalDenied
| te_cancelled : transition_event AS_Pending AS_Cancelled DecisionDeny
| te_consumed : transition_event AS_Approved AS_Consumed ApprovalConsumed
| te_expired a : a = AS_Pending \/ a = AS_Approved -> transition_event a AS_Expired ApprovalExpired.

(** The call that was to grant or consume the approval found it live at first, but expired
    when it was to be changed: it grants nothing, and its event is already written. *)
Definition expired_meanwhile (e : Exchange) (r : ApprovalRow) (a : ApprovalState)
    (c : AuditEventCategory) : Prop :=
  attempts (ex_call e) (apr_approval_id r) a c /\ grants_nothing (ex_reply e) /\
  exists expires, parse_rfc3339 (apr_expires_at r) = Ok expires /\
    ce_clock (ex_env e) 0 < expires <= ce_clock (ex_env e) 2.

Lemma sql_update_lookup p f t i r r' :
  t !! i = Some r -> sql_update p f t !! i = Some r' -> apr_state r' <> apr_state r ->
  p r = true /\ r' = f r.
Proof.
  unfold sql_update. intros Hi. rewrite list_lookup_fmap, Hi. simpl.
  destruct (p r); intros [= <-]; done.
Qed.

Lemma effect_logs_transition e s s' i r r' :
  NoDup (row_ids (br_approvals s)) -> call_effect config redactor e s s' ->
  br_approvals s !! i = Some r -> br_approvals s' !! i = Some r' ->
  apr_state r' <> apr_state r ->
  exists a b c seq, apr_state r = ApprovalState_display a /\ apr_state r' = ApprovalState_display b /\
    (transition_event a b c \/ b = AS_Expired /\ expired_meanwhile e r a c) /\
    logged redactor c seq (br_audit s) (br_audit s').
Proof.
  intros Hn He Hi Hi' Hne.
  assert (Hone : forall id row, List.find (has_id id) (br_approvals s) = Some row ->
            has_id id r = true -> r = row).
  { intros id row Hf Hh. apply has_id_spec in Hh.
    eapply find_unique; [done|exact Hf|by eapply list_elem_of_lookup_2|done]. }
  destruct He as
    [Hg|c seq log Hg Hl|now seq log Hg Hl|id state at_ row c seq log Hg Hst Hlive (Hf & Hs & Hold) Hl
    |row Hg Hr Hf Ha Hp|row seq log Hg Hr Hf Ha Hp Hl
    |id actor tok row at_ seq log Hc Hr (Hf & Hs & _) _ Hl
    |id state actor reason row at_ c seq log Hg Hst (Hf & Hs & _) Hl
    |id tok c row at_ seq log Hc Hr (Hf & Hs & _) _ _ _ _ _ Hl]; simpl in *;
    try (rewrite (lookup_app_l_Some _ _ _ _ Hi) in Hi'); try (exfalso; congruence);
    (eapply sql_update_lookup in Hi' as [Hp ->]; [|done..]); simpl;
    try (apply (Hone _ row Hf) in Hp as ->; rewrite Hs).
  - apply andb_true_iff in Hp as [Ha _]. apply orb_true_iff in Ha as [Ha|Ha];
      apply String.eqb_eq in Ha; rewrite Ha;
      [exists AS_Pending|exists AS_Approved]; exists AS_Expired, ApprovalExpired, seq;
      (split_and!; [done|done|left; constructor; auto|done]).
  - exists state, AS_Expired, c, seq. split_and!; [done|done|right; split; [done|]|done].
    destruct Hlive as (_ & _ & x & Hx & Hlt), Hold as (y & Hy & Hle).
    apply find_has_id in Hf as [_ Hid]. rewrite <- Hid in Hst. split_and!; [done|done|].
    exists x. split; [done|]. assert (x = y) by congruence. lia.
  - exists AS_Pending, AS_Approved, ApprovalApproved, seq. by split_and!; [..|left; constructor|].
  - destruct Hst as [[-> ->]|[-> ->]];
      [exists AS_Pending, AS_Denied, ApprovalDenied, seq
      |exists AS_Pending, AS_Cancelled, DecisionDeny, seq];
      (split_and!; [done|done|left; constructor|done]).
  - exists AS_Approved, AS_Consumed, ApprovalConsumed, seq. by split_and!; [..|left; constructor|].
Qed.

End Life.

Section Requests.
Context {SH : Sha256} {HX : HexLib} {AJ : AuditJson} {CH : Rfc3339} {IE : IdsJsonError}.
Context {RJ : RequestJson}.
Variable redactor : TextRedactor.

(** ** Requests *)

(** A successful insertion adds exactly the pending row, numbered as logged. *)
Lemma request_insert_ok env p s q s' :
  request_insert redactor env p s = (Ok q, s') ->
  exists json seq,
    q = p /\ ids_to_json (pa_matched_rule_ids p) = Ok json /\
    existsb (has_id (id_str (pa_approval_id p))) (br_approvals s) = false /\
    br_approvals s' = br_approvals s ++
      [apr_update (pending_row p json) "pending" None None None None None (Some seq)] /\
    logged redactor ApprovalRequested seq (br_audit s) (br_audit s').
Proof.
  unfold request_insert. intros Hr.
  apply st_bind_ok in Hr as (u & s1 & (t & Hi & ->)%on_store_inv & Hr).
  unfold insert_pending in Hi.
  destruct (sf_begin _); [done|].
  destruct (ids_to_json (pa_matched_rule_ids p)) as [json|] eqn:Ej; [|done].
  destruct (sf_execute _); [done|].
  destruct (existsb _ (br_approvals s)) eqn:Ee; [done|]. injection Hi as <- <-.
  apply st_bind_ok in Hr as (seq & s1 & Ha & Hr).
  apply append_event_inv in Ha as [(e & [=] & _)|(seq' & log & [= <-] & Hl & ->)].
  apply st_bind_ok in Hr as (v & s2 & (t & Hu & ->)%on_store_inv & Hr). injection Hr as <- <-.
  unfold update_audit_sequence in Hu.
  destruct (sf_begin _); [done|]. destruct (sf_execute _); [done|].
  destruct (I64_MAX <? seq); [done|]. injection Hu as <- <-. simpl.
  exists json, seq. rewrite sql_update_snoc by (done || apply String.eqb_refl).
  by split_and!.
Qed.

(** The approval a request asks for. *)
Definition pending_of (config : ApprovalStoreConfig) (env : CallEnv) (request : ApprovalRequest)
    (ttl_seconds : option Z) : PendingApproval :=
  let req := areq_request request in
  {| pa_approval_id := Id_raw (ce_uuid env);
     pa_request_id := id_str (tr_request_id req);
     pa_request_digest := compute_request_digest req;
     pa_summary := areq_summary request;
     pa_operation := Operation_as_str (tr_operation req);
     pa_resource_kind := ResourceKind_display (Resource_kind (tr_resource req));
     pa_matched_rule_ids := bset_of_list (areq_matched_rule_ids request);
     pa_created_at := ce_clock env 0;
     pa_expires_at := ce_clock env 0 +
       Z.min (default (cfg_default_ttl_seconds config) ttl_seconds) MAX_APPROVAL_TTL_SECONDS * SECOND;
     pa_state := AS_Pending |}.

Lemma request_check_ok config env request ttl s p s' :
  request_check config env request ttl s = (Ok p, s') ->
  p = pending_of config env request ttl /\ validate_id (ce_uuid env) = Ok tt /\ s' = s.
Proof.
  unfold request_check, pending_of. cbv zeta.
  destruct (MAX_APPROVAL_SUMMARY_LENGTH <? _); [done|]. intros Hr.
  apply st_bind_ok in Hr as (n & s1 & [_ ->]%ask_store_inv & Hr).
  destruct (0 <? n); [done|].
  apply st_bind_ok in Hr as (m & s1 & [_ ->]%ask_store_inv & Hr).
  destruct (cfg_max_pending config <=? m); [done|].
  apply st_bind_ok in Hr as (i & s1 & [Hi ->]%st_lift_inv & Hr).
  unfold Id_new in Hi. destruct (validate_id (ce_uuid env)) as [[]|]; [|done].
  injection Hi as <-. injection Hr as <- <-. by rewrite sort_dedup_bset.
Qed.

Lemma find_snoc p (t : ApprovalTable) r :
  existsb p t = false -> p r = true -> List.find p (t ++ [r]) = Some r.
Proof.
  induction t as [|q t IH]; simpl; [by intros _ ->|]. intros [-> Ht]%orb_false_iff. by apply IH.
Qed.

Lemma parse_rule_ids_ok `{!AuditJsonLaws} ids json :
  ids_to_json ids = Ok json -> Forall (fun i => validate_id i = Ok tt) ids ->
  parse_rule_ids json = Ok ids.
Proof.
  intros Hj Hv. unfold parse_rule_ids. rewrite (ids_json_round_trip ids json Hj). cbn [ok_or].
  replace (for_each _ ids) with (@Ok ApprovalError unit tt); [done|]. symmetry.
  apply for_each_ok. eapply Forall_impl; [exact Hv|]. simpl. by intros i ->.
Qed.

(** ** Fault-free transitions *)

(** A call during which the databases and the lock work. *)
Definition fault_free (env : CallEnv) : Prop :=
  ce_lock env = None /\ forall i, ce_store env i = no_store_faults.

(** The log hands out numbers SQLite can store. *)
Lemma logged_seq c seq log log' : logged redactor c seq log log' -> seq <= I64_MAX.
Proof.
  intros (input & faults & eid & ts & sum & Ha & _ & <-).
  unfold append_result, fail_if in Ha.
  destruct (AuditAppendInput_validate input); [|done].
  destruct (redact_opt redactor _) as [summary|]; [|done].
  destruct (redact_metadata redactor _) as [metadata|]; [|done].
  destruct (fault_begin faults); [done|].
  destruct (next_position log) as [[sq prev]|]; [|done].
  destruct (build_row _ _ _ _ _ _ _) as [row|]; [|done].
  destruct (fault_execute faults); [done|].
  destruct (I64_MAX <? sq) eqn:E; [done|]. bool_prop.
  destruct (sql_insert row log); [|done]. cbn [ok_or] in Ha.
  destruct (fault_commit faults); [done|]. by injection Ha as <- _.
Qed.

(** An event is appended, or the call reports the failure of the log. *)
Lemma append_event_cases env c ri op rk rs d rc ids meta s :
  (exists m, append_audit_event redactor env c ri op rk rs d rc ids meta s =
     (Err (APE_AuditFailure m), s)) \/
  exists seq log, append_audit_event redactor env c ri op rk rs d rc ids meta s =
      (Ok seq, {| br_approvals := br_approvals s; br_audit := log |}) /\
    logged redactor c seq (br_audit s) log /\ seq <= I64_MAX.
Proof.
  destruct (append_audit_event redactor env c ri op rk rs d rc ids meta s) as [r s'] eqn:E.
  pose proof E as E'.
  apply append_event_inv in E as [(e & -> & ->)|(seq & log & -> & Hl & ->)].
  - left. unfold append_audit_event in E'.
    destruct (AuditStore_append _ _ _ _ _ _) as [[sum|err] log]; [done|].
    injection E' as <- _. by eexists.
  - right. exists seq, log. split_and!; [done|done|by eapply logged_seq].
Qed.

Lemma ensure_live env id expected target s row :
  fault_free env -> live_row (br_approvals s) (id_str id) expected (ce_clock env 0) row ->
  ensure_transitionable redactor env id expected target s = (Ok row, s).
Proof.
  intros [_ Hf] (Hrow & Hs & ex & Hp & Hlt). unfold ensure_transitionable, st_bind, ask_store, load.
  rewrite Hf. simpl. rewrite Hrow. simpl. rewrite Hs, String.eqb_refl. simpl. rewrite Hp. simpl.
  apply Z.leb_gt in Hlt. by rewrite Hlt.
Qed.

Lemma approve_live env id actor s row ids bytes :
  fault_free env ->
  live_row (br_approvals s) (id_str id) "pending" (ce_clock env 0) row ->
  live_row (br_approvals s) (id_str id) "pending" (ce_clock env 2) row ->
  parse_rule_ids (apr_matched_rule_ids row) = Ok ids -> ce_random env = Ok bytes ->
  (exists m, approve redactor env id actor s = (Err (APE_AuditFailure m), s)) \/
  exists log at_ seq, approve redactor env id actor s = (Ok (ApprovalToken_raw bytes),
    {| br_approvals :=
         sql_update (has_id (id_str id))
           (fun r => apr_update r "approved"
                       (Some (hex_encode (ApprovalToken_hash (ApprovalToken_raw bytes))))
                       (Some (actor_str actor)) (apr_denial_reason r) (Some at_)
                       (apr_consumed_at r) (Some seq)) (br_approvals s);
       br_audit := log |}).
Proof.
  intros Hff Hl0 (Hrow & Hs & ex & Hp & Hlt) Hids Hrand. pose proof Hff as [Hlock Hst].
  unfold approve, lock_transition. st_run Hlock.
  st_run (ensure_live env id "pending" "approved" s row Hff Hl0). st_run Hids.
  unfold ApprovalToken_generate. st_run Hrand.
  unfold append_row_event.
  match goal with |- context [st_bind (append_audit_event ?r ?e ?c ?ri ?op ?rk ?rs ?d ?rc ?i ?m)] =>
    destruct (append_event_cases e c ri op rk rs d rc i m s) as [(m0 & Ha)|(seq & log & Ha & _ & Hseq)]
  end.
  { left. exists m0. by apply st_bind_stop. }
  right. exists log, (to_rfc3339 (ce_clock env 1)), seq. st_run Ha.
  unfold st_bind, on_store, transition_to_approved, transaction, tx_select, tx_execute, tx_bind_u64.
  rewrite Hst. simpl. rewrite Hrow, Hs, Hp. simpl.
  apply Z.leb_gt in Hlt. apply Z.ltb_ge in Hseq. by rewrite Hlt, Hseq.
Qed.

Lemma consume_live env id tok s row ids digest stored :
  fault_free env ->
  live_row (br_approvals s) (id_str id) "approved" (ce_clock env 0) row ->
  live_row (br_approvals s) (id_str id) "approved" (ce_clock env 2) row ->
  parse_rule_ids (apr_matched_rule_ids row) = Ok ids ->
  apr_token_hash row = Some stored -> hex_decode stored = Ok (ApprovalToken_hash tok) ->
  hex_decode (apr_request_digest_hex row) = Ok digest -> len digest = 32 ->
  (exists m, consume redactor env id tok s = (Err (APE_AuditFailure m), s)) \/
  exists c s', consume redactor env id tok s = (Ok c, s') /\ ca_request_digest c = digest /\
    ca_matched_rule_ids c = ids.
Proof.
  intros Hff Hl0 (Hrow & Hs & ex & Hp & Hlt) Hids Hth Hdec Hdig Hlen. pose proof Hff as [Hlock Hst].
  unfold consume, lock_transition. st_run Hlock.
  st_run (ensure_live env id "approved" "consumed" s row Hff Hl0). st_run Hids. st_run Hth.
  st_run Hdec. unfold ApprovalToken_verify_hash. rewrite String.eqb_refl. cbn [negb].
  st_run Hdig. unfold hash_from_blob. st_run Hlen.
  unfold append_row_event.
  match goal with |- context [st_bind (append_audit_event ?r ?e ?c ?ri ?op ?rk ?rs ?d ?rc ?i ?m)] =>
    destruct (append_event_cases e c ri op rk rs d rc i m s) as [(m0 & Ha)|(seq & log & Ha & _ & Hseq)]
  end.
  { left. exists m0. by apply st_bind_stop. }
  right. rewrite (st_bind_run _ _ _ _ _ Ha). cbv beta zeta.
  unfold st_bind, on_store, store_consume, transaction, tx_select, tx_execute, tx_bind_u64.
  rewrite Hst. simpl. rewrite Hrow, Hs, Hp. simpl.
  apply Z.leb_gt in Hlt. apply Z.ltb_ge in Hseq. rewrite Hlt, Hseq. by do 2 eexists.
Qed.

Lemma find_update id f t row :
  (forall r, apr_approval_id (f r) = apr_approval_id r) ->
  List.find (has_id id) t = Some row ->
  List.find (has_id id) (sql_update (has_id id) f t) = Some (f row).
Proof.
  intros Hf. induction t as [|r t IH]; simpl; [done|].
  destruct (has_id id r) eqn:E.
  - intros [= ->]. unfold has_id in *. by rewrite Hf, E.
  - by rewrite E.
Qed.

(** ** Expiry *)

Lemma filter_false p (t : ApprovalTable) : existsb p t = false -> List.filter p t = [].
Proof. induction t as [|r t IH]; simpl; [done|]. intros [-> Ht]%orb_false_iff. by apply IH. Qed.

Lemma store_expire_ok f now seq t ids t' :
  store_expire_overdue f now seq t = (Ok ids, t') ->
  ids = map apr_approval_id (List.filter (is_overdue now) t) /\
  t' = expire_rows (is_overdue now) now (fun _ => Some seq) t.
Proof.
  intros [(e & [=] & _)|Hk]%transaction_inv. destruct (sf_query f); [done|].
  destruct (map apr_approval_id (List.filter (is_overdue now) t)) as [|i l] eqn:E.
  - injection Hk as <- <-. split; [done|]. unfold expire_rows. rewrite sql_update_none; [done|].
    apply not_true_iff_false. intros (r & Hr & Ho)%existsb_exists.
    assert (Hin : In r (List.filter (is_overdue now) t)) by by apply filter_In.
    by destruct (List.filter (is_overdue now) t).
  - apply tx_execute_commit, tx_bind_commit in Hk. by injection Hk as <- <-.
Qed.

Lemma store_expire_run now seq t :
  seq <= I64_MAX ->
  store_expire_overdue no_store_faults now seq t =
  (Ok (map apr_approval_id (List.filter (is_overdue now) t)),
   expire_rows (is_overdue now) now (fun _ => Some seq) t).
Proof.
  intros Hseq%Z.ltb_ge.
  destruct (store_expire_overdue no_store_faults now seq t) as [r t'] eqn:E.
  destruct r as [ids|e].
  - apply store_expire_ok in E as [-> ->]. done.
  - unfold store_expire_overdue, transaction, tx_execute, tx_bind_u64 in E. simpl in E.
    rewrite Hseq in E. by destruct (map apr_approval_id _).
Qed.

Lemma expire_overdue_ok env s ids s' :
  expire_overdue redactor env s = (Ok ids, s') ->
  let now := to_rfc3339 (ce_clock env 0) in
  ids = map apr_approval_id (List.filter (is_overdue now) (br_approvals s)) /\
  exists seq, br_approvals s' = expire_rows (is_overdue now) now (fun _ => seq) (br_approvals s).
Proof.
  unfold expire_overdue. intros He. cbv zeta in *.
  apply st_bind_ok in He as (u & s1 & [_ ->]%st_lift_inv & He).
  apply st_bind_ok in He as (o & s1 & [Ho ->]%ask_store_inv & He).
  symmetry in Ho. apply read_query_ok in Ho. injection Ho as Ho.
  destruct o; cbn [negb] in He.
  - apply st_bind_ok in He as (seq & s1 & Ha & (t & Ht & ->)%on_store_inv).
    unfold append_expired_event in Ha.
    apply append_event_inv in Ha as [(e & [=] & _)|(seq' & log & [= <-] & _ & ->)].
    apply store_expire_ok in Ht as [-> ->]. split; [done|]. by exists (Some seq).
  - injection He as <- <-. symmetry in Ho.
    split; [by rewrite filter_false|]. exists None. unfold expire_rows. by rewrite sql_update_none.
Qed.

Lemma find_update_other p f id t row :
  (forall r, apr_approval_id (f r) = apr_approval_id r) -> p row = false ->
  List.find (has_id id) t = Some row -> List.find (has_id id) (sql_update p f t) = Some row.
Proof.
  intros Hf Hp. induction t as [|r t IH]; simpl; [done|].
  assert (Hh : has_id id (if p r then f r else r) = has_id id r)
    by (destruct (p r); [unfold has_id; by rewrite Hf|done]).
  rewrite Hh. destruct (has_id id r); [|done]. intros [= ->]. by rewrite Hp.
Qed.

Lemma ensure_at_expiry `{!Rfc3339Laws} env id s row expires :
  fault_free env -> List.find (has_id (id_str id)) (br_approvals s) = Some row ->
  apr_state row = "pending" -> apr_expires_at row = to_rfc3339 expires ->
  rfc3339_range expires -> ce_clock env 0 = expires ->
  (exists m, ensure_transitionable redactor env id "pending" "approved" s =
     (Err (APE_AuditFailure m), s)) \/
  exists seq log t, ensure_transitionable redactor env id "pending" "approved" s =
      (Err (APE_InvalidStateTransition "expired" "approved"),
       {| br_approvals := t; br_audit := log |}) /\
    logged redactor ApprovalExpired seq (br_audit s) log /\
    List.find (has_id (id_str id)) t = Some row.
Proof.
  intros [_ Hst] Hrow Hs Hex Hrange Hnow. unfold ensure_transitionable.
  assert (Hload : ask_store (load (ce_store env 0) (id_str id)) s = (Ok (Some row), s))
    by (unfold ask_store, load; by rewrite Hst, Hrow).
  st_run Hload. rewrite (st_bind_run _ _ s row s) by done. rewrite Hs. cbn [String.eqb Ascii.eqb Bool.eqb negb].
  assert (Hp : st_lift (map_err APE_DatabaseCorruption (parse_rfc3339 (apr_expires_at row))) s
             = (Ok expires, s)) by (unfold st_lift; by rewrite Hex, rfc3339_round_trip).
  st_run Hp. rewrite Hnow, Z.leb_refl.
  unfold append_expired_event.
  destruct (append_event_cases env ApprovalExpired None None None None (Some "expired") None []
              [("approval_id", id_str id)] s) as [(m & Ha)|(seq & log & Ha & Hl & Hseq)].
  { left. exists m. by apply st_bind_stop. }
  right. exists seq, log.
  assert (Hov : is_overdue (to_rfc3339 expires) row = false).
  { unfold is_overdue. rewrite Hex, rfc3339_order, Z.compare_refl by done. apply andb_false_r. }
  exists (expire_rows (is_overdue (to_rfc3339 expires)) (to_rfc3339 expires)
            (fun _ => Some seq) (br_approvals s)).
  split_and!; [|done|by apply find_update_other]. st_run Ha.
  erewrite st_bind_run; [reflexivity|]. unfold on_store. by rewrite Hst, store_expire_run.
Qed.

(** ** Summaries the audit log refuses *)

Lemma append_long_summary env c ri op rk sm d rc ids meta s :
  MAX_RESOURCE_SUMMARY_LENGTH < len sm ->
  exists m, append_audit_event redactor env c ri op rk (Some sm) d rc ids meta s =
    (Err (APE_AuditFailure m), s).
Proof.
  intros Hlen%Z.ltb_lt.
  destruct (append_event_cases env c ri op rk (Some sm) d rc ids meta s)
    as [Hm|(seq & log & Ha & Hl & _)]; [done|]. exfalso.
  unfold append_audit_event, AuditStore_append, append_result, AuditAppendInput_validate in Ha.
  simpl in Ha. rewrite Hlen in Ha.
  destruct (AUDIT_MAX_METADATA_ENTRIES <? _); [done|]. by destruct (for_each _ meta).
Qed.

(** No decision on a row with such a summary succeeds. *)
Lemma long_summary_undecidable s id row :
  List.find (has_id (id_str id)) (br_approvals s) = Some row ->
  MAX_RESOURCE_SUMMARY_LENGTH < len (apr_summary row) ->
  (forall env actor, is_ok (fst (approve redactor env id actor s)) = false) /\
  (forall env actor reason, is_ok (fst (deny redactor env id actor reason s)) = false) /\
  (forall env, is_ok (fst (cancel redactor env id s)) = false).
Proof.
  intros Hf Hlen.
  assert (Hrow : forall q st now, live_row (br_approvals s) (id_str id) st now q -> q = row)
    by (intros q st now (Hq & _); congruence).
  assert (Happ : forall A env c d rc ids meta (k : Z -> stateful BrokerState ApprovalError A) r s',
            (let! seq := append_row_event redactor env c row d rc ids meta in k seq) s = (r, s') ->
            is_ok r = false).
  { intros A env c d rc ids meta k r s' Hr. unfold append_row_event in Hr.
    destruct (append_long_summary env c (Some (apr_request_id row)) (Some (apr_operation row))
                (Some (apr_resource_kind row)) (apr_summary row) (Some d) rc ids meta s Hlen)
      as [m Hm]. rewrite (st_bind_stop _ _ _ _ _ Hm) in Hr. by injection Hr as <- _. }
  split_and!.
  - intros env actor. destruct (approve redactor env id actor s) as [r s'] eqn:E.
    apply (begin_inv ApprovalStoreConfig_default) in E
      as [(e & -> & _)|(q & ids & ->%Hrow & _ & Hk)]; [done|].
    apply st_bind_inv in Hk as [(e & _ & ->)|(tok & s1 & [_ ->]%st_lift_inv & Hk)]; [done|].
    cbv zeta in Hk. exact (Happ _ _ _ _ _ _ _ _ _ _ Hk).
  - intros env actor reason. destruct (deny redactor env id actor reason s) as [r s'] eqn:E.
    apply (begin_inv ApprovalStoreConfig_default) in E
      as [(e & -> & _)|(q & ids & ->%Hrow & _ & Hk)]; [done|].
    cbv zeta in Hk. exact (Happ _ _ _ _ _ _ _ _ _ _ Hk).
  - intros env. destruct (cancel redactor env id s) as [r s'] eqn:E.
    apply (begin_inv ApprovalStoreConfig_default) in E
      as [(e & -> & _)|(q & ids & ->%Hrow & _ & Hk)]; [done|].
    cbv zeta in Hk. exact (Happ _ _ _ _ _ _ _ _ _ _ Hk).
Qed.

End Requests.
