(* ===== verification/Instances.v ===== *)
(** * Concrete instances of the parameters

    Functions that satisfy the laws the development assumes of other crates'
    code: a digest of 32 bytes, an invertible JSON-like encoding of lists and
    maps, an order-preserving encoding of times, and globs of literals, stars and double
    stars.  The worked examples run the models with them.  Then the vocabulary of the
    files that translate the unit tests of the program. *)

From stdpp Require Import base tactics option list strings.
From Stdlib Require Import ZArith Lia Ascii.
From S2P Require Import Prelude RustStr BTree CoreIds CorePath CoreResource CoreRequest CorePermit PolicyModel.
From S2P Require Import AuditModel ApprovalModel.

Open Scope Z_scope.

(** ** Digests and hex *)

(** The first [n] bytes, padded. *)
Fixpoint pad (n : nat) (s : string) : string :=
  match n with
  | O => ""
  | S n' => match s with
            | EmptyString => String "x" (pad n' "")
            | String c s' => String c (pad n' s')
            end
  end.

Lemma pad_len n s : len (pad n s) = Z.of_nat n.
Proof.
  revert s. induction n as [|n IH]; intros s; [done|].
  destruct s; simpl pad; rewrite len_cons, IH; lia.
Qed.

Definition toy_sha : Sha256 := {| sha256 := pad 32 |}.
Lemma toy_sha_laws : @Sha256Laws toy_sha.
Proof. constructor. intros s. exact (pad_len 32 s). Qed.

Definition toy_hex : HexLib := {| hex_encode s := s; hex_decode s := Ok s |}.
Lemma toy_hex_laws : @HexLaws toy_hex.
Proof. by constructor. Qed.

(** ** Lists and maps of strings *)

(** A string as its marked bytes and a final dot. *)
Fixpoint enc_string (s rest : string) : string :=
  match s with
  | EmptyString => String "." rest
  | String c s' => String "x" (String c (enc_string s' rest))
  end.

Definition enc_strings (l : list string) : string := foldr enc_string "" l.

Fixpoint dec_strings (s : string) : option (list string) :=
  match s with
  | EmptyString => Some []
  | String c rest =>
      if Ascii.eqb c "." then option_map (cons "") (dec_strings rest)
      else match rest with
           | EmptyString => None
           | String d rest' =>
               match dec_strings rest' with
               | Some (h :: l) => Some (String d h :: l)
               | _ => None
               end
           end
  end.

Lemma dec_enc_string s rest l :
  dec_strings rest = Some l -> dec_strings (enc_string s rest) = Some (s :: l).
Proof. intros Hr. induction s as [|c s IH]; simpl; [by rewrite Hr|by rewrite IH]. Qed.

Lemma dec_enc_strings l : dec_strings (enc_strings l) = Some l.
Proof. induction l as [|s l IH]; [done|]. by apply dec_enc_string. Qed.

Definition flatten (m : str_map) : list string := concat (map (fun kv => [kv.1; kv.2]) m).

Fixpoint unflatten (l : list string) : option str_map :=
  match l with
  | [] => Some []
  | k :: v :: l' => option_map (cons (k, v)) (unflatten l')
  | [_] => None
  end.

Lemma unflatten_flatten m : unflatten (flatten m) = Some m.
Proof. induction m as [|[k v] m IH]; [done|]. simpl. unfold flatten in IH. by rewrite IH. Qed.

Definition toy_json : AuditJson := {|
  ids_to_json ids := Ok (enc_strings ids);
  ids_from_json := dec_strings;
  map_to_json m := Ok (enc_strings (flatten m));
  map_from_json s := match dec_strings s with Some l => unflatten l | None => None end;
  conversion_message s := s;
|}.

Lemma toy_json_laws : @AuditJsonLaws toy_json.
Proof.
  constructor; intros x j [= <-]; simpl; rewrite dec_enc_strings; [done|apply unflatten_flatten].
Qed.

Definition toy_ids_error : IdsJsonError := {| ids_error s := s |}.

Definition toy_request_json : RequestJson :=
  {| request_to_json r := Some (id_str (tr_request_id r)) |}.

(** ** Times *)

(** The lowest [n] bits of [z], highest first. *)
Fixpoint bits (n : nat) (z : Z) : string :=
  match n with
  | O => ""
  | S n' => String (if Z.testbit z (Z.of_nat n') then "1" else "0") (bits n' z)
  end.

Fixpoint unbits (s : string) (acc : Z) : Z :=
  match s with
  | EmptyString => acc
  | String c s' => unbits s' (2 * acc + if Ascii.eqb c "1" then 1 else 0)
  end.

Lemma mod_succ_bit z (n : nat) :
  z mod 2 ^ Z.of_nat (S n) = Z.b2z (Z.testbit z (Z.of_nat n)) * 2 ^ Z.of_nat n + z mod 2 ^ Z.of_nat n.
Proof.
  rewrite Z.testbit_spec' by lia. replace (Z.of_nat (S n)) with (Z.of_nat n + 1) by lia.
  rewrite Z.pow_add_r, Z.pow_1_r by lia. rewrite Z.rem_mul_r by lia. ring.
Qed.

Lemma unbits_bits n z acc : unbits (bits n z) acc = acc * 2 ^ Z.of_nat n + z mod 2 ^ Z.of_nat n.
Proof.
  revert acc. induction n as [|n IH]; intros acc; simpl bits; simpl unbits.
  { rewrite Z.mod_1_r. lia. }
  rewrite IH, mod_succ_bit. replace (Z.of_nat (S n)) with (Z.of_nat n + 1) by lia.
  rewrite Z.pow_add_r by lia. destruct (Z.testbit z (Z.of_nat n)); simpl; lia.
Qed.

Lemma bits_order n a b :
  str_cmp (bits n a) (bits n b) = (a mod 2 ^ Z.of_nat n ?= b mod 2 ^ Z.of_nat n).
Proof.
  induction n as [|n IH]; [by rewrite !Z.mod_1_r|]. rewrite !mod_succ_bit. simpl bits. simpl str_cmp.
  pose proof (Z.mod_pos_bound a (2 ^ Z.of_nat n) ltac:(lia)).
  pose proof (Z.mod_pos_bound b (2 ^ Z.of_nat n) ltac:(lia)).
  destruct (Z.testbit a (Z.of_nat n)), (Z.testbit b (Z.of_nat n)); simpl; rewrite ?IH.
  - destruct (Z.compare_spec (a mod 2 ^ Z.of_nat n) (b mod 2 ^ Z.of_nat n)); symmetry;
      [apply Z.compare_eq_iff|apply Z.compare_lt_iff|apply Z.compare_gt_iff]; lia.
  - symmetry. apply Z.compare_gt_iff. lia.
  - symmetry. apply Z.compare_lt_iff. lia.
  - done.
Qed.

Definition EPOCH_SHIFT : Z := 62167219200 * 10 ^ 9.

Definition toy_time : Rfc3339 := {|
  to_rfc3339 t := bits 70 (t + EPOCH_SHIFT);
  parse_rfc3339 s := Ok (unbits s 0 - EPOCH_SHIFT);
|}.

Lemma shifted_mod t : rfc3339_range t -> (t + EPOCH_SHIFT) mod 2 ^ Z.of_nat 70 = t + EPOCH_SHIFT.
Proof.
  unfold rfc3339_range, EPOCH_SHIFT. intros Ht. apply Z.mod_small.
  change (2 ^ Z.of_nat 70) with 1180591620717411303424. lia.
Qed.

Lemma toy_time_laws : @Rfc3339Laws toy_time.
Proof.
  constructor.
  - intros t Ht. unfold parse_rfc3339, to_rfc3339, toy_time. f_equal.
    rewrite unbits_bits, shifted_mod by done. lia.
  - intros t u Ht Hu. unfold to_rfc3339, toy_time.
    rewrite bits_order, !shifted_mod by done.
    rewrite (Z.add_comm t), (Z.add_comm u). apply Z.add_compare_mono_l.
Qed.

(** ** Globs *)

(** What the tests use of globset: literals, a star within a segment, double stars between
    segments. *)

Inductive GlobToken := G_Lit (c : ascii) | G_Star | G_Prefix | G_Between | G_Suffix | G_Everything.

(** The pieces of a pattern; a bracket opens a class, which these globs do not have. *)
Fixpoint glob_tokens (start : bool) (s : string) : option (list GlobToken) :=
  match s with
  | EmptyString => Some []
  | String "*" (String "*" EmptyString) => Some [G_Everything]
  | String "/" (String "*" (String "*" EmptyString)) => Some [G_Suffix]
  | String "*" (String "*" (String "/" r)) =>
      if start then cons G_Prefix <$> glob_tokens false r else None
  | String "/" (String "*" (String "*" (String "/" r))) => cons G_Between <$> glob_tokens false r
  | String "*" r => cons G_Star <$> glob_tokens false r
  | String "[" _ => None
  | String c r => cons (G_Lit c) <$> glob_tokens false r
  end.

(** [k] holds of the rest after some bytes of the segment. *)
Fixpoint in_segment (k : string -> bool) (s : string) : bool :=
  k s || match s with String c r => negb (Ascii.eqb c "/") && in_segment k r | EmptyString => false end.

(** [k] holds of the rest after some separator. *)
Fixpoint after_separator (k : string -> bool) (s : string) : bool :=
  match s with
  | String c r => Ascii.eqb c "/" && k r || after_separator k r
  | EmptyString => false
  end.

Fixpoint tokens_match (tokens : list GlobToken) : string -> bool :=
  match tokens with
  | [] => is_empty
  | G_Lit c :: rest => fun s => match s with String d r => Ascii.eqb c d && tokens_match rest r | _ => false end
  | G_Star :: rest => in_segment (tokens_match rest)
  | G_Prefix :: rest => fun s => tokens_match rest s || after_separator (tokens_match rest) s
  | G_Between :: rest => fun s =>
      match s with
      | String c r => Ascii.eqb c "/" && (tokens_match rest r || after_separator (tokens_match rest) r)
      | _ => false
      end
  | G_Suffix :: _ => fun s => match s with String c _ => Ascii.eqb c "/" | _ => false end
  | G_Everything :: _ => fun _ => true
  end.

#[local] Instance segment_globs : GlobLib := {|
  Glob := list GlobToken;
  GlobSet := list (list GlobToken);
  glob_new_ok s := bool_decide (is_Some (glob_tokens true s));
  glob_build := glob_tokens true;
  globset_build gs := Some gs;
  is_match gs s := existsb (fun g => tokens_match g s) gs;
  glob_matches := tokens_match;
|}.

Lemma segment_globs_laws : @GlobLaws segment_globs.
Proof. constructor. by intros gs s path [= <-]. Qed.

(** ** Tests *)

(** A test ends or panics. *)
Abbreviation test := (option unit).

Definition unwrap {E A} (r : result E A) : option A := match r with Ok a => Some a | Err _ => None end.
Definition unwrap_err {E A} (r : result E A) : option E := match r with Ok _ => None | Err e => Some e end.
Definition assert (b : bool) : test := if b then Some tt else None.
Definition assert_eq {A} `{EqDecision A} (a b : A) : test := assert (bool_decide (a = b)).
Definition passes (tests : list test) : bool := forallb (fun t => bool_decide (t = Some tt)) tests.

Definition byte_string (z : Z) : string := String (byte_of z) "".
Definition repeat_byte (c : string) (n : Z) : string := join "" (List.repeat c (Z.to_nat n)).
(** [(0..=n).map(f)]. *)
Definition up_to {A} (n : Z) (f : Z -> A) : list A := map (fun i => f (Z.of_nat i)) (seq 0 (S (Z.to_nat n))).

(** Tests of code with state: a run that panics is an error. *)
Abbreviation scenario S A := (stateful S unit A).

Definition must {S E A} (r : result E A) : scenario S A := st_lift (map_err (fun _ => tt) r).
Definition must_err {S E A} (r : result E A) : scenario S E :=
  st_lift match r with Ok _ => Err tt | Err e => Ok e end.
Definition must_some {S A} (o : option A) : scenario S A := st_lift (ok_or tt o).
Definition check {S} (b : bool) : scenario S unit := st_lift (if b then Ok tt else Err tt).
Definition check_eq {S A} `{EqDecision A} (a b : A) : scenario S unit := check (bool_decide (a = b)).
(** The run from a state. *)
Definition play {S} (m : scenario S unit) (s : S) : test := unwrap (fst (m s)).
Fixpoint for_all {S A} (l : list A) (f : A -> scenario S unit) : scenario S unit :=
  match l with [] => st_ret tt | a :: l' => let! _ := f a in for_all l' f end.

(** A digest that depends on every byte: Horner's rule modulo 2^40, written on 32 bytes. *)
Fixpoint horner (s : string) (acc : Z) : Z :=
  match s with
  | EmptyString => acc
  | String c s' => horner s' (Z.land (acc * 521 + byte_val c + 1) 1099511627775)
  end.

Fixpoint word_bytes (n : nat) (z : Z) : string :=
  match n with
  | O => ""
  | S n' => String (byte_of (z mod 256)) (word_bytes n' (z / 256))
  end.

Definition horner_sha : Sha256 := {| sha256 s := word_bytes 32 (horner s 7) |}.

Lemma word_bytes_len n z : len (word_bytes n z) = Z.of_nat n.
Proof. revert z. induction n as [|n IH]; intros z; [done|]. simpl word_bytes. rewrite len_cons, IH. lia. Qed.

Lemma horner_sha_laws : @Sha256Laws horner_sha.
Proof. constructor. intros s. exact (word_bytes_len 32 _). Qed.

(** A text of a request that shows its identifier, operation and resource. *)
Definition resource_text (r : Resource) : string :=
  match r with
  | R_File p => "file " +:+ np_normalized p
  | R_Directory p => "directory " +:+ np_normalized p
  | R_Command c => join " " ("command" :: cmd_executable c :: cmd_arguments c)
  | R_NetworkEndpoint n =>
      "endpoint " +:+ scheme_str (net_scheme n) +:+ "://" +:+ host_str (net_host n) +:+ ":"
      +:+ match net_port n with Some p => dec (port_value p) | None => "" end
      +:+ np_normalized (net_path n)
  | R_Secret i => "secret " +:+ i
  | R_ExternalTool i => "tool " +:+ i
  | R_Unknown => "unknown"
  end.

Definition brief_request_json : RequestJson :=
  {| request_to_json r := Some (join " " [id_str (tr_request_id r); Operation_as_str (tr_operation r);
                                          resource_text (tr_resource r)]) |}.

