(* ===== verification/ApprovalProps.v ===== *)
(** * Properties of the approval broker *)

From stdpp Require Import base tactics list strings relations.
From Stdlib Require Import ZArith Lia Ascii.
From S2P Require Import Prelude RustStr BTree CoreError CoreIds CoreResource CoreRequest.
From S2P Require Import CorePermit AuditModel AuditVerify AuditChain ApprovalModel ApprovalBroker.
From S2P Require Import ApprovalSpec ApprovalLife Instances.

Open Scope Z_scope.

Section ApprovalProperties.
Context {SH : Sha256} {HX : HexLib} {AJ : AuditJson} {CH : Rfc3339} {IE : IdsJsonError}.
Context {RJ : RequestJson}.
Context {SHL : Sha256Laws} {AJL : AuditJsonLaws}.
Variable config : ApprovalStoreConfig.
Variable redactor : TextRedactor.

(** ** Histories *)

(** (C22) Over any history of calls, whatever fails and whatever the clock shows,
    a row keeps the columns that bind it to its request, its state only moves
    along the life cycle, and a denied, expired, consumed or cancelled approval
    never changes state again. *)
Theorem approval_lifecycle calls more h s h' s' i r :
  serve config redactor calls fresh_broker = (h, s) ->
  serve config redactor more s = (h', s') ->
  br_approvals s !! i = Some r ->
  exists r' a b, br_approvals s' !! i = Some r' /\ same_binding r r' /\
    parse_state (apr_state r) = Ok a /\ parse_state (apr_state r') = Ok b /\
    rtc approval_next a b /\ (terminal a -> b = a).
Proof.
  intros Hs%(served_ok config redactor) Hm Hi.
  destruct (serve_evolves _ _ _ _ _ _ _ _ _ Hs Hm Hi) as (r' & Hi' & Hb & a & b & Ha & Hb' & Hab).
  exists r', a, b. rewrite Ha, Hb', !parse_display. split_and!; [done..|].
  intros Ht. by eapply terminal_final.
Qed.

(** An approval is consumed at most once in any history of calls. *)
Theorem consumed_at_most_once calls h s id :
  serve config redactor calls fresh_broker = (h, s) -> (consumptions id h <= 1)%nat.
Proof.
  intros Hs%(served_ok config redactor). by eapply consumptions_le_one.
Qed.

(** A token is only honoured for the request a human approved: when a
    consumption succeeds, the history contains the request whose digest it
    returns and a successful approval of the same id whose token has the same
    hash, and no earlier consumption. *)
Theorem consume_requires_approval `{!HexLaws} calls h s env id tok c s' :
  serve config redactor calls fresh_broker = (h, s) ->
  consume redactor env id tok s = (Ok c, s') ->
  exists e1 req ttl e2 actor tok',
    e1 ∈ h /\ ex_call e1 = Call_request req ttl /\ ce_uuid (ex_env e1) = id_str id /\
    ca_request_digest c = compute_request_digest (areq_request req) /\
    e2 ∈ h /\ ex_call e2 = Call_approve id actor /\ ex_reply e2 = Reply_token (Ok tok') /\
    ApprovalToken_hash tok' = ApprovalToken_hash tok /\
    consumptions (id_str id) h = 0%nat.
Proof.
  intros Hs%(served_ok config redactor). by eapply consume_provenance.
Qed.

(** Served one call at a time, a broker with a valid configuration never
    holds more pending approvals than configured (at most 10,000), nor two active
    approvals for the same request.  (The configured number is a [usize].) *)
Theorem approval_limits_hold calls h s digest :
  0 <= cfg_max_pending config -> validate_config config = Ok tt ->
  serve config redactor calls fresh_broker = (h, s) ->
  pending_count (br_approvals s) <= cfg_max_pending config <= 10000 /\
  active_count (hex_encode digest) (br_approvals s) <= 1.
Proof.
  intros Hmax Hv [[_ _ _ Hp Ha] _]%(served_ok config redactor). split; [|apply Ha].
  unfold validate_config, MAX_PENDING_APPROVALS in Hv.
  destruct ((cfg_default_ttl_seconds config =? 0) || _); [done|].
  destruct (cfg_max_pending config =? 0); [done|]. cbn [orb] in Hv.
  destruct (10000 <? cfg_max_pending config) eqn:E; [done|]. bool_prop.
  unfold pending_count, count_rows in *. lia.
Qed.

(** (C23) Every state change is in the audit log, which stays valid: a call
    that moves an approval to another state appends exactly one event.  It is of the
    category of that transition, with one exception, which grants nothing: an approve
    or a consume that finds the approval live first, and expired when it is to be
    changed, makes it expired under the event of the attempt, ApprovalApproved or
    ApprovalConsumed. *)
Theorem transitions_are_audited calls h s env call reply s' :
  serve config redactor calls fresh_broker = (h, s) ->
  run_call config redactor env call s = (reply, s') ->
  (exists rep, AuditStore_verify_full None (br_audit s') = Ok rep /\ vr_chain_valid rep = true) /\
  forall i r r', br_approvals s !! i = Some r -> br_approvals s' !! i = Some r' ->
    apr_state r' <> apr_state r ->
    exists a b row ev, br_audit s' = br_audit s ++ [row] /\ row_to_event row = Some ev /\
      parse_state (apr_state r) = Ok a /\ parse_state (apr_state r') = Ok b /\
      (transition_event a b (ev_category ev) \/
       b = AS_Expired /\
       expired_meanwhile {| ex_env := env; ex_call := call; ex_reply := reply |} r a (ev_category ev)).
Proof.
  intros Hok%(served_ok config redactor) Hr. split.
  - apply (call_ok _ _ _ _ _ _ _ _ Hok) in Hr as [_ [(es & Hr & Hc) _ _]].
    exists (verify_events es None). unfold AuditStore_verify_full, AuditStore_all_events, fail_if.
    rewrite Hr. split; [done|]. by apply verify_events_valid.
  - intros i r r' Hi Hi' Hne. apply run_call_effect in Hr.
    destruct (effect_logs_transition _ _ _ _ _ _ _ _ (tk_ids _ _ _ (bk_table _ _ _ Hok)) Hr Hi Hi' Hne)
      as (a & b & c & seq & Ha & Hb & Hev & Hlog).
    destruct (logged_event _ _ _ _ _ (bk_log _ _ _ Hok) Hlog) as (row & ev & Happ & Hrow & Hcat & _).
    exists a, b, row, ev. rewrite Ha, Hb, !parse_display, Hcat. by split_and!.
Qed.

(** ** The race of requests *)

(** Concurrent requests escape the duplicate check: the checks of
    [request_approval] and its insertion are not under the transition lock, so
    when two checks for the same tool request run before the first insertion,
    both succeed and the digest ends up with two active approvals. *)
Theorem request_race_duplicates env1 env2 request ttl1 ttl2 p1 p2 q1 q2 s s1 s2 :
  request_check config env1 request ttl1 s = (Ok p1, s) ->
  request_check config env2 request ttl2 s = (Ok p2, s) ->
  request_insert redactor env1 p1 s = (Ok q1, s1) ->
  request_insert redactor env2 p2 s1 = (Ok q2, s2) ->
  active_count (hex_encode (compute_request_digest (areq_request request))) (br_approvals s2) = 2.
Proof.
  intros [_ H1]%check_inv [_ H2]%check_inv
    (j1 & n1 & _ & _ & _ & Ht1 & _)%request_insert_ok (j2 & n2 & _ & _ & _ & Ht2 & _)%request_insert_ok.
  destruct (H1 p1 eq_refl) as (_ & Hd1 & _ & Hz & _). destruct (H2 p2 eq_refl) as (_ & Hd2 & _).
  unfold active_count in *. rewrite Ht2, Ht1, !count_rows_app, !count_rows_cons.
  simpl. rewrite Hd1, Hd2, String.eqb_refl. rewrite Hd1 in Hz. rewrite Hz. done.
Qed.

(** ** Single calls *)

(** (C34) A live pending approval can be granted and its token redeemed: when the
    databases, the lock and the random source work, the row holds a digest of 32 bytes and
    readable rule ids, and both calls happen before the expiry, [approve] returns a token
    and [consume] with that token returns the digest and the rule ids of the request;
    under these assumptions only an append to the audit log that fails can stop either,
    and then the call changes nothing. *)
Theorem approve_then_consume `{!HexLaws} env1 env2 id actor s row expires ids digest bytes :
  fault_free env1 -> fault_free env2 -> ce_random env1 = Ok bytes ->
  List.find (has_id (id_str id)) (br_approvals s) = Some row -> apr_state row = "pending" ->
  parse_rfc3339 (apr_expires_at row) = Ok expires ->
  (forall i, ce_clock env1 i < expires) -> (forall i, ce_clock env2 i < expires) ->
  parse_rule_ids (apr_matched_rule_ids row) = Ok ids ->
  hex_decode (apr_request_digest_hex row) = Ok digest -> len digest = 32 ->
  (exists m, approve redactor env1 id actor s = (Err (APE_AuditFailure m), s)) \/
  exists tok s1, approve redactor env1 id actor s = (Ok tok, s1) /\
    ((exists m, consume redactor env2 id tok s1 = (Err (APE_AuditFailure m), s1)) \/
     exists c s2, consume redactor env2 id tok s1 = (Ok c, s2) /\
       ca_request_digest c = digest /\ ca_matched_rule_ids c = ids).
Proof.
  intros Hf1 Hf2 Hrand Hrow Hs Hp Hc1 Hc2 Hids Hdig Hlen.
  assert (Hl : forall now, now < expires -> live_row (br_approvals s) (id_str id) "pending" now row)
    by (intros now Hnow; split_and!; eauto).
  destruct (approve_live redactor env1 id actor s row ids bytes Hf1 (Hl _ (Hc1 _)) (Hl _ (Hc1 _))
              Hids Hrand) as [Hfail|(log & at_ & seq & Ha)]; [by left|right].
  eexists _, _. split; [exact Ha|].
  assert (Hl' : forall now, now < expires -> live_row
    (sql_update (has_id (id_str id))
           (fun r => apr_update r "approved"
                       (Some (hex_encode (ApprovalToken_hash (ApprovalToken_raw bytes))))
                       (Some (actor_str actor)) (apr_denial_reason r) (Some at_)
                       (apr_consumed_at r) (Some seq)) (br_approvals s)) (id_str id) "approved" now
    (apr_update row "approved" (Some (hex_encode (ApprovalToken_hash (ApprovalToken_raw bytes))))
       (Some (actor_str actor)) (apr_denial_reason row) (Some at_) (apr_consumed_at row) (Some seq))).
  { intros now Hnow. split_and!; [|done|by eauto].
    etrans; [apply find_update; [done|exact Hrow]|done]. }
  eapply (consume_live redactor env2 id _ _ _ ids digest _ Hf2); [by apply Hl'|by apply Hl'|done..| |done|done].
  apply hex_round_trip.
Qed.

(** What [request_approval] stored, [get_approval] returns: the same
    binding, times, summary and rule ids, still pending and undecided, with the
    number of the audit event. *)
Theorem request_get_round_trip `{!HexLaws} `{!Rfc3339Laws} env request ttl s p s' env' :
  request_approval config redactor env request ttl s = (Ok p, s') ->
  Forall (fun i => validate_id i = Ok tt) (areq_matched_rule_ids request) ->
  rfc3339_range (pa_created_at p) -> rfc3339_range (pa_expires_at p) -> fault_free env' ->
  exists seq, get_approval env' (pa_approval_id p) s' = (Ok
    {| ar_approval_id := pa_approval_id p; ar_request_id := pa_request_id p;
       ar_request_digest := pa_request_digest p; ar_summary := pa_summary p;
       ar_operation := pa_operation p; ar_resource_kind := pa_resource_kind p;
       ar_matched_rule_ids := pa_matched_rule_ids p; ar_created_at := pa_created_at p;
       ar_expires_at := pa_expires_at p; ar_state := AS_Pending; ar_actor := None;
       ar_denial_reason := None; ar_decision_at := None; ar_consumed_at := None;
       ar_audit_sequence := Some seq |}, s').
Proof.
  intros Hr Hids Hc He [_ Hff]. unfold request_approval in Hr.
  apply st_bind_ok in Hr as (p' & s1 & Hk & Hi).
  apply request_check_ok in Hk as (Hp & Hv & ->).
  apply request_insert_ok in Hi as (json & seq & -> & Hj & Hfresh & Ht & _).
  exists seq. unfold get_approval, ask_store, load, st_bind. rewrite Hff, Ht. simpl.
  rewrite find_snoc by (done || apply String.eqb_refl). simpl.
  unfold row_to_record. simpl. rewrite hex_round_trip. cbn [map_err].
  assert (Hlen : len (pa_request_digest p') = 32) by (rewrite Hp; apply sha256_len).
  unfold hash_from_blob. rewrite Hlen. cbn [Z.eqb Pos.eqb ok_or].
  rewrite (parse_rule_ids_ok (pa_matched_rule_ids p') json Hj).
  2:{ rewrite Hp. simpl. rewrite Forall_forall in *. intros i Hin. apply Hids.
      by apply elem_of_bset_of_list. }
  rewrite !rfc3339_round_trip by done. cbn [map_err].
  assert (Hid : @Id_new KApproval (id_str (pa_approval_id p')) = Ok (pa_approval_id p')).
  { rewrite Hp. simpl. unfold Id_new. by rewrite Hv. }
  by rewrite Hid.
Qed.

(** [expire_overdue] expires exactly the active approvals whose expiry
    lies strictly before the reading of the clock, returns their ids, and leaves
    every other row as it was. *)
Theorem expire_overdue_exact `{!Rfc3339Laws} env s ids s' i r expires :
  expire_overdue redactor env s = (Ok ids, s') ->
  br_approvals s !! i = Some r -> apr_expires_at r = to_rfc3339 expires ->
  rfc3339_range expires -> rfc3339_range (ce_clock env 0) ->
  exists r', br_approvals s' !! i = Some r' /\ same_binding r r' /\
    (is_active r = true /\ expires < ce_clock env 0 /\ apr_state r' = "expired" /\
       apr_approval_id r ∈ ids \/
     (is_active r = false \/ ce_clock env 0 <= expires) /\ r' = r).
Proof.
  intros He Hi Hex Hr Hrn.
  assert (Hov : is_overdue (to_rfc3339 (ce_clock env 0)) r = is_active r && (expires <? ce_clock env 0)).
  { unfold is_overdue. rewrite Hex, rfc3339_order by done. f_equal. }
  apply expire_overdue_ok in He as [-> [seq Ht]]. rewrite Ht. unfold expire_rows, sql_update.
  rewrite list_lookup_fmap, Hi. simpl. rewrite Hov. eexists. split; [done|].
  destruct (is_active r) eqn:Ea; cbn [andb]; [|by split; [|right; auto]].
  destruct (Z.ltb_spec expires (ce_clock env 0)) as [Hlt|Hge]; [|by split; [|right; auto]].
  split; [by repeat split|]. left. split_and!; [done..|].
  apply list_elem_of_fmap. exists r. split; [done|]. apply list_elem_of_In, filter_In.
  split; [by eapply list_elem_of_In, list_elem_of_lookup_2|]. by rewrite Hov.
Qed.

(** At the very instant of its expiry an approval is refused as expired
    and an expiry is logged, but its row stays pending: [ensure_transitionable]
    treats the instant as past and [expire_overdue] does not. *)
Theorem expiry_instant_not_recorded `{!Rfc3339Laws} env id actor s row expires :
  fault_free env -> List.find (has_id (id_str id)) (br_approvals s) = Some row ->
  apr_state row = "pending" -> apr_expires_at row = to_rfc3339 expires ->
  rfc3339_range expires -> ce_clock env 0 = expires ->
  (exists m s', approve redactor env id actor s = (Err (APE_AuditFailure m), s') /\ s' = s) \/
  exists seq s', approve redactor env id actor s =
      (Err (APE_InvalidStateTransition "expired" "approved"), s') /\
    logged redactor ApprovalExpired seq (br_audit s) (br_audit s') /\
    List.find (has_id (id_str id)) (br_approvals s') = Some row.
Proof.
  intros Hff Hrow Hs Hex Hrange Hnow. pose proof Hff as [Hlock Hst].
  unfold approve, lock_transition. st_run Hlock.
  destruct (ensure_at_expiry redactor env id s row expires Hff Hrow Hs Hex Hrange Hnow)
    as [(m & He)|(seq & log & t & He & Hl & Hf)].
  - left. exists m, s. split; [|done]. by apply st_bind_stop.
  - right. exists seq. eexists. split; [by apply st_bind_stop|]. by split.
Qed.

(** A summary longer than the audit log accepts (2,048 bytes) but within
    the broker's own limit (4,096) strands its approval: the request fails after
    the row was inserted, nothing is logged, and no later call can approve, deny
    or cancel it. *)
Theorem long_summary_strands_approval env request ttl s p json :
  fault_free env -> request_check config env request ttl s = (Ok p, s) ->
  ids_to_json (pa_matched_rule_ids p) = Ok json ->
  existsb (has_id (ce_uuid env)) (br_approvals s) = false ->
  MAX_RESOURCE_SUMMARY_LENGTH < len (areq_summary request) ->
  exists m s', request_approval config redactor env request ttl s = (Err (APE_AuditFailure m), s') /\
    br_approvals s' = br_approvals s ++ [pending_row p json] /\ br_audit s' = br_audit s /\
    (forall env' actor, is_ok (fst (approve redactor env' (pa_approval_id p) actor s')) = false) /\
    (forall env' actor reason,
       is_ok (fst (deny redactor env' (pa_approval_id p) actor reason s')) = false) /\
    (forall env', is_ok (fst (cancel redactor env' (pa_approval_id p) s')) = false).
Proof.
  intros [_ Hst] Hc Hj Hfresh Hlen.
  apply request_check_ok in Hc as Hp. destruct Hp as (Hp & _ & _).
  set (s' := {| br_approvals := br_approvals s ++ [pending_row p json]; br_audit := br_audit s |}).
  assert (Hid : id_str (pa_approval_id p) = ce_uuid env) by (by rewrite Hp).
  assert (Hi : on_store (insert_pending (ce_store env 2) p) s = (Ok tt, s')).
  { unfold on_store, insert_pending. rewrite Hst. simpl. by rewrite Hj, Hid, Hfresh. }
  unfold request_approval. rewrite (st_bind_run _ _ _ _ _ Hc). unfold request_insert.
  rewrite (st_bind_run _ _ _ _ _ Hi). cbv zeta.
  edestruct (append_long_summary redactor env ApprovalRequested) as [m Hm].
  2:{ exists m, s'. split; [apply st_bind_stop; exact Hm|]. split_and!; [done|done|..];
        (eapply (long_summary_undecidable redactor s' (pa_approval_id p) (pending_row p json));
         [apply find_snoc; [by rewrite Hid|apply String.eqb_refl]|by rewrite Hp]). }
  by rewrite Hp.
Qed.

End ApprovalProperties.

(** ** Witnesses *)

#[local] Existing Instances toy_sha toy_sha_laws toy_hex toy_hex_laws toy_json toy_json_laws.
#[local] Existing Instances toy_time toy_time_laws toy_ids_error toy_request_json.

Definition ap_request : ApprovalRequest :=
  {| areq_request :=
       ToolRequest_new (Id_raw "req-1")
         (AgentSubjectBuilder_build (AgentSubjectBuilder_new (Id_raw "agent") (Id_raw "session")))
         SecretAccess (R_Secret "db-password")
         {| ctx_timestamp := 0; ctx_working_directory := None; ctx_declared_intent := None;
            ctx_parent_request_id := None; ctx_metadata := RequestMetadata_new;
            ctx_dry_run := false |};
     areq_matched_rule_ids := ["ask-first"];
     areq_summary := "read a secret" |}.

(** A working broker at second [sec]; [n] makes its identifiers fresh. *)
Definition ap_env (n : string) (sec : Z) : CallEnv :=
  {| ce_lock := None; ce_clock _ := sec * SECOND; ce_store _ := no_store_faults;
     ce_append := no_faults; ce_event_id := "event-" +:+ n; ce_timestamp := "now";
     ce_uuid := "approval-" +:+ n; ce_random := Ok ("token-" +:+ n) |}.

Abbreviation ap_config := ApprovalStoreConfig_default.
Definition ap_id : ApprovalId := Id_raw "approval-1".
Definition ap_actor : ApprovalActor := ApprovalActor_raw "alice".
Definition ap_token : ApprovalToken := ApprovalToken_raw "token-2".

Definition ap_start : list (CallEnv * BrokerCall) :=
  [(ap_env "1" 10, Call_request ap_request (Some 60)); (ap_env "2" 20, Call_approve ap_id ap_actor)].
Definition ap_finish : list (CallEnv * BrokerCall) :=
  [(ap_env "3" 30, Call_consume ap_id ap_token); (ap_env "4" 40, Call_consume ap_id ap_token)].

Definition ap_run (calls : list (CallEnv * BrokerCall)) : list Exchange * BrokerState :=
  serve ap_config None calls fresh_broker.
Definition ap_state (calls : list (CallEnv * BrokerCall)) : BrokerState := snd (ap_run calls).
Definition ap_row (s : BrokerState) : ApprovalRow :=
  default (pending_row (pending_of ap_config (ap_env "1" 10) ap_request None) "")
    (head (br_approvals s)).

Lemma ap_run_eq calls : serve ap_config None calls fresh_broker = (fst (ap_run calls), ap_state calls).
Proof. unfold ap_state, ap_run. apply surjective_pairing. Defined.

Lemma approval_lifecycle_witness :
  exists r', br_approvals (snd (serve ap_config None ap_finish (ap_state ap_start))) !! 0%nat = Some r'
    /\ same_binding (ap_row (ap_state ap_start)) r'.
Proof.
  destruct (approval_lifecycle ap_config None ap_start ap_finish (fst (ap_run ap_start))
    (ap_state ap_start) (fst (serve ap_config None ap_finish (ap_state ap_start)))
    (snd (serve ap_config None ap_finish (ap_state ap_start))) 0 (ap_row (ap_state ap_start))
    (ap_run_eq ap_start) (surjective_pairing _)) as (r' & _ & _ & Hi & Hb & _);
    [vm_compute; reflexivity|exists r'; split; [exact Hi|exact Hb]].
Defined.

Lemma consumed_at_most_once_witness :
  (consumptions "approval-1" (fst (ap_run (ap_start ++ ap_finish))) <= 1)%nat /\
  consumptions "approval-1" (fst (ap_run (ap_start ++ ap_finish))) = 1%nat.
Proof.
  split; [|vm_compute; reflexivity].
  exact (consumed_at_most_once ap_config None _ _ _ "approval-1" (ap_run_eq (ap_start ++ ap_finish))).
Defined.

Definition ap_consume : result ApprovalError ConsumedApproval * BrokerState :=
  consume None (ap_env "3" 30) ap_id ap_token (ap_state ap_start).
Definition ap_consumed : ConsumedApproval :=
  match fst ap_consume with
  | Ok c => c
  | Err _ => {| ca_approval_id := ap_id; ca_request_digest := ""; ca_matched_rule_ids := [];
                ca_consumed_at := 0; ca_audit_sequence := None |}
  end.

Lemma consume_requires_approval_witness :
  consumptions (id_str ap_id) (fst (ap_run ap_start)) = 0%nat.
Proof.
  destruct (consume_requires_approval ap_config None ap_start (fst (ap_run ap_start))
    (ap_state ap_start) (ap_env "3" 30) ap_id ap_token ap_consumed (snd ap_consume)
    (ap_run_eq ap_start)) as (? & ? & ? & ? & ? & ? & H); [vm_compute; reflexivity|apply H].
Defined.

Lemma approval_limits_hold_witness :
  pending_count (br_approvals (ap_state ap_start)) <= cfg_max_pending ap_config.
Proof.
  destruct (approval_limits_hold ap_config None ap_start (fst (ap_run ap_start)) (ap_state ap_start)
    "" ltac:(by vm_compute) eq_refl (ap_run_eq ap_start)) as [[Hp _] _]. exact Hp.
Defined.

Lemma ap_consume_call :
  run_call ap_config None (ap_env "3" 30) (Call_consume ap_id ap_token) (ap_state ap_start)
  = (Reply_consumed (fst ap_consume), snd ap_consume).
Proof. unfold run_call, reply, ap_consume. by destruct (consume _ _ _ _ _). Defined.

Lemma transitions_are_audited_witness :
  (exists rep, AuditStore_verify_full None (br_audit (snd ap_consume)) = Ok rep /\
    vr_chain_valid rep = true) /\
  exists row ev, br_audit (snd ap_consume) = br_audit (ap_state ap_start) ++ [row] /\
    row_to_event row = Some ev /\ ev_category ev = ApprovalConsumed.
Proof.
  destruct (transitions_are_audited ap_config None ap_start (fst (ap_run ap_start))
    (ap_state ap_start) (ap_env "3" 30) (Call_consume ap_id ap_token) (Reply_consumed (fst ap_consume))
    (snd ap_consume) (ap_run_eq ap_start) ap_consume_call) as [Hv Hall]. split; [exact Hv|].
  destruct (Hall 0%nat (ap_row (ap_state ap_start)) (ap_row (snd ap_consume)))
    as (a & b & row & ev & Hlog & Hev & Ha & Hb & Hcat); [vm_compute; done..|].
  exists row, ev. split_and!; [exact Hlog|exact Hev|].
  vm_compute in Ha, Hb. injection Ha as <-. injection Hb as <-.
  destruct Hcat as [Hcat|[Hx _]]; [|discriminate Hx]. inversion Hcat. reflexivity.
Defined.

(** An approval that expires at 70 while it is consumed: the row becomes expired, and the
    last event of the log says consumed. *)
Example late_consumption :
  let env := {| ce_lock := None; ce_clock i := (if (i <? 2)%nat then 69 else 70) * SECOND;
                ce_store _ := no_store_faults; ce_append := no_faults;
                ce_event_id := "event-3"; ce_timestamp := "now";
                ce_uuid := "approval-3"; ce_random := Ok "token-3" |} in
  let r := consume None env ap_id ap_token (ap_state ap_start) in
  r.1 = Err (APE_InvalidStateTransition "approved" "consumed") /\ apr_state (ap_row r.2) = "expired" /\
  row_category <$> last (br_audit r.2) = Some (category_display ApprovalConsumed).
Proof. vm_compute. by split_and!. Qed.

Definition ap_pending (n : string) : PendingApproval :=
  pending_of ap_config (ap_env n 10) ap_request (Some 60).

Lemma request_race_duplicates_witness :
  active_count (hex_encode (compute_request_digest (areq_request ap_request)))
    (br_approvals (snd (request_insert None (ap_env "2" 10) (ap_pending "2")
       (snd (request_insert None (ap_env "1" 10) (ap_pending "1") fresh_broker))))) = 2.
Proof.
  apply (request_race_duplicates ap_config None (ap_env "1" 10) (ap_env "2" 10) ap_request (Some 60)
    (Some 60) (ap_pending "1") (ap_pending "2") (ap_pending "1") (ap_pending "2") fresh_broker
    (snd (request_insert None (ap_env "1" 10) (ap_pending "1") fresh_broker)));
    vm_compute; reflexivity.
Defined.

Definition ap_requested : BrokerState := ap_state [(ap_env "1" 10, Call_request ap_request (Some 60))].

Lemma approve_then_consume_witness :
  exists tok s1, approve None (ap_env "2" 20) ap_id ap_actor ap_requested = (Ok tok, s1).
Proof.
  destruct (approve_then_consume None (ap_env "2" 20) (ap_env "3" 30) ap_id ap_actor ap_requested
    (ap_row ap_requested) (70 * SECOND) ["ask-first"] "req-1xxxxxxxxxxxxxxxxxxxxxxxxxxx" "token-2")
    as [(m & Hm)|(tok & s1 & Ha & _)];
    [by split|by split|vm_compute; reflexivity..| |].
  - by vm_compute in Hm.
  - by exists tok, s1.
Defined.

Lemma request_get_round_trip_witness :
  exists seq, fst (get_approval (ap_env "2" 20) ap_id ap_requested) = Ok
    {| ar_approval_id := ap_id; ar_request_id := "req-1";
       ar_request_digest := "req-1xxxxxxxxxxxxxxxxxxxxxxxxxxx"; ar_summary := "read a secret";
       ar_operation := "secret_access"; ar_resource_kind := "secret";
       ar_matched_rule_ids := ["ask-first"]; ar_created_at := 10 * SECOND;
       ar_expires_at := 70 * SECOND; ar_state := AS_Pending; ar_actor := None;
       ar_denial_reason := None; ar_decision_at := None; ar_consumed_at := None;
       ar_audit_sequence := Some seq |}.
Proof.
  destruct (request_get_round_trip ap_config None (ap_env "1" 10) ap_request (Some 60) fresh_broker
    (ap_pending "1") ap_requested (ap_env "2" 20)) as [seq Hg];
    [vm_compute; reflexivity|by repeat constructor|by vm_compute|by vm_compute|by split|].
  exists seq. exact (f_equal fst Hg).
Defined.

Lemma expire_overdue_exact_witness :
  exists r', br_approvals (snd (expire_overdue None (ap_env "9" 90) ap_requested)) !! 0%nat = Some r'
    /\ same_binding (ap_row ap_requested) r'.
Proof.
  destruct (expire_overdue_exact None (ap_env "9" 90) ap_requested ["approval-1"]
    (snd (expire_overdue None (ap_env "9" 90) ap_requested)) 0 (ap_row ap_requested) (70 * SECOND))
    as (r' & Hi & Hb & _); [vm_compute; reflexivity..|by vm_compute|by vm_compute|].
  exists r'. split; [exact Hi|exact Hb].
Defined.

Lemma expiry_instant_not_recorded_witness :
  exists s', approve None (ap_env "7" 70) ap_id ap_actor ap_requested =
      (Err (APE_InvalidStateTransition "expired" "approved"), s').
Proof.
  destruct (expiry_instant_not_recorded None (ap_env "7" 70) ap_id ap_actor ap_requested
    (ap_row ap_requested) (70 * SECOND)) as [(m & s' & Hm & _)|(seq & s' & Ha & _)];
    [by split|vm_compute; reflexivity..|by vm_compute|vm_compute; reflexivity| |].
  - by vm_compute in Hm.
  - by exists s'.
Defined.

Definition ap_long_request : ApprovalRequest :=
  {| areq_request := areq_request ap_request; areq_matched_rule_ids := [];
     areq_summary := pad 3000 "" |}.

Lemma long_summary_strands_approval_witness :
  exists m s', request_approval ap_config None (ap_env "1" 10) ap_long_request None fresh_broker =
    (Err (APE_AuditFailure m), s').
Proof.
  destruct (long_summary_strands_approval ap_config None (ap_env "1" 10) ap_long_request None
    fresh_broker (pending_of ap_config (ap_env "1" 10) ap_long_request None) "")
    as (m & s' & Hr & _); [by split|vm_compute; reflexivity..|].
  exists m, s'. exact Hr.
Defined.
