(* ===== verification/EnforceFs.v ===== *)
(** * The filesystem adapter

    crates/kavach-enforcement/src/lib.rs.  A [PathBuf] of the adapter is always
    below an absolute canonical root, so it is modelled as the list of its
    components; [std::fs] and [dunce::canonicalize] are the operating system's
    and a parameter ([FsOs]).  Every call that reads or changes the content or the
    structure of the file system is also recorded in a ghost log, which no
    definition reads.  Races with other processes between two calls are outside
    the model. *)

From stdpp Require Import base tactics list strings.
From Stdlib Require Import ZArith Lia Ascii.
From S2P Require Import Prelude RustStr BTree CoreError CoreIds CorePath CoreResource.
From S2P Require Import CoreRequest CorePermit.

Open Scope Z_scope.

(** ** Adapters *)

(** What the runtime asks of an adapter: at time [now], with a request, its input
    and a permit, it returns a result, the permit afterwards and the state of
    the world it acts on. *)
Class Adapter (W Input Output : Type) := {
  adapter_execute : Z -> ToolRequest -> Input -> ExecutionPermit -> W ->
    result string Output * ExecutionPermit * W;
}.
Arguments adapter_execute {W Input Output _} now request input permit w.

(** A permit that authorizes this request now. *)
Definition permit_admits `{Sha256, RequestJson} (now : Z) (request : ToolRequest)
    (p : ExecutionPermit) : Prop :=
  ExecutionPermit_is_valid now p = true /\
  ep_request_digest p = compute_request_digest request.

(** The promise of an adapter: it either refuses, leaving the permit and the world
    alone, or it has consumed a permit that admits the request. *)
Class AdapterLaws `{Sha256, RequestJson} {W Input Output} `{Adapter W Input Output} := {
  adapter_gate now request input p w r p' w' :
    adapter_execute now request input p w = (r, p', w') ->
    (p' = p /\ w' = w /\ exists e, r = Err e) \/
    (permit_admits now request p /\ p' = snd (ExecutionPermit_consume p));
}.

(** ** Paths *)

Abbreviation OsPath := (list string).

(** [Path::starts_with]: by components. *)
Fixpoint path_starts_with (base p : OsPath) : bool :=
  match base, p with
  | [], _ => true
  | b :: base', c :: p' => String.eqb b c && path_starts_with base' p'
  | _ :: _, [] => false
  end.

(** [Path::components] of a relative path on Unix. *)
Definition path_components (s : string) : OsPath :=
  List.filter (fun c => negb (is_empty c || String.eqb c "."))
    (split_on (fun b => Ascii.eqb b "/") s).

(** [Path::join] with a relative path, [Path::parent], [Path::file_name] and
    [Path::display]. *)
Definition path_join (base : OsPath) (s : string) : OsPath := base ++ path_components s.
Definition path_parent (p : OsPath) : option OsPath :=
  match p with [] => None | _ => Some (removelast p) end.
Definition path_file_name (p : OsPath) : option string :=
  match last p with
  | Some c => if String.eqb c ".." then None else Some c
  | None => None
  end.
Definition path_display (p : OsPath) : string := "/" +:+ join "/" p.

(** ** The operating system *)

(** [std::io::ErrorKind], as far as the adapter looks, and the error's text. *)
Inductive IoKind := IoNotFound | IoAlreadyExists | IoOther.
Record IoError := { io_kind : IoKind; io_text : string }.

Class FsOs (W : Type) := {
  os_canonicalize : W -> OsPath -> result IoError OsPath;
  os_exists : W -> OsPath -> bool;
  os_is_symlink : W -> OsPath -> bool;
  os_is_file : W -> OsPath -> bool;
  os_is_dir : W -> OsPath -> bool;
  os_len : W -> OsPath -> result IoError Z;
  os_read : W -> OsPath -> result IoError string;
  os_read_dir : W -> OsPath -> result IoError (list (result IoError string));
  os_create_new : OsPath -> W -> result IoError unit * W;
  os_write_flush : OsPath -> string -> W -> result IoError unit * W;
  os_rename : OsPath -> OsPath -> W -> result IoError unit * W;
  os_remove_file : OsPath -> W -> result IoError unit * W;
  os_create_dir : OsPath -> W -> result IoError unit * W;
  os_remove_dir : OsPath -> W -> result IoError unit * W;
}.

(** A file system object is not both a file and a directory. *)
Class FsOsLaws (W : Type) `{FsOs W} := {
  os_file_not_dir w p : os_is_file w p = true -> os_is_dir w p = false;
}.

(** The calls of the ghost log. *)
Inductive FsCall :=
| Fs_Read (p : OsPath)
| Fs_List (p : OsPath)
| Fs_Create (p : OsPath)
| Fs_Write (p : OsPath)
| Fs_Rename (from to : OsPath)
| Fs_Remove (p : OsPath)
| Fs_CreateDir (p : OsPath)
| Fs_RemoveDir (p : OsPath).

Record FsState (W : Type) := { fs_world : W; fs_log : list FsCall }.
Arguments fs_world {W} _.
Arguments fs_log {W} _.

(** ** Types *)

Definition MAX_FILE_READ_BYTES : Z := 64 * 1024 * 1024.
Definition MAX_FILE_WRITE_BYTES : Z := 64 * 1024 * 1024.
Definition MAX_DIRECTORY_ENTRIES : Z := 10000.

(** [FilesystemInput]. *)
Inductive FilesystemInput := FI_None | FI_WriteBytes (data : string).

(** [FilesystemError]. *)
Inductive FilesystemError :=
| FE_InvalidRequest (detail : string)
| FE_InvalidPermit (detail : string)
| FE_PermitExpired
| FE_PermitConsumed
| FE_WorkspaceEscape (detail : string)
| FE_SymlinkEscape
| FE_NotFound (detail : string)
| FE_AlreadyExists (detail : string)
| FE_WrongResourceType
| FE_UnsupportedFileType
| FE_ReadLimitExceeded (max : Z)
| FE_WriteLimitExceeded (max : Z)
| FE_DirectoryEntryLimitExceeded (max : Z)
| FE_DirectoryNotEmpty
| FE_DestinationExists (detail : string)
| FE_Io (e : IoError)
| FE_MissingWritePayload
| FE_UnexpectedPayload
| FE_AtomicReplaceFailed (detail : string).

(** The [#[error]] texts. *)
Definition FilesystemError_display (e : FilesystemError) : string :=
  match e with
  | FE_InvalidRequest d => "invalid request: " +:+ d
  | FE_InvalidPermit d => "invalid permit: " +:+ d
  | FE_PermitExpired => "permit expired"
  | FE_PermitConsumed => "permit already consumed"
  | FE_WorkspaceEscape d => "path escapes workspace: " +:+ d
  | FE_SymlinkEscape => "symlink resolves outside workspace"
  | FE_NotFound d => "not found: " +:+ d
  | FE_AlreadyExists d => "already exists: " +:+ d
  | FE_WrongResourceType => "wrong resource type for operation"
  | FE_UnsupportedFileType => "unsupported file type"
  | FE_ReadLimitExceeded n => "read limit exceeded: max " +:+ dec n +:+ " bytes"
  | FE_WriteLimitExceeded n => "write limit exceeded: max " +:+ dec n +:+ " bytes"
  | FE_DirectoryEntryLimitExceeded n =>
      "directory entry limit exceeded: max " +:+ dec n +:+ " entries"
  | FE_DirectoryNotEmpty => "directory not empty"
  | FE_DestinationExists d => "destination exists: " +:+ d
  | FE_Io e => "i/o error: " +:+ io_text e
  | FE_MissingWritePayload => "FileWrite requires WriteBytes payload"
  | FE_UnexpectedPayload => "unexpected payload for this operation"
  | FE_AtomicReplaceFailed d => "atomic write failed: " +:+ d
  end.

(** [FilesystemOutcome]. *)
Inductive FilesystemOutcome :=
| FO_FileRead (bytes : string) (bytes_read : Z)
| FO_FileWrite (bytes_written : Z)
| FO_FileCreate
| FO_FileDelete
| FO_FileMove
| FO_DirectoryList (entries : list string)
| FO_DirectoryCreate
| FO_DirectoryDelete.

(** [FilesystemEnforcer]. *)
Record FilesystemEnforcer := {
  fe_workspace_root : OsPath;
  fe_max_read_bytes : Z;
  fe_max_write_bytes : Z;
  fe_max_dir_entries : Z;
}.

(** [FilesystemEnforcer::new]. *)
Definition FilesystemEnforcer_new `{FsOs W} (w : W) (workspace_root : OsPath)
  : result FilesystemError FilesystemEnforcer :=
  let? root := map_err FE_Io (os_canonicalize w workspace_root) in
  Ok {| fe_workspace_root := root; fe_max_read_bytes := MAX_FILE_READ_BYTES;
        fe_max_write_bytes := MAX_FILE_WRITE_BYTES; fe_max_dir_entries := MAX_DIRECTORY_ENTRIES |}.

(** [with_max_read_bytes], [with_max_write_bytes] and [with_max_dir_entries]. *)
Definition with_max_read_bytes (limit : Z) (e : FilesystemEnforcer)
  : result FilesystemError FilesystemEnforcer :=
  if limit =? 0 then Err (FE_InvalidRequest "max_read_bytes must be positive")
  else Ok {| fe_workspace_root := fe_workspace_root e; fe_max_read_bytes := limit;
             fe_max_write_bytes := fe_max_write_bytes e;
             fe_max_dir_entries := fe_max_dir_entries e |}.

Definition with_max_write_bytes (limit : Z) (e : FilesystemEnforcer)
  : result FilesystemError FilesystemEnforcer :=
  if limit =? 0 then Err (FE_InvalidRequest "max_write_bytes must be positive")
  else Ok {| fe_workspace_root := fe_workspace_root e; fe_max_read_bytes := fe_max_read_bytes e;
             fe_max_write_bytes := limit; fe_max_dir_entries := fe_max_dir_entries e |}.

Definition with_max_dir_entries (limit : Z) (e : FilesystemEnforcer)
  : result FilesystemError FilesystemEnforcer :=
  if limit =? 0 then Err (FE_InvalidRequest "max_dir_entries must be positive")
  else Ok {| fe_workspace_root := fe_workspace_root e; fe_max_read_bytes := fe_max_read_bytes e;
             fe_max_write_bytes := fe_max_write_bytes e; fe_max_dir_entries := limit |}.

(** ** The permit gate *)

(** [verify_and_consume_permit], at time [now]. *)
Definition verify_and_consume_permit `{Sha256, RequestJson} (now : Z) (request : ToolRequest)
    (permit : ExecutionPermit) : result FilesystemError unit * ExecutionPermit :=
  if ExecutionPermit_is_expired now permit then (Err FE_PermitExpired, permit)
  else if ExecutionPermit_is_consumed permit then (Err FE_PermitConsumed, permit)
  else
    let digest := compute_request_digest request in
    if negb (ExecutionPermit_verify_request_digest permit digest) then
      (Err (FE_InvalidPermit "permit does not match request digest"), permit)
    else
      let '(consumed, permit') := ExecutionPermit_consume permit in
      if negb consumed then (Err FE_PermitConsumed, permit') else (Ok tt, permit').

Section Filesystem.
Context {W : Type} {OS : FsOs W}.

Abbreviation fs A := (stateful (FsState W) FilesystemError A).

(** Observing the file system. *)
Definition fs_query {A} (q : W -> A) : fs A := fun s => (Ok (q (fs_world s)), s).

(** A call on the log. *)
Definition fs_record (c : FsCall) : fs unit :=
  fun s => (Ok tt, {| fs_world := fs_world s; fs_log := fs_log s ++ [c] |}).

(** A recorded call that changes the file system; its own error is a value. *)
Definition fs_do (c : FsCall) (m : W -> result IoError unit * W) : fs (result IoError unit) :=
  fun s =>
    let '(r, w') := m (fs_world s) in
    (Ok r, {| fs_world := w'; fs_log := fs_log s ++ [c] |}).

(** ** Resolving paths *)

(** [is_lexically_under]. *)
Definition is_lexically_under (root candidate : OsPath) : bool :=
  (Z.of_nat (length root) <=? Z.of_nat (length candidate))
  && forallb (fun rc => String.eqb rc.1 rc.2) (combine root candidate).

(** [resolve_within_workspace]. *)
Definition resolve_within_workspace (workspace_root : OsPath) (resource_path : NormalizedPath)
    (w : W) : result FilesystemError OsPath :=
  let norm := np_normalized resource_path in
  if np_absolute resource_path then
    Err (FE_WorkspaceEscape ("absolute path forbidden: " +:+ norm))
  else
    let full := path_join workspace_root norm in
    let? root_canon := map_err FE_Io (os_canonicalize w workspace_root) in
    let full_canon := match os_canonicalize w full with Ok c => c | Err _ => full end in
    if negb (path_starts_with root_canon full_canon)
       && negb (is_lexically_under workspace_root full) then
      Err (FE_WorkspaceEscape (path_display full))
    else Ok full.

(** The steps shared by [resolve_existing_for_read] and
    [resolve_existing_directory]; [ok_type] is the final type test. *)
Definition resolve_existing (ok_type : W -> OsPath -> bool) (workspace_root : OsPath)
    (resource_path : NormalizedPath) (w : W) : result FilesystemError OsPath :=
  let? full := resolve_within_workspace workspace_root resource_path w in
  if negb (os_exists w full) then Err (FE_NotFound (path_display full))
  else
    let? canon := map_err FE_Io (os_canonicalize w full) in
    if negb (path_starts_with workspace_root canon) then Err FE_SymlinkEscape
    else if negb (ok_type w canon) then Err FE_UnsupportedFileType
    else Ok canon.

(** [resolve_existing_for_read] and [resolve_existing_directory]. *)
Definition resolve_existing_for_read := resolve_existing os_is_file.
Definition resolve_existing_directory := resolve_existing os_is_dir.

(** [verify_parent_in_workspace]. *)
Definition verify_parent_in_workspace (workspace_root path : OsPath) (w : W)
  : result FilesystemError unit :=
  let? parent := ok_or (FE_WorkspaceEscape "no parent directory") (path_parent path) in
  let? parent_canon := map_err FE_Io (os_canonicalize w parent) in
  if negb (path_starts_with workspace_root parent_canon) then Err FE_SymlinkEscape else Ok tt.

(** [resolve_existing_for_write]. *)
Definition resolve_existing_for_write (workspace_root : OsPath) (resource_path : NormalizedPath)
    (w : W) : result FilesystemError OsPath :=
  let? full := resolve_within_workspace workspace_root resource_path w in
  if os_exists w full then
    let? canon := map_err FE_Io (os_canonicalize w full) in
    if negb (path_starts_with workspace_root canon) then Err FE_SymlinkEscape
    else if negb (os_is_file w canon) then Err FE_UnsupportedFileType
    else Ok canon
  else
    let? _ := verify_parent_in_workspace workspace_root full w in Ok full.

(** [resolve_to_create]. *)
Definition resolve_to_create (workspace_root : OsPath) (resource_path : NormalizedPath) (w : W)
  : result FilesystemError (OsPath * OsPath) :=
  let? full := resolve_within_workspace workspace_root resource_path w in
  let? parent := ok_or (FE_WorkspaceEscape "no parent directory") (path_parent full) in
  let? parent_canon :=
    map_err (fun e => match io_kind e with
                      | IoNotFound => FE_NotFound ("parent directory not found: "
                                                   +:+ path_display parent)
                      | _ => FE_Io e
                      end) (os_canonicalize w parent) in
  if negb (path_starts_with workspace_root parent_canon) then Err FE_SymlinkEscape
  else
    let? filename := ok_or (FE_WorkspaceEscape "no filename") (path_file_name full) in
    Ok (parent_canon ++ [filename], parent_canon).

(** A resolution, run on the current file system. *)
Definition fs_resolve {A} (q : W -> result FilesystemError A) : fs A :=
  fun s => (q (fs_world s), s).

(** ** File operations *)

(** [do_file_read]. *)
Definition do_file_read (e : FilesystemEnforcer) (path : NormalizedPath) (max_bytes : option Z)
  : fs FilesystemOutcome :=
  let! resolved := fs_resolve (resolve_existing_for_read (fe_workspace_root e) path) in
  let hard_limit := default (fe_max_read_bytes e) max_bytes in
  if (hard_limit =? 0) || (fe_max_read_bytes e <? hard_limit) then
    st_lift (Err (FE_ReadLimitExceeded (fe_max_read_bytes e)))
  else
    let! size := fs_resolve (fun w => map_err (fun err => match io_kind err with
                                | IoNotFound => FE_NotFound (path_display resolved)
                                | _ => FE_Io err
                                end) (os_len w resolved)) in
    if hard_limit <? size then st_lift (Err (FE_ReadLimitExceeded hard_limit))
    else
      let! _ := fs_record (Fs_Read resolved) in
      let! bytes := fs_resolve (fun w => map_err FE_Io (os_read w resolved)) in
      if hard_limit <? len bytes then st_lift (Err (FE_ReadLimitExceeded hard_limit))
      else st_ret (FO_FileRead bytes (len bytes)).

(** [do_file_write]; [suffix] is the result of [unique_suffix]. *)
Definition do_file_write (e : FilesystemEnforcer) (suffix : string) (path : NormalizedPath)
    (data : string) : fs FilesystemOutcome :=
  let! full := fs_resolve (resolve_within_workspace (fe_workspace_root e) path) in
  let! link := fs_query (fun w => os_exists w full && os_is_symlink w full) in
  if link then st_lift (Err FE_UnsupportedFileType)
  else
    let! resolved := fs_resolve (resolve_existing_for_write (fe_workspace_root e) path) in
    let! present := fs_query (fun w => os_exists w resolved) in
    if negb present then st_lift (Err (FE_NotFound (path_display resolved)))
    else
      let! regular := fs_query (fun w => os_is_file w resolved) in
      if negb regular then st_lift (Err FE_UnsupportedFileType)
      else if fe_max_write_bytes e <? len data then
        st_lift (Err (FE_WriteLimitExceeded (fe_max_write_bytes e)))
      else
        let! parent := st_lift (ok_or (FE_WorkspaceEscape "no parent directory")
                                  (path_parent resolved)) in
        let temp_path := parent ++ [".kavach_tmp_write_" +:+ suffix] in
        let! created := fs_do (Fs_Create temp_path) (os_create_new temp_path) in
        let! _ := st_lift (map_err FE_Io created) in
        let! written := fs_do (Fs_Write temp_path) (os_write_flush temp_path data) in
        let! _ := st_lift (map_err FE_Io written) in
        let! renamed := fs_do (Fs_Rename temp_path resolved) (os_rename temp_path resolved) in
        match renamed with
        | Err err =>
            let! _ := fs_do (Fs_Remove temp_path) (os_remove_file temp_path) in
            st_lift (Err (FE_AtomicReplaceFailed (io_text err)))
        | Ok _ => st_ret (FO_FileWrite (len data))
        end.

(** The error of a creation. *)
Definition create_error (resolved : OsPath) (err : IoError) : FilesystemError :=
  match io_kind err with
  | IoAlreadyExists => FE_AlreadyExists (path_display resolved)
  | _ => FE_Io err
  end.

(** [do_file_create]. *)
Definition do_file_create (e : FilesystemEnforcer) (path : NormalizedPath) : fs FilesystemOutcome :=
  let! target := fs_resolve (resolve_to_create (fe_workspace_root e) path) in
  let resolved := target.1 in
  let! present := fs_query (fun w => os_exists w resolved) in
  if present then st_lift (Err (FE_AlreadyExists (path_display resolved)))
  else
    let! parent := st_lift (ok_or (FE_WorkspaceEscape "no parent directory")
                              (path_parent resolved)) in
    let! parent_dir := fs_query (fun w => os_is_dir w parent) in
    if negb parent_dir then
      st_lift (Err (FE_NotFound ("parent not a directory: " +:+ path_display parent)))
    else
      let! created := fs_do (Fs_Create resolved) (os_create_new resolved) in
      let! _ := st_lift (map_err (create_error resolved) created) in
      st_ret FO_FileCreate.

(** [do_file_delete]. *)
Definition do_file_delete (e : FilesystemEnforcer) (path : NormalizedPath) : fs FilesystemOutcome :=
  let! resolved := fs_resolve (resolve_existing_for_read (fe_workspace_root e) path) in
  let! dir := fs_query (fun w => os_is_dir w resolved) in
  if dir then st_lift (Err FE_UnsupportedFileType)
  else
    let! removed := fs_do (Fs_Remove resolved) (os_remove_file resolved) in
    let! _ := st_lift (map_err (fun err => match io_kind err with
                                           | IoNotFound => FE_NotFound (path_display resolved)
                                           | _ => FE_Io err
                                           end) removed) in
    st_ret FO_FileDelete.

(** [do_file_move]. *)
Definition do_file_move (e : FilesystemEnforcer) (source_path destination : NormalizedPath)
  : fs FilesystemOutcome :=
  let! source := fs_resolve (resolve_existing_for_read (fe_workspace_root e) source_path) in
  let! dir := fs_query (fun w => os_is_dir w source) in
  if dir then st_lift (Err FE_UnsupportedFileType)
  else
    let! dest_resolved := fs_resolve (resolve_within_workspace (fe_workspace_root e) destination) in
    let! present := fs_query (fun w => os_exists w dest_resolved) in
    if present then st_lift (Err (FE_DestinationExists (path_display dest_resolved)))
    else
      let! dest_parent := st_lift (ok_or (FE_WorkspaceEscape "no parent directory")
                                     (path_parent dest_resolved)) in
      let! dest_parent_canon := fs_resolve (fun w => map_err FE_Io (os_canonicalize w dest_parent)) in
      if negb (path_starts_with (fe_workspace_root e) dest_parent_canon) then
        st_lift (Err (FE_WorkspaceEscape (path_display dest_parent_canon)))
      else
        let! renamed := fs_do (Fs_Rename source dest_resolved) (os_rename source dest_resolved) in
        let! _ := st_lift (map_err FE_Io renamed) in
        st_ret FO_FileMove.

(** ** Directory operations *)

(** The loop of [do_directory_list]. *)
Fixpoint collect_entries (max_entries : Z) (entries : list string)
    (items : list (result IoError string)) : result FilesystemError (list string) :=
  match items with
  | [] => Ok entries
  | Err err :: _ => Err (FE_Io err)
  | Ok name :: rest =>
      let entries' := entries ++ [name] in
      if max_entries <? Z.of_nat (length entries') then
        Err (FE_DirectoryEntryLimitExceeded max_entries)
      else collect_entries max_entries entries' rest
  end.

(** [do_directory_list]. *)
Definition do_directory_list (e : FilesystemEnforcer) (path : NormalizedPath)
  : fs FilesystemOutcome :=
  let! resolved := fs_resolve (resolve_existing_directory (fe_workspace_root e) path) in
  let! _ := fs_record (Fs_List resolved) in
  let! items := fs_resolve (fun w => map_err FE_Io (os_read_dir w resolved)) in
  let! entries := st_lift (collect_entries (fe_max_dir_entries e) [] items) in
  st_ret (FO_DirectoryList (vec_sort entries)).

(** [do_directory_create]. *)
Definition do_directory_create (e : FilesystemEnforcer) (path : NormalizedPath)
  : fs FilesystemOutcome :=
  let! target := fs_resolve (resolve_to_create (fe_workspace_root e) path) in
  let resolved := target.1 in
  let! present := fs_query (fun w => os_exists w resolved) in
  if present then st_lift (Err (FE_AlreadyExists (path_display resolved)))
  else
    let! created := fs_do (Fs_CreateDir resolved) (os_create_dir resolved) in
    let! _ := st_lift (map_err (create_error resolved) created) in
    st_ret FO_DirectoryCreate.

(** [do_directory_delete]. *)
Definition do_directory_delete (e : FilesystemEnforcer) (path : NormalizedPath)
  : fs FilesystemOutcome :=
  let! resolved := fs_resolve (resolve_existing_directory (fe_workspace_root e) path) in
  let! _ := fs_record (Fs_List resolved) in
  let! items := fs_resolve (fun w => map_err FE_Io (os_read_dir w resolved)) in
  match items with
  | _ :: _ => st_lift (Err FE_DirectoryNotEmpty)
  | [] =>
      let! removed := fs_do (Fs_RemoveDir resolved) (os_remove_dir resolved) in
      let! _ := st_lift (map_err FE_Io removed) in
      st_ret FO_DirectoryDelete
  end.

(** ** Execution *)

(** Step 4 of [execute]. *)
Definition fs_dispatch (e : FilesystemEnforcer) (suffix : string) (request : ToolRequest)
    (input : FilesystemInput) : fs FilesystemOutcome :=
  match tr_operation request, tr_resource request with
  | FileRead max_bytes, R_File path => do_file_read e path max_bytes
  | FileWrite, R_File path =>
      match input with
      | FI_WriteBytes data => do_file_write e suffix path data
      | FI_None => st_lift (Err FE_MissingWritePayload)
      end
  | FileCreate, R_File path => do_file_create e path
  | FileDelete, R_File path => do_file_delete e path
  | FileMove destination, R_File path =>
      match destination with
      | None => st_lift (Err (FE_InvalidRequest "FileMove requires a destination path"))
      | Some dest => do_file_move e path dest
      end
  | DirectoryList, R_Directory path => do_directory_list e path
  | DirectoryCreate, R_Directory path => do_directory_create e path
  | DirectoryDelete, R_Directory path => do_directory_delete e path
  | _, _ => st_lift (Err FE_WrongResourceType)
  end.

(** Step 3: the payload must fit the operation. *)
Definition payload_error (request : ToolRequest) (input : FilesystemInput) : option FilesystemError :=
  let is_write := match tr_operation request with FileWrite => true | _ => false end in
  match input, is_write with
  | FI_WriteBytes _, true => None
  | FI_None, true => Some FE_MissingWritePayload
  | FI_WriteBytes _, false => Some FE_UnexpectedPayload
  | FI_None, false => None
  end.

(** [FilesystemEnforcer::execute]: the result, the permit afterwards and the
    state of the file system. *)
Definition fs_execute `{Sha256, RequestJson} (e : FilesystemEnforcer) (suffix : string) (now : Z)
    (request : ToolRequest) (input : FilesystemInput) (permit : ExecutionPermit) (s : FsState W)
  : result FilesystemError FilesystemOutcome * ExecutionPermit * FsState W :=
  match ToolRequest_validate request with
  | Err err => (Err (FE_InvalidRequest (DomainValidationError_display err)), permit, s)
  | Ok _ =>
      match verify_and_consume_permit now request permit with
      | (Err err, permit') => (Err err, permit', s)
      | (Ok _, permit') =>
          match payload_error request input with
          | Some err => (Err err, permit', s)
          | None =>
              let '(r, s') := fs_dispatch e suffix request input s in
              (r, permit', s')
          end
      end
  end.

End Filesystem.
