(* ===== verification/EnforceFsProps.v ===== *)
(** * Properties of the filesystem adapter

    The adapter keeps its promise to the runtime ([AdapterLaws]), stays inside
    the workspace and respects its limits. *)

From stdpp Require Import base tactics list strings sorting.
From Stdlib Require Import ZArith Lia Ascii.
From S2P Require Import Prelude RustStr BTree CoreError CoreIds CorePath CoreResource.
From S2P Require Import CoreRequest CorePermit EnforceFs.

Open Scope Z_scope.

(** ** Paths *)

Lemma path_starts_with_spec base p :
  path_starts_with base p = true <-> exists t, p = base ++ t.
Proof.
  revert p. induction base as [|b base IH]; intros p; simpl; [by split; eauto|].
  destruct p as [|c p]; [by split; [|intros [t ?]]|].
  rewrite andb_true_iff, String.eqb_eq, IH. split.
  - intros [-> [t ->]]. by exists t.
  - intros [t [= -> ->]]. split; [done|by exists t].
Qed.

Lemma path_join_under root s : path_starts_with root (path_join root s) = true.
Proof. apply path_starts_with_spec. by eexists. Qed.

(** The lexical test of [resolve_within_workspace] accepts every joined path. *)
Lemma join_lexically_under root s : is_lexically_under root (path_join root s) = true.
Proof.
  unfold is_lexically_under, path_join. apply andb_true_iff. split.
  - apply Z.leb_le. rewrite length_app. lia.
  - generalize (path_components s) as t. induction root as [|r root IH]; intros t; simpl; [done|].
    by rewrite String.eqb_refl, IH.
Qed.

Lemma removelast_under root p x :
  path_starts_with root p = true -> p <> root -> path_starts_with root (removelast p ++ [x]) = true.
Proof.
  rewrite !path_starts_with_spec. intros [t ->] Hne.
  destruct t as [|c t]; [by rewrite app_nil_r in Hne|].
  rewrite removelast_app by done. exists (removelast (c :: t) ++ [x]). by rewrite app_assoc.
Qed.

(** ** The permit gate *)

(** The permit checks of the three adapters, which differ only in their errors. *)
Ltac permit_gate :=
  unfold permit_admits, ExecutionPermit_is_valid;
  match goal with |- context [ExecutionPermit_is_expired ?now ?p] =>
    destruct (ExecutionPermit_is_expired now p); [intros [= <- <-]; eauto|];
    destruct (ExecutionPermit_is_consumed p) eqn:Ec; [intros [= <- <-]; eauto|];
    destruct (ExecutionPermit_verify_request_digest p _) eqn:Ed; cbn [negb];
      [|intros [= <- <-]; eauto];
    unfold ExecutionPermit_is_consumed in Ec; apply String.eqb_eq in Ed;
    unfold ExecutionPermit_consume; rewrite Ec; cbn [negb]; intros [= <- <-]; by right
  end.

Section Gate.
Context {SH : Sha256} {RJ : RequestJson}.

Lemma verify_and_consume_spec now request p r p' :
  verify_and_consume_permit now request p = (r, p') ->
  (p' = p /\ exists e, r = Err e) \/
  (r = Ok tt /\ permit_admits now request p /\ p' = snd (ExecutionPermit_consume p)).
Proof.
  unfold verify_and_consume_permit. permit_gate.
Qed.

Context {W : Type} {OS : FsOs W}.

Lemma fs_execute_gate e suffix now request input p s r p' s' :
  fs_execute e suffix now request input p s = (r, p', s') ->
  (p' = p /\ s' = s /\ exists err, r = Err err) \/
  (permit_admits now request p /\ p' = snd (ExecutionPermit_consume p)).
Proof.
  unfold fs_execute. destruct (ToolRequest_validate request); [|intros [= <- <- <-]; eauto].
  destruct (verify_and_consume_permit now request p) as [v q] eqn:Ev.
  apply verify_and_consume_spec in Ev as [(-> & err & ->)|(-> & Ha & ->)].
  { intros [= <- <- <-]. eauto. }
  destruct (payload_error request input); [intros [= <- <- <-]; by right|].
  destruct (fs_dispatch e suffix request input s). intros [= <- <- <-]. by right.
Qed.

(** The enforcer as an adapter; [suffix] is the name of its temporary file. *)
Definition fs_adapter (e : FilesystemEnforcer) (suffix : string)
  : Adapter (FsState W) FilesystemInput FilesystemOutcome :=
  {| adapter_execute now request input p s :=
       let '(r, p', s') := fs_execute e suffix now request input p s in
       (map_err FilesystemError_display r, p', s') |}.

#[export] Instance fs_adapter_laws e suffix :
  @AdapterLaws _ _ _ _ _ (fs_adapter e suffix).
Proof.
  constructor. intros now request input p s r p' s'. simpl.
  destruct (fs_execute e suffix now request input p s) as [[v q] u] eqn:E. intros [= <- <- <-].
  apply fs_execute_gate in E as [(-> & -> & err & ->)|Hok]; [|by right].
  left. simpl. eauto.
Qed.

End Gate.

(** ** Confinement *)

Section Confined.
Context {W : Type} {OS : FsOs W}.

(** The paths a call touches. *)
Definition call_paths (c : FsCall) : list OsPath :=
  match c with
  | Fs_Read p | Fs_List p | Fs_Create p | Fs_Write p | Fs_Remove p | Fs_CreateDir p
  | Fs_RemoveDir p => [p]
  | Fs_Rename a b => [a; b]
  end.

(** [p] is in the workspace, and symbolic links do not lead it out: it is
    canonical, or sits next to a canonical path of the workspace, or in a directory
    that resolves into the workspace. *)
Definition anchored (w : W) (root p : OsPath) : Prop :=
  path_starts_with root p = true /\
  ((exists q, os_canonicalize w q = Ok p) \/
   (exists q c, os_canonicalize w q = Ok c /\ path_starts_with root c = true /\
      removelast p = removelast c) \/
   (exists q d, os_canonicalize w q = Ok d /\ path_starts_with root d = true /\
      (removelast p = d \/ removelast p = q))).

(** From [s] to [s'] only anchored paths were touched. *)
Definition stays_inside (root : OsPath) (s s' : FsState W) : Prop :=
  exists calls, fs_log s' = fs_log s ++ calls /\
    Forall (fun c => Forall (anchored (fs_world s) root) (call_paths c)) calls.

Lemma inside_refl root s : stays_inside root s s.
Proof. exists []. by rewrite app_nil_r. Qed.

(** ** Inversion *)

Lemma resolve_within_ok root path w full :
  resolve_within_workspace root path w = Ok full ->
  np_absolute path = false /\ full = path_join root (np_normalized path).
Proof.
  unfold resolve_within_workspace. destruct (np_absolute path); [done|].
  destruct (os_canonicalize w root); [|done]. cbn [map_err].
  rewrite join_lexically_under, andb_false_r. by intros [= <-].
Qed.

Lemma resolve_existing_ok ok_type root path w p :
  resolve_existing ok_type root path w = Ok p ->
  exists q, os_canonicalize w q = Ok p /\ path_starts_with root p = true /\ ok_type w p = true.
Proof.
  unfold resolve_existing.
  destruct (resolve_within_workspace root path w) as [full|]; [|done].
  destruct (os_exists w full); [|done]. cbn [negb].
  destruct (os_canonicalize w full) as [canon|] eqn:Ec; [|done]. cbn [map_err].
  destruct (path_starts_with root canon) eqn:Es; [|done].
  destruct (ok_type w canon) eqn:Et; [|done]. cbn [negb]. intros [= <-]. eauto.
Qed.

Lemma resolve_to_create_ok root path w p d :
  resolve_to_create root path w = Ok (p, d) ->
  exists q name, os_canonicalize w q = Ok d /\ path_starts_with root d = true /\ p = d ++ [name].
Proof.
  unfold resolve_to_create.
  destruct (resolve_within_workspace root path w) as [full|]; [|done].
  destruct (path_parent full) as [parent|]; [|done]. cbn [ok_or].
  destruct (os_canonicalize w parent) as [c|] eqn:Ec; [|done]. cbn [map_err].
  destruct (path_starts_with root c) eqn:Es; [|done]. cbn [negb].
  destruct (path_file_name full) as [name|]; [|done]. cbn [ok_or].
  intros [= <- <-]. by exists parent, name.
Qed.

Lemma resolve_for_write_ok root path w p :
  resolve_existing_for_write root path w = Ok p ->
  (exists q, os_canonicalize w q = Ok p /\ path_starts_with root p = true /\ os_is_file w p = true) \/
  os_exists w p = false.
Proof.
  unfold resolve_existing_for_write.
  destruct (resolve_within_workspace root path w) as [full|]; [|done].
  destruct (os_exists w full) eqn:Ee.
  - destruct (os_canonicalize w full) as [canon|] eqn:Ec; [|done]. cbn [map_err].
    destruct (path_starts_with root canon) eqn:Es; [|done]. cbn [negb].
    destruct (os_is_file w canon) eqn:Et; [|done]. cbn [negb]. intros [= <-]. eauto.
  - destruct (verify_parent_in_workspace root full w); [|done]. intros [= <-]. by right.
Qed.

Lemma st_lift_run {S E A} (x : result E A) (s : S) r s' : st_lift x s = (r, s') -> r = x /\ s' = s.
Proof. by intros [= <- <-]. Qed.

Lemma fs_record_inv c (s : FsState W) r s' :
  fs_record c s = (r, s') ->
  r = Ok tt /\ s' = {| fs_world := fs_world s; fs_log := fs_log s ++ [c] |}.
Proof. by intros [= <- <-]. Qed.

Lemma fs_resolve_inv {A} (q : W -> result FilesystemError A) s r s' :
  fs_resolve q s = (r, s') -> r = q (fs_world s) /\ s' = s.
Proof. by intros [= <- <-]. Qed.

Lemma fs_query_inv {A} (q : W -> A) s r s' :
  fs_query q s = (r, s') -> r = Ok (q (fs_world s)) /\ s' = s.
Proof. by intros [= <- <-]. Qed.

Lemma fs_do_inv c (m : W -> result IoError unit * W) s r s' :
  fs_do c m s = (r, s') ->
  exists x w, r = Ok x /\ s' = {| fs_world := w; fs_log := fs_log s ++ [c] |}.
Proof. unfold fs_do. destruct (m (fs_world s)) as [x w]. intros [= <- <-]. eauto. Qed.

End Confined.

(** Follow an operation through its calls. *)
Ltac fs_step :=
  match goal with
  | H : st_bind _ _ _ = (_, _) |- _ =>
      let e := fresh "err" in let a := fresh "v" in let s := fresh "st" in
      let H1 := fresh "Hm" in let H2 := fresh "Hk" in
      let R := fresh "R" in
      apply st_bind_inv in H as [(e & H1 & R)|(a & s & H1 & H2)];
      [first [discriminate R | match type of R with ?x = _ => subst x end]|]; cbv beta zeta in *
  | H : fs_resolve _ _ = (_, _) |- _ =>
      let E := fresh "Er" in apply fs_resolve_inv in H as [E ->]; symmetry in E
  | H : fs_query _ _ = (_, _) |- _ =>
      let E := fresh "Eq" in apply fs_query_inv in H as [E ->]; symmetry in E
  | H : fs_record _ _ = (_, _) |- _ =>
      let E := fresh "Ec" in apply fs_record_inv in H as [E ->]
  | H : fs_do _ _ _ = (_, _) |- _ =>
      let x := fresh "x" in let w := fresh "w" in let E := fresh "Ed" in
      apply fs_do_inv in H as (x & w & E & ->)
  | H : st_lift _ _ = (_, _) |- _ =>
      let E := fresh "El" in apply st_lift_run in H as [E ->]; symmetry in E
  | H : st_ret _ _ = (_, _) |- _ => injection H as ? <-
  | H : Ok _ = Ok _ |- _ => injection H as H; subst
  | H : Ok _ = Err _ |- _ => discriminate H
  | H : Err _ = Ok _ |- _ => discriminate H
  | H : (if ?b then _ else _) _ = (_, _) |- _ => let E := fresh "Eb" in destruct b eqn:E
  | H : (match ?x with Ok _ => _ | Err _ => _ end) _ = (_, _) |- _ => destruct x
  | H : (match ?x with [] => _ | _ :: _ => _ end) _ = (_, _) |- _ => destruct x
  end.
Ltac fs_inv := repeat fs_step; simpl in *.

(** Every call of the log so far is on an anchored path. *)
Ltac inside :=
  unfold stays_inside; simpl; rewrite <- ?app_assoc; simpl;
  first [ exists []; rewrite app_nil_r; split; [reflexivity|by apply Forall_nil]
        | eexists; split; [reflexivity|];
          repeat first [apply Forall_cons; split | apply Forall_nil; exact I]; simpl; assumption ].

Section Operations.
Context {W : Type} {OS : FsOs W}.
Variable e : FilesystemEnforcer.
Abbreviation root := (fe_workspace_root e).

Lemma existing_anchored ok_type path (w : W) p :
  resolve_existing ok_type root path w = Ok p -> anchored w root p.
Proof. intros (q & Hq & Hu & _)%resolve_existing_ok. split; [done|left; eauto]. Qed.

(** A new entry of a resolved directory. *)
Lemma create_anchored path (w : W) p d :
  resolve_to_create root path w = Ok (p, d) -> anchored w root p.
Proof.
  intros (q & name & Hq & Hu & ->)%resolve_to_create_ok. split.
  - apply path_starts_with_spec in Hu as [t ->]. apply path_starts_with_spec.
    exists (t ++ [name]). by rewrite app_assoc.
  - right. right. exists q, d. rewrite removelast_last. auto.
Qed.

(** The temporary file next to a file of the workspace. *)
Lemma sibling_anchored `{!FsOsLaws W} (w : W) q p x :
  os_is_dir w root = true -> os_canonicalize w q = Ok p -> path_starts_with root p = true ->
  os_is_file w p = true -> anchored w root (removelast p ++ [x]).
Proof.
  intros Hd Hq Hu Hf. split.
  - apply removelast_under; [done|]. intros ->. apply os_file_not_dir in Hf. congruence.
  - right. left. exists q, p. by rewrite removelast_last.
Qed.

Lemma destination_anchored path (w : W) p q d :
  resolve_within_workspace root path w = Ok p -> path_parent p = Some q ->
  os_canonicalize w q = Ok d -> path_starts_with root d = true -> anchored w root p.
Proof.
  intros [_ ->]%resolve_within_ok Hp Hq Hu. split; [apply path_join_under|].
  right. right. exists q, d. split_and!; [done..|]. right.
  unfold path_parent in Hp. destruct (path_join root (np_normalized path)); [done|congruence].
Qed.

End Operations.

(** Turn resolutions into anchored paths. *)
Ltac anchor :=
  repeat match goal with
  | H : resolve_existing_for_read _ _ _ = Ok _ |- _ => apply existing_anchored in H
  | H : resolve_existing_directory _ _ _ = Ok _ |- _ => apply existing_anchored in H
  | H : resolve_to_create _ _ _ = Ok ?v |- _ => destruct v as [? ?]; apply create_anchored in H
  end.

Section Confinement.
Context {W : Type} {OS : FsOs W} {OSL : FsOsLaws W}.
Variable e : FilesystemEnforcer.
Abbreviation root := (fe_workspace_root e).

Lemma move_inside source dest (s : FsState W) r s' :
  do_file_move e source dest s = (r, s') -> stays_inside root s s'.
Proof.
  unfold do_file_move. intros Hr. fs_inv; anchor; try inside;
    (match goal with
     | Hd : resolve_within_workspace _ _ _ = Ok ?p, Hc : map_err _ (os_canonicalize _ _) = Ok _ |- _ =>
         apply map_err_ok in Hc; assert (anchored (fs_world s) root p)
           by (eapply destination_anchored; [exact Hd| |exact Hc|by apply negb_false_iff];
               destruct (path_parent p); simpl in *; congruence)
     end; inside).
Qed.

Lemma write_anchored path (w : W) p d (err : FilesystemError) x :
  os_is_dir w root = true -> resolve_existing_for_write root path w = Ok p ->
  negb (os_exists w p) = false -> ok_or err (path_parent p) = Ok d ->
  anchored w root p /\ anchored w root (d ++ [x]).
Proof.
  intros Hdir [(q & Hq & Hu & Hf)|Hn]%resolve_for_write_ok He Hp; [|by rewrite Hn in He].
  assert (d = removelast p) as -> by (destruct p; [done|]; by injection Hp).
  split; [split; [done|left; eauto]|by eapply sibling_anchored].
Qed.

Lemma write_inside suffix path data (s : FsState W) r s' :
  os_is_dir (fs_world s) root = true ->
  do_file_write e suffix path data s = (r, s') -> stays_inside root s s'.
Proof.
  intros Hdir. unfold do_file_write. intros Hr. fs_inv; try inside;
    (match goal with
     | Hw : resolve_existing_for_write _ _ _ = Ok ?p, Hx : negb (os_exists _ ?p) = false,
       Hp : ok_or _ (path_parent ?p) = Ok ?d |- _ =>
         destruct (write_anchored path (fs_world s) p d _ (".kavach_tmp_write_" +:+ suffix)
                     Hdir Hw Hx Hp)
     end; inside).
Qed.

Lemma dispatch_inside suffix request input (s : FsState W) r s' :
  os_is_dir (fs_world s) root = true ->
  fs_dispatch e suffix request input s = (r, s') -> stays_inside root s s'.
Proof.
  intros Hdir. unfold fs_dispatch.
  destruct (tr_operation request) as [max_bytes| | | |[dest|]| | | | | | |];
    destruct (tr_resource request) as [path|path| | | | |]; intros Hr;
    try (fs_inv; inside).
  - unfold do_file_read in Hr. fs_inv; anchor; inside.
  - destruct input; [fs_inv; inside|by eapply write_inside].
  - unfold do_file_create in Hr. fs_inv; anchor; inside.
  - unfold do_file_delete in Hr. fs_inv; anchor; inside.
  - by eapply move_inside.
  - unfold do_directory_list in Hr. fs_inv; anchor; inside.
  - unfold do_directory_create in Hr. fs_inv; anchor; inside.
  - unfold do_directory_delete in Hr. fs_inv; anchor; inside.
Qed.

End Confinement.

(** ** Properties *)

Section FilesystemProperties.
Context {SH : Sha256} {RJ : RequestJson} {W : Type} {OS : FsOs W} {OSL : FsOsLaws W}.
Variable e : FilesystemEnforcer.

Lemma fs_execute_inside suffix now request input p s r p' s' :
  os_is_dir (fs_world s) (fe_workspace_root e) = true ->
  fs_execute e suffix now request input p s = (r, p', s') ->
  stays_inside (fe_workspace_root e) s s'.
Proof.
  intros Hdir. unfold fs_execute.
  destruct (ToolRequest_validate request); [|intros [= <- <- <-]; apply inside_refl].
  destruct (verify_and_consume_permit now request p) as [[[]|] q];
    [|intros [= <- <- <-]; apply inside_refl].
  destruct (payload_error request input); [intros [= <- <- <-]; apply inside_refl|].
  destruct (fs_dispatch e suffix request input s) as [v u] eqn:E. intros [= <- <- <-].
  by eapply dispatch_inside.
Qed.

(** (C24) The adapter never leaves the workspace: whatever the request, its input
    and the state of the file system, every path it reads, lists, creates, writes,
    renames or removes lies under the workspace root, and is canonical, next to a
    canonical path of the workspace, or in a directory that resolves into it, so
    that no symbolic link leads it out. *)
Theorem fs_confined suffix now request input p s r p' s' :
  os_is_dir (fs_world s) (fe_workspace_root e) = true ->
  fs_execute e suffix now request input p s = (r, p', s') ->
  stays_inside (fe_workspace_root e) s s'.
Proof. apply fs_execute_inside. Qed.

(** An execution that touches anything or succeeds has consumed a permit
    that was unexpired, unused and bound to the request; otherwise permit and file
    system are as before. *)
Theorem fs_permit_gate suffix now request input p s r p' s' :
  fs_execute e suffix now request input p s = (r, p', s') ->
  (p' = p /\ s' = s /\ exists err, r = Err err) \/
  (ep_consumed p = false /\ now < ep_expires_at p /\
   ep_request_digest p = compute_request_digest request /\ ep_consumed p' = true).
Proof.
  intros [Hno|([Hv Hd] & ->)]%fs_execute_gate; [by left|right].
  apply ExecutionPermit_is_valid_spec in Hv as [Hx Hc]. by rewrite consume_consumed.
Qed.

Lemma collect_entries_bound max acc items entries :
  collect_entries max acc items = Ok entries -> Z.of_nat (length acc) <= max ->
  Z.of_nat (length entries) <= max.
Proof.
  revert acc. induction items as [|[name|err] items IH]; intros acc; simpl;
    [by intros [= <-]| |done].
  destruct (max <? _) eqn:Em; [done|]. bool_prop. intros Hc _. by eapply IH.
Qed.

(** A successful read returns all its bytes with their number, at most the
    requested and at most the configured limit; a successful listing is sorted and
    at most as long as configured; a successful write is within the write limit. *)
Theorem fs_limits_respected suffix now request input p s out p' s' :
  0 <= fe_max_dir_entries e ->
  fs_execute e suffix now request input p s = (Ok out, p', s') ->
  match out with
  | FO_FileRead bytes n => n = len bytes /\ n <= fe_max_read_bytes e /\
      forall limit, tr_operation request = FileRead (Some limit) -> n <= limit
  | FO_FileWrite n => n <= fe_max_write_bytes e /\ exists data, input = FI_WriteBytes data /\ n = len data
  | FO_DirectoryList entries => StronglySorted key_le entries /\
      Z.of_nat (length entries) <= fe_max_dir_entries e
  | _ => True
  end.
Proof.
  intros Hmax. unfold fs_execute.
  destruct (ToolRequest_validate request); [|done].
  destruct (verify_and_consume_permit now request p) as [[[]|] q]; [|done].
  destruct (payload_error request input); [done|].
  destruct (fs_dispatch e suffix request input s) as [v u] eqn:E. intros [= -> <- <-].
  unfold fs_dispatch in E.
  destruct (tr_operation request) as [max_bytes| | | |[dest|]| | | | | | |];
    destruct (tr_resource request) as [path|path| | | | |]; try done;
    [|destruct input; [done|]|..];
    unfold do_file_read, do_file_write, do_file_create, do_file_delete, do_file_move,
      do_directory_list, do_directory_create, do_directory_delete in E; fs_inv;
    try subst out; try done; bool_prop.
  - split_and!; [done|lia|]. intros limit [= ->]. simpl in *. lia.
  - split; [lia|]. eauto.
  - split; [apply vec_sort_le|]. rewrite (Permutation_length (vec_sort_perm _)).
    eapply collect_entries_bound; [eassumption|done].
Qed.

End FilesystemProperties.
