(* ===== verification/EnforceCmd.v ===== *)
(** * The command adapter

    crates/kavach-enforcement/src/command.rs.  Spawning and reaping a process is
    the operating system's part: [ProcOs] gives what one run delivers, and every
    spawned configuration is recorded in a ghost log.  Unicode case mapping
    beyond ASCII, the parent environment and the file system are parameters. *)

From stdpp Require Import base tactics list strings.
From Stdlib Require Import ZArith Lia Ascii.
From S2P Require Import Prelude RustStr BTree CoreError CoreIds CorePath CoreResource.
From S2P Require Import CoreRequest CoreShell CorePermit EnforceFs.

Open Scope Z_scope.

(** ** Types *)

Definition DEFAULT_COMMAND_TIMEOUT_SECONDS : Z := 60.
Definition MAX_COMMAND_TIMEOUT_SECONDS : Z := 3600.
Definition DEFAULT_STDOUT_LIMIT_BYTES : Z := 1048576.
Definition DEFAULT_STDERR_LIMIT_BYTES : Z := 262144.
Definition MAX_ARGUMENT_COUNT : Z := 256.
Definition MAX_ARGUMENT_LENGTH : Z := 4096.
Definition MAX_ENVIRONMENT_ENTRIES : Z := 64.
Definition MAX_ENVIRONMENT_VALUE_LENGTH : Z := 4096.

(** [CommandInput]. *)
Record CommandInput := {
  ci_working_directory : option string;
  ci_env_vars : list (string * string);
  ci_dry_run : bool;
  ci_timeout_seconds : option Z;
}.

(** [CommandRisk] and [CommandRisk::as_str]. *)
Inductive CommandRisk := Risk_Low | Risk_Elevated | Risk_Destructive | Risk_Forbidden.

#[export] Instance CommandRisk_eq_dec : EqDecision CommandRisk.
Proof. solve_decision. Defined.

Definition CommandRisk_as_str (r : CommandRisk) : string :=
  match r with
  | Risk_Low => "low"
  | Risk_Elevated => "elevated"
  | Risk_Destructive => "destructive"
  | Risk_Forbidden => "forbidden"
  end.

(** [CommandOutcome]; the duration in nanoseconds. *)
Record CommandOutcome := {
  co_executable : string;
  co_exit_code : option Z;
  co_stdout : string;
  co_stderr : string;
  co_duration : Z;
  co_risk : CommandRisk;
  co_dry_run : bool;
}.

(** [CommandError]. *)
Inductive CommandError :=
| CE_InvalidRequest (detail : string)
| CE_InvalidPermit (detail : string)
| CE_PermitExpired
| CE_PermitConsumed
| CE_PermitScopeMismatch (detail : string)
| CE_UnsupportedOperation
| CE_WrongResourceType
| CE_InvalidExecutable (detail : string)
| CE_ShellExecutionRejected (detail : string)
| CE_ForbiddenCommand (detail : string)
| CE_DestructiveApprovalRequired
| CE_WorkspaceEscape (detail : string)
| CE_InvalidWorkingDirectory (detail : string)
| CE_InvalidEnvironment (detail : string)
| CE_SpawnFailed (detail : string)
| CE_Timeout (seconds : Z)
| CE_OutputLimitExceeded (detail : string)
| CE_ProcessFailed (detail : string)
| CE_Io (e : IoError).

(** The [#[error]] texts. *)
Definition CommandError_display (e : CommandError) : string :=
  match e with
  | CE_InvalidRequest d => "invalid request: " +:+ d
  | CE_InvalidPermit d => "invalid permit: " +:+ d
  | CE_PermitExpired => "permit expired"
  | CE_PermitConsumed => "permit already consumed"
  | CE_PermitScopeMismatch d => "permit scope mismatch: " +:+ d
  | CE_UnsupportedOperation => "unsupported operation"
  | CE_WrongResourceType => "wrong resource type"
  | CE_InvalidExecutable d => "invalid executable: " +:+ d
  | CE_ShellExecutionRejected d => "shell execution rejected: " +:+ d
  | CE_ForbiddenCommand d => "forbidden command: " +:+ d
  | CE_DestructiveApprovalRequired => "destructive command requires approval scope"
  | CE_WorkspaceEscape d => "workspace escape: " +:+ d
  | CE_InvalidWorkingDirectory d => "invalid working directory: " +:+ d
  | CE_InvalidEnvironment d => "invalid environment: " +:+ d
  | CE_SpawnFailed d => "process spawn failed: " +:+ d
  | CE_Timeout s => "command timed out after " +:+ dec s +:+ "s"
  | CE_OutputLimitExceeded d => "output limit exceeded: " +:+ d
  | CE_ProcessFailed d => "process failed: " +:+ d
  | CE_Io e => "i/o error: " +:+ io_text e
  end.

(** [CommandEnforcer]; the two unused fields of the allowlist are left out. *)
Record CommandEnforcer := {
  cme_workspace_root : OsPath;
  cme_timeout_seconds : Z;
  cme_stdout_limit : Z;
  cme_stderr_limit : Z;
}.

(** [CommandEnforcer::new]. *)
Definition CommandEnforcer_new `{FsOs W} (w : W) (workspace_root : OsPath)
  : result CommandError CommandEnforcer :=
  let? root := map_err CE_Io (os_canonicalize w workspace_root) in
  Ok {| cme_workspace_root := root; cme_timeout_seconds := DEFAULT_COMMAND_TIMEOUT_SECONDS;
        cme_stdout_limit := DEFAULT_STDOUT_LIMIT_BYTES;
        cme_stderr_limit := DEFAULT_STDERR_LIMIT_BYTES |}.

(** ** Permits *)

(** [verify_command_permit], at time [now]. *)
Definition verify_command_permit `{Sha256, RequestJson} (now : Z) (request : ToolRequest)
    (permit : ExecutionPermit) : result CommandError unit * ExecutionPermit :=
  if ExecutionPermit_is_expired now permit then (Err CE_PermitExpired, permit)
  else if ExecutionPermit_is_consumed permit then (Err CE_PermitConsumed, permit)
  else
    let digest := compute_request_digest request in
    if negb (ExecutionPermit_verify_request_digest permit digest) then
      (Err (CE_InvalidPermit "permit does not match request digest"), permit)
    else
      let '(consumed, permit') := ExecutionPermit_consume permit in
      if negb consumed then (Err CE_PermitConsumed, permit') else (Ok tt, permit').

(** ** Executables and arguments *)

Definition SHELL_EXECUTABLES : list string :=
  ["cmd"; "cmd.exe"; "powershell"; "powershell.exe"; "pwsh"; "pwsh.exe"; "sh"; "bash"; "zsh";
   "fish"; "dash"; "ksh"].

(** [name == s || format!("{s}.exe") == name]. *)
Definition names_exe (s name : string) : bool :=
  String.eqb name s || String.eqb (s +:+ ".exe") name.

Section Checks.
Context {UL : UnicodeLower} {UU : UnicodeUpper}.

(** [is_shell_executable]. *)
Definition is_shell_executable (exe : string) : bool :=
  let name := match path_file_name (path_components exe) with
              | Some n => to_lowercase n
              | None => to_lowercase exe
              end in
  existsb (fun s => names_exe s name) SHELL_EXECUTABLES.

(** [validate_executable]. *)
Definition validate_executable (exe : string) : result CommandError string :=
  if is_empty exe then Err (CE_InvalidExecutable "empty")
  else if any_byte bad_text_byte exe then
    Err (CE_InvalidExecutable "contains null or control characters")
  else if MAX_PATH_LEN <? len exe then Err (CE_InvalidExecutable "exceeds maximum length")
  else if contains "&&" exe || any_byte (fun b => Ascii.eqb b "|") exe
          || any_byte (fun b => Ascii.eqb b ";") exe || any_byte (fun b => Ascii.eqb b " ") exe then
    Err (CE_InvalidExecutable "contains shell operators or spaces in executable name")
  else if is_shell_executable exe then
    Err (CE_ShellExecutionRejected ("shell executable forbidden: " +:+ exe))
  else Ok exe.

(** The loop body of [validate_arguments]. *)
Definition validate_argument (i : Z) (arg : string) : result CommandError unit :=
  if MAX_ARGUMENT_LENGTH <? len arg then
    Err (CE_InvalidRequest ("argument " +:+ dec i +:+ " exceeds " +:+ dec MAX_ARGUMENT_LENGTH
                            +:+ " bytes"))
  else if is_empty arg then Err (CE_InvalidRequest ("argument " +:+ dec i +:+ " is empty"))
  else if any_byte (fun b => byte_val b =? 0) arg then
    Err (CE_ShellExecutionRejected ("argument " +:+ dec i +:+ " contains null byte"))
  else if any_byte (fun b => is_ascii_control b && negb (byte_val b =? 9) && negb (byte_val b =? 13))
            arg then
    Err (CE_ShellExecutionRejected ("argument " +:+ dec i +:+ " contains control character"))
  else
    let hazards := scan_dangerous_shell_constructs arg in
    match hazards with
    | _ :: _ =>
        Err (CE_ShellExecutionRejected
               ("argument " +:+ dec i +:+ " contains dangerous shell constructs: "
                +:+ join ", " (bset_of_list (map ShellHazard_as_str hazards))))
    | [] =>
        if contains "-encodedcommand" (to_lowercase arg) || contains "-enc" (to_lowercase arg)
           || contains "-e " (to_lowercase arg) then
          Err (CE_ShellExecutionRejected ("argument " +:+ dec i
                                          +:+ ": encoded PowerShell rejected"))
        else Ok tt
    end.

(** [validate_arguments]. *)
Definition validate_arguments (args : list string) : result CommandError unit :=
  if MAX_ARGUMENT_COUNT <? Z.of_nat (length args) then
    Err (CE_InvalidRequest ("too many arguments: " +:+ dec (Z.of_nat (length args)) +:+ " (max "
                            +:+ dec MAX_ARGUMENT_COUNT +:+ ")"))
  else for_each_i validate_argument 0 args.

(** ** Risk classification *)

Definition FORBIDDEN_EXECUTABLES : list string := ["format"; "mkfs"; "diskpart"; "fdisk"].

(** [DestructivePattern]. *)
Record DestructivePattern := {
  exe_matches : list string;
  flag_contains : list string;
}.

Definition DESTRUCTIVE_PATTERNS : list DestructivePattern :=
  [{| exe_matches := ["rm"; "rm.exe"];
      flag_contains := ["-r"; "-f"; "-rf"; "-fr"; "--recursive"; "--force"] |};
   {| exe_matches := ["rmdir"; "rmdir.exe"]; flag_contains := ["/s"; "/S"; "-r"; "--recursive"] |};
   {| exe_matches := ["del"; "del.exe"]; flag_contains := ["/f"; "/F"; "/s"; "/S"; "/q"; "/Q"] |};
   {| exe_matches := ["Remove-Item"];
      flag_contains := ["-Recurse"; "-Force"; "-recurse"; "-force"] |};
   {| exe_matches := ["dd"; "dd.exe"]; flag_contains := ["of=/dev/"; "if=/dev/"] |};
   {| exe_matches := ["shutdown"; "shutdown.exe"; "reboot"; "reboot.exe"]; flag_contains := [] |};
   {| exe_matches := ["chmod"; "chown"; "chmod.exe"];
      flag_contains := ["777"; "-R"; "-r"; "--recursive"] |};
   {| exe_matches := ["kill"; "pkill"; "taskkill"; "taskkill.exe"];
      flag_contains := ["-9"; "-KILL"; "/f"; "/F"] |};
   {| exe_matches := ["sudo"; "su"; "runas"; "runas.exe"]; flag_contains := [] |};
   {| exe_matches := ["git"; "git.exe"];
      flag_contains := ["reset"; "checkout"; "clean"; "branch"; "push"] |};
   {| exe_matches := ["curl"; "curl.exe"; "wget"; "wget.exe"];
      flag_contains := ["|"; "sh"; "bash"; "cmd"] |};
   {| exe_matches := ["powershell"; "powershell.exe"; "pwsh"; "pwsh.exe"];
      flag_contains := ["Invoke-Expression"; "iex"; "Invoke-WebRequest"; "iwr"; "DownloadString";
                        "DownloadFile"] |};
   {| exe_matches := ["netsh"; "netsh.exe"; "iptables"]; flag_contains := [] |};
   {| exe_matches := ["reg"; "reg.exe"; "regedit"; "regedit.exe"];
      flag_contains := ["add"; "delete"; "/d"; "/f"] |};
   {| exe_matches := ["sc"; "sc.exe"; "systemctl"];
      flag_contains := ["stop"; "disable"; "delete"] |}].

(** The loop of [is_destructive_git] from the argument at the head of [rest]. *)
Fixpoint git_loop (args rest : list string) : bool :=
  match rest with
  | [] => false
  | a :: rest' =>
      if String.eqb a "reset" then
        match rest' with
        | b :: _ => if String.eqb b "--hard" then true else git_loop args rest'
        | [] => git_loop args rest'
        end
      else if String.eqb a "clean" then
        if existsb (fun x => String.eqb x "-f" || String.eqb x "-fd" || String.eqb x "-df") args
        then true else git_loop args rest'
      else if String.eqb a "checkout" then
        match rest' with
        | b :: c :: _ =>
            if String.eqb b "--" && String.eqb c "." then true else git_loop args rest'
        | _ => git_loop args rest'
        end
      else if String.eqb a "push" then
        existsb (fun x => String.eqb x "--force" || String.eqb x "-f") args
      else if String.eqb a "branch" && existsb (fun x => String.eqb x "-D") args then true
      else git_loop args rest'
  end.

(** [is_destructive_git]. *)
Definition is_destructive_git (args : list string) : bool := git_loop args args.

(** The file name of the lower-cased executable. *)
Definition command_name (exe : string) : string :=
  let exe_lower := to_lowercase exe in
  match path_file_name (path_components exe_lower) with Some n => n | None => exe_lower end.

(** The loop over the flags of one pattern: does it return [Destructive]? *)
Definition flag_triggers (name : string) (args : list string) (flag : string) : bool :=
  existsb (fun a => contains flag (to_lowercase a)) args
  && (if String.eqb name "git" || String.eqb name "git.exe" then is_destructive_git args
      else true).

(** The body of the loop over the patterns. *)
Definition pattern_triggers (name : string) (args : list string) (pat : DestructivePattern) : bool :=
  existsb (fun m => names_exe m name) (exe_matches pat)
  && match flag_contains pat with
     | [] => true
     | flags => existsb (flag_triggers name args) flags
     end.

Definition ELEVATED_EXECUTABLES : list string :=
  ["npm"; "npm.exe"; "yarn"; "pip"; "pip3"; "docker"; "docker.exe"; "kubectl"; "kubectl.exe"].

(** [classify_risk]. *)
Definition classify_risk (exe : string) (args : list string) : CommandRisk :=
  let name := command_name exe in
  if existsb (fun f => names_exe f name) FORBIDDEN_EXECUTABLES then Risk_Forbidden
  else if existsb (pattern_triggers name args) DESTRUCTIVE_PATTERNS then Risk_Destructive
  else if existsb (String.eqb name) ELEVATED_EXECUTABLES then Risk_Elevated
  else Risk_Low.

(** [CommandEnforcer::classify]. *)
Definition CommandEnforcer_classify (executable : string) : CommandRisk :=
  classify_risk executable [].

(** ** Working directory and environment *)

(** [resolve_working_directory]. *)
Definition resolve_working_directory `{FsOs W} (workspace_root : OsPath)
    (working_dir : option string) (w : W) : result CommandError OsPath :=
  match working_dir with
  | None => Ok workspace_root
  | Some d =>
      if starts_with "/" d then
        Err (CE_WorkspaceEscape ("absolute working directory forbidden: " +:+ d))
      else
        let full := path_join workspace_root d in
        let? canon := map_err (fun e => CE_InvalidWorkingDirectory ("cannot resolve: " +:+ io_text e))
                              (os_canonicalize w full) in
        if negb (path_starts_with workspace_root canon) then
          Err (CE_WorkspaceEscape ("working directory outside workspace: " +:+ path_display canon))
        else if negb (os_is_dir w canon) then
          Err (CE_InvalidWorkingDirectory ("not a directory: " +:+ path_display canon))
        else Ok canon
  end.

Definition DEFAULT_ALLOWED_VARS : list string :=
  ["PATH"; "HOME"; "USERPROFILE"; "TEMP"; "TMP"; "TMPDIR"; "LANG"; "LC_ALL"; "USER"; "LOGNAME";
   "HOSTNAME"; "COMPUTERNAME"; "TERM"; "COLORTERM"; "SHELL"; "PWD"; "CARGO_HOME"; "RUSTUP_HOME";
   "RUST_LOG"; "SYSTEMROOT"; "SystemRoot"; "ProgramFiles"; "ProgramData";
   "PROCESSOR_ARCHITECTURE"; "NUMBER_OF_PROCESSORS"; "OS"; "PATHEXT"; "COMSPEC"; "WINDIR";
   "windir"].

Definition DANGEROUS_PREFIXES : list string :=
  ["AWS_"; "GITHUB_TOKEN"; "GH_TOKEN"; "API_KEY"; "APIKEY_"; "SECRET"; "PASSWORD"; "TOKEN"; "KEY_";
   "_KEY"; "CREDENTIAL"; "PRIVATE"; "SSH_"; "DOCKER_PASS"; "NPM_TOKEN"; "NUGET_KEY"; "AZURE_";
   "GCLOUD_"; "GOOGLE_"].

(** [is_dangerous_var]. *)
Definition is_dangerous_var (name : string) : bool :=
  let upper := to_uppercase name in
  existsb (fun p => starts_with p upper || contains p upper) DANGEROUS_PREFIXES.

(** [str::eq_ignore_ascii_case]. *)
Definition eq_ignore_ascii_case (a b : string) : bool :=
  String.eqb (to_ascii_lowercase a) (to_ascii_lowercase b).

(** The first loop of [build_environment], over the parent environment. *)
Fixpoint inherit_vars (seen : list string) (vars : list (string * string))
  : list (string * string) :=
  match vars with
  | [] => []
  | (key, val) :: rest =>
      if existsb (String.eqb key) seen then inherit_vars seen rest
      else if is_dangerous_var key then inherit_vars seen rest
      else if negb (existsb (eq_ignore_ascii_case key) DEFAULT_ALLOWED_VARS) then
        inherit_vars seen rest
      else if any_byte (fun b => byte_val b =? 0) key || any_byte (fun b => byte_val b =? 0) val then
        inherit_vars seen rest
      else (key, val) :: inherit_vars (key :: seen) rest
  end.

(** The body of the second loop. *)
Definition check_env_entry (kv : string * string) : result CommandError unit :=
  let '(key, val) := kv in
  if is_empty key then Err (CE_InvalidEnvironment "empty variable name")
  else if any_byte bad_text_byte key then
    Err (CE_InvalidEnvironment ("invalid variable name: " +:+ key))
  else if MAX_ENVIRONMENT_VALUE_LENGTH <? len val then
    Err (CE_InvalidEnvironment ("variable " +:+ key +:+ " exceeds max value length"))
  else if any_byte (fun b => byte_val b =? 0) val then
    Err (CE_InvalidEnvironment ("variable " +:+ key +:+ " contains null byte"))
  else Ok tt.

(** [build_environment]; [vars] is the parent environment. *)
Definition build_environment (vars extra : list (string * string))
  : result CommandError (list (string * string)) :=
  let inherited := inherit_vars [] vars in
  let? _ := for_each check_env_entry extra in
  let env := inherited ++ extra in
  if MAX_ENVIRONMENT_ENTRIES <? Z.of_nat (length env) then
    Err (CE_InvalidEnvironment ("too many env entries: " +:+ dec (Z.of_nat (length env)) +:+ " (max "
                                +:+ dec MAX_ENVIRONMENT_ENTRIES +:+ ")"))
  else Ok env.

End Checks.

(** ** Processes *)

(** [ProcessConfig]. *)
Record ProcessConfig := {
  pc_exe : string;
  pc_args : list string;
  pc_working_dir : OsPath;
  pc_env : list (string * string);
  pc_timeout_secs : Z;
  pc_stdout_limit : Z;
  pc_stderr_limit : Z;
  pc_risk : CommandRisk;
}.

(** What a call of [read] on a pipe returns; the list of a stream ends at the
    first empty read. *)
Inductive ReadEvent := Rd_Data (chunk : string) | Rd_Interrupted | Rd_Error (e : IoError).

(** [read_stream]: the loop with [buf] read so far. *)
Fixpoint read_stream (limit : Z) (buf : string) (events : list ReadEvent) : result IoError string :=
  match events with
  | [] => Ok buf
  | Rd_Data chunk :: rest =>
      if is_empty chunk then Ok buf
      else
        let remaining := Z.max 0 (limit - len buf) in
        if remaining =? 0 then Ok buf
        else
          let take := Z.min (len chunk) remaining in
          read_stream limit (buf +:+ fst (split_at (Z.to_nat take) chunk)) rest
  | Rd_Interrupted :: rest => read_stream limit buf rest
  | Rd_Error e :: _ => Err e
  end.

(** A run of a spawned process as the adapter observes it: the result of the
    [n]-th [try_wait] and the reading of [start.elapsed()] after it (nanoseconds),
    the result of the final [wait] of [kill_and_reap], the time spent before the
    wait began, the two output streams and the total duration.  An exit status is
    its optional code. *)
Record ProcessRun := {
  run_try_wait : nat -> result IoError (option (option Z));
  run_elapsed : nat -> Z;
  run_reap : result IoError unit;
  run_setup : Z;
  run_stdout : list ReadEvent;
  run_stderr : list ReadEvent;
  run_duration : Z;
}.

Definition NANOS_PER_SEC : Z := 1000000000.
Definition POLL_INTERVAL : Z := 10000000.

(** The loop of [wait_timeout] from its [n]-th poll; [None] is out of fuel. *)
Fixpoint wait_loop (fuel n : nat) (run : ProcessRun) (timeout : Z)
  : option (result IoError (option (option Z))) :=
  match fuel with
  | O => None
  | S fuel' =>
      match run_try_wait run n with
      | Ok (Some status) => Some (Ok (Some status))
      | Ok None =>
          if timeout <=? run_elapsed run n then Some (Ok None)
          else wait_loop fuel' (S n) run timeout
      | Err e => Some (Err e)
      end
  end.

(** Enough polls for a timeout when they are [POLL_INTERVAL] apart. *)
Definition wait_fuel (timeout : Z) : nat := S (S (Z.to_nat (timeout / POLL_INTERVAL))).

(** [wait_timeout]. *)
Definition wait_timeout (run : ProcessRun) (timeout : Z)
  : option (result IoError (option (option Z))) :=
  if timeout =? 0 then Some (run_try_wait run 0)
  else wait_loop (wait_fuel timeout) 0 run timeout.

(** The [match] on [wait_timeout] in [execute_process], with [kill_and_reap]. *)
Definition wait_result (run : ProcessRun) (timeout : Z) : result IoError (option (option Z)) :=
  match default (Ok None) (wait_timeout run timeout) with
  | Ok (Some status) => Ok (Some status)
  | Ok None => match run_reap run with Ok _ => Ok None | Err e => Err e end
  | Err wait_error =>
      match run_reap run with
      | Ok _ => Err wait_error
      | Err reap_error =>
          Err {| io_kind := io_kind reap_error;
                 io_text := "process wait failed: " +:+ io_text wait_error
                            +:+ "; reaping failed: " +:+ io_text reap_error |}
      end
  end.

(** [deadline.saturating_duration_since(Instant::now())]. *)
Definition wait_remaining (config : ProcessConfig) (run : ProcessRun) : Z :=
  Z.max 0 (pc_timeout_secs config * NANOS_PER_SEC - run_setup run).

Class ProcOs (W : Type) := {
  os_spawn : ProcessConfig -> W -> result string ProcessRun * W;
  os_vars : W -> list (string * string);
}.

(** The world of the command adapter, with the ghost log of spawned processes. *)
Record CmdState (W : Type) := { cs_world : W; cs_log : list ProcessConfig }.
Arguments cs_world {W} _.
Arguments cs_log {W} _.

(** [execute_process], on the run it observes. *)
Definition finish_process (config : ProcessConfig) (run : ProcessRun)
  : result CommandError CommandOutcome :=
  let? exit_code :=
    match wait_result run (wait_remaining config run) with
    | Ok (Some code) => Ok code
    | Ok None => Err (CE_Timeout (pc_timeout_secs config))
    | Err e => Err (CE_ProcessFailed (io_text e))
    end in
  let? stdout := map_err CE_Io (read_stream (pc_stdout_limit config) "" (run_stdout run)) in
  let? stderr := map_err CE_Io (read_stream (pc_stderr_limit config) "" (run_stderr run)) in
  Ok {| co_executable := pc_exe config; co_exit_code := exit_code; co_stdout := stdout;
        co_stderr := stderr; co_duration := run_duration run; co_risk := pc_risk config;
        co_dry_run := false |}.

Section Execute.
Context {UL : UnicodeLower} {UU : UnicodeUpper} {W : Type} {OS : FsOs W} {PR : ProcOs W}.

Definition execute_process (config : ProcessConfig) (s : CmdState W)
  : result CommandError CommandOutcome * CmdState W :=
  let '(r, w') := os_spawn config (cs_world s) in
  let s' := {| cs_world := w'; cs_log := cs_log s ++ [config] |} in
  match r with
  | Err e => (Err (CE_SpawnFailed e), s')
  | Ok run => (finish_process config run, s')
  end.

(** The checks of [execute] between the permit and the environment: the
    executable, the working directory and the risk. *)
Definition command_checks (root : OsPath) (cmd : CommandResource) (input : CommandInput) (w : W)
  : result CommandError (string * OsPath * CommandRisk) :=
  let? exe := validate_executable (cmd_executable cmd) in
  let? _ := validate_arguments (cmd_arguments cmd) in
  let? working_dir := resolve_working_directory root (ci_working_directory input) w in
  let risk := classify_risk (cmd_executable cmd) (cmd_arguments cmd) in
  match risk with
  | Risk_Forbidden => Err (CE_ForbiddenCommand (cmd_executable cmd))
  | Risk_Destructive => Err CE_DestructiveApprovalRequired
  | _ => Ok (exe, working_dir, risk)
  end.

(** What [execute] does once its checks have passed. *)
Definition command_run (e : CommandEnforcer) (cmd : CommandResource) (input : CommandInput)
    (exe : string) (working_dir : OsPath) (risk : CommandRisk) (s : CmdState W)
  : result CommandError CommandOutcome * CmdState W :=
  if ci_dry_run input then
    (Ok {| co_executable := exe; co_exit_code := None; co_stdout := ""; co_stderr := "";
           co_duration := 0; co_risk := risk; co_dry_run := true |}, s)
  else
    match build_environment (os_vars (cs_world s)) (ci_env_vars input) with
    | Err err => (Err err, s)
    | Ok env =>
        execute_process
          {| pc_exe := exe; pc_args := cmd_arguments cmd; pc_working_dir := working_dir;
             pc_env := env;
             pc_timeout_secs := Z.min (default (cme_timeout_seconds e) (ci_timeout_seconds input))
                                  MAX_COMMAND_TIMEOUT_SECONDS;
             pc_stdout_limit := cme_stdout_limit e; pc_stderr_limit := cme_stderr_limit e;
             pc_risk := risk |} s
    end.

(** [CommandEnforcer::execute]. *)
Definition cmd_execute `{Sha256, RequestJson} (e : CommandEnforcer) (now : Z) (request : ToolRequest)
    (input : CommandInput) (permit : ExecutionPermit) (s : CmdState W)
  : result CommandError CommandOutcome * ExecutionPermit * CmdState W :=
  match ToolRequest_validate request with
  | Err err => (Err (CE_InvalidRequest (DomainValidationError_display err)), permit, s)
  | Ok _ =>
      match tr_operation request with
      | CommandExecute =>
          match tr_resource request with
          | R_Command cmd =>
              match verify_command_permit now request permit with
              | (Err err, permit') => (Err err, permit', s)
              | (Ok _, permit') =>
                  match command_checks (cme_workspace_root e) cmd input (cs_world s) with
                  | Err err => (Err err, permit', s)
                  | Ok (exe, working_dir, risk) =>
                      let '(r, s') := command_run e cmd input exe working_dir risk s in
                      (r, permit', s')
                  end
              end
          | _ => (Err CE_WrongResourceType, permit, s)
          end
      | _ => (Err CE_UnsupportedOperation, permit, s)
      end
  end.

End Execute.
