(* ===== verification/EnforceCmdProps.v ===== *)
(** * Properties of the command adapter *)

From stdpp Require Import base tactics list strings.
From Stdlib Require Import ZArith Lia Ascii.
From S2P Require Import Prelude RustStr BTree CoreError CoreIds CorePath CoreResource.
From S2P Require Import CoreRequest CoreShell CorePermit EnforceFs EnforceFsProps EnforceCmd.

Open Scope Z_scope.

(** ** Output streams *)

Lemma split_at_len n s : len (fst (split_at n s)) = Z.min (Z.of_nat n) (len s).
Proof.
  revert s. induction n as [|n IH]; intros s; pose proof (len_nonneg s).
  { destruct s; [done|]. rewrite len_cons in *. simpl fst. change (len "") with 0.
    pose proof (len_nonneg s). lia. }
  destruct s as [|c s]; [change (len "") with 0; simpl fst; change (len "") with 0; lia|].
  simpl. specialize (IH s). destruct (split_at n s) as [a b]. cbn [fst] in *.
  rewrite !len_cons, IH. lia.
Qed.

(** All data a stream delivers up to its end. *)
Fixpoint stream_data (events : list ReadEvent) : string :=
  match events with
  | [] => ""
  | Rd_Data chunk :: rest => if is_empty chunk then "" else chunk +:+ stream_data rest
  | Rd_Interrupted :: rest => stream_data rest
  | Rd_Error _ :: _ => ""
  end.

(** [out] is [data] cut at [limit] bytes. *)
Definition truncated (limit : Z) (data out : string) : Prop :=
  len out <= limit /\ exists rest, data = out +:+ rest /\ (rest = "" \/ len out = limit).


(** Once the limit is reached nothing is added. *)
Lemma read_stream_full limit buf events out :
  len buf = limit -> read_stream limit buf events = Ok out -> out = buf.
Proof.
  intros Hb. induction events as [|[chunk| |e] events IH]; simpl; [by intros [= <-]| |done|done].
  destruct (is_empty chunk); [by intros [= <-]|].
  replace (Z.max 0 (limit - len buf)) with 0 by lia. by intros [= <-].
Qed.

Lemma read_stream_spec limit buf events out :
  len buf <= limit -> read_stream limit buf events = Ok out ->
  truncated limit (buf +:+ stream_data events) out.
Proof.
  unfold truncated. revert buf.
  induction events as [|[chunk| |e] events IH]; intros buf Hb; simpl; [| |by apply IH|done].
  { intros [= <-]. split; [done|]. exists "". auto. }
  destruct (is_empty chunk); [intros [= <-]; split; [done|]; exists ""; auto|].
  destruct (Z.eqb_spec (Z.max 0 (limit - len buf)) 0) as [Hz|Hz];
    [intros [= <-]; split; [done|]; eexists; split; [done|right; lia]|].
  set (n := Z.to_nat (Z.min (len chunk) (Z.max 0 (limit - len buf)))). intros Hr.
  pose proof (split_at_append n chunk) as Hs. pose proof (split_at_len n chunk) as Hn.
  pose proof (len_nonneg chunk).
  destruct (split_at n chunk) as [a b]. cbn [fst] in Hr, Hn.
  assert (Hlen : len (buf +:+ a) <= limit) by (rewrite len_append; lia).
  destruct (Z.le_gt_cases (len chunk) (limit - len buf)) as [Hle|Hgt].
  - assert (b = "") as ->.
    { apply len_zero. assert (Hc : len chunk = len a + len b) by (by rewrite Hs, len_append).
      unfold n in Hn. lia. }
    rewrite append_nil_r in Hs. subst a. destruct (IH _ Hlen Hr) as [Ho [rest Hrest]].
    split; [done|]. exists rest. by rewrite <- append_assoc.
  - assert (Hfull : len (buf +:+ a) = limit) by (rewrite len_append; lia).
    apply read_stream_full in Hr; [|done]. subst out. split; [done|].
    exists (b +:+ stream_data events). split; [by rewrite Hs, !append_assoc|by right].
Qed.

(** ** Waiting *)

(** [thread::sleep] sleeps at least as long as asked: polls are [POLL_INTERVAL] apart. *)
Definition paced (run : ProcessRun) : Prop :=
  forall n, Z.of_nat n * POLL_INTERVAL <= run_elapsed run n.

(** The first [n] polls neither saw the end of the process nor the deadline. *)
Definition waiting_until (run : ProcessRun) (timeout : Z) (n : nat) : Prop :=
  forall m, (m < n)%nat -> run_try_wait run m = Ok None /\ run_elapsed run m < timeout.

Lemma wait_loop_spec run timeout fuel n :
  paced run -> waiting_until run timeout n -> timeout < Z.of_nat (n + fuel - 1) * POLL_INTERVAL ->
  (0 < fuel)%nat ->
  exists m r, wait_loop fuel n run timeout = Some r /\ waiting_until run timeout m /\
    r = run_try_wait run m /\ (r = Ok None -> timeout <= run_elapsed run m).
Proof.
  intros Hp. revert n. induction fuel as [|fuel IH]; intros n Hw Hf Hpos; [lia|]. simpl.
  destruct (run_try_wait run n) as [[st|]|err] eqn:Et.
  - exists n. eexists. split_and!; try done.
  - destruct (Z.leb_spec timeout (run_elapsed run n)) as [Hle|Hlt].
    + exists n. eexists. split_and!; try done.
    + destruct fuel as [|fuel'].
      { pose proof (Hp n) as Hn. replace (n + 1 - 1)%nat with n in Hf by lia. lia. }
      apply IH; [|by rewrite Nat.add_succ_comm|lia]. intros m Hm.
      destruct (decide (m = n)) as [->|]; [done|]. apply Hw. lia.
  - exists n. eexists. split_and!; try done.
Qed.

(** One poll less would do. *)
Lemma wait_fuel_enough timeout :
  0 <= timeout -> timeout < Z.of_nat (wait_fuel timeout - 1) * POLL_INTERVAL.
Proof.
  intros Ht. unfold wait_fuel, POLL_INTERVAL.
  pose proof (Z.mul_succ_div_gt timeout 10000000 ltac:(lia)).
  pose proof (Z.div_pos timeout 10000000 Ht ltac:(lia)). lia.
Qed.

Lemma wait_result_exited run timeout code :
  wait_result run timeout = Ok (Some code) -> wait_timeout run timeout = Some (Ok (Some code)).
Proof.
  unfold wait_result. destruct (wait_timeout run timeout) as [[[c|]|]|]; simpl;
    destruct (run_reap run); by intros [= <-].
Qed.

(** (C33) Waiting for a child always ends, within one poll per ten milliseconds of
    the timeout and two more: with the state of the first poll that saw the child
    ended or failed, or, after every poll before the deadline found it running,
    with none. *)
Theorem wait_terminates run timeout :
  paced run -> 0 < timeout ->
  exists m r, wait_timeout run timeout = Some r /\ (m < wait_fuel timeout)%nat /\
    waiting_until run timeout m /\ r = run_try_wait run m /\
    (r = Ok None -> timeout <= run_elapsed run m).
Proof.
  intros Hp Ht. unfold wait_timeout. replace (timeout =? 0) with false by (symmetry; lia).
  pose proof (wait_fuel_enough timeout ltac:(lia)) as Hf.
  assert (0 < wait_fuel timeout)%nat by (unfold wait_fuel; lia).
  destruct (wait_loop_spec run timeout (wait_fuel timeout) 0) as (m & r & Hr & Hw & Hm & Hn);
    [done|intros m Hm; lia|done|done|].
  exists m, r. split_and!; try done. destruct (decide (m < wait_fuel timeout)%nat) as [|Hge]; [done|].
  destruct (Hw (wait_fuel timeout - 1)%nat) as [_ Hlt]; [lia|].
  pose proof (Hp (wait_fuel timeout - 1)%nat). lia.
Qed.

(** ** The permit gate *)

Section Gate.
Context {SH : Sha256} {RJ : RequestJson} {UL : UnicodeLower} {UU : UnicodeUpper}.
Context {W : Type} {OS : FsOs W} {PR : ProcOs W}.

Lemma verify_command_spec now request p r p' :
  verify_command_permit now request p = (r, p') ->
  (p' = p /\ exists e, r = Err e) \/
  (r = Ok tt /\ permit_admits now request p /\ p' = snd (ExecutionPermit_consume p)).
Proof.
  unfold verify_command_permit. permit_gate.
Qed.

(** The stages of an execution: refused before the permit, refused by a check
    after it, or run. *)
Lemma cmd_execute_inv e now request input p s r p' s' :
  cmd_execute e now request input p s = (r, p', s') ->
  (p' = p /\ s' = s /\ exists err, r = Err err) \/
  (permit_admits now request p /\ p' = snd (ExecutionPermit_consume p) /\
   ((s' = s /\ exists err, r = Err err) \/
    exists cmd exe wd risk, tr_resource request = R_Command cmd /\
      command_checks (cme_workspace_root e) cmd input (cs_world s) = Ok (exe, wd, risk) /\
      command_run e cmd input exe wd risk s = (r, s'))).
Proof.
  unfold cmd_execute. destruct (ToolRequest_validate request); [|intros [= <- <- <-]; eauto].
  destruct (tr_operation request); try (intros [= <- <- <-]; eauto).
  destruct (tr_resource request) as [| |cmd| | | |] eqn:Er; try (intros [= <- <- <-]; eauto).
  destruct (verify_command_permit now request p) as [v q] eqn:Ev.
  apply verify_command_spec in Ev as [(-> & err & ->)|(-> & Ha & ->)].
  { intros [= <- <- <-]. eauto. }
  destruct (command_checks _ cmd input _) as [[[exe wd] risk]|err] eqn:Ec.
  - destruct (command_run e cmd input exe wd risk s) as [v u] eqn:Ru. intros [= <- <- <-].
    right. split_and!; [done..|]. right. by exists cmd, exe, wd, risk.
  - intros [= <- <- <-]. right. split_and!; [done..|]. left. eauto.
Qed.

(** The enforcer as an adapter. *)
Definition cmd_adapter (e : CommandEnforcer) : Adapter (CmdState W) CommandInput CommandOutcome :=
  {| adapter_execute now request input p s :=
       let '(r, p', s') := cmd_execute e now request input p s in
       (map_err CommandError_display r, p', s') |}.

#[export] Instance cmd_adapter_laws e : @AdapterLaws _ _ _ _ _ (cmd_adapter e).
Proof.
  constructor. intros now request input p s r p' s'. simpl.
  destruct (cmd_execute e now request input p s) as [[v q] u] eqn:E. intros [= <- <- <-].
  apply cmd_execute_inv in E as [(-> & -> & err & ->)|(Ha & Hp & _)]; [left; simpl; eauto|by right].
Qed.

(** ** What a spawned process looks like *)

Lemma validate_executable_ok exe x :
  validate_executable exe = Ok x -> x = exe /\ is_shell_executable exe = false.
Proof.
  unfold validate_executable.
  destruct (is_empty exe); [done|]. destruct (any_byte bad_text_byte exe); [done|].
  destruct (MAX_PATH_LEN <? len exe); [done|].
  destruct (contains "&&" exe || _ || _ || _); [done|].
  destruct (is_shell_executable exe); [done|]. by intros [= <-].
Qed.

Lemma validate_argument_ok i arg :
  validate_argument i arg = Ok tt -> has_dangerous_shell_construct arg = false /\ arg <> "" /\
    len arg <= MAX_ARGUMENT_LENGTH.
Proof.
  unfold validate_argument, has_dangerous_shell_construct.
  destruct (MAX_ARGUMENT_LENGTH <? len arg) eqn:El; [done|].
  destruct (is_empty arg) eqn:Ee; [done|]. do 2 (destruct (any_byte _ arg); [done|]).
  destruct (scan_dangerous_shell_constructs arg); [|done]. intros _. bool_prop.
  split_and!; [done|by apply is_empty_false|done].
Qed.

Lemma for_each_i_each {E A} (f : Z -> A -> result E unit) i l x :
  for_each_i f i l = Ok tt -> x ∈ l -> exists j, f j x = Ok tt.
Proof.
  revert i. induction l as [|y l IH]; intros i Hf Hx; [by apply not_elem_of_nil in Hx|].
  simpl in Hf. apply result_unit_bind in Hf as [Hy Hl].
  apply elem_of_cons in Hx as [->|Hx]; eauto.
Qed.

Lemma working_directory_ok root wd (w : W) p :
  resolve_working_directory root wd w = Ok p -> path_starts_with root p = true.
Proof.
  unfold resolve_working_directory. destruct wd as [d|].
  - destruct (starts_with "/" d); [done|].
    destruct (os_canonicalize w (path_join root d)) as [c|]; [|done]. cbn [map_err].
    destruct (path_starts_with root c) eqn:E; [|done]. cbn [negb].
    destruct (os_is_dir w c); [|done]. by intros [= <-].
  - intros [= <-]. apply path_starts_with_spec. exists []. by rewrite app_nil_r.
Qed.

(** Where a variable of the child's environment comes from. *)
Definition env_origin (vars extra : list (string * string)) (kv : string * string) : Prop :=
  kv ∈ extra \/
  (kv ∈ vars /\ is_dangerous_var kv.1 = false /\
   existsb (eq_ignore_ascii_case kv.1) DEFAULT_ALLOWED_VARS = true).

Lemma inherit_vars_origin seen vars extra :
  Forall (env_origin vars extra) (inherit_vars seen vars).
Proof.
  assert (H : forall all, (forall kv, kv ∈ vars -> kv ∈ all) ->
            Forall (env_origin all extra) (inherit_vars seen vars)); [|by apply (H vars)].
  intros all. revert seen. induction vars as [|[k v] vars IH]; intros seen Hsub; cbn [inherit_vars]; [by apply Forall_nil|].
  assert (Hrec : forall s, Forall (env_origin all extra) (inherit_vars s vars))
    by (intros s; apply IH; intros kv Hkv; apply Hsub; apply elem_of_cons; by right).
  destruct (existsb (String.eqb k) seen); [done|]. destruct (is_dangerous_var k) eqn:Ed; [done|].
  destruct (existsb (eq_ignore_ascii_case k) DEFAULT_ALLOWED_VARS) eqn:Ea; cbn [negb]; [|apply Hrec].
  destruct (any_byte _ k || any_byte _ v); [done|].
  apply Forall_cons; split; [|apply Hrec]. right. split_and!; [apply Hsub, elem_of_cons; by left|done|done].
Qed.

Lemma build_environment_ok vars extra env :
  build_environment vars extra = Ok env ->
  Forall (env_origin vars extra) env /\ Z.of_nat (length env) <= MAX_ENVIRONMENT_ENTRIES.
Proof.
  unfold build_environment. destruct (for_each check_env_entry extra) as [[]|]; [|done].
  destruct (MAX_ENVIRONMENT_ENTRIES <? _) eqn:El; [done|]. bool_prop. intros [= <-].
  split; [|done]. apply Forall_app. split; [apply inherit_vars_origin|].
  apply Forall_forall. intros kv Hkv. by left.
Qed.

(** A process configuration the adapter may start for [cmd]. *)
Definition safe_config (root : OsPath) (vars : list (string * string)) (cmd : CommandResource)
    (input : CommandInput) (cfg : ProcessConfig) : Prop :=
  pc_exe cfg = cmd_executable cmd /\ pc_args cfg = cmd_arguments cmd /\
  is_shell_executable (pc_exe cfg) = false /\
  (forall arg a b, arg ∈ pc_args cfg -> arg = a +:+ b -> hazard_at b = false) /\
  path_starts_with root (pc_working_dir cfg) = true /\
  pc_timeout_secs cfg <= MAX_COMMAND_TIMEOUT_SECONDS /\
  (pc_risk cfg = classify_risk (cmd_executable cmd) (cmd_arguments cmd) /\
   (pc_risk cfg = Risk_Low \/ pc_risk cfg = Risk_Elevated)) /\
  Forall (env_origin vars (ci_env_vars input)) (pc_env cfg).

Lemma command_checks_ok root cmd input (w : W) exe wd risk :
  command_checks root cmd input w = Ok (exe, wd, risk) ->
  exe = cmd_executable cmd /\ is_shell_executable exe = false /\
  (forall arg a b, arg ∈ cmd_arguments cmd -> arg = a +:+ b -> hazard_at b = false) /\
  path_starts_with root wd = true /\
  risk = classify_risk (cmd_executable cmd) (cmd_arguments cmd) /\
  (risk = Risk_Low \/ risk = Risk_Elevated).
Proof.
  unfold command_checks.
  destruct (validate_executable _) as [x|] eqn:Ex; [|done].
  destruct (validate_arguments _) as [[]|] eqn:Ea; [|done].
  destruct (resolve_working_directory _ _ w) as [d|] eqn:Ed; [|done].
  apply validate_executable_ok in Ex as [-> Hs]. apply working_directory_ok in Ed.
  intros Hr. assert (Hx : exe = cmd_executable cmd /\ wd = d /\
    risk = classify_risk (cmd_executable cmd) (cmd_arguments cmd) /\
    (risk = Risk_Low \/ risk = Risk_Elevated)).
  { destruct (classify_risk _ _); try done; injection Hr as <- <- <-; auto. }
  destruct Hx as (-> & -> & -> & Hrisk). split_and!; try done. intros arg a b Harg Hab.
  unfold validate_arguments in Ea. destruct (MAX_ARGUMENT_COUNT <? _); [done|].
  destruct (for_each_i_each _ _ _ _ Ea Harg) as [j Hj].
  apply validate_argument_ok in Hj as [Hh _]. rewrite has_dangerous_somewhere in Hh.
  destruct (hazard_at b) eqn:Eb; [|done]. rewrite <- Hh. symmetry. apply somewhere_spec. eauto.
Qed.

(** A run starts at most one process, with a safe configuration. *)
Lemma command_run_inv e cmd input exe wd risk (s : CmdState W) r s' :
  command_run e cmd input exe wd risk s = (r, s') ->
  (s' = s /\ forall out, r = Ok out -> co_dry_run out = true /\ co_stdout out = "" /\
     co_stderr out = "" /\ co_exit_code out = None) \/
  exists cfg v, cs_log s' = cs_log s ++ [cfg] /\ os_spawn cfg (cs_world s) = (v, cs_world s') /\
    r = match v with Ok run => finish_process cfg run | Err err => Err (CE_SpawnFailed err) end /\
    pc_exe cfg = exe /\ pc_args cfg = cmd_arguments cmd /\ pc_working_dir cfg = wd /\
    pc_risk cfg = risk /\ pc_timeout_secs cfg <= MAX_COMMAND_TIMEOUT_SECONDS /\
    pc_stdout_limit cfg = cme_stdout_limit e /\ pc_stderr_limit cfg = cme_stderr_limit e /\
    build_environment (os_vars (cs_world s)) (ci_env_vars input) = Ok (pc_env cfg).
Proof.
  unfold command_run. destruct (ci_dry_run input); [intros [= <- <-]; left; split; [done|]; by intros out [= <-]|].
  destruct (build_environment _ _) as [env|err]; [|intros [= <- <-]; by left].
  unfold execute_process. set (cfg := Build_ProcessConfig _ _ _ _ _ _ _ _).
  destruct (os_spawn cfg (cs_world s)) as [v w'] eqn:Es. intros Hr. right. exists cfg, v.
  destruct v; injection Hr as <- <-; split_and!; try done; simpl; lia.
Qed.

(** A run starts no process, or exactly one in a safe configuration. *)
Lemma cmd_execute_spawns e now request input p (s : CmdState W) r p' s' :
  cmd_execute e now request input p s = (r, p', s') ->
  s' = s \/
  exists cmd cfg, tr_resource request = R_Command cmd /\ cs_log s' = cs_log s ++ [cfg] /\
    safe_config (cme_workspace_root e) (os_vars (cs_world s)) cmd input cfg.
Proof.
  intros [(_ & -> & _)|(Ha & -> & [[-> _]|(cmd & exe & wd & risk & Hcmd & Hc & Hr)])]%cmd_execute_inv;
    [by left..|].
  apply command_run_inv in Hr as [[-> _]|(cfg & v & Hlog & _ & _ & He & Harg & Hwd & Hk & Ht & _ & _ & Henv)];
    [by left|right].
  apply command_checks_ok in Hc as (-> & Hs & Hh & Hd & Hk' & Hlow).
  exists cmd, cfg. split_and!; [done..|].
  unfold safe_config. rewrite He, Harg, Hwd, Hk.
  apply build_environment_ok in Henv as [Henv _]. by split_and!.
Qed.

(** (C25) A process is started only for a request with an unexpired, unused permit
    bound to it, at most one per execution, and only in a safe configuration: the
    executable is no shell, no argument holds a shell construct, the working
    directory lies in the workspace, the timeout is at most an hour, the command
    is classified low or elevated, and every environment variable was given by the
    caller or is an allowed and not sensitive variable of the parent. *)
Theorem cmd_spawns_safely e now request input p (s : CmdState W) r p' s' :
  cmd_execute e now request input p s = (r, p', s') ->
  s' = s \/
  exists cmd cfg, tr_resource request = R_Command cmd /\ cs_log s' = cs_log s ++ [cfg] /\
    permit_admits now request p /\ ep_consumed p' = true /\
    safe_config (cme_workspace_root e) (os_vars (cs_world s)) cmd input cfg.
Proof.
  intros Hx. pose proof Hx as Hs%cmd_execute_spawns.
  apply cmd_execute_inv in Hx as [(_ & -> & _)|(Ha & -> & _)]; [by left|].
  destruct Hs as [->|(cmd & cfg & Hc & Hl & Hs)]; [by left|right].
  exists cmd, cfg. by split_and!; [..|apply consume_consumed|].
Qed.

(** What a successful execution returns: nothing of a process for a dry run;
    otherwise the exit code of a process that ended by itself within its time, and
    each of its output streams, whole or cut exactly at the adapter's limit. *)
Theorem cmd_output_bounded e now request input p (s : CmdState W) out p' s' :
  0 <= cme_stdout_limit e -> 0 <= cme_stderr_limit e ->
  cmd_execute e now request input p s = (Ok out, p', s') ->
  if co_dry_run out then s' = s /\ co_stdout out = "" /\ co_stderr out = "" /\ co_exit_code out = None
  else exists cfg run,
    cs_log s' = cs_log s ++ [cfg] /\ os_spawn cfg (cs_world s) = (Ok run, cs_world s') /\
    wait_timeout run (wait_remaining cfg run) = Some (Ok (Some (co_exit_code out))) /\
    truncated (cme_stdout_limit e) (stream_data (run_stdout run)) (co_stdout out) /\
    truncated (cme_stderr_limit e) (stream_data (run_stderr run)) (co_stderr out).
Proof.
  intros Ho He. intros [(_ & _ & ? & [=])|(_ & _ & [(_ & ? & [=])|(cmd & exe & wd & risk & _ & _ & Hr)])]%cmd_execute_inv.
  apply command_run_inv in Hr as
    [[-> Hd]|(cfg & v & Hlog & Hs & Hv & _ & _ & _ & _ & _ & Hlo & Hle & _)].
  { destruct (Hd out eq_refl) as (-> & Hrest). done. }
  destruct v as [run|]; [|done]. unfold finish_process in Hv.
  destruct (wait_result run _) as [[code|]|] eqn:Ew; [|done|done].
  apply wait_result_exited in Ew.
  destruct (read_stream _ _ (run_stdout run)) as [so|] eqn:Eo; [|done]. cbn [map_err] in Hv.
  destruct (read_stream _ _ (run_stderr run)) as [se|] eqn:Ee; [|done]. cbn [map_err] in Hv.
  injection Hv as ->. cbn.
  rewrite Hlo in Eo. rewrite Hle in Ee. apply read_stream_spec in Eo, Ee; [|done..].
  by exists cfg, run.
Qed.

End Gate.

(** ** Findings *)

(** [Remove-Item] is listed as destructive with [-Recurse] and [-Force], but
    the executable is lower-cased before it is compared: whatever its arguments it
    is classified low, and so is [kill -KILL], while [kill -9] is destructive. *)
Theorem remove_item_never_destructive `{UnicodeLower} args :
  classify_risk "Remove-Item" args = Risk_Low /\
  classify_risk "kill" ["-KILL"; "1"] = Risk_Low /\
  classify_risk "kill" ["-9"; "1"] = Risk_Destructive.
Proof. by vm_compute. Qed.
