(* ===== verification/EnforceNet.v ===== *)
(** * The network adapter

    crates/kavach-enforcement/src/network.rs.  Name resolution is the operating
    system's and the HTTP client (ureq) another package's: [NetOs] gives what a
    resolution and an exchange return.  Both are recorded in a ghost log. *)

From stdpp Require Import base tactics list strings.
From Stdlib Require Import ZArith Lia Ascii.
From S2P Require Import Prelude RustStr BTree CoreError CoreIds CorePath CoreResource.
From S2P Require Import CoreRequest CorePermit EnforceFs EnforceCmd.

Open Scope Z_scope.

(** ** Constants *)

Definition DEFAULT_NETWORK_TIMEOUT_SECONDS : Z := 30.
Definition MAX_NETWORK_TIMEOUT_SECONDS : Z := 300.
Definition DEFAULT_CONNECT_TIMEOUT_SECONDS : Z := 10.
Definition DEFAULT_RESPONSE_BODY_LIMIT : Z := 10 * 1024 * 1024.
Definition DEFAULT_REQUEST_BODY_LIMIT : Z := 1048576.
(** A [nat], because the recursion over redirects descends on it. *)
Definition DEFAULT_REDIRECT_LIMIT : nat := 5.
Definition MAX_REDIRECT_LIMIT : nat := 20.
Definition MAX_HEADER_COUNT : Z := 64.
Definition MAX_HEADER_NAME_LENGTH : Z := 256.
Definition MAX_HEADER_VALUE_LENGTH : Z := 8192.

(** ** Types *)

(** [NetworkMethod] and [NetworkMethod::as_str]. *)
Inductive NetworkMethod := M_Get | M_Head | M_Post | M_Put | M_Patch | M_Delete.

Definition NetworkMethod_as_str (m : NetworkMethod) : string :=
  match m with
  | M_Get => "GET" | M_Head => "HEAD" | M_Post => "POST" | M_Put => "PUT" | M_Patch => "PATCH"
  | M_Delete => "DELETE"
  end.

(** [NetworkInput]. *)
Record NetworkInput := {
  ni_method : option NetworkMethod;
  ni_headers : list (string * string);
  ni_body : option string;
  ni_no_redirect : bool;
  ni_timeout_seconds : option Z;
  ni_response_body_limit : option Z;
}.

(** [NetworkOutcome]; the duration in nanoseconds. *)
Record NetworkOutcome := {
  no_status : Z;
  no_headers : list (string * string);
  no_body : string;
  no_body_len : Z;
  no_redirect_count : nat;
  no_final_url : string;
  no_duration : Z;
}.

(** [NetworkError]. *)
Inductive NetworkError :=
| NE_InvalidRequest (detail : string)
| NE_InvalidPermit (detail : string)
| NE_PermitExpired
| NE_PermitConsumed
| NE_UnsupportedOperation
| NE_WrongResourceType
| NE_InvalidUrl (detail : string)
| NE_UnsupportedScheme (scheme : string)
| NE_PlainHttpDisabled
| NE_CredentialsInUrl
| NE_InvalidHeader (detail : string)
| NE_RequestBodyLimitExceeded
| NE_DnsResolutionFailed (detail : string)
| NE_BlockedAddress (detail : string)
| NE_MetadataEndpointBlocked
| NE_DnsRebindingProtectionFailure
| NE_RedirectRejected (detail : string)
| NE_RedirectLimitExceeded
| NE_PolicyDeniedRedirect
| NE_ConnectTimeout
| NE_RequestTimeout
| NE_ResponseBodyLimitExceeded
| NE_TlsFailure (detail : string)
| NE_TransportFailure (detail : string).

(** The [#[error]] texts. *)
Definition NetworkError_display (e : NetworkError) : string :=
  match e with
  | NE_InvalidRequest d => "invalid request: " +:+ d
  | NE_InvalidPermit d => "invalid permit: " +:+ d
  | NE_PermitExpired => "permit expired"
  | NE_PermitConsumed => "permit already consumed"
  | NE_UnsupportedOperation => "unsupported operation"
  | NE_WrongResourceType => "wrong resource type"
  | NE_InvalidUrl d => "invalid URL: " +:+ d
  | NE_UnsupportedScheme d => "unsupported scheme: " +:+ d
  | NE_PlainHttpDisabled => "plain HTTP disabled"
  | NE_CredentialsInUrl => "credentials in URL"
  | NE_InvalidHeader d => "invalid header: " +:+ d
  | NE_RequestBodyLimitExceeded => "request body limit exceeded"
  | NE_DnsResolutionFailed d => "DNS resolution failed: " +:+ d
  | NE_BlockedAddress d => "blocked address: " +:+ d
  | NE_MetadataEndpointBlocked => "metadata endpoint blocked"
  | NE_DnsRebindingProtectionFailure => "DNS rebinding protection failure"
  | NE_RedirectRejected d => "redirect rejected: " +:+ d
  | NE_RedirectLimitExceeded => "redirect limit exceeded"
  | NE_PolicyDeniedRedirect => "policy denied redirect"
  | NE_ConnectTimeout => "connection timed out"
  | NE_RequestTimeout => "request timed out"
  | NE_ResponseBodyLimitExceeded => "response body limit exceeded"
  | NE_TlsFailure d => "TLS failure: " +:+ d
  | NE_TransportFailure d => "transport failure: " +:+ d
  end.

(** ** Addresses ([std::net]) *)

Record Ipv4Addr := mkIpv4 { oct0 : Z; oct1 : Z; oct2 : Z; oct3 : Z }.
Record Ipv6Addr := mkIpv6 {
  seg0 : Z; seg1 : Z; seg2 : Z; seg3 : Z; seg4 : Z; seg5 : Z; seg6 : Z; seg7 : Z;
}.
Inductive IpAddr := V4 (a : Ipv4Addr) | V6 (a : Ipv6Addr).

(** [SocketAddr], with the scope of an IPv6 address. *)
Record SocketAddr := { sa_ip : IpAddr; sa_port : Z; sa_scope : Z }.

Definition segments (a : Ipv6Addr) : list Z :=
  [seg0 a; seg1 a; seg2 a; seg3 a; seg4 a; seg5 a; seg6 a; seg7 a].

(** [Ipv6Addr::to_ipv4_mapped]. *)
Definition to_ipv4_mapped (a : Ipv6Addr) : option Ipv4Addr :=
  if forallb (Z.eqb 0) [seg0 a; seg1 a; seg2 a; seg3 a; seg4 a] && (seg5 a =? 65535) then
    Some (mkIpv4 (seg6 a / 256) (seg6 a mod 256) (seg7 a / 256) (seg7 a mod 256))
  else None.

(** [is_loopback], [is_unspecified] and [is_multicast] on [Ipv6Addr]. *)
Definition ipv6_is_loopback (a : Ipv6Addr) : bool :=
  forallb (Z.eqb 0) [seg0 a; seg1 a; seg2 a; seg3 a; seg4 a; seg5 a; seg6 a] && (seg7 a =? 1).
Definition ipv6_is_unspecified (a : Ipv6Addr) : bool := forallb (Z.eqb 0) (segments a).
Definition ipv6_is_multicast (a : Ipv6Addr) : bool := Z.land (seg0 a) 65280 =? 65280.

(** [IpAddr::is_loopback]. *)
Definition is_loopback (a : IpAddr) : bool :=
  match a with V4 v4 => oct0 v4 =? 127 | V6 v6 => ipv6_is_loopback v6 end.

(** *** Display *)

(** [{:x}]. *)
Definition hex_digit (d : Z) : ascii :=
  if d <? 10 then byte_of (48 + d) else byte_of (87 + d).

Fixpoint drop_leading_zeros (l : list Z) : list Z :=
  match l with
  | 0 :: ((_ :: _) as l') => drop_leading_zeros l'
  | _ => l
  end.

Definition hex16 (n : Z) : string :=
  foldr (fun d s => String (hex_digit d) s) ""
    (drop_leading_zeros [n / 4096 mod 16; n / 256 mod 16; n / 16 mod 16; n mod 16]).

Definition ipv4_display (a : Ipv4Addr) : string :=
  join "." (map dec [oct0 a; oct1 a; oct2 a; oct3 a]).

(** The longest run of zero segments: its start and length. *)
Fixpoint longest_zeros (i : nat) (l : list Z) (current longest : nat * nat) : nat * nat :=
  match l with
  | [] => longest
  | s :: l' =>
      if (s =? 0)%Z then
        let current' := if snd current =? 0 then (i, 1) else (fst current, S (snd current)) in
        longest_zeros (S i) l' current' (if snd longest <? snd current' then current' else longest)
      else longest_zeros (S i) l' (0, 0) longest
  end%nat.

Definition ipv6_display (a : Ipv6Addr) : string :=
  match to_ipv4_mapped a with
  | Some v4 => "::ffff:" +:+ ipv4_display v4
  | None =>
      let segs := segments a in
      let '(start, n) := longest_zeros 0 segs (0, 0)%nat (0, 0)%nat in
      if (1 <? n)%nat then
        join ":" (map hex16 (take start segs)) +:+ "::" +:+ join ":" (map hex16 (drop (start + n) segs))
      else join ":" (map hex16 segs)
  end.

Definition SocketAddr_display (a : SocketAddr) : string :=
  match sa_ip a with
  | V4 v4 => ipv4_display v4 +:+ ":" +:+ dec (sa_port a)
  | V6 v6 =>
      "[" +:+ ipv6_display v6 +:+ (if sa_scope a =? 0 then "" else "%" +:+ dec (sa_scope a))
      +:+ "]:" +:+ dec (sa_port a)
  end.

(** ** Address ranges *)

Definition between (lo hi x : Z) : bool := (lo <=? x) && (x <=? hi).

(** [is_blocked_ipv4]. *)
Definition is_blocked_ipv4 (a : Ipv4Addr) : bool :=
  if oct0 a =? 10 then true
  else if (oct0 a =? 172) && between 16 31 (oct1 a) then true
  else if (oct0 a =? 192) && (oct1 a =? 168) then true
  else if oct0 a =? 127 then true
  else if (oct0 a =? 169) && (oct1 a =? 254) then true
  else if oct0 a =? 0 then true
  else if between 224 239 (oct0 a) then true
  else if forallb (Z.eqb 255) [oct0 a; oct1 a; oct2 a; oct3 a] then true
  else (oct0 a =? 100) && between 64 127 (oct1 a).

Definition UNSPECIFIED : Ipv4Addr := mkIpv4 0 0 0 0.

(** [is_blocked_ipv6]. *)
Definition is_blocked_ipv6 (a : Ipv6Addr) : bool :=
  if ipv6_is_loopback a || ipv6_is_unspecified a || ipv6_is_multicast a then true
  else if seg0 a =? 65152 then true
  else if between 64512 65023 (seg0 a) then true
  else if forallb (Z.eqb 0) [seg0 a; seg1 a; seg2 a; seg3 a; seg4 a] && (seg5 a =? 65535) then
    is_blocked_ipv4 (default UNSPECIFIED (to_ipv4_mapped a))
  else false.

(** [is_blocked_ip]. *)
Definition is_blocked_ip (a : IpAddr) : bool :=
  match a with V4 v4 => is_blocked_ipv4 v4 | V6 v6 => is_blocked_ipv6 v6 end.

Definition METADATA_HOSTNAMES : list string := ["metadata.google.internal"].

Definition is_metadata_ip (a : Ipv4Addr) : bool :=
  (oct0 a =? 169) && (oct1 a =? 254) && (oct2 a =? 169) && (oct3 a =? 254).

Definition FORBIDDEN_HEADERS : list string :=
  ["host"; "connection"; "proxy-authorization"; "proxy-connection"; "transfer-encoding"; "upgrade";
   "cookie"; "set-cookie"; "authorization"; "x-forwarded-for"; "x-forwarded-host";
   "x-forwarded-proto"; "forwarded"; "via"].

Definition SENSITIVE_RESPONSE_HEADERS : list string :=
  ["set-cookie"; "authorization"; "proxy-authenticate"; "www-authenticate"].

(** ** URLs *)

(** [default_port]. *)
Definition default_port (scheme : string) : Z :=
  if String.eqb scheme "https" then 443 else if String.eqb scheme "http" then 80 else 0.

(** [validate_scheme]. *)
Definition validate_scheme (scheme : string) (allow_http : bool) : result NetworkError unit :=
  if String.eqb scheme "https" then Ok tt
  else if String.eqb scheme "http" then if allow_http then Ok tt else Err NE_PlainHttpDisabled
  else Err (NE_UnsupportedScheme scheme).

(** [validate_host]. *)
Definition validate_host (host : string) : result NetworkError unit :=
  if is_empty host then Err (NE_InvalidUrl "empty host")
  else if any_byte (fun b => Ascii.eqb b "@") host then Err NE_CredentialsInUrl
  else if any_byte (fun b => byte_val b =? 0) host || any_byte is_ascii_control host then
    Err (NE_InvalidUrl "host contains control characters")
  else if 255 <? len host then Err (NE_InvalidUrl "host too long")
  else Ok tt.

(** [str::parse::<u16>]: an optional plus sign and digits. *)
Fixpoint parse_digits (s : string) (acc : Z) : option Z :=
  match s with
  | EmptyString => Some acc
  | String c s' =>
      if is_ascii_digit c then
        let acc' := 10 * acc + (byte_val c - 48) in
        if 65535 <? acc' then None else parse_digits s' acc'
      else None
  end.

Definition parse_u16 (s : string) : option Z :=
  let digits := match strip_prefix "+" s with Some r => r | None => s end in
  if is_empty digits then None else parse_digits digits 0.

(** [str::split_once] with a one-byte pattern. *)
Definition split_once (c : ascii) (s : string) : option (string * string) :=
  match find_split (Ascii.eqb c) s with
  | Some (a, String _ b) => Some (a, b)
  | _ => None
  end.

(** [ParsedUrl]. *)
Record ParsedUrl := { pu_host : string; pu_port : Z; pu_scheme : string }.

(** [parse_url_parts]. *)
Definition parse_url_parts (url : string) : result NetworkError ParsedUrl :=
  let? rest := ok_or (NE_RedirectRejected "unsupported scheme in redirect")
                 (match strip_prefix "https://" url with
                  | Some r => Some r
                  | None => strip_prefix "http://" url
                  end) in
  let scheme := if starts_with "https" url then "https" else "http" in
  let '(host_part, _) := default (rest, "") (split_once "/" rest) in
  let '(host, port) :=
    match split_once ":" host_part with
    | Some (h, p) => (h, default (default_port scheme) (parse_u16 p))
    | None => (host_part, default_port scheme)
    end in
  Ok {| pu_host := host; pu_port := port; pu_scheme := scheme |}.

(** [validate_redirect_url]. *)
Definition validate_redirect_url (url : string) (allow_http : bool) : result NetworkError unit :=
  let? parsed := parse_url_parts url in
  let is_https := String.eqb (pu_scheme parsed) "https" in
  let is_http := String.eqb (pu_scheme parsed) "http" in
  let? _ :=
    if is_https || (is_http && allow_http) then Ok tt
    else if is_http then Err (NE_RedirectRejected "HTTPS downgrade to HTTP")
    else Err (NE_RedirectRejected ("unsupported scheme: " +:+ pu_scheme parsed)) in
  validate_host (pu_host parsed).

(** ** Headers *)

Section Headers.
Context {UL : UnicodeLower}.

(** [is_metadata_host]. *)
Definition is_metadata_host (host : string) : bool :=
  let lower := to_lowercase host in
  existsb (fun m => String.eqb m lower || ends_with ("." +:+ m) lower) METADATA_HOSTNAMES.

(** [is_forbidden_header] and [is_sensitive_response_header]. *)
Definition is_forbidden_header (name : string) : bool :=
  existsb (fun h => String.eqb h (to_lowercase name)) FORBIDDEN_HEADERS.
Definition is_sensitive_response_header (name : string) : bool :=
  existsb (fun h => String.eqb h (to_lowercase name)) SENSITIVE_RESPONSE_HEADERS.

(** NUL, CR or LF. *)
Definition breaks_line (b : ascii) : bool :=
  (byte_val b =? 0) || (byte_val b =? 13) || (byte_val b =? 10).

(** The loop body of [validate_headers]. *)
Definition validate_header (h : string * string) : result NetworkError unit :=
  let '(name, value) := h in
  if is_empty name || (MAX_HEADER_NAME_LENGTH <? len name) then
    Err (NE_InvalidHeader "invalid header name length")
  else if MAX_HEADER_VALUE_LENGTH <? len value then
    Err (NE_InvalidHeader ("header " +:+ name +:+ " exceeds max value length"))
  else if any_byte breaks_line name then Err (NE_InvalidHeader "CRLF injection in header name")
  else if any_byte breaks_line value then
    Err (NE_InvalidHeader ("CRLF injection in header " +:+ name))
  else if is_forbidden_header name then Err (NE_InvalidHeader ("forbidden header: " +:+ name))
  else Ok tt.

(** [validate_headers]. *)
Definition validate_headers (headers : list (string * string)) : result NetworkError unit :=
  if MAX_HEADER_COUNT <? Z.of_nat (length headers) then
    Err (NE_InvalidHeader ("too many headers: " +:+ dec (Z.of_nat (length headers)) +:+ " (max "
                           +:+ dec MAX_HEADER_COUNT +:+ ")"))
  else for_each validate_header headers.

End Headers.

(** ** The network *)

(** The chain of causes of a transport error: which of them are [io::Error]s of
    kind [TimedOut]. *)
Inductive SourceError := Src_Io (timed_out : bool) | Src_Other.

(** [ureq::ErrorKind], as far as the adapter looks, and [ureq::Error]. *)
Inductive UreqErrorKind := UK_Dns | UK_ConnectionFailed | UK_TooManyRedirects | UK_Other.
Inductive UreqError :=
| Ureq_Transport (kind : UreqErrorKind) (text : string) (sources : list SourceError)
| Ureq_Status (code : Z).

(** A request handed to the client: the calls of [set] in order, and the
    addresses its resolver returns. *)
Record HttpCall := {
  hc_method : NetworkMethod;
  hc_url : string;
  hc_addresses : list SocketAddr;
  hc_headers : list (string * string);
  hc_body : string;
  hc_timeout : Z;
  hc_connect_timeout : Z;
}.

(** A response: [headers_names], [header], the reads of the body (an empty one
    ends it) and the time taken. *)
Record HttpResponse := {
  hr_status : Z;
  hr_header_names : list string;
  hr_header : string -> option string;
  hr_body : list (result string string);
  hr_elapsed : Z;
}.

Class NetOs (W : Type) := {
  os_resolve : string -> W -> result string (list SocketAddr) * W;
  http_send : HttpCall -> W -> result UreqError HttpResponse * W;
}.

(** The ghost log. *)
Inductive NetCall :=
| Net_Resolve (host : string) (port : Z) (answer : result string (list SocketAddr))
| Net_Send (call : HttpCall).

Record NetState (W : Type) := { ns_world : W; ns_log : list NetCall }.
Arguments ns_world {W} _.
Arguments ns_log {W} _.

(** [is_timeout_from_source] along the chain. *)
Definition is_timeout_from_source (sources : list SourceError) : bool :=
  existsb (fun s => match s with Src_Io t => t | Src_Other => false end) sources.

(** [map_ureq_error]. *)
Definition map_ureq_error (e : UreqError) : NetworkError :=
  match e with
  | Ureq_Transport kind text sources =>
      let is_timeout := is_timeout_from_source sources in
      match kind with
      | UK_ConnectionFailed =>
          if is_timeout then NE_ConnectTimeout else NE_TransportFailure text
      | UK_Dns => if is_timeout then NE_RequestTimeout else NE_DnsResolutionFailed text
      | UK_TooManyRedirects => if is_timeout then NE_RequestTimeout else NE_RedirectLimitExceeded
      | UK_Other => if is_timeout then NE_RequestTimeout else NE_TransportFailure text
      end
  | Ureq_Status code => NE_TransportFailure ("HTTP status " +:+ dec code)
  end.

(** The loop that reads the response body. *)
Fixpoint read_body (limit : Z) (buf : string) (reads : list (result string string))
  : result NetworkError string :=
  match reads with
  | [] => Ok buf
  | Err e :: _ => Err (NE_TransportFailure e)
  | Ok chunk :: rest =>
      if is_empty chunk then Ok buf
      else if limit <? len buf + len chunk then Err NE_ResponseBodyLimitExceeded
      else read_body limit (buf +:+ chunk) rest
  end.

(** The loop over the addresses of a redirect target. *)
Fixpoint check_redirect_addresses (allow_loopback : bool) (addrs : list SocketAddr)
  : result NetworkError unit :=
  match addrs with
  | [] => Ok tt
  | addr :: rest =>
      if allow_loopback && is_loopback (sa_ip addr) then check_redirect_addresses allow_loopback rest
      else if is_blocked_ip (sa_ip addr) then
        Err (NE_RedirectRejected ("redirect to blocked address: " +:+ SocketAddr_display addr))
      else check_redirect_addresses allow_loopback rest
  end.

(** The loop over the addresses in [NetworkEnforcer::execute]. *)
Fixpoint check_addresses (allow_loopback : bool) (addrs : list SocketAddr)
  : result NetworkError unit :=
  match addrs with
  | [] => Ok tt
  | addr :: rest =>
      if allow_loopback && is_loopback (sa_ip addr) then check_addresses allow_loopback rest
      else if is_blocked_ip (sa_ip addr) then Err (NE_BlockedAddress (SocketAddr_display addr))
      else
        match sa_ip addr with
        | V4 v4 => if is_metadata_ip v4 then Err NE_MetadataEndpointBlocked
                   else check_addresses allow_loopback rest
        | V6 _ => check_addresses allow_loopback rest
        end
  end.

(** The statuses [execute_http] follows. *)
Definition is_redirect (status : Z) : bool :=
  (status =? 301) || (status =? 302) || (status =? 303) || (status =? 307) || (status =? 308).

(** ** Execution *)

(** [NetworkEnforcer]; durations in nanoseconds. *)
Record NetworkEnforcer := {
  ne_allow_http : bool;
  ne_timeout : Z;
  ne_connect_timeout : Z;
  ne_response_body_limit : Z;
  ne_request_body_limit : Z;
  ne_redirect_limit : nat;
  ne_allow_loopback : bool;
}.

(** [NetworkEnforcer::default], which is [new]. *)
Definition NetworkEnforcer_default : NetworkEnforcer :=
  {| ne_allow_http := false;
     ne_timeout := DEFAULT_NETWORK_TIMEOUT_SECONDS * NANOS_PER_SEC;
     ne_connect_timeout := DEFAULT_CONNECT_TIMEOUT_SECONDS * NANOS_PER_SEC;
     ne_response_body_limit := DEFAULT_RESPONSE_BODY_LIMIT;
     ne_request_body_limit := DEFAULT_REQUEST_BODY_LIMIT;
     ne_redirect_limit := DEFAULT_REDIRECT_LIMIT;
     ne_allow_loopback := false |}.

(** [with_allow_http] and [with_allow_loopback]. *)
Definition with_allow_http (allow : bool) (e : NetworkEnforcer) : NetworkEnforcer :=
  {| ne_allow_http := allow; ne_timeout := ne_timeout e; ne_connect_timeout := ne_connect_timeout e;
     ne_response_body_limit := ne_response_body_limit e;
     ne_request_body_limit := ne_request_body_limit e; ne_redirect_limit := ne_redirect_limit e;
     ne_allow_loopback := ne_allow_loopback e |}.
Definition with_allow_loopback (allow : bool) (e : NetworkEnforcer) : NetworkEnforcer :=
  {| ne_allow_http := ne_allow_http e; ne_timeout := ne_timeout e;
     ne_connect_timeout := ne_connect_timeout e;
     ne_response_body_limit := ne_response_body_limit e;
     ne_request_body_limit := ne_request_body_limit e; ne_redirect_limit := ne_redirect_limit e;
     ne_allow_loopback := allow |}.

Section Network.
Context {UL : UnicodeLower} {W : Type} {OS : NetOs W}.

Abbreviation net A := (stateful (NetState W) NetworkError A).

(** [resolve_host]. *)
Definition resolve_host (host : string) (port : Z) : net (list SocketAddr) :=
  fun s =>
    let '(r, w') := os_resolve (host +:+ ":" +:+ dec port) (ns_world s) in
    let s' := {| ns_world := w'; ns_log := ns_log s ++ [Net_Resolve host port r] |} in
    match r with
    | Err e => (Err (NE_DnsResolutionFailed e), s')
    | Ok [] => (Err (NE_DnsResolutionFailed "no addresses resolved"), s')
    | Ok addrs => (Ok addrs, s')
    end.

(** [send_bytes] with its error mapping. *)
Definition net_send (call : HttpCall) : net HttpResponse :=
  fun s =>
    let '(r, w') := http_send call (ns_world s) in
    (map_err map_ureq_error r, {| ns_world := w'; ns_log := ns_log s ++ [Net_Send call] |}).

(** [execute_http], with [redirect_limit - left] redirects behind it. *)
Fixpoint execute_http (left : nat) (method : NetworkMethod) (url : string)
    (addresses : list SocketAddr) (headers : list (string * string)) (body : option string)
    (allow_http allow_loopback : bool) (timeout connect_timeout body_limit : Z)
    (redirect_limit : nat) (no_redirect : bool) : net NetworkOutcome :=
  let set_length := match body with
                    | Some b => [("Content-Length", dec (len b))]
                    | None => []
                    end in
  let! resp := net_send {| hc_method := method; hc_url := url; hc_addresses := addresses;
                           hc_headers := headers ++ set_length; hc_body := default "" body;
                           hc_timeout := timeout; hc_connect_timeout := connect_timeout |} in
  let resp_headers :=
    map (fun name => (name, default "" (hr_header resp name)))
      (List.filter (fun name => negb (is_sensitive_response_header name)) (hr_header_names resp)) in
  let finish : net NetworkOutcome :=
    let! body_buf := st_lift (read_body body_limit "" (hr_body resp)) in
    st_ret {| no_status := hr_status resp; no_headers := resp_headers; no_body := body_buf;
              no_body_len := len body_buf; no_redirect_count := redirect_limit - left;
              no_final_url := url; no_duration := hr_elapsed resp |} in
  if negb no_redirect && is_redirect (hr_status resp) then
    match left with
    | O => st_lift (Err NE_RedirectLimitExceeded)
    | S left' =>
        match hr_header resp "location" with
        | None => finish
        | Some new_url =>
            if starts_with "http://" new_url || starts_with "https://" new_url then
              let! _ := st_lift (validate_redirect_url new_url allow_http) in
              let! parsed := st_lift (parse_url_parts new_url) in
              if is_metadata_host (pu_host parsed) then st_lift (Err NE_MetadataEndpointBlocked)
              else
                let! new_addrs := resolve_host (pu_host parsed) (pu_port parsed) in
                let! _ := st_lift (check_redirect_addresses allow_loopback new_addrs) in
                execute_http left' method new_url new_addrs headers body allow_http allow_loopback
                  timeout connect_timeout body_limit redirect_limit no_redirect
            else st_lift (Err (NE_RedirectRejected "invalid redirect URL"))
        end
    end
  else finish.

(** [verify_network_permit], at time [now]. *)
Definition verify_network_permit `{Sha256, RequestJson} (now : Z) (request : ToolRequest)
    (permit : ExecutionPermit) : result NetworkError unit * ExecutionPermit :=
  if ExecutionPermit_is_expired now permit then (Err NE_PermitExpired, permit)
  else if ExecutionPermit_is_consumed permit then (Err NE_PermitConsumed, permit)
  else
    let digest := compute_request_digest request in
    if negb (ExecutionPermit_verify_request_digest permit digest) then
      (Err (NE_InvalidPermit "permit does not match request digest"), permit)
    else
      let '(consumed, permit') := ExecutionPermit_consume permit in
      if negb consumed then (Err NE_PermitConsumed, permit') else (Ok tt, permit').

(** What [NetworkEnforcer::execute] does once the permit is consumed. *)
Definition network_run (e : NetworkEnforcer) (n : NetworkResource) (input : NetworkInput)
  : net NetworkOutcome :=
  let method := default M_Get (ni_method input) in
  let scheme := scheme_str (net_scheme n) in
  let host := host_str (net_host n) in
  let port := match net_port n with Some p => port_value p | None => default_port scheme end in
  let path := np_normalized (net_path n) in
  let! _ := st_lift (validate_scheme scheme (ne_allow_http e)) in
  let! _ := st_lift (validate_host host) in
  let! _ := st_lift (validate_headers (ni_headers input)) in
  let! _ := st_lift (match ni_body input with
                     | Some b => if ne_request_body_limit e <? len b
                                 then Err NE_RequestBodyLimitExceeded else Ok tt
                     | None => Ok tt
                     end) in
  if is_metadata_host host then st_lift (Err NE_MetadataEndpointBlocked)
  else
    let! addresses := resolve_host host port in
    let! _ := st_lift (check_addresses (ne_allow_loopback e) addresses) in
    let url := scheme +:+ "://" +:+ host +:+ ":" +:+ dec port +:+ path in
    let timeout := match ni_timeout_seconds input with
                   | Some s => Z.min s MAX_NETWORK_TIMEOUT_SECONDS * NANOS_PER_SEC
                   | None => ne_timeout e
                   end in
    let body_limit := default (ne_response_body_limit e) (ni_response_body_limit input) in
    execute_http (ne_redirect_limit e) method url addresses (ni_headers input) (ni_body input)
      (ne_allow_http e) (ne_allow_loopback e) timeout (ne_connect_timeout e) body_limit
      (ne_redirect_limit e) (ni_no_redirect input).

(** [NetworkEnforcer::execute]. *)
Definition net_execute `{Sha256, RequestJson} (e : NetworkEnforcer) (now : Z) (request : ToolRequest)
    (input : NetworkInput) (permit : ExecutionPermit) (s : NetState W)
  : result NetworkError NetworkOutcome * ExecutionPermit * NetState W :=
  match ToolRequest_validate request with
  | Err err => (Err (NE_InvalidRequest (DomainValidationError_display err)), permit, s)
  | Ok _ =>
      match tr_operation request with
      | NetworkRequest =>
          match tr_resource request with
          | R_NetworkEndpoint n =>
              match verify_network_permit now request permit with
              | (Err err, permit') => (Err err, permit', s)
              | (Ok _, permit') =>
                  let '(r, s') := network_run e n input s in
                  (r, permit', s')
              end
          | _ => (Err NE_WrongResourceType, permit, s)
          end
      | _ => (Err NE_UnsupportedOperation, permit, s)
      end
  end.

End Network.
