(* ===== verification/EnforceExamples.v ===== *)
(** * A concrete world for the adapters

    A small file system and process table that satisfy the assumptions of the
    adapter theorems, and executions in it. *)

From stdpp Require Import base tactics list strings.
From Stdlib Require Import ZArith Lia Ascii.
From S2P Require Import Prelude RustStr BTree CoreError CoreIds CorePath CoreResource.
From S2P Require Import CoreRequest CoreShell CorePermit Instances.
From S2P Require Import EnforceFs EnforceFsProps EnforceCmd EnforceCmdProps.
From S2P Require Import EnforceNet EnforceNetProps.

Open Scope Z_scope.

(** ** The world *)

(** A node is a directory or a file with its content. *)
Inductive Node := Dir | File (content : string).

Record World := {
  w_nodes : list (OsPath * Node);
  w_vars : list (string * string);
}.

Fixpoint node_at (p : OsPath) (l : list (OsPath * Node)) : option Node :=
  match l with
  | [] => None
  | (q, n) :: l' => if bool_decide (p = q) then Some n else node_at p l'
  end.

Definition node (w : World) (p : OsPath) : option Node := node_at p (w_nodes w).

Definition set_nodes (w : World) (l : list (OsPath * Node)) : World :=
  {| w_nodes := l; w_vars := w_vars w |}.
Definition put (p : OsPath) (n : Node) (w : World) : World := set_nodes w ((p, n) :: w_nodes w).
Definition drop_node (p : OsPath) (w : World) : World :=
  set_nodes w (List.filter (fun qn => negb (bool_decide (qn.1 = p))) (w_nodes w)).

Definition no_such_file : IoError := {| io_kind := IoNotFound; io_text := "not found" |}.

(** Children of a directory. *)
Definition children (p : OsPath) (w : World) : list string :=
  omap (fun qn => if bool_decide (removelast qn.1 = p) then last qn.1 else None) (w_nodes w).

#[export] Instance world_fs : FsOs World := {|
  os_canonicalize w p := match node w p with Some _ => Ok p | None => Err no_such_file end;
  os_exists w p := match node w p with Some _ => true | None => false end;
  os_is_symlink _ _ := false;
  os_is_file w p := match node w p with Some (File _) => true | _ => false end;
  os_is_dir w p := match node w p with Some Dir => true | _ => false end;
  os_len w p := match node w p with Some (File c) => Ok (len c) | _ => Err no_such_file end;
  os_read w p := match node w p with Some (File c) => Ok c | _ => Err no_such_file end;
  os_read_dir w p := Ok (map Ok (children p w));
  os_create_new p w := (Ok tt, put p (File "") w);
  os_write_flush p data w := (Ok tt, put p (File data) w);
  os_rename p q w :=
    match node w p with
    | Some n => (Ok tt, put q n (drop_node p w))
    | None => (Err no_such_file, w)
    end;
  os_remove_file p w := (Ok tt, drop_node p w);
  os_create_dir p w := (Ok tt, put p Dir w);
  os_remove_dir p w := (Ok tt, drop_node p w);
|}.

#[export] Instance world_fs_laws : FsOsLaws World.
Proof. constructor. intros w p. simpl. by destruct (node w p) as [[]|]. Qed.

(** A process prints its executable and its arguments. *)
#[export] Instance world_proc : ProcOs World := {|
  os_spawn cfg w :=
    (Ok {| run_try_wait n := if (n <? 2)%nat then Ok None else Ok (Some (Some 0));
           run_elapsed n := Z.of_nat n * POLL_INTERVAL;
           run_reap := Ok tt; run_setup := 1;
           run_stdout := [Rd_Data (pc_exe cfg); Rd_Interrupted; Rd_Data (join " " (pc_args cfg));
                          Rd_Data ""];
           run_stderr := []; run_duration := 1 |}, w);
  os_vars := w_vars;
|}.

(** Every host resolves to one public address; the first page redirects. *)
#[export] Instance world_net : NetOs World := {|
  os_resolve _ w :=
    (Ok [{| sa_ip := V4 (mkIpv4 93 184 216 34); sa_port := 443; sa_scope := 0 |}], w);
  http_send c w :=
    (Ok {| hr_status := if String.eqb (hc_url c) "https://example.com:443/" then 302 else 200;
           hr_header_names := ["location"; "set-cookie"; "content-type"];
           hr_header name := if String.eqb name "location" then Some "https://www.example.com/home"
                             else Some "text/html";
           hr_body := [Ok "hello"; Ok " world"; Ok ""]; hr_elapsed := 1 |}, w);
|}.

#[export] Instance world_lower : UnicodeLower := {| unicode_lowercase s := s |}.
#[export] Instance world_upper : UnicodeUpper := {| unicode_uppercase s := s |}.

#[local] Existing Instances toy_sha toy_sha_laws toy_request_json.

(** A workspace with one file, and an environment with a secret. *)
Definition ex_world : World :=
  {| w_nodes := [(["ws"], Dir); (["ws"; "a.txt"], File "old")];
     w_vars := [("PATH", "/bin"); ("AWS_SECRET", "s3cret"); ("EDITOR", "vi")] |}.

(** ** Executions *)

Definition ex_request (op : Operation) (r : Resource) : ToolRequest :=
  {| tr_request_id := Id_raw "req-1";
     tr_subject := AgentSubjectBuilder_build
                     (AgentSubjectBuilder_new (Id_raw "agent-1") (Id_raw "session-1"));
     tr_operation := op; tr_resource := r;
     tr_context := {| ctx_timestamp := 0; ctx_working_directory := None;
                      ctx_declared_intent := None; ctx_parent_request_id := None;
                      ctx_metadata := RequestMetadata_new; ctx_dry_run := false |} |}.

Definition ex_permit (request : ToolRequest) : ExecutionPermit :=
  ExecutionPermit_new 10 "secret" (tr_request_id request) (required_scope (tr_operation request)) []
    (compute_request_digest request) 5.

Definition ex_fs : FilesystemEnforcer :=
  {| fe_workspace_root := ["ws"]; fe_max_read_bytes := 100; fe_max_write_bytes := 100;
     fe_max_dir_entries := 10 |}.
Definition ex_path : NormalizedPath := mkNormalizedPath "a.txt" "a.txt" false.
Definition ex_write : ToolRequest := ex_request FileWrite (R_File ex_path).
Definition ex_fs_state : FsState World := {| fs_world := ex_world; fs_log := [] |}.

Definition ex_write_run :=
  fs_execute ex_fs "tmp" 12 ex_write (FI_WriteBytes "new") (ex_permit ex_write) ex_fs_state.

(** The file is replaced through a temporary file next to it. *)
Example write_replaces :
  fst (fst ex_write_run) = Ok (FO_FileWrite 3) /\
  node (fs_world (snd ex_write_run)) ["ws"; "a.txt"] = Some (File "new") /\
  node (fs_world (snd ex_write_run)) ["ws"; ".kavach_tmp_write_tmp"] = None.
Proof. by vm_compute. Qed.

Lemma fs_confined_witness : stays_inside ["ws"] ex_fs_state (snd ex_write_run).
Proof.
  exact (fs_confined (SH := toy_sha) (RJ := toy_request_json) (OS := world_fs) ex_fs "tmp" 12 ex_write (FI_WriteBytes "new") (ex_permit ex_write) ex_fs_state
           (fst (fst ex_write_run)) (snd (fst ex_write_run)) (snd ex_write_run)
           ltac:(vm_compute; reflexivity) ltac:(vm_compute; reflexivity)).
Defined.

Lemma fs_permit_gate_witness : ep_consumed (snd (fst ex_write_run)) = true.
Proof.
  destruct (fs_permit_gate (SH := toy_sha) (RJ := toy_request_json) (OS := world_fs) ex_fs "tmp" 12 ex_write (FI_WriteBytes "new") (ex_permit ex_write)
    ex_fs_state (fst (fst ex_write_run)) (snd (fst ex_write_run)) (snd ex_write_run)
    ltac:(vm_compute; reflexivity)) as [(_ & _ & err & Herr)|(_ & _ & _ & Hc)].
  - vm_compute in Herr. discriminate.
  - exact Hc.
Defined.

Lemma fs_limits_respected_witness : 3 <= fe_max_write_bytes ex_fs.
Proof.
  exact (proj1 (fs_limits_respected (SH := toy_sha) (RJ := toy_request_json) (OS := world_fs) ex_fs "tmp" 12 ex_write (FI_WriteBytes "new")
    (ex_permit ex_write) ex_fs_state (FO_FileWrite 3) (snd (fst ex_write_run)) (snd ex_write_run)
    ltac:(vm_compute; discriminate) ltac:(vm_compute; reflexivity))).
Defined.

Definition ex_cmd : CommandEnforcer :=
  {| cme_workspace_root := ["ws"]; cme_timeout_seconds := 60; cme_stdout_limit := 7;
     cme_stderr_limit := 10 |}.
Definition ex_command : ToolRequest :=
  ex_request CommandExecute (R_Command (mkCommandResource "echo" ["hello"])).
Definition ex_input : CommandInput :=
  {| ci_working_directory := None; ci_env_vars := [("CI", "1")]; ci_dry_run := false;
     ci_timeout_seconds := Some 7200 |}.
Definition ex_cmd_state : CmdState World := {| cs_world := ex_world; cs_log := [] |}.
Definition ex_cmd_run :=
  cmd_execute ex_cmd 12 ex_command ex_input (ex_permit ex_command) ex_cmd_state.
Definition ex_out : CommandOutcome :=
  {| co_executable := "echo"; co_exit_code := Some 0; co_stdout := "echohel"; co_stderr := "";
     co_duration := 1; co_risk := Risk_Low; co_dry_run := false |}.

Lemma cmd_spawns_safely_witness :
  exists cfg, cs_log (snd ex_cmd_run) = [cfg] /\ pc_timeout_secs cfg <= 3600.
Proof.
  destruct (cmd_spawns_safely (SH := toy_sha) (RJ := toy_request_json) (OS := world_fs) (PR := world_proc) ex_cmd 12 ex_command ex_input (ex_permit ex_command) ex_cmd_state
    (fst (fst ex_cmd_run)) (snd (fst ex_cmd_run)) (snd ex_cmd_run) ltac:(vm_compute; reflexivity))
    as [Hs|(cmd & cfg & _ & Hlog & _ & _ & _ & _ & _ & _ & _ & Ht & _)].
  - vm_compute in Hs. discriminate.
  - exists cfg. split; [exact Hlog|exact Ht].
Defined.

Lemma cmd_output_bounded_witness :
  exists run, truncated 7 (stream_data (run_stdout run)) "echohel".
Proof.
  destruct (cmd_output_bounded (SH := toy_sha) (RJ := toy_request_json) (OS := world_fs) (PR := world_proc) ex_cmd 12 ex_command ex_input (ex_permit ex_command) ex_cmd_state
    ex_out (snd (fst ex_cmd_run)) (snd ex_cmd_run) ltac:(vm_compute; discriminate)
    ltac:(vm_compute; discriminate) ltac:(vm_compute; reflexivity))
    as (cfg & run & _ & _ & _ & Ht & _).
  exists run. exact Ht.
Defined.

(** A child that never ends is killed at the deadline. *)
Definition ex_endless : ProcessRun :=
  {| run_try_wait _ := Ok None; run_elapsed n := Z.of_nat n * POLL_INTERVAL;
     run_reap := Ok tt; run_setup := 0; run_stdout := []; run_stderr := []; run_duration := 0 |}.

Lemma wait_terminates_witness : exists r, wait_timeout ex_endless 25000000 = Some r.
Proof.
  destruct (wait_terminates ex_endless 25000000) as (m & r & Hr & _);
    [intros n; simpl; lia|lia|exists r; exact Hr].
Defined.

(** The process gets [PATH] and the caller's variable, not the secret. *)
Example child_environment :
  map pc_env (cs_log (snd ex_cmd_run)) = [[("PATH", "/bin"); ("CI", "1")]].
Proof. by vm_compute. Qed.

(** *** Network *)

Definition ex_endpoint : NetworkResource :=
  {| net_scheme := NetworkScheme_raw "https"; net_host := NetworkHost_raw "example.com";
     net_port := None; net_path := mkNormalizedPath "/" "/" true |}.
Definition ex_fetch : ToolRequest := ex_request NetworkRequest (R_NetworkEndpoint ex_endpoint).
Definition ex_net_input : NetworkInput :=
  {| ni_method := None; ni_headers := [("Accept", "text/html")]; ni_body := None;
     ni_no_redirect := false; ni_timeout_seconds := None; ni_response_body_limit := Some 20 |}.
Definition ex_net_state : NetState World := {| ns_world := ex_world; ns_log := [] |}.
Definition ex_net_run :=
  net_execute NetworkEnforcer_default 12 ex_fetch ex_net_input (ex_permit ex_fetch) ex_net_state.
Definition ex_page : NetworkOutcome :=
  {| no_status := 200;
     no_headers := [("location", "https://www.example.com/home"); ("content-type", "text/html")];
     no_body := "hello world"; no_body_len := 11; no_redirect_count := 1;
     no_final_url := "https://www.example.com/home"; no_duration := 1 |}.

Lemma net_sends_safely_witness :
  ep_consumed (snd (fst ex_net_run)) = true /\
  hops NetworkEnforcer_default 6 (ns_log (snd ex_net_run)).
Proof.
  destruct (net_sends_safely (SH := toy_sha) (RJ := toy_request_json) (OS := world_net)
    NetworkEnforcer_default 12 ex_fetch ex_net_input (ex_permit ex_fetch) ex_net_state
    (fst (fst ex_net_run)) (snd (fst ex_net_run)) (snd ex_net_run) ltac:(vm_compute; reflexivity))
    as [Hs|(_ & Hc & calls & Hlog & Hh)].
  - vm_compute in Hs. discriminate.
  - split; [exact Hc|rewrite Hlog; exact Hh].
Defined.

Lemma net_response_bounded_witness : no_body_len ex_page <= 20.
Proof.
  exact (proj1 (proj2 (net_response_bounded (SH := toy_sha) (RJ := toy_request_json)
    (OS := world_net) NetworkEnforcer_default 12 ex_fetch ex_net_input (ex_permit ex_fetch)
    ex_net_state ex_page (snd (fst ex_net_run)) (snd ex_net_run)
    ltac:(vm_compute; discriminate) ltac:(vm_compute; reflexivity)))).
Defined.
