(* ===== verification/Runtime.v ===== *)
(** * The runtime

    crates/kavach-runtime/src (config.rs, error.rs, outcome.rs, registry.rs,
    runtime.rs and the guard of lib.rs).  The runtime composes the policy engine,
    the approval broker, the audit store, a redactor and the three adapters.  The
    adapters are used through the class [Adapter] on a common world; the redactor
    through the two methods of its trait.  Clock readings, random bytes, fresh
    identifiers and database faults are the arguments of a call ([RtEnv]). *)

From stdpp Require Import base tactics list strings.
From Stdlib Require Import ZArith Lia Ascii.
From S2P Require Import Prelude RustStr Utf8 BTree CoreError CoreIds CorePath CoreResource.
From S2P Require Import CoreRequest CoreDecision CorePermit PolicyModel PolicyEngine.
From S2P Require Import AuditModel ApprovalModel ApprovalBroker.
From S2P Require Import EnforceFs EnforceCmd EnforceNet.

Open Scope Z_scope.

(** ** Configuration and errors *)

(** [RuntimeConfig]; the time to live in nanoseconds. *)
Record RuntimeConfig := {
  rc_permit_ttl : Z;
  rc_audit_fail_closed : bool;
  rc_redaction_enabled : bool;
  rc_max_sanitized_summary_length : Z;
  rc_dry_run : bool;
}.

(** [RuntimeConfig::default]. *)
Definition RuntimeConfig_default : RuntimeConfig :=
  {| rc_permit_ttl := 300 * NANOS_PER_SEC; rc_audit_fail_closed := true;
     rc_redaction_enabled := true; rc_max_sanitized_summary_length := 4096; rc_dry_run := false |}.

(** [RuntimeError]. *)
Inductive RuntimeError :=
| RE_InvalidRequest (detail : string)
| RE_PolicyFailure (detail : string)
| RE_Denied (reason : string)
| RE_ApprovalFailure (detail : string)
| RE_AuditFailure (detail : string)
| RE_RedactionFailure (detail : string)
| RE_PermitFailure (detail : string)
| RE_PermitScopeMismatch (expected actual : PermitScope)
| RE_MissingAdapter (detail : string)
| RE_UnsupportedOperation (detail : string)
| RE_FilesystemFailure (detail : string)
| RE_CommandFailure (detail : string)
| RE_NetworkFailure (detail : string)
| RE_InvalidExecutionInput (detail : string)
| RE_DryRunExecutionRejected
| RE_ConfigurationFailure (detail : string)
| RE_InternalConsistencyFailure (detail : string).

(** [{:?}] on [PermitScope]. *)
Definition PermitScope_debug (s : PermitScope) : string :=
  match s with
  | FilesystemRead => "FilesystemRead"
  | FilesystemWrite => "FilesystemWrite"
  | FilesystemMutation => "FilesystemMutation"
  | CommandLowRisk => "CommandLowRisk"
  | CommandElevated => "CommandElevated"
  | CommandDestructive => "CommandDestructive"
  | PS_NetworkRequest => "NetworkRequest"
  end.

(** The [#[error]] texts. *)
Definition RuntimeError_display (e : RuntimeError) : string :=
  match e with
  | RE_InvalidRequest d => "invalid request: " +:+ d
  | RE_PolicyFailure d => "policy evaluation failed: " +:+ d
  | RE_Denied d => "request denied: " +:+ d
  | RE_ApprovalFailure d => "approval failure: " +:+ d
  | RE_AuditFailure d => "audit failure: " +:+ d
  | RE_RedactionFailure d => "redaction failure: " +:+ d
  | RE_PermitFailure d => "permit failure: " +:+ d
  | RE_PermitScopeMismatch x y =>
      "permit scope mismatch: expected " +:+ PermitScope_debug x +:+ ", got " +:+ PermitScope_debug y
  | RE_MissingAdapter d => "missing adapter for operation: " +:+ d
  | RE_UnsupportedOperation d => "unsupported operation: " +:+ d
  | RE_FilesystemFailure d => "filesystem enforcement failed: " +:+ d
  | RE_CommandFailure d => "command enforcement failed: " +:+ d
  | RE_NetworkFailure d => "network enforcement failed: " +:+ d
  | RE_InvalidExecutionInput d => "invalid execution input: " +:+ d
  | RE_DryRunExecutionRejected => "dry run execution rejected: cannot execute in dry-run mode"
  | RE_ConfigurationFailure d => "configuration failure: " +:+ d
  | RE_InternalConsistencyFailure d => "internal consistency failure: " +:+ d
  end.

(** ** Outcomes *)

(** [PermittedOutcome]; its accessors are the projections. *)
Record PermittedOutcome := PermittedOutcome_new {
  po_permit : ExecutionPermit;
  po_permit_secret : string;
}.

(** [RuntimeOutcome]. *)
Inductive RuntimeOutcome :=
| RO_Denied (request_id : RequestId) (reason_code : ReasonCode) (matched_rule_ids : list RuleId)
    (sanitized_summary : string) (audit_event_id : Z)
| RO_ApprovalRequired (request_id : RequestId) (approval_id : ApprovalId)
    (sanitized_summary : string) (audit_event_id : Z)
| RO_Permitted (outcome : PermittedOutcome).

(** [ExecutionInput]. *)
Inductive ExecutionInput :=
| EI_None
| EI_FilesystemWrite (data : string)
| EI_Command (input : CommandInput)
| EI_Network (input : NetworkInput).

(** [ExecutionResult]. *)
Inductive ExecutionResult :=
| ER_Filesystem (outcome : FilesystemOutcome)
| ER_Command (outcome : CommandOutcome)
| ER_Network (outcome : NetworkOutcome).

(** The [Redactor] trait: the redacted text, or the error's message. *)
Record Redactor := {
  redact_text : string -> result string string;
  redact_bytes : string -> result string string;
}.

Section Redaction.
Context {UL : UnicodeLower}.

(** The loop body over the headers of a response. *)
Definition redact_header (r : Redactor) (h : string * string) : result string (string * string) :=
  let lower := to_lowercase h.1 in
  if String.eqb lower "authorization" || String.eqb lower "set-cookie"
     || String.eqb lower "proxy-authenticate" || String.eqb lower "www-authenticate" then
    Ok (h.1, "[REDACTED]")
  else let? v := redact_text r h.2 in Ok (h.1, v).

(** [ExecutionResult::redacted]. *)
Definition ExecutionResult_redacted (r : Redactor) (res : ExecutionResult)
  : result string ExecutionResult :=
  match res with
  | ER_Filesystem (FO_FileRead bytes bytes_read) =>
      let? redacted := redact_bytes r bytes in
      Ok (ER_Filesystem (FO_FileRead redacted bytes_read))
  | ER_Filesystem (FO_DirectoryList entries) =>
      let? redacted_entries := map_result (redact_text r) entries in
      Ok (ER_Filesystem (FO_DirectoryList redacted_entries))
  | ER_Filesystem outcome => Ok (ER_Filesystem outcome)
  | ER_Command o =>
      let? redacted_stdout := redact_bytes r (co_stdout o) in
      let? redacted_stderr := redact_bytes r (co_stderr o) in
      Ok (ER_Command
            {| co_executable := co_executable o; co_exit_code := co_exit_code o;
               co_stdout := redacted_stdout; co_stderr := redacted_stderr;
               co_duration := co_duration o; co_risk := co_risk o; co_dry_run := co_dry_run o |})
  | ER_Network o =>
      let? redacted_body := redact_bytes r (no_body o) in
      let? headers := map_result (redact_header r) (no_headers o) in
      Ok (ER_Network
            {| no_status := no_status o; no_headers := headers; no_body := redacted_body;
               no_body_len := no_body_len o; no_redirect_count := no_redirect_count o;
               no_final_url := no_final_url o; no_duration := no_duration o |})
  end.

End Redaction.

(** ** The registry *)

(** [AdapterKind] and its [Debug] text. *)
Inductive AdapterKind := AK_Filesystem | AK_Command | AK_Network.

Definition AdapterKind_debug (k : AdapterKind) : string :=
  match k with
  | AK_Filesystem => "Filesystem"
  | AK_Command => "Command"
  | AK_Network => "Network"
  end.

(** [AdapterRegistry::resolve_operation]. *)
Definition resolve_operation (request : ToolRequest) : result RuntimeError AdapterKind :=
  match tr_operation request with
  | FileRead _ | FileWrite | FileCreate | FileDelete | FileMove _ | DirectoryList
  | DirectoryCreate | DirectoryDelete => Ok AK_Filesystem
  | CommandExecute => Ok AK_Command
  | NetworkRequest => Ok AK_Network
  | SecretAccess => Err (RE_MissingAdapter "SecretAccess adapter is not yet implemented")
  | ToolInvoke _ => Err (RE_MissingAdapter "ToolInvoke adapter is not yet implemented")
  end.

(** [AdapterRegistry]. *)
Record AdapterRegistry := {
  reg_filesystem : FilesystemEnforcer;
  reg_command : CommandEnforcer;
  reg_network : NetworkEnforcer;
}.

(** [AdapterRegistry::new_test]. *)
Definition AdapterRegistry_new_test `{FsOs W} (w : W) (workspace_root : OsPath)
  : result RuntimeError AdapterRegistry :=
  let? fs := map_err (fun e => RE_ConfigurationFailure (FilesystemError_display e))
               (FilesystemEnforcer_new w workspace_root) in
  let? cmd := map_err (fun e => RE_ConfigurationFailure (CommandError_display e))
                (CommandEnforcer_new w workspace_root) in
  Ok {| reg_filesystem := fs; reg_command := cmd; reg_network := NetworkEnforcer_default |}.

(** [scope_sufficient]. *)
Definition scope_sufficient (required actual : PermitScope) : bool :=
  if bool_decide (required = actual) then true
  else
    match required, actual with
    | CommandLowRisk, CommandElevated
    | CommandLowRisk, CommandDestructive
    | CommandElevated, CommandDestructive
    | FilesystemRead, FilesystemWrite
    | FilesystemRead, FilesystemMutation
    | FilesystemWrite, FilesystemMutation => true
    | _, _ => false
    end.

(** ** Summaries *)

(** [while !s.is_char_boundary(end) { end -= 1; }]. *)
Fixpoint floor_char_boundary (s : string) (e : nat) : nat :=
  if is_char_boundary s e then e else match e with O => O | S e' => floor_char_boundary s e' end.

(** ** Calls *)

(** What a call gets from outside: the successive clock readings, the faults,
    identifiers and timestamps of its audit appends, the bytes of [getrandom] and
    the circumstances of its broker calls. *)
Record RtEnv := {
  re_now : nat -> Z;
  re_append : nat -> AppendFaults;
  re_event_id : nat -> string;
  re_timestamp : nat -> string;
  re_random : result string string;
  re_broker : nat -> CallEnv;
}.

(** [format!("{resource:?}")] on an endpoint or a command. *)
Class ResourceDebug := { resource_debug : Resource -> string }.

(** [KavachRuntime]; the registry is the adapters of the section below, the two
    databases and the world are the state. *)
Record KavachRuntime `{GlobLib} := {
  rt_engine : PolicyEngine;
  rt_config : RuntimeConfig;
  rt_approval_config : ApprovalStoreConfig;
  rt_redactor : option Redactor;
}.

(** The databases and the world the adapters act on. *)
Record RtState (W : Type) := { rs_broker : BrokerState; rs_world : W }.
Arguments rs_broker {W} _.
Arguments rs_world {W} _.

Section Runtime.
Context {SH : Sha256} {HX : HexLib} {AJ : AuditJson} {CH : Rfc3339} {IE : IdsJsonError}.
Context {RJ : RequestJson} {GL : GlobLib} {UL : UnicodeLower} {RD : ResourceDebug}.
Variable rt : KavachRuntime.

Abbreviation call A := (stateful BrokerState RuntimeError A).
Abbreviation config := (rt_config rt).

(** The redactor the audit store is built with. *)
Definition audit_redactor : TextRedactor := option_map redact_text (rt_redactor rt).

(** A broker call, with [map_err(|e| RuntimeError::ApprovalFailure(e.to_string()))]. *)
Definition on_broker {A} (m : stateful BrokerState ApprovalError A) : call A :=
  fun s =>
    let '(r, s') := m s in
    (map_err (fun e => RE_ApprovalFailure (ApprovalError_display e)) r, s').

(** *** Helpers *)

(** [generate_permit_secret]. *)
Definition generate_permit_secret (env : RtEnv) : result RuntimeError string :=
  map_err (fun e => RE_InternalConsistencyFailure ("rng: " +:+ e)) (re_random env).

(** [sanitize_summary]. *)
Definition sanitize_summary (summary : string) : result RuntimeError string :=
  let? s :=
    if rc_redaction_enabled config then
      match rt_redactor rt with
      | Some redactor => map_err RE_RedactionFailure (redact_text redactor summary)
      | None => Ok summary
      end
    else Ok summary in
  if rc_max_sanitized_summary_length config <? len s then
    let e := floor_char_boundary s (Z.to_nat (rc_max_sanitized_summary_length config)) in
    Ok (fst (split_at e s))
  else Ok s.

(** The summary of a resource in [make_audit_input]. *)
Definition resource_summary (r : Resource) : string :=
  match r with
  | R_File path | R_Directory path => np_normalized path
  | R_Secret identifier | R_ExternalTool identifier => identifier
  | R_Unknown => "unknown"
  | resource => resource_debug resource
  end.

(** [make_audit_input]. *)
Definition make_audit_input (request : ToolRequest) (category : AuditEventCategory)
    (decision reason_code : option string) (matched_rule_ids : list RuleId) (metadata : str_map)
  : result RuntimeError AuditAppendInput :=
  let? summary := sanitize_summary (resource_summary (tr_resource request)) in
  Ok {| ai_category := category;
        ai_request_id := Some (id_str (tr_request_id request));
        ai_agent_id := Some (id_str (as_agent_id (tr_subject request)));
        ai_operation := Some (Operation_as_str (tr_operation request));
        ai_resource_kind := Some (ResourceKind_display (Resource_kind (tr_resource request)));
        ai_resource_summary := Some summary;
        ai_decision := decision;
        ai_reason_code := reason_code;
        ai_matched_rule_ids := map id_str matched_rule_ids;
        ai_metadata := metadata |}.

(** [append_audit], the [k]-th append of the call. *)
Definition append_audit (env : RtEnv) (k : nat) (input : AuditAppendInput) : call Z :=
  fun s =>
    let '(r, log) := AuditStore_append audit_redactor (re_append env k) (re_event_id env k)
                       (re_timestamp env k) (br_audit s) input in
    (match r with
     | Ok summary => Ok (pes_sequence summary)
     | Err e => if rc_audit_fail_closed config then Err (RE_AuditFailure (AuditError_display e))
                else Ok 0
     end,
     {| br_approvals := br_approvals s; br_audit := log |}).

(** [audit_decision]. *)
Definition audit_decision (env : RtEnv) (request : ToolRequest) (category : AuditEventCategory)
    (decision : AuthorizationDecision) : call Z :=
  let! input := st_lift (make_audit_input request category
                           (Some (DecisionEffect_as_str (ad_effect decision)))
                           (Some (ReasonCode_as_str (ad_reason decision)))
                           (ad_matched_rule_ids decision) []) in
  append_audit env 0 input.

(** [audit_execution_started]. *)
Definition audit_execution_started (env : RtEnv) (request : ToolRequest) (kind : AdapterKind)
  : call Z :=
  let metadata := bmap_insert "adapter" (AdapterKind_debug kind) [] in
  let! input := st_lift (make_audit_input request ExecutionStarted None None [] metadata) in
  append_audit env 0 input.

(** [audit_execution_result]. *)
Definition audit_execution_result (env : RtEnv) (request : ToolRequest) (kind : AdapterKind)
    (succeeded : bool) : call Z :=
  let category := if succeeded then ExecutionSucceeded else ExecutionFailed in
  let metadata := bmap_insert "succeeded" (if succeeded then "true" else "false")
                    (bmap_insert "adapter" (AdapterKind_debug kind) []) in
  let! input := st_lift (make_audit_input request category None None [] metadata) in
  append_audit env 1 input.

(** [finish_failed_execution]. *)
Definition finish_failed_execution {A} (env : RtEnv) (request : ToolRequest) (kind : AdapterKind)
    (error : RuntimeError) : call A :=
  let! _ := audit_execution_result env request kind false in
  st_lift (Err error).

(** *** Evaluation *)

(** The [Allow] arm of [evaluate]. *)
Definition evaluate_allow (env : RtEnv) (request : ToolRequest) (decision : AuthorizationDecision)
  : call RuntimeOutcome :=
  let scope := required_scope (tr_operation request) in
  let! secret := st_lift (generate_permit_secret env) in
  let digest := compute_request_digest request in
  let permit := ExecutionPermit_new (re_now env 1) secret (tr_request_id request) scope
                  (ad_matched_rule_ids decision) digest (rc_permit_ttl config) in
  let outcome := PermittedOutcome_new permit secret in
  let! _ := audit_decision env request DecisionAllow decision in
  st_ret (RO_Permitted outcome).

(** The [RequireApproval] arm. *)
Definition evaluate_approval (env : RtEnv) (request : ToolRequest)
    (decision : AuthorizationDecision) : call RuntimeOutcome :=
  let! summary := st_lift (sanitize_summary (ad_explanation decision)) in
  let approval_request := {| areq_request := request;
                             areq_matched_rule_ids := map id_str (ad_matched_rule_ids decision);
                             areq_summary := summary |} in
  let! pending := on_broker (request_approval (rt_approval_config rt) audit_redactor
                               (re_broker env 0) approval_request None) in
  let! record := on_broker (get_approval (re_broker env 1) (pa_approval_id pending)) in
  let! seq := st_lift (ok_or (RE_AuditFailure "approval request is missing its audit sequence")
                         (ar_audit_sequence record)) in
  st_ret (RO_ApprovalRequired (tr_request_id request) (pa_approval_id pending) summary seq).

(** The [Deny] arm. *)
Definition evaluate_deny (env : RtEnv) (request : ToolRequest) (decision : AuthorizationDecision)
  : call RuntimeOutcome :=
  let! summary := st_lift (sanitize_summary (ad_explanation decision)) in
  let! seq := audit_decision env request DecisionDeny decision in
  st_ret (RO_Denied (tr_request_id request) (ad_reason decision) (ad_matched_rule_ids decision)
            summary seq).

(** [evaluate]. *)
Definition evaluate (env : RtEnv) (request : ToolRequest) : call RuntimeOutcome :=
  let! _ := st_lift (map_err (fun e => RE_InvalidRequest (DomainValidationError_display e))
                       (ToolRequest_validate request)) in
  let decision := PolicyEngine_evaluate (rt_engine rt) (re_now env 0) request in
  match ad_effect decision with
  | Deny => evaluate_deny env request decision
  | RequireApproval => evaluate_approval env request decision
  | Allow => evaluate_allow env request decision
  end.

(** *** Approvals *)

(** [approve] and [deny]. *)
Definition rt_approve (env : RtEnv) (approval_id : ApprovalId) (actor : ApprovalActor)
  : call ApprovalToken := on_broker (approve audit_redactor (re_broker env 0) approval_id actor).

Definition rt_deny (env : RtEnv) (approval_id : ApprovalId) (actor : ApprovalActor)
    (reason : option string) : call unit :=
  on_broker (deny audit_redactor (re_broker env 0) approval_id actor reason).

(** [consume_approval]; [constant_time_eq] is equality of bytes. *)
Definition consume_approval (env : RtEnv) (request : ToolRequest) (approval_id : ApprovalId)
    (token : ApprovalToken) : call PermittedOutcome :=
  let digest := compute_request_digest request in
  let! approval := on_broker (get_approval (re_broker env 0) approval_id) in
  if negb (String.eqb digest (ar_request_digest approval)) then
    st_lift (Err (RE_PermitFailure "approval request digest does not match presented request"))
  else
    let! consumed := on_broker (consume audit_redactor (re_broker env 1) approval_id token) in
    if negb (String.eqb digest (ca_request_digest consumed)) then
      st_lift (Err (RE_PermitFailure "approval request digest does not match presented request"))
    else
      let scope := required_scope (tr_operation request) in
      let! secret := st_lift (generate_permit_secret env) in
      let! matched_ids :=
        st_lift (map_result
          (fun id => map_err (fun error => RE_ApprovalFailure
                                ("approval returned an invalid matched rule ID: "
                                 +:+ DomainError_display error)) (Id_new id))
          (ca_matched_rule_ids consumed)) in
      st_ret (PermittedOutcome_new
                (ExecutionPermit_new (re_now env 0) secret (tr_request_id request) scope matched_ids
                   digest (rc_permit_ttl config)) secret).

(** *** Execution *)

Context {W : Type}.
Context {FA : Adapter W FilesystemInput FilesystemOutcome}.
Context {CA : Adapter W CommandInput CommandOutcome}.
Context {NA : Adapter W NetworkInput NetworkOutcome}.

(** The checks of [execute] up to the choice of the adapter. *)
Definition execute_checks (env : RtEnv) (request : ToolRequest) (permit : ExecutionPermit)
    (permit_secret : string) : result RuntimeError AdapterKind :=
  if rc_dry_run config then Err RE_DryRunExecutionRejected
  else if negb (ExecutionPermit_verify_secret permit permit_secret) then
    Err (RE_PermitFailure "permit secret mismatch")
  else if ExecutionPermit_is_expired (re_now env 0) permit then
    Err (RE_PermitFailure "permit expired")
  else if ExecutionPermit_is_consumed permit then
    Err (RE_PermitFailure "permit already consumed")
  else if negb (ExecutionPermit_verify_request_digest permit (compute_request_digest request)) then
    Err (RE_PermitFailure "request digest mismatch")
  else
    let required := required_scope (tr_operation request) in
    if negb (scope_sufficient required (ep_scope permit)) then
      Err (RE_PermitScopeMismatch required (ep_scope permit))
    else resolve_operation request.

(** The [match adapter_kind] of [execute]; its early returns are the [Err] arm of
    the match that follows it. *)
Definition run_adapter (env : RtEnv) (kind : AdapterKind) (request : ToolRequest)
    (input : ExecutionInput) (permit : ExecutionPermit) (w : W)
  : result RuntimeError ExecutionResult * ExecutionPermit * W :=
  match kind with
  | AK_Filesystem =>
      let go (fs_input : FilesystemInput) :=
        match adapter_execute (Adapter := FA) (re_now env 1) request fs_input permit w with
        | (Ok o, p, w') => (Ok (ER_Filesystem o), p, w')
        | (Err e, p, w') => (Err (RE_FilesystemFailure e), p, w')
        end in
      match input with
      | EI_None => go FI_None
      | EI_FilesystemWrite data => go (FI_WriteBytes data)
      | _ => (Err (RE_InvalidExecutionInput
                     "expected FilesystemWrite or None for filesystem operation"), permit, w)
      end
  | AK_Command =>
      match input with
      | EI_Command ci =>
          match adapter_execute (Adapter := CA) (re_now env 1) request ci permit w with
          | (Ok o, p, w') => (Ok (ER_Command o), p, w')
          | (Err e, p, w') => (Err (RE_CommandFailure e), p, w')
          end
      | _ => (Err (RE_InvalidExecutionInput "expected CommandInput for command operation"),
              permit, w)
      end
  | AK_Network =>
      match input with
      | EI_Network ni =>
          match adapter_execute (Adapter := NA) (re_now env 1) request ni permit w with
          | (Ok o, p, w') => (Ok (ER_Network o), p, w')
          | (Err e, p, w') => (Err (RE_NetworkFailure e), p, w')
          end
      | _ => (Err (RE_InvalidExecutionInput "expected NetworkInput for network operation"),
              permit, w)
      end
  end.

(** Steps 7 and 8: redact, record, return. *)
Definition finish_execution (env : RtEnv) (request : ToolRequest) (kind : AdapterKind)
    (result : result RuntimeError ExecutionResult) : call ExecutionResult :=
  match result with
  | Ok exec_result =>
      let redacted :=
        if rc_redaction_enabled config then
          match rt_redactor rt with
          | Some r => ExecutionResult_redacted r exec_result
          | None => Ok exec_result
          end
        else Ok exec_result in
      match redacted with
      | Err error => finish_failed_execution env request kind (RE_RedactionFailure error)
      | Ok redacted =>
          let! _ := audit_execution_result env request kind true in
          st_ret redacted
      end
  | Err e => finish_failed_execution env request kind e
  end.

(** [execute]. *)
Definition execute (env : RtEnv) (request : ToolRequest) (permit : ExecutionPermit)
    (permit_secret : string) (input : ExecutionInput) (s : RtState W)
  : result RuntimeError ExecutionResult * ExecutionPermit * RtState W :=
  match execute_checks env request permit permit_secret with
  | Err e => (Err e, permit, s)
  | Ok kind =>
      match audit_execution_started env request kind (rs_broker s) with
      | (Err e, b) => (Err e, permit, {| rs_broker := b; rs_world := rs_world s |})
      | (Ok _, b) =>
          let '(result, permit', w') := run_adapter env kind request input permit (rs_world s) in
          let '(r, b') := finish_execution env request kind result b in
          (r, permit', {| rs_broker := b'; rs_world := w' |})
      end
  end.

End Runtime.

(** ** Construction *)

Section Build.
Context {GL : GlobLib} {W : Type} {OS : FsOs W}.

(** [reload_policies]: the runtime afterwards; it is unchanged on an error. *)
Definition reload_policies (policies : list Policy) (rt : KavachRuntime)
  : result RuntimeError KavachRuntime :=
  let? engine := map_err (fun e => RE_PolicyFailure (PolicyValidationError_display e))
                   (PolicyEngine_new policies) in
  Ok {| rt_engine := engine; rt_config := rt_config rt;
        rt_approval_config := rt_approval_config rt; rt_redactor := rt_redactor rt |}.

(** [RuntimeBuilder]. *)
Record RuntimeBuilder := {
  rb_config : RuntimeConfig;
  rb_policies : list Policy;
  rb_workspace_root : option OsPath;
  rb_approval_db_path : option string;
  rb_approval_store_config : ApprovalStoreConfig;
  rb_audit_db_path : option string;
  rb_redactor : option Redactor;
}.

(** [new], which is the derived [Default], and the setters. *)
Definition RuntimeBuilder_new : RuntimeBuilder :=
  {| rb_config := RuntimeConfig_default; rb_policies := []; rb_workspace_root := None;
     rb_approval_db_path := None; rb_approval_store_config := ApprovalStoreConfig_default;
     rb_audit_db_path := None; rb_redactor := None |}.

Definition with_config (config : RuntimeConfig) (b : RuntimeBuilder) : RuntimeBuilder :=
  {| rb_config := config; rb_policies := rb_policies b; rb_workspace_root := rb_workspace_root b;
     rb_approval_db_path := rb_approval_db_path b;
     rb_approval_store_config := rb_approval_store_config b;
     rb_audit_db_path := rb_audit_db_path b; rb_redactor := rb_redactor b |}.

Definition add_policy (b : RuntimeBuilder) (policy : Policy) : RuntimeBuilder :=
  {| rb_config := rb_config b; rb_policies := rb_policies b ++ [policy];
     rb_workspace_root := rb_workspace_root b; rb_approval_db_path := rb_approval_db_path b;
     rb_approval_store_config := rb_approval_store_config b;
     rb_audit_db_path := rb_audit_db_path b; rb_redactor := rb_redactor b |}.

Definition with_workspace_root (root : OsPath) (b : RuntimeBuilder) : RuntimeBuilder :=
  {| rb_config := rb_config b; rb_policies := rb_policies b; rb_workspace_root := Some root;
     rb_approval_db_path := rb_approval_db_path b;
     rb_approval_store_config := rb_approval_store_config b;
     rb_audit_db_path := rb_audit_db_path b; rb_redactor := rb_redactor b |}.

Definition with_approval_db (path : string) (b : RuntimeBuilder) : RuntimeBuilder :=
  {| rb_config := rb_config b; rb_policies := rb_policies b; rb_workspace_root := rb_workspace_root b;
     rb_approval_db_path := Some path; rb_approval_store_config := rb_approval_store_config b;
     rb_audit_db_path := rb_audit_db_path b; rb_redactor := rb_redactor b |}.

Definition with_approval_config (config : ApprovalStoreConfig) (b : RuntimeBuilder) : RuntimeBuilder :=
  {| rb_config := rb_config b; rb_policies := rb_policies b; rb_workspace_root := rb_workspace_root b;
     rb_approval_db_path := rb_approval_db_path b; rb_approval_store_config := config;
     rb_audit_db_path := rb_audit_db_path b; rb_redactor := rb_redactor b |}.

Definition with_audit_db (path : string) (b : RuntimeBuilder) : RuntimeBuilder :=
  {| rb_config := rb_config b; rb_policies := rb_policies b; rb_workspace_root := rb_workspace_root b;
     rb_approval_db_path := rb_approval_db_path b;
     rb_approval_store_config := rb_approval_store_config b;
     rb_audit_db_path := Some path; rb_redactor := rb_redactor b |}.

Definition builder_with_redactor (redactor : Redactor) (b : RuntimeBuilder) : RuntimeBuilder :=
  {| rb_config := rb_config b; rb_policies := rb_policies b; rb_workspace_root := rb_workspace_root b;
     rb_approval_db_path := rb_approval_db_path b;
     rb_approval_store_config := rb_approval_store_config b;
     rb_audit_db_path := rb_audit_db_path b; rb_redactor := Some redactor |}.

(** [build]: [current_dir] is the default workspace, [default_redactor] the composite
    redactor built with default settings; the last two arguments are what opening a
    database at a path yields, or one in memory. *)
Definition build (b : RuntimeBuilder) (w : W) (current_dir : OsPath) (default_redactor : Redactor)
    (open_audit : option string -> result AuditError AuditTable)
    (open_approvals : option string -> result ApprovalError ApprovalTable)
  : result RuntimeError (KavachRuntime * AdapterRegistry * BrokerState) :=
  let redactor := if rc_redaction_enabled (rb_config b)
                  then Some (default default_redactor (rb_redactor b)) else rb_redactor b in
  let? engine := map_err (fun e => RE_PolicyFailure (PolicyValidationError_display e))
                   (PolicyEngine_new (rb_policies b)) in
  let workspace_root := default current_dir (rb_workspace_root b) in
  let? registry := AdapterRegistry_new_test w workspace_root in
  let? audit_store := map_err (fun e => RE_ConfigurationFailure (AuditError_display e))
                        (open_audit (rb_audit_db_path b)) in
  let? approvals := map_err (fun e => RE_ApprovalFailure (ApprovalError_display e))
                      (let? _ := validate_config (rb_approval_store_config b) in
                       open_approvals (rb_approval_db_path b)) in
  Ok ({| rt_engine := engine; rt_config := rb_config b;
         rt_approval_config := rb_approval_store_config b; rt_redactor := redactor |},
      registry, {| br_approvals := approvals; br_audit := audit_store |}).

End Build.

(** ** The legacy guard (lib.rs) *)

(** [GuardError]; only [Internal] is ever returned. *)
Inductive GuardError := GE_InvalidRequest (detail : string) | GE_Internal (detail : string).

(** [GuardOutcome]. *)
Inductive GuardOutcome :=
| GO_Denied (reason : string) (matched_rule_ids : list RuleId)
| GO_ApprovalRequired (reason : string) (matched_rule_ids : list RuleId)
| GO_Permitted (permit : ExecutionPermit).

(** [PolicyGuard] and [PolicyGuard::new]. *)
Record PolicyGuard `{GlobLib} := { pg_engine : PolicyEngine; pg_permit_ttl : Z }.

Definition PolicyGuard_new `{GlobLib} (policies : list Policy) (permit_ttl : Z)
  : result PolicyValidationError PolicyGuard :=
  let? engine := PolicyEngine_new policies in
  Ok {| pg_engine := engine; pg_permit_ttl := permit_ttl |}.

(** [PolicyGuard::evaluate]. *)
Definition guard_evaluate `{GlobLib, UnicodeLower, Sha256, RequestJson} (g : PolicyGuard)
    (env : RtEnv) (request : ToolRequest) : result GuardError GuardOutcome :=
  let decision := PolicyEngine_evaluate (pg_engine g) (re_now env 0) request in
  let matched := ad_matched_rule_ids decision in
  let reason := ad_explanation decision in
  match ad_effect decision with
  | Deny => Ok (GO_Denied reason matched)
  | RequireApproval => Ok (GO_ApprovalRequired reason matched)
  | Allow =>
      let? secret := map_err (fun e => GE_Internal ("failed to generate permit secret: " +:+ e))
                       (re_random env) in
      Ok (GO_Permitted
            (ExecutionPermit_new (re_now env 1) secret (tr_request_id request)
               (required_scope (tr_operation request)) matched (compute_request_digest request)
               (pg_permit_ttl g)))
  end.
