(* ===== verification/RuntimeSpec.v ===== *)
(** * What a call on the runtime can do

    The audit records a call leaves, the stages of an execution and the content of
    an evaluation, proved against the interface of the adapters ([AdapterLaws]). *)

From stdpp Require Import base tactics list strings.
From Stdlib Require Import ZArith Lia Ascii.
From S2P Require Import Prelude RustStr BTree CoreError CoreIds CorePath CoreResource.
From S2P Require Import CoreRequest CoreDecision CorePermit PolicyModel PolicyEngine PolicySpec.
From S2P Require Import AuditModel AuditVerify AuditChain ApprovalModel ApprovalBroker.
From S2P Require Import ApprovalSpec ApprovalLife.
From S2P Require Import EnforceFs EnforceCmd EnforceNet Runtime.

Open Scope Z_scope.

Section Spec.
Context {SH : Sha256} {HX : HexLib} {AJ : AuditJson} {CH : Rfc3339} {IE : IdsJsonError}.
Context {RJ : RequestJson} {GL : GlobLib} {UL : UnicodeLower} {RD : ResourceDebug}.
Variable rt : KavachRuntime.

Abbreviation config := (rt_config rt).

(** ** Records *)

(** The log gained one event of category [c] about [request]. *)
Definition records (c : AuditEventCategory) (request : ToolRequest) (log log' : AuditTable) : Prop :=
  exists input faults eid ts sum,
    append_result (audit_redactor rt) faults eid ts log input = Ok (sum, log') /\
    ai_category input = c /\ ai_request_id input = Some (id_str (tr_request_id request)) /\
    ai_operation input = Some (Operation_as_str (tr_operation request)).

(** An attempt to record: the event is there and the attempt succeeds, or nothing
    is, which is an error if the runtime fails closed. *)
Definition tries_to_record (c : AuditEventCategory) (request : ToolRequest) (s : BrokerState)
    (r : result RuntimeError Z) (s' : BrokerState) : Prop :=
  br_approvals s' = br_approvals s /\
  ((records c request (br_audit s) (br_audit s') /\ is_ok r = true) \/
   (br_audit s' = br_audit s /\ (rc_audit_fail_closed config = true -> is_ok r = false))).

Lemma append_audit_inv env k input s r s' :
  append_audit rt env k input s = (r, s') ->
  br_approvals s' = br_approvals s /\
  ((exists sum, append_result (audit_redactor rt) (re_append env k) (re_event_id env k)
      (re_timestamp env k) (br_audit s) input = Ok (sum, br_audit s') /\ r = Ok (pes_sequence sum)) \/
   (br_audit s' = br_audit s /\ (rc_audit_fail_closed config = true -> is_ok r = false))).
Proof.
  unfold append_audit, AuditStore_append.
  destruct (append_result _ _ _ _ _ _) as [[sum log]|err] eqn:Ea; intros [= <- <-]; simpl;
    (split; [done|]); [by left; eauto|right]. split; [done|]. by intros ->.
Qed.

Lemma record_inv env k c request d rc ids meta s r s' :
  (let! input := st_lift (make_audit_input rt request c d rc ids meta) in append_audit rt env k input) s
    = (r, s') ->
  tries_to_record c request s r s'.
Proof.
  unfold make_audit_input, st_bind, st_lift, tries_to_record.
  destruct (sanitize_summary rt _) as [sm|err]; [|intros [= <- <-]; split; [done|right; eauto]].
  intros [Happ [(sum & Ha & ->)|Hno]]%append_audit_inv; (split; [done|]); [left|by right].
  split; [|done]. by eexists _, _, _, _, sum.
Qed.

Lemma audit_started_inv env request kind s r s' :
  audit_execution_started rt env request kind s = (r, s') ->
  tries_to_record ExecutionStarted request s r s'.
Proof. apply record_inv. Qed.

Lemma audit_result_inv env request kind succeeded s r s' :
  audit_execution_result rt env request kind succeeded s = (r, s') ->
  tries_to_record (if succeeded then ExecutionSucceeded else ExecutionFailed) request s r s'.
Proof. apply record_inv. Qed.

Lemma audit_decision_inv env request c decision s r s' :
  audit_decision rt env request c decision s = (r, s') -> tries_to_record c request s r s'.
Proof. apply record_inv. Qed.

(** ** The end of an execution *)

(** A failed execution leaves its event, or none if recording fails too. *)
Lemma failed_inv {A} env request kind error s (r : result RuntimeError A) s' :
  finish_failed_execution rt env request kind error s = (r, s') ->
  (exists e, r = Err e) /\ br_approvals s' = br_approvals s /\
  (records ExecutionFailed request (br_audit s) (br_audit s') \/ br_audit s' = br_audit s).
Proof.
  unfold finish_failed_execution. intros [(e & Ha & ->)|(seq & s1 & Ha & [= <- <-])]%st_bind_inv;
    apply audit_result_inv in Ha as [Happ Hr]; (split_and!; [eauto|done|]);
    destruct Hr as [[Hr _]|[Hr _]]; eauto.
Qed.

(** What [finish_execution] makes of the adapter's result. *)
Definition released (res : result RuntimeError ExecutionResult) (out : ExecutionResult) : Prop :=
  exists raw, res = Ok raw /\
    if rc_redaction_enabled config then
      match rt_redactor rt with
      | Some red => ExecutionResult_redacted red raw = Ok out
      | None => out = raw
      end
    else out = raw.

Lemma finish_execution_inv env request kind res s r s' :
  finish_execution rt env request kind res s = (r, s') ->
  br_approvals s' = br_approvals s /\
  match r with
  | Ok out => released res out /\
      (records ExecutionSucceeded request (br_audit s) (br_audit s') \/
       rc_audit_fail_closed config = false /\ br_audit s' = br_audit s)
  | Err _ =>
      records ExecutionFailed request (br_audit s) (br_audit s') \/ br_audit s' = br_audit s
  end.
Proof.
  unfold finish_execution. destruct res as [raw|err]; [|by intros ([e ->] & Ht)%failed_inv].
  destruct (if rc_redaction_enabled config then _ else _) as [out|err] eqn:Er;
    [|by intros ([e ->] & Ht)%failed_inv].
  intros [(e & [Happ Ha]%audit_result_inv & ->)|(seq & s1 & [Happ Ha]%audit_result_inv & [= <- <-])]%st_bind_inv;
    (split; [done|]).
  { right. by destruct Ha as [[_ [=]]|[Ha _]]. }
  split.
  - exists raw. split; [done|]. destruct (rc_redaction_enabled config); [|congruence].
    destruct (rt_redactor rt); congruence.
  - destruct Ha as [[Ha _]|[Ha Hfc]]; [by left|right].
    destruct (rc_audit_fail_closed config); [by specialize (Hfc eq_refl)|done].
Qed.

(** ** Broker calls *)

Lemma on_broker_inv {A} (m : stateful BrokerState ApprovalError A) s r s' :
  on_broker m s = (r, s') ->
  exists v, m s = (v, s') /\ r = map_err (fun e => RE_ApprovalFailure (ApprovalError_display e)) v.
Proof. unfold on_broker. destruct (m s) as [v t]. intros [= <- <-]. eauto. Qed.

Lemma on_broker_ok {A} (m : stateful BrokerState ApprovalError A) s a s' :
  on_broker m s = (Ok a, s') -> m s = (Ok a, s').
Proof. intros (v & Hm & Hv)%on_broker_inv. symmetry in Hv. by apply map_err_ok in Hv as ->. Qed.

Lemma get_approval_inv env id s r s' :
  get_approval env id s = (r, s') ->
  s' = s /\ forall rec, r = Ok rec -> exists row,
    List.find (has_id (id_str id)) (br_approvals s) = Some row /\ row_to_record row = Ok rec.
Proof.
  unfold get_approval, st_bind, ask_store, st_lift.
  destruct (load _ _ _) as [o|err] eqn:El; [|by intros [= <- <-]].
  unfold load in El. apply read_query_ok in El. injection El as <-.
  destruct (List.find _ _) as [row|] eqn:Ef; cbn [ok_or]; intros [= <- <-]; (split; [done|]);
    intros rec Hrec; [eauto|done].
Qed.

Lemma row_to_record_digest row rec :
  row_to_record row = Ok rec ->
  hex_decode (apr_request_digest_hex row) = Ok (ar_request_digest rec).
Proof.
  unfold row_to_record. intros Hr.
  destruct (hex_decode _) as [bytes|]; [|done]. cbn [map_err] in Hr.
  unfold hash_from_blob in Hr. destruct (len bytes =? 32); [|done]. cbn [ok_or] in Hr.
  repeat (case_match; [|done]). injection Hr as <-. done.
Qed.

(** A successful request: exactly one pending row, bound to the request, and its
    event. *)
Lemma request_approval_ok env request s p s' :
  request_approval (rt_approval_config rt) (audit_redactor rt) env request None s = (Ok p, s') ->
  pa_approval_id p = Id_raw (ce_uuid env) /\
  exists row seq, br_approvals s' = br_approvals s ++ [row] /\
    apr_approval_id row = ce_uuid env /\ apr_state row = "pending" /\ apr_token_hash row = None /\
    apr_request_digest_hex row = hex_encode (compute_request_digest (areq_request request)) /\
    apr_summary row = areq_summary request /\
    logged (audit_redactor rt) ApprovalRequested seq (br_audit s) (br_audit s').
Proof.
  unfold request_approval. intros (q & s1 & (-> & _ & ->)%request_check_ok & Hi)%st_bind_ok.
  apply request_insert_ok in Hi as (json & seq & -> & _ & _ & Happ & Hlog).
  split; [done|]. by eexists _, seq.
Qed.

(** ** The stages of an execution *)

Context {W : Type}.
Context {FA : Adapter W FilesystemInput FilesystemOutcome} {FAL : AdapterLaws (H1 := FA)}.
Context {CA : Adapter W CommandInput CommandOutcome} {CAL : AdapterLaws (H1 := CA)}.
Context {NA : Adapter W NetworkInput NetworkOutcome} {NAL : AdapterLaws (H1 := NA)}.

(** The runtime's own view of a permit it accepts for [request] at time [now]. *)
Definition permit_accepted (now : Z) (request : ToolRequest) (secret : string)
    (p : ExecutionPermit) : Prop :=
  rc_dry_run config = false /\ sha256 secret = ep_token_hash p /\
  permit_admits now request p /\
  scope_sufficient (required_scope (tr_operation request)) (ep_scope p) = true.

Lemma execute_checks_ok env request p secret kind :
  execute_checks rt env request p secret = Ok kind ->
  permit_accepted (re_now env 0) request secret p /\ resolve_operation request = Ok kind.
Proof.
  unfold execute_checks, permit_accepted, permit_admits.
  destruct (rc_dry_run config); [done|].
  destruct (ExecutionPermit_verify_secret p secret) eqn:Es; [|done]. cbn [negb].
  destruct (ExecutionPermit_is_expired _ p) eqn:Ex; [done|].
  destruct (ExecutionPermit_is_consumed p) eqn:Ec; [done|].
  destruct (ExecutionPermit_verify_request_digest p _) eqn:Ed; [|done]. cbn [negb].
  destruct (scope_sufficient _ _) eqn:Esc; [|done]. cbn [negb]. intros Hk.
  apply String.eqb_eq in Es, Ed. split; [|done]. split_and!; try done.
  unfold ExecutionPermit_is_valid. by rewrite Ex, Ec.
Qed.

(** An adapter that acts has consumed a permit that admits the request. *)
Lemma run_adapter_gate env kind request input p (w : W) r p' w' :
  run_adapter (FA := FA) (CA := CA) (NA := NA) env kind request input p w = (r, p', w') ->
  (p' = p /\ w' = w /\ exists e, r = Err e) \/
  (permit_admits (re_now env 1) request p /\ p' = snd (ExecutionPermit_consume p)).
Proof.
  unfold run_adapter. intros Hr.
  destruct kind, input; try (injection Hr as <- <- <-; by left; eauto);
    (destruct (adapter_execute _ _ _ _ _) as [[v q] u] eqn:E in Hr;
     apply adapter_gate in E;
     destruct E as [(-> & -> & err & ->)|E]; [injection Hr as <- <- <-; left; eauto|right];
     destruct v; injection Hr as <- <- <-; exact E).
Qed.

(** [execute] refuses, fails to record its start, or runs an adapter and finishes. *)
Lemma execute_inv env request p secret input (s : RtState W) r p' s' :
  execute rt (FA := FA) (CA := CA) (NA := NA) env request p secret input s = (r, p', s') ->
  (p' = p /\ s' = s /\ exists e, r = Err e) \/
  exists kind v b, permit_accepted (re_now env 0) request secret p /\
    resolve_operation request = Ok kind /\
    audit_execution_started rt env request kind (rs_broker s) = (v, b) /\
    ((exists e, v = Err e /\ r = Err e /\ p' = p /\
        s' = {| rs_broker := b; rs_world := rs_world s |}) \/
     exists seq res, v = Ok seq /\
       run_adapter (FA := FA) (CA := CA) (NA := NA) env kind request input p (rs_world s)
         = (res, p', rs_world s') /\
       finish_execution rt env request kind res b = (r, rs_broker s')).
Proof.
  unfold execute. destruct (execute_checks rt env request p secret) as [kind|e] eqn:Ek;
    [|intros [= <- <- <-]; left; eauto].
  apply execute_checks_ok in Ek as [Hp Hk].
  destruct (audit_execution_started rt env request kind (rs_broker s)) as [v b] eqn:Ea.
  intros Hr. right. exists kind, v, b. split_and!; [done..|].
  destruct v as [seq|e]; [right|left; injection Hr as <- <- <-; eauto].
  destruct (run_adapter _ _ _ _ _ _) as [[res q] w'] eqn:Era.
  destruct (finish_execution rt env request kind res b) as [x b'] eqn:Ef.
  injection Hr as <- <- <-. simpl. eauto 8.
Qed.

End Spec.
