(* ===== verification/RuntimeProps.v ===== *)
(** * Properties of the runtime *)

From stdpp Require Import base tactics list strings.
From Stdlib Require Import ZArith Lia Ascii.
From S2P Require Import Prelude RustStr BTree CoreError CoreIds CorePath CoreResource.
From S2P Require Import CoreRequest CoreDecision CorePermit PolicyModel PolicyEngine PolicySpec.
From S2P Require Import AuditModel AuditVerify AuditChain ApprovalModel ApprovalBroker.
From S2P Require Import ApprovalSpec ApprovalLife.
From S2P Require Import EnforceFs EnforceCmd EnforceNet Runtime RuntimeSpec.

Open Scope Z_scope.

Section Execution.
Context {SH : Sha256} {HX : HexLib} {AJ : AuditJson} {CH : Rfc3339} {IE : IdsJsonError}.
Context {RJ : RequestJson} {GL : GlobLib} {UL : UnicodeLower} {RD : ResourceDebug}.
Context {W : Type}.
Context {FA : Adapter W FilesystemInput FilesystemOutcome} {FAL : AdapterLaws (H1 := FA)}.
Context {CA : Adapter W CommandInput CommandOutcome} {CAL : AdapterLaws (H1 := CA)}.
Context {NA : Adapter W NetworkInput NetworkOutcome} {NAL : AdapterLaws (H1 := NA)}.
Variable rt : KavachRuntime.

Abbreviation exec := (execute rt (FA := FA) (CA := CA) (NA := NA)).

(** An execution that succeeds or touches the world did so under a permit
    that passed every check: not a dry run, the right secret, unexpired both when
    the runtime and when the adapter looked, unused, bound to this very request and
    of a sufficient scope; that permit is consumed afterwards.  Any other execution
    leaves the permit and the world as they were and returns an error. *)
Theorem execute_gated env request p secret input s r p' s' :
  exec env request p secret input s = (r, p', s') ->
  (p' = p /\ rs_world s' = rs_world s /\ exists e, r = Err e) \/
  (rc_dry_run (rt_config rt) = false /\ sha256 secret = ep_token_hash p /\
   ep_consumed p = false /\ re_now env 0 < ep_expires_at p /\ re_now env 1 < ep_expires_at p /\
   ep_request_digest p = compute_request_digest request /\
   scope_sufficient (required_scope (tr_operation request)) (ep_scope p) = true /\
   ep_consumed p' = true).
Proof.
  intros [(-> & -> & He)|(kind & v & b & (Hd & Hs & [Hv Hq] & Hsc) & Hk & Ha & Hx)]%execute_inv;
    [by left|].
  destruct Hx as [(e & _ & -> & -> & ->)|(seq & res & _ & Hrun & Hf)]; [left; simpl; eauto|].
  apply run_adapter_gate in Hrun as [(-> & -> & err & ->)|[[Hv1 _] ->]].
  - left. split_and!; [done..|]. unfold finish_execution in Hf. by apply failed_inv in Hf as [He _].
  - right. apply ExecutionPermit_is_valid_spec in Hv as [Hx Hc], Hv1 as [Hx1 _].
    split_and!; try done. apply consume_consumed.
Qed.

(** A list of execution attempts with one permit: the results, the permit and the
    state afterwards. *)
Fixpoint attempts (calls : list (RtEnv * ToolRequest * string * ExecutionInput))
    (p : ExecutionPermit) (s : RtState W)
  : list (result RuntimeError ExecutionResult) * ExecutionPermit * RtState W :=
  match calls with
  | [] => ([], p, s)
  | (env, request, secret, input) :: rest =>
      let '(r, p1, s1) := exec env request p secret input s in
      let '(rs, p2, s2) := attempts rest p1 s1 in
      (r :: rs, p2, s2)
  end.

(** Nothing can be done with a consumed permit. *)
Lemma consumed_permit_inert calls p s rs p' s' :
  ep_consumed p = true -> attempts calls p s = (rs, p', s') ->
  rs_world s' = rs_world s /\ Forall (fun r => exists e, r = Err e) rs.
Proof.
  revert p s rs. induction calls as [|[[[env request] secret] input] calls IH]; intros p s rs Hc;
    cbn [attempts]; [by intros [= <- <- <-]|].
  destruct (exec env request p secret input s) as [[r p1] s1] eqn:Ex.
  destruct (attempts calls p1 s1) as [[rs1 p2] s2] eqn:Ea. intros [= <- <- <-].
  apply execute_inv in Ex as [(-> & -> & He)|(kind & v & b & (_ & _ & [Hv _] & _) & _)].
  - destruct (IH _ _ _ Hc Ea) as [Hw Hrs]. split; [done|]. by apply Forall_cons.
  - apply ExecutionPermit_is_valid_spec in Hv as [_ Hv]. congruence.
Qed.

(** A permit executes once: after an attempt that succeeded or touched the
    world, every further attempt with that permit, whatever the request, secret,
    input and time, fails and leaves the world alone. *)
Theorem permit_executes_once env request p secret input s r p1 s1 calls rs p2 s2 :
  exec env request p secret input s = (r, p1, s1) ->
  ~ (rs_world s1 = rs_world s /\ exists e, r = Err e) ->
  attempts calls p1 s1 = (rs, p2, s2) ->
  rs_world s2 = rs_world s1 /\ Forall (fun r => exists e, r = Err e) rs.
Proof.
  intros Hx Heff. apply consumed_permit_inert.
  apply execute_inv in Hx as [(_ & -> & He)|(kind & v & b & _ & _ & _ & Hx)]; [by destruct Heff|].
  destruct Hx as [(e & _ & -> & _ & ->)|(seq & res & _ & Hrun & Hf)];
    [destruct Heff; simpl; eauto|].
  apply run_adapter_gate in Hrun as [(_ & Hw & err & ->)|[_ ->]]; [|apply consume_consumed].
  apply failed_inv in Hf as [He _]. by destruct Heff.
Qed.

(** (C19) With a runtime that fails closed, every execution is on record: one that
    leaves no ExecutionStarted event has done nothing and fails; otherwise that event
    precedes the adapter, a success is followed by exactly an ExecutionSucceeded
    event, and an error by an ExecutionFailed event, or by none if recording it
    failed too.  No approval is touched. *)
Theorem execute_audited env request p secret input s r p' s' :
  rc_audit_fail_closed (rt_config rt) = true ->
  exec env request p secret input s = (r, p', s') ->
  br_approvals (rs_broker s') = br_approvals (rs_broker s) /\
  ((p' = p /\ rs_world s' = rs_world s /\ (exists e, r = Err e) /\
    br_audit (rs_broker s') = br_audit (rs_broker s)) \/
   exists log, records rt ExecutionStarted request (br_audit (rs_broker s)) log /\
     match r with
     | Ok _ => records rt ExecutionSucceeded request log (br_audit (rs_broker s'))
     | Err _ => records rt ExecutionFailed request log (br_audit (rs_broker s')) \/
                br_audit (rs_broker s') = log
     end).
Proof.
  intros Hfc [(-> & -> & He)|(kind & v & b & _ & _ & Ha & Hx)]%execute_inv; [by eauto 8|].
  apply audit_started_inv in Ha as [Happ Hst].
  destruct Hx as [(e & -> & -> & -> & ->)|(seq & res & -> & Hrun & Hf)]; simpl.
  { split; [done|]. left. destruct Hst as [[_ [=]]|[Hst _]]; eauto 8. }
  destruct Hst as [[Hst _]|[_ Hbad]]; [|by specialize (Hbad Hfc)].
  apply finish_execution_inv in Hf as [Happ' Hf]. split; [congruence|right].
  exists (br_audit b). split; [done|]. destruct r; [|done].
  destruct Hf as [_ [Hf|[Hf _]]]; [done|congruence].
Qed.

(** The texts an execution result carries out of the sandbox. *)
Definition exposed_texts (res : ExecutionResult) : list string :=
  match res with
  | ER_Filesystem (FO_FileRead bytes _) => [bytes]
  | ER_Filesystem (FO_DirectoryList entries) => entries
  | ER_Filesystem _ => []
  | ER_Command o => [co_stdout o; co_stderr o]
  | ER_Network o => no_body o :: map snd (no_headers o)
  end.

(** A text that is the redactor's own output, or the mask. *)
Definition masked (red : Redactor) (t : string) : Prop :=
  t = "[REDACTED]" \/ (exists x, redact_bytes red x = Ok t) \/ exists x, redact_text red x = Ok t.

Lemma redacted_masked red raw out :
  ExecutionResult_redacted red raw = Ok out -> Forall (masked red) (exposed_texts out).
Proof.
  intros Hr. destruct raw as [o|o|o]; simpl in Hr.
  - destruct o; simpl in Hr; try (injection Hr as <-; by apply Forall_nil).
    + destruct (redact_bytes red bytes) as [t|] eqn:E; [|done]. injection Hr as <-.
      apply Forall_singleton. right. eauto.
    + destruct (map_result _ entries) as [ts|] eqn:E; [|done]. injection Hr as <-.
      apply map_result_ok in E. clear - E. simpl.
      induction E as [|x t xs ts Hx E IH]; [by apply Forall_nil|]. apply Forall_cons.
      split; [right; right; by exists x|done].
  - destruct (redact_bytes red (co_stdout o)) as [t1|] eqn:E1; [|done].
    destruct (redact_bytes red (co_stderr o)) as [t2|] eqn:E2; [|done]. injection Hr as <-. simpl.
    apply Forall_cons. split; [right; eauto|]. apply Forall_singleton. right. eauto.
  - destruct (redact_bytes red (no_body o)) as [t1|] eqn:E1; [|done].
    destruct (map_result _ (no_headers o)) as [hs|] eqn:E2; [|done]. injection Hr as <-. simpl.
    apply Forall_cons. split; [right; eauto|]. apply map_result_ok in E2. clear - E2.
    induction E2 as [|[n v] h xs hs Hx E IH]; [by apply Forall_nil|]. simpl. apply Forall_cons.
    split; [|done]. unfold redact_header in Hx. simpl in Hx.
    destruct (_ || _); [injection Hx as <-; by left|].
    destruct (redact_text red v) as [t|] eqn:Et; [|done]. injection Hx as <-. right. right. by exists v.
Qed.

(** With redaction enabled nothing unredacted leaves: every file content,
    directory entry, output stream, body and header value of a successful execution
    is an output of the redactor or the fixed mask.  (A redactor that fails makes
    the execution fail.) *)
Theorem execute_output_redacted red env request p secret input s out p' s' :
  rc_redaction_enabled (rt_config rt) = true -> rt_redactor rt = Some red ->
  exec env request p secret input s = (Ok out, p', s') ->
  Forall (masked red) (exposed_texts out).
Proof.
  intros Hen Hred [(_ & _ & e & [=])|(kind & v & b & _ & _ & _ & Hx)]%execute_inv.
  destruct Hx as [(e & _ & [=] & _)|(seq & res & _ & _ & Hf)].
  apply finish_execution_inv in Hf as (_ & (raw & _ & Hrel) & _). rewrite Hen, Hred in Hrel.
  by eapply redacted_masked.
Qed.

End Execution.

(** ** Evaluation and approvals *)

Section Evaluation.
Context {SH : Sha256} {HX : HexLib} {AJ : AuditJson} {CH : Rfc3339} {IE : IdsJsonError}.
Context {RJ : RequestJson} {GL : GlobLib} {GLL : GlobLaws} {UL : UnicodeLower} {RD : ResourceDebug}.
Variable rt : KavachRuntime.

(** A fresh permit for [request], whose secret is [secret]. *)
Definition fresh_permit (now : Z) (request : ToolRequest) (ids : list RuleId) (secret : string)
    (p : ExecutionPermit) : Prop :=
  p = ExecutionPermit_new now secret (tr_request_id request) (required_scope (tr_operation request))
        ids (compute_request_digest request) (rc_permit_ttl (rt_config rt)).

(** The decision is on record, unless the runtime does not fail closed. *)
Definition on_record (c : AuditEventCategory) (request : ToolRequest) (s s' : BrokerState) : Prop :=
  br_approvals s' = br_approvals s /\
  (records rt c request (br_audit s) (br_audit s') \/
   rc_audit_fail_closed (rt_config rt) = false /\ br_audit s' = br_audit s).

Lemma decision_on_record env request c d s z s' :
  audit_decision rt env request c d s = (Ok z, s') -> on_record c request s s'.
Proof.
  intros [Happ [[Hr _]|[Hl Hfc]]]%audit_decision_inv; (split; [done|]); [by left|right].
  destruct (rc_audit_fail_closed _); [by specialize (Hfc eq_refl)|done].
Qed.

(** (C3) An evaluation hands out exactly what the policies decide.  A permit is
    issued only for a request the policies allow, fresh, bound to the request, and
    with the decision on record; a denial reports the policies' reason and rules and
    is on record; an approval is requested only where the policies ask for one, and
    leaves exactly one new pending row bound to the request. *)
Theorem evaluate_sound ps env request s out s' :
  PolicyEngine_new ps = Ok (rt_engine rt) ->
  evaluate rt env request s = (Ok out, s') ->
  match out with
  | RO_Permitted o => exists reason ids,
      decision_spec ps request Allow reason ids /\
      re_random env = Ok (po_permit_secret o) /\
      fresh_permit (re_now env 1) request ids (po_permit_secret o) (po_permit o) /\
      on_record DecisionAllow request s s'
  | RO_Denied id reason ids _ _ =>
      decision_spec ps request Deny reason ids /\ id = tr_request_id request /\
      on_record DecisionDeny request s s'
  | RO_ApprovalRequired id approval_id summary _ => exists reason ids row seq,
      decision_spec ps request RequireApproval reason ids /\ id = tr_request_id request /\
      br_approvals s' = br_approvals s ++ [row] /\ apr_approval_id row = id_str approval_id /\
      apr_state row = "pending" /\ apr_token_hash row = None /\ apr_summary row = summary /\
      apr_request_digest_hex row = hex_encode (compute_request_digest request) /\
      logged (audit_redactor rt) ApprovalRequested seq (br_audit s) (br_audit s')
  end.
Proof.
  intros He (u & s1 & [_ ->]%st_lift_inv & Hx)%st_bind_ok. cbv zeta in Hx.
  pose proof (evaluate_decides ps _ request (re_now env 0) He) as Hd. unfold decides in Hd.
  set (d := PolicyEngine_evaluate _ _ _) in *. destruct (ad_effect d) eqn:Ed.
  - apply st_bind_ok in Hx as (secret & s1 & [Hs ->]%st_lift_inv & Hx).
    apply st_bind_ok in Hx as (z & s1 & Ha & [= <- <-]).
    symmetry in Hs. apply map_err_ok in Hs. apply decision_on_record in Ha.
    by exists (ad_reason d), (ad_matched_rule_ids d).
  - apply st_bind_ok in Hx as (summary & s1 & [_ ->]%st_lift_inv & Hx).
    apply st_bind_ok in Hx as (z & s1 & Ha & [= <- <-]).
    apply decision_on_record in Ha. done.
  - apply st_bind_ok in Hx as (summary & s1 & [_ ->]%st_lift_inv & Hx).
    apply st_bind_ok in Hx as (p & s1 & Hp%on_broker_ok & Hx).
    apply st_bind_ok in Hx as (rec & s2 & [-> _]%on_broker_ok%get_approval_inv & Hx).
    apply st_bind_ok in Hx as (seq & s2 & [_ ->]%st_lift_inv & [= <- <-]).
    apply request_approval_ok in Hp as (Hid & row & seq' & Happ & Hrid & Hst & Hth & Hdig & Hsum & Hlog).
    exists (ad_reason d), (ad_matched_rule_ids d), row, seq'. rewrite Hid. by split_and!.
Qed.

(** A permit is returned only for what the policies allow. *)
Lemma evaluate_permitted env request b o b' :
  evaluate rt env request b = (Ok (RO_Permitted o), b') ->
  ad_effect (PolicyEngine_evaluate (rt_engine rt) (re_now env 0) request) = Allow /\
  re_random env = Ok (po_permit_secret o) /\
  ep_token_hash (po_permit o) = sha256 (po_permit_secret o) /\
  ep_request_digest (po_permit o) = compute_request_digest request.
Proof.
  intros (u & s1 & [_ ->]%st_lift_inv & Hx)%st_bind_ok. cbv zeta in Hx. destruct (ad_effect _).
  - apply st_bind_ok in Hx as (sec & s1 & [Hs ->]%st_lift_inv & Hx).
    apply st_bind_ok in Hx as (z & s2 & _ & [= <- <-]).
    symmetry in Hs. by apply map_err_ok in Hs.
  - apply st_bind_ok in Hx as (sec & s1 & _ & Hx). by apply st_bind_ok in Hx as (z & s2 & _ & Hx).
  - apply st_bind_ok in Hx as (sm & s1 & _ & Hx). apply st_bind_ok in Hx as (z & s2 & _ & Hx).
    apply st_bind_ok in Hx as (y & s3 & _ & Hx). by apply st_bind_ok in Hx as (x & s4 & _ & Hx).
Qed.

(** What a successful [consume_approval] did to the broker and returned. *)
Lemma consume_approval_ok env request id tok s o s' :
  consume_approval rt env request id tok s = (Ok o, s') ->
  exists c, consume (audit_redactor rt) (re_broker env 1) id tok s = (Ok c, s') /\
    ca_request_digest c = compute_request_digest request /\
    re_random env = Ok (po_permit_secret o) /\
    exists ids, map id_str ids = ca_matched_rule_ids c /\
      fresh_permit (re_now env 0) request ids (po_permit_secret o) (po_permit o).
Proof.
  unfold consume_approval. cbv zeta.
  intros (rec & s1 & [-> _]%on_broker_ok%get_approval_inv & Hx)%st_bind_ok.
  destruct (String.eqb _ (ar_request_digest rec)); [|done]. cbn [negb] in Hx.
  apply st_bind_ok in Hx as (c & s1 & Hc%on_broker_ok & Hx).
  destruct (String.eqb_spec (compute_request_digest request) (ca_request_digest c)) as [Hd|]; [|done].
  cbn [negb] in Hx. apply st_bind_ok in Hx as (secret & s2 & [Hs ->]%st_lift_inv & Hx).
  apply st_bind_ok in Hx as (ids & s2 & [Hi ->]%st_lift_inv & [= <- <-]).
  symmetry in Hs, Hi. apply map_err_ok in Hs. apply map_result_ok in Hi.
  exists c. split_and!; [done..|]. exists ids. split; [|done]. clear - Hi.
  induction Hi as [|x y xs ys Hx Hi IH]; [done|]. simpl. rewrite IH. f_equal.
  apply map_err_ok in Hx. unfold Id_new in Hx. destruct (validate_id x) as [[]|]; [|done].
  by injection Hx as <-.
Qed.

(** An approval buys a permit for the approved request and nothing else:
    when [consume_approval] succeeds, the approval was approved and unexpired, the
    token is the one whose hash is stored, the stored digest is the digest of the
    presented request, the permit is fresh and bound to that request, and the row
    is consumed, with an ApprovalConsumed event. *)
Theorem consume_approval_sound env request id tok s o s' :
  consume_approval rt env request id tok s = (Ok o, s') ->
  exists row stored ids at_ seq,
    live_row (br_approvals s) (id_str id) "approved" (ce_clock (re_broker env 1) 2) row /\
    apr_token_hash row = Some stored /\ hex_decode stored = Ok (ApprovalToken_hash tok) /\
    hex_decode (apr_request_digest_hex row) = Ok (compute_request_digest request) /\
    re_random env = Ok (po_permit_secret o) /\
    fresh_permit (re_now env 0) request ids (po_permit_secret o) (po_permit o) /\
    br_approvals s' =
      sql_update (has_id (id_str id))
        (fun r => apr_update r "consumed" None (apr_actor_id r) (apr_denial_reason r)
                    (apr_decision_at r) (Some at_) (Some seq)) (br_approvals s) /\
    logged (audit_redactor rt) ApprovalConsumed seq (br_audit s) (br_audit s').
Proof.
  intros (c & Hc & Hd & Hs & ids & _ & Hp)%consume_approval_ok.
  apply (consume_effect (rt_approval_config rt)) in Hc.
  remember {| ex_env := re_broker env 1; ex_call := Call_consume id tok;
              ex_reply := Reply_consumed (Ok c) |} as e eqn:He.
  destruct Hc as [| | | | | |? ? ? ? ? ? ? Hcall| |
      id' tok0 c' row at_ seq log Hcall Hrep Hl0 Hl2 (stored & Hst & Hdec) Hdig Hca Hseq Hlog];
    try by rewrite He in *.
  rewrite He in Hcall, Hrep, Hl2. injection Hcall as <- <-. injection Hrep as <-.
  rewrite <- Hd. by exists row, stored, ids, at_, seq.
Qed.

(** A mismatched request cannot destroy a valid approval: presented with a
    request whose digest is not the stored one, [consume_approval] fails before it
    changes anything. *)
Theorem mismatched_request_changes_nothing env request id tok s r s' row :
  List.find (has_id (id_str id)) (br_approvals s) = Some row ->
  hex_decode (apr_request_digest_hex row) <> Ok (compute_request_digest request) ->
  consume_approval rt env request id tok s = (r, s') ->
  s' = s /\ exists e, r = Err e.
Proof.
  intros Hf Hd. unfold consume_approval. cbv zeta.
  intros [(e & (v & [-> _]%get_approval_inv & _)%on_broker_inv & ->)|(rec & s1 & Hg%on_broker_ok & Hx)]%st_bind_inv;
    [eauto|].
  apply get_approval_inv in Hg as [-> Hg]. destruct (Hg rec eq_refl) as (row' & Hf' & Hr).
  rewrite Hf in Hf'. injection Hf' as <-. apply row_to_record_digest in Hr.
  destruct (String.eqb_spec (compute_request_digest request) (ar_request_digest rec)) as [Heq|];
    [destruct Hd; by rewrite Heq|]. cbn [negb] in Hx. injection Hx as <- <-. eauto.
Qed.

End Evaluation.
