(* ===== verification/RuntimeHistory.v ===== *)
(** * Histories of calls on the runtime

    The calls a client makes on one runtime, served one after the other: requests
    evaluated, approvals granted, refused and consumed, executions, and policies
    reloaded.  A permit obtained through [consume_approval] is traced back to the
    evaluation that asked for the approval and to the decision that granted it. *)

From stdpp Require Import base tactics list strings.
From Stdlib Require Import ZArith Lia Ascii.
From S2P Require Import Prelude RustStr BTree CoreError CoreIds CorePath CoreResource.
From S2P Require Import CoreRequest CoreDecision CorePermit PolicyModel PolicyEngine PolicySpec.
From S2P Require Import AuditModel AuditVerify AuditChain ApprovalModel ApprovalBroker.
From S2P Require Import ApprovalSpec ApprovalLife.
From S2P Require Import EnforceFs EnforceCmd EnforceNet Runtime RuntimeSpec RuntimeProps.

Open Scope Z_scope.

(** A call, and what it returned. *)
Inductive RtCall :=
| RC_evaluate (request : ToolRequest)
| RC_approve (id : ApprovalId) (actor : ApprovalActor)
| RC_deny (id : ApprovalId) (actor : ApprovalActor) (reason : option string)
| RC_consume (request : ToolRequest) (id : ApprovalId) (token : ApprovalToken)
| RC_execute (request : ToolRequest) (permit : ExecutionPermit) (secret : string)
    (input : ExecutionInput)
| RC_reload (policies : list Policy).

Inductive RtReply :=
| RR_outcome (r : result RuntimeError RuntimeOutcome)
| RR_token (r : result RuntimeError ApprovalToken)
| RR_unit (r : result RuntimeError unit)
| RR_permit (r : result RuntimeError PermittedOutcome)
| RR_executed (r : result RuntimeError ExecutionResult) (permit : ExecutionPermit).

Section History.
Context {SH : Sha256} {HX : HexLib} {AJ : AuditJson} {CH : Rfc3339} {IE : IdsJsonError}.
Context {RJ : RequestJson} {GL : GlobLib} {UL : UnicodeLower} {RD : ResourceDebug}.
Context {W : Type}.
Context {FA : Adapter W FilesystemInput FilesystemOutcome} {FAL : AdapterLaws (H1 := FA)}.
Context {CA : Adapter W CommandInput CommandOutcome} {CAL : AdapterLaws (H1 := CA)}.
Context {NA : Adapter W NetworkInput NetworkOutcome} {NAL : AdapterLaws (H1 := NA)}.

(** What happened, and the runtime it happened on. *)
Record RtExchange := {
  rx_runtime : KavachRuntime;
  rx_env : RtEnv;
  rx_call : RtCall;
  rx_reply : RtReply;
}.

Definition rt_reply {A} (f : result RuntimeError A -> RtReply)
    (m : stateful BrokerState RuntimeError A) (s : RtState W) : RtReply * RtState W :=
  let '(r, b) := m (rs_broker s) in (f r, {| rs_broker := b; rs_world := rs_world s |}).

(** One call. *)
Definition rt_call (rt : KavachRuntime) (env : RtEnv) (call : RtCall) (s : RtState W)
  : RtReply * KavachRuntime * RtState W :=
  match call with
  | RC_evaluate request => let '(r, s') := rt_reply RR_outcome (evaluate rt env request) s in (r, rt, s')
  | RC_approve id actor => let '(r, s') := rt_reply RR_token (rt_approve rt env id actor) s in (r, rt, s')
  | RC_deny id actor reason =>
      let '(r, s') := rt_reply RR_unit (rt_deny rt env id actor reason) s in (r, rt, s')
  | RC_consume request id token =>
      let '(r, s') := rt_reply RR_permit (consume_approval rt env request id token) s in (r, rt, s')
  | RC_execute request permit secret input =>
      let '(r, p, s') := execute rt (FA := FA) (CA := CA) (NA := NA) env request permit secret input s in
      (RR_executed r p, rt, s')
  | RC_reload policies =>
      match reload_policies policies rt with
      | Ok rt' => (RR_unit (Ok tt), rt', s)
      | Err e => (RR_unit (Err e), rt, s)
      end
  end.

(** The exchanges, the runtime and the state after serving calls one by one. *)
Fixpoint rt_serve (calls : list (RtEnv * RtCall)) (rt : KavachRuntime) (s : RtState W)
  : list RtExchange * KavachRuntime * RtState W :=
  match calls with
  | [] => ([], rt, s)
  | (env, call) :: rest =>
      let '(r, rt1, s1) := rt_call rt env call s in
      let '(h, rt2, s2) := rt_serve rest rt1 s1 in
      ({| rx_runtime := rt; rx_env := env; rx_call := call; rx_reply := r |} :: h, rt2, s2)
  end.

Definition fresh_state (w : W) : RtState W := {| rs_broker := fresh_broker; rs_world := w |}.

(** ** Reading a history *)

(** [x] evaluated [request], and the policies in force asked for an approval. *)
Definition asked (x : RtExchange) (request : ToolRequest) : Prop :=
  rx_call x = RC_evaluate request /\
  ad_effect (PolicyEngine_evaluate (rt_engine (rx_runtime x)) (re_now (rx_env x) 0) request)
    = RequireApproval.

(** [x] granted the approval [id] and handed out [tok]. *)
Definition granted (x : RtExchange) (id : ApprovalId) (tok : ApprovalToken) : Prop :=
  exists actor, rx_call x = RC_approve id actor /\ rx_reply x = RR_token (Ok tok).

(** [x] turned the approval [id] into a permit. *)
Definition permits (id : string) (x : RtExchange) : bool :=
  match rx_call x, rx_reply x with
  | RC_consume _ i _, RR_permit (Ok _) => String.eqb (id_str i) id
  | _, _ => false
  end.

Definition permit_count (id : string) (h : list RtExchange) : nat :=
  length (List.filter (permits id) h).

(** The exchange of the broker one exchange of the runtime leads to, if any. *)
Definition caused (x : RtExchange) (e : Exchange) : Prop :=
  match ex_call e with
  | Call_request req _ => asked x (areq_request req)
  | Call_approve id _ => forall tok, ex_reply e = Reply_token (Ok tok) -> granted x id tok
  | _ => True
  end.

(** [hb] is what the broker saw of [h]. *)
Record seen_by_broker (h : list RtExchange) (hb : list Exchange) : Prop := {
  sb_caused : forall e, e ∈ hb -> exists x, x ∈ h /\ caused x e;
  sb_permits : forall id, (permit_count id h <= consumptions id hb)%nat;
}.

(** ** What each call does to the broker *)

Context {SHL : Sha256Laws} {AJL : AuditJsonLaws}.

(** From [b] to [b'] the broker served [es]. *)
Definition broker_served (rt : KavachRuntime) (es : list Exchange) (b b' : BrokerState) : Prop :=
  forall hb, broker_ok (rt_approval_config rt) hb b -> broker_ok (rt_approval_config rt) (hb ++ es) b'.

Lemma served_nothing rt b : broker_served rt [] b b.
Proof. intros hb. by rewrite app_nil_r. Qed.

Lemma served_trans rt es1 es2 b1 b2 b3 :
  broker_served rt es1 b1 b2 -> broker_served rt es2 b2 b3 -> broker_served rt (es1 ++ es2) b1 b3.
Proof. intros H1 H2 hb Hb. rewrite app_assoc. by apply H2, H1. Qed.

Lemma served_call rt env call b rep b' :
  run_call (rt_approval_config rt) (audit_redactor rt) env call b = (rep, b') ->
  broker_served rt [{| ex_env := env; ex_call := call; ex_reply := rep |}] b b'.
Proof. intros Hr hb Hb. by eapply call_ok. Qed.

Lemma served_record rt c request b b' :
  br_approvals b' = br_approvals b ->
  records rt c request (br_audit b) (br_audit b') \/ br_audit b' = br_audit b ->
  broker_served rt [] b b'.
Proof.
  intros Happ Hlog hb [Ht Hl]. rewrite app_nil_r. constructor; [by rewrite Happ|].
  destruct Hlog as [(input & faults & eid & ts & sum & Ha & _)| ->]; [|done].
  eapply audit_step_ok; [exact Hl|].
  replace (br_audit b') with (snd (AuditStore_append (audit_redactor rt) faults eid ts (br_audit b) input));
    [constructor|]. unfold AuditStore_append. by rewrite Ha.
Qed.

Lemma served_attempt rt c request b r b' :
  tries_to_record rt c request b r b' -> broker_served rt [] b b'.
Proof. intros [Happ Hr]. eapply served_record; [done|]. destruct Hr as [[Hr _]|[Hr _]]; eauto. Qed.

(** The exchanges of the broker during one call [x] of the runtime. *)
Definition step_ok (x : RtExchange) (b b' : BrokerState) : Prop :=
  exists es, broker_served (rx_runtime x) es b b' /\ Forall (caused x) es /\
    forall id, ((if permits id x then 1 else 0) <= consumptions id es)%nat.

Lemma quiet_step x b b' :
  broker_served (rx_runtime x) [] b b' -> (forall id, permits id x = false) -> step_ok x b b'.
Proof. intros Hs Hp. exists []. split_and!; [done|by apply Forall_nil|]. intros id. by rewrite Hp. Qed.

Lemma one_call_step x env call rep b b' :
  run_call (rt_approval_config (rx_runtime x)) (audit_redactor (rx_runtime x)) env call b = (rep, b') ->
  let e := {| ex_env := env; ex_call := call; ex_reply := rep |} in
  caused x e -> (forall id, permits id x = true -> consumes e id = true) ->
  step_ok x b b'.
Proof.
  intros Hr e Hc Hp. exists [e]. split_and!; [by apply served_call|by apply Forall_singleton|].
  intros id. unfold consumptions. simpl. specialize (Hp id).
  destruct (permits id x); [by rewrite Hp|lia].
Qed.

Lemma evaluate_step rt env request b r b' :
  evaluate rt env request b = (r, b') ->
  step_ok {| rx_runtime := rt; rx_env := env; rx_call := RC_evaluate request; rx_reply := RR_outcome r |}
    b b'.
Proof.
  set (x := {| rx_runtime := rt |}).
  assert (Hp : forall id, permits id x = false) by done.
  assert (Hq : forall b1, broker_served rt [] b b1 -> step_ok x b b1)
    by (intros b1 Hs; by apply quiet_step).
  intros [(e & [_ ->]%st_lift_inv & ->)|(u & s1 & [_ ->]%st_lift_inv & Hx)]%st_bind_inv;
    [apply Hq, served_nothing|]. cbv zeta in Hx.
  destruct (ad_effect _) eqn:Ed.
  - apply st_bind_inv in Hx as [(e & [_ ->]%st_lift_inv & ->)|(sec & s1 & [_ ->]%st_lift_inv & Hx)];
      [apply Hq, served_nothing|].
    apply st_bind_inv in Hx as [(e & Ha%audit_decision_inv & ->)|(z & s1 & Ha%audit_decision_inv & [= <- <-])];
      by eapply Hq, served_attempt.
  - apply st_bind_inv in Hx as [(e & [_ ->]%st_lift_inv & ->)|(sm & s1 & [_ ->]%st_lift_inv & Hx)];
      [apply Hq, served_nothing|].
    apply st_bind_inv in Hx as [(e & Ha%audit_decision_inv & ->)|(z & s1 & Ha%audit_decision_inv & [= <- <-])];
      by eapply Hq, served_attempt.
  - apply st_bind_inv in Hx as [(e & [_ ->]%st_lift_inv & ->)|(sm & s1 & [_ ->]%st_lift_inv & Hx)];
      [apply Hq, served_nothing|].
    cbv zeta in Hx.
    assert (Hreq : forall ids v b1, request_approval (rt_approval_config rt) (audit_redactor rt)
              (re_broker env 0)
              {| areq_request := request; areq_matched_rule_ids := ids; areq_summary := sm |}
              None b = (v, b1) -> step_ok x b b1).
    { intros ids v b1 Hv. eapply (one_call_step x _ (Call_request _ None) (Reply_pending v));
        [unfold run_call, reply; simpl; erewrite Hv; reflexivity|by split|done]. }
    apply st_bind_inv in Hx as [(e & (v & Hv & _)%on_broker_inv & ->)|(p & s1 & Hv%on_broker_ok & Hx)];
      [by eapply Hreq|].
    assert (b' = s1) as ->; [|by eapply Hreq].
    apply st_bind_inv in Hx
      as [(e & (v & [-> _]%get_approval_inv & _)%on_broker_inv & _)|(rec & s2 & [-> _]%on_broker_ok%get_approval_inv & Hx)];
      [done|].
    by apply st_bind_inv in Hx as [(e & [_ ->]%st_lift_inv & _)|(q & s2 & [_ ->]%st_lift_inv & [= _ <-])].
Qed.

Lemma consume_step rt env request id tok b r b' :
  consume_approval rt env request id tok b = (r, b') ->
  step_ok {| rx_runtime := rt; rx_env := env; rx_call := RC_consume request id tok;
             rx_reply := RR_permit r |} b b'.
Proof.
  unfold consume_approval. cbv zeta.
  intros [(e & (v & [-> _]%get_approval_inv & _)%on_broker_inv & ->)
         |(rec & s1 & [-> _]%on_broker_ok%get_approval_inv & Hx)]%st_bind_inv;
    [by apply quiet_step; [apply served_nothing|]|].
  destruct (negb _); [injection Hx as <- <-; by apply quiet_step; [apply served_nothing|]|].
  assert (Hcons : forall v b1 r', consume (audit_redactor rt) (re_broker env 1) id tok b = (v, b1) ->
            (forall o, r' = Ok o -> exists c, v = Ok c) ->
            step_ok {| rx_runtime := rt; rx_env := env; rx_call := RC_consume request id tok;
                       rx_reply := RR_permit r' |} b b1).
  { intros v b1 r' Hv Hok. eapply (one_call_step _ _ (Call_consume id tok) (Reply_consumed v)); [|done|].
    - unfold run_call, reply. simpl. by rewrite Hv.
    - intros i. destruct r' as [o|]; [|done]. by destruct (Hok o eq_refl) as [c ->]. }
  apply st_bind_inv in Hx as [(e & (v & Hv & Her)%on_broker_inv & ->)|(c & s1 & Hv%on_broker_ok & Hx)];
    [by eapply Hcons|].
  assert (b' = s1) as ->; [|eapply Hcons; [exact Hv|by eauto]].
  destruct (negb _); [by injection Hx as _ <-|].
  apply st_bind_inv in Hx as [(e & [_ ->]%st_lift_inv & _)|(sec & s2 & [_ ->]%st_lift_inv & Hx)]; [done|].
  by apply st_bind_inv in Hx as [(e & [_ ->]%st_lift_inv & _)|(q & s2 & [_ ->]%st_lift_inv & [= _ <-])].
Qed.

Lemma execute_step rt env request p secret input s r p' s' :
  execute rt (FA := FA) (CA := CA) (NA := NA) env request p secret input s = (r, p', s') ->
  broker_served rt [] (rs_broker s) (rs_broker s').
Proof.
  intros [(_ & -> & _)|(kind & v & b & _ & _ & Ha%audit_started_inv%served_attempt & Hx)]%execute_inv;
    [apply served_nothing|].
  destruct Hx as [(e & _ & _ & _ & ->)|(seq & res & _ & _ & [Happ Hf]%finish_execution_inv)]; [done|].
  apply (served_trans _ [] [] _ b); [done|]. destruct r.
  - eapply served_record; [done|]. destruct Hf as [_ [Hf|[_ Hf]]]; eauto.
  - eapply served_record; [done|]. destruct Hf; eauto.
Qed.

(** ** The invariant of a history *)

(** The runtimes of a history share the redactor and the broker's configuration. *)
Definition same_stores (rt rt' : KavachRuntime) : Prop :=
  rt_approval_config rt' = rt_approval_config rt /\ rt_redactor rt' = rt_redactor rt.

Lemma rt_call_step rt env call s rep rt' s' :
  rt_call rt env call s = (rep, rt', s') ->
  same_stores rt rt' /\
  step_ok {| rx_runtime := rt; rx_env := env; rx_call := call; rx_reply := rep |}
    (rs_broker s) (rs_broker s').
Proof.
  destruct call as [request|id actor|id actor reason|request id tok|request p sec input|ps]; simpl;
    unfold rt_reply.
  - destruct (evaluate rt env request (rs_broker s)) as [r b] eqn:E. intros [= <- <- <-].
    split; [done|]. by apply evaluate_step.
  - destruct (rt_approve rt env id actor (rs_broker s)) as [r b] eqn:E. intros [= <- <- <-].
    split; [done|]. apply on_broker_inv in E as (v & Hv & ->).
    eapply (one_call_step _ _ (Call_approve id actor) (Reply_token v)); [|simpl|done].
    + unfold run_call, reply. simpl. by rewrite Hv.
    + intros tok [= ->]. by exists actor.
  - destruct (rt_deny rt env id actor reason (rs_broker s)) as [r b] eqn:E. intros [= <- <- <-].
    split; [done|]. apply on_broker_inv in E as (v & Hv & ->).
    eapply (one_call_step _ _ (Call_deny id actor reason) (Reply_unit v)); [|done..].
    unfold run_call, reply. simpl. by rewrite Hv.
  - destruct (consume_approval rt env request id tok (rs_broker s)) as [r b] eqn:E.
    intros [= <- <- <-]. split; [done|]. by apply consume_step.
  - destruct (execute _ _ _ _ _ _ _) as [[r p'] s1] eqn:E. intros [= <- <- <-]. split; [done|].
    apply quiet_step; [by eapply execute_step|done].
  - destruct (reload_policies ps rt) as [rt1|e] eqn:E; intros [= <- <- <-];
      (split; [|apply quiet_step; [apply served_nothing|done]]); [|done].
    unfold reload_policies in E. destruct (PolicyEngine_new ps); [|done]. by injection E as <-.
Qed.

(** The broker behind a runtime with history [h] is sound. *)
Definition history_ok (rt : KavachRuntime) (h : list RtExchange) (b : BrokerState) : Prop :=
  exists hb, broker_ok (rt_approval_config rt) hb b /\ seen_by_broker h hb.

Lemma consumptions_app id h h' : consumptions id (h ++ h') = (consumptions id h + consumptions id h')%nat.
Proof. unfold consumptions. by rewrite List.filter_app, length_app. Qed.

Lemma seen_snoc h hb x es :
  seen_by_broker h hb -> Forall (caused x) es ->
  (forall id, ((if permits id x then 1 else 0) <= consumptions id es)%nat) ->
  seen_by_broker (h ++ [x]) (hb ++ es).
Proof.
  intros [Hc Hp] He Hn. rewrite Forall_forall in He. constructor.
  - intros e [Hin|Hin]%elem_of_app; [destruct (Hc e Hin) as (y & Hy & Hye)|]; eexists;
      (split; [apply elem_of_app|]); [by left|done|right; by apply list_elem_of_singleton|by apply He].
  - intros id. specialize (Hp id). specialize (Hn id). rewrite consumptions_app.
    unfold permit_count in *. rewrite List.filter_app, length_app. simpl.
    destruct (permits id x); simpl in *; lia.
Qed.

Lemma rt_serve_ok calls rt h0 s h rt' s' :
  history_ok rt h0 (rs_broker s) -> rt_serve calls rt s = (h, rt', s') ->
  same_stores rt rt' /\ history_ok rt' (h0 ++ h) (rs_broker s').
Proof.
  revert rt h0 s h. induction calls as [|[env call] calls IH]; intros rt h0 s h Hok Hs; simpl in Hs.
  { injection Hs as <- <- <-. by rewrite app_nil_r. }
  destruct (rt_call rt env call s) as [[rep rt1] s1] eqn:Er.
  destruct (rt_serve calls rt1 s1) as [[h1 rt2] s2] eqn:Es. injection Hs as <- <- <-.
  apply rt_call_step in Er as [[Hcfg Hred] (es & Hsv & Hes & Hn)].
  destruct Hok as (hb & Hb & Hseen).
  destruct (IH rt1 (h0 ++ [{| rx_runtime := rt; rx_env := env; rx_call := call; rx_reply := rep |}]) s1 h1)
    as [[Hcfg' Hred'] Hok']; [|done|].
  - exists (hb ++ es). split; [rewrite Hcfg; by apply Hsv|by apply seen_snoc].
  - split; [split; congruence|]. by rewrite <- app_assoc in Hok'.
Qed.

Lemma rt_served_ok calls rt w h rt' s' :
  rt_serve calls rt (fresh_state w) = (h, rt', s') ->
  same_stores rt rt' /\ history_ok rt' h (rs_broker s').
Proof.
  apply (rt_serve_ok calls rt []). exists []. split; [apply fresh_ok|]. constructor; [|done].
  by intros e ?%not_elem_of_nil.
Qed.

(** (C4) Every permit bought with an approval has its two human steps on record.
    When [consume_approval] succeeds after any history of calls on a fresh runtime,
    an earlier call evaluated a request with the same digest under policies that
    asked for an approval, an earlier call granted this very approval and returned a
    token with the same hash, and no earlier call turned it into a permit. *)
Theorem permit_provenance `{!HexLaws} calls rt0 w h rt s env request id tok o b :
  rt_serve calls rt0 (fresh_state w) = (h, rt, s) ->
  consume_approval rt env request id tok (rs_broker s) = (Ok o, b) ->
  ep_request_digest (po_permit o) = compute_request_digest request /\
  permit_count (id_str id) h = 0%nat /\
  (exists x req, x ∈ h /\ asked x req /\
     compute_request_digest req = compute_request_digest request) /\
  exists x tok', x ∈ h /\ granted x id tok' /\ ApprovalToken_hash tok' = ApprovalToken_hash tok.
Proof.
  intros [_ (hb & Hb & [Hcaused Hcount])]%rt_served_ok
    (c & Hc & Hd & _ & ids & _ & Hp)%consume_approval_ok.
  destruct (consume_provenance _ _ _ _ _ _ _ _ _ Hb Hc)
    as (e1 & req & ttl & e2 & actor & tok' & He1 & Hq & _ & Hdig & He2 & Ha & Hr & Htok & Hz).
  split_and!.
  - by rewrite Hp.
  - specialize (Hcount (id_str id)). lia.
  - destruct (Hcaused e1 He1) as (x & Hx & Hxe). unfold caused in Hxe. rewrite Hq in Hxe.
    exists x, (areq_request req). split_and!; [done..|congruence].
  - destruct (Hcaused e2 He2) as (x & Hx & Hxe). unfold caused in Hxe. rewrite Ha in Hxe.
    exists x, tok'. split_and!; [done|by apply Hxe|done].
Qed.

(** (C18) In any history an approval is turned into at most one permit, and the
    audit log stays valid throughout. *)
Theorem one_permit_per_approval calls rt0 w h rt s :
  rt_serve calls rt0 (fresh_state w) = (h, rt, s) ->
  (forall id, (permit_count id h <= 1)%nat) /\ log_ok (br_audit (rs_broker s)).
Proof.
  intros [_ (hb & Hb & [_ Hcount])]%rt_served_ok. split; [|apply Hb].
  intros id. specialize (Hcount id). pose proof (consumptions_le_one _ _ _ id Hb). lia.
Qed.

End History.
