(* ===== verification/RuntimeMachine.v ===== *)
(** * The runtime on one machine

    The three enforcers of a registry as the adapters of one runtime, acting on a
    common machine that logs what is done to files, which processes are started and
    what is sent.  Here the gates of the runtime and the guarantees of the adapters
    come together.  The second part is about the redactor the runtime is built with, seen
    through the runtime's interface: what it means for the results of an execution. *)

From stdpp Require Import base tactics list strings.
From Stdlib Require Import ZArith Lia Ascii.
From S2P Require Import Prelude RustStr Utf8 BTree Redaction RedactionProps CoreError CoreIds CorePath CoreResource.
From S2P Require Import CoreRequest CoreDecision CorePermit PolicyModel PolicyEngine PolicySpec.
From S2P Require Import AuditModel AuditVerify AuditChain ApprovalModel ApprovalBroker.
From S2P Require Import EnforceFs EnforceFsProps EnforceCmd EnforceCmdProps EnforceNet EnforceNetProps.
From S2P Require Import Runtime RuntimeSpec RuntimeProps.

Open Scope Z_scope.

(** The world and the logs of the three adapters. *)
Record Machine (W : Type) := {
  mc_world : W;
  mc_fs : list FsCall;
  mc_cmd : list ProcessConfig;
  mc_net : list NetCall;
}.
Arguments mc_world {W} _.
Arguments mc_fs {W} _.
Arguments mc_cmd {W} _.
Arguments mc_net {W} _.

Section Machine.
Context {SH : Sha256} {RJ : RequestJson} {UL : UnicodeLower} {UU : UnicodeUpper}.
Context {W : Type} {OS : FsOs W} {OSL : FsOsLaws W} {PR : ProcOs W} {NO : NetOs W}.
Variable reg : AdapterRegistry.
(** The name of the temporary file of a write. *)
Variable suffix : Machine W -> string.

(** What each adapter sees of the machine, and the machine after it. *)
Definition fs_view (m : Machine W) : FsState W := {| fs_world := mc_world m; fs_log := mc_fs m |}.
Definition cmd_view (m : Machine W) : CmdState W := {| cs_world := mc_world m; cs_log := mc_cmd m |}.
Definition net_view (m : Machine W) : NetState W := {| ns_world := mc_world m; ns_log := mc_net m |}.

Definition fs_back (m : Machine W) (s : FsState W) : Machine W :=
  {| mc_world := fs_world s; mc_fs := fs_log s; mc_cmd := mc_cmd m; mc_net := mc_net m |}.
Definition cmd_back (m : Machine W) (s : CmdState W) : Machine W :=
  {| mc_world := cs_world s; mc_fs := mc_fs m; mc_cmd := cs_log s; mc_net := mc_net m |}.
Definition net_back (m : Machine W) (s : NetState W) : Machine W :=
  {| mc_world := ns_world s; mc_fs := mc_fs m; mc_cmd := mc_cmd m; mc_net := ns_log s |}.

(** An adapter on a part of the machine. *)
Definition adapter_on {S I O} (view : Machine W -> S) (back : Machine W -> S -> Machine W)
    (A : Machine W -> Adapter S I O) : Adapter (Machine W) I O :=
  {| adapter_execute now request input p m :=
       let '(r, p', s) := adapter_execute (Adapter := A m) now request input p (view m) in
       (r, p', back m s) |}.

Lemma adapter_on_laws {S I O} view back (A : Machine W -> Adapter S I O) :
  (forall m, AdapterLaws (H1 := A m)) -> (forall m, back m (view m) = m) ->
  AdapterLaws (H1 := adapter_on view back A).
Proof.
  intros HA Hb. constructor. intros now request input p m r p' m'. simpl.
  destruct (adapter_execute now request input p (view m)) as [[v q] s] eqn:E. intros [= <- <- <-].
  apply (adapter_gate (AdapterLaws := HA m)) in E as [(-> & -> & He)|E]; [left|by right].
  by rewrite Hb.
Qed.

(** The registry's adapters. *)
Definition machine_fs : Adapter (Machine W) FilesystemInput FilesystemOutcome :=
  adapter_on fs_view fs_back (fun m => fs_adapter (reg_filesystem reg) (suffix m)).
Definition machine_cmd : Adapter (Machine W) CommandInput CommandOutcome :=
  adapter_on cmd_view cmd_back (fun _ => cmd_adapter (reg_command reg)).
Definition machine_net : Adapter (Machine W) NetworkInput NetworkOutcome :=
  adapter_on net_view net_back (fun _ => net_adapter (reg_network reg)).

#[export] Instance machine_fs_laws : AdapterLaws (H1 := machine_fs).
Proof. apply adapter_on_laws; [intros m; apply fs_adapter_laws|by intros []]. Qed.
#[export] Instance machine_cmd_laws : AdapterLaws (H1 := machine_cmd).
Proof. apply adapter_on_laws; [intros m; apply cmd_adapter_laws|by intros []]. Qed.
#[export] Instance machine_net_laws : AdapterLaws (H1 := machine_net).
Proof. apply adapter_on_laws; [intros m; apply net_adapter_laws|by intros []]. Qed.

(** ** Effects *)

(** What the three adapters may do for [request]: only the adapter of the
    operation's kind acts, and it stays within its bounds. *)
Definition effects_safe (request : ToolRequest) (input : ExecutionInput) (m m' : Machine W) : Prop :=
  match resolve_operation request with
  | Ok AK_Filesystem =>
      mc_cmd m' = mc_cmd m /\ mc_net m' = mc_net m /\
      (os_is_dir (mc_world m) (fe_workspace_root (reg_filesystem reg)) = true ->
       stays_inside (fe_workspace_root (reg_filesystem reg)) (fs_view m) (fs_view m'))
  | Ok AK_Command =>
      mc_fs m' = mc_fs m /\ mc_net m' = mc_net m /\
      (mc_cmd m' = mc_cmd m \/
       exists ci cmd cfg, input = EI_Command ci /\ tr_resource request = R_Command cmd /\
         mc_cmd m' = mc_cmd m ++ [cfg] /\
         safe_config (cme_workspace_root (reg_command reg)) (os_vars (mc_world m)) cmd ci cfg)
  | Ok AK_Network =>
      mc_fs m' = mc_fs m /\ mc_cmd m' = mc_cmd m /\
      exists calls, mc_net m' = mc_net m ++ calls /\
        hops (reg_network reg) (S (ne_redirect_limit (reg_network reg))) calls
  | Err _ => m' = m
  end.

Lemma effects_none request input m : effects_safe request input m m.
Proof.
  unfold effects_safe. destruct (resolve_operation request) as [[]|]; [| | |done];
    (split_and!; [done..|]).
  - intros _. apply inside_refl.
  - by left.
  - exists []. rewrite app_nil_r. split; [done|constructor].
Qed.

Lemma run_adapter_safe env kind request input p m r p' m' :
  resolve_operation request = Ok kind ->
  run_adapter (FA := machine_fs) (CA := machine_cmd) (NA := machine_net) env kind request input p m
    = (r, p', m') ->
  effects_safe request input m m'.
Proof.
  intros Hk Hr. destruct kind, input; cbn [run_adapter adapter_execute machine_fs machine_cmd
    machine_net adapter_on fs_adapter cmd_adapter net_adapter] in Hr;
    try (injection Hr as _ _ <-; apply effects_none).
  - destruct (fs_execute _ _ _ _ _ _ _) as [[v q] s] eqn:E. unfold effects_safe. rewrite Hk.
    assert (m' = fs_back m s) as -> by by (destruct v; simpl in Hr; injection Hr).
    split_and!; [done..|]. intros Hd. by apply fs_execute_inside in E.
  - destruct (fs_execute _ _ _ _ _ _ _) as [[v q] s] eqn:E. unfold effects_safe. rewrite Hk.
    assert (m' = fs_back m s) as -> by by (destruct v; simpl in Hr; injection Hr).
    split_and!; [done..|]. intros Hd. by apply fs_execute_inside in E.
  - destruct (cmd_execute _ _ _ _ _ _) as [[v q] s] eqn:E. unfold effects_safe. rewrite Hk.
    assert (m' = cmd_back m s) as -> by by (destruct v; simpl in Hr; injection Hr).
    split_and!; [done..|].
    apply cmd_execute_spawns in E as [->|(cmd & cfg & Hc & Hl & Hs)]; [by left|right].
    by exists input, cmd, cfg.
  - destruct (net_execute _ _ _ _ _ _) as [[v q] s] eqn:E. unfold effects_safe. rewrite Hk.
    assert (m' = net_back m s) as -> by by (destruct v; simpl in Hr; injection Hr).
    split_and!; [done..|].
    apply net_execute_hops in E as [->|(calls & Hl & Hh)]; [|by exists calls].
    exists []. rewrite app_nil_r. split; [done|constructor].
Qed.

(** ** Executions *)

Context {HX : HexLib} {AJ : AuditJson} {CH : Rfc3339} {IE : IdsJsonError}.
Context {GL : GlobLib} {RD : ResourceDebug}.
Variable rt : KavachRuntime.

Abbreviation exec := (execute rt (FA := machine_fs) (CA := machine_cmd) (NA := machine_net)).

(** (C1) End to end, the runtime is the only way to the machine and keeps it
    confined.  An execution either leaves the machine alone, or it ran under an
    unexpired and unused permit bound to the request with the right secret and a
    sufficient scope, after its start went on record if the runtime fails closed;
    and then only the adapter of the operation's kind acted: files were touched only
    within the workspace, at most one process was started, in a safe configuration,
    or only checked addresses were contacted. *)
Theorem execute_confined env request p secret input s r p' s' :
  exec env request p secret input s = (r, p', s') ->
  rs_world s' = rs_world s \/
  permit_accepted rt (re_now env 0) request secret p /\ ep_consumed p' = true /\
  (rc_audit_fail_closed (rt_config rt) = true ->
     exists log, records rt ExecutionStarted request (br_audit (rs_broker s)) log) /\
  effects_safe request input (rs_world s) (rs_world s').
Proof.
  intros [(_ & -> & _)|(kind & v & b & Hp & Hk & Ha & Hx)]%execute_inv; [by left|].
  destruct Hx as [(e & _ & _ & _ & ->)|(seq & res & -> & Hrun & _)]; [by left|].
  pose proof (run_adapter_safe _ _ _ _ _ _ _ _ _ Hk Hrun) as Hsafe.
  apply run_adapter_gate in Hrun as [(_ & -> & _)|[_ ->]]; [by left|right].
  split_and!; [done|apply consume_consumed| |done].
  intros Hfc. apply audit_started_inv in Ha as [_ [[Hr _]|[_ Hbad]]]; [eauto|].
  by specialize (Hbad Hfc).
Qed.

End Machine.

(** ** The composite redactor *)

Section Redacted.
Context {RX : RegexLib} {RXL : RegexLaws} {FL : F64}.

(** The redacted text or the error's message; a panic gives neither, and is kept
    apart from both by its text. *)
Definition redaction_reply (r : result RFault RedactionResult) : result string string :=
  match r with
  | Ok r => Ok (rr_redacted r)
  | Err (RF_Error e) => Err (RedactionError_display e)
  | Err _ => Err "panicked"
  end.

Definition composite_redactor (c : CompositeRedactor) : Redactor :=
  {| redact_text s := redaction_reply (CompositeRedactor_redact_text c s);
     redact_bytes s := redaction_reply (CompositeRedactor_redact_bytes c s) |}.

(** [t] is the redaction of some text, and shows no configured secret. *)
Definition hides_secrets (c : CompositeRedactor) (t : string) : Prop :=
  exists src spans, Utf8 src /\ t = splice src 0 spans /\
    forall x, x ∈ configured c -> Forall (fun piece => contains x piece = false) (kept src 0 spans).

(** The byte contents an execution result carries. *)
Definition exposed_bytes (res : ExecutionResult) : list string :=
  match res with
  | ER_Filesystem (FO_FileRead bytes _) => [bytes]
  | ER_Filesystem _ => []
  | ER_Command o => [co_stdout o; co_stderr o]
  | ER_Network o => [no_body o]
  end.

Context {SH : Sha256} {HX : HexLib} {AJ : AuditJson} {CH : Rfc3339} {IE : IdsJsonError}.
Context {RJ : RequestJson} {GL : GlobLib} {UL : UnicodeLower} {RD : ResourceDebug}.

Lemma redacted_bytes red raw out :
  ExecutionResult_redacted red raw = Ok out ->
  Forall (fun t => exists x, redact_bytes red x = Ok t) (exposed_bytes out).
Proof.
  intros Hr. destruct raw as [o|o|o]; simpl in Hr.
  - destruct o; simpl in Hr; try (injection Hr as <-; by apply Forall_nil).
    + destruct (redact_bytes red bytes) as [t|] eqn:E; [|done]. injection Hr as <-.
      apply Forall_singleton. eauto.
    + destruct (map_result _ entries) as [ts|]; [|done]. injection Hr as <-. by apply Forall_nil.
  - destruct (redact_bytes red (co_stdout o)) as [t1|] eqn:E1; [|done].
    destruct (redact_bytes red (co_stderr o)) as [t2|] eqn:E2; [|done]. injection Hr as <-. simpl.
    apply Forall_cons. split; [eauto|]. apply Forall_singleton. eauto.
  - destruct (redact_bytes red (no_body o)) as [t1|] eqn:E1; [|done].
    destruct (map_result _ (no_headers o)) as [hs|]; [|done]. injection Hr as <-. simpl.
    apply Forall_singleton. eauto.
Qed.

(** All configured secrets are gone at once. *)
Lemma redact_bytes_hides c x t :
  Forall secret_ok (configured c) -> redact_bytes (composite_redactor c) x = Ok t ->
  hides_secrets c t.
Proof.
  intros Hok. simpl. unfold CompositeRedactor_redact_bytes. destruct (utf8 x) eqn:Eu; [|done].
  apply utf8_spec in Eu. destruct (CompositeRedactor_redact_text c x) as [r|[]] eqn:Er; [|done..].
  intros [= <-]. destruct (secrets_removed c x r Eu Hok Er) as (spans & Hs & Hk).
  by exists x, spans.
Qed.

Context {W : Type}.
Context {FA : Adapter W FilesystemInput FilesystemOutcome} {FAL : AdapterLaws (H1 := FA)}.
Context {CA : Adapter W CommandInput CommandOutcome} {CAL : AdapterLaws (H1 := CA)}.
Context {NA : Adapter W NetworkInput NetworkOutcome} {NAL : AdapterLaws (H1 := NA)}.
Variable rt : KavachRuntime.

(** (C27) With the composite redactor, no configured secret leaves through a file
    content, an output stream or a response body: each is the redaction of valid
    UTF-8 text (other contents make the execution fail), and none of the pieces it
    copies contains a configured secret. *)
Theorem execute_hides_secrets c env request p secret input s out p' s' :
  rc_redaction_enabled (rt_config rt) = true -> rt_redactor rt = Some (composite_redactor c) ->
  Forall secret_ok (configured c) ->
  execute rt (FA := FA) (CA := CA) (NA := NA) env request p secret input s = (Ok out, p', s') ->
  Forall (hides_secrets c) (exposed_bytes out).
Proof.
  intros Hen Hred Hok [(_ & _ & e & [=])|(kind & v & b & _ & _ & _ & Hx)]%execute_inv.
  destruct Hx as [(e & _ & [=] & _)|(seq & res & _ & _ & Hf)].
  apply finish_execution_inv in Hf as (_ & (raw & _ & Hrel) & _). rewrite Hen, Hred in Hrel.
  apply redacted_bytes in Hrel. eapply Forall_impl; [exact Hrel|]. intros t (x & Hx).
  by eapply redact_bytes_hides.
Qed.

End Redacted.
