(* ===== verification/RuntimeExamples.v ===== *)
(** * A runtime at work

    A runtime with two rules over the machine of the worked examples: reads are
    allowed, writes need an approval.  Its histories instantiate the theorems about
    the runtime. *)

From stdpp Require Import base tactics list strings.
From Stdlib Require Import ZArith Lia Ascii.
From S2P Require Import Prelude RustStr BTree CoreError CoreIds CorePath CoreResource.
From S2P Require Import CoreRequest CoreDecision CorePermit PolicyModel PolicyEngine PolicySpec PolicyProps.
From S2P Require Import AuditModel AuditVerify AuditChain ApprovalModel ApprovalBroker.
From S2P Require Import ApprovalSpec ApprovalLife Instances ApprovalProps.
From S2P Require Import EnforceFs EnforceFsProps EnforceCmd EnforceNet EnforceNetProps EnforceExamples.
From S2P Require Import Redaction RedactionProps.
From S2P Require Import Runtime RuntimeSpec RuntimeProps RuntimeHistory RuntimeMachine.

Open Scope Z_scope.

#[local] Existing Instances toy_sha toy_sha_laws toy_hex toy_hex_laws toy_json toy_json_laws.
#[local] Existing Instances toy_time toy_time_laws toy_ids_error toy_request_json.
#[local] Existing Instances literal_globs literal_globs_laws.
#[local] Instance brief_debug : ResourceDebug := {| resource_debug _ := "resource" |}.

(** ** The runtime *)

Definition rx_policies : list Policy :=
  [ex_policy [ex_rule "allow-read" E_Allow ["file_read"];
              ex_rule "ask-write" E_RequireApproval ["file_write"]]].

(** A redactor that knows one secret. *)
Definition rx_redactor : Redactor :=
  let hide (s : string) : result string string := Ok (if String.eqb s "old" then "[hidden]" else s) in
  {| redact_text := hide; redact_bytes := hide |}.

Definition rx_rt : KavachRuntime :=
  {| rt_engine := ex_engine rx_policies; rt_config := RuntimeConfig_default;
     rt_approval_config := ApprovalStoreConfig_default; rt_redactor := Some rx_redactor |}.

(** A call at second [sec] without faults; [n] makes its identifiers fresh. *)
Definition rx_call_env (n : string) (sec : Z) : RtEnv :=
  {| re_now _ := sec * SECOND; re_append _ := no_faults;
     re_event_id k := if (k =? 0)%nat then "first-" +:+ n else "second-" +:+ n;
     re_timestamp _ := "now"; re_random := Ok ("permit-" +:+ n); re_broker _ := ap_env n sec |}.

Definition rx_registry : AdapterRegistry :=
  {| reg_filesystem := ex_fs; reg_command := ex_cmd; reg_network := NetworkEnforcer_default |}.
Definition rx_suffix (m : Machine World) : string := "tmp".
Definition rx_machine : Machine World :=
  {| mc_world := ex_world; mc_fs := []; mc_cmd := []; mc_net := [] |}.

Abbreviation rx_fs := (machine_fs (SH := toy_sha) (RJ := toy_request_json) (OS := world_fs) rx_registry rx_suffix).
Abbreviation rx_cmd := (machine_cmd (SH := toy_sha) (RJ := toy_request_json) (OS := world_fs) (PR := world_proc) rx_registry).
Abbreviation rx_net := (machine_net (SH := toy_sha) (RJ := toy_request_json) (NO := world_net) rx_registry).

Definition rx_run (calls : list (RtEnv * RtCall)) :=
  rt_serve (FA := rx_fs) (CA := rx_cmd) (NA := rx_net) calls rx_rt (fresh_state rx_machine).

(** ** An approved write *)

Definition rx_asked : list (RtEnv * RtCall) :=
  [(rx_call_env "1" 10, RC_evaluate ex_write);
   (rx_call_env "2" 20, RC_approve (Id_raw "approval-1") (ApprovalActor_raw "alice"))].
Definition rx_token : ApprovalToken := ApprovalToken_raw "token-2".
Definition rx_state (calls : list (RtEnv * RtCall)) : RtState (Machine World) := snd (rx_run calls).

Lemma rx_run_eq calls :
  rt_serve (FA := rx_fs) (CA := rx_cmd) (NA := rx_net) calls rx_rt (fresh_state rx_machine)
  = (fst (fst (rx_run calls)), snd (fst (rx_run calls)), rx_state calls).
Proof. unfold rx_state. fold (rx_run calls). by destruct (rx_run calls) as [[h rt] s]. Defined.

(** The permit the approval buys. *)
Definition rx_consumed :=
  consume_approval rx_rt (rx_call_env "3" 30) ex_write (Id_raw "approval-1") rx_token
    (rs_broker (rx_state rx_asked)).
Definition rx_permit : ExecutionPermit :=
  ExecutionPermit_new (30 * SECOND) "permit-3" (Id_raw "req-1") FilesystemWrite
    [Id_raw "ask-write"] (compute_request_digest ex_write) (300 * SECOND).
Definition rx_outcome : PermittedOutcome := PermittedOutcome_new rx_permit "permit-3".
Definition rx_ready : RtState (Machine World) :=
  {| rs_broker := snd rx_consumed; rs_world := rx_machine |}.

Lemma rx_consumed_eq :
  consume_approval rx_rt (rx_call_env "3" 30) ex_write (Id_raw "approval-1") rx_token
    (rs_broker (rx_state rx_asked)) = (Ok rx_outcome, snd rx_consumed).
Proof. vm_compute. reflexivity. Defined.

(** The write itself. *)
Definition rx_exec (s : RtState (Machine World)) (p : ExecutionPermit) :=
  execute rx_rt (FA := rx_fs) (CA := rx_cmd) (NA := rx_net) (rx_call_env "4" 40) ex_write p
    "permit-3" (EI_FilesystemWrite "new") s.
Definition rx_written := rx_exec rx_ready rx_permit.

(** The file holds the new content; the log holds the whole story. *)
Example approved_write :
  fst (fst rx_written) = Ok (ER_Filesystem (FO_FileWrite 3)) /\
  node (mc_world (rs_world (snd rx_written))) ["ws"; "a.txt"] = Some (File "new") /\
  length (br_audit (rs_broker (snd rx_written))) = 5%nat.
Proof. vm_compute. by split_and!. Qed.

Lemma rx_written_eq : rx_written = (fst (fst rx_written), snd (fst rx_written), snd rx_written).
Proof. by destruct rx_written as [[r p] s]. Defined.

(** ** Witnesses *)

Lemma execute_gated_witness :
  scope_sufficient (required_scope (tr_operation ex_write)) (ep_scope rx_permit) = true.
Proof.
  destruct (execute_gated (FA := rx_fs) (CA := rx_cmd) (NA := rx_net) rx_rt (rx_call_env "4" 40)
    ex_write rx_permit "permit-3" (EI_FilesystemWrite "new") rx_ready _ _ _ rx_written_eq)
    as [(_ & _ & e & He)|(_ & _ & _ & _ & _ & _ & Hs & _)].
  - vm_compute in He. discriminate.
  - exact Hs.
Defined.

Definition rx_again := rx_exec (snd rx_written) (snd (fst rx_written)).

Lemma permit_executes_once_witness : rs_world (snd rx_again) = rs_world (snd rx_written).
Proof.
  destruct (permit_executes_once (FA := rx_fs) (CA := rx_cmd) (NA := rx_net) rx_rt (rx_call_env "4" 40)
    ex_write rx_permit "permit-3" (EI_FilesystemWrite "new") rx_ready _ _ _
    [(rx_call_env "4" 40, ex_write, "permit-3", EI_FilesystemWrite "new")]
    [fst (fst rx_again)] (snd (fst rx_again)) (snd rx_again) rx_written_eq) as [Hw _].
  - intros [_ [e He]]. vm_compute in He. discriminate.
  - vm_compute. reflexivity.
  - exact Hw.
Defined.

Lemma execute_audited_witness :
  br_approvals (rs_broker (snd rx_written)) = br_approvals (rs_broker rx_ready).
Proof.
  exact (proj1 (execute_audited (FA := rx_fs) (CA := rx_cmd) (NA := rx_net) rx_rt (rx_call_env "4" 40)
    ex_write rx_permit "permit-3" (EI_FilesystemWrite "new") rx_ready _ _ _ eq_refl rx_written_eq)).
Defined.

(** A read the policies allow, and its redacted content. *)
Definition rx_read : ToolRequest := EnforceExamples.ex_request (FileRead None) (R_File EnforceExamples.ex_path).
Definition rx_fresh : RtState (Machine World) := fresh_state rx_machine.
Definition rx_allowed := evaluate rx_rt (rx_call_env "1" 10) rx_read (rs_broker rx_fresh).
Definition rx_read_permit : PermittedOutcome :=
  PermittedOutcome_new
    (ExecutionPermit_new (10 * SECOND) "permit-1" (Id_raw "req-1") FilesystemRead
       [Id_raw "allow-read"] (compute_request_digest rx_read) (300 * SECOND)) "permit-1".
Definition rx_read_run :=
  execute rx_rt (FA := rx_fs) (CA := rx_cmd) (NA := rx_net) (rx_call_env "2" 20) rx_read
    (po_permit rx_read_permit) "permit-1" EI_None
    {| rs_broker := snd rx_allowed; rs_world := rx_machine |}.
Definition rx_content : ExecutionResult := ER_Filesystem (FO_FileRead "[hidden]" 3).

Lemma rx_read_eq : rx_read_run = (Ok rx_content, snd (fst rx_read_run), snd rx_read_run).
Proof. vm_compute. reflexivity. Defined.

Lemma execute_output_redacted_witness : Forall (masked rx_redactor) (exposed_texts rx_content).
Proof.
  exact (execute_output_redacted (FA := rx_fs) (CA := rx_cmd) (NA := rx_net) rx_rt rx_redactor
    (rx_call_env "2" 20) rx_read (po_permit rx_read_permit) "permit-1" EI_None
    {| rs_broker := snd rx_allowed; rs_world := rx_machine |} rx_content
    (snd (fst rx_read_run)) (snd rx_read_run) eq_refl eq_refl rx_read_eq).
Defined.

Lemma evaluate_sound_witness :
  exists reason ids, decision_spec rx_policies rx_read Allow reason ids.
Proof.
  destruct (evaluate_sound rx_rt rx_policies (rx_call_env "1" 10) rx_read (rs_broker rx_fresh)
    (RO_Permitted rx_read_permit) (snd rx_allowed)) as (reason & ids & Hd & _);
    [vm_compute; reflexivity..|]. exists reason, ids. exact Hd.
Defined.

Lemma consume_approval_sound_witness :
  exists row, live_row (br_approvals (rs_broker (rx_state rx_asked))) "approval-1" "approved"
    (30 * SECOND) row.
Proof.
  destruct (consume_approval_sound rx_rt (rx_call_env "3" 30) ex_write (Id_raw "approval-1") rx_token
    (rs_broker (rx_state rx_asked)) _ _ rx_consumed_eq) as (row & _ & _ & _ & _ & Hl & _).
  exists row. exact Hl.
Defined.

(** Another request cannot use the approval, and does not spoil it. *)
Definition rx_other : ToolRequest :=
  {| tr_request_id := Id_raw "req-2"; tr_subject := tr_subject ex_write;
     tr_operation := tr_operation ex_write; tr_resource := tr_resource ex_write;
     tr_context := tr_context ex_write |}.
Definition rx_misused :=
  consume_approval rx_rt (rx_call_env "3" 30) rx_other (Id_raw "approval-1") rx_token
    (rs_broker (rx_state rx_asked)).

Lemma mismatched_request_witness : snd rx_misused = rs_broker (rx_state rx_asked).
Proof.
  apply (mismatched_request_changes_nothing rx_rt (rx_call_env "3" 30) rx_other
    (Id_raw "approval-1") rx_token (rs_broker (rx_state rx_asked)) (fst rx_misused) (snd rx_misused)
    (ap_row (rs_broker (rx_state rx_asked))));
    [vm_compute; reflexivity|vm_compute; discriminate|vm_compute; reflexivity].
Defined.

Lemma permit_provenance_witness :
  exists x req, x ∈ fst (fst (rx_run rx_asked)) /\ asked x req.
Proof.
  destruct (permit_provenance (FA := rx_fs) (CA := rx_cmd) (NA := rx_net) rx_asked rx_rt rx_machine
    (fst (fst (rx_run rx_asked))) (snd (fst (rx_run rx_asked))) (rx_state rx_asked)
    (rx_call_env "3" 30) ex_write (Id_raw "approval-1") rx_token rx_outcome (snd rx_consumed)
    (rx_run_eq rx_asked)) as (_ & _ & (x & req & Hx & Ha & _) & _); [vm_compute; reflexivity|].
  exists x, req. split; [exact Hx|exact Ha].
Defined.

Definition rx_twice : list (RtEnv * RtCall) :=
  rx_asked ++ [(rx_call_env "3" 30, RC_consume ex_write (Id_raw "approval-1") rx_token);
               (rx_call_env "4" 40, RC_consume ex_write (Id_raw "approval-1") rx_token)].

Lemma one_permit_per_approval_witness :
  permit_count "approval-1" (fst (fst (rx_run rx_twice))) = 1%nat /\
  (permit_count "approval-1" (fst (fst (rx_run rx_twice))) <= 1)%nat.
Proof.
  split; [vm_compute; reflexivity|].
  exact (proj1 (one_permit_per_approval (FA := rx_fs) (CA := rx_cmd) (NA := rx_net) rx_twice rx_rt
    rx_machine _ _ _ (rx_run_eq rx_twice)) "approval-1").
Defined.

Lemma execute_confined_witness :
  effects_safe (OS := world_fs) (PR := world_proc) rx_registry ex_write (EI_FilesystemWrite "new")
    (rs_world rx_ready) (rs_world (snd rx_written)).
Proof.
  destruct (execute_confined (OS := world_fs) (PR := world_proc) (NO := world_net) rx_registry rx_suffix
    rx_rt (rx_call_env "4" 40) ex_write rx_permit "permit-3" (EI_FilesystemWrite "new") rx_ready
    _ _ _ rx_written_eq) as [He|(_ & _ & _ & Hs)].
  - vm_compute in He. discriminate.
  - exact Hs.
Defined.

(** The same read with the composite redactor and one configured secret. *)
Definition rx_composite : CompositeRedactor := rd_redactor (rd_add "old" SecretContainer_new).
Definition rx_rt_composite : KavachRuntime :=
  {| rt_engine := ex_engine rx_policies; rt_config := RuntimeConfig_default;
     rt_approval_config := ApprovalStoreConfig_default;
     rt_redactor := Some (composite_redactor rx_composite) |}.
Definition rx_composite_run :=
  execute rx_rt_composite (FA := rx_fs) (CA := rx_cmd) (NA := rx_net) (rx_call_env "2" 20) rx_read
    (po_permit rx_read_permit) "permit-1" EI_None
    {| rs_broker := snd rx_allowed; rs_world := rx_machine |}.
Definition rx_redacted : ExecutionResult :=
  ER_Filesystem (FO_FileRead "[REDACTED:configured_secret]" 3).

Lemma rx_composite_eq :
  rx_composite_run = (Ok rx_redacted, snd (fst rx_composite_run), snd rx_composite_run).
Proof. vm_compute. reflexivity. Defined.

Lemma execute_hides_secrets_witness : hides_secrets rx_composite "[REDACTED:configured_secret]".
Proof.
  assert (Hall : Forall (hides_secrets rx_composite) (exposed_bytes rx_redacted)).
  { apply (execute_hides_secrets (FA := rx_fs) (CA := rx_cmd) (NA := rx_net) rx_rt_composite rx_composite
      (rx_call_env "2" 20) rx_read (po_permit rx_read_permit) "permit-1" EI_None
      {| rs_broker := snd rx_allowed; rs_world := rx_machine |} rx_redacted
      (snd (fst rx_composite_run)) (snd rx_composite_run) eq_refl eq_refl);
      [|exact rx_composite_eq].
    apply Forall_singleton. split; [by apply Utf8.utf8_spec|done]. }
  exact (Forall_inv Hall).
Defined.
