(* ===== verification/ConfigLoad.v ===== *)
(** * Layered configuration (crates/kavach-config/src/lib.rs)

    The configuration records, the built-in defaults, the TOML document, the
    overrides by environment variables and the final validation; [ConfigDocument]
    has the readers that serde derives for the tables.  The TOML parser, the file system and the process environment are parameters; a
    [PathBuf] built from a string is that string.  The width of [usize] is a
    parameter as well, because the code checks that a number fits it. *)

From stdpp Require Import base tactics list strings pretty.
From Stdlib Require Import ZArith Lia Ascii.
From S2P Require Import Prelude RustStr PolicyLoad.

Open Scope Z_scope.

(** ** [str::parse] for unsigned integers *)

(** [ParseIntError] through its [Display]. *)
Inductive ParseIntError := PIE_Empty | PIE_InvalidDigit | PIE_PosOverflow.

Definition pie_text (e : ParseIntError) : string :=
  match e with
  | PIE_Empty => "cannot parse integer from empty string"
  | PIE_InvalidDigit => "invalid digit found in string"
  | PIE_PosOverflow => "number too large to fit in target type"
  end.

(** The loop over the digits, with the checked multiplication and addition of
    an unsigned type whose largest value is [max]; an invalid digit is reported
    before the overflow of the multiplication. *)
Fixpoint parse_decimal (max acc : Z) (s : string) : result ParseIntError Z :=
  match s with
  | EmptyString => Ok acc
  | String c s' =>
      if negb (is_ascii_digit c) then Err PIE_InvalidDigit
      else if max <? acc * 10 then Err PIE_PosOverflow
      else if max <? acc * 10 + (byte_val c - 48) then Err PIE_PosOverflow
      else parse_decimal max (acc * 10 + (byte_val c - 48)) s'
  end.

(** [<u64 as FromStr>::from_str] and the same for [usize]: one leading plus sign
    is skipped, a minus sign is no digit of an unsigned type. *)
Definition parse_unsigned (max : Z) (s : string) : result ParseIntError Z :=
  match s with
  | EmptyString => Err PIE_Empty
  | String c s' =>
      if Ascii.eqb c "+"%char then
        if is_empty s' then Err PIE_InvalidDigit else parse_decimal max 0 s'
      else parse_decimal max 0 s
  end.

Definition u64_max : Z := 2 ^ 64 - 1.

(** ** The configuration *)

Module Config.

(** [ConfigError]; the causes are kept as their texts. *)
Inductive ConfigError :=
| CE_Io (msg : string)
| CE_Parse (msg : string)
| CE_Validation (msg : string)
| CE_Env (msg : string).

(** [#[error(...)]] of [ConfigError]. *)
Definition config_error_text (e : ConfigError) : string :=
  match e with
  | CE_Io m => "failed to read config file: " +:+ m
  | CE_Parse m => "failed to parse config TOML: " +:+ m
  | CE_Validation m => "config validation failed: " +:+ m
  | CE_Env m => "invalid environment variable: " +:+ m
  end.

Record ServerConfig := {
  bind : string;
  allow_non_loopback : bool;
  request_body_limit : Z;
  request_timeout_seconds : Z;
}.

Record SecurityConfig := { workspace_root : string; fail_closed : bool }.

Record PolicyConfig := { files : list string }.

Record AuditConfig := { audit_database : string; verify_on_startup : bool }.

Record ApprovalConfig := {
  approval_database : string;
  default_ttl_seconds : Z;
  max_pending : Z;
}.

Record RedactionConfig := { enabled : bool }.

Record LoggingConfig := { level : string; format : string }.

Record KavachConfig := {
  server : ServerConfig;
  security : SecurityConfig;
  policy : PolicyConfig;
  audit : AuditConfig;
  approval : ApprovalConfig;
  redaction : RedactionConfig;
  logging : LoggingConfig;
}.

(** ** Secure defaults *)

Definition default_bind : string := "127.0.0.1:7421".
Definition default_request_body_limit : Z := 1048576.
Definition default_request_timeout_seconds : Z := 30.
Definition default_workspace_root : string := ".".
Definition default_policy_files : list string := ["./config/default-policy.toml"].
Definition default_audit_database : string := "./data/kavach-audit.db".
Definition default_ttl : Z := 300.
Definition default_approval_database : string := "./data/kavach-approvals.db".
Definition default_max_pending : Z := 1000.
Definition default_log_level : string := "info".
Definition default_log_format : string := "pretty".

(** [impl Default for KavachConfig]. *)
Definition default_config : KavachConfig := {|
  server := {| bind := default_bind; allow_non_loopback := false;
               request_body_limit := default_request_body_limit;
               request_timeout_seconds := default_request_timeout_seconds |};
  security := {| workspace_root := default_workspace_root; fail_closed := true |};
  policy := {| files := default_policy_files |};
  audit := {| audit_database := default_audit_database; verify_on_startup := true |};
  approval := {| approval_database := default_approval_database;
                 default_ttl_seconds := default_ttl; max_pending := default_max_pending |};
  redaction := {| enabled := true |};
  logging := {| level := default_log_level; format := default_log_format |};
|}.

(** ** The TOML document *)

Record TomlServer := {
  t_bind : option string;
  t_allow_non_loopback : option bool;
  t_request_body_limit : option Z;
  t_request_timeout_seconds : option Z;
}.

Record TomlSecurity := { t_workspace_root : option string; t_fail_closed : option bool }.

Record TomlPolicy := { t_files : option (list string) }.

Record TomlAudit := { t_audit_database : option string; t_verify_on_startup : option bool }.

Record TomlApproval := {
  t_approval_database : option string;
  t_default_ttl_seconds : option Z;
  t_max_pending : option Z;
}.

Record TomlRedaction := { t_enabled : option bool }.

Record TomlLogging := { t_level : option string; t_format : option string }.

Record TomlConfig := {
  t_server : TomlServer;
  t_security : TomlSecurity;
  t_policy : TomlPolicy;
  t_audit : TomlAudit;
  t_approval : TomlApproval;
  t_redaction : TomlRedaction;
  t_logging : TomlLogging;
}.

(** [std::env::var]; the text of a [NotUnicode] error shows the raw value. *)
Inductive EnvVar := Env_Value (s : string) | Env_NotPresent | Env_NotUnicode (text : string).

(** The environment, the file system and the parser. *)
Class ConfigSources := {
  env_var : string -> EnvVar;
  read_config : string -> result string string;
  toml_config : string -> result string TomlConfig;
}.

Section Loading.
Context `{ConfigSources} `{UnicodeLower} (usize_max : Z).

(** ** Overrides *)

Definition ENV_PREFIX : string := "KAVACH_".

(** The text of a bool, after [to_lowercase]. *)
Definition parse_bool (s : string) : option bool :=
  if bool_decide (s = "true") || bool_decide (s = "1") || bool_decide (s = "yes") then Some true
  else if bool_decide (s = "false") || bool_decide (s = "0") || bool_decide (s = "no") then Some false
  else None.

Definition env_override_bool (current : bool) (var : string) : result ConfigError bool :=
  match env_var var with
  | Env_Value val =>
      let other := to_lowercase val in
      match parse_bool other with
      | Some b => Ok b
      | None => Err (CE_Env ("invalid bool for " +:+ var +:+ ": " +:+ other))
      end
  | Env_NotPresent => Ok current
  | Env_NotUnicode e => Err (CE_Env (var +:+ ": " +:+ e))
  end.

Definition env_override_string (current var : string) : result ConfigError string :=
  match env_var var with
  | Env_Value val => Ok val
  | Env_NotPresent => Ok current
  | Env_NotUnicode e => Err (CE_Env (var +:+ ": " +:+ e))
  end.

Definition env_override_u64 (current : Z) (var : string) : result ConfigError Z :=
  match env_var var with
  | Env_Value val => map_err (fun e => CE_Env (var +:+ ": " +:+ pie_text e)) (parse_unsigned u64_max val)
  | Env_NotPresent => Ok current
  | Env_NotUnicode e => Err (CE_Env (var +:+ ": " +:+ e))
  end.

Definition env_override_usize (current : Z) (var : string) : result ConfigError Z :=
  match env_var var with
  | Env_Value val => map_err (fun e => CE_Env (var +:+ ": " +:+ pie_text e)) (parse_unsigned usize_max val)
  | Env_NotPresent => Ok current
  | Env_NotUnicode e => Err (CE_Env (var +:+ ": " +:+ e))
  end.

Definition env_override_pathbuf (current var : string) : result ConfigError string :=
  match env_var var with
  | Env_Value val => Ok val
  | Env_NotPresent => Ok current
  | Env_NotUnicode e => Err (CE_Env (var +:+ ": " +:+ e))
  end.

(** [apply_env_overrides]: the variables in the order the code reads them, so
    that the first bad one is reported. *)
Definition apply_env_overrides (cfg : KavachConfig) : result ConfigError KavachConfig :=
  let? v_bind := env_override_string cfg.(server).(bind) (ENV_PREFIX +:+ "SERVER_BIND") in
  let? v_anl := env_override_bool cfg.(server).(allow_non_loopback)
                  (ENV_PREFIX +:+ "SERVER_ALLOW_NON_LOOPBACK") in
  let? v_body := env_override_u64 cfg.(server).(request_body_limit)
                   (ENV_PREFIX +:+ "SERVER_REQUEST_BODY_LIMIT") in
  let? v_time := env_override_u64 cfg.(server).(request_timeout_seconds)
                   (ENV_PREFIX +:+ "SERVER_REQUEST_TIMEOUT") in
  let? v_root := env_override_pathbuf cfg.(security).(workspace_root)
                   (ENV_PREFIX +:+ "SECURITY_WORKSPACE_ROOT") in
  let? v_fail := env_override_bool cfg.(security).(fail_closed)
                   (ENV_PREFIX +:+ "SECURITY_FAIL_CLOSED") in
  let? v_adb := env_override_pathbuf cfg.(audit).(audit_database)
                  (ENV_PREFIX +:+ "AUDIT_DATABASE") in
  let? v_verify := env_override_bool cfg.(audit).(verify_on_startup)
                     (ENV_PREFIX +:+ "AUDIT_VERIFY_ON_STARTUP") in
  let? v_ttl := env_override_u64 cfg.(approval).(default_ttl_seconds)
                  (ENV_PREFIX +:+ "APPROVAL_DEFAULT_TTL") in
  let? v_pdb := env_override_pathbuf cfg.(approval).(approval_database)
                  (ENV_PREFIX +:+ "APPROVAL_DATABASE") in
  let? v_pend := env_override_usize cfg.(approval).(max_pending)
                   (ENV_PREFIX +:+ "APPROVAL_MAX_PENDING") in
  let? v_red := env_override_bool cfg.(redaction).(enabled) (ENV_PREFIX +:+ "REDACTION_ENABLED") in
  let? v_level := env_override_string cfg.(logging).(level) (ENV_PREFIX +:+ "LOGGING_LEVEL") in
  let? v_format := env_override_string cfg.(logging).(format) (ENV_PREFIX +:+ "LOGGING_FORMAT") in
  Ok {| server := {| bind := v_bind; allow_non_loopback := v_anl;
                     request_body_limit := v_body; request_timeout_seconds := v_time |};
        security := {| workspace_root := v_root; fail_closed := v_fail |};
        policy := cfg.(policy);
        audit := {| audit_database := v_adb; verify_on_startup := v_verify |};
        approval := {| approval_database := v_pdb; default_ttl_seconds := v_ttl;
                       max_pending := v_pend |};
        redaction := {| enabled := v_red |};
        logging := {| level := v_level; format := v_format |} |}.

(** ** Validation *)

(** [if cond { return Err(ConfigError::Validation(msg.into())); }]. *)
Definition reject_if (cond : bool) (msg : string) : result ConfigError unit :=
  if cond then Err (CE_Validation msg) else Ok tt.

(** [validate]. *)
Definition validate (cfg : KavachConfig) : result ConfigError unit :=
  let? _ := reject_if (negb cfg.(security).(fail_closed))
    "security.fail_closed must be true; disabling fail-closed is rejected" in
  let? _ := reject_if (negb cfg.(redaction).(enabled))
    "redaction.enabled must be true for the gateway" in
  let? _ := reject_if cfg.(server).(allow_non_loopback)
    "server.allow_non_loopback requires explicit authentication configuration (not yet supported)" in
  let? _ := reject_if (is_empty cfg.(server).(bind)) "server.bind must not be empty" in
  let? _ := reject_if (cfg.(server).(request_body_limit) =? 0)
    "server.request_body_limit must be greater than 0" in
  let? _ := reject_if (cfg.(server).(request_timeout_seconds) =? 0)
    "server.request_timeout_seconds must be greater than 0" in
  let? _ := reject_if (cfg.(approval).(default_ttl_seconds) =? 0)
    "approval.default_ttl_seconds must be greater than 0" in
  let? _ := reject_if (86400 <? cfg.(approval).(default_ttl_seconds))
    "approval.default_ttl_seconds must not exceed 86400" in
  let? _ := reject_if ((cfg.(approval).(max_pending) =? 0) || (10000 <? cfg.(approval).(max_pending)))
    "approval.max_pending must be between 1 and 10000" in
  reject_if (is_empty cfg.(approval).(approval_database)) "approval.database must not be empty".

(** ** Loading *)

Definition merge_option {T} (opt : option T) (default : T) : T :=
  match opt with Some v => v | None => default end.

(** The part of [load_config] that merges the document into the defaults. *)
Definition merge_toml (t : TomlConfig) : result ConfigError KavachConfig :=
  let cfg := default_config in
  let? v_pend :=
    match t.(t_approval).(t_max_pending) with
    | Some value =>
        if value <=? usize_max then Ok value
        else Err (CE_Validation "approval.max_pending does not fit this platform")
    | None => Ok cfg.(approval).(max_pending)
    end in
  Ok {| server :=
          {| bind := merge_option t.(t_server).(t_bind) cfg.(server).(bind);
             allow_non_loopback :=
               merge_option t.(t_server).(t_allow_non_loopback) cfg.(server).(allow_non_loopback);
             request_body_limit :=
               merge_option t.(t_server).(t_request_body_limit) cfg.(server).(request_body_limit);
             request_timeout_seconds :=
               merge_option t.(t_server).(t_request_timeout_seconds)
                 cfg.(server).(request_timeout_seconds) |};
        security :=
          {| workspace_root :=
               merge_option t.(t_security).(t_workspace_root) cfg.(security).(workspace_root);
             fail_closed := merge_option t.(t_security).(t_fail_closed) cfg.(security).(fail_closed) |};
        policy := {| files := merge_option t.(t_policy).(t_files) cfg.(policy).(files) |};
        audit :=
          {| audit_database := merge_option t.(t_audit).(t_audit_database) cfg.(audit).(audit_database);
             verify_on_startup :=
               merge_option t.(t_audit).(t_verify_on_startup) cfg.(audit).(verify_on_startup) |};
        approval :=
          {| approval_database :=
               merge_option t.(t_approval).(t_approval_database) cfg.(approval).(approval_database);
             default_ttl_seconds :=
               merge_option t.(t_approval).(t_default_ttl_seconds)
                 cfg.(approval).(default_ttl_seconds);
             max_pending := v_pend |};
        redaction := {| enabled := merge_option t.(t_redaction).(t_enabled) cfg.(redaction).(enabled) |};
        logging :=
          {| level := merge_option t.(t_logging).(t_level) cfg.(logging).(level);
             format := merge_option t.(t_logging).(t_format) cfg.(logging).(format) |} |}.

(** [load_config]. *)
Definition load_config (path : string) : result ConfigError KavachConfig :=
  let? contents := map_err CE_Io (read_config path) in
  let? toml_cfg := map_err CE_Parse (toml_config contents) in
  let? merged := merge_toml toml_cfg in
  let? cfg := apply_env_overrides merged in
  let? _ := validate cfg in
  Ok cfg.

End Loading.
End Config.

(** ** The derived deserializers of the document *)

Module ConfigDocument.
Import Config.

Definition TomlServer_deserialize : TomlValue -> option TomlServer :=
  toml_struct ["bind"; "allow_non_loopback"; "request_body_limit"; "request_timeout_seconds"] (fun t =>
    bind ← toml_opt toml_string "bind" t;
    allow_non_loopback ← toml_opt toml_bool "allow_non_loopback" t;
    request_body_limit ← toml_opt (toml_uint u64_max) "request_body_limit" t;
    request_timeout_seconds ← toml_opt (toml_uint u64_max) "request_timeout_seconds" t;
    Some {| t_bind := bind; t_allow_non_loopback := allow_non_loopback;
            t_request_body_limit := request_body_limit;
            t_request_timeout_seconds := request_timeout_seconds |}).

Definition TomlSecurity_deserialize : TomlValue -> option TomlSecurity :=
  toml_struct ["workspace_root"; "fail_closed"] (fun t =>
    workspace_root ← toml_opt toml_string "workspace_root" t;
    fail_closed ← toml_opt toml_bool "fail_closed" t;
    Some {| t_workspace_root := workspace_root; t_fail_closed := fail_closed |}).

Definition TomlPolicy_deserialize : TomlValue -> option TomlPolicy :=
  toml_struct ["files"] (fun t =>
    files ← toml_opt (toml_list toml_string) "files" t; Some {| t_files := files |}).

Definition TomlAudit_deserialize : TomlValue -> option TomlAudit :=
  toml_struct ["database"; "verify_on_startup"] (fun t =>
    database ← toml_opt toml_string "database" t;
    verify_on_startup ← toml_opt toml_bool "verify_on_startup" t;
    Some {| t_audit_database := database; t_verify_on_startup := verify_on_startup |}).

Definition TomlApproval_deserialize : TomlValue -> option TomlApproval :=
  toml_struct ["database"; "default_ttl_seconds"; "max_pending"] (fun t =>
    database ← toml_opt toml_string "database" t;
    default_ttl_seconds ← toml_opt (toml_uint u64_max) "default_ttl_seconds" t;
    max_pending ← toml_opt (toml_uint u64_max) "max_pending" t;
    Some {| t_approval_database := database; t_default_ttl_seconds := default_ttl_seconds;
            t_max_pending := max_pending |}).

Definition TomlRedaction_deserialize : TomlValue -> option TomlRedaction :=
  toml_struct ["enabled"] (fun t =>
    enabled ← toml_opt toml_bool "enabled" t; Some {| t_enabled := enabled |}).

Definition TomlLogging_deserialize : TomlValue -> option TomlLogging :=
  toml_struct ["level"; "format"] (fun t =>
    level ← toml_opt toml_string "level" t;
    format ← toml_opt toml_string "format" t;
    Some {| t_level := level; t_format := format |}).

(** A section that is not there is its [Default], which is the empty table's. *)
Definition toml_section {A} (decode : TomlValue -> option A) (k : string) (t : list (string * TomlValue))
  : option A :=
  decode (default (TV_Table []) (toml_get k t)).

Definition TomlConfig_deserialize : TomlValue -> option TomlConfig :=
  toml_struct ["server"; "security"; "policy"; "audit"; "approval"; "redaction"; "logging"] (fun t =>
    server ← toml_section TomlServer_deserialize "server" t;
    security ← toml_section TomlSecurity_deserialize "security" t;
    policy ← toml_section TomlPolicy_deserialize "policy" t;
    audit ← toml_section TomlAudit_deserialize "audit" t;
    approval ← toml_section TomlApproval_deserialize "approval" t;
    redaction ← toml_section TomlRedaction_deserialize "redaction" t;
    logging ← toml_section TomlLogging_deserialize "logging" t;
    Some {| t_server := server; t_security := security; t_policy := policy; t_audit := audit;
            t_approval := approval; t_redaction := redaction; t_logging := logging |}).

End ConfigDocument.
