(* ===== verification/ConfigProps.v ===== *)
(** * Properties of the configuration

    What a loaded configuration contains: every setting comes from the highest
    layer that has it, and the result is in the secure range.  [Setting] states
    the layers of one setting; [Layered] collects them for the whole record. *)

From stdpp Require Import base tactics list strings pretty.
From Stdlib Require Import ZArith Lia Ascii.
From S2P Require Import Prelude RustStr ConfigLoad.
Import ConfigLoad.Config.

Open Scope Z_scope.

(** ** Parsing integers *)

Lemma parse_decimal_bound max acc s n :
  0 <= acc <= max -> parse_decimal max acc s = Ok n -> 0 <= n <= max.
Proof.
  revert acc. induction s as [|c s IH]; intros acc Hacc; simpl; [naive_solver|].
  destruct (is_ascii_digit c) eqn:Hd; simpl; [|done].
  unfold is_ascii_digit, in_range in Hd. apply andb_true_iff in Hd as [H1 H2].
  apply Z.leb_le in H1, H2.
  destruct (Z.ltb_spec max (acc * 10)); [done|].
  destruct (Z.ltb_spec max (acc * 10 + (byte_val c - 48))); [done|].
  apply IH. lia.
Qed.

Lemma parse_unsigned_bound max s n :
  0 <= max -> parse_unsigned max s = Ok n -> 0 <= n <= max.
Proof.
  intros Hmax. unfold parse_unsigned. destruct s as [|c s]; [done|].
  destruct (Ascii.eqb c "+"); [destruct (is_empty s); [done|]|];
    apply parse_decimal_bound; lia.
Qed.

(** ** The layers of a setting *)

Section Layers.
Context `{ConfigSources} `{UnicodeLower} (usize_max : Z).

(** The value [v] of a setting: the environment variable when it is set, else
    the value of the document, else the default.  A variable that is set but
    cannot be read leaves no value at all. *)
Definition Setting {A} (parse : string -> option A) (var : string) (toml : option A) (dflt v : A)
  : Prop :=
  match env_var (ENV_PREFIX +:+ var) with
  | Env_Value s => parse s = Some v
  | Env_NotPresent => v = default dflt toml
  | Env_NotUnicode _ => False
  end.

Definition bool_text (s : string) : option bool := parse_bool (to_lowercase s).

Definition number_text (max : Z) (s : string) : option Z :=
  match parse_unsigned max s with Ok n => Some n | Err _ => None end.

(** The configuration that the environment, a document and the defaults give. *)
Record Layered (t : TomlConfig) (cfg : KavachConfig) : Prop := {
  ly_bind : Setting Some "SERVER_BIND" t.(t_server).(t_bind) "127.0.0.1:7421"
              cfg.(server).(bind);
  ly_loopback : Setting bool_text "SERVER_ALLOW_NON_LOOPBACK"
                  t.(t_server).(t_allow_non_loopback) false cfg.(server).(allow_non_loopback);
  ly_body : Setting (number_text u64_max) "SERVER_REQUEST_BODY_LIMIT"
              t.(t_server).(t_request_body_limit) 1048576 cfg.(server).(request_body_limit);
  ly_timeout : Setting (number_text u64_max) "SERVER_REQUEST_TIMEOUT"
                 t.(t_server).(t_request_timeout_seconds) 30
                 cfg.(server).(request_timeout_seconds);
  ly_root : Setting Some "SECURITY_WORKSPACE_ROOT" t.(t_security).(t_workspace_root) "."
              cfg.(security).(workspace_root);
  ly_fail : Setting bool_text "SECURITY_FAIL_CLOSED" t.(t_security).(t_fail_closed) true
              cfg.(security).(fail_closed);
  ly_files : cfg.(policy).(files)
             = default ["./config/default-policy.toml"] t.(t_policy).(t_files);
  ly_audit : Setting Some "AUDIT_DATABASE" t.(t_audit).(t_audit_database)
               "./data/kavach-audit.db" cfg.(audit).(audit_database);
  ly_verify : Setting bool_text "AUDIT_VERIFY_ON_STARTUP" t.(t_audit).(t_verify_on_startup) true
                cfg.(audit).(verify_on_startup);
  ly_approval : Setting Some "APPROVAL_DATABASE" t.(t_approval).(t_approval_database)
                  "./data/kavach-approvals.db" cfg.(approval).(approval_database);
  ly_ttl : Setting (number_text u64_max) "APPROVAL_DEFAULT_TTL"
             t.(t_approval).(t_default_ttl_seconds) 300 cfg.(approval).(default_ttl_seconds);
  ly_pending : Setting (number_text usize_max) "APPROVAL_MAX_PENDING"
                 t.(t_approval).(t_max_pending) 1000 cfg.(approval).(max_pending);
  ly_redaction : Setting bool_text "REDACTION_ENABLED" t.(t_redaction).(t_enabled) true
                   cfg.(redaction).(enabled);
  ly_level : Setting Some "LOGGING_LEVEL" t.(t_logging).(t_level) "info" cfg.(logging).(level);
  ly_format : Setting Some "LOGGING_FORMAT" t.(t_logging).(t_format) "pretty"
                cfg.(logging).(format);
}.

(** The posture the program may start with. *)
Record Secure (cfg : KavachConfig) : Prop := {
  sec_fail_closed : cfg.(security).(fail_closed) = true;
  sec_redaction : cfg.(redaction).(enabled) = true;
  sec_loopback : cfg.(server).(allow_non_loopback) = false;
  sec_bind : cfg.(server).(bind) <> "";
  sec_body : cfg.(server).(request_body_limit) <> 0;
  sec_timeout : cfg.(server).(request_timeout_seconds) <> 0;
  sec_ttl : cfg.(approval).(default_ttl_seconds) <> 0
            /\ cfg.(approval).(default_ttl_seconds) <= 86400;
  sec_pending : cfg.(approval).(max_pending) <> 0 /\ cfg.(approval).(max_pending) <= 10000;
  sec_database : cfg.(approval).(approval_database) <> "";
}.

(** ** Lemmas on the overrides *)

(** Each override returns exactly the value of its setting, [toml] being already
    merged into the current value. *)
Lemma override_string_setting toml dflt var v :
  env_override_string (merge_option toml dflt) (ENV_PREFIX +:+ var) = Ok v
  <-> Setting Some var toml dflt v.
Proof. unfold env_override_string, Setting. destruct (env_var _), toml; naive_solver. Qed.

Lemma override_path_setting toml dflt var v :
  env_override_pathbuf (merge_option toml dflt) (ENV_PREFIX +:+ var) = Ok v
  <-> Setting Some var toml dflt v.
Proof. apply override_string_setting. Qed.

Lemma override_bool_setting toml dflt var v :
  env_override_bool (merge_option toml dflt) (ENV_PREFIX +:+ var) = Ok v
  <-> Setting bool_text var toml dflt v.
Proof.
  unfold env_override_bool, Setting, bool_text.
  destruct (env_var _); [destruct (parse_bool _)|..]; destruct toml; naive_solver.
Qed.

Lemma override_u64_setting toml dflt var v :
  env_override_u64 (merge_option toml dflt) (ENV_PREFIX +:+ var) = Ok v
  <-> Setting (number_text u64_max) var toml dflt v.
Proof.
  unfold env_override_u64, Setting, number_text.
  destruct (env_var _); [destruct (parse_unsigned _ _)|..]; destruct toml; naive_solver.
Qed.

Lemma override_usize_setting toml dflt var v :
  env_override_usize usize_max (merge_option toml dflt) (ENV_PREFIX +:+ var) = Ok v
  <-> Setting (number_text usize_max) var toml dflt v.
Proof.
  unfold env_override_usize, Setting, number_text.
  destruct (env_var _); [destruct (parse_unsigned _ _)|..]; destruct toml; naive_solver.
Qed.

Lemma reject_if_ok b m : reject_if b m = Ok tt <-> b = false.
Proof. destruct b; naive_solver. Qed.

(** A sequence of checks passes exactly when each does. *)
Lemma check_bind {E B} (m : result E unit) (k : result E B) v :
  (let? _ := m in k) = Ok v <-> m = Ok tt /\ k = Ok v.
Proof. destruct m as [[]|]; naive_solver. Qed.

Lemma validate_secure cfg : validate cfg = Ok tt <-> Secure cfg.
Proof.
  unfold validate.
  rewrite !check_bind, !reject_if_ok, !negb_false_iff, !is_empty_false, orb_false_iff,
    !Z.eqb_neq, !Z.ltb_ge.
  split; [intros; destruct_and!; by constructor|intros []; tauto].
Qed.

Lemma ok_bind {E A B} (m : result E A) (k : A -> result E B) v :
  (let? x := m in k x) = Ok v <-> exists x, m = Ok x /\ k x = Ok v.
Proof. destruct m; naive_solver. Qed.

(** The number of pending approvals a document asks for fits [usize]. *)
Definition pending_fits (t : TomlConfig) : Prop :=
  match t.(t_approval).(t_max_pending) with Some n => n <= usize_max | None => True end.

(** The merged document, when its numbers fit. *)
Lemma merge_toml_ok t cfg :
  merge_toml usize_max t = Ok cfg ->
  pending_fits t
  /\ cfg.(policy).(files) = default ["./config/default-policy.toml"] t.(t_policy).(t_files)
  /\ forall cfg', apply_env_overrides usize_max cfg = Ok cfg' <-> Layered t cfg'.
Proof.
  unfold merge_toml, pending_fits. intros (n & Hn & [= <-])%ok_bind.
  assert (Hp : n = merge_option t.(t_approval).(t_max_pending) 1000
               /\ match t.(t_approval).(t_max_pending) with
                  | Some n => n <= usize_max | None => True end).
  { revert Hn. destruct (t_max_pending _) as [v|]; [|naive_solver].
    destruct (Z.leb_spec v usize_max); naive_solver. }
  destruct Hp as [-> Hfit]. split; [done|]. split; [by destruct (t_files _)|].
  intros cfg'. unfold apply_env_overrides; cbn [server security policy audit approval redaction
    logging bind allow_non_loopback request_body_limit request_timeout_seconds workspace_root
    fail_closed files audit_database verify_on_startup approval_database default_ttl_seconds
    max_pending enabled level format].
  repeat setoid_rewrite ok_bind. repeat setoid_rewrite override_string_setting.
  repeat setoid_rewrite override_path_setting. repeat setoid_rewrite override_bool_setting.
  repeat setoid_rewrite override_u64_setting. repeat setoid_rewrite override_usize_setting.
  split.
  - intros. repeat match goal with H : exists _, _ |- _ => destruct H as (? & ? & H) end.
    match goal with H : Ok _ = Ok _ |- _ => injection H as <- end.
    by constructor.
  - intros []. do 14 (eexists; split; [eassumption|]). destruct cfg' as [[] [] [] [] [] [] []].
    simpl in *. subst. by destruct (t_files _).
Qed.

Lemma merge_toml_total t : pending_fits t -> exists cfg, merge_toml usize_max t = Ok cfg.
Proof.
  unfold merge_toml, pending_fits. destruct (t_max_pending _) as [v|]; [|by eexists].
  intros Hv%Z.leb_le. rewrite Hv. by eexists.
Qed.

Lemma load_config_inv path cfg :
  load_config usize_max path = Ok cfg ->
  exists contents t,
    read_config path = Ok contents /\ toml_config contents = Ok t /\ pending_fits t
    /\ Layered t cfg /\ Secure cfg.
Proof.
  unfold load_config. intros (c & Hc & (t & Ht & Hm)%ok_bind)%ok_bind.
  destruct (read_config path) as [c'|]; simplify_eq/=.
  destruct (toml_config c) as [t'|] eqn:Htc; simplify_eq/=.
  apply ok_bind in Hm as (m & Hm & (cfg' & Ha & Hv)%ok_bind).
  apply check_bind in Hv as [Hv%validate_secure [= ->]].
  destruct (merge_toml_ok t m Hm) as (Hfit & _ & Hl). exists c, t. by rewrite <- Hl.
Qed.

(** (C36) Loading returns a configuration exactly when the file is read, its
    text is a configuration document whose numbers fit the platform, and the
    layers give a secure configuration; that configuration is then the one
    returned.  Every setting is the one of its environment variable if that is
    set, else of the document, else the built-in default (the policy files have no
    variable); a variable that is set but not readable, a document or an
    environment that turns fail-closed or redaction off or asks for a non-loopback
    server, an empty bind address and a limit out of range make loading fail. *)
Theorem load_config_exact path cfg :
  load_config usize_max path = Ok cfg
  <-> exists contents t,
        read_config path = Ok contents /\ toml_config contents = Ok t /\ pending_fits t
        /\ Layered t cfg /\ Secure cfg.
Proof.
  split; [apply load_config_inv|]. intros (c & t & Hc & Ht & Hfit & Hlay & Hsec).
  unfold load_config. rewrite Hc. cbn. rewrite Ht. cbn.
  destruct (merge_toml_total t Hfit) as [m Hm]. destruct (merge_toml_ok t m Hm) as (_ & _ & Hl).
  rewrite Hm. cbn. rewrite (proj2 (Hl cfg) Hlay). cbn.
  by rewrite (proj2 (validate_secure cfg) Hsec).
Qed.

(** The numbers of a document are [u64] values. *)
Record TomlNumbers (t : TomlConfig) : Prop := {
  tn_body : forall n, t.(t_server).(t_request_body_limit) = Some n -> 0 <= n <= u64_max;
  tn_timeout : forall n, t.(t_server).(t_request_timeout_seconds) = Some n -> 0 <= n <= u64_max;
  tn_ttl : forall n, t.(t_approval).(t_default_ttl_seconds) = Some n -> 0 <= n <= u64_max;
  tn_pending : forall n, t.(t_approval).(t_max_pending) = Some n -> 0 <= n <= u64_max;
}.

Lemma number_setting_bound max var toml dflt v :
  0 <= max -> 0 <= dflt -> (forall n, toml = Some n -> 0 <= n) ->
  Setting (number_text max) var toml dflt v -> 0 <= v.
Proof.
  intros Hm Hd Ht. unfold Setting, number_text. destruct (env_var _) as [s| |]; [|..|done].
  - destruct (parse_unsigned max s) as [n|] eqn:Hp; [|done]. intros [= <-].
    by apply parse_unsigned_bound in Hp as [? _].
  - intros ->. destruct toml; simpl; auto.
Qed.

(** The limits of a loaded configuration are positive and in range. *)
Lemma loaded_limits path cfg :
  0 <= usize_max ->
  (forall c t, toml_config c = Ok t -> TomlNumbers t) ->
  load_config usize_max path = Ok cfg ->
  1 <= cfg.(server).(request_body_limit)
  /\ 1 <= cfg.(server).(request_timeout_seconds)
  /\ 1 <= cfg.(approval).(default_ttl_seconds) <= 86400
  /\ 1 <= cfg.(approval).(max_pending) <= 10000.
Proof.
  intros Hu Hnum Hl. apply load_config_inv in Hl as (c & t & _ & Ht & _ & [] & []).
  destruct (Hnum c t Ht) as [Hb Hti Htl Hp].
  apply (number_setting_bound _ _ _ _ _) in ly_body0; [|done|lia|naive_solver].
  apply (number_setting_bound _ _ _ _ _) in ly_timeout0; [|done|lia|naive_solver].
  apply (number_setting_bound _ _ _ _ _) in ly_ttl0; [|done|lia|naive_solver].
  apply (number_setting_bound _ _ _ _ _) in ly_pending0; [|lia|lia|naive_solver].
  lia.
Qed.

End Layers.

(** ** A run: the document sets a bind address and a limit, the environment
    overrides the limit *)

Module ConfigExamples.

Definition empty_toml : TomlConfig := {|
  t_server := {| t_bind := Some "127.0.0.1:9090"; t_allow_non_loopback := None;
                 t_request_body_limit := Some 4096; t_request_timeout_seconds := None |};
  t_security := {| t_workspace_root := None; t_fail_closed := None |};
  t_policy := {| t_files := None |};
  t_audit := {| t_audit_database := None; t_verify_on_startup := Some false |};
  t_approval := {| t_approval_database := None; t_default_ttl_seconds := None;
                   t_max_pending := Some 12 |};
  t_redaction := {| t_enabled := None |};
  t_logging := {| t_level := None; t_format := None |};
|}.

Definition sources (env : list (string * string)) : ConfigSources := {|
  env_var := fun v =>
    match List.find (fun kv => bool_decide (kv.1 = v)) env with
    | Some kv => Env_Value kv.2
    | None => Env_NotPresent
    end;
  read_config := fun p => if bool_decide (p = "kavach.toml") then Ok "text" else Err "no such file";
  toml_config := fun c => if bool_decide (c = "text") then Ok empty_toml else Err "unexpected text";
|}.

Definition lower_id : UnicodeLower := {| unicode_lowercase := fun s => s |}.

(** The limit of the environment wins over the document's; the rest is kept. *)
Example env_wins :
  match @load_config (sources [("KAVACH_SERVER_REQUEST_BODY_LIMIT", "+512")]) lower_id u64_max
          "kavach.toml" with
  | Ok cfg => (cfg.(server).(bind), cfg.(server).(request_body_limit),
               cfg.(server).(request_timeout_seconds), cfg.(approval).(max_pending),
               cfg.(audit).(verify_on_startup))
              = ("127.0.0.1:9090", 512, 30, 12, false)
  | Err _ => False
  end.
Proof. vm_compute. reflexivity. Qed.

(** Fail-closed cannot be turned off, in any spelling of false. *)
Example fail_open_refused :
  @load_config (sources [("KAVACH_SECURITY_FAIL_CLOSED", "No")]) lower_id u64_max "kavach.toml"
  = Err (CE_Validation "security.fail_closed must be true; disabling fail-closed is rejected").
Proof. vm_compute. reflexivity. Qed.

(** The first unreadable variable is reported. *)
Example bad_number_reported :
  @load_config (sources [("KAVACH_APPROVAL_MAX_PENDING", "many");
                         ("KAVACH_APPROVAL_DEFAULT_TTL", "18446744073709551616")])
    lower_id u64_max "kavach.toml"
  = Err (CE_Env "KAVACH_APPROVAL_DEFAULT_TTL: number too large to fit in target type").
Proof. vm_compute. reflexivity. Qed.

(** A bind address on every interface passes the loader; the gateway refuses it. *)
Example bind_not_inspected :
  match @load_config (sources [("KAVACH_SERVER_BIND", "0.0.0.0:80")]) lower_id u64_max
          "kavach.toml" with
  | Ok cfg => cfg.(server).(bind) = "0.0.0.0:80"
  | Err _ => False
  end.
Proof. vm_compute. reflexivity. Qed.

End ConfigExamples.
