(* ===== verification/GatewayModel.v ===== *)
(** * The HTTP gateway: errors, tokens, registries, limits

    crates/kavach-gateway/src (error.rs, auth.rs, state.rs, the rate limiter and
    the address check of server.rs).  A [HashMap] behind a [Mutex] is a finite map
    and each of its operations one step; the permits it points to ([Arc<Mutex>])
    live on a heap, so that a permit handed out stays the same object.  A poisoned
    lock is an argument of the operations that take it. *)

From stdpp Require Import base tactics list strings gmap.
From Stdlib Require Import ZArith Lia Ascii.
From S2P Require Import Prelude RustStr CoreError CoreIds CorePath CoreResource.
From S2P Require Import CoreRequest CorePermit AuditModel ApprovalModel EnforceNet.

Open Scope Z_scope.

(** ** Errors (error.rs) *)

(** [KavachErrorCode]. *)
Inductive KavachErrorCode :=
| KC_InvalidRequest | KC_Unauthenticated | KC_Forbidden | KC_NotFound | KC_Conflict
| KC_PayloadTooLarge | KC_RateLimited | KC_Timeout | KC_InternalError | KC_DependencyUnavailable.

(** [KavachErrorCode::as_str] and [http_status]. *)
Definition KavachErrorCode_as_str (c : KavachErrorCode) : string :=
  match c with
  | KC_InvalidRequest => "KAVACH_INVALID_REQUEST"
  | KC_Unauthenticated => "KAVACH_UNAUTHENTICATED"
  | KC_Forbidden => "KAVACH_FORBIDDEN"
  | KC_NotFound => "KAVACH_NOT_FOUND"
  | KC_Conflict => "KAVACH_CONFLICT"
  | KC_PayloadTooLarge => "KAVACH_PAYLOAD_TOO_LARGE"
  | KC_RateLimited => "KAVACH_RATE_LIMITED"
  | KC_Timeout => "KAVACH_TIMEOUT"
  | KC_InternalError => "KAVACH_INTERNAL_ERROR"
  | KC_DependencyUnavailable => "KAVACH_DEPENDENCY_UNAVAILABLE"
  end.

Definition http_status (c : KavachErrorCode) : Z :=
  match c with
  | KC_InvalidRequest => 400
  | KC_Unauthenticated => 401
  | KC_Forbidden => 403
  | KC_NotFound => 404
  | KC_Conflict => 409
  | KC_PayloadTooLarge => 413
  | KC_RateLimited => 429
  | KC_Timeout => 504
  | KC_InternalError => 500
  | KC_DependencyUnavailable => 503
  end.

(** [GatewayError]. *)
Record GatewayError := { ge_code : KavachErrorCode; ge_message : string; ge_status : Z }.

Definition GatewayError_new (code : KavachErrorCode) (message : string) : GatewayError :=
  {| ge_code := code; ge_message := message; ge_status := http_status code |}.

Definition bad_request : string -> GatewayError := GatewayError_new KC_InvalidRequest.
Definition unauthorized : string -> GatewayError := GatewayError_new KC_Unauthenticated.
Definition forbidden : string -> GatewayError := GatewayError_new KC_Forbidden.
Definition not_found : string -> GatewayError := GatewayError_new KC_NotFound.
Definition conflict : string -> GatewayError := GatewayError_new KC_Conflict.
Definition internal : string -> GatewayError := GatewayError_new KC_InternalError.

(** ** The API token (auth.rs) *)

(** [GatewayToken]. *)
Record GatewayToken := GatewayToken_from_hash { gt_hash : string }.

Section Token.
Context `{Sha256} `{HexLib}.

(** [GatewayToken::generate] from the bytes of [getrandom]: the token and the text
    for the operator. *)
Definition GatewayToken_generate (raw : string) : GatewayToken * string :=
  (GatewayToken_from_hash (sha256 raw), hex_encode raw).

(** [GatewayToken::verify]; [constant_time_eq] is equality of bytes. *)
Definition GatewayToken_verify (t : GatewayToken) (token_hex : string) : bool :=
  if negb (len token_hex =? 64) || negb (all_bytes is_ascii_hexdigit token_hex) then false
  else
    match hex_decode token_hex with
    | Err _ => false
    | Ok raw => if negb (len raw =? 32) then false else String.eqb (sha256 raw) (gt_hash t)
    end.

(** [HeaderValue::to_str]: visible ASCII and tabs. *)
Definition header_to_str (v : string) : option string :=
  if all_bytes (fun c => in_range 32 126 c || (byte_val c =? 9)) v then Some v else None.

(** [require_auth], up to the call of the handler. *)
Definition require_auth (t : GatewayToken) (authorization : option string)
  : result GatewayError unit :=
  let? auth_header := ok_or (unauthorized "missing Authorization header")
                        (match authorization with Some v => header_to_str v | None => None end) in
  let? token_hex := ok_or (unauthorized "Authorization header must use Bearer scheme")
                      (strip_prefix "Bearer " auth_header) in
  if negb (GatewayToken_verify t token_hex) then Err (unauthorized "invalid API token") else Ok tt.

(** The token of the running gateway, from the configured text ([start]). *)
Definition start_token (token_hex : option string) : result string GatewayToken :=
  match token_hex with
  | None => Err "gateway authentication token is required"
  | Some hex_str =>
      if negb (len hex_str =? 64) || negb (all_bytes is_ascii_hexdigit hex_str) then
        Err "gateway token must be exactly 64 hexadecimal characters"
      else
        let? raw := map_err (fun _ => "invalid token hex") (hex_decode hex_str) in
        if negb (len raw =? 32) then
          Err "gateway token must be exactly 32 bytes (64 hex characters)"
        else Ok (GatewayToken_from_hash (sha256 raw))
  end.

End Token.

(** ** The rate limiter (state.rs) *)

(** [RateLimiter]; instants in nanoseconds, the newest last. *)
Record RateLimiter := {
  rl_timestamps : list Z;
  rl_max_per_second : Z;
  rl_burst : Z;
}.

Definition RateLimiter_new (max_per_second burst : Z) : RateLimiter :=
  {| rl_timestamps := []; rl_max_per_second := max_per_second; rl_burst := burst |}.

(** [Instant::duration_since] is zero for a later instant. *)
Definition duration_since (now t : Z) : Z := Z.max 0 (now - t).

(** [RateLimiter::check] at [now]. *)
Definition RateLimiter_check (now : Z) (rl : RateLimiter) : bool * RateLimiter :=
  let recent := List.filter (fun t => duration_since now t <? 1000000000) (rl_timestamps rl) in
  let kept ts := {| rl_timestamps := ts; rl_max_per_second := rl_max_per_second rl;
                    rl_burst := rl_burst rl |} in
  if rl_burst rl <=? Z.of_nat (length recent) then (false, kept recent)
  else if rl_max_per_second rl <=? Z.of_nat (length recent) then (false, kept recent)
  else (true, kept (recent ++ [now])).

(** [rate_limit], up to the call of the next layer. *)
Definition rate_limit (now : Z) (rl : RateLimiter) : result GatewayError unit * RateLimiter :=
  let '(allowed, rl') := RateLimiter_check now rl in
  (if negb allowed then Err (GatewayError_new KC_RateLimited "rate limit exceeded") else Ok tt, rl').

(** ** Issued permits (state.rs) *)

Definition MAX_ISSUED_PERMITS : Z := 10000.

(** Where the [Mutex<ExecutionPermit>] behind an [Arc] is. *)
Abbreviation Loc := nat.

(** [IssuedPermitRegistry] with the permits its [Arc]s point to. *)
Record IssuedPermitRegistry := {
  ip_heap : list ExecutionPermit;
  ip_map : gmap string Loc;
}.

Definition IssuedPermitRegistry_new : IssuedPermitRegistry := {| ip_heap := []; ip_map := ∅ |}.

(** What the operations find locked up: the registry's own lock and the locks of
    the permits may be poisoned. *)
Record PermitLocks := { pl_registry : bool; pl_permit : Loc -> bool }.

(** The predicate of [retain]. *)
Definition permit_live (locks : PermitLocks) (now : Z) (heap : list ExecutionPermit) (l : Loc)
  : bool :=
  if pl_permit locks l then false
  else match heap !! l with
       | Some p => negb (ExecutionPermit_is_expired now p) && negb (ExecutionPermit_is_consumed p)
       | None => false
       end.

(** [permits.retain(...)], with one reading of the clock for the whole pass. *)
Definition retain_permits (locks : PermitLocks) (now : Z) (reg : IssuedPermitRegistry)
  : IssuedPermitRegistry :=
  {| ip_heap := ip_heap reg;
     ip_map := filter (fun kv => permit_live locks now (ip_heap reg) kv.2 = true) (ip_map reg) |}.

(** [IssuedPermitRegistry::register]. *)
Definition permits_register (locks : PermitLocks) (now : Z) (permit : ExecutionPermit)
  : stateful IssuedPermitRegistry string unit :=
  fun reg =>
    if pl_registry locks then (Err "permit registry lock", reg)
    else
      let reg1 := retain_permits locks now reg in
      if MAX_ISSUED_PERMITS <=? Z.of_nat (size (ip_map reg1)) then
        (Err "permit registry capacity reached", reg1)
      else
        (Ok tt, {| ip_heap := ip_heap reg1 ++ [permit];
                   ip_map := <[ep_token_hash permit := length (ip_heap reg1)]> (ip_map reg1) |}).

(** [IssuedPermitRegistry::get]. *)
Definition permits_get (locks : PermitLocks) (now : Z) (token_hash : string)
  : stateful IssuedPermitRegistry string (option Loc) :=
  fun reg =>
    if pl_registry locks then (Err "permit registry lock", reg)
    else
      let reg1 := retain_permits locks now reg in
      (Ok (ip_map reg1 !! token_hash), reg1).

(** [IssuedPermitRegistry::remove]. *)
Definition permits_remove (locks : PermitLocks) (token_hash : string)
  : stateful IssuedPermitRegistry string unit :=
  fun reg =>
    if pl_registry locks then (Err "permit registry lock", reg)
    else (Ok tt, {| ip_heap := ip_heap reg; ip_map := delete token_hash (ip_map reg) |}).

(** ** Approval tokens (state.rs) *)

(** [ApprovalTokenEntry]. *)
Record ApprovalTokenEntry := { ate_token : option ApprovalToken; ate_expires_at : Z }.

(** [ApprovalTokenRegistry]. *)
Abbreviation ApprovalTokenRegistry := (gmap string ApprovalTokenEntry).

(** [tokens.retain(|_, entry| entry.expires_at > now)]. *)
Definition retain_tokens (now : Z) (tokens : ApprovalTokenRegistry) : ApprovalTokenRegistry :=
  filter (fun kv => now < ate_expires_at kv.2) tokens.

(** [ApprovalTokenRegistry::reserve]; [poisoned] is the state of its lock. *)
Definition tokens_reserve (poisoned : bool) (now : Z) (approval_id : string) (expires_at : Z)
  : stateful ApprovalTokenRegistry string unit :=
  fun tokens =>
    if poisoned then (Err "approval token registry lock", tokens)
    else
      let tokens1 := retain_tokens now tokens in
      match tokens1 !! approval_id with
      | Some _ => (Err "approval token is already reserved", tokens1)
      | None =>
          if MAX_ISSUED_PERMITS <=? Z.of_nat (size tokens1) then
            (Err "approval token registry capacity reached", tokens1)
          else (Ok tt, <[approval_id := {| ate_token := None; ate_expires_at := expires_at |}]> tokens1)
      end.

(** [ApprovalTokenRegistry::fulfill]. *)
Definition tokens_fulfill (poisoned : bool) (approval_id : string) (token : ApprovalToken)
  : stateful ApprovalTokenRegistry string unit :=
  fun tokens =>
    if poisoned then (Err "approval token registry lock", tokens)
    else
      match tokens !! approval_id with
      | None => (Err "approval token reservation missing", tokens)
      | Some entry =>
          (Ok tt, <[approval_id := {| ate_token := Some token;
                                      ate_expires_at := ate_expires_at entry |}]> tokens)
      end.

(** [ApprovalTokenRegistry::get]. *)
Definition tokens_get (poisoned : bool) (now : Z) (approval_id : string)
  : stateful ApprovalTokenRegistry string (option ApprovalToken) :=
  fun tokens =>
    if poisoned then (Err "approval token registry lock", tokens)
    else
      let tokens1 := retain_tokens now tokens in
      (Ok (match tokens1 !! approval_id with Some entry => ate_token entry | None => None end), tokens1).

(** [ApprovalTokenRegistry::remove]. *)
Definition tokens_remove (poisoned : bool) (approval_id : string)
  : stateful ApprovalTokenRegistry string unit :=
  fun tokens =>
    if poisoned then (Err "approval token registry lock", tokens)
    else (Ok tt, delete approval_id tokens).
