(* ===== verification/GatewayTypes.v ===== *)
(** * The HTTP gateway: transfer objects

    crates/kavach-gateway/src/types.rs and the conversion of execution inputs of
    routes/execute.rs.  What serde derives (JSON of the objects) is outside; the
    conversions from and to the objects of the runtime are here. *)

From stdpp Require Import base tactics list strings.
From Stdlib Require Import ZArith Lia Ascii.
From S2P Require Import Prelude RustStr CoreError CoreIds CorePath CoreResource CoreRequest.
From S2P Require Import CoreDecision CorePermit AuditModel ApprovalModel.
From S2P Require Import EnforceFs EnforceCmd EnforceNet Runtime GatewayModel.

Open Scope Z_scope.

(** ** Permits *)

(** [PermitDto]; the token hash is a byte vector. *)
Record PermitDto := {
  pd_permit_token_hash : string;
  pd_request_id : string;
  pd_scope : string;
  pd_matched_rule_ids : list string;
  pd_issued_at_secs : Z;
  pd_issued_at_nanos : Z;
  pd_expires_at_secs : Z;
  pd_expires_at_nanos : Z;
  pd_request_digest : string;
  pd_consumed : bool;
}.

(** [duration_since(UNIX_EPOCH).unwrap_or_default()]. *)
Definition since_epoch (t : Z) : Z := Z.max 0 t.

Section Dto.
Context `{HexLib}.

(** [impl From<&ExecutionPermit> for PermitDto]. *)
Definition PermitDto_from (p : ExecutionPermit) : PermitDto :=
  let issued := since_epoch (ep_issued_at p) in
  let expires := since_epoch (ep_expires_at p) in
  {| pd_permit_token_hash := ep_token_hash p;
     pd_request_id := id_str (ep_request_id p);
     pd_scope := PermitScope_debug (ep_scope p);
     pd_matched_rule_ids := map id_str (ep_matched_rule_ids p);
     pd_issued_at_secs := issued / NANOS_PER_SEC;
     pd_issued_at_nanos := issued mod NANOS_PER_SEC;
     pd_expires_at_secs := expires / NANOS_PER_SEC;
     pd_expires_at_nanos := expires mod NANOS_PER_SEC;
     pd_request_digest := hex_encode (ep_request_digest p);
     pd_consumed := ep_consumed p |}.

(** The derived [Deserialize] of [PermitScope], from a JSON string. *)
Definition PermitScope_from_json (s : string) : option PermitScope :=
  if String.eqb s "FilesystemRead" then Some FilesystemRead
  else if String.eqb s "FilesystemWrite" then Some FilesystemWrite
  else if String.eqb s "FilesystemMutation" then Some FilesystemMutation
  else if String.eqb s "CommandLowRisk" then Some CommandLowRisk
  else if String.eqb s "CommandElevated" then Some CommandElevated
  else if String.eqb s "CommandDestructive" then Some CommandDestructive
  else if String.eqb s "NetworkRequest" then Some PS_NetworkRequest
  else None.

(** [UNIX_EPOCH + Duration::new(secs, nanos)]; [None] when the addition panics. *)
Definition system_time (secs nanos : Z) : option Z :=
  let t := secs * NANOS_PER_SEC + nanos in
  if t <=? MAX_SYSTEM_TIME then Some t else None.

(** [ExecuteRequest::reconstruct_permit]; [None] is a panic. *)
Definition reconstruct_permit (permit : PermitDto) : option (result GatewayError ExecutionPermit) :=
  let checks :=
    let? scope := ok_or (bad_request ("invalid permit scope: " +:+ pd_scope permit))
                    (PermitScope_from_json (pd_scope permit)) in
    let? request_id :=
      map_err (fun e => bad_request ("invalid request_id in permit: " +:+ DomainError_display e))
        (Id_new (pd_request_id permit)) in
    let? matched_rule_ids :=
      map_result
        (fun id => map_err (fun error => bad_request ("invalid matched rule ID in permit: "
                                                       +:+ DomainError_display error)) (Id_new id))
        (pd_matched_rule_ids permit) in
    let? bytes := map_err (fun _ => bad_request "invalid request_digest hex in permit")
                    (hex_decode (pd_request_digest permit)) in
    if negb (len bytes =? 32) then Err (bad_request "request_digest must be 32 bytes")
    else Ok (scope, request_id, matched_rule_ids, bytes) in
  match checks with
  | Err e => Some (Err e)
  | Ok (scope, request_id, matched_rule_ids, request_digest) =>
      match system_time (pd_issued_at_secs permit) (pd_issued_at_nanos permit),
            system_time (pd_expires_at_secs permit) (pd_expires_at_nanos permit) with
      | Some issued_at, Some expires_at =>
          Some (Ok {| ep_token_hash := pd_permit_token_hash permit;
                      ep_request_id := request_id;
                      ep_scope := scope;
                      ep_matched_rule_ids := matched_rule_ids;
                      ep_issued_at := issued_at;
                      ep_expires_at := expires_at;
                      ep_request_digest := request_digest;
                      ep_consumed := pd_consumed permit |})
      | _, _ => None
      end
  end.

(** [ExecuteRequest::parse_secret]. *)
Definition parse_secret (permit_secret_hex : string) : result GatewayError string :=
  let? bytes := map_err (fun _ => bad_request "invalid permit_secret_hex: not valid hex")
                  (hex_decode permit_secret_hex) in
  if negb (len bytes =? 32) then
    Err (bad_request "permit_secret_hex must be 32 bytes (64 hex chars)")
  else Ok bytes.

(** ** Outcomes, approvals, events *)

(** [EvaluateOutcomeDto]. *)
Inductive EvaluateOutcomeDto :=
| EO_Denied (request_id reason_code : string) (matched_rule_ids : list string)
    (sanitized_summary : string) (audit_event_id : Z)
| EO_ApprovalRequired (request_id approval_id sanitized_summary : string) (audit_event_id : Z)
| EO_Permitted (request_id : string) (permit : PermitDto) (permit_secret_hex : string).

(** [ApprovalRecordDto]. *)
Record ApprovalRecordDto := {
  ard_approval_id : string;
  ard_request_id : string;
  ard_summary : string;
  ard_operation : string;
  ard_resource_kind : string;
  ard_matched_rule_ids : list string;
  ard_state : string;
  ard_actor : option string;
  ard_denial_reason : option string;
  ard_created_at : string;
  ard_expires_at : string;
  ard_decision_at : option string;
  ard_consumed_at : option string;
  ard_audit_sequence : option Z;
}.

(** [impl From<ApprovalRecord> for ApprovalRecordDto]. *)
Definition ApprovalRecordDto_from `{Rfc3339} (r : ApprovalRecord) : ApprovalRecordDto :=
  {| ard_approval_id := id_str (ar_approval_id r);
     ard_request_id := ar_request_id r;
     ard_summary := ar_summary r;
     ard_operation := ar_operation r;
     ard_resource_kind := ar_resource_kind r;
     ard_matched_rule_ids := ar_matched_rule_ids r;
     ard_state := ApprovalState_display (ar_state r);
     ard_actor := option_map actor_str (ar_actor r);
     ard_denial_reason := ar_denial_reason r;
     ard_created_at := to_rfc3339 (ar_created_at r);
     ard_expires_at := to_rfc3339 (ar_expires_at r);
     ard_decision_at := option_map to_rfc3339 (ar_decision_at r);
     ard_consumed_at := option_map to_rfc3339 (ar_consumed_at r);
     ard_audit_sequence := ar_audit_sequence r |}.

(** [AuditEventsQuery]. *)
Record AuditEventsQuery := {
  aq_after : option Z;
  aq_before : option Z;
  aq_request_id : option string;
  aq_category : option string;
  aq_limit : option Z;
}.

(** [AuditEventDto]. *)
Record AuditEventDto := {
  aed_sequence : Z;
  aed_event_id : string;
  aed_timestamp : string;
  aed_category : string;
  aed_request_id : option string;
  aed_agent_id : option string;
  aed_operation : option string;
  aed_resource_kind : option string;
  aed_decision : option string;
  aed_reason_code : option string;
  aed_summary : option string;
  aed_matched_rule_ids : list string;
  aed_previous_hash : string;
  aed_current_hash : string;
}.

(** [impl From<AuditEventRecord> for AuditEventDto]; a hash is shown in hex. *)
Definition AuditEventDto_from (e : AuditEventRecord) : AuditEventDto :=
  {| aed_sequence := ev_sequence e;
     aed_event_id := ev_event_id e;
     aed_timestamp := ev_timestamp e;
     aed_category := category_display (ev_category e);
     aed_request_id := ev_request_id e;
     aed_agent_id := ev_agent_id e;
     aed_operation := ev_operation e;
     aed_resource_kind := ev_resource_kind e;
     aed_decision := ev_decision e;
     aed_reason_code := ev_reason_code e;
     aed_summary := ev_resource_summary e;
     aed_matched_rule_ids := ev_matched_rule_ids e;
     aed_previous_hash := hex_encode (ev_previous_hash e);
     aed_current_hash := hex_encode (ev_current_hash e) |}.

End Dto.

(** ** Execution inputs *)

(** [ExecutionInputDto]. *)
Inductive ExecutionInputDto :=
| ID_None
| ID_FilesystemWrite (data : string)
| ID_Command (working_directory : option string) (env_vars : list (list string))
    (dry_run : option bool) (timeout_secs : option Z)
| ID_Network (method : option string) (headers : list (list string)) (body : option string)
    (no_redirect : option bool) (timeout_seconds response_body_limit : option Z).

(** [ExecuteRequest]. *)
Record ExecuteRequest := {
  er_request : ToolRequest;
  er_permit : PermitDto;
  er_permit_secret_hex : string;
  er_input : ExecutionInputDto;
}.

(** [pairs.iter().map(|pair| (pair[0].clone(), pair[1].clone())).collect()] after
    the check that every pair has two entries. *)
Definition collect_pairs (message : string) (pairs : list (list string))
  : result GatewayError (list (string * string)) :=
  if existsb (fun pair => negb (Nat.eqb (length pair) 2)) pairs then Err (bad_request message)
  else Ok (map (fun pair => (nth 0 pair "", nth 1 pair "")) pairs).

(** [str::to_ascii_uppercase]. *)
Definition to_ascii_uppercase (s : string) : string := map_bytes byte_upper s.

(** The match on the method. *)
Definition parse_method (value : string) : result GatewayError NetworkMethod :=
  let v := to_ascii_uppercase value in
  if String.eqb v "GET" then Ok M_Get
  else if String.eqb v "HEAD" then Ok M_Head
  else if String.eqb v "POST" then Ok M_Post
  else if String.eqb v "PUT" then Ok M_Put
  else if String.eqb v "PATCH" then Ok M_Patch
  else if String.eqb v "DELETE" then Ok M_Delete
  else Err (bad_request "unsupported network method").

(** [PreparedExecutionInput::try_from]; a prepared input is the [ExecutionInput] its
    [execute] passes on. *)
Definition PreparedExecutionInput_try_from (dto : ExecutionInputDto)
  : result GatewayError ExecutionInput :=
  match dto with
  | ID_None => Ok EI_None
  | ID_FilesystemWrite data => Ok (EI_FilesystemWrite data)
  | ID_Command working_directory env_vars dry_run timeout_secs =>
      let? env_pairs := collect_pairs "each env_vars entry must contain exactly two strings"
                          env_vars in
      Ok (EI_Command {| ci_working_directory := working_directory;
                        ci_env_vars := env_pairs;
                        ci_dry_run := default false dry_run;
                        ci_timeout_seconds := timeout_secs |})
  | ID_Network method headers body no_redirect timeout_seconds response_body_limit =>
      let? net_method :=
        match method with
        | None => Ok None
        | Some value => let? m := parse_method value in Ok (Some m)
        end in
      let? hdrs := collect_pairs "each headers entry must contain exactly two strings" headers in
      Ok (EI_Network {| ni_method := net_method;
                        ni_headers := hdrs;
                        ni_body := body;
                        ni_no_redirect := default false no_redirect;
                        ni_timeout_seconds := timeout_seconds;
                        ni_response_body_limit := response_body_limit |})
  end.

(** ** A permit survives its transfer *)

Lemma PermitScope_json_round_trip s : PermitScope_from_json (PermitScope_debug s) = Some s.
Proof. by destruct s. Qed.

Lemma Id_new_round_trip {k} (i : Id k) : is_ok (Id_new (k := k) (id_str i)) = true -> Id_new (id_str i) = Ok i.
Proof. unfold Id_new. destruct (validate_id (id_str i)); simpl; [|done]. by destruct i. Qed.

Lemma system_time_split t :
  0 <= t <= MAX_SYSTEM_TIME -> system_time (t / NANOS_PER_SEC) (t mod NANOS_PER_SEC) = Some t.
Proof.
  intros Ht. unfold system_time.
  replace (t / NANOS_PER_SEC * NANOS_PER_SEC + t mod NANOS_PER_SEC) with t
    by (rewrite (Z.div_mod t NANOS_PER_SEC) at 1; [lia|done]).
  by destruct (Z.leb_spec t MAX_SYSTEM_TIME); [|lia].
Qed.

(** The permits that can be transferred: identifiers of the right form, a 32-byte
    digest, times after the epoch. *)
Record transferable (p : ExecutionPermit) : Prop := {
  tf_request : is_ok (Id_new (k := KRequest) (id_str (ep_request_id p))) = true;
  tf_rules : Forall (fun i => is_ok (Id_new (k := KRule) (id_str i)) = true) (ep_matched_rule_ids p);
  tf_digest : len (ep_request_digest p) = 32;
  tf_issued : 0 <= ep_issued_at p <= MAX_SYSTEM_TIME;
  tf_expires : 0 <= ep_expires_at p <= MAX_SYSTEM_TIME;
}.

(** What a client receives for a permit denotes that permit: reconstructing it
    from its transfer object gives it back, all fields included. *)
Lemma permit_transfer_round_trip `{HexLib, !HexLaws} p :
  transferable p -> reconstruct_permit (PermitDto_from p) = Some (Ok p).
Proof.
  intros [Hr Hrs Hd Hi He]. unfold reconstruct_permit, PermitDto_from. simpl.
  rewrite PermitScope_json_round_trip. simpl. rewrite (Id_new_round_trip _ Hr). simpl.
  assert (Hm : map_result (fun id => map_err (fun error => bad_request
      ("invalid matched rule ID in permit: " +:+ DomainError_display error)) (Id_new id))
      (map id_str (ep_matched_rule_ids p)) = Ok (ep_matched_rule_ids p)).
  { induction Hrs as [|i l Hi' Hl IH]; simpl; [done|].
    rewrite (Id_new_round_trip _ Hi'). simpl. by rewrite IH. }
  rewrite Hm. simpl. rewrite hex_round_trip. simpl. rewrite Hd. simpl.
  unfold since_epoch. rewrite !Z.max_r by lia. rewrite !system_time_split by done. by destruct p.
Qed.
