(* ===== verification/Gateway.v ===== *)
(** * The HTTP gateway: handlers

    crates/kavach-gateway/src/routes (evaluate.rs, execute.rs, approvals.rs,
    audit.rs, policies.rs, health.rs) and the order of the layers of server.rs.
    Routing, JSON and the HTTP server itself are axum's; a handler is a function on
    the shared state that returns its data or a [GatewayError].  The handlers run
    to completion without awaiting, so each of them is one step except [execute],
    which looks its permit up, runs under the permit's lock and then removes it. *)

From stdpp Require Import base tactics list strings gmap.
From Stdlib Require Import ZArith Lia Ascii.
From S2P Require Import Prelude RustStr CoreError CoreIds CorePath CoreResource CoreRequest.
From S2P Require Import CoreDecision CorePermit PolicyModel PolicyEngine PolicyLoad.
From S2P Require Import AuditModel AuditVerify ApprovalModel ApprovalBroker.
From S2P Require Import EnforceFs EnforceCmd EnforceNet Runtime GatewayModel GatewayTypes.

Open Scope Z_scope.

(** [{:?}] on an [ExecutionResult], as derived. *)
Class GatewayTexts := {
  execution_result_debug : ExecutionResult -> string;
}.

(** [GatewayState], with the state behind the runtime. *)
Record GatewayState `{GlobLib} (W : Type) := {
  gs_runtime : KavachRuntime;
  gs_stores : RtState W;
  gs_permits : IssuedPermitRegistry;
  gs_tokens : ApprovalTokenRegistry;
  gs_limiter : RateLimiter;
}.
Arguments gs_runtime {_ W} _.
Arguments gs_stores {_ W} _.
Arguments gs_permits {_ W} _.
Arguments gs_tokens {_ W} _.
Arguments gs_limiter {_ W} _.

(** What a request meets: the surroundings of its runtime calls, the clock readings
    of the registries, the poisoned locks, the faults of audit queries. *)
Record GwEnv := {
  gw_rt : RtEnv;
  gw_now : nat -> Z;
  gw_runtime_lock : bool;
  gw_permit_locks : PermitLocks;
  gw_token_lock : bool;
  gw_audit_fault : option string;
}.

(** The data of the successful responses. *)
Inductive GwData :=
| GD_outcome (dto : EvaluateOutcomeDto)
| GD_executed (result_debug : string)
| GD_approvals (dtos : list ApprovalRecordDto)
| GD_approval (dto : ApprovalRecordDto)
| GD_decided (approval_id outcome : string)
| GD_events (dtos : list AuditEventDto)
| GD_verified (report : VerificationReport)
| GD_policies (policies : list (string * string * string * Z))
| GD_reloaded (policy_count : Z)
| GD_ready (policy_count : Z).

Section Gateway.
Context {SH : Sha256} {HX : HexLib} {AJ : AuditJson} {CH : Rfc3339} {IE : IdsJsonError}.
Context {RJ : RequestJson} {GL : GlobLib} {UL : UnicodeLower} {RD : ResourceDebug}.
Context {TL : TomlLib} {PF : PolicyFiles} {GT : GatewayTexts}.
Context {W : Type}.
Context {FA : Adapter W FilesystemInput FilesystemOutcome}.
Context {CA : Adapter W CommandInput CommandOutcome}.
Context {NA : Adapter W NetworkInput NetworkOutcome}.

Abbreviation GwState := (GatewayState W).
Abbreviation gateway A := (stateful GwState GatewayError A).

(** ** Access to the parts of the state *)

(** A read of the runtime lock: [state.runtime.read().map_err(...)]. *)
Definition read_runtime (env : GwEnv) (error : GatewayError) : gateway KavachRuntime :=
  fun s => if gw_runtime_lock env then (Err error, s) else (Ok (gs_runtime s), s).

(** A call that works on the two databases. *)
Definition on_stores {E A} (f : E -> GatewayError) (m : stateful BrokerState E A) : gateway A :=
  fun s =>
    let '(r, b) := m (rs_broker (gs_stores s)) in
    (map_err f r,
     {| gs_runtime := gs_runtime s;
        gs_stores := {| rs_broker := b; rs_world := rs_world (gs_stores s) |};
        gs_permits := gs_permits s; gs_tokens := gs_tokens s; gs_limiter := gs_limiter s |}).

Definition on_permits {A} (f : string -> GatewayError) (m : stateful IssuedPermitRegistry string A)
  : gateway A :=
  fun s =>
    let '(r, p) := m (gs_permits s) in
    (map_err f r,
     {| gs_runtime := gs_runtime s; gs_stores := gs_stores s; gs_permits := p;
        gs_tokens := gs_tokens s; gs_limiter := gs_limiter s |}).

Definition on_tokens {A} (f : string -> GatewayError) (m : stateful ApprovalTokenRegistry string A)
  : gateway A :=
  fun s =>
    let '(r, t) := m (gs_tokens s) in
    (map_err f r,
     {| gs_runtime := gs_runtime s; gs_stores := gs_stores s; gs_permits := gs_permits s;
        gs_tokens := t; gs_limiter := gs_limiter s |}).

(** [body.request.validate().map_err(...)]. *)
Definition validate_body (request : ToolRequest) : gateway unit :=
  st_lift (map_err (fun e => bad_request ("invalid request: " +:+ DomainValidationError_display e))
             (ToolRequest_validate request)).

(** [ApprovalId::new(&approval_id).map_err(...)] and [ApprovalActor::new]. *)
Definition path_id (approval_id : string) : gateway ApprovalId :=
  st_lift (map_err (fun _ => bad_request ("invalid approval_id: " +:+ approval_id))
             (Id_new approval_id)).

Definition body_actor (actor : string) : gateway ApprovalActor :=
  st_lift (map_err (fun e => bad_request ("invalid actor: " +:+ ApprovalError_display e))
             (ApprovalActor_new actor)).

(** ** evaluate.rs *)

(** Registering an issued permit and describing it, as [evaluate] and
    [consume_approval] both do. *)
Definition permitted (env : GwEnv) (outcome : PermittedOutcome) : gateway EvaluateOutcomeDto :=
  let permit := po_permit outcome in
  let! _ := on_permits internal
              (permits_register (gw_permit_locks env) (gw_now env 0) permit) in
  st_ret (EO_Permitted (id_str (ep_request_id permit)) (PermitDto_from permit)
            (hex_encode (po_permit_secret outcome))).

(** [evaluate]. *)
Definition gw_evaluate (env : GwEnv) (request : ToolRequest) : gateway EvaluateOutcomeDto :=
  let! _ := validate_body request in
  let! runtime := read_runtime env (internal "runtime lock") in
  let! outcome := on_stores (fun _ => internal "evaluation failed")
                    (evaluate runtime (gw_rt env) request) in
  match outcome with
  | RO_Denied request_id reason_code matched_rule_ids sanitized_summary audit_event_id =>
      st_ret (EO_Denied (id_str request_id) (ReasonCode_as_str reason_code)
                (map id_str matched_rule_ids) sanitized_summary audit_event_id)
  | RO_ApprovalRequired request_id approval_id sanitized_summary audit_event_id =>
      st_ret (EO_ApprovalRequired (id_str request_id) (id_str approval_id) sanitized_summary
                audit_event_id)
  | RO_Permitted outcome => permitted env outcome
  end.

(** ** execute.rs *)

(** What [execute] has checked before it looks for the permit: the secret and the
    input. *)
Definition execute_prepare (body : ExecuteRequest) : result GatewayError (string * ExecutionInput) :=
  let? _ := map_err (fun e => bad_request ("invalid request: " +:+ DomainValidationError_display e))
              (ToolRequest_validate (er_request body)) in
  let? permit_secret := parse_secret (er_permit_secret_hex body) in
  let? exec_input := PreparedExecutionInput_try_from (er_input body) in
  if negb (len (pd_permit_token_hash (er_permit body)) =? 32) then
    Err (bad_request "permit_token_hash must be 32 bytes")
  else Ok (permit_secret, exec_input).

(** The look-up of the permit. *)
Definition execute_lookup (env : GwEnv) (body : ExecuteRequest) : gateway Loc :=
  let! entry := on_permits internal
                  (permits_get (gw_permit_locks env) (gw_now env 0)
                     (pd_permit_token_hash (er_permit body))) in
  st_lift (ok_or (bad_request "permit was not issued by this gateway or was already used") entry).

(** The part of [execute] under the permit's lock: the outcome of the runtime and
    whether the permit is of no further use. *)
Definition execute_run (env : GwEnv) (body : ExecuteRequest) (permit_secret : string)
    (exec_input : ExecutionInput) (l : Loc)
  : gateway (result RuntimeError ExecutionResult * bool) :=
  fun s =>
    let heap := ip_heap (gs_permits s) in
    match (if pl_permit (gw_permit_locks env) l then None else heap !! l) with
    | None => (Err (internal "permit lock"), s)
    | Some permit =>
        if gw_runtime_lock env then (Err (internal "runtime lock"), s)
        else
          let '(execution, permit', stores) :=
            execute (gs_runtime s) (FA := FA) (CA := CA) (NA := NA) (gw_rt env) (er_request body)
              permit permit_secret exec_input (gs_stores s) in
          let discard := ExecutionPermit_is_consumed permit'
                         || ExecutionPermit_is_expired (gw_now env 1) permit' in
          (Ok (execution, discard),
           {| gs_runtime := gs_runtime s; gs_stores := stores;
              gs_permits := {| ip_heap := <[l := permit']> heap; ip_map := ip_map (gs_permits s) |};
              gs_tokens := gs_tokens s; gs_limiter := gs_limiter s |})
    end.

(** The removal of a permit of no further use. *)
Definition execute_discard (env : GwEnv) (body : ExecuteRequest) (discard : bool) : gateway unit :=
  if discard then
    on_permits internal
      (permits_remove (gw_permit_locks env) (pd_permit_token_hash (er_permit body)))
  else st_ret tt.

(** The response for the outcome of the runtime. *)
Definition execute_response (execution : result RuntimeError ExecutionResult)
  : result GatewayError GwData :=
  match execution with
  | Err e =>
      let msg := RuntimeError_display e in
      if contains "permit" msg || contains "digest" msg || contains "scope" msg then
        Err (bad_request msg)
      else if contains "dry run" msg then Err (forbidden msg)
      else Err (internal "execution failed")
  | Ok result => Ok (GD_executed (execution_result_debug result))
  end.

(** [execute]. *)
Definition gw_execute (env : GwEnv) (body : ExecuteRequest) : gateway GwData :=
  let! prepared := st_lift (execute_prepare body) in
  let! l := execute_lookup env body in
  let! ran := execute_run env body (fst prepared) (snd prepared) l in
  let! _ := execute_discard env body (snd ran) in
  st_lift (execute_response (fst ran)).

(** ** approvals.rs *)

(** [map_approval_error]. *)
Definition map_approval_error (approval_id : string) (error : ApprovalError) : GatewayError :=
  match error with
  | APE_ApprovalNotFound => not_found ("approval " +:+ approval_id +:+ " not found")
  | APE_InvalidRequest _ | APE_InvalidActor _ | APE_InvalidReason _ | APE_SummaryTooLarge _
  | APE_QueryLimitExceeded => bad_request "invalid approval operation"
  | APE_InvalidStateTransition _ _ | APE_AlreadyApproved | APE_AlreadyDenied | APE_Cancelled
  | APE_Expired | APE_InvalidToken | APE_TokenBindingMismatch | APE_TokenAlreadyConsumed
  | APE_RequestDigestMismatch | APE_DuplicateActiveApproval | APE_PendingLimitReached =>
      conflict "approval is not available for this operation"
  | APE_InvalidConfiguration _ | APE_DatabaseOpen _ | APE_MigrationFailure _
  | APE_DatabaseCorruption _ | APE_TransactionFailure _ | APE_AuditFailure _
  | APE_RedactionFailure _ => internal "approval operation failed"
  end.

(** [list_approvals]. *)
Definition gw_list_approvals (env : GwEnv) : gateway (list ApprovalRecordDto) :=
  let! _ := read_runtime env (internal "runtime lock") in
  let! records := on_stores (fun _ => internal "failed to list approvals")
                    (list_pending (re_broker (gw_rt env) 0) None) in
  st_ret (map ApprovalRecordDto_from records).

(** [get_approval]. *)
Definition gw_get_approval (env : GwEnv) (approval_id : string) : gateway ApprovalRecordDto :=
  let! id := path_id approval_id in
  let! _ := read_runtime env (internal "runtime lock") in
  let! record := on_stores (map_approval_error approval_id)
                   (get_approval (re_broker (gw_rt env) 0) id) in
  st_ret (ApprovalRecordDto_from record).

(** [runtime.broker().approve(...)] with its [map_err], which gives the reserved
    slot back before it maps the error. *)
Definition approve_or_release (env : GwEnv) (runtime : KavachRuntime) (approval_id : string)
    (id : ApprovalId) (actor : ApprovalActor) : gateway ApprovalToken :=
  fun s =>
    match on_stores (map_approval_error approval_id)
            (approve (audit_redactor runtime) (re_broker (gw_rt env) 1) id actor) s with
    | (Ok token, s1) => (Ok token, s1)
    | (Err e, s1) =>
        let '(_, s2) := on_tokens internal (tokens_remove (gw_token_lock env) approval_id) s1 in
        (Err e, s2)
    end.

(** [approve_approval]. *)
Definition gw_approve (env : GwEnv) (approval_id actor : string) : gateway unit :=
  let! id := path_id approval_id in
  let! actor := body_actor actor in
  let! runtime := read_runtime env (internal "runtime lock") in
  let! record := on_stores (map_approval_error approval_id)
                   (get_approval (re_broker (gw_rt env) 0) id) in
  let! _ := on_tokens conflict
              (tokens_reserve (gw_token_lock env) (gw_now env 0) approval_id (ar_expires_at record)) in
  let! token := approve_or_release env runtime approval_id id actor in
  on_tokens internal (tokens_fulfill (gw_token_lock env) approval_id token).

(** The mapping of the errors of [consume_approval]. *)
Definition map_consume_error (e : RuntimeError) : GatewayError :=
  match e with
  | RE_InvalidRequest _ | RE_PermitFailure _ | RE_PermitScopeMismatch _ _
  | RE_InvalidExecutionInput _ => bad_request "approval does not match the presented request"
  | RE_ApprovalFailure _ => conflict "approval is not available for consumption"
  | _ => internal "approval consumption failed"
  end.

(** [consume_approval]. *)
Definition gw_consume (env : GwEnv) (approval_id : string) (request : ToolRequest)
  : gateway EvaluateOutcomeDto :=
  let! id := path_id approval_id in
  let! _ := validate_body request in
  let! entry := on_tokens internal (tokens_get (gw_token_lock env) (gw_now env 1) approval_id) in
  let! token :=
    st_lift (ok_or (conflict
      "approval token is unavailable; the approval may predate this gateway process") entry) in
  let! runtime := read_runtime env (internal "runtime lock") in
  let! outcome := on_stores map_consume_error
                    (consume_approval runtime (gw_rt env) request id token) in
  let! dto := permitted env outcome in
  let! _ := on_tokens internal (tokens_remove (gw_token_lock env) approval_id) in
  st_ret dto.

(** [deny_approval]. *)
Definition gw_deny (env : GwEnv) (approval_id actor : string) (reason : option string)
  : gateway unit :=
  let! id := path_id approval_id in
  let! actor := body_actor actor in
  let! runtime := read_runtime env (internal "runtime lock") in
  on_stores (map_approval_error approval_id)
    (deny (audit_redactor runtime) (re_broker (gw_rt env) 0) id actor reason).

(** ** audit.rs *)

(** [parse_category] of the gateway. *)
Definition gw_parse_category (s : string) : option AuditEventCategory :=
  let named t := String.eqb (to_ascii_lowercase s) t in
  if named "requestreceived" then Some RequestReceived
  else if named "requestrejected" then Some RequestRejected
  else if named "decisionallow" || named "allow" || named "allowed" then Some DecisionAllow
  else if named "decisiondeny" || named "deny" || named "denied" then Some DecisionDeny
  else if named "approvalrequested" || named "approval" then Some ApprovalRequested
  else if named "approvalapproved" || named "approve" then Some ApprovalApproved
  else if named "approvaldenied" then Some ApprovalDenied
  else if named "approvalexpired" then Some ApprovalExpired
  else if named "approvalconsumed" then Some ApprovalConsumed
  else if named "executionstarted" then Some ExecutionStarted
  else if named "executionsucceeded" then Some ExecutionSucceeded
  else if named "executionfailed" then Some ExecutionFailed
  else if named "policyloaded" then Some PolicyLoaded
  else if named "policyrejected" then Some PolicyRejected
  else if named "auditverification" then Some AuditVerification
  else if named "securitywarning" then Some SecurityWarning
  else None.

(** A query of the audit log. *)
Definition ask_audit {A} (error : GatewayError) (q : AuditTable -> result AuditError A) : gateway A :=
  fun s => (map_err (fun _ => error) (q (br_audit (rs_broker (gs_stores s)))), s).

(** [list_events]. *)
Definition gw_list_events (env : GwEnv) (query : AuditEventsQuery) : gateway (list AuditEventDto) :=
  let limit := Z.min (default 100 (aq_limit query)) MAX_EVENT_QUERY_COUNT in
  if limit =? 0 then st_lift (Err (bad_request "limit must be greater than 0"))
  else
    let both := match aq_after query, aq_before query with Some _, Some _ => true | _, _ => false end in
    if both then st_lift (Err (bad_request "after and before cannot be used together"))
    else
      let! _ := read_runtime env (internal "runtime lock") in
      let failed := internal "audit query failed" in
      let fault := gw_audit_fault env in
      let! records :=
        match aq_request_id query, aq_category query with
        | Some request_id, _ =>
            ask_audit failed (fun t => AuditStore_events_by_request_id fault t request_id limit)
        | None, Some cat_str =>
            let! category := st_lift (ok_or (bad_request ("unknown category: " +:+ cat_str))
                                        (gw_parse_category cat_str)) in
            ask_audit failed (fun t => AuditStore_events_by_category fault t category limit)
        | None, None =>
            match aq_after query, aq_before query with
            | Some after, None =>
                ask_audit failed (fun t => AuditStore_events_after_sequence fault t after limit)
            | None, Some before =>
                ask_audit failed (fun t => AuditStore_events_before_sequence fault t before limit)
            | None, None =>
                ask_audit failed (fun t => AuditStore_events_before_sequence fault t I64_MAX limit)
            | Some _, Some _ =>
                st_lift (Err (bad_request "after and before cannot be used together"))
            end
        end in
      st_ret (map AuditEventDto_from records).

(** [verify_chain]. *)
Definition gw_verify_chain (env : GwEnv) : gateway VerificationReport :=
  let! _ := read_runtime env (internal "runtime lock") in
  ask_audit (internal "audit verification failed")
    (AuditStore_verify_full (gw_audit_fault env)).

(** ** policies.rs *)

(** [format!("{:?}", default_effect).to_lowercase()]. *)
Definition default_effect_text (d : DefaultEffect) : string :=
  to_lowercase (match d with D_Deny => "Deny" | D_RequireApproval => "RequireApproval" end).

(** [list_policies]. *)
Definition gw_list_policies (env : GwEnv) : gateway (list (string * string * string * Z)) :=
  let! runtime := read_runtime env (internal "runtime lock") in
  st_ret (map (fun policy => (ps_id policy, ps_name policy,
                              default_effect_text (ps_default_effect policy), ps_rule_count policy))
            (PolicyEngine_summaries (rt_engine runtime))).

(** The loading loop of [reload_policies]. *)
Definition load_policies (paths : list string) : result GatewayError (list Policy) :=
  map_result
    (fun path => map_err (fun e => bad_request ("failed to load policy " +:+ path +:+ ": "
                                                 +:+ PolicyLoadError_display e))
                   (load_policy_from_file path)) paths.

(** The swap of the engine under the write lock. *)
Definition swap_policies (env : GwEnv) (policies : list Policy) : gateway unit :=
  fun s =>
    if gw_runtime_lock env then (Err (internal "internal error"), s)
    else
      match reload_policies policies (gs_runtime s) with
      | Err e => (Err (bad_request ("policy validation failed: " +:+ RuntimeError_display e)), s)
      | Ok runtime =>
          (Ok tt, {| gs_runtime := runtime; gs_stores := gs_stores s; gs_permits := gs_permits s;
                     gs_tokens := gs_tokens s; gs_limiter := gs_limiter s |})
      end.

(** [reload_policies]. *)
Definition gw_reload (env : GwEnv) (policy_paths : list string) : gateway Z :=
  match policy_paths with
  | [] => st_lift (Err (bad_request "policy_paths must not be empty"))
  | _ =>
      let! policies := st_lift (load_policies policy_paths) in
      let! _ := swap_policies env policies in
      st_ret (Z.of_nat (length policy_paths))
  end.

(** ** health.rs *)

(** [ready]. *)
Definition gw_ready (env : GwEnv) : gateway Z :=
  let unavailable := GatewayError_new KC_DependencyUnavailable "readiness check failed" in
  let! runtime := read_runtime env unavailable in
  let! _ := ask_audit unavailable (AuditStore_chain_status (gw_audit_fault env)) in
  let! _ := on_stores (fun _ => unavailable) (list_pending (re_broker (gw_rt env) 0) (Some 1)) in
  st_ret (Z.of_nat (length (PolicyEngine_summaries (rt_engine runtime)))).

(** ** The routes under /api *)

(** The calls the router hands to the handlers. *)
Inductive ApiCall :=
| Api_evaluate (request : ToolRequest)
| Api_execute (body : ExecuteRequest)
| Api_list_approvals
| Api_get_approval (approval_id : string)
| Api_approve (approval_id actor : string)
| Api_deny (approval_id actor : string) (reason : option string)
| Api_consume (approval_id : string) (request : ToolRequest)
| Api_list_events (query : AuditEventsQuery)
| Api_verify_chain
| Api_list_policies
| Api_reload (policy_paths : list string).

Definition respond {A} (f : A -> GwData) (m : gateway A) : gateway GwData :=
  let! a := m in st_ret (f a).

(** The handler of a call. *)
Definition handle (env : GwEnv) (call : ApiCall) : gateway GwData :=
  match call with
  | Api_evaluate request => respond GD_outcome (gw_evaluate env request)
  | Api_execute body => gw_execute env body
  | Api_list_approvals => respond GD_approvals (gw_list_approvals env)
  | Api_get_approval id => respond GD_approval (gw_get_approval env id)
  | Api_approve id actor => respond (fun _ => GD_decided id "approved") (gw_approve env id actor)
  | Api_deny id actor reason =>
      respond (fun _ => GD_decided id "denied") (gw_deny env id actor reason)
  | Api_consume id request => respond GD_outcome (gw_consume env id request)
  | Api_list_events query => respond GD_events (gw_list_events env query)
  | Api_verify_chain => respond GD_verified (gw_verify_chain env)
  | Api_list_policies => respond GD_policies (gw_list_policies env)
  | Api_reload paths => respond GD_reloaded (gw_reload env paths)
  end.

(** The layers around a handler: the rate limiter is outermost, the token is checked
    last. *)
Definition api (token : GatewayToken) (arrival : Z) (authorization : option string) (env : GwEnv)
    (call : ApiCall) : gateway GwData :=
  fun s =>
    let '(r, limiter) := rate_limit arrival (gs_limiter s) in
    let s1 := {| gs_runtime := gs_runtime s; gs_stores := gs_stores s; gs_permits := gs_permits s;
                 gs_tokens := gs_tokens s; gs_limiter := limiter |} in
    match r with
    | Err e => (Err e, s1)
    | Ok _ =>
        match require_auth token authorization with
        | Err e => (Err e, s1)
        | Ok _ => handle env call s1
        end
    end.

End Gateway.
