(* ===== verification/GatewayProps.v ===== *)
(** * Properties of the gateway: limits, authentication, registries *)

From stdpp Require Import base tactics list strings gmap sorting.
From Stdlib Require Import ZArith Lia Ascii Sorted.
From S2P Require Import Prelude RustStr CoreError CoreIds CorePath CoreResource CoreRequest.
From S2P Require Import CoreDecision CorePermit PolicyModel PolicyEngine PolicyLoad.
From S2P Require Import AuditModel AuditVerify ApprovalModel ApprovalBroker.
From S2P Require Import EnforceFs EnforceCmd EnforceNet Runtime GatewayModel GatewayTypes Gateway.

Open Scope Z_scope.

(** ** The rate limiter *)

(** The arrivals the limiter lets through, and the limiter afterwards. *)
Fixpoint admitted (times : list Z) (rl : RateLimiter) : list Z * RateLimiter :=
  match times with
  | [] => ([], rl)
  | now :: rest =>
      let '(ok, rl1) := RateLimiter_check now rl in
      let '(adm, rl2) := admitted rest rl1 in
      (if ok : bool then now :: adm else adm, rl2)
  end.

(** A second, in nanoseconds, and the arrivals less than a second before [now]. *)
Definition within (now t : Z) : bool := duration_since now t <? 1000000000.

Definition in_last_second (now : Z) (ts : list Z) : nat := length (List.filter (within now) ts).

Lemma filter_length_le {A} (p q : A -> bool) l :
  (forall a, a ∈ l -> p a = true -> q a = true) ->
  (length (List.filter p l) <= length (List.filter q l))%nat.
Proof.
  induction l as [|a l IH]; intros H; simpl; [done|].
  assert (Hl : (length (List.filter p l) <= length (List.filter q l))%nat)
    by (apply IH; intros b Hb; apply H; by right).
  specialize (H a (list_elem_of_here _ _)).
  destruct (p a); [rewrite (H eq_refl); simpl; lia|]. destruct (q a); simpl; lia.
Qed.

Lemma filter_filter_imp {A} (p q : A -> bool) l :
  (forall a, a ∈ l -> p a = true -> q a = true) ->
  List.filter p (List.filter q l) = List.filter p l.
Proof.
  induction l as [|a l IH]; intros H; simpl; [done|].
  assert (Hl : List.filter p (List.filter q l) = List.filter p l)
    by (apply IH; intros b Hb; apply H; by right).
  specialize (H a (list_elem_of_here _ _)).
  destruct (q a); simpl; [by rewrite Hl|]. destruct (p a); [by specialize (H eq_refl)|done].
Qed.

(** The second that starts at [w]. *)
Definition in_window (w a : Z) : bool := (w <=? a) && (a <? w + 1000000000).

(** The limit of a limiter. *)
Definition limit (rl : RateLimiter) : Z := Z.min (rl_burst rl) (rl_max_per_second rl).

(** The limiter has let [adm] through, the last decision at [now0]: it remembers
    exactly those of the last second. *)
Record tracks (adm : list Z) (now0 : Z) (rl : RateLimiter) : Prop := {
  tr_past : Forall (fun a => a <= now0) adm;
  tr_recent : forall now, now0 <= now ->
    List.filter (within now) (rl_timestamps rl) = List.filter (within now) adm;
}.

Lemma within_mono now0 now a : a <= now0 -> now0 <= now -> within now a = true -> within now0 a = true.
Proof. unfold within, duration_since. rewrite !Z.ltb_lt. lia. Qed.

Lemma check_tracks adm now0 rl now ok rl' :
  tracks adm now0 rl -> now0 <= now -> RateLimiter_check now rl = (ok, rl') ->
  ok = (Z.of_nat (in_last_second now adm) <? limit rl) /\ limit rl' = limit rl /\
  tracks (if ok then adm ++ [now] else adm) now rl'.
Proof.
  intros [Hpast Hrec] Hle. unfold RateLimiter_check, limit. fold (within now).
  rewrite (Hrec now Hle). fold (in_last_second now adm).
  assert (Hp : Forall (fun a => a <= now) adm) by (eapply Forall_impl; [exact Hpast|]; simpl; lia).
  assert (Hkeep : forall now', now <= now' ->
      List.filter (within now') (List.filter (within now) adm) = List.filter (within now') adm).
  { intros now' Hn. apply filter_filter_imp. intros a Ha. apply within_mono; [|done].
    rewrite Forall_forall in Hp. by apply Hp. }
  destruct (Z.leb_spec (rl_burst rl) (Z.of_nat (in_last_second now adm)));
    [|destruct (Z.leb_spec (rl_max_per_second rl) (Z.of_nat (in_last_second now adm)))];
    intros [= <- <-]; (split; [|split; [done|constructor; simpl]]);
    try (symmetry; apply Z.ltb_ge; lia); try done.
  - symmetry. apply Z.ltb_lt. lia.
  - apply Forall_app. split; [done|]. by apply Forall_singleton.
  - intros now' Hn. by rewrite !List.filter_app, Hkeep.
Qed.

(** The limiter as it serves arrivals after having let [adm] through. *)
Lemma admitted_spec times adm now0 rl :
  tracks adm now0 rl -> StronglySorted Z.le (now0 :: times) ->
  forall pre t post, times = pre ++ t :: post ->
    let before := adm ++ fst (admitted pre rl) in
    fst (admitted (pre ++ [t]) rl)
    = fst (admitted pre rl) ++
      (if Z.of_nat (in_last_second t before) <? limit rl then [t] else []).
Proof.
  revert adm now0 rl. induction times as [|now times IH]; intros adm now0 rl Htr Hs pre t post Heq.
  { by destruct pre. }
  apply StronglySorted_inv in Hs as [Hs Hle]. apply Forall_cons in Hle as [Hle _].
  destruct pre as [|x pre]; simpl in Heq; injection Heq as <- Heq; simpl.
  - rewrite app_nil_r. destruct (RateLimiter_check now rl) as [ok rl1] eqn:E.
    destruct (check_tracks _ _ _ _ _ _ Htr Hle E) as (-> & _ & _). by destruct (_ <? _).
  - destruct (RateLimiter_check now rl) as [ok rl1] eqn:E.
    destruct (check_tracks _ _ _ _ _ _ Htr Hle E) as (Hok & Hlim & Htr1).
    specialize (IH _ _ _ Htr1 Hs pre t post Heq). simpl in IH.
    destruct (admitted (pre ++ [t]) rl1) as [a1 r1], (admitted pre rl1) as [a2 r2]. simpl in *.
    rewrite Hlim in IH. destruct ok; simpl; rewrite IH; [|done].
    by rewrite <- app_assoc.
Qed.

Lemma admitted_bound times adm now0 rl w :
  0 <= limit rl -> tracks adm now0 rl -> StronglySorted Z.le (now0 :: times) ->
  let window := List.filter (in_window w) in
  Z.of_nat (length (window adm)) <= limit rl ->
  Z.of_nat (length (window (adm ++ fst (admitted times rl)))) <= limit rl.
Proof.
  intros Hl. revert adm now0 rl Hl. induction times as [|now times IH];
    intros adm now0 rl Hl Htr Hs window Hw; simpl; [by rewrite app_nil_r|].
  apply StronglySorted_inv in Hs as [Hs Hle]. apply Forall_cons in Hle as [Hle _].
  destruct (RateLimiter_check now rl) as [ok rl1] eqn:E.
  destruct (check_tracks _ _ _ _ _ _ Htr Hle E) as (Hok & Hlim & Htr1).
  destruct (admitted times rl1) as [adm1 rl2] eqn:Ea. simpl.
  assert (Hstep : Z.of_nat (length (window (if ok then adm ++ [now] else adm))) <= limit rl).
  { destruct ok; [|done]. symmetry in Hok. apply Z.ltb_lt in Hok. unfold window in *.
    rewrite List.filter_app, length_app. simpl.
    destruct (in_window w now) eqn:Ew; simpl; [|lia].
    apply andb_true_iff in Ew as [Hw1%Z.leb_le Hw2%Z.ltb_lt].
    enough (length (List.filter (in_window w) adm)
            <= in_last_second now adm)%nat by lia.
    apply filter_length_le. intros a _ [Ha1%Z.leb_le Ha2%Z.ltb_lt]%andb_true_iff.
    unfold within, duration_since. apply Z.ltb_lt. lia. }
  rewrite <- Hlim in Hstep, Hl |- *.
  specialize (IH (if ok then adm ++ [now] else adm) now rl1 Hl Htr1 Hs Hstep).
  rewrite Ea in IH. destruct ok; simpl in *; [by rewrite <- app_assoc in IH|done].
Qed.

Lemma new_tracks now max_per_second burst : tracks [] now (RateLimiter_new max_per_second burst).
Proof. by constructor; [apply Forall_nil|]. Qed.

(** (C37) The rate limiter is an exact sliding window.  For arrivals in the order of
    a monotone clock, at most min(burst, max_per_second) requests are let through in
    any second, wherever the second starts; and a request is let through exactly when
    fewer than that many were let through in the second before it, so the limiter
    never refuses without need. *)
Theorem rate_limiter_exact max_per_second burst times :
  0 <= max_per_second -> 0 <= burst -> StronglySorted Z.le times ->
  let rl := RateLimiter_new max_per_second burst in
  (forall w, Z.of_nat (length (List.filter (in_window w)
                                 (fst (admitted times rl)))) <= Z.min burst max_per_second) /\
  (forall pre t post, times = pre ++ t :: post ->
     fst (admitted (pre ++ [t]) rl)
     = fst (admitted pre rl) ++
       (if Z.of_nat (in_last_second t (fst (admitted pre rl))) <? Z.min burst max_per_second
        then [t] else [])).
Proof.
  intros Hm Hb Hs rl. set (now0 := hd 0 times).
  assert (Hs0 : StronglySorted Z.le (now0 :: times)).
  { constructor; [done|]. destruct Hs as [|t ts Hs Hle]; [by apply Forall_nil|].
    apply Forall_cons. split; [subst now0; simpl; lia|done]. }
  pose proof (new_tracks now0 max_per_second burst) as Htr. split.
  - intros w. apply (admitted_bound times [] now0 rl w); [|done|done|]; unfold rl, limit; simpl; lia.
  - intros pre t post Heq. apply (admitted_spec times [] now0 rl Htr Hs0 pre t post Heq).
Qed.

(** Five requests with a limit of two: the third is refused, and room is there
    again once a second has passed since the first. *)
Lemma rate_limiter_exact_witness :
  fst (admitted [0; 1; 2; 1000000000; 1000000001] (RateLimiter_new 2 100))
  = [0; 1; 1000000000; 1000000001] /\
  forall w, Z.of_nat (length (List.filter (in_window w)
    (fst (admitted [0; 1; 2; 1000000000; 1000000001] (RateLimiter_new 2 100))))) <= Z.min 100 2.
Proof.
  split; [reflexivity|].
  apply (rate_limiter_exact 2 100 [0; 1; 2; 1000000000; 1000000001]); [lia|lia|].
  repeat (constructor; [|repeat (constructor; [lia|]); constructor]). constructor.
Defined.

(** ** Authentication *)

Section Auth.
Context {SH : Sha256} {HX : HexLib} {AJ : AuditJson} {CH : Rfc3339} {IE : IdsJsonError}.
Context {RJ : RequestJson} {GL : GlobLib} {UL : UnicodeLower} {RD : ResourceDebug}.
Context {TL : TomlLib} {PF : PolicyFiles} {GT : GatewayTexts}.
Context {W : Type}.
Context {FA : Adapter W FilesystemInput FilesystemOutcome}.
Context {CA : Adapter W CommandInput CommandOutcome}.
Context {NA : Adapter W NetworkInput NetworkOutcome}.

(** The header of a client that knows a token with the digest of the gateway's. *)
Definition authorized (token : GatewayToken) (authorization : option string) : Prop :=
  exists text raw, authorization = Some ("Bearer " +:+ text) /\ len text = 64 /\
    all_bytes is_ascii_hexdigit text = true /\ hex_decode text = Ok raw /\ len raw = 32 /\
    sha256 raw = gt_hash token.

Lemma strip_prefix_app p s : strip_prefix p (p +:+ s) = Some s.
Proof. induction p as [|c p IH]; simpl; [done|]. by rewrite Ascii.eqb_refl. Qed.

Lemma strip_prefix_inv p s r : strip_prefix p s = Some r -> s = p +:+ r.
Proof.
  revert s. induction p as [|c p IH]; intros s; simpl; [by intros [= ->]|].
  destruct s as [|d s]; [done|]. destruct (Ascii.eqb_spec c d); [|done].
  intros ->%IH. by subst.
Qed.

Lemma verify_iff token text :
  GatewayToken_verify token text = true <->
  len text = 64 /\ all_bytes is_ascii_hexdigit text = true /\
  exists raw, hex_decode text = Ok raw /\ len raw = 32 /\ sha256 raw = gt_hash token.
Proof.
  unfold GatewayToken_verify.
  destruct (Z.eqb_spec (len text) 64); simpl; [|naive_solver].
  destruct (all_bytes _ text); simpl; [|naive_solver].
  destruct (hex_decode text) as [raw|]; [|naive_solver].
  destruct (Z.eqb_spec (len raw) 32); simpl; [|naive_solver].
  rewrite String.eqb_eq. naive_solver.
Qed.

Lemma hex_visible text :
  all_bytes is_ascii_hexdigit text = true ->
  all_bytes (fun c => in_range 32 126 c || (byte_val c =? 9)) text = true.
Proof.
  induction text as [|c text IH]; simpl; [done|]. intros [Hc Ht]%andb_true_iff.
  rewrite (IH Ht), andb_true_r. apply orb_true_iff. left.
  unfold is_ascii_hexdigit, is_ascii_digit, in_range in *.
  rewrite !orb_true_iff, !andb_true_iff, !Z.leb_le in *. lia.
Qed.

Lemma all_bytes_app p s t : all_bytes p (s +:+ t) = all_bytes p s && all_bytes p t.
Proof. induction s as [|c s IH]; simpl; [done|]. by rewrite IH, andb_assoc. Qed.

Lemma require_auth_iff token authorization :
  (require_auth token authorization = Ok tt <-> authorized token authorization) /\
  (forall e, require_auth token authorization = Err e -> ge_status e = 401).
Proof.
  unfold require_auth, authorized. split; [split|].
  - destruct authorization as [v|]; cbn [ok_or]; [|done]. unfold header_to_str.
    destruct (all_bytes _ v); cbn [ok_or]; [|done].
    destruct (strip_prefix "Bearer " v) as [text|] eqn:Es; cbn [ok_or]; [|done].
    destruct (GatewayToken_verify token text) eqn:Ev; cbn [negb]; [|done]. intros _.
    apply strip_prefix_inv in Es as ->. apply verify_iff in Ev as (? & ? & raw & ? & ? & ?).
    by exists text, raw.
  - intros (text & raw & -> & Hl & Hh & Hd & Hr & Hs). unfold header_to_str.
    rewrite all_bytes_app, (hex_visible _ Hh).
    change (all_bytes (fun c => in_range 32 126 c || (byte_val c =? 9)) "Bearer ") with true.
    cbn [andb ok_or]. rewrite strip_prefix_app.
    assert (Hv : GatewayToken_verify token text = true) by (apply verify_iff; eauto 8).
    cbn [ok_or]. by rewrite Hv.
  - intros e. destruct authorization as [v|]; cbn [ok_or]; [|by intros [= <-]].
    destruct (header_to_str v); cbn [ok_or]; [|by intros [= <-]].
    destruct (strip_prefix _ _); cbn [ok_or]; [|by intros [= <-]].
    destruct (GatewayToken_verify _ _); cbn [negb]; [done|by intros [= <-]].
Qed.

(** Nothing but the rate limiter has moved. *)
Definition only_limiter (s s' : GatewayState W) : Prop :=
  gs_runtime s' = gs_runtime s /\ gs_stores s' = gs_stores s /\ gs_permits s' = gs_permits s /\
  gs_tokens s' = gs_tokens s.

(** No handler runs without the token.  A gateway that started with an
    operator token serves a request under /api exactly when the limiter has room and
    the request carries a bearer token of 64 hex digits whose digest is that of the
    operator's token; the handler then runs on the state with the limiter moved on.
    Every other request gets 429 when the limiter refused it and 401 otherwise, and
    leaves databases, world, runtime, permits and approval tokens as they were. *)
Theorem api_requires_token token_hex token arrival authorization env call (s s' : GatewayState W) r :
  start_token token_hex = Ok token ->
  api token arrival authorization env call (FA := FA) (CA := CA) (NA := NA) s = (r, s') ->
  (exists cfg raw0, token_hex = Some cfg /\ hex_decode cfg = Ok raw0 /\ gt_hash token = sha256 raw0) /\
  (if fst (RateLimiter_check arrival (gs_limiter s)) : bool then
     (authorized token authorization /\
      exists s1, only_limiter s s1 /\
        handle env call (FA := FA) (CA := CA) (NA := NA) s1 = (r, s')) \/
     (~ authorized token authorization /\ only_limiter s s' /\ exists e, r = Err e /\ ge_status e = 401)
   else only_limiter s s' /\ exists e, r = Err e /\ ge_status e = 429).
Proof.
  intros Hst Ha. split.
  { unfold start_token in Hst. destruct token_hex as [cfg|]; [|done].
    destruct (_ || _); [done|]. destruct (hex_decode cfg) as [raw0|] eqn:Ed; [|done]. simpl in Hst.
    destruct (negb _); [done|]. injection Hst as <-. by exists cfg, raw0. }
  unfold api, rate_limit in Ha. destruct (RateLimiter_check arrival (gs_limiter s)) as [ok rl].
  simpl. destruct ok; simpl in Ha; [|injection Ha as <- <-; split; [done|eauto]].
  destruct (require_auth_iff token authorization) as [Hiff Herr].
  destruct (require_auth token authorization) as [[]|e].
  - left. split; [by apply Hiff|]. eexists. split; [|exact Ha]. done.
  - right. injection Ha as <- <-. split_and!; [|done|eauto].
    intros Hauth. by apply Hiff in Hauth.
Qed.

End Auth.
