(* ===== verification/GatewayMachine.v ===== *)
(** * The gateway under concurrent requests

    Requests are served concurrently.  A handler other than [execute] is one step;
    [execute] is three, between which other requests may run: it finds its permit in
    the registry, it runs with that permit under the permit's lock, it removes the
    permit.  [gw_step] is the step relation, with the executions in flight as a list;
    [gw_run] is what a gateway that starts with an empty registry can go through. *)

From stdpp Require Import base tactics list strings gmap.
From Stdlib Require Import ZArith Lia Ascii.
From S2P Require Import Prelude RustStr CoreError CoreIds CorePath CoreResource CoreRequest.
From S2P Require Import CoreDecision CorePermit PolicyModel PolicyEngine PolicyLoad.
From S2P Require Import AuditModel AuditVerify ApprovalModel ApprovalBroker.
From S2P Require Import ApprovalSpec ApprovalLife EnforceFs EnforceCmd EnforceNet.
From S2P Require Import Runtime RuntimeSpec RuntimeProps GatewayModel GatewayTypes Gateway.

Open Scope Z_scope.

Section Machine.
Context {SH : Sha256} {HX : HexLib} {AJ : AuditJson} {CH : Rfc3339} {IE : IdsJsonError}.
Context {RJ : RequestJson} {GL : GlobLib} {UL : UnicodeLower} {RD : ResourceDebug}.
Context {TL : TomlLib} {PF : PolicyFiles} {GT : GatewayTexts}.
Context {W : Type}.
Context {FA : Adapter W FilesystemInput FilesystemOutcome} {FAL : AdapterLaws (H1 := FA)}.
Context {CA : Adapter W CommandInput CommandOutcome} {CAL : AdapterLaws (H1 := CA)}.
Context {NA : Adapter W NetworkInput NetworkOutcome} {NAL : AdapterLaws (H1 := NA)}.

Abbreviation GwState := (GatewayState W).
Abbreviation run := (execute_run (FA := FA) (CA := CA) (NA := NA)).
Abbreviation heap s := (ip_heap (gs_permits s)).
Abbreviation world s := (rs_world (gs_stores s)).

(** An execution in flight: it holds its permit, or it has run. *)
Inductive Flight :=
| F_found (body : ExecuteRequest) (secret : string) (input : ExecutionInput) (l : Loc)
| F_ran (body : ExecuteRequest) (discard : bool).

(** What a step did. *)
Inductive GwEvent :=
| Ev_called (before : GwState) (env : GwEnv) (call : ApiCall)
| Ev_ran (l : Loc) (body : ExecuteRequest) (r : result RuntimeError ExecutionResult)
    (before after : W)
| Ev_quiet.

Record Pool := { pool_state : GwState; pool_flights : list Flight }.

Definition is_execute (call : ApiCall) : bool :=
  match call with Api_execute _ => true | _ => false end.

(** The state after the rate limiter has seen a request. *)
Definition with_limiter (limiter : RateLimiter) (s : GwState) : GwState :=
  {| gs_runtime := gs_runtime s; gs_stores := gs_stores s; gs_permits := gs_permits s;
     gs_tokens := gs_tokens s; gs_limiter := limiter |}.

Inductive gw_step : Pool -> GwEvent -> Pool -> Prop :=
| Step_arrival limiter s fl :
    gw_step {| pool_state := s; pool_flights := fl |} Ev_quiet
            {| pool_state := with_limiter limiter s; pool_flights := fl |}
| Step_call env call s r s' fl :
    is_execute call = false ->
    handle env call (FA := FA) (CA := CA) (NA := NA) s = (r, s') ->
    gw_step {| pool_state := s; pool_flights := fl |} (Ev_called s env call)
            {| pool_state := s'; pool_flights := fl |}
| Step_found env body secret input s l s' fl :
    execute_prepare body = Ok (secret, input) ->
    execute_lookup env body s = (Ok l, s') ->
    gw_step {| pool_state := s; pool_flights := fl |} Ev_quiet
            {| pool_state := s'; pool_flights := F_found body secret input l :: fl |}
| Step_missed env body secret input s e s' fl :
    execute_prepare body = Ok (secret, input) ->
    execute_lookup env body s = (Err e, s') ->
    gw_step {| pool_state := s; pool_flights := fl |} Ev_quiet
            {| pool_state := s'; pool_flights := fl |}
| Step_ran env body secret input s l r discard s' fl1 fl2 :
    run env body secret input l s = (Ok (r, discard), s') ->
    gw_step {| pool_state := s; pool_flights := fl1 ++ F_found body secret input l :: fl2 |}
            (Ev_ran l body r (world s) (world s'))
            {| pool_state := s'; pool_flights := fl1 ++ F_ran body discard :: fl2 |}
| Step_stuck env body secret input s l e s' fl1 fl2 :
    run env body secret input l s = (Err e, s') ->
    gw_step {| pool_state := s; pool_flights := fl1 ++ F_found body secret input l :: fl2 |}
            Ev_quiet {| pool_state := s'; pool_flights := fl1 ++ fl2 |}
| Step_discard env body discard s r s' fl1 fl2 :
    execute_discard env body discard s = (r, s') ->
    gw_step {| pool_state := s; pool_flights := fl1 ++ F_ran body discard :: fl2 |}
            Ev_quiet {| pool_state := s'; pool_flights := fl1 ++ fl2 |}.

(** A gateway as [start] builds it. *)
Definition fresh_gateway (s : GwState) : Prop :=
  gs_permits s = IssuedPermitRegistry_new /\ gs_tokens s = ∅.

Inductive gw_run : list GwEvent -> Pool -> Prop :=
| Run_fresh s : fresh_gateway s -> gw_run [] {| pool_state := s; pool_flights := [] |}
| Run_step tr p e p' : gw_run tr p -> gw_step p e p' -> gw_run (tr ++ [e]) p'.

(** ** What the calls do to the permits and the world *)

(** The registry and the world are as they were. *)
Definition permits_kept (s s' : GwState) : Prop :=
  gs_permits s' = gs_permits s /\ world s' = world s.

#[local] Instance permits_kept_preorder : PreOrder permits_kept.
Proof. unfold permits_kept. split; [by intros s|]. intros s1 s2 s3 [] []. split; congruence. Qed.

Lemma read_runtime_kept env e : moves permits_kept (read_runtime env e : stateful GwState _ _).
Proof. intros s. unfold read_runtime. by destruct (gw_runtime_lock env). Qed.

Lemma on_stores_kept {E A} f (m : stateful BrokerState E A) :
  moves permits_kept (on_stores f m : stateful GwState _ _).
Proof. intros s. unfold on_stores. by destruct (m (rs_broker (gs_stores s))). Qed.

Lemma on_tokens_kept {A} f (m : stateful ApprovalTokenRegistry string A) :
  moves permits_kept (on_tokens f m : stateful GwState _ _).
Proof. intros s. unfold on_tokens. by destruct (m (gs_tokens s)). Qed.

Lemma ask_audit_kept {A} e (q : AuditTable -> result AuditError A) :
  moves permits_kept (ask_audit e q : stateful GwState _ _).
Proof. by intros s. Qed.

Lemma swap_kept env ps : moves permits_kept (swap_policies env ps : stateful GwState _ _).
Proof.
  intros s. unfold swap_policies. destruct (gw_runtime_lock env); [done|].
  by destruct (reload_policies ps (gs_runtime s)).
Qed.

Lemma approve_kept env rt aid id actor :
  moves permits_kept (approve_or_release env rt aid id actor : stateful GwState _ _).
Proof.
  intros s. unfold approve_or_release.
  pose proof (on_stores_kept (map_approval_error aid)
    (approve (audit_redactor rt) (re_broker (gw_rt env) 1) id actor) s) as Hk.
  destruct (on_stores _ _ s) as [[tok|e] s1]; [done|]. simpl in Hk.
  pose proof (on_tokens_kept internal (tokens_remove (gw_token_lock env) aid) s1) as Hk'.
  destruct (on_tokens _ _ s1) as [v s2]. simpl in *. by etrans.
Qed.

Create HintDb kept.
#[local] Hint Resolve read_runtime_kept on_stores_kept on_tokens_kept ask_audit_kept swap_kept
  approve_kept moves_ret moves_lift : kept.

(** Step through a sequence, every part of which keeps the permits. *)
Ltac kept :=
  repeat first [ solve [auto with kept typeclass_instances]
               | apply moves_bind; [typeclasses eauto| |intros]
               | case_match ].

(** Calls that issue no permit. *)
Definition issues_permits (call : ApiCall) : bool :=
  match call with Api_evaluate _ | Api_consume _ _ | Api_execute _ => true | _ => false end.

Lemma handle_kept env call :
  issues_permits call = false ->
  moves permits_kept (handle env call (FA := FA) (CA := CA) (NA := NA)).
Proof.
  destruct call; intros Hi; try done; unfold handle, respond, gw_list_approvals, gw_get_approval,
    gw_approve, gw_deny, gw_list_events, gw_verify_chain, gw_list_policies, gw_reload, path_id,
    body_actor; cbv zeta; kept.
Qed.

(** A registered permit is new on the heap; nothing else there changes. *)
Lemma register_heap locks now p reg r reg' :
  permits_register locks now p reg = (r, reg') ->
  ip_heap reg' = ip_heap reg \/ (r = Ok tt /\ ip_heap reg' = ip_heap reg ++ [p]).
Proof.
  unfold permits_register. destruct (pl_registry locks); [intros [= <- <-]; by left|].
  destruct (_ <=? _); intros [= <- <-]; [by left|by right].
Qed.

(** The permit [p] is what the runtime returned to the handler. *)
Definition issued (e : GwEvent) (p : ExecutionPermit) : Prop :=
  match e with
  | Ev_called s env (Api_evaluate request) => exists secret b,
      evaluate (gs_runtime s) (gw_rt env) request (rs_broker (gs_stores s))
      = (Ok (RO_Permitted (PermittedOutcome_new p secret)), b)
  | Ev_called s env (Api_consume aid request) => exists id entry tok secret b,
      Id_new aid = Ok id /\ gs_tokens s !! aid = Some entry /\ ate_token entry = Some tok /\
      consume_approval (gs_runtime s) (gw_rt env) request id tok (rs_broker (gs_stores s))
      = (Ok (PermittedOutcome_new p secret), b)
  | _ => False
  end.

(** The heap is as it was, or has the new permit [p] at its end. *)
Definition grows (p : ExecutionPermit) (s s' : GwState) : Prop :=
  world s' = world s /\ (heap s' = heap s \/ heap s' = heap s ++ [p]).

Lemma permitted_grows env o s r s' :
  permitted env o s = (r, s') -> grows (po_permit o) s s'.
Proof.
  unfold permitted, on_permits, st_bind, grows.
  destruct (permits_register _ _ _ (gs_permits s)) as [v reg] eqn:E.
  apply register_heap in E. destruct v; intros [= <- <-]; simpl; naive_solver.
Qed.

(** A sequence of which the first part keeps everything and the outcome decides. *)
Lemma on_stores_inv {E A} (f : E -> GatewayError) (m : stateful BrokerState E A) (s : GwState) r s' :
  on_stores f m s = (r, s') ->
  exists v b, m (rs_broker (gs_stores s)) = (v, b) /\ r = map_err f v /\ permits_kept s s' /\
    gs_runtime s' = gs_runtime s /\ gs_tokens s' = gs_tokens s.
Proof.
  unfold on_stores. destruct (m (rs_broker (gs_stores s))) as [v b]. intros [= <- <-].
  by exists v, b.
Qed.

Lemma read_runtime_ok env e (s : GwState) rt s' :
  read_runtime env e s = (Ok rt, s') -> rt = gs_runtime s /\ s' = s.
Proof. unfold read_runtime. destruct (gw_runtime_lock env); [done|]. by intros [= <- <-]. Qed.

Lemma grows_kept p s s' : permits_kept s s' -> grows p s s'.
Proof. intros [Hp Hw]. unfold grows. rewrite Hp. auto. Qed.

Lemma grows_after p s1 s2 s3 : permits_kept s1 s2 -> grows p s2 s3 -> grows p s1 s3.
Proof. unfold permits_kept, grows. intros [-> ->]. done. Qed.

Lemma grows_before p s1 s2 s3 : grows p s1 s2 -> permits_kept s2 s3 -> grows p s1 s3.
Proof. unfold permits_kept, grows. by intros Hg [-> ->]. Qed.

Lemma gw_evaluate_heap env request s r s' :
  gw_evaluate env request s = (r, s') ->
  permits_kept s s' \/ exists p, issued (Ev_called s env (Api_evaluate request)) p /\ grows p s s'.
Proof.
  intros [(e & [_ ->]%st_lift_inv & _)|([] & s1 & [_ ->]%st_lift_inv & Hx)]%st_bind_inv;
    [by left|].
  apply st_bind_inv in Hx as [(e & Hr & _)|(rt & s1 & [-> ->]%read_runtime_ok & Hx)].
  { left. pose proof (read_runtime_kept env (internal "runtime lock") s) as Hk. by rewrite Hr in Hk. }
  apply st_bind_inv in Hx
    as [(e & (v & b & _ & _ & Hk & _)%on_stores_inv & _)
       |(o & s1 & (v & b & Hv & Ho & Hk & _)%on_stores_inv & Hx)]; [by left|].
  symmetry in Ho. apply map_err_ok in Ho as ->.
  destruct o as [| |o]; try (injection Hx as <- <-; by left).
  right. exists (po_permit o). split; [exists (po_permit_secret o), b; by destruct o|].
  apply permitted_grows in Hx. by eapply grows_after.
Qed.

Lemma tokens_get_inv poisoned now aid tokens v tokens' tok :
  tokens_get poisoned now aid tokens = (v, tokens') -> v = Ok (Some tok) ->
  exists entry, tokens !! aid = Some entry /\ ate_token entry = Some tok.
Proof.
  unfold tokens_get, retain_tokens. destruct poisoned; intros [= <- <-]; [done|]. intros [= Hg].
  destruct (filter _ tokens !! aid) as [entry|] eqn:E; [|done].
  apply map_lookup_filter_Some in E as [E _]. by exists entry.
Qed.

Lemma gw_consume_heap env aid request s r s' :
  gw_consume env aid request s = (r, s') ->
  permits_kept s s' \/
  exists p, issued (Ev_called s env (Api_consume aid request)) p /\ grows p s s'.
Proof.
  intros [(e & [_ ->]%st_lift_inv & _)|(id & s1 & [Hid ->]%st_lift_inv & Hx)]%st_bind_inv;
    [by left|]. symmetry in Hid. apply map_err_ok in Hid.
  apply st_bind_inv in Hx as [(e & [_ ->]%st_lift_inv & _)|([] & s1 & [_ ->]%st_lift_inv & Hx)];
    [by left|].
  pose proof (on_tokens_kept internal (tokens_get (gw_token_lock env) (gw_now env 1) aid) s) as Hk.
  apply st_bind_inv in Hx as [(e & Ht & _)|(entry & s1 & Ht & Hx)]; rewrite Ht in Hk; [by left|].
  simpl in Hk.
  apply st_bind_inv in Hx as [(e & [_ ->]%st_lift_inv & _)|(tok & s2 & [Htok ->]%st_lift_inv & Hx)];
    [by left|].
  apply st_bind_inv in Hx as [(e & Hr & _)|(rt & s2 & [-> ->]%read_runtime_ok & Hx)].
  { left. pose proof (read_runtime_kept env (internal "runtime lock") s1) as Hk1. rewrite Hr in Hk1.
    by etrans. }
  apply st_bind_inv in Hx
    as [(e & (v & b & _ & _ & Hk1 & _)%on_stores_inv & _)
       |(o & s2 & (v & b & Hv & Ho & Hk1 & _)%on_stores_inv & Hx)]; [left; by etrans|].
  symmetry in Ho. apply map_err_ok in Ho as ->.
  assert (Hs1 : gs_runtime s1 = gs_runtime s /\ gs_stores s1 = gs_stores s /\
            exists en, gs_tokens s !! aid = Some en /\ ate_token en = Some tok).
  { unfold on_tokens in Ht. destruct (tokens_get _ _ _ (gs_tokens s)) as [v tk] eqn:Eg.
    injection Ht as Hv' <-. split_and!; [done..|]. apply map_err_ok in Hv'.
    eapply tokens_get_inv; [exact Eg|]. rewrite Hv'. destruct entry; simpl in Htok; congruence. }
  destruct Hs1 as (Hrt & Hst & en & Hen & Hten). rewrite Hrt, Hst in Hv.
  right. exists (po_permit o).
  split; [exists id, en, tok, (po_permit_secret o), b; split_and!; try done; by destruct o|].
  eapply grows_after; [exact Hk|]. eapply grows_after; [exact Hk1|].
  apply st_bind_inv in Hx as [(e & Hp & _)|(dto & s3 & Hp & Hx)]; [by apply permitted_grows in Hp|].
  apply permitted_grows in Hp. eapply grows_before; [exact Hp|].
  pose proof (on_tokens_kept internal (tokens_remove (gw_token_lock env) aid) s3) as Hk3.
  apply st_bind_inv in Hx as [(e & Hr & _)|(u & s4 & Hr & [= <- <-])]; by rewrite Hr in Hk3.
Qed.

(** What a call does to the permits and the world. *)
Lemma handle_heap env call s r s' :
  is_execute call = false -> handle env call (FA := FA) (CA := CA) (NA := NA) s = (r, s') ->
  permits_kept s s' \/ exists p, issued (Ev_called s env call) p /\ grows p s s'.
Proof.
  intros Hx Hh. destruct (issues_permits call) eqn:Ei.
  - destruct call as [request|body| | | | |aid request| | | |]; try done; unfold handle, respond in Hh;
      apply st_bind_inv in Hh as [(e & Hh & _)|(a & s1 & Hh & [= <- <-])];
      (eapply gw_evaluate_heap || eapply gw_consume_heap); exact Hh.
  - left. pose proof (handle_kept env call Ei s) as Hk. by rewrite Hh in Hk.
Qed.

(** ** What an execution does *)

(** The same permit, used or not. *)
Definition kin (p q : ExecutionPermit) : Prop :=
  ep_token_hash q = ep_token_hash p /\ ep_request_digest q = ep_request_digest p.

(** An execution had no effect. *)
Definition inert (r : result RuntimeError ExecutionResult) (w w' : W) : Prop :=
  w' = w /\ exists e, r = Err e.

Lemma execute_effect rt env request p secret input (s : RtState W) r p' s' :
  execute rt (FA := FA) (CA := CA) (NA := NA) env request p secret input s = (r, p', s') ->
  kin p p' /\
  ((p' = p /\ inert r (rs_world s) (rs_world s')) \/
   (ep_consumed p = false /\ ep_consumed p' = true /\ sha256 secret = ep_token_hash p /\
    ep_request_digest p = compute_request_digest request)).
Proof.
  intros [(-> & -> & He)|(kind & v & b & (_ & Hs & [Hv Hq] & _) & _ & _ & Hx)]%execute_inv.
  { split; [done|]. left. by split. }
  destruct Hx as [(e & _ & -> & -> & ->)|(seq & res & _ & Hrun & Hf)].
  { split; [done|]. left. split; [done|]. split; [done|by eexists]. }
  apply run_adapter_gate in Hrun as [(-> & Hw & err & ->)|[_ ->]].
  - split; [done|]. left. split; [done|]. split; [done|]. by apply failed_inv in Hf as [He _].
  - destruct (consume_frame p) as (Ht & _ & _ & _ & Hd). split; [by split|]. right.
    apply ExecutionPermit_is_valid_spec in Hv as [_ Hc]. split_and!; try done. apply consume_consumed.
Qed.

Lemma run_inv env body secret input l s r discard s' :
  run env body secret input l s = (Ok (r, discard), s') ->
  exists q q', heap s !! l = Some q /\ heap s' = <[l := q']> (heap s) /\
    execute (gs_runtime s) (FA := FA) (CA := CA) (NA := NA) (gw_rt env) (er_request body) q secret
      input (gs_stores s) = (r, q', gs_stores s').
Proof.
  unfold execute_run. destruct (pl_permit _ l); [done|].
  destruct (heap s !! l) as [q|]; [|done]. destruct (gw_runtime_lock env); [done|].
  destruct (execute _ _ _ _ _ _ _) as [[v q'] st] eqn:E. intros [= <- _ <-]. by exists q, q'.
Qed.

Lemma run_err env body secret input l s e s' :
  run env body secret input l s = (Err e, s') -> s' = s.
Proof.
  unfold execute_run. destruct (pl_permit _ l); [by intros [= _ <-]|].
  destruct (heap s !! l) as [q|]; [|by intros [= _ <-]].
  destruct (gw_runtime_lock env); [by intros [= _ <-]|].
  by destruct (execute _ _ _ _ _ _ _) as [[v q'] st].
Qed.

(** The registry operations leave the permits themselves and the world alone. *)
Definition heap_kept (s s' : GwState) : Prop := heap s' = heap s /\ world s' = world s.

Lemma lookup_heap env body s (r : result GatewayError Loc) s' :
  execute_lookup env body s = (r, s') -> heap_kept s s'.
Proof.
  unfold execute_lookup, on_permits, permits_get, st_bind.
  destruct (pl_registry _); simpl; [by intros [= _ <-]|]. by intros [= _ <-].
Qed.

Lemma discard_heap env body discard s r s' :
  execute_discard env body discard s = (r, s') -> heap_kept s s'.
Proof.
  unfold execute_discard, on_permits, permits_remove. destruct discard; [|by intros [= _ <-]].
  destruct (pl_registry _); by intros [= _ <-].
Qed.

(** ** Steps *)

Definition is_run (e : GwEvent) : bool := match e with Ev_ran _ _ _ _ _ => true | _ => false end.

(** What one step does to the permits. *)
Lemma step_heap p e p' :
  gw_step p e p' ->
  (is_run e = false /\ heap_kept (pool_state p) (pool_state p')) \/
  (exists q, issued e q /\ grows q (pool_state p) (pool_state p')) \/
  (exists l body r w w' q q', e = Ev_ran l body r w w' /\ w = world (pool_state p) /\
     w' = world (pool_state p') /\ heap (pool_state p) !! l = Some q /\
     heap (pool_state p') = <[l := q']> (heap (pool_state p)) /\ kin q q' /\
     ((q' = q /\ inert r w w') \/
      (ep_consumed q = false /\ ep_consumed q' = true /\
       exists secret input, F_found body secret input l ∈ pool_flights p /\
         sha256 secret = ep_token_hash q /\
         ep_request_digest q = compute_request_digest (er_request body)))).
Proof.
  intros Hst. destruct Hst as [limiter s fl|env call s r s' fl Hne Hh|env body secret input s l s' fl _ Hl
    |env body secret input s e s' fl _ Hl|env body secret input s l r discard s' fl1 fl2 Hr
    |env body secret input s l e s' fl1 fl2 Hr|env body discard s r s' fl1 fl2 Hd]; simpl.
  - by left.
  - destruct (handle_heap _ _ _ _ _ Hne Hh) as [[Hp Hw]|Hi]; [left|by right; left].
    split; [done|]. split; [by rewrite Hp|done].
  - left. by apply lookup_heap in Hl.
  - left. by apply lookup_heap in Hl.
  - right. right. apply run_inv in Hr as (q & q' & Hq & Hh & Hx).
    apply execute_effect in Hx as [Hkin Hx]. exists l, body, r, (world s), (world s'), q, q'.
    split_and!; try done. destruct Hx as [Hx|(Hc & Hc' & Hs & Hd)]; [by left|right].
    split_and!; try done. exists secret, input. split; [|done].
    apply elem_of_app. right. by left.
  - left. apply run_err in Hr as ->. done.
  - left. by apply discard_heap in Hd.
Qed.

(** A used permit stays used. *)
Lemma consumed_stays p e p' l q :
  gw_step p e p' -> heap (pool_state p) !! l = Some q -> ep_consumed q = true ->
  exists q', heap (pool_state p') !! l = Some q' /\ ep_consumed q' = true.
Proof.
  intros [[_ [Hh _]]|[(x & _ & _ & [Hh|Hh])|(k & body & r & w & w' & x & x' & _ & _ & _ & Hk & Hh & _ & Hx)]]%step_heap Hq Hc;
    rewrite Hh; try by exists q.
  - exists q. split; [|done]. by apply lookup_app_l_Some.
  - destruct (decide (k = l)) as [->|Hne]; [|exists q; by rewrite list_lookup_insert_ne].
    exists x'. split; [by eapply list_lookup_insert_eq, lookup_lt_Some|].
    assert (x = q) as -> by congruence. by destruct Hx as [[-> _]|(_ & Hc' & _)].
Qed.

Inductive gw_steps : Pool -> list GwEvent -> Pool -> Prop :=
| Steps_none p : gw_steps p [] p
| Steps_more p e p1 tr p' : gw_step p e p1 -> gw_steps p1 tr p' -> gw_steps p (e :: tr) p'.

Lemma gw_steps_snoc p tr p1 e p' : gw_steps p tr p1 -> gw_step p1 e p' -> gw_steps p (tr ++ [e]) p'.
Proof. induction 1; intros Hs; simpl; repeat (econstructor; eauto). Qed.

Lemma gw_run_split tr1 tr2 p :
  gw_run (tr1 ++ tr2) p -> exists p1, gw_run tr1 p1 /\ gw_steps p1 tr2 p.
Proof.
  intros Hr. remember (tr1 ++ tr2) as tr eqn:E. revert tr2 E.
  induction Hr as [s Hs|tr p e p' Hr IH Hst]; intros tr2 E.
  - symmetry in E. apply app_eq_nil in E as [-> ->]. eexists. split; [by apply Run_fresh|constructor].
  - destruct tr2 as [|x tr2 _] using rev_ind.
    + rewrite app_nil_r in E. subst tr1. exists p'. split; [by eapply Run_step|constructor].
    + rewrite app_assoc in E. apply app_inj_tail in E as [-> ->].
      destruct (IH tr2 eq_refl) as (p1 & H1 & H2). exists p1. split; [done|]. by eapply gw_steps_snoc.
Qed.

Lemma used_permit_inert p tr p' l q a body r w w' b :
  gw_steps p tr p' -> heap (pool_state p) !! l = Some q -> ep_consumed q = true ->
  tr = a ++ Ev_ran l body r w w' :: b -> inert r w w'.
Proof.
  intros Hs. revert a q. induction Hs as [p|p e p1 tr p' Hst Hs IH]; intros a q Hq Hc Htr.
  { by destruct a. }
  destruct a as [|x a]; injection Htr as -> ->.
  - apply step_heap in Hst
      as [[[=] _]|[(x & [] & _)|(k & body' & r' & v & v' & x & x' & E & _ & _ & Hk & _ & _ & Hx)]].
    injection E as <- <- <- <- <-. assert (x = q) as -> by congruence.
    destruct Hx as [[_ Hx]|(Hf & _)]; [done|congruence].
  - destruct (consumed_stays _ _ _ _ _ Hst Hq Hc) as (q' & Hq' & Hc'). by eapply IH.
Qed.

(** ** Where permits come from *)

(** [e] is the call that entitles a client to one execution of [request] with a
    secret of digest [hash]: an evaluation in which the policies in force allowed a
    request with the same digest, or the consumption of an approval, with the token
    the gateway kept for it, for a request with the same digest; the secret was drawn
    in that call. *)
Definition entitles (e : GwEvent) (request : ToolRequest) (hash : string) : Prop :=
  match e with
  | Ev_called s env call =>
      (exists secret, re_random (gw_rt env) = Ok secret /\ sha256 secret = hash) /\
      match call with
      | Api_evaluate req =>
          compute_request_digest req = compute_request_digest request /\
          ad_effect (PolicyEngine_evaluate (rt_engine (gs_runtime s)) (re_now (gw_rt env) 0) req)
            = Allow
      | Api_consume aid req =>
          compute_request_digest req = compute_request_digest request /\
          exists id entry tok c b, Id_new aid = Ok id /\ gs_tokens s !! aid = Some entry /\
            ate_token entry = Some tok /\
            consume (audit_redactor (gs_runtime s)) (re_broker (gw_rt env) 1) id tok
              (rs_broker (gs_stores s)) = (Ok c, b) /\
            ca_request_digest c = compute_request_digest request
      | _ => False
      end
  | _ => False
  end.

Lemma issued_entitles e p request hash :
  issued e p -> ep_token_hash p = hash -> ep_request_digest p = compute_request_digest request ->
  entitles e request hash.
Proof.
  intros Hi <- Hd. destruct e as [s env call| |]; [|done|done].
  destruct call as [req| | | | | |aid req| | | |]; try done; simpl in Hi.
  - destruct Hi as (secret & b & (Heff & Hr & Ht & Hq)%evaluate_permitted). simpl in *.
    split; [by exists secret|]. by split; [congruence|].
  - destruct Hi as (id & entry & tok & secret & b & Hid & Hen & Htok & Hc).
    apply consume_approval_ok in Hc as (c & Hc & Hcd & Hr & ids & _ & Hf). simpl in Hr, Hf.
    rewrite Hf in Hd |- *. simpl in Hd |- *. split; [by exists secret|]. split; [done|].
    exists id, entry, tok, c, b. by rewrite Hcd, Hd.
Qed.

(** Every permit on the heap was issued, and every flight was prepared. *)
Record pool_ok (tr : list GwEvent) (p : Pool) : Prop := {
  po_heap : forall l q, heap (pool_state p) !! l = Some q -> exists e q0, e ∈ tr /\ issued e q0 /\ kin q0 q;
  po_flights : forall body secret input l, F_found body secret input l ∈ pool_flights p ->
    execute_prepare body = Ok (secret, input);
}.

Lemma step_flights p e p' :
  gw_step p e p' -> forall body secret input l, F_found body secret input l ∈ pool_flights p' ->
  F_found body secret input l ∈ pool_flights p \/ execute_prepare body = Ok (secret, input).
Proof.
  intros Hst body secret input l. destruct Hst; simpl; try (by left);
    rewrite ?elem_of_app, ?elem_of_cons; naive_solver.
Qed.

Lemma step_pool_ok tr p e p' : pool_ok tr p -> gw_step p e p' -> pool_ok (tr ++ [e]) p'.
Proof.
  intros [Hh Hf] Hst. constructor.
  - assert (Hold : forall l q, heap (pool_state p) !! l = Some q ->
              exists e' q0, e' ∈ tr ++ [e] /\ issued e' q0 /\ kin q0 q).
    { intros l q Hl. destruct (Hh l q Hl) as (e' & q0 & He & Hi & Hk).
      exists e', q0. split; [|done]. apply elem_of_app. by left. }
    intros l q Hl.
    destruct (step_heap _ _ _ Hst)
      as [[_ [Eh _]]|[(x & Hx & _ & [Eh|Eh])|(k & body & r & w & w' & x & x' & _ & _ & _ & Hk & Eh & Hkin & _)]];
      rewrite Eh in Hl; [by apply (Hold l)|by apply (Hold l)| |].
    + apply lookup_app_Some in Hl as [Hl|[_ Hl]]; [by apply (Hold l)|].
      apply list_lookup_singleton_Some in Hl as [_ <-].
      exists e, x. split; [|done]. apply elem_of_app. right. by left.
    + apply list_lookup_insert_Some in Hl as [(<- & <- & _)|[_ Hl]]; [|by apply (Hold l)].
      destruct (Hold k x Hk) as (e' & q0 & He & Hi & [Ht Hd]). exists e', q0.
      split_and!; [done..|]. destruct Hkin. split; congruence.
  - intros body secret input l Hin.
    destruct (step_flights _ _ _ Hst _ _ _ _ Hin) as [Hin'|]; [by eapply Hf|done].
Qed.

Lemma gw_run_ok tr p : gw_run tr p -> pool_ok tr p.
Proof.
  induction 1 as [s [Hs _]|tr p e p' _ IH Hst]; [|by eapply step_pool_ok].
  constructor; simpl; [by rewrite Hs|]. intros body secret input l Hin. by apply not_elem_of_nil in Hin.
Qed.

(** An execution has no effect, or it has used a permit of the heap. *)
Lemma run_used p l body r w w' p' :
  gw_step p (Ev_ran l body r w w') p' ->
  inert r w w' \/
  exists q q' secret input, heap (pool_state p) !! l = Some q /\
    heap (pool_state p') !! l = Some q' /\ ep_consumed q' = true /\
    F_found body secret input l ∈ pool_flights p /\ sha256 secret = ep_token_hash q /\
    ep_request_digest q = compute_request_digest (er_request body).
Proof.
  intros [[[=] _]|[(x & [] & _)|(k & bd & r' & v & v' & q & q' & E & _ & _ & Hk & Eh & _ & Hx)]]%step_heap.
  injection E as <- <- <- <- <-.
  destruct Hx as [[_ Hx]|(_ & Hc & secret & input & Hin & Hs & Hd)]; [by left|right].
  exists q, q', secret, input. split_and!; try done. rewrite Eh.
  by eapply list_lookup_insert_eq, lookup_lt_Some.
Qed.

(** (C9) Under any interleaving of requests an issued permit executes at most once:
    after an execution with the permit at [l] that succeeded or touched the world, every
    later execution that holds the same permit, also one that had found it before, fails
    and leaves the world alone. *)
Theorem issued_permit_once tr p a l body1 r1 w1 w1' b body2 r2 w2 w2' c :
  gw_run tr p ->
  tr = a ++ Ev_ran l body1 r1 w1 w1' :: b ++ Ev_ran l body2 r2 w2 w2' :: c ->
  ~ inert r1 w1 w1' -> inert r2 w2 w2'.
Proof.
  intros Hr -> Hne. apply gw_run_split in Hr as (p1 & _ & Hs).
  inversion Hs as [|? ? p2 ? ? Hst Hs']; subst.
  destruct (run_used _ _ _ _ _ _ _ Hst) as [|(q & q' & secret & input & _ & Hq' & Hc & _)]; [done|].
  by eapply used_permit_inert.
Qed.

(** An execution has no effect, or an earlier call entitled the client to it. *)
Lemma run_entitled tr1 l body r w w' tr2 p :
  gw_run (tr1 ++ Ev_ran l body r w w' :: tr2) p ->
  inert r w w' \/
  exists secret input e, execute_prepare body = Ok (secret, input) /\ e ∈ tr1 /\
    entitles e (er_request body) (sha256 secret).
Proof.
  intros (p1 & Hr & Hs)%gw_run_split.
  inversion Hs as [|? ? p2 ? ? Hst Hs']; subst.
  destruct (run_used _ _ _ _ _ _ _ Hst)
    as [|(q & q' & secret & input & Hq & _ & _ & Hin & Hsec & Hd)]; [by left|right].
  apply gw_run_ok in Hr as [Hh Hf]. destruct (Hh l q Hq) as (e & q0 & He & Hi & [Ht Hd0]).
  exists secret, input, e. split_and!; [by eapply Hf|done|].
  eapply issued_entitles; [exact Hi|congruence|congruence].
Qed.

(** (C2) The gateway executes only what it decided.  Whatever requests are served,
    in whatever interleaving, an execution that succeeded or touched the world was
    presented with the secret of a permit that an earlier call of this gateway issued,
    for a request with the same digest, either because the policies in force allowed
    it or by consuming an approval with the token the gateway kept for it.  What else
    the client claims about the permit (scope, rules, times) plays no role. *)
Theorem gateway_execution_entitled tr p a l body r w w' b :
  gw_run tr p -> tr = a ++ Ev_ran l body r w w' :: b -> ~ inert r w w' ->
  exists secret input e, execute_prepare body = Ok (secret, input) /\ e ∈ a /\
    entitles e (er_request body) (sha256 secret).
Proof. intros Hr -> Hne. by destruct (run_entitled _ _ _ _ _ _ _ _ Hr). Qed.

(** The world changes only in executions. *)
Lemma only_runs_act p e p' :
  gw_step p e p' -> is_run e = false -> world (pool_state p') = world (pool_state p).
Proof.
  intros [[_ [_ Hw]]|[(q & _ & Hw & _)|(l & body & r & w & w' & q & q' & -> & _)]]%step_heap Hn; done.
Qed.

(** The handler of an execution is its steps, one after the other: what it does
    without interleaving is one of the runs above, with at most one execution. *)
Lemma gw_execute_steps env body s r s' fl :
  gw_execute env body (FA := FA) (CA := CA) (NA := NA) s = (r, s') ->
  exists tr, gw_steps {| pool_state := s; pool_flights := fl |} tr
                      {| pool_state := s'; pool_flights := fl |} /\
    (Forall (eq Ev_quiet) tr \/
     exists l v, tr = [Ev_quiet; Ev_ran l body v (world s) (world s'); Ev_quiet]).
Proof.
  intros [(e & [_ ->]%st_lift_inv & _)|([secret input] & s1 & [Hp ->]%st_lift_inv & Hx)]%st_bind_inv;
    [exists []; split; [constructor|by left]|]. symmetry in Hp.
  apply st_bind_inv in Hx as [(e & Hl & _)|(l & s1 & Hl & Hx)].
  { exists [Ev_quiet]. split; [|left; by repeat constructor]. econstructor; [|constructor].
    by eapply Step_missed. }
  destruct (lookup_heap _ _ _ _ _ Hl) as [_ Hw].
  apply st_bind_inv in Hx as [(e & Hr & _)|([v discard] & s2 & Hr & Hx)].
  { exists [Ev_quiet; Ev_quiet]. split; [|left; by repeat constructor].
    econstructor; [by eapply Step_found|].
    econstructor; [|constructor]. by eapply (Step_stuck _ _ _ _ _ _ _ _ []). }
  assert (Hd : exists d, execute_discard env body discard s2 = (d, s')).
  { apply st_bind_inv in Hx as [(e & Hd & _)|([] & s3 & Hd & [_ ->]%st_lift_inv)]; by eexists. }
  destruct Hd as [d Hd]. destruct (discard_heap _ _ _ _ _ _ Hd) as [_ Hw'].
  eexists [_; _; _]. split; [|right; rewrite Hw', <- Hw; by exists l, v].
  econstructor; [by eapply Step_found|].
  econstructor; [by eapply (Step_ran _ _ _ _ _ _ _ _ _ [])|].
  econstructor; [|constructor]. by eapply (Step_discard _ _ _ _ _ _ []).
Qed.

(** ** Approval tokens *)

(** After a request to approve, with no lock poisoned: on success the gateway holds the
    token of the approval; on failure the slot is as free as it was, unless an
    unexpired one was taken already. *)
Lemma gw_approve_slot env aid actor (s : GwState) r s' :
  gw_token_lock env = false -> gw_approve env aid actor s = (r, s') ->
  match r with
  | Ok _ => exists tok entry, gs_tokens s' !! aid = Some entry /\ ate_token entry = Some tok
  | Err _ => gs_tokens s' !! aid = None \/ gs_tokens s' !! aid = gs_tokens s !! aid
  end.
Proof.
  intros Hlock Hx.
  apply st_bind_inv in Hx as [(e & [_ ->]%st_lift_inv & ->)|(id & s1 & [_ ->]%st_lift_inv & Hx)]; [by right|].
  apply st_bind_inv in Hx as [(e & [_ ->]%st_lift_inv & ->)|(act & s1 & [_ ->]%st_lift_inv & Hx)]; [by right|].
  apply st_bind_inv in Hx as [(e & Hr & ->)|(rt & s1 & [-> ->]%read_runtime_ok & Hx)].
  { unfold read_runtime in Hr. destruct (gw_runtime_lock env); [|done]. injection Hr as _ <-. by right. }
  apply st_bind_inv in Hx
    as [(e & (v & b & _ & _ & _ & _ & Ht)%on_stores_inv & ->)
       |(rec & s1 & (v & b & _ & _ & _ & _ & Ht)%on_stores_inv & Hx)]; [right; by rewrite Ht|].
  unfold on_tokens, tokens_reserve, tokens_fulfill, approve_or_release, on_tokens, tokens_remove in Hx.
  rewrite Hlock in Hx.
  apply st_bind_inv in Hx as [(e & Hr & ->)|([] & s2 & Hr & Hx)]; cbv beta in Hr; rewrite Ht in Hr.
  - destruct (retain_tokens _ _ !! aid) as [entry|] eqn:E.
    + injection Hr as _ <-. right. simpl. rewrite E.
      unfold retain_tokens in E. by apply map_lookup_filter_Some in E as [-> _].
    + destruct (_ <=? _); [|done]. injection Hr as _ <-. left. exact E.
  - destruct (retain_tokens _ _ !! aid) as [entry|] eqn:E; [done|].
    destruct (_ <=? _); [done|]. injection Hr as <-.
    apply st_bind_inv in Hx as [(e & Ha & ->)|(tok & s3 & Ha & Hx)].
    + destruct (on_stores _ _ _) as [[tok|e'] s3] eqn:Ea in Ha; [done|].
      injection Ha as _ <-. left. simpl. apply lookup_delete_eq.
    + destruct (on_stores _ _ _) as [[tok'|e'] s4] eqn:Ea in Ha; [|done]. injection Ha as <- <-.
      apply on_stores_inv in Ea as (v' & b' & _ & _ & _ & _ & Ht'). simpl in Ht'.
      rewrite Ht', lookup_insert_eq in Hx. injection Hx as <- <-. simpl.
      rewrite lookup_insert_eq. by eexists _, _.
Qed.

End Machine.
