(* ===== verification/GatewayServer.v ===== *)
(** * Starting the gateway

    crates/kavach-gateway/src/server.rs up to the point where it listens, with the
    default configuration of state.rs, and the parser of socket addresses of the
    standard library. *)

From stdpp Require Import base tactics list strings gmap.
From Stdlib Require Import ZArith Lia Ascii.
From S2P Require Import Prelude RustStr CoreError CoreIds CorePath CoreResource CoreRequest.
From S2P Require Import CorePermit AuditModel EnforceFs EnforceNet PolicyModel PolicyEngine Runtime.
From S2P Require Import GatewayModel GatewayTypes Gateway.

Open Scope Z_scope.

(** ** [str::parse::<SocketAddr>] *)

(** A parser returns its value and the rest of the text. *)
Abbreviation parser A := (string -> option (A * string)).

Definition read_given_char (c : ascii) : parser unit := fun s =>
  match s with String d s' => if Ascii.eqb c d then Some (tt, s') else None | EmptyString => None end.

(** [char::to_digit]. *)
Definition to_digit (radix : Z) (c : ascii) : option Z :=
  let v := byte_val c in
  let d := if is_ascii_digit c then v - 48
           else if in_range 97 102 c then v - 87
           else if in_range 65 70 c then v - 55
           else radix in
  if d <? radix then Some d else None.

(** The digits at the front: their value, their number, the rest. *)
Fixpoint read_digits (radix acc count : Z) (s : string) : Z * Z * string :=
  match s with
  | EmptyString => (acc, count, s)
  | String c s' =>
      match to_digit radix c with
      | Some d => read_digits radix (acc * radix + d) (count + 1) s'
      | None => (acc, count, s)
      end
  end.

(** [read_number] for a type with largest value [max]. *)
Definition read_number (radix max : Z) (max_digits : option Z) (allow_zero_prefix : bool)
  : parser Z := fun s =>
  let '(n, count, rest) := read_digits radix 0 0 s in
  let leading_zero := match s with String c _ => Ascii.eqb c "0" | EmptyString => false end in
  if count =? 0 then None
  else if match max_digits with Some m => m <? count | None => false end then None
  else if max <? n then None
  else if negb allow_zero_prefix && leading_zero && (1 <? count) then None
  else Some (n, rest).

(** [read_separator]: the separator stands before every item but the first. *)
Definition read_separator {A} (sep : ascii) (index : nat) (inner : parser A) : parser A := fun s =>
  if Nat.eqb index 0 then inner s
  else match read_given_char sep s with Some (_, s') => inner s' | None => None end.

(** [read_ipv4_addr]. *)
Definition read_ipv4_addr : parser Ipv4Addr := fun s =>
  let octet i := read_separator "." i (read_number 10 255 (Some 3) false) in
  match octet 0%nat s with
  | None => None
  | Some (a, s1) =>
      match octet 1%nat s1 with
      | None => None
      | Some (b, s2) =>
          match octet 2%nat s2 with
          | None => None
          | Some (c, s3) =>
              match octet 3%nat s3 with
              | None => None
              | Some (d, s4) => Some (mkIpv4 a b c d, s4)
              end
          end
      end
  end.

(** [read_groups] for [limit - i] more groups from the [i]-th: the groups, whether
    they end with an embedded IPv4 address, and the rest. *)
Fixpoint read_groups (left i : nat) (s : string) : list Z * bool * string :=
  match left with
  | O => ([], false, s)
  | S left' =>
      let ipv4 := match left' with O => None | S _ => read_separator ":" i read_ipv4_addr s end in
      match ipv4 with
      | Some (v4, rest) => ([oct0 v4 * 256 + oct1 v4; oct2 v4 * 256 + oct3 v4], true, rest)
      | None =>
          match read_separator ":" i (read_number 16 65535 (Some 4) true) s with
          | Some (g, s') => let '(gs, e, rest) := read_groups left' (S i) s' in (g :: gs, e, rest)
          | None => ([], false, s)
          end
      end
  end.

Definition ipv6_of (l : list Z) : Ipv6Addr :=
  let g i := nth i l 0 in
  mkIpv6 (g 0%nat) (g 1%nat) (g 2%nat) (g 3%nat) (g 4%nat) (g 5%nat) (g 6%nat) (g 7%nat).

(** [read_ipv6_addr]. *)
Definition read_ipv6_addr : parser Ipv6Addr := fun s =>
  let '(head, head_ipv4, rest) := read_groups 8 0 s in
  if Nat.eqb (length head) 8 then Some (ipv6_of head, rest)
  else if head_ipv4 then None
  else
    match read_given_char ":" rest with
    | None => None
    | Some (_, r1) =>
        match read_given_char ":" r1 with
        | None => None
        | Some (_, r2) =>
            let '(tail, _, r3) := read_groups (8 - (length head + 1)) 0 r2 in
            Some (ipv6_of (head ++ repeat 0 (8 - length head - length tail) ++ tail), r3)
        end
    end.

(** [read_port]. *)
Definition read_port : parser Z := fun s =>
  match read_given_char ":" s with
  | Some (_, s') => read_number 10 65535 None true s'
  | None => None
  end.

Definition read_socket_addr_v4 : parser SocketAddr := fun s =>
  match read_ipv4_addr s with
  | None => None
  | Some (ip, s1) =>
      match read_port s1 with
      | Some (port, s2) => Some ({| sa_ip := V4 ip; sa_port := port; sa_scope := 0 |}, s2)
      | None => None
      end
  end.

(** [read_scope_id().unwrap_or(0)]. *)
Definition read_scope_id (s : string) : Z * string :=
  match read_given_char "%" s with
  | None => (0, s)
  | Some (_, s') =>
      match read_number 10 (2 ^ 32 - 1) None true s' with Some (n, r) => (n, r) | None => (0, s) end
  end.

Definition read_socket_addr_v6 : parser SocketAddr := fun s =>
  match read_given_char "[" s with
  | None => None
  | Some (_, s1) =>
      match read_ipv6_addr s1 with
      | None => None
      | Some (ip, s2) =>
          let '(scope, s3) := read_scope_id s2 in
          match read_given_char "]" s3 with
          | None => None
          | Some (_, s4) =>
              match read_port s4 with
              | Some (port, s5) => Some ({| sa_ip := V6 ip; sa_port := port; sa_scope := scope |}, s5)
              | None => None
              end
          end
      end
  end.

(** [<SocketAddr as FromStr>::from_str] and the text of its error. *)
Definition parse_socket_addr (s : string) : result string SocketAddr :=
  let whole (o : option (SocketAddr * string)) : option SocketAddr :=
    match o with Some (a, EmptyString) => Some a | _ => None end in
  ok_or "invalid socket address syntax"
    (whole (match read_socket_addr_v4 s with Some r => Some r | None => read_socket_addr_v6 s end)).

(** ** server.rs *)

(** [is_loopback] of the gateway; [Ipv6Addr::LOCALHOST] is the loopback address. *)
Definition gw_is_loopback (a : IpAddr) : bool :=
  match a with V4 v4 => oct0 v4 =? 127 | V6 v6 => forallb (Z.eqb 0) (take 7 (segments v6)) && (seg7 v6 =? 1) end.

(** [validate_bind]. *)
Definition validate_bind (bind : string) (allow_non_loopback : bool) : result string unit :=
  let? addr := map_err (fun e => "invalid bind address: " +:+ e) (parse_socket_addr bind) in
  if negb (gw_is_loopback (sa_ip addr)) && negb allow_non_loopback then
    Err "binding to a non-loopback address requires allow_non_loopback: true"
  else Ok tt.

(** [GatewayConfig]; the timeout in seconds. *)
Record GatewayConfig := {
  gc_bind : string;
  gc_request_body_limit : Z;
  gc_request_timeout : Z;
  gc_concurrency_limit : Z;
  gc_rate_limit_per_second : Z;
  gc_rate_limit_burst : Z;
  gc_allow_non_loopback : bool;
}.

(** [GatewayConfig::default]. *)
Definition GatewayConfig_default : GatewayConfig :=
  {| gc_bind := "127.0.0.1:7421"; gc_request_body_limit := 1048576; gc_request_timeout := 30;
     gc_concurrency_limit := 100; gc_rate_limit_per_second := 50; gc_rate_limit_burst := 100;
     gc_allow_non_loopback := false |}.

(** [GatewayBuilder::start], up to the call of [TcpListener::bind]: the address, the
    token and the shared state. *)
Definition start `{Sha256, HexLib, GlobLib} {W} (runtime : KavachRuntime) (stores : RtState W)
    (token_hex : option string) (config : GatewayConfig)
  : result string (SocketAddr * GatewayToken * GatewayState W) :=
  let? _ := validate_bind (gc_bind config) (gc_allow_non_loopback config) in
  let? addr := parse_socket_addr (gc_bind config) in
  let? token := start_token token_hex in
  Ok (addr, token,
      {| gs_runtime := runtime; gs_stores := stores; gs_permits := IssuedPermitRegistry_new;
         gs_tokens := ∅;
         gs_limiter := RateLimiter_new (gc_rate_limit_per_second config) (gc_rate_limit_burst config) |}).

(** ** Addresses *)

Example default_bind_parses :
  parse_socket_addr "127.0.0.1:7421"
  = Ok {| sa_ip := V4 (mkIpv4 127 0 0 1); sa_port := 7421; sa_scope := 0 |}.
Proof. reflexivity. Qed.

Example ipv6_addresses :
  map parse_socket_addr ["[::1]:80"; "[::ffff:127.0.0.1]:80"; "[1:2:3:4:5:6:7:8%9]:080"] =
  [Ok {| sa_ip := V6 (mkIpv6 0 0 0 0 0 0 0 1); sa_port := 80; sa_scope := 0 |};
   Ok {| sa_ip := V6 (mkIpv6 0 0 0 0 0 65535 32512 1); sa_port := 80; sa_scope := 0 |};
   Ok {| sa_ip := V6 (mkIpv6 1 2 3 4 5 6 7 8); sa_port := 80; sa_scope := 9 |}].
Proof. reflexivity. Qed.

Example not_addresses :
  forallb (fun s => negb (is_ok (parse_socket_addr s)))
    [""; "localhost:80"; "127.0.0.1"; "127.0.0.1:65536"; "127.0.0.01:80"; "127.0.0.256:80";
     "127.0.0.1:80 "; "::1:80"; "[::1]"; "[1:2:3:4:5:6:7]:80"; "[1::2::3]:80"] = true.
Proof. reflexivity. Qed.

Example any_interface_refused :
  validate_bind "0.0.0.0:7421" false
  = Err "binding to a non-loopback address requires allow_non_loopback: true".
Proof. reflexivity. Qed.

(** What a gateway that listens has passed. *)
Lemma start_ok `{Sha256, HexLib, GlobLib} {W} runtime (stores : RtState W) token_hex config addr token s :
  start runtime stores token_hex config = Ok (addr, token, s) ->
  parse_socket_addr (gc_bind config) = Ok addr /\
  (gc_allow_non_loopback config = false -> gw_is_loopback (sa_ip addr) = true) /\
  start_token token_hex = Ok token /\ gs_runtime s = runtime /\ gs_stores s = stores /\
  gs_permits s = IssuedPermitRegistry_new /\ gs_tokens s = ∅.
Proof.
  unfold start, validate_bind. destruct (parse_socket_addr (gc_bind config)) as [a|]; [|done]. simpl.
  destruct (gw_is_loopback (sa_ip a)) eqn:El, (gc_allow_non_loopback config); simpl; try done;
    (destruct (start_token token_hex) as [t|]; [|done]; intros [= <- <- <-]; by split_and!).
Qed.
