(* ===== verification/CliServe.v ===== *)
(** * Starting the program from the command line

    crates/kavach-cli/src/commands/serve.rs and mcp.rs up to the point where requests
    are served, error.rs and exit.rs.  Here the configuration, the policies, the two
    databases, the runtime and the gateway come together.  What the operating system
    and the libraries contribute is an argument. *)

From stdpp Require Import base tactics list strings gmap.
From Stdlib Require Import ZArith Lia Ascii.
From S2P Require Import Prelude RustStr CoreError CoreIds CorePath CoreResource CoreRequest.
From S2P Require Import CoreDecision CorePermit PolicyModel PolicyEngine PolicySpec PolicyProps PolicyLoad.
From S2P Require Import AuditModel AuditVerify AuditChain ApprovalModel ApprovalBroker.
From S2P Require Import EnforceFs EnforceCmd EnforceNet Runtime GatewayModel GatewayTypes Gateway.
From S2P Require Import GatewayServer ConfigLoad ConfigProps.
Import ConfigLoad.Config.

Open Scope Z_scope.

(** ** Errors *)

(** [ExitCode] and [ExitCode::code]. *)
Inductive ExitCode :=
| X_Success | X_Deny | X_ApprovalRequired | X_InvalidInput | X_PolicyError | X_AuditError
| X_TestFailures | X_InternalError | X_Unavailable.

Definition ExitCode_code (c : ExitCode) : Z :=
  match c with
  | X_Success => 0
  | X_Deny => 10
  | X_ApprovalRequired => 11
  | X_InvalidInput => 20
  | X_PolicyError => 21
  | X_AuditError => 22
  | X_TestFailures => 23
  | X_InternalError => 30
  | X_Unavailable => 40
  end.

(** [CliError]; the output mode only concerns rendering. *)
Record CliError := CliError_new { cli_code : ExitCode; cli_message : string }.

(** The message for a configuration error. *)
Definition config_error (e : ConfigError) : CliError :=
  CliError_new X_InvalidInput
    (match e with
     | CE_Io inner => "I/O error: " +:+ inner
     | CE_Parse detail => "parse error: " +:+ detail
     | CE_Validation detail => "validation error: " +:+ detail
     | CE_Env detail => "environment error: " +:+ detail
     end).

Section Serve.
Context {SH : Sha256} {HX : HexLib} {AJ : AuditJson} {GL : GlobLib} {UL : UnicodeLower}.
Context {TL : TomlLib} {PF : PolicyFiles} {GT : GatewayTexts} {CS : ConfigSources}.
Context {W : Type} {OS : FsOs W}.

(** The width of [usize], the path a text denotes, the current directory, the
    composite redactor with default settings, and what opening a database yields. *)
Variable usize_max : Z.
Variable os_path : string -> OsPath.
Variable current_dir : OsPath.
Variable default_redactor : Redactor.
Variable open_audit : string -> result AuditError AuditTable.
Variable open_approvals : string -> result ApprovalError ApprovalTable.

(** [serve] reads the configuration first. *)
Definition cli_config (config_path : string) : result CliError KavachConfig :=
  map_err config_error (load_config usize_max config_path).

(** The check of the gateway's token. *)
Definition cli_token : result CliError string :=
  let invalid := CliError_new X_InvalidInput
                   "KAVACH_GATEWAY_TOKEN must contain a 64-character hexadecimal token" in
  let? gateway_token := ok_or invalid
      (match env_var "KAVACH_GATEWAY_TOKEN" with Env_Value v => Some v | _ => None end) in
  if negb (len gateway_token =? 64) || negb (all_bytes is_ascii_hexdigit gateway_token) then Err invalid
  else Ok gateway_token.

(** The loop that loads the policies. *)
Definition cli_policies (paths : list string) : result CliError (list Policy) :=
  map_result
    (fun policy_path =>
       map_err (fun e => CliError_new X_PolicyError
                           ("failed to load policy " +:+ policy_path +:+ ": " +:+ PolicyLoadError_display e))
         (load_policy_from_file policy_path)) paths.

(** The builder the configuration gives. *)
Definition cli_builder (cfg : KavachConfig) : RuntimeBuilder :=
  with_approval_config
    {| cfg_default_ttl_seconds := cfg.(approval).(default_ttl_seconds);
       cfg_max_pending := cfg.(approval).(max_pending) |}
    (with_approval_db cfg.(approval).(approval_database)
       (with_audit_db cfg.(audit).(audit_database)
          (with_workspace_root (os_path cfg.(security).(workspace_root))
             (with_config
                {| rc_permit_ttl := rc_permit_ttl RuntimeConfig_default;
                   rc_audit_fail_closed := cfg.(security).(fail_closed);
                   rc_redaction_enabled := cfg.(redaction).(enabled);
                   rc_max_sanitized_summary_length := rc_max_sanitized_summary_length RuntimeConfig_default;
                   rc_dry_run := rc_dry_run RuntimeConfig_default |}
                RuntimeBuilder_new)))).

(** A database in memory is empty. *)
Definition open_at {E T} (open : string -> result E (list T)) (path : option string) : result E (list T) :=
  match path with Some p => open p | None => Ok [] end.

(** Building the runtime from it. *)
Definition cli_build (cfg : KavachConfig) (policies : list Policy) (w : W)
  : result CliError (KavachRuntime * AdapterRegistry * BrokerState) :=
  map_err (fun e => CliError_new X_InternalError ("runtime build failed: " +:+ RuntimeError_display e))
    (build (fold_left add_policy policies (cli_builder cfg)) w current_dir default_redactor
       (open_at open_audit) (open_at open_approvals)).

(** The verification at startup, where it is configured. *)
Definition cli_verify (cfg : KavachConfig) (log : AuditTable) : result CliError unit :=
  if cfg.(audit).(verify_on_startup) then
    let? report := map_err (fun e => CliError_new X_AuditError
                                       ("audit verification failed at startup: " +:+ AuditError_display e))
                     (AuditStore_verify_full None log) in
    if negb (vr_chain_valid report) then
      Err (CliError_new X_AuditError "audit verification failed at startup: chain is invalid")
    else Ok tt
  else Ok tt.

(** The configuration of the gateway. *)
Definition cli_gateway_config (cfg : KavachConfig) : result CliError GatewayConfig :=
  if usize_max <? cfg.(server).(request_body_limit) then
    Err (CliError_new X_InvalidInput "server.request_body_limit does not fit this platform")
  else
    Ok {| gc_bind := cfg.(server).(bind);
          gc_request_body_limit := cfg.(server).(request_body_limit);
          gc_request_timeout := cfg.(server).(request_timeout_seconds);
          gc_concurrency_limit := gc_concurrency_limit GatewayConfig_default;
          gc_rate_limit_per_second := gc_rate_limit_per_second GatewayConfig_default;
          gc_rate_limit_burst := gc_rate_limit_burst GatewayConfig_default;
          gc_allow_non_loopback := cfg.(server).(allow_non_loopback) |}.

(** A gateway that is about to listen. *)
Record Serving := {
  sv_addr : SocketAddr;
  sv_token : GatewayToken;
  sv_registry : AdapterRegistry;
  sv_state : GatewayState W;
}.

(** What [serve::run] has at hand when it announces the start: the configuration, the
    token, the runtime with its databases, and the settings of the gateway. *)
Record Prepared := {
  pr_config : KavachConfig;
  pr_token : string;
  pr_runtime : KavachRuntime;
  pr_registry : AdapterRegistry;
  pr_stores : BrokerState;
  pr_gateway : GatewayConfig;
}.

(** [serve::run], up to its message. *)
Definition serve_prepare (config_path : string) (w : W) : result CliError Prepared :=
  let? cfg := cli_config config_path in
  let? gateway_token := cli_token in
  let? policies := cli_policies cfg.(policy).(files) in
  let? built := cli_build cfg policies w in
  let '(runtime, registry, stores) := built in
  let? _ := cli_verify cfg (br_audit stores) in
  let? gw_config := cli_gateway_config cfg in
  Ok {| pr_config := cfg; pr_token := gateway_token; pr_runtime := runtime; pr_registry := registry;
        pr_stores := stores; pr_gateway := gw_config |}.

Definition gateway_failed (e : string) : CliError := CliError_new X_InternalError ("gateway error: " +:+ e).

(** [serve::run], up to the call of [TcpListener::bind]. *)
Definition serve_run (config_path : string) (w : W) : result CliError Serving :=
  let? p := serve_prepare config_path w in
  let? started := map_err gateway_failed
      (start (pr_runtime p) {| rs_broker := pr_stores p; rs_world := w |} (Some (pr_token p))
         (pr_gateway p)) in
  let '(addr, token, state) := started in
  Ok {| sv_addr := addr; sv_token := token; sv_registry := pr_registry p; sv_state := state |}.

(** [mcp::run], up to the start of the proxy: it builds the runtime the same way. *)
Definition mcp_run (config_path : string) (w : W)
  : result CliError (KavachConfig * (KavachRuntime * AdapterRegistry * BrokerState)) :=
  let? cfg := cli_config config_path in
  let? policies := cli_policies cfg.(policy).(files) in
  let? built := cli_build cfg policies w in
  let? _ := cli_verify cfg (br_audit (snd built)) in
  Ok (cfg, built).

(** ** A runtime built from a configuration *)

(** The runtime runs with the policies of the files, fails closed, redacts, is no dry
    run, and its broker has a valid configuration. *)
Record secure_runtime (paths : list string) (rt : KavachRuntime) : Prop := {
  sr_policies : exists ps, Forall2 (fun path p => load_policy_from_file path = Ok p) paths ps /\
                           PolicyEngine_new ps = Ok (rt_engine rt);
  sr_fail_closed : rc_audit_fail_closed (rt_config rt) = true;
  sr_redaction : rc_redaction_enabled (rt_config rt) = true /\ rt_redactor rt = Some default_redactor;
  sr_no_dry_run : rc_dry_run (rt_config rt) = false;
  sr_approval : validate_config (rt_approval_config rt) = Ok tt;
}.

Lemma fold_add_policy ps b :
  fold_left add_policy ps b =
  {| rb_config := rb_config b; rb_policies := rb_policies b ++ ps;
     rb_workspace_root := rb_workspace_root b; rb_approval_db_path := rb_approval_db_path b;
     rb_approval_store_config := rb_approval_store_config b;
     rb_audit_db_path := rb_audit_db_path b; rb_redactor := rb_redactor b |}.
Proof.
  revert b. induction ps as [|p ps IH]; intros b; simpl; [rewrite app_nil_r; by destruct b|].
  rewrite IH. simpl. by rewrite <- app_assoc.
Qed.

Lemma cli_build_secure path cfg ps w rt reg stores :
  load_config usize_max path = Ok cfg -> cli_policies cfg.(policy).(files) = Ok ps ->
  cli_build cfg ps w = Ok (rt, reg, stores) ->
  secure_runtime cfg.(policy).(files) rt /\
  open_audit cfg.(audit).(audit_database) = Ok (br_audit stores) /\
  open_approvals cfg.(approval).(approval_database) = Ok (br_approvals stores).
Proof.
  intros (c & t & _ & _ & _ & _ & Hsec)%load_config_inv Hps Hb. apply map_err_ok in Hb.
  rewrite fold_add_policy in Hb. unfold build in Hb. simpl in Hb.
  rewrite (sec_redaction _ Hsec) in Hb.
  apply ok_bind in Hb as (engine & He%map_err_ok & Hb). cbv zeta in Hb.
  apply ok_bind in Hb as (registry & _ & Hb).
  apply ok_bind in Hb as (log & Hlog%map_err_ok & Hb).
  apply ok_bind in Hb as (table & Ht%map_err_ok & Hb). injection Hb as <- <- <-.
  apply check_bind in Ht as [Hv Ht]. split_and!; [|done|done].
  constructor; simpl.
  - exists ps. split; [|done]. apply map_result_ok in Hps.
    eapply Forall2_impl; [exact Hps|]. intros x y Hxy. by apply map_err_ok in Hxy.
  - apply Hsec.
  - done.
  - done.
  - done.
Qed.

(** Every event of the log at startup is linked and hashed correctly. *)
Definition verified_log (log : AuditTable) : Prop :=
  exists es, read_rows log = Ok es /\ chain None HashValue_genesis es.

Lemma cli_verify_ok cfg log :
  cli_verify cfg log = Ok tt -> cfg.(audit).(verify_on_startup) = true -> verified_log log.
Proof.
  unfold cli_verify. intros Hv Hon. rewrite Hon in Hv.
  apply ok_bind in Hv as (report & Hr%map_err_ok & Hv).
  destruct (vr_chain_valid report) eqn:Ec; [|done].
  apply ok_bind in Hr as (es & He & [= <-]). exists es. split; [done|].
  by apply verify_events_valid.
Qed.

(** What has been established when the start is announced. *)
Lemma serve_prepare_secure path w p :
  serve_prepare path w = Ok p ->
  load_config usize_max path = Ok (pr_config p) /\ Secure (pr_config p) /\
  env_var "KAVACH_GATEWAY_TOKEN" = Env_Value (pr_token p) /\
  secure_runtime (pr_config p).(policy).(files) (pr_runtime p) /\
  open_audit (pr_config p).(audit).(audit_database) = Ok (br_audit (pr_stores p)) /\
  open_approvals (pr_config p).(approval).(approval_database) = Ok (br_approvals (pr_stores p)) /\
  ((pr_config p).(audit).(verify_on_startup) = true -> verified_log (br_audit (pr_stores p))) /\
  gc_bind (pr_gateway p) = (pr_config p).(server).(bind) /\
  gc_allow_non_loopback (pr_gateway p) = false.
Proof.
  intros Hs. apply ok_bind in Hs as (cfg & Hcfg%map_err_ok & Hs).
  apply ok_bind in Hs as (tok & Htok & Hs). apply ok_bind in Hs as (ps & Hps & Hs).
  apply ok_bind in Hs as ([[rt reg] stores] & Hb & Hs).
  apply check_bind in Hs as [Hv Hs]. apply ok_bind in Hs as (gc & Hgc & Hs). injection Hs as <-. simpl.
  destruct (load_config_inv _ _ _ Hcfg) as (c & t & _ & _ & _ & _ & Hsec).
  destruct (cli_build_secure _ _ _ _ _ _ _ Hcfg Hps Hb) as (Hrt & Hlog & Htab).
  unfold cli_gateway_config in Hgc. destruct (_ <? _); [done|]. injection Hgc as <-. simpl.
  split_and!; try done; [|by eapply cli_verify_ok|apply Hsec].
  unfold cli_token in Htok. destruct (env_var "KAVACH_GATEWAY_TOKEN") as [v| |]; try done. simpl in Htok.
  destruct (_ || _); [done|]. by injection Htok as ->.
Qed.

(** (C7) A gateway that comes up is the secure one.  When the serve command reaches
    the point where it listens, the configuration it loaded satisfies the secure
    posture, the address is a loopback address, the token comes from the 64 hex digits
    of the environment variable, the runtime runs exactly the policies of the configured
    files, fails closed, redacts, is no dry run and has a valid approval configuration,
    the databases are the configured ones, the audit chain was verified unless the
    configuration switched that off, and no permits or approval tokens exist yet. *)
Theorem serve_comes_up_secure path w sv :
  serve_run path w = Ok sv ->
  exists cfg, load_config usize_max path = Ok cfg /\ Secure cfg /\
    gw_is_loopback (sa_ip (sv_addr sv)) = true /\
    parse_socket_addr cfg.(server).(bind) = Ok (sv_addr sv) /\
    (exists token, env_var "KAVACH_GATEWAY_TOKEN" = Env_Value token /\
       start_token (Some token) = Ok (sv_token sv)) /\
    secure_runtime cfg.(policy).(files) (gs_runtime (sv_state sv)) /\
    open_audit cfg.(audit).(audit_database) = Ok (br_audit (rs_broker (gs_stores (sv_state sv)))) /\
    open_approvals cfg.(approval).(approval_database)
      = Ok (br_approvals (rs_broker (gs_stores (sv_state sv)))) /\
    (cfg.(audit).(verify_on_startup) = true ->
     verified_log (br_audit (rs_broker (gs_stores (sv_state sv))))) /\
    gs_permits (sv_state sv) = IssuedPermitRegistry_new /\ gs_tokens (sv_state sv) = ∅.
Proof.
  intros Hs. apply ok_bind in Hs as (p & (Hcfg & Hsec & Htok & Hrt & Hlog & Htab & Hv & Hb & Hl)%serve_prepare_secure & Hs).
  apply ok_bind in Hs as ([[addr token] state] & Hst%map_err_ok & Hs). injection Hs as <-.
  apply start_ok in Hst as (Hparse & Hloop & Htoken & Hr & Hd & Hp & Ht). simpl in *.
  exists (pr_config p). rewrite Hr, Hd, <- Hb. simpl. split_and!; try done; [by apply Hloop|].
  by exists (pr_token p).
Qed.

(** The proxy's runtime is built with the same care. *)
Lemma mcp_comes_up_secure path w cfg rt reg stores :
  mcp_run path w = Ok (cfg, (rt, reg, stores)) ->
  load_config usize_max path = Ok cfg /\ secure_runtime cfg.(policy).(files) rt /\
  open_audit cfg.(audit).(audit_database) = Ok (br_audit stores) /\
  open_approvals cfg.(approval).(approval_database) = Ok (br_approvals stores) /\
  (cfg.(audit).(verify_on_startup) = true -> verified_log (br_audit stores)).
Proof.
  intros Hs. apply ok_bind in Hs as (cfg' & Hcfg%map_err_ok & Hs).
  apply ok_bind in Hs as (ps & Hps & Hs). apply ok_bind in Hs as ([[rt' reg'] st] & Hb & Hs).
  apply check_bind in Hs as [Hv Hs]. injection Hs as -> -> -> ->.
  destruct (cli_build_secure _ _ _ _ _ _ _ Hcfg Hps Hb) as (Hrt & Hlog & Htab).
  split_and!; [done..|]. by eapply cli_verify_ok.
Qed.

End Serve.
