(* ===== verification/CliPolicy.v ===== *)
(** * The policy commands

    crates/kavach-cli/src/commands/policy.rs, request.rs and config_cmd.rs, with
    output.rs: policy validate, check, explain and test.  The hooks of the agents run
    policy check and go by its exit code.  A command writes to the console and to the
    feed log of the dashboard, which the state keeps; whether a write to the feed log
    succeeds is an argument, and failing writes to the console are ignored, as in the
    code. *)

From stdpp Require Import base tactics list strings.
From Stdlib Require Import ZArith Lia Ascii.
From S2P Require Import Prelude RustStr BTree Json CoreError CoreIds CorePath CoreResource CoreRequest.
From S2P Require Import CoreDecision PolicyModel PolicyEngine PolicyLoad ConfigLoad CliServe.
Import ConfigLoad.Config.

Open Scope Z_scope.

(** ** Output (output.rs) *)

(** [OutputMode]. *)
Inductive OutputMode := Human | Json.

(** [CliOutput] and its constructors. *)
Record CliOutput := { co_status : string; co_message : option string; co_data : option Value }.

Definition CliOutput_with_message (msg : string) : CliOutput :=
  {| co_status := "success"; co_message := Some msg; co_data := None |}.
Definition CliOutput_with_data (data : Value) : CliOutput :=
  {| co_status := "success"; co_message := None; co_data := Some data |}.
Definition CliOutput_error (msg : string) : CliOutput :=
  {| co_status := "error"; co_message := Some msg; co_data := None |}.

(** A line break; [writeln!] ends with one. *)
Definition NEWLINE : string := String (byte_of 10) "".

Section Output.
Context {JP : JsonPrint}.

(** [render_json_value]. *)
Definition render_json_value (v : Value) : string :=
  match v with V_String s => s | V_Null => "null" | other => value_display other end.

Definition render_entry (kv : string * Value) : string := kv.1 +:+ ": " +:+ render_json_value kv.2.

(** [CliOutput::render_human]. *)
Definition render_human (o : CliOutput) : string :=
  (match co_message o with Some msg => msg +:+ NEWLINE | None => "" end) +:+
  (match co_data o with
   | Some (V_Array items) =>
       join "" (map (fun item => match item with
                                 | V_Object m => join " | " (map render_entry m) +:+ NEWLINE
                                 | _ => value_display item +:+ NEWLINE
                                 end) items)
   | Some (V_Object m) => join "" (map (fun kv => render_entry kv +:+ NEWLINE) m)
   | Some other => value_display other +:+ NEWLINE
   | None => ""
   end).

(** [CliOutput::render_json], with the derived [Serialize]. *)
Definition CliOutput_to_value (o : CliOutput) : Value :=
  V_Object ([("status", V_String (co_status o))]
            ++ (match co_message o with Some m => [("message", V_String m)] | None => [] end)
            ++ (match co_data o with Some d => [("data", d)] | None => [] end)).

Definition render_json (o : CliOutput) : string :=
  (match json_to_string_pretty (CliOutput_to_value o) with Ok t => t | Err _ => "" end) +:+ NEWLINE.

(** [CliOutput::render] and [render_error]: the text written. *)
Definition render (mode : OutputMode) (o : CliOutput) : string :=
  match mode with Human => render_human o | Json => render_json o end.

End Output.

(** ** Commands *)

(** What a command has written: to the console, and to the feed log of a path. *)
Record Console := { con_out : list string; con_feed : list (string * string) }.

Abbreviation command := (stateful Console CliError).

Definition say {E} (text : string) : stateful Console E unit :=
  fun c => (Ok tt, {| con_out := con_out c ++ [text]; con_feed := con_feed c |}).

(** [From<std::io::Error>] and [From<serde_json::Error>]. *)
Definition io_error (e : string) : CliError := CliError_new X_InternalError ("I/O error: " +:+ e).
Definition json_error (e : string) : CliError := CliError_new X_InvalidInput ("JSON error: " +:+ e).

(** What one run of a command meets: the clock, the terminal, and the failures of opening
    and of writing the feed log, the latter with what reached the file. *)
Record CliEnv := {
  cl_now : nat -> Z;
  cl_no_color : bool;
  cl_is_tty : bool;
  cl_feed_open : option string;
  cl_feed_write : option (string * string);
}.

(** [TestScenario]. *)
Record TestScenario := {
  ts_name : string;
  ts_expected : string;
  ts_request : option Value;
  ts_request_file : option string;
}.

(** [Path::is_file] and [is_dir], and what serde_json makes of requests, scenario files and
    decisions. *)
Class CliFiles := {
  is_file : string -> bool;
  is_dir : string -> bool;
  request_from_str : string -> result string ToolRequest;
  scenarios_from_str : string -> result string (list TestScenario);
  decision_to_string_pretty : AuthorizationDecision -> result string string;
}.

(** The [Debug] names of effects and reasons. *)
Definition DecisionEffect_debug (e : DecisionEffect) : string :=
  match e with Allow => "Allow" | Deny => "Deny" | RequireApproval => "RequireApproval" end.

Definition DefaultEffect_debug (d : DefaultEffect) : string :=
  match d with D_Deny => "Deny" | D_RequireApproval => "RequireApproval" end.

Definition ReasonCode_debug (r : ReasonCode) : string :=
  match r with
  | KavachAllowPolicyMatch => "KavachAllowPolicyMatch"
  | KavachDenyExplicitRule => "KavachDenyExplicitRule"
  | KavachDenyDefault => "KavachDenyDefault"
  | KavachDenyInvalidRequest => "KavachDenyInvalidRequest"
  | KavachApprovalRequired => "KavachApprovalRequired"
  | KavachApprovalDestructiveOperation => "KavachApprovalDestructiveOperation"
  | KavachDenyUnknownResource => "KavachDenyUnknownResource"
  | KavachDenyPathEscape => "KavachDenyPathEscape"
  end.

(** ** Display *)

(** [shell_quote]. *)
Definition needs_quotes (b : ascii) : bool :=
  existsb (Z.eqb (byte_val b)) [9; 10; 12; 13; 32]
  || existsb (Z.eqb (byte_val b)) [39; 34; 36; 96; 124; 59; 38; 40; 41; 60; 62; 92].

Fixpoint escape_quotes (s : string) : string :=
  match s with
  | EmptyString => ""
  | String c s' => (if Ascii.eqb c "'" then "'\''" else String c "") +:+ escape_quotes s'
  end.

Definition shell_quote (word : string) : string :=
  if is_empty word || any_byte needs_quotes word then "'" +:+ escape_quotes word +:+ "'" else word.

(** [resource_summary]. *)
Definition cli_resource_summary (request : ToolRequest) : string :=
  match tr_resource request with
  | R_Command cmd =>
      "command " +:+ join " " (shell_quote (cmd_executable cmd) :: map shell_quote (cmd_arguments cmd))
  | R_File path | R_Directory path =>
      ResourceKind_display (Resource_kind (tr_resource request)) +:+ " " +:+ np_normalized path
  | R_NetworkEndpoint net =>
      "network_endpoint " +:+ scheme_str (net_scheme net) +:+ "://" +:+ host_str (net_host net)
      +:+ (match net_port net with Some p => ":" +:+ dec (port_value p) | None => "" end)
      +:+ np_normalized (net_path net)
  | R_Secret identifier => "secret " +:+ identifier
  | R_ExternalTool identifier => "external_tool " +:+ identifier
  | R_Unknown => "unknown"
  end.

(** [paint_enabled], [paint] and [paint_effect]. *)
Definition paint_enabled (no_color_present is_tty : bool) : bool := negb no_color_present && is_tty.

Definition ESC : string := String (byte_of 27) "".

Definition paint (code : Z) (text : string) (enabled : bool) : string :=
  if enabled then ESC +:+ "[" +:+ dec code +:+ "m" +:+ text +:+ ESC +:+ "[0m" else text.

Definition paint_effect (effect : DecisionEffect) (enabled : bool) : string :=
  paint (match effect with Allow => 32 | Deny => 31 | RequireApproval => 33 end)
    (DecisionEffect_debug effect) enabled.

(** [write!] of a line into a text. *)
Definition line (s : string) : string := s +:+ NEWLINE.

(** [format_explain_human]; at most five failed conditions are shown. *)
Definition CAP : nat := 5.

Definition format_explain_human (decision : AuthorizationDecision) (request : ToolRequest)
    (color : bool) : string :=
  let failed := match ad_trace decision with Some t => failed_conditions t | None => [] end in
  line ("Resource: " +:+ cli_resource_summary request) +:+
  line ("Decision: " +:+ paint_effect (ad_effect decision) color) +:+
  (match ad_trace decision with
   | Some t => match baseline_triggered t with Some b => line ("Baseline: " +:+ b) | None => "" end
   | None => ""
   end) +:+
  (match ad_matched_rule_ids decision with
   | [] => line "Matched rules: (none)"
   | ids => line ("Matched rules: " +:+ join ", " (map id_str ids))
   end) +:+
  (match failed with
   | [] => ""
   | _ => line ("Failed conditions: " +:+ join ", " (take CAP failed)
                +:+ (if (CAP <? length failed)%nat
                     then " (+" +:+ dec (Z.of_nat (length failed - CAP)) +:+ " more)" else ""))
   end) +:+
  line ("Reason: " +:+ ReasonCode_debug (ad_reason decision)).

(** [decision_feed_line]. *)
Definition strings (l : list string) : Value := V_Array (map V_String l).
Definition opt_string (o : option string) : Value :=
  match o with Some s => V_String s | None => V_Null end.

Definition trace_value (t : option DecisionTrace) : Value :=
  match t with
  | Some t => json_object [("baseline_triggered", opt_string (baseline_triggered t));
                           ("failed_conditions", strings (failed_conditions t))]
  | None => V_Null
  end.

Definition resource_value (resource : Resource) : Value :=
  match resource with
  | R_Command cmd =>
      json_object [("kind", V_String "command"); ("executable", V_String (cmd_executable cmd));
                   ("arguments", strings (cmd_arguments cmd))]
  | R_File path | R_Directory path =>
      json_object [("kind", V_String (ResourceKind_display (Resource_kind resource)));
                   ("path", V_String (np_normalized path))]
  | R_NetworkEndpoint net =>
      json_object [("kind", V_String "network_endpoint"); ("host", V_String (host_str (net_host net)));
                   ("scheme", V_String (scheme_str (net_scheme net)))]
  | R_Secret identifier =>
      json_object [("kind", V_String "secret"); ("identifier", V_String identifier)]
  | R_ExternalTool identifier =>
      json_object [("kind", V_String "external_tool"); ("identifier", V_String identifier)]
  | R_Unknown => json_object [("kind", V_String "unknown")]
  end.

Definition decision_feed_line (decision : AuthorizationDecision) (request : ToolRequest) : Value :=
  json_object
    [("source", V_String "cli");
     ("effect", V_String (DecisionEffect_debug (ad_effect decision)));
     ("reason", V_String (ReasonCode_debug (ad_reason decision)));
     ("explanation", V_String (ad_explanation decision));
     ("matched_rule_ids", strings (map id_str (ad_matched_rule_ids decision)));
     ("request_id", V_String (id_str (ad_request_id decision)));
     ("evaluated_at_secs", V_Int (Z.max 0 (ad_evaluated_at decision) / 1000000000));
     ("resource", resource_value (tr_resource request));
     ("trace", trace_value (ad_trace decision))].

(** [normalize_effect_label], on bytes: those of a scalar beyond ASCII are kept. *)
Fixpoint normalize_label (prev_lower : bool) (s : string) : string :=
  match s with
  | EmptyString => ""
  | String c s' =>
      if Ascii.eqb c "-" || Ascii.eqb c " " then "_" +:+ normalize_label false s'
      else if is_ascii_uppercase c then
        (if prev_lower then "_" else "") +:+ String (byte_lower c) (normalize_label false s')
      else String c (normalize_label (is_ascii_lowercase c) s')
  end.

Definition normalize_effect_label (label : string) : string := normalize_label false (trim label).

(** [scenarios_file.parent().unwrap_or(".").join(path)] on Unix, for the path of a file
    and a relative [path]: the last component is dropped with the separators and the
    [.] components before it. *)
Definition is_slash (b : ascii) : bool := Ascii.eqb b "/".
Definition trivial_component (c : string) : bool := is_empty c || String.eqb c ".".

Fixpoint drop_trivial (rev_components : list string) : list string :=
  match rev_components with
  | [] => []
  | [first] => [first]
  | c :: rest => if trivial_component c then drop_trivial rest else rev_components
  end.

Definition parent_dir (file : string) : string :=
  match reverse (drop_trivial (tl (reverse (split_on is_slash file)))) with
  | [""] => "/"
  | components => join "/" components
  end.

Definition path_join_text (dir path : string) : string :=
  if is_empty dir then path else if ends_with "/" dir then dir +:+ path else dir +:+ "/" +:+ path.

(** ** The commands of policy.rs *)

Section Policy.
Context {JP : JsonPrint} {JT : JsonText} {CF : CliFiles} {PF : PolicyFiles} {TL : TomlLib}.
Context {GL : GlobLib} {UL : UnicodeLower} {CS : ConfigSources}.

(** [load_policy]. *)
Definition load_error (e : PolicyLoadError) : CliError :=
  CliError_new X_PolicyError
    (match e with
     | PLE_Io detail => "I/O error: " +:+ detail
     | PLE_FileTooLarge => "policy file exceeds maximum size (1 MiB)"
     | PLE_Parse detail => "parse error: " +:+ detail
     | PLE_Validation inner => "validation error: " +:+ PolicyValidationError_display inner
     | PLE_InvalidRuleId id detail => "invalid rule ID '" +:+ id +:+ "': " +:+ detail
     | PLE_InvalidPolicyId id detail => "invalid policy ID '" +:+ id +:+ "': " +:+ detail
     | PLE_UnsupportedSchemaVersion v => "unsupported schema version: " +:+ dec v
     end).

Definition load_policy (path : string) : result CliError Policy :=
  if negb (is_file path) then Err (CliError_new X_InvalidInput ("policy file not found: " +:+ path))
  else map_err load_error (load_policy_from_file path).

(** [load_request]. *)
Definition load_request (path : string) : result CliError ToolRequest :=
  if negb (is_file path) then Err (CliError_new X_InvalidInput ("request file not found: " +:+ path))
  else
    let? contents := map_err (fun e => CliError_new X_InternalError ("failed to read request: " +:+ e))
                       (read_to_string path) in
    let? request := map_err (fun e => CliError_new X_InvalidInput ("invalid request JSON: " +:+ e))
                      (request_from_str contents) in
    let? _ := map_err (fun e => CliError_new X_InvalidInput
                                  ("request validation failed: " +:+ DomainValidationError_display e))
                (ToolRequest_validate request) in
    Ok request.

(** [policy validate]. *)
Definition policy_validate (path : string) (mode : OutputMode) : command unit :=
  let! policy := st_lift (load_policy path) in
  say (render mode (CliOutput_with_data (json_object
    [("policy_id", V_String (id_str (policy_id policy)));
     ("name", V_String (policy_name policy));
     ("default_effect", V_String (DefaultEffect_debug (policy_default_effect policy)));
     ("rule_count", V_Int (Z.of_nat (length (policy_rules policy))));
     ("valid", V_Bool true)]))).

(** The engine of one policy. *)
Definition build_engine (policy : Policy) : result CliError PolicyEngine :=
  map_err (fun e => CliError_new X_PolicyError ("engine build failed: " +:+ PolicyValidationError_display e))
    (PolicyEngine_new [policy]).

(** [evaluate] of policy.rs. *)
Definition cli_evaluate (env : CliEnv) (policy_path request_path : string)
  : result CliError (ToolRequest * AuthorizationDecision) :=
  let? policy := load_policy policy_path in
  let? request := load_request request_path in
  let? engine := build_engine policy in
  Ok (request, PolicyEngine_evaluate engine (cl_now env 0) request).

(** [feed_log_path]. *)
Definition feed_log_path (flag : option string) : option string :=
  match flag with
  | Some f => Some f
  | None => match env_var "KAVACH_FEED_LOG" with
            | Env_Value v => if is_empty v then None else Some v
            | _ => None
            end
  end.

(** [append_feed_log]. *)
Definition append_feed_log (env : CliEnv) (path : string) (decision : AuthorizationDecision)
    (request : ToolRequest) : command unit := fun c =>
  match cl_feed_open env with
  | Some e => (Err (io_error e), c)
  | None =>
      match json_to_string (decision_feed_line decision request) with
      | Err e => (Err (json_error e), c)
      | Ok text =>
          let append t := {| con_out := con_out c; con_feed := con_feed c ++ [(path, t)] |} in
          match cl_feed_write env with
          | Some (e, partial) => (Err (io_error e), append partial)
          | None => (Ok tt, append (line text))
          end
      end
  end.

Definition feed (env : CliEnv) (feed_log : option string) (decision : AuthorizationDecision)
    (request : ToolRequest) : command unit :=
  match feed_log_path feed_log with
  | Some path => append_feed_log env path decision request
  | None => st_ret tt
  end.

(** [policy check]. *)
Definition check (env : CliEnv) (policy_path request_path : string) (mode : OutputMode)
    (feed_log : option string) : command unit :=
  let! evaluated := st_lift (cli_evaluate env policy_path request_path) in
  let '(request, decision) := evaluated in
  let! _ := feed env feed_log decision request in
  let is_ok := bool_decide (ad_effect decision = Allow) in
  let! _ := say (render mode (CliOutput_with_data (json_object
    [("effect", V_String (DecisionEffect_debug (ad_effect decision)));
     ("reason", V_String (ReasonCode_debug (ad_reason decision)));
     ("explanation", V_String (ad_explanation decision));
     ("matched_rule_ids", strings (map id_str (ad_matched_rule_ids decision)));
     ("allowed", V_Bool is_ok)]))) in
  st_lift
    (if negb is_ok then
       let code := if bool_decide (ad_effect decision = RequireApproval)
                   then X_ApprovalRequired else X_Deny in
       Err (CliError_new code (ad_explanation decision))
     else Ok tt).

(** [runtime_paint_enabled]. *)
Definition runtime_paint_enabled (env : CliEnv) : bool :=
  paint_enabled (cl_no_color env) (cl_is_tty env).

(** [policy explain]. *)
Definition explain (env : CliEnv) (policy_path request_path : string) (mode : OutputMode)
    (json_full : bool) (feed_log : option string) : command unit :=
  let! evaluated := st_lift (cli_evaluate env policy_path request_path) in
  let '(request, decision) := evaluated in
  let! _ := feed env feed_log decision request in
  if json_full then
    let! text := st_lift (map_err json_error (decision_to_string_pretty decision)) in
    say (line text)
  else
    match mode with
    | Json =>
        say (render mode (CliOutput_with_data (json_object
          [("effect", V_String (DecisionEffect_debug (ad_effect decision)));
           ("reason", V_String (ReasonCode_debug (ad_reason decision)));
           ("explanation", V_String (ad_explanation decision));
           ("matched_rule_ids", strings (map id_str (ad_matched_rule_ids decision)));
           ("request_id", V_String (id_str (ad_request_id decision)));
           ("resource", V_String (cli_resource_summary request));
           ("trace", trace_value (ad_trace decision))])))
    | Human => say (format_explain_human decision request (runtime_paint_enabled env))
    end.

(** [build_scenario_request]. *)
Definition build_scenario_request (scenario : TestScenario) (scenarios_dir : string)
  : result CliError ToolRequest :=
  let invalid what e := CliError_new X_InvalidInput
                          ("scenario '" +:+ ts_name scenario +:+ "' " +:+ what +:+ e) in
  match ts_request_file scenario with
  | Some path =>
      load_request (if starts_with "/" path then path else path_join_text scenarios_dir path)
  | None =>
      let? value := ok_or (invalid "needs either 'request' or 'request_file'" "")
                      (ts_request scenario) in
      let? text := map_err (invalid "has invalid request JSON: ") (json_to_string value) in
      let? request := map_err (invalid "has invalid request JSON: ") (request_from_str text) in
      let? _ := map_err (fun e => invalid "request validation failed: " (DomainValidationError_display e))
                  (ToolRequest_validate request) in
      Ok request
  end.

(** The loop of [test_policy]: the number of scenarios that passed and the failures,
    with name, expectation and explanation. *)
Fixpoint run_scenarios (env : CliEnv) (engine : PolicyEngine) (dir : string) (i : nat)
    (scenarios : list TestScenario) : result CliError (Z * list (string * string * string)) :=
  match scenarios with
  | [] => Ok (0, [])
  | scenario :: rest =>
      let? request := build_scenario_request scenario dir in
      let decision := PolicyEngine_evaluate engine (cl_now env i) request in
      let actual := normalize_effect_label (DecisionEffect_debug (ad_effect decision)) in
      let expected := normalize_effect_label (ts_expected scenario) in
      let? counts := run_scenarios env engine dir (S i) rest in
      let '(passed, failures) := counts in
      Ok (if String.eqb actual expected then (passed + 1, failures)
          else (passed, (ts_name scenario, ts_expected scenario,
                         format_explain_human decision request (runtime_paint_enabled env)) :: failures))
  end.

(** [policy test]. *)
Definition test_policy (env : CliEnv) (policy_path scenarios_path : string) (mode : OutputMode)
  : command unit :=
  let! policy := st_lift (load_policy policy_path) in
  let! engine := st_lift (build_engine policy) in
  if negb (is_file scenarios_path) then
    st_lift (Err (CliError_new X_InvalidInput ("scenarios file not found: " +:+ scenarios_path)))
  else
    let! contents := st_lift (map_err io_error (read_to_string scenarios_path)) in
    let! parsed := st_lift (map_err (fun e => CliError_new X_InvalidInput ("invalid scenarios JSON: " +:+ e))
                              (scenarios_from_str contents)) in
    let! counts := st_lift (run_scenarios env engine (parent_dir scenarios_path) 0 parsed) in
    let '(passed, failures) := counts in
    let total := Z.of_nat (length parsed) in
    let failed := Z.of_nat (length failures) in
    let! _ := say
      (match mode with
       | Json =>
           render mode (CliOutput_with_data (json_object
             [("total", V_Int total); ("passed", V_Int passed); ("failed", V_Int failed);
              ("failures", V_Array (map (fun '(name, expected, _) =>
                              json_object [("scenario", V_String name); ("expected", V_String expected)])
                              failures))]))
       | Human =>
           line ("policy test: total=" +:+ dec total +:+ " passed=" +:+ dec passed
                 +:+ " failed=" +:+ dec failed) +:+
           join "" (map (fun '(name, expected, detail) =>
                           line ("--- FAIL: " +:+ name +:+ " (expected " +:+ expected +:+ ") ---")
                           +:+ detail) failures)
       end) in
    st_lift (if 0 <? failed then
               Err (CliError_new X_TestFailures
                      (dec failed +:+ "/" +:+ dec total +:+ " policy test scenarios failed"))
             else Ok tt).

(** ** request.rs and config_cmd.rs *)

(** [request validate]. *)
Definition request_validate (path : string) (mode : OutputMode) : command unit :=
  if negb (is_file path) then
    st_lift (Err (CliError_new X_InvalidInput ("request file not found: " +:+ path)))
  else
    let! contents := st_lift (map_err (fun e => CliError_new X_InternalError ("failed to read file: " +:+ e))
                                (read_to_string path)) in
    let! request := st_lift (map_err (fun e => CliError_new X_InvalidInput ("invalid JSON: " +:+ e))
                               (request_from_str contents)) in
    let! _ := st_lift (map_err (fun e => CliError_new X_InvalidInput
                                           ("validation failed: " +:+ DomainValidationError_display e))
                         (ToolRequest_validate request)) in
    say (render mode (CliOutput_with_data (json_object
      [("request_id", V_String (id_str (tr_request_id request)));
       ("operation", V_String (Operation_as_str (tr_operation request)));
       ("valid", V_Bool true)]))).

(** [config validate]. *)
Definition config_validate (usize_max : Z) (path : string) (mode : OutputMode) : command unit :=
  if negb (is_file path) then
    st_lift (Err (CliError_new X_InvalidInput ("config file not found: " +:+ path)))
  else
    let! _ := st_lift (map_err config_error (load_config usize_max path)) in
    say (render mode (CliOutput_with_message ("config is valid: " +:+ path))).

End Policy.
