(* ===== verification/CliCommands.v ===== *)
(** * The commands on databases, and the dispatch

    crates/kavach-cli/src/commands/audit.rs, approval.rs and doctor.rs, and the match of
    main.rs over the commands that end.  A database file is what opening its path
    yields; a command that changes a database leaves the change for the next one.
    Different paths are taken to be different files. *)

From stdpp Require Import base tactics list strings.
From Stdlib Require Import ZArith Lia Ascii.
From S2P Require Import Prelude RustStr BTree Json CoreError CoreIds CorePath CoreResource CoreRequest.
From S2P Require Import CoreDecision CorePermit PolicyModel PolicyEngine PolicyLoad AuditModel AuditVerify.
From S2P Require Import ApprovalModel ApprovalBroker ConfigLoad CliServe CliPolicy.
Import ConfigLoad.Config.

Open Scope Z_scope.

(** The console and the databases. *)
Record CliWorld := {
  cw_console : Console;
  cw_audit : string -> result AuditError AuditTable;
  cw_approvals : string -> result ApprovalError ApprovalTable;
}.

Abbreviation db_command := (stateful CliWorld CliError).

(** A command that leaves the databases alone. *)
Definition on_console {A} (m : command A) : db_command A := fun w =>
  let '(r, c) := m (cw_console w) in
  (r, {| cw_console := c; cw_audit := cw_audit w; cw_approvals := cw_approvals w |}).

(** The [Debug] names. *)
Definition VerificationErrorKind_debug (k : VerificationErrorKind) : string :=
  match k with
  | VK_MissingEvent => "MissingEvent"
  | VK_SequenceGap => "SequenceGap"
  | VK_DuplicateSequence => "DuplicateSequence"
  | VK_HashMismatch => "HashMismatch"
  | VK_PreviousHashLinkBroken => "PreviousHashLinkBroken"
  | VK_MalformedHash => "MalformedHash"
  | VK_GenesisMismatch => "GenesisMismatch"
  | VK_DatabaseCorruption => "DatabaseCorruption"
  end.

Definition ApprovalState_debug (s : ApprovalState) : string :=
  match s with
  | AS_Pending => "Pending"
  | AS_Approved => "Approved"
  | AS_Denied => "Denied"
  | AS_Expired => "Expired"
  | AS_Consumed => "Consumed"
  | AS_Cancelled => "Cancelled"
  end.

Definition opt_int (o : option Z) : Value := match o with Some n => V_Int n | None => V_Null end.

Section Commands.
Context {JP : JsonPrint} {JT : JsonText} {CF : CliFiles} {PF : PolicyFiles} {TL : TomlLib}.
Context {GL : GlobLib} {UL : UnicodeLower} {CS : ConfigSources}.
Context {SH : Sha256} {HX : HexLib} {AJ : AuditJson} {CH : Rfc3339} {IE : IdsJsonError} {RJ : RequestJson}.

(** The faults of the queries of the two audit commands. *)
Variable query_fault : nat -> option string.

(** ** audit.rs *)

(** [open_audit]. *)
Definition open_audit (path : string) (w : CliWorld) : result CliError AuditTable :=
  if negb (is_file path) then Err (CliError_new X_InvalidInput ("database file not found: " +:+ path))
  else map_err (fun e => CliError_new X_AuditError
                           ("failed to open audit database: " +:+ AuditError_display e))
         (cw_audit w path).

(** [audit verify]. *)
Definition audit_verify (path : string) (mode : OutputMode) : db_command unit := fun w =>
  (let! log := st_lift (open_audit path w) in
   let! report := st_lift (map_err (fun e => CliError_new X_AuditError
                                               ("verification failed: " +:+ AuditError_display e))
                             (AuditStore_verify_full (query_fault 0) log)) in
   let error_details :=
     map (fun e => json_object [("sequence", V_Int (ve_sequence e));
                                ("kind", V_String (VerificationErrorKind_debug (ve_kind e)));
                                ("detail", V_String (ve_detail e))]) (vr_errors report) in
   let! cs := st_lift (map_err (fun e => CliError_new X_AuditError
                                           ("failed to read audit chain status: " +:+ AuditError_display e))
                         (AuditStore_chain_status (query_fault 1) log)) in
   let! _ := on_console (say (render mode (CliOutput_with_data (json_object
     [("chain_valid", V_Bool (vr_chain_valid report));
      ("event_count", V_Int (vr_event_count report));
      ("verified_to", V_Int (vr_verified_to report));
      ("errors", V_Array error_details);
      ("chain_status", json_object [("event_count", V_Int (cs_event_count cs));
                                    ("latest_sequence", opt_int (cs_latest_sequence cs));
                                    ("genesis_hash", V_String (cs_genesis_hash cs))])])))) in
   st_lift (if negb (vr_chain_valid report) then
              Err (CliError_new X_AuditError
                     ("audit chain verification failed with "
                      +:+ dec (Z.of_nat (length (vr_errors report))) +:+ " error(s)"))
            else Ok tt)) w.

(** [audit list]: at most the first 100 events. *)
Definition audit_list (path : string) (mode : OutputMode) : db_command unit := fun w =>
  (let! log := st_lift (open_audit path w) in
   let! count := st_lift (map_err (fun e => CliError_new X_AuditError
                                              ("failed to count events: " +:+ AuditError_display e))
                            (AuditStore_event_count (query_fault 0) log)) in
   if count =? 0 then on_console (say (render mode (CliOutput_with_message "no audit events found")))
   else
     let limit := Z.min count 100 in
     let! events := st_lift (map_err (fun e => CliError_new X_AuditError
                                                 ("failed to list events: " +:+ AuditError_display e))
                               (AuditStore_events_after_sequence (query_fault 1) log 0 limit)) in
     let event_list :=
       map (fun e => json_object [("sequence", V_Int (ev_sequence e));
                                  ("event_id", V_String (ev_event_id e));
                                  ("timestamp", V_String (ev_timestamp e));
                                  ("category", V_String (category_display (ev_category e)));
                                  ("request_id", opt_string (ev_request_id e));
                                  ("agent_id", opt_string (ev_agent_id e));
                                  ("operation", opt_string (ev_operation e));
                                  ("decision", opt_string (ev_decision e))]) events in
     on_console (say (render mode (CliOutput_with_data (json_object
       [("total_events", V_Int count); ("events", V_Array event_list)]))))) w.

(** ** approval.rs *)

Variable usize_max : Z.

(** [resolve_db_paths]: the audit database, the approval database, and the settings. *)
Definition resolve_db_paths (config_path : option string)
  : result CliError (string * string * ApprovalStoreConfig) :=
  match config_path with
  | Some cfg_path =>
      let? cfg := map_err config_error (load_config usize_max cfg_path) in
      Ok (cfg.(audit).(audit_database), cfg.(approval).(approval_database),
          {| cfg_default_ttl_seconds := cfg.(approval).(default_ttl_seconds);
             cfg_max_pending := cfg.(approval).(max_pending) |})
  | None =>
      let default_audit := "./data/kavach-audit.db" in
      let default_approval := "./data/approvals.db" in
      if is_file default_audit then Ok (default_audit, default_approval, ApprovalStoreConfig_default)
      else Err (CliError_new X_InvalidInput
                  "no config file provided and no default audit database found at ./data/kavach-audit.db. Use --config to specify a config file.")
  end.

(** [open_context]: the paths and the two databases of the broker. *)
Definition open_context (config_path : option string) (w : CliWorld)
  : result CliError (string * string * BrokerState) :=
  let? paths := resolve_db_paths config_path in
  let '(audit_db, approval_db, config) := paths in
  let? log := map_err (fun e => CliError_new X_Unavailable
                                  ("failed to open audit database: " +:+ AuditError_display e))
                (cw_audit w audit_db) in
  let? table := map_err (fun e => CliError_new X_Unavailable
                                    ("failed to open approval broker: " +:+ ApprovalError_display e))
                  (let? _ := validate_config config in cw_approvals w approval_db) in
  Ok (audit_db, approval_db, {| br_approvals := table; br_audit := log |}).

(** A call of the broker on the databases at two paths. *)
Definition store_at {E T} (path : string) (t : T) (f : string -> result E T) : string -> result E T :=
  fun p => if String.eqb p path then Ok t else f p.

Definition with_broker {A} (ctx : string * string * BrokerState) (m : stateful BrokerState ApprovalError A)
  : stateful CliWorld ApprovalError A := fun w =>
  let '(audit_db, approval_db, stores) := ctx in
  let '(r, stores') := m stores in
  (r, {| cw_console := cw_console w;
         cw_audit := store_at audit_db (br_audit stores') (cw_audit w);
         cw_approvals := store_at approval_db (br_approvals stores') (cw_approvals w) |}).

Definition db_map_err {E F A} (f : E -> F) (m : stateful CliWorld E A) : stateful CliWorld F A :=
  fun w => let '(r, w') := m w in (map_err f r, w').

(** [approval list]. *)
Definition approval_list (env : CallEnv) (config_path : option string) (mode : OutputMode)
  : db_command unit := fun w =>
  (let! ctx := st_lift (open_context config_path w) in
   let! records := db_map_err (fun e => CliError_new X_Unavailable
                                          ("failed to list approvals: " +:+ ApprovalError_display e))
                     (with_broker ctx (list_pending env None)) in
   match records with
   | [] => on_console (say (render mode (CliOutput_with_message "no pending approvals")))
   | _ =>
       let approvals :=
         map (fun r => json_object [("approval_id", V_String (id_str (ApprovalModel.ar_approval_id r)));
                                    ("request_id", V_String (ar_request_id r));
                                    ("summary", V_String (ApprovalModel.ar_summary r));
                                    ("operation", V_String (ar_operation r));
                                    ("resource_kind", V_String (ar_resource_kind r));
                                    ("state", V_String (ApprovalState_debug (ar_state r)));
                                    ("created_at", V_String (to_rfc3339 (ar_created_at r)));
                                    ("expires_at", V_String (to_rfc3339 (ar_expires_at r)))]) records in
       on_console (say (render mode (CliOutput_with_data (json_object
         [("count", V_Int (Z.of_nat (length records))); ("approvals", V_Array approvals)]))))
   end) w.

Definition approval_id_arg (id : string) : result CliError ApprovalId :=
  map_err (fun e => CliError_new X_InvalidInput ("invalid approval ID: " +:+ DomainError_display e))
    (Id_new id).

(** [approval approve]: refused, whatever the id. *)
Definition approval_approve (id : string) (config_path : option string) (mode : OutputMode)
  : db_command unit :=
  let! _ := st_lift (approval_id_arg id) in
  st_lift (Err (CliError_new X_Unavailable
    "standalone approval is disabled because its one-time token cannot be transferred safely to the running gateway; approve through the authenticated dashboard/API instead")).

(** [approval deny]; this broker has no redactor. *)
Definition approval_deny (env : CallEnv) (id : string) (config_path : option string)
    (mode : OutputMode) : db_command unit := fun w =>
  (let! approval_id := st_lift (approval_id_arg id) in
   let! ctx := st_lift (open_context config_path w) in
   let! actor := st_lift (map_err (fun e => CliError_new X_InvalidInput
                                              ("invalid actor: " +:+ ApprovalError_display e))
                            (ApprovalActor_new "kavach-cli")) in
   let! _ := db_map_err (fun e => let msg := ApprovalError_display e in
                           if contains "not found" msg then
                             CliError_new X_InvalidInput ("approval not found: " +:+ id)
                           else CliError_new X_InternalError ("deny failed: " +:+ msg))
               (with_broker ctx (deny None env approval_id actor None)) in
   on_console (say (render mode (CliOutput_with_message ("approval " +:+ id +:+ " denied"))))) w.

(** ** doctor.rs *)

Definition check_value (name status path : string) : Value :=
  json_object [("check", V_String name); ("status", V_String status); ("path", V_String path)].

Definition doctor (mode : OutputMode) : command unit :=
  let ws_ok := is_dir "." in
  let config_paths := ["./kavach.toml"; "./config/kavach.toml"] in
  let found_config := List.find is_file config_paths in
  let policy_ok := is_file "./config/default-policy.toml" in
  let checks :=
    [check_value "workspace_root" (if ws_ok then "ok" else "fail") ".";
     check_value "config" (if existsb is_file config_paths then "ok" else "warn")
       (default "not found" found_config);
     check_value "default_policy" (if policy_ok then "ok" else "warn") "./config/default-policy.toml";
     check_value "data_directory" (if is_dir "./data" then "ok" else "warn") "./data"] in
  let all_ok := ws_ok && policy_ok in
  say (render mode (CliOutput_with_data (json_object
    [("overall", V_String (if all_ok then "ok" else "degraded")); ("checks", V_Array checks)]))).

(** ** main.rs *)

(** [Commands], without the commands that serve or set up. *)
Inductive Commands :=
| C_Version
| C_Doctor
| C_ConfigValidate (file : string)
| C_PolicyValidate (file : string)
| C_PolicyCheck (policy request : string) (feed_log : option string)
| C_PolicyExplain (policy request : string) (json : bool) (feed_log : option string)
| C_PolicyTest (policy scenarios : string)
| C_RequestValidate (file : string)
| C_AuditVerify (database : string)
| C_AuditList (database : string)
| C_ApprovalList (config : option string)
| C_ApprovalApprove (id : string) (config : option string)
| C_ApprovalDeny (id : string) (config : option string).

Variable version : string.

Definition run_command (env : CliEnv) (benv : CallEnv) (mode : OutputMode) (c : Commands)
  : db_command unit :=
  match c with
  | C_Version => on_console (say (line ("kavach " +:+ version)))
  | C_Doctor => on_console (doctor mode)
  | C_ConfigValidate file => on_console (config_validate usize_max file mode)
  | C_PolicyValidate file => on_console (policy_validate file mode)
  | C_PolicyCheck policy request feed_log => on_console (check env policy request mode feed_log)
  | C_PolicyExplain policy request json feed_log =>
      on_console (explain env policy request mode json feed_log)
  | C_PolicyTest policy scenarios => on_console (test_policy env policy scenarios mode)
  | C_RequestValidate file => on_console (request_validate file mode)
  | C_AuditVerify database => audit_verify database mode
  | C_AuditList database => audit_list database mode
  | C_ApprovalList config => approval_list benv config mode
  | C_ApprovalApprove id config => approval_approve id config mode
  | C_ApprovalDeny id config => approval_deny benv id config mode
  end.

(** [main]: the exit code, what is written to the standard error (an error is always
    rendered for humans), and the world after the command. *)
Definition cli_main (env : CliEnv) (benv : CallEnv) (mode : OutputMode) (c : Commands) (w : CliWorld)
  : Z * string * CliWorld :=
  match run_command env benv mode c w with
  | (Ok _, w') => (ExitCode_code X_Success, "", w')
  | (Err e, w') => (ExitCode_code (cli_code e), render Human (CliOutput_error (cli_message e)), w')
  end.

End Commands.
