(* ===== verification/CliProps.v ===== *)
(** * Properties of the command line *)

From stdpp Require Import base tactics list strings.
From Stdlib Require Import ZArith Lia Ascii.
From S2P Require Import Prelude RustStr BTree Json CoreError CoreIds CorePath CoreResource CoreRequest.
From S2P Require Import CoreDecision CorePermit PolicyModel PolicyEngine PolicySpec PolicyLoad.
From S2P Require Import AuditModel AuditVerify AuditChain ApprovalModel ApprovalBroker.
From S2P Require Import ConfigLoad ConfigProps CliServe CliPolicy CliCommands.
Import ConfigLoad.Config.

Open Scope Z_scope.

(** ** Words of a shell

    The quoting rules of a POSIX shell: words are separated by blanks, single quotes
    keep everything, a backslash keeps the next byte.  Anything that would start an
    operator, an expansion or a double quoted part is refused. *)

Definition push (cur : option string) (c : ascii) : option string :=
  Some (default "" cur +:+ String c "").

Definition sh_special (c : ascii) : bool :=
  existsb (Z.eqb (byte_val c)) [34; 36; 96; 124; 59; 38; 40; 41; 60; 62; 10].

Fixpoint sh_words (quoted : bool) (cur : option string) (s : string) : option (list string) :=
  match s with
  | EmptyString => if quoted then None else Some (match cur with Some w => [w] | None => [] end)
  | String c s' =>
      if quoted then
        if Ascii.eqb c "'" then sh_words false cur s' else sh_words true (push cur c) s'
      else if Ascii.eqb c "'" then sh_words true (Some (default "" cur)) s'
      else if Ascii.eqb c "\" then
        match s' with
        | EmptyString => None
        | String d s'' => sh_words false (push cur d) s''
        end
      else if existsb (Z.eqb (byte_val c)) [9; 32] then
        match cur with
        | Some w => option_map (cons w) (sh_words false None s')
        | None => sh_words false None s'
        end
      else if sh_special c then None
      else sh_words false (push cur c) s'
  end.

Lemma default_push cur c s : default "" (push cur c) +:+ s = default "" cur +:+ String c s.
Proof. unfold push. simpl. by rewrite append_assoc. Qed.

Lemma push_append w c : push (Some w) c = Some (w +:+ String c "").
Proof. done. Qed.

(** Inside quotes, the escaped text adds itself to the word. *)
Lemma sh_words_escaped w s rest :
  sh_words true (Some w) (escape_quotes s +:+ "'" +:+ rest) = sh_words false (Some (w +:+ s)) rest.
Proof.
  revert w. induction s as [|c s IH]; intros w.
  - cbn. by rewrite append_nil_r.
  - cbn [escape_quotes]. destruct (Ascii.eqb c "'") eqn:Ec.
    + apply Ascii.eqb_eq in Ec as ->. cbn -[String.append]. rewrite !append_cons, append_nil_l.
      cbn -[String.append]. rewrite IH. by rewrite append_assoc.
    + rewrite append_cons, append_nil_l, append_cons. cbn [sh_words]. rewrite Ec, push_append, IH.
      by rewrite append_assoc.
Qed.

(** A word that needs no quotes adds itself. *)
Lemma plain_byte c : needs_quotes c = false ->
  Ascii.eqb c "'" = false /\ Ascii.eqb c "\" = false /\
  existsb (Z.eqb (byte_val c)) [9; 32] = false /\ sh_special c = false.
Proof. destruct c as [[] [] [] [] [] [] [] []]; vm_compute; intros [=]; done. Qed.

Lemma sh_words_plain cur s rest :
  any_byte needs_quotes s = false -> s <> "" ->
  sh_words false cur (s +:+ rest) = sh_words false (Some (default "" cur +:+ s)) rest.
Proof.
  revert cur. induction s as [|c s IH]; intros cur Hs Hne; [done|]. simpl in Hs.
  apply orb_false_iff in Hs as [Hc Hs]. apply plain_byte in Hc as (H1 & H2 & H3 & H4).
  rewrite append_cons. cbn [sh_words]. rewrite H1, H2, H3, H4.
  destruct s as [|d s]; [by rewrite append_nil_l|]. rewrite IH; [|done|done].
  by rewrite default_push.
Qed.

Lemma sh_words_quote word rest :
  sh_words false None (shell_quote word +:+ rest) = sh_words false (Some word) rest.
Proof.
  unfold shell_quote. destruct (_ || _) eqn:Eq.
  - rewrite !append_assoc. exact (sh_words_escaped "" word rest).
  - apply orb_false_iff in Eq as [He Hn]. rewrite sh_words_plain; [done|done|].
    by apply is_empty_false.
Qed.

(** (C38) The command line shown for a command determines it: read by the quoting rules
    of a shell, the words of the summary are the executable and the arguments, whatever
    bytes they hold.  (Tilde, glob patterns and comments are no part of these rules;
    their characters are shown without quotes.) *)
Theorem command_summary_round_trip words :
  sh_words false None (join " " (map shell_quote words)) = Some words.
Proof.
  induction words as [|w ws IH]; [done|]. destruct ws as [|v ws].
  - unfold join. simpl. rewrite <- (append_nil_r (shell_quote w)), sh_words_quote. done.
  - unfold join in *. cbn [map]. rewrite concat_cons2, sh_words_quote. cbn [map] in IH.
    change (option_map (cons w) (sh_words false None (String.concat " " (shell_quote v :: map shell_quote ws)))
            = Some (w :: v :: ws)).
    by rewrite IH.
Qed.

(** ** Exit codes *)

Section Commands.
Context {JP : JsonPrint} {JT : JsonText} {CF : CliFiles} {PF : PolicyFiles} {TL : TomlLib}.
Context {GL : GlobLib} {UL : UnicodeLower} {CS : ConfigSources}.
Context {SH : Sha256} {HX : HexLib} {AJ : AuditJson} {CH : Rfc3339} {IE : IdsJsonError} {RJ : RequestJson}.
Variable query_fault : nat -> option string.
Variable usize_max : Z.
Variable version : string.

Abbreviation main := (cli_main query_fault usize_max version).

(** The exit code of a decision. *)
Definition effect_code (e : DecisionEffect) : Z :=
  match e with Allow => 0 | Deny => 10 | RequireApproval => 11 end.

(** The codes of the failures that leave no decision. *)
Definition failure_code (code : Z) : Prop := code = 20 \/ code = 21 \/ code = 30.

Lemma load_policy_code path e :
  load_policy path = Err e -> failure_code (ExitCode_code (cli_code e)).
Proof.
  unfold load_policy. destruct (is_file path); simpl; [|intros [= <-]; by left].
  intros (e' & _ & ->)%map_err_err. right. by left.
Qed.

Lemma load_request_code path e :
  load_request path = Err e -> failure_code (ExitCode_code (cli_code e)).
Proof.
  unfold load_request, failure_code. destruct (is_file path); simpl; [|intros [= <-]; by left].
  destruct (read_to_string path) as [t|]; simpl; [|intros [= <-]; simpl; lia].
  destruct (request_from_str t) as [q|]; simpl; [|intros [= <-]; simpl; lia].
  destruct (ToolRequest_validate q); simpl; [done|intros [= <-]; simpl; lia].
Qed.

Lemma build_engine_code p e :
  build_engine p = Err e -> failure_code (ExitCode_code (cli_code e)).
Proof. intros (e' & _ & ->)%map_err_err. right. by left. Qed.

(** Feeding the dashboard prints nothing, and its failures have their own codes. *)
Lemma feed_inv env flag d q c r c' :
  feed env flag d q c = (r, c') ->
  con_out c' = con_out c /\ (forall e, r = Err e -> failure_code (ExitCode_code (cli_code e))).
Proof.
  unfold feed, failure_code. destruct (feed_log_path flag); [|by intros [= <- <-]].
  unfold append_feed_log. destruct (cl_feed_open env); [intros [= <- <-]|].
  - split; [done|]. intros ? [= <-]. simpl. lia.
  - destruct (json_to_string _); [|intros [= <- <-]; split; [done|intros ? [= <-]; simpl; lia]].
    destruct (cl_feed_write env) as [[e partial]|]; intros [= <- <-]; (split; [done|]); [|done].
    intros ? [= <-]. simpl. lia.
Qed.

(** What [policy check] decides: the policy and the request of the two files, the
    decision the specification gives for them, and the line of the feed log, where one
    is asked for, is written. *)
Definition decided env policy_path request_path feed_log c (eff : DecisionEffect) : Prop :=
  exists policy request engine reason ids,
    load_policy policy_path = Ok policy /\ load_request request_path = Ok request /\
    PolicyEngine_new [policy] = Ok engine /\ decision_spec [policy] request eff reason ids /\
    fst (feed env feed_log (PolicyEngine_evaluate engine (cl_now env 0) request) request c) = Ok tt.

Context {GLaws : GlobLaws}.

(** A run of [policy check]. *)
Lemma policy_check_inv env policy_path request_path mode feed_log c r c' :
  check env policy_path request_path mode feed_log c = (r, c') ->
  let code := match r with Ok _ => 0 | Err e => ExitCode_code (cli_code e) end in
  (exists eff, decided env policy_path request_path feed_log c eff /\ code = effect_code eff) \/
  ((forall eff, ~ decided env policy_path request_path feed_log c eff) /\ failure_code code).
Proof.
  unfold check, cli_evaluate. intros Hc.
  apply st_bind_inv in Hc as [(e & [= He <-] & ->)|([q d] & c1 & [= He <-] & Hk)].
  - right. split.
    + intros eff (p & q & en & reason & ids & Hp & Hq & Hen & _). rewrite Hp, Hq in He.
      unfold build_engine in He. by rewrite Hen in He.
    + destruct (load_policy policy_path) as [p|] eqn:Hp; [|injection He as <-; by eapply load_policy_code].
      destruct (load_request request_path) as [q|] eqn:Hq; [|injection He as <-; by eapply load_request_code].
      destruct (build_engine p) eqn:Hb; [done|]. injection He as <-. by eapply build_engine_code.
  - apply ok_bind in He as (p & Hp & (q' & Hq & (en & Hen%map_err_ok & [= -> <-])%ok_bind)%ok_bind).
    pose proof (evaluate_decides [p] en q (cl_now env 0) Hen) as Hd.
    set (d := PolicyEngine_evaluate en (cl_now env 0) q) in *.
    apply st_bind_inv in Hk as [(e & Hf & ->)|([] & c2 & Hf & Hk)].
    + right. split; [|by apply (proj2 (feed_inv _ _ _ _ _ _ _ Hf))].
      intros eff (p' & q' & en' & reason & ids & Hp' & Hq' & Hen' & _ & Hok).
      rewrite Hp in Hp'. injection Hp' as <-. rewrite Hq in Hq'. injection Hq' as <-.
      rewrite Hen in Hen'. injection Hen' as <-. fold d in Hok. by rewrite Hf in Hok.
    + left. exists (ad_effect d). split.
      * exists p, q, en, (ad_reason d), (ad_matched_rule_ids d). fold d. by rewrite Hf.
      * apply st_bind_inv in Hk as [(e & [=] & _)|(u & c3 & _ & [= <- <-])].
        by destruct (ad_effect d).
Qed.

Lemma decided_fun env pp rp fl c e1 e2 :
  decided env pp rp fl c e1 -> decided env pp rp fl c e2 -> e1 = e2.
Proof.
  intros (p & q & en & r1 & i1 & Hp & Hq & _ & Hd & _) (p' & q' & en' & r2 & i2 & Hp' & Hq' & _ & Hd' & _).
  rewrite Hp in Hp'. injection Hp' as <-. rewrite Hq in Hq'. injection Hq' as <-.
  apply (decision_spec_unique _ _ _ _ _ _ _ _ Hd Hd').
Qed.

(** (C12) The exit code of policy check is the decision: 0, 10 or 11 exactly when the
    policy and the request load and the specification of the policies says allow, deny
    or require approval; whatever else goes wrong (files, syntax, validation, the feed
    log) gives 20, 21 or 30, never one of these.  The databases are left alone. *)
Theorem policy_check_exact env benv mode policy_path request_path feed_log w code err w' :
  main env benv mode (C_PolicyCheck policy_path request_path feed_log) w = (code, err, w') ->
  (forall eff, code = effect_code eff
               <-> decided env policy_path request_path feed_log (cw_console w) eff) /\
  ((forall eff, ~ decided env policy_path request_path feed_log (cw_console w) eff) ->
   failure_code code) /\
  cw_audit w' = cw_audit w /\ cw_approvals w' = cw_approvals w.
Proof.
  unfold cli_main, run_command, on_console.
  destruct (check _ _ _ _ _ _) as [r c'] eqn:Hc. intros Hm.
  assert (Hcode : code = match r with Ok _ => 0 | Err e => ExitCode_code (cli_code e) end /\
                  cw_audit w' = cw_audit w /\ cw_approvals w' = cw_approvals w).
  { destruct r; injection Hm as <- _ <-; done. }
  destruct Hcode as (Hcode & Ha & Hb). apply policy_check_inv in Hc. cbv zeta in Hc. rewrite <- Hcode in Hc.
  split_and!; [|by destruct Hc as [(eff & Hd & _)|[_ Hf]]; [intros Hn; destruct (Hn _ Hd)|]|done|done].
  intros eff. destruct Hc as [(e & Hd & He)|[Hn Hf]].
  - rewrite He. split; [intros Heq|intros Hd'; by rewrite (decided_fun _ _ _ _ _ _ _ Hd Hd')].
    by replace eff with e; [|destruct e, eff].
  - split; [|intros Hd; destruct (Hn _ Hd)]. destruct Hf as [-> | [-> | ->]]; by destruct eff.
Qed.

(** ** policy test *)

(** A scenario passes when its label names the effect the specification gives. *)
Definition passes (policy : Policy) (dir : string) (s : TestScenario) : Prop :=
  exists request eff reason ids, build_scenario_request s dir = Ok request /\
    decision_spec [policy] request eff reason ids /\
    normalize_effect_label (ts_expected s) = DecisionEffect_as_str eff.

Definition builds (dir : string) (s : TestScenario) : Prop :=
  exists request, build_scenario_request s dir = Ok request.

Lemma effect_label e : normalize_effect_label (DecisionEffect_debug e) = DecisionEffect_as_str e.
Proof. by destruct e. Qed.

Lemma as_str_inj e1 e2 : DecisionEffect_as_str e1 = DecisionEffect_as_str e2 -> e1 = e2.
Proof. by destruct e1, e2. Qed.

Lemma passes_iff policy engine dir s now request :
  PolicyEngine_new [policy] = Ok engine -> build_scenario_request s dir = Ok request ->
  passes policy dir s <->
  DecisionEffect_as_str (ad_effect (PolicyEngine_evaluate engine now request))
  = normalize_effect_label (ts_expected s).
Proof.
  intros He Hr. pose proof (evaluate_decides [policy] engine request now He) as Hd. split.
  - intros (q & eff & reason & ids & Hq & Hs & ->). rewrite Hr in Hq. injection Hq as <-.
    by destruct (decision_spec_unique _ _ _ _ _ _ _ _ Hd Hs) as (-> & _).
  - intros Hl. eexists request, _, _, _. split_and!; [done|exact Hd|by symmetry].
Qed.

Lemma run_scenarios_ok env policy engine dir i l passed failures :
  PolicyEngine_new [policy] = Ok engine ->
  run_scenarios env engine dir i l = Ok (passed, failures) ->
  Forall (builds dir) l /\ passed + Z.of_nat (length failures) = Z.of_nat (length l) /\
  (failures = [] <-> Forall (passes policy dir) l).
Proof.
  intros He. revert i passed failures. induction l as [|s l IH]; intros i passed failures; simpl.
  - intros [= <- <-]. split_and!; [by constructor|done|]. split; [by constructor|done].
  - intros (q & Hq & ([n fs] & Hrun & Hr)%ok_bind)%ok_bind. injection Hr as Hr.
    destruct (IH _ _ _ Hrun) as (Hb & Hn & Hall).
    pose proof (passes_iff policy engine dir s (cl_now env i) q He Hq) as Hp.
    rewrite effect_label in Hr. split; [constructor; [by exists q|done]|].
    rewrite Forall_cons, Hp, <- Hall.
    destruct (String.eqb_spec (DecisionEffect_as_str (ad_effect (PolicyEngine_evaluate engine (cl_now env i) q)))
                (normalize_effect_label (ts_expected s))) as [Heq|Hne];
      injection Hr as <- <-; (split; [simpl; lia|]).
    + split; [by intros ->|by intros [_ ->]].
    + split; [done|]. by intros [? _].
Qed.

Lemma build_scenario_code s dir e :
  build_scenario_request s dir = Err e -> failure_code (ExitCode_code (cli_code e)).
Proof.
  unfold build_scenario_request. destruct (ts_request_file s); [apply load_request_code|].
  unfold failure_code. destruct (ts_request s) as [v|]; simpl; [|intros [= <-]; simpl; lia].
  destruct (json_to_string v) as [t|]; simpl; [|intros [= <-]; simpl; lia].
  destruct (request_from_str t) as [q|]; simpl; [|intros [= <-]; simpl; lia].
  destruct (ToolRequest_validate q); simpl; [done|intros [= <-]; simpl; lia].
Qed.

Lemma run_scenarios_err env engine dir i l e :
  run_scenarios env engine dir i l = Err e ->
  ~ Forall (builds dir) l /\ failure_code (ExitCode_code (cli_code e)).
Proof.
  revert i. induction l as [|s l IH]; intros i; simpl; [done|].
  destruct (build_scenario_request s dir) as [q|e'] eqn:Eb.
  - destruct (run_scenarios env engine dir (S i) l) as [[n fs]|] eqn:Er; [done|].
    intros [= <-]. destruct (IH _ Er) as [Hn Hf]. split; [|done]. by intros [_ ?]%Forall_cons.
  - intros [= <-]. split; [|by eapply build_scenario_code].
    intros [[q Hq] _]%Forall_cons. congruence.
Qed.

(** What the two files of [policy test] hold. *)
Definition test_input (policy_path scenarios_path : string) (policy : Policy)
    (scenarios : list TestScenario) : Prop :=
  load_policy policy_path = Ok policy /\ is_ok (PolicyEngine_new [policy]) = true /\
  is_file scenarios_path = true /\
  exists contents, read_to_string scenarios_path = Ok contents /\
                   scenarios_from_str contents = Ok scenarios.

Lemma test_input_fun pp sp p l p' l' :
  test_input pp sp p l -> test_input pp sp p' l' -> p = p' /\ l = l'.
Proof. intros (Hp & _ & _ & t & Ht & Hl) (Hp' & _ & _ & t' & Ht' & Hl'). split; congruence. Qed.

Lemma passes_builds p dir l : Forall (passes p dir) l -> Forall (builds dir) l.
Proof. intros H. eapply Forall_impl; [exact H|]. intros s (q & _ & _ & _ & Hq & _). by exists q. Qed.

(** A run of [policy test]: the scenarios were run, or there is nothing to run. *)
Definition tested pp sp dir (r : result CliError unit) : Prop :=
  exists p l, test_input pp sp p l /\ Forall (builds dir) l /\
    ((Forall (passes p dir) l /\ r = Ok tt) \/
     (~ Forall (passes p dir) l /\ exists m, r = Err (CliError_new X_TestFailures m))).

Definition untested pp sp dir (r : result CliError unit) : Prop :=
  (forall p l, test_input pp sp p l -> ~ Forall (builds dir) l) /\
  exists e, r = Err e /\ failure_code (ExitCode_code (cli_code e)).

Lemma no_input pp sp dir e :
  failure_code (ExitCode_code (cli_code e)) -> (forall p l, ~ test_input pp sp p l) ->
  untested pp sp dir (Err e).
Proof. intros Hf Hn. split; [|eauto]. intros p l Hi. destruct (Hn _ _ Hi). Qed.

Lemma test_policy_inv env pp sp mode c r c' :
  test_policy env pp sp mode c = (r, c') ->
  tested pp sp (parent_dir sp) r \/ untested pp sp (parent_dir sp) r.
Proof.
  unfold test_policy. intros Ht.
  apply st_bind_inv in Ht as [(e & [= He <-] & ->)|(p & c1 & [= Hp <-] & Ht)].
  { right. apply no_input; [by eapply load_policy_code|]. intros p l (Hp & _). congruence. }
  apply st_bind_inv in Ht as [(e & [= He <-] & ->)|(en & c1 & [= He <-] & Ht)].
  { right. apply no_input; [by eapply build_engine_code|]. intros p' l (Hp' & Hen & _).
    rewrite Hp in Hp'. injection Hp' as <-. apply map_err_err in He as (x & He & _). by rewrite He in Hen. }
  apply map_err_ok in He. destruct (is_file sp) eqn:Ef; cbn [negb] in Ht.
  2:{ injection Ht as <- <-. right. apply no_input; [by left|]. intros p' l (_ & _ & Hf & _). congruence. }
  apply st_bind_inv in Ht as [(e & [= Hx <-] & ->)|(t & c1 & [= Hx%map_err_ok <-] & Ht)].
  { right. apply map_err_err in Hx as (x & Hx & ->). apply no_input; [by right; right|].
    intros p' l (_ & _ & _ & t & Ht & _). congruence. }
  apply st_bind_inv in Ht as [(e & [= Hl <-] & ->)|(l & c1 & [= Hl%map_err_ok <-] & Ht)].
  { right. apply map_err_err in Hl as (x & Hl & ->). apply no_input; [by left|].
    intros p' l (_ & _ & _ & t' & Ht & Hl'). congruence. }
  assert (Hi : test_input pp sp p l) by (unfold test_input; rewrite He; eauto 10).
  apply st_bind_inv in Ht as [(e & [= Hr <-] & ->)|([n fs] & c1 & [= Hr <-] & Ht)].
  { right. apply run_scenarios_err in Hr as [Hn Hf]. split; [|eauto]. intros p' l' Hi'.
    by destruct (test_input_fun _ _ _ _ _ _ Hi Hi') as [<- <-]. }
  left. exists p, l. destruct (run_scenarios_ok _ p _ _ _ _ _ _ He Hr) as (Hb & _ & Hall).
  apply st_bind_inv in Ht as [(e & [=] & _)|(u & c2 & _ & [= <- _])].
  split_and!; [done|done|]. destruct fs as [|f fs]; [left; split; [by apply Hall|done]|].
  right. split; [by intros H%Hall|eauto].
Qed.

(** A policy test succeeds exactly when the policy and the scenarios load and, for
    every scenario, the effect the specification gives for its request is the one its
    label names; it ends with code 23 exactly when all requests load and some scenario
    fails.  Every other failure has another code. *)
Theorem policy_test_exact env benv mode policy_path scenarios_path w code err w' :
  main env benv mode (C_PolicyTest policy_path scenarios_path) w = (code, err, w') ->
  let dir := parent_dir scenarios_path in
  (code = 0 <-> exists policy scenarios, test_input policy_path scenarios_path policy scenarios /\
                  Forall (passes policy dir) scenarios) /\
  (code = 23 <-> exists policy scenarios, test_input policy_path scenarios_path policy scenarios /\
                   Forall (builds dir) scenarios /\ ~ Forall (passes policy dir) scenarios) /\
  (code = 0 \/ code = 23 \/ failure_code code).
Proof.
  intros Hm dir. unfold cli_main, run_command, on_console in Hm.
  destruct (test_policy _ _ _ _ _) as [r c'] eqn:Ht.
  assert (Hcode : code = match r with Ok _ => 0 | Err e => ExitCode_code (cli_code e) end).
  { destruct r; injection Hm as <- _ _; done. }
  apply test_policy_inv in Ht as [(p & l & Hi & Hb & Hr)|[Hn (e & -> & Hf)]]; subst dir.
  - assert (Hu : forall p' l', test_input policy_path scenarios_path p' l' -> p = p' /\ l = l').
    { intros p' l'. by apply test_input_fun. }
    destruct Hr as [[Hall ->]|[Hno [m ->]]]; rewrite Hcode; simpl; naive_solver.
  - assert (Hc : code = 20 \/ code = 21 \/ code = 30) by (by rewrite Hcode).
    split_and!; [split; [lia|]|split; [lia|]|auto].
    + intros (p & l & Hi & Hall%passes_builds). destruct (Hn _ _ Hi Hall).
    + intros (p & l & Hi & Hall & _). destruct (Hn _ _ Hi Hall).
Qed.

(** ** The databases *)

Definition same_databases (w w' : CliWorld) : Prop :=
  forall path, cw_audit w' path = cw_audit w path /\ cw_approvals w' path = cw_approvals w path.

#[local] Instance same_databases_preorder : PreOrder same_databases.
Proof. split; [by intros w path|]. intros u v w H1 H2 path. specialize (H1 path); specialize (H2 path). intuition congruence. Qed.

Lemma on_console_same {A} (m : command A) : moves same_databases (on_console m).
Proof. intros w path. unfold on_console. by destruct (m (cw_console w)). Qed.

Lemma store_at_same {E T} path (t : T) (f : string -> result E T) p :
  f path = Ok t -> store_at path t f p = f p.
Proof. unfold store_at. intros Hf. by destruct (String.eqb_spec p path) as [->|]. Qed.

Lemma open_context_ok config w a b stores :
  open_context usize_max config w = Ok (a, b, stores) ->
  cw_audit w a = Ok (br_audit stores) /\ cw_approvals w b = Ok (br_approvals stores).
Proof.
  unfold open_context. intros ([[a' b'] cfg] & _ & Ho)%ok_bind.
  apply ok_bind in Ho as (log & Hl%map_err_ok & (t & Ht%map_err_ok & [= <- <- <-])%ok_bind).
  by apply check_bind in Ht as [_ Ht].
Qed.

Lemma list_pending_reads env limit s : snd (list_pending env limit s) = s.
Proof.
  unfold list_pending, st_bind, ask_store, st_lift. by destruct (store_list_pending _ _ _).
Qed.

Lemma approval_list_same env config mode : moves same_databases (approval_list usize_max env config mode).
Proof.
  intros w. unfold approval_list. destruct (open_context usize_max config w) as [[[a b] stores]|e] eqn:Ho.
  2:{ unfold st_bind, st_lift. reflexivity. }
  apply open_context_ok in Ho as [Ha Hb]. erewrite st_bind_run; [|reflexivity].
  unfold st_bind at 1, db_map_err, with_broker.
  pose proof (list_pending_reads env None stores) as Hr.
  destruct (list_pending env None stores) as [r stores']. simpl in Hr. subst stores'. cbn [map_err].
  set (w1 := {| cw_console := _ |}).
  assert (Hw1 : same_databases w w1).
  { intros p. subst w1. simpl. by rewrite !store_at_same. }
  destruct r as [records|e]; simpl; [|exact Hw1].
  etrans; [exact Hw1|]. destruct records; apply on_console_same.
Qed.

Lemma lift_then_same {A} (r : result CliError A) (k : A -> db_command unit) w :
  (forall a, r = Ok a -> same_databases w (snd (k a w))) ->
  same_databases w (snd (st_bind (st_lift r) k w)).
Proof. unfold st_bind, st_lift. destruct r as [a|]; [by intros H; apply H|]. by intros _. Qed.

Lemma audit_verify_same path mode : moves same_databases (audit_verify query_fault path mode).
Proof.
  intros w. unfold audit_verify. do 3 (apply lift_then_same; intros ? _; cbv zeta).
  apply moves_bind; [typeclasses eauto|apply on_console_same|]. intros []. apply moves_lift.
  typeclasses eauto.
Qed.

Lemma audit_list_same path mode : moves same_databases (audit_list query_fault path mode).
Proof.
  intros w. unfold audit_list. do 2 (apply lift_then_same; intros ? _; cbv zeta).
  destruct (_ =? 0); [apply on_console_same|]. apply lift_then_same. intros ? _. apply on_console_same.
Qed.

(** Of all commands only [approval deny] writes to a database, and it does so by one
    call of the broker on the two databases its configuration names, with the actor
    kavach-cli; [approval approve] never succeeds. *)
Theorem only_deny_writes env benv mode c w code err w' :
  main env benv mode c w = (code, err, w') ->
  (forall id config, c = C_ApprovalApprove id config -> code <> 0) /\
  (same_databases w w' \/
   exists id config approval_id actor a b stores r stores',
     c = C_ApprovalDeny id config /\ Id_new id = Ok approval_id /\
     ApprovalActor_new "kavach-cli" = Ok actor /\
     open_context usize_max config w = Ok (a, b, stores) /\
     deny None benv approval_id actor None stores = (r, stores') /\
     cw_audit w' = store_at a (br_audit stores') (cw_audit w) /\
     cw_approvals w' = store_at b (br_approvals stores') (cw_approvals w) /\
     (code = 0 <-> r = Ok tt)).
Proof.
  intros Hm. unfold cli_main in Hm.
  destruct (run_command query_fault usize_max version env benv mode c w) as [r w1] eqn:Hr.
  assert (Hc : code = match r with Ok _ => 0 | Err e => ExitCode_code (cli_code e) end /\ w' = w1).
  { destruct r; by injection Hm as <- _ <-. }
  destruct Hc as [Hc ->]. clear Hm. split.
  { intros id config ->. rewrite Hc. simpl in Hr. unfold approval_approve, st_bind, st_lift in Hr.
    destruct (approval_id_arg id) as [i|e] eqn:Ei; injection Hr as <- <-; [done|].
    by apply map_err_err in Ei as (e' & _ & ->). }
  pose proof (f_equal snd Hr) as Hs. cbn [snd] in Hs.
  destruct c as [| | | | | | | | | | |id config|id config];
    try (left; rewrite <- Hs; cbn [run_command];
         first [exact (on_console_same _ w) | exact (audit_verify_same _ _ w)
               | exact (audit_list_same _ _ w) | exact (approval_list_same _ _ _ w)]).
  { left. simpl in Hr. unfold approval_approve, st_bind, st_lift in Hr.
    by destruct (approval_id_arg id); injection Hr as _ <-. }
  cbn [run_command] in Hr. unfold approval_deny in Hr.
  apply st_bind_inv in Hr as [(e & [= _ <-] & _)|(ai & w2 & [= Hid%map_err_ok <-] & Hr)]; [by left|].
  apply st_bind_inv in Hr as [(e & [= _ <-] & _)|([[a b] stores] & w2 & [= Ho <-] & Hr)]; [by left|].
  apply st_bind_inv in Hr as [(e & [=] & _)|(actor & w2 & Ha & Hr)].
  assert (w2 = w /\ ApprovalActor_new "kavach-cli" = Ok actor) as [-> Ha'] by (by injection Ha as <- <-).
  destruct (deny None benv ai actor None stores) as [r0 stores'] eqn:Hd. right.
  unfold st_bind, db_map_err, with_broker in Hr. rewrite Hd in Hr.
  exists id, config, ai, actor, a, b, stores, r0, stores'.
  destruct r0 as [[]|e0]; simpl in Hr; injection Hr as <- <-; split_and!; try done.
  rewrite Hc. by destruct (contains _ _).
Qed.

Lemma chain_status_ok log es : read_rows log = Ok es -> is_ok (AuditStore_chain_status None log) = true.
Proof.
  intros Hr%read_rows_last. unfold AuditStore_chain_status, AuditStore_event_count,
    AuditStore_latest_event, fail_if.
  destruct (last log) as [row|], (last es) as [e|]; try done. by rewrite Hr.
Qed.

(** The command to verify the audit log succeeds exactly on a file that holds a chain of
    events from the genesis hash, and ends with code 20 or 22 otherwise. *)
Lemma audit_verify_exact env benv mode path w code err w' :
  (forall n, query_fault n = None) ->
  main env benv mode (C_AuditVerify path) w = (code, err, w') ->
  (code = 0 <-> is_file path = true /\ exists log, cw_audit w path = Ok log /\ verified_log log) /\
  (code = 0 \/ code = 20 \/ code = 22).
Proof.
  intros Hq Hm. unfold cli_main, run_command, audit_verify, open_audit in Hm. rewrite !Hq in Hm.
  destruct (is_file path); [|injection Hm as <- _ _; naive_solver].
  destruct (cw_audit w path) as [log|e0]; [|injection Hm as <- _ _; naive_solver].
  erewrite st_bind_run in Hm; [|reflexivity].
  unfold AuditStore_verify_full, AuditStore_all_events, fail_if in Hm.
  destruct (read_rows log) as [es|e1] eqn:Er.
  2:{ injection Hm as <- _ _. split; [|auto]. split; [done|].
      intros (_ & log' & [= <-] & es & He & _). congruence. }
  erewrite st_bind_run in Hm; [|reflexivity].
  pose proof (chain_status_ok log es Er) as [cs Hcs]%is_ok_true. rewrite Hcs in Hm.
  erewrite st_bind_run in Hm; [|reflexivity]. cbv zeta in Hm.
  pose proof (verify_events_valid es) as Hv.
  assert (Hex : (true = true /\ exists log', (Ok log : result AuditError AuditTable) = Ok log' /\ verified_log log') <->
                vr_chain_valid (verify_events es None) = true).
  { rewrite Hv. split; [|intros Hc; split; [done|exists log; split; [done|exists es; by split]]].
    intros (_ & log' & [= <-] & es' & He & Hc). rewrite Er in He. by injection He as <-. }
  rewrite Hex. unfold st_bind, on_console, say, st_lift in Hm.
  destruct (vr_chain_valid (verify_events es None)); injection Hm as <- _ _; naive_solver.
Qed.

End Commands.
