(* ===== verification/McpProtocol.v ===== *)
(** * The MCP proxy: messages and transport

    crates/kavach-mcp/src/protocol.rs and transport.rs.  JSON texts are parsed and
    printed by serde_json, a parameter; what serde derives for the message types is
    written out on JSON values.  The transport reads lines from a stream, which is
    the list of what its successive reads return. *)

From stdpp Require Import base tactics list strings.
From Stdlib Require Import ZArith Lia Ascii.
From S2P Require Import Prelude RustStr Json.

Open Scope Z_scope.

(** ** Messages (protocol.rs) *)

Definition MAX_MESSAGE_SIZE : Z := 1048576.

(** [JsonRpcRequest], [JsonRpcNotification], [JsonRpcResponse], [JsonRpcErrorBody] and
    [JsonRpcError]. *)
Record JsonRpcRequest := {
  rq_jsonrpc : string;
  rq_id : Value;
  rq_method : string;
  rq_params : option Value;
}.

Record JsonRpcNotification := {
  nt_jsonrpc : string;
  nt_method : string;
  nt_params : option Value;
}.

Record JsonRpcResponse := { rs_jsonrpc : string; rs_id : Value; rs_result : Value }.

Record JsonRpcErrorBody := { eb_code : Z; eb_message : string; eb_data : option Value }.

Record JsonRpcError := { re_jsonrpc : string; re_id : Value; re_error : JsonRpcErrorBody }.

(** [JsonRpcMessage]. *)
Inductive JsonRpcMessage :=
| Msg_Request (req : JsonRpcRequest)
| Msg_Notification (notif : JsonRpcNotification)
| Msg_Response (resp : JsonRpcResponse)
| Msg_Error (err : JsonRpcError).

(** [Tool] and [CallToolRequestParams]. *)
Record Tool := {
  tool_name : string;
  tool_description : option string;
  tool_input_schema : option Value;
}.

Record CallToolRequestParams := { cp_tool : string; cp_arguments : option Value }.

(** The error codes the proxy uses. *)
Definition PARSE_ERROR : Z := -32700.
Definition INVALID_REQUEST : Z := -32600.
Definition METHOD_NOT_FOUND : Z := -32601.
Definition INVALID_PARAMS : Z := -32602.
Definition INTERNAL_ERROR : Z := -32603.
Definition KAVACH_DENIED : Z := -32000.
Definition KAVACH_APPROVAL_REQUIRED : Z := -32001.
Definition KAVACH_TOOL_NOT_FOUND : Z := -32002.
Definition KAVACH_INTERNAL : Z := -32099.

(** *** The derived conversions *)

(** [#[serde(deny_unknown_fields)]]. *)
Definition only_fields (allowed : list string) (o : JsonObject) : bool :=
  forallb (fun kv => existsb (String.eqb kv.1) allowed) o.

(** A field of type [String], and an optional field: absent or null is [None]. *)
Definition string_field (k : string) (o : JsonObject) : option string :=
  match obj_get k o with Some (V_String s) => Some s | _ => None end.

Definition opt_field (k : string) (o : JsonObject) : option Value :=
  match obj_get k o with Some V_Null | None => None | Some v => Some v end.

(** A nested structure is read from an object or, by position, from an array that has
    no more entries than the structure has fields. *)
Definition struct_fields (names : list string) (v : Value) : option JsonObject :=
  match v with
  | V_Object o => Some o
  | V_Array l => if (length l <=? length names)%nat then Some (combine names l) else None
  | _ => None
  end.

Definition request_from_value (o : JsonObject) : option JsonRpcRequest :=
  if negb (only_fields ["jsonrpc"; "id"; "method"; "params"] o) then None
  else
    match string_field "jsonrpc" o, obj_get "id" o, string_field "method" o with
    | Some jsonrpc, Some id, Some method =>
        Some {| rq_jsonrpc := jsonrpc; rq_id := id; rq_method := method;
                rq_params := opt_field "params" o |}
    | _, _, _ => None
    end.

Definition notification_from_value (o : JsonObject) : option JsonRpcNotification :=
  if negb (only_fields ["jsonrpc"; "method"; "params"] o) then None
  else
    match string_field "jsonrpc" o, string_field "method" o with
    | Some jsonrpc, Some method =>
        Some {| nt_jsonrpc := jsonrpc; nt_method := method; nt_params := opt_field "params" o |}
    | _, _ => None
    end.

Definition response_from_value (o : JsonObject) : option JsonRpcResponse :=
  match string_field "jsonrpc" o, obj_get "id" o, obj_get "result" o with
  | Some jsonrpc, Some id, Some result =>
      Some {| rs_jsonrpc := jsonrpc; rs_id := id; rs_result := result |}
  | _, _, _ => None
  end.

(** An [i32]. *)
Definition int_field (k : string) (o : JsonObject) : option Z :=
  match obj_get k o with
  | Some (V_Int n) => if (- 2 ^ 31 <=? n) && (n <? 2 ^ 31) then Some n else None
  | _ => None
  end.

Definition error_from_value (o : JsonObject) : option JsonRpcError :=
  match string_field "jsonrpc" o, obj_get "id" o, obj_get "error" o with
  | Some jsonrpc, Some id, Some body =>
      match struct_fields ["code"; "message"; "data"] body with
      | Some b =>
          match int_field "code" b, string_field "message" b with
          | Some code, Some message =>
              Some {| re_jsonrpc := jsonrpc; re_id := id;
                      re_error := {| eb_code := code; eb_message := message;
                                     eb_data := opt_field "data" b |} |}
          | _, _ => None
          end
      | None => None
      end
  | _, _, _ => None
  end.

(** An optional field of type [String]: [None] when it has another type. *)
Definition opt_string_field (k : string) (o : JsonObject) : option (option string) :=
  match obj_get k o with
  | None | Some V_Null => Some None
  | Some (V_String s) => Some (Some s)
  | Some _ => None
  end.

Definition tool_from_value (v : Value) : option Tool :=
  match struct_fields ["name"; "description"; "inputSchema"] v with
  | Some o =>
      match string_field "name" o, opt_string_field "description" o with
      | Some name, Some description =>
          Some {| tool_name := name; tool_description := description;
                  tool_input_schema := opt_field "inputSchema" o |}
      | _, _ => None
      end
  | None => None
  end.

Definition call_params_from_value (v : Value) : option CallToolRequestParams :=
  match struct_fields ["name"; "arguments"] v with
  | Some o =>
      match string_field "name" o with
      | Some name => Some {| cp_tool := name; cp_arguments := opt_field "arguments" o |}
      | None => None
      end
  | None => None
  end.

(** [ServerCapabilities]: whether [tools] is present. *)
Definition capabilities_tools (v : Value) : option bool :=
  match struct_fields ["tools"; "resources"; "prompts"; "logging"; "experimental"] v with
  | Some caps => Some (match opt_field "tools" caps with Some _ => true | None => false end)
  | None => None
  end.

(** [Implementation]. *)
Definition implementation_ok (v : Value) : bool :=
  match struct_fields ["name"; "version"] v with
  | Some info =>
      match string_field "name" info, string_field "version" info with
      | Some _, Some _ => true
      | _, _ => false
      end
  | None => false
  end.

(** [InitializeResult]: whether the conversion succeeds, and then whether
    [capabilities.tools] is present. *)
Definition initialize_tools (v : Value) : option bool :=
  match struct_fields ["protocolVersion"; "capabilities"; "serverInfo"; "instructions"] v with
  | Some o =>
      match string_field "protocolVersion" o, obj_get "capabilities" o, obj_get "serverInfo" o,
            opt_string_field "instructions" o with
      | Some _, Some caps, Some info, Some _ =>
          if implementation_ok info then capabilities_tools caps else None
      | _, _, _, _ => None
      end
  | None => None
  end.

(** *** Parsing and printing *)

(** What the successive calls of [read_line] return: a line, or an error; at the end
    of the list the stream is closed. *)
Abbreviation LineStream := (list (result string string)).

Section Messages.
Context `{JsonText}.

(** [JsonRpcErrorResponse] and [jsonrpc_error]. *)
Record JsonRpcErrorResponse := { ers_id : option Value; ers_code : Z; ers_message : string }.

Definition jsonrpc_error (id : option Value) (code : Z) (message : string) : JsonRpcErrorResponse :=
  {| ers_id := id; ers_code := code; ers_message := message |}.

(** [parse_message]. *)
Definition parse_message (json : string) : result JsonRpcErrorResponse JsonRpcMessage :=
  if MAX_MESSAGE_SIZE <? len json then Err (jsonrpc_error None PARSE_ERROR "message too large")
  else
    let? value := map_err (fun e => jsonrpc_error None PARSE_ERROR ("invalid JSON: " +:+ e))
                    (json_from_str json) in
    let? obj := ok_or (jsonrpc_error None PARSE_ERROR "expected JSON object") (as_object value) in
    let has_id := obj_has "id" obj in
    let has_method := obj_has "method" obj in
    let has_result := obj_has "result" obj in
    let has_error := obj_has "error" obj in
    let invalid what := jsonrpc_error None PARSE_ERROR
                          ("invalid " +:+ what +:+ ": " +:+ conversion_error what value) in
    if negb has_method && negb has_result && negb has_error then
      Err (jsonrpc_error None INVALID_REQUEST "not a valid JSON-RPC message")
    else
      match (match obj_get "jsonrpc" obj with Some v => as_str v | None => None end) with
      | None => Err (jsonrpc_error None INVALID_REQUEST "missing jsonrpc version")
      | Some ver =>
          if negb (String.eqb ver "2.0") then
            Err (jsonrpc_error None INVALID_REQUEST "jsonrpc version must be 2.0")
          else if has_error then
            let? e := ok_or (invalid "error message") (error_from_value obj) in Ok (Msg_Error e)
          else if has_result then
            let? r := ok_or (invalid "response") (response_from_value obj) in Ok (Msg_Response r)
          else if has_id then
            let? r := ok_or (invalid "request") (request_from_value obj) in Ok (Msg_Request r)
          else
            let? n := ok_or (invalid "notification") (notification_from_value obj) in
            Ok (Msg_Notification n)
      end.

(** The derived serializations. *)
Definition opt_entry (k : string) (v : option Value) : JsonObject :=
  match v with Some x => [(k, x)] | None => [] end.

Definition error_body_to_value (b : JsonRpcErrorBody) : Value :=
  V_Object ([("code", V_Int (eb_code b)); ("message", V_String (eb_message b))]
            ++ opt_entry "data" (eb_data b)).

Definition message_to_value (msg : JsonRpcMessage) : Value :=
  match msg with
  | Msg_Request r =>
      V_Object [("jsonrpc", V_String (rq_jsonrpc r)); ("id", rq_id r);
                ("method", V_String (rq_method r)); ("params", default V_Null (rq_params r))]
  | Msg_Notification n =>
      V_Object ([("jsonrpc", V_String (nt_jsonrpc n)); ("method", V_String (nt_method n))]
                ++ opt_entry "params" (nt_params n))
  | Msg_Response r =>
      V_Object [("jsonrpc", V_String (rs_jsonrpc r)); ("id", rs_id r); ("result", rs_result r)]
  | Msg_Error e =>
      V_Object [("jsonrpc", V_String (re_jsonrpc e)); ("id", re_id e);
                ("error", error_body_to_value (re_error e))]
  end.

(** [serialize_message]. *)
Definition serialize_message (msg : JsonRpcMessage) : result string string :=
  json_to_string (message_to_value msg).

(** [unwrap_or_else(|_| "{}".into())]. *)
Definition or_braces (r : result string string) : string :=
  match r with Ok s => s | Err _ => "{}" end.

(** [make_error] and [make_response]. *)
Definition make_error (id : option Value) (code : Z) (message : string) : string :=
  or_braces (json_to_string
    (V_Object [("jsonrpc", V_String "2.0"); ("id", default V_Null id);
               ("error", error_body_to_value {| eb_code := code; eb_message := message;
                                                eb_data := None |})])).

Definition make_response (id result : Value) : string :=
  or_braces (serialize_message (Msg_Response {| rs_jsonrpc := "2.0"; rs_id := id;
                                                rs_result := result |})).

(** [method_not_found], [invalid_params] and [internal_error]. *)
Definition method_not_found (id : option Value) : string :=
  make_error id METHOD_NOT_FOUND "method not found".
Definition invalid_params (id : option Value) : string :=
  make_error id INVALID_PARAMS "invalid params".
Definition internal_error (id : option Value) : string :=
  make_error id INTERNAL_ERROR "internal error".

(** ** The transport (transport.rs) *)

(** The loop of [McpTransport::receive] with the text collected so far: the message
    or the error, and the rest of the stream.  A text that does not parse is kept and
    the next line is added to it. *)
Fixpoint receive_loop (buffer : string) (stream : LineStream)
  : result string JsonRpcMessage * LineStream :=
  match stream with
  | [] => (Err "connection closed", [])
  | Err e :: rest => (Err ("read error: " +:+ e), rest)
  | Ok line :: rest =>
      if is_empty line then (Err "connection closed", rest)
      else
        let trimmed := trim line in
        if is_empty trimmed then receive_loop buffer rest
        else
          let buffer' := buffer +:+ trimmed in
          if MAX_MESSAGE_SIZE <? len buffer' then (Err "message too large", rest)
          else
            match parse_message buffer' with
            | Ok msg => (Ok msg, rest)
            | Err _ => receive_loop buffer' rest
            end
  end.

(** [McpTransport::receive]. *)
Definition receive (stream : LineStream) : result string JsonRpcMessage * LineStream :=
  receive_loop "" stream.

End Messages.
