(* ===== verification/McpProxy.v ===== *)
(** * The MCP proxy

    crates/kavach-mcp/src/proxy.rs: the proxy between an MCP client and an MCP server.
    A tool call is evaluated by the runtime before it is forwarded; everything else is
    passed on.  The state keeps, beside the proxy's own fields, the two streams, the
    outcomes of the coming writes and a ghost log of what was handed to the server. *)

From stdpp Require Import base tactics list strings gmap.
From Stdlib Require Import ZArith Lia Ascii.
From S2P Require Import Prelude RustStr Utf8 BTree CoreError CoreIds CorePath CoreResource.
From S2P Require Import CoreRequest CoreDecision CorePermit PolicyModel PolicyEngine.
From S2P Require Import AuditModel ApprovalModel ApprovalBroker EnforceFs Runtime Json McpProtocol.

Open Scope Z_scope.

(** ** Redaction of responses *)

(** [is_sensitive_key]. *)
Definition is_sensitive_key (key : string) : bool :=
  let k := to_ascii_lowercase key in
  existsb (String.eqb k)
    ["key"; "api_key"; "apikey"; "token"; "access_token"; "refresh_token"; "secret";
     "client_secret"; "password"; "passwd"; "credential"; "credentials"; "authorization"].

Definition SENSITIVE_FIELD : string := "[REDACTED:sensitive_field]".

(** [redact_response], over the redaction of texts. *)
Fixpoint redact_response (redact_text : string -> string) (result : Value) : Value :=
  match result with
  | V_String value => V_String (redact_text value)
  | V_Array values => V_Array (map (redact_response redact_text) values)
  | V_Object values =>
      V_Object (map (fun kv => (kv.1, if is_sensitive_key kv.1 then V_String SENSITIVE_FIELD
                                      else redact_response redact_text kv.2)) values)
  | value => value
  end.

(** The strings of a value that [redact_response] hands to [redact_text]. *)
Fixpoint value_strings (v : Value) : list string :=
  match v with
  | V_String s => [s]
  | V_Array l => flat_map value_strings l
  | V_Object o => flat_map (fun kv => if is_sensitive_key kv.1 then [] else value_strings kv.2) o
  | _ => []
  end.

(** [redact_text], over the composite redactor with default settings; a text that is
    JSON is redacted as a value, its strings by [redact_text] again.  [fuel] bounds that
    nesting, [None] is beyond it. *)
Fixpoint mcp_redact_text `{JsonText} (redactor : string -> result string string) (fuel : nat)
    (input : string) : option string :=
  match fuel with
  | O => None
  | S fuel' =>
      let failed := "[REDACTION FAILED]" in
      let redacted := match redactor input with Ok t => t | Err _ => failed end in
      let inner s := default failed (mcp_redact_text redactor fuel' s) in
      let all_done s := match mcp_redact_text redactor fuel' s with Some _ => true | None => false end in
      match json_from_str redacted with
      | Ok value =>
          if forallb all_done (value_strings value) then
            Some (match json_to_string (redact_response inner value) with
                  | Ok t => t | Err _ => failed end)
          else None
      | Err _ => Some redacted
      end
  end.

(** ** The proxy *)

(** [McpProxyConfig]; the timeout in nanoseconds. *)
Record McpProxyConfig := {
  mp_server_command : string;
  mp_server_args : list string;
  mp_request_timeout : Z;
  mp_agent_id : string;
  mp_session_id : string;
}.

(** [McpProxyConfig::default]. *)
Definition McpProxyConfig_default : McpProxyConfig :=
  {| mp_server_command := ""; mp_server_args := []; mp_request_timeout := 30 * SECOND;
     mp_agent_id := "mcp-proxy"; mp_session_id := "mcp-session" |}.

(** [McpProxy], its streams and the stores behind the runtime. *)
Record ProxyState := {
  px_tools : gmap string Tool;
  px_initialized : bool;
  px_server : LineStream;
  px_writes : list (option string);   (** the outcomes of the next writes to the server *)
  px_sent : list JsonRpcMessage;      (** what was handed to the server, oldest first *)
  px_stores : BrokerState;
}.

(** What a message meets: the runtime's surroundings, the clock and a fresh uuid. *)
Record MsgEnv := { me_rt : RtEnv; me_now : Z; me_uuid : string }.

(** [Display for PathError]. *)
Definition PathError_display (e : PathError) : string :=
  (match pe_kind e with
   | PEK_Empty => "Empty"
   | PEK_Oversized => "Oversized"
   | PEK_InvalidCharacter => "InvalidCharacter"
   | PEK_Escape => "Escape"
   | PEK_InvalidValue => "InvalidValue"
   | PEK_InvalidEndpoint => "InvalidEndpoint"
   end) +:+ ": " +:+ pe_context e.

Section Proxy.
Context {JT : JsonText} {SH : Sha256} {HX : HexLib} {AJ : AuditJson} {CH : Rfc3339}.
Context {IE : IdsJsonError} {RJ : RequestJson} {GL : GlobLib} {UL : UnicodeLower} {RD : ResourceDebug}.

(** The configuration, the runtime, and [redact_text]. *)
Variable config : McpProxyConfig.
Variable rt : KavachRuntime.
Variable redact_text : string -> string.

Abbreviation proxy A := (stateful ProxyState string A).

(** [McpTransport::send] to the server. *)
Definition server_send (msg : JsonRpcMessage) : proxy unit := fun s =>
  match serialize_message msg with
  | Err e => (Err ("serialization error: " +:+ e), s)
  | Ok _ =>
      (match px_writes s with Some e :: _ => Err e | _ => Ok tt end,
       {| px_tools := px_tools s; px_initialized := px_initialized s; px_server := px_server s;
          px_writes := tail (px_writes s); px_sent := px_sent s ++ [msg]; px_stores := px_stores s |})
  end.

(** [self.server_transport.receive()]. *)
Definition server_receive : proxy JsonRpcMessage := fun s =>
  let '(r, rest) := receive (px_server s) in
  (r, {| px_tools := px_tools s; px_initialized := px_initialized s; px_server := rest;
         px_writes := px_writes s; px_sent := px_sent s; px_stores := px_stores s |}).

(** [forward]. *)
Definition forward (req : JsonRpcRequest) : proxy unit := server_send (Msg_Request req).

(** The answer for a response or an error of the server; [unexpected] is the error for
    any other message. *)
Definition relay (req : JsonRpcRequest) (unexpected : string) (reply : JsonRpcMessage)
  : proxy (option string) :=
  match reply with
  | Msg_Response resp =>
      st_ret (Some (make_response (rq_id req) (redact_response redact_text (rs_result resp))))
  | Msg_Error err =>
      st_ret (Some (make_error (Some (rq_id req)) (eb_code (re_error err))
                      (redact_text (eb_message (re_error err)))))
  | _ => st_lift (Err unexpected)
  end.

(** [forward_and_receive]. *)
Definition forward_and_receive (req : JsonRpcRequest) : proxy (option string) :=
  let! _ := forward req in
  let! reply := server_receive in
  relay req "unexpected response from server" reply.

(** [handle_initialize]. *)
Definition handle_initialize (req : JsonRpcRequest) : proxy (option string) :=
  let! _ := forward req in
  let! reply := server_receive in
  let! _ :=
    (fun s =>
       (Ok tt,
        {| px_tools := px_tools s;
           px_initialized :=
             match reply with
             | Msg_Response resp => default (px_initialized s) (initialize_tools (rs_result resp))
             | _ => px_initialized s
             end;
           px_server := px_server s; px_writes := px_writes s; px_sent := px_sent s;
           px_stores := px_stores s |})) in
  relay req "unexpected response during initialize" reply.

(** The tools of a listing, added to those known. *)
Definition add_tools (result : Value) (tools : gmap string Tool) : gmap string Tool :=
  match value_get "tools" result with
  | Some (V_Array vs) =>
      fold_left (fun m v => match tool_from_value v with
                            | Some t => <[tool_name t := t]> m
                            | None => m
                            end) vs tools
  | _ => tools
  end.

(** [handle_tools_list]. *)
Definition handle_tools_list (req : JsonRpcRequest) : proxy (option string) :=
  let! _ := forward req in
  let! reply := server_receive in
  let! _ :=
    (fun s =>
       (Ok tt,
        {| px_tools :=
             match reply with
             | Msg_Response resp => add_tools (rs_result resp) (px_tools s)
             | _ => px_tools s
             end;
           px_initialized := px_initialized s; px_server := px_server s;
           px_writes := px_writes s; px_sent := px_sent s; px_stores := px_stores s |})) in
  relay req "unexpected response during tools/list" reply.

(** The intent [build_tool_request] declares: the arguments as text, cut at 4000
    bytes at a character boundary. *)
Definition tool_intent (arguments : option Value) : option string :=
  option_map
    (fun a =>
       let s := match json_to_string a with Ok t => t | Err _ => "" end in
       if 4000 <? len s then str_take (floor_char_boundary s 4000) s else s)
    arguments.

(** [build_tool_request]. *)
Definition build_tool_request (env : MsgEnv) (name : string) (arguments : option Value)
  : result string ToolRequest :=
  let? agent_id := map_err (fun e => "invalid agent ID: " +:+ DomainError_display e)
                     (Id_new (mp_agent_id config)) in
  let? session_id := map_err (fun e => "invalid session ID: " +:+ DomainError_display e)
                       (Id_new (mp_session_id config)) in
  let? request_id := map_err (fun e => "invalid request ID: " +:+ DomainError_display e)
                       (Id_new ("mcp-" +:+ name +:+ "-" +:+ me_uuid env)) in
  let subject := AgentSubjectBuilder_build
                   (AgentSubjectBuilder_trust_level (AgentSubjectBuilder_new agent_id session_id)
                      Standard) in
  let? context := map_err (fun e => "invalid request context: " +:+ PathError_display e)
                    (RequestContext_new (me_now env) None (tool_intent arguments) None None false) in
  Ok {| tr_request_id := request_id; tr_subject := subject; tr_operation := ToolInvoke name;
        tr_resource := R_ExternalTool name; tr_context := context |}.

(** [self.runtime.evaluate(...)]. *)
Definition ask_runtime (env : MsgEnv) (id : Value) (request : ToolRequest) : proxy RuntimeOutcome :=
  fun s =>
    let '(r, b) := evaluate rt (me_rt env) request (px_stores s) in
    (map_err (fun e => make_error (Some id) KAVACH_INTERNAL
                         ("evaluation failed: " +:+ RuntimeError_display e)) r,
     {| px_tools := px_tools s; px_initialized := px_initialized s; px_server := px_server s;
        px_writes := px_writes s; px_sent := px_sent s; px_stores := b |}).

(** [handle_tool_call]. *)
Definition handle_tool_call (env : MsgEnv) (req : JsonRpcRequest) : proxy (option string) := fun s =>
  let id := rq_id req in
  (let! params := st_lift (ok_or (make_error (Some id) INVALID_PARAMS "missing params")
                             (rq_params req)) in
   let! call_params :=
     st_lift (ok_or (make_error (Some id) INVALID_PARAMS
                       ("invalid params: " +:+ conversion_error "params" params))
                (call_params_from_value params)) in
   let name := cp_tool call_params in
   match px_tools s !! name with
   | None => st_ret (Some (make_error (Some id) KAVACH_TOOL_NOT_FOUND ("tool not found: " +:+ name)))
   | Some _ =>
       let! tool_request := st_lift (build_tool_request env name (cp_arguments call_params)) in
       let! outcome := ask_runtime env id tool_request in
       match outcome with
       | RO_Denied _ _ _ sanitized_summary _ =>
           st_ret (Some (make_error (Some id) KAVACH_DENIED sanitized_summary))
       | RO_ApprovalRequired _ _ sanitized_summary _ =>
           st_ret (Some (make_error (Some id) KAVACH_APPROVAL_REQUIRED sanitized_summary))
       | RO_Permitted _ =>
           let! _ := forward req in
           let! reply := server_receive in
           relay req "unexpected response from MCP server" reply
       end
   end) s.

(** [handle_request]. *)
Definition handle_request (env : MsgEnv) (req : JsonRpcRequest) : proxy (option string) :=
  if String.eqb (rq_method req) "initialize" then handle_initialize req
  else if String.eqb (rq_method req) "ping" then forward_and_receive req
  else if String.eqb (rq_method req) "tools/list" then handle_tools_list req
  else if String.eqb (rq_method req) "tools/call" then handle_tool_call env req
  else forward_and_receive req.

(** [handle_notification]. *)
Definition handle_notification (notif : JsonRpcNotification) : proxy unit :=
  server_send (Msg_Notification notif).

(** [handle_message]. *)
Definition handle_message (env : MsgEnv) (msg : JsonRpcMessage) : proxy (option string) :=
  match msg with
  | Msg_Request req => handle_request env req
  | Msg_Notification notif => let! _ := handle_notification notif in st_ret None
  | Msg_Response _ | Msg_Error _ => st_lift (Err "unexpected response from client")
  end.

(** [McpTransport::send_raw] to the client: the outcome of the write. *)
Definition send_raw (writes : list (option string)) : result string unit :=
  match writes with Some e :: _ => Err e | _ => Ok tt end.

(** [run_proxy] on the stream of a client and the outcomes of the writes to it: the
    texts handed to the client, the outcome, and the state at the end.  [envs] gives
    each message its surroundings; [None] is beyond the fuel. *)
Fixpoint run_proxy (fuel : nat) (envs : nat -> MsgEnv) (n : nat) (writes : list (option string))
    (client : LineStream) (s : ProxyState)
  : option (list string * result string unit * ProxyState) :=
  match fuel with
  | O => None
  | S fuel' =>
      match receive client with
      | (Err e, _) => Some ([], Err e, s)
      | (Ok msg, rest) =>
          match handle_message (envs n) msg s with
          | (Err e, s1) => Some ([], Err e, s1)
          | (Ok response, s1) =>
              let out := match response with Some text => [text] | None => [] end in
              let sent := match response with Some _ => send_raw writes | None => Ok tt end in
              let writes' := match response with Some _ => tail writes | None => writes end in
              match sent with
              | Err e => Some (out, Err e, s1)
              | Ok _ =>
                  match msg with
                  | Msg_Error _ | Msg_Response _ => Some (out, Ok tt, s1)
                  | _ =>
                      match run_proxy fuel' envs (S n) writes' rest s1 with
                      | Some (texts, r, s2) => Some (out ++ texts, r, s2)
                      | None => None
                      end
                  end
              end
          end
      end
  end.

End Proxy.

(** ** The server process

    [McpTransport::new], [spawn_server] and [request_response] of transport.rs and
    [McpProxy::spawn].  A stream to write to is the sequence of the outcomes of the coming
    writes, a stream to read from the sequence of its lines; what the operating system makes
    of a command is an argument. *)

(** What can be written to. *)
Abbreviation Writer := (list (option string)).

(** [McpTransport]. *)
Record McpTransport := { tp_reader : LineStream; tp_writer : Writer; tp_buffer : string }.

(** [McpTransport::new]. *)
Definition McpTransport_new (reader : LineStream) (writer : Writer) : McpTransport :=
  {| tp_reader := reader; tp_writer := writer; tp_buffer := "" |}.

(** A child process with the ends of its pipes. *)
Record Child := { ch_stdin : option Writer; ch_stdout : option LineStream }.

Section Spawn.
Variable spawn_child : string -> list string -> result string Child.

(** [McpTransport::spawn_server]; the ends are taken out of the child. *)
Definition spawn_server (command : string) (args : list string) : result string (McpTransport * Child) :=
  let? child := spawn_child command args in
  let? stdin := ok_or "failed to capture stdin" (ch_stdin child) in
  let? stdout := ok_or "failed to capture stdout" (ch_stdout child) in
  Ok (McpTransport_new stdout stdin, {| ch_stdin := None; ch_stdout := None |}).

(** [McpProxy::spawn]; the runtime's databases are those of the state. *)
Definition McpProxy_spawn (config : McpProxyConfig) (stores : BrokerState) : result string ProxyState :=
  let? server := map_err (fun e => "failed to spawn MCP server: " +:+ e)
                   (spawn_server (mp_server_command config) (mp_server_args config)) in
  Ok {| px_tools := ∅; px_initialized := false; px_server := tp_reader (fst server);
        px_writes := tp_writer (fst server); px_sent := []; px_stores := stores |}.

End Spawn.

(** [McpTransport::send] and [receive] on a transport, and [request_response]. *)
Section Transport.
Context {JT : JsonText}.

Definition transport_send (msg : JsonRpcMessage) : stateful McpTransport string unit := fun t =>
  match serialize_message msg with
  | Err e => (Err ("serialization error: " +:+ e), t)
  | Ok _ =>
      (match tp_writer t with Some e :: _ => Err e | _ => Ok tt end,
       {| tp_reader := tp_reader t; tp_writer := tail (tp_writer t); tp_buffer := tp_buffer t |})
  end.

Definition transport_receive : stateful McpTransport string JsonRpcMessage := fun t =>
  let '(r, rest) := receive (tp_reader t) in
  (r, {| tp_reader := rest; tp_writer := tp_writer t; tp_buffer := "" |}).

Definition request_response (msg : JsonRpcMessage) : stateful McpTransport string JsonRpcMessage :=
  let! _ := transport_send msg in transport_receive.

End Transport.
