(* ===== verification/McpProps.v ===== *)
(** * Properties of the MCP proxy *)

From stdpp Require Import base tactics list strings gmap.
From Stdlib Require Import ZArith Lia Ascii.
From S2P Require Import Prelude RustStr Utf8 BTree CoreError CoreIds CorePath CoreResource.
From S2P Require Import CoreRequest CoreDecision CorePermit PolicyModel PolicyEngine.
From S2P Require Import AuditModel ApprovalModel ApprovalBroker EnforceFs Runtime RuntimeSpec.
From S2P Require Import ApprovalSpec ApprovalLife RuntimeProps Json McpProtocol McpProxy.

Open Scope Z_scope.

(** ** Redacted values *)

(** Every field with a sensitive name, at any depth, holds the mask. *)
Inductive fields_masked : Value -> Prop :=
| FM_null : fields_masked V_Null
| FM_bool b : fields_masked (V_Bool b)
| FM_int n : fields_masked (V_Int n)
| FM_float t : fields_masked (V_Float t)
| FM_string s : fields_masked (V_String s)
| FM_array l : Forall fields_masked l -> fields_masked (V_Array l)
| FM_object o :
    Forall (fun kv => is_sensitive_key kv.1 = true -> kv.2 = V_String SENSITIVE_FIELD) o ->
    Forall (fun kv => fields_masked kv.2) o -> fields_masked (V_Object o).

Fixpoint redact_response_masked redact v : fields_masked (redact_response redact v).
Proof.
  destruct v as [|b|n|t|s|l|o]; simpl; constructor.
  - induction l as [|x l IH]; simpl; constructor; [apply redact_response_masked|exact IH].
  - induction o as [|[k x] o IH]; simpl; constructor; [|exact IH]. simpl. by intros ->.
  - induction o as [|[k x] o IH]; simpl; constructor; [|exact IH]. simpl.
    destruct (is_sensitive_key k); [constructor|apply redact_response_masked].
Qed.

(** Redaction of a value depends on the redaction of the strings it reaches only. *)
Fixpoint redact_response_ext f g v :
  (forall s, s ∈ value_strings v -> f s = g s) -> redact_response f v = redact_response g v.
Proof.
  destruct v as [|b|n|t|s|l|o]; simpl; intros He; f_equal.
  - apply He. set_solver.
  - induction l as [|x l IH]; simpl in *; f_equal.
    + apply redact_response_ext. set_solver.
    + apply IH. set_solver.
  - induction o as [|[k x] o IH]; simpl in *; f_equal; [f_equal|].
    + destruct (is_sensitive_key k); [done|]. apply redact_response_ext. set_solver.
    + apply IH. set_solver.
Qed.

Section RedactText.
Context `{JsonText}.
Variable redactor : string -> result string string.

(** More fuel does not change a redacted text. *)
Lemma mcp_redact_text_stable f f' s t :
  mcp_redact_text redactor f s = Some t -> (f <= f')%nat -> mcp_redact_text redactor f' s = Some t.
Proof.
  revert f' s t. induction f as [|f IH]; intros [|f'] s t Hs Hle; simpl in *; try done; [lia|].
  destruct (json_from_str _) as [v|]; [|done].
  destruct (forallb _ (value_strings v)) eqn:Ea; [|done].
  assert (Hin : forall x, x ∈ value_strings v ->
            exists y, mcp_redact_text redactor f x = Some y /\ mcp_redact_text redactor f' x = Some y).
  { intros x Hx. rewrite forallb_forall in Ea. specialize (Ea x (proj1 (list_elem_of_In _ _) Hx)).
    destruct (mcp_redact_text redactor f x) as [y|] eqn:Ey; [|done].
    exists y. split; [done|]. apply (IH f' x y Ey). lia. }
  replace (forallb _ (value_strings v)) with true.
  - rewrite <- Hs. do 2 f_equal. erewrite redact_response_ext; [reflexivity|].
    intros x Hx. destruct (Hin x Hx) as (y & -> & ->). done.
  - symmetry. apply forallb_forall. intros x Hx%list_elem_of_In.
    by destruct (Hin x Hx) as (y & _ & ->).
Qed.

(** Redaction of a text ends when a measure of texts goes down from a text to the strings
    of the JSON value its redaction denotes; the measure is then fuel enough. *)
Lemma mcp_redact_text_total (measure : string -> nat) s :
  (forall s v x, json_from_str (match redactor s with Ok t => t | Err _ => "[REDACTION FAILED]" end) = Ok v ->
     x ∈ value_strings v -> (measure x < measure s)%nat) ->
  exists t, mcp_redact_text redactor (S (measure s)) s = Some t.
Proof.
  intros Hm. remember (measure s) as n eqn:En. assert (Hn : (measure s <= n)%nat) by lia.
  clear En. revert s Hn. induction n as [|n IH]; intros s Hn; simpl.
  all: destruct (json_from_str _) as [v|] eqn:Ev; [|by eexists].
  all: match goal with |- context [forallb ?p ?l] => replace (forallb p l) with true; [by eexists|] end.
  all: symmetry; apply forallb_forall; intros x Hx%list_elem_of_In.
  all: specialize (Hm s v x Ev Hx).
  - lia.
  - destruct (IH x) as [y Hy]; [lia|]. simpl in Hy. by rewrite Hy.
Qed.

End RedactText.

(** ** The transport *)

Section Transport.
Context `{JsonText}.

(** Receiving uses up the lines it reads. *)
Lemma receive_loop_shorter buffer stream r rest :
  receive_loop buffer stream = (r, rest) ->
  (length rest <= length stream)%nat /\ (is_ok r = true -> (length rest < length stream)%nat).
Proof.
  revert buffer. induction stream as [|[line|e] stream IH]; intros buffer; simpl;
    [intros [= <- <-]; by split| |intros [= <- <-]; simpl; split; [lia|done]].
  destruct (is_empty line); [intros [= <- <-]; split; [lia|done]|].
  destruct (is_empty (trim line)); [intros Hr; apply IH in Hr as [? ?]; split; [lia|intros; lia]|].
  destruct (_ <? _); [intros [= <- <-]; split; [lia|done]|].
  destruct (parse_message _); [intros [= <- <-]; split; lia|].
  intros Hr. apply IH in Hr as [? ?]. split; [lia|intros; lia].
Qed.

End Transport.

Section Proxy.
Context {JT : JsonText} {SH : Sha256} {HX : HexLib} {AJ : AuditJson} {CH : Rfc3339}.
Context {IE : IdsJsonError} {RJ : RequestJson} {GL : GlobLib} {UL : UnicodeLower} {RD : ResourceDebug}.
Variable config : McpProxyConfig.
Variable rt : KavachRuntime.
Variable redact_text : string -> string.

Abbreviation handle := (handle_message config rt redact_text).
Abbreviation run := (run_proxy config rt redact_text).

(** The proxy stops: as many rounds as the client has lines, and one, are enough. *)
Lemma run_proxy_terminates envs client n writes s fuel :
  (length client < fuel)%nat -> is_Some (run fuel envs n writes client s).
Proof.
  revert client n writes s. induction fuel as [|fuel IH]; intros client n writes s Hf; [lia|]. simpl.
  destruct (receive client) as [[msg|e] rest] eqn:Er; [|by eexists].
  apply receive_loop_shorter in Er as [_ Hl]. specialize (Hl eq_refl).
  destruct (handle (envs n) msg s) as [[resp|e] s1]; [|by eexists]. cbv zeta.
  set (w' := match resp with Some _ => tail writes | None => writes end).
  destruct (match resp with Some _ => send_raw writes | None => Ok tt end); [|by eexists].
  destruct (IH rest (S n) w' s1) as [[[texts r] s2] Hr]; [lia|]. rewrite Hr.
  by destruct msg; eexists.
Qed.

(** ** What is forwarded *)

(** The runtime, asked in the surroundings [env] for the tool the message names, allowed
    the call. *)
Definition allowed_call (env : MsgEnv) (req : JsonRpcRequest) : Prop :=
  exists params cp treq,
    rq_params req = Some params /\ call_params_from_value params = Some cp /\
    build_tool_request config env (cp_tool cp) (cp_arguments cp) = Ok treq /\
    tr_operation treq = ToolInvoke (cp_tool cp) /\ tr_resource treq = R_ExternalTool (cp_tool cp) /\
    ad_effect (PolicyEngine_evaluate (rt_engine rt) (re_now (me_rt env) 0) treq) = Allow.

(** From [s] to [s'] at most [msg] was handed to the server. *)
Definition forwards (msg : JsonRpcMessage) (s s' : ProxyState) : Prop :=
  px_sent s' = px_sent s \/ px_sent s' = px_sent s ++ [msg].

Lemma server_send_sent msg s r s' : server_send msg s = (r, s') -> forwards msg s s'.
Proof.
  unfold server_send, forwards. destruct (serialize_message msg); intros [= _ <-]; [by right|by left].
Qed.

Lemma server_receive_sent s r s' : server_receive s = (r, s') -> px_sent s' = px_sent s.
Proof. unfold server_receive. destruct (receive (px_server s)). by intros [= _ <-]. Qed.

Lemma relay_state req u reply s r s' : relay redact_text req u reply s = (r, s') -> s' = s.
Proof. destruct reply; by intros [= _ <-]. Qed.

(** Sending and waiting for the answer hands over one message, whatever is noted in
    between. *)
Lemma exchange_sent req u (note : JsonRpcMessage -> stateful ProxyState string unit) s r s' :
  (forall m s0 r0 s1, note m s0 = (r0, s1) -> px_sent s1 = px_sent s0) ->
  (let! _ := forward req in let! reply := server_receive in let! _ := note reply in
   relay redact_text req u reply) s = (r, s') ->
  forwards (Msg_Request req) s s'.
Proof.
  intros Hn [(e & Hs & _)|(v & s1 & Hs & Hx)]%st_bind_inv; [by apply server_send_sent in Hs|].
  apply server_send_sent in Hs. enough (px_sent s' = px_sent s1) by (unfold forwards in *; congruence).
  apply st_bind_inv in Hx as [(e & Hr%server_receive_sent & _)|(m & s2 & Hr%server_receive_sent & Hx)]; [done|].
  apply st_bind_inv in Hx as [(e & Hm%Hn & _)|(w & s3 & Hm%Hn & ->%relay_state)]; congruence.
Qed.

Lemma forward_and_receive_sent req u s r s' :
  (let! _ := forward req in let! reply := server_receive in relay redact_text req u reply) s = (r, s') ->
  forwards (Msg_Request req) s s'.
Proof.
  intros Hx. apply (exchange_sent req u (fun _ => st_ret tt) s r s'); [by intros ? ? ? ? [= _ <-]|].
  exact Hx.
Qed.

Lemma build_tool_request_names env name arguments treq :
  build_tool_request config env name arguments = Ok treq ->
  tr_operation treq = ToolInvoke name /\ tr_resource treq = R_ExternalTool name.
Proof. unfold build_tool_request. intros Hb. inv_all. by split. Qed.

Lemma handle_tool_call_sent env req s r s' :
  handle_tool_call config rt redact_text env req s = (r, s') ->
  px_sent s' = px_sent s \/ (px_sent s' = px_sent s ++ [Msg_Request req] /\ allowed_call env req).
Proof.
  intros [(e & [_ ->]%st_lift_inv & _)|(params & s1 & [Hp ->]%st_lift_inv & Hx)]%st_bind_inv; [by left|].
  apply st_bind_inv in Hx as [(e & [_ ->]%st_lift_inv & _)|(cp & s1 & [Hcp ->]%st_lift_inv & Hx)];
    [by left|]. cbv zeta in Hx.
  destruct (px_tools s !! cp_tool cp) as [tool|]; [|injection Hx as _ <-; by left].
  apply st_bind_inv in Hx as [(e & [_ ->]%st_lift_inv & _)|(treq & s1 & [Ht ->]%st_lift_inv & Hx)];
    [by left|].
  destruct (rq_params req) as [params'|] eqn:Ep; [injection Hp as ->|done].
  destruct (call_params_from_value params') as [cp'|] eqn:Ec; [injection Hcp as ->|done].
  assert (Hask : forall v s1, ask_runtime rt env (rq_id req) treq s = (v, s1) ->
            px_sent s1 = px_sent s /\ forall o, v = Ok (RO_Permitted o) ->
              ad_effect (PolicyEngine_evaluate (rt_engine rt) (re_now (me_rt env) 0) treq) = Allow).
  { unfold ask_runtime. intros v s1. destruct (evaluate _ _ _ _) as [w b] eqn:Ee. intros [= <- <-].
    split; [done|]. intros o Ho. apply map_err_ok in Ho as ->. by apply evaluate_permitted in Ee as [? _]. }
  apply st_bind_inv in Hx as [(e & [Hk _]%Hask & _)|(o & s1 & [Hk Ho]%Hask & Hx)]; [by left|].
  destruct o as [| |o]; try (injection Hx as _ <-; by left).
  apply forward_and_receive_sent in Hx as [Hx|Hx]; [left; congruence|right].
  split; [congruence|]. symmetry in Ht. exists params', cp', treq.
  destruct (build_tool_request_names _ _ _ _ Ht). split_and!; try done. by eapply Ho.
Qed.

(** The messages of a client that may reach the server: requests, where one that asks for
    a tool call was allowed in the surroundings of some message, and notifications,
    whatever their method.  Never responses or errors. *)
Inductive vetted (envs : nat -> MsgEnv) : JsonRpcMessage -> Prop :=
| vetted_call k req :
    rq_method req = "tools/call" -> allowed_call (envs k) req -> vetted envs (Msg_Request req)
| vetted_other req : rq_method req <> "tools/call" -> vetted envs (Msg_Request req)
| unvetted_notification notif : vetted envs (Msg_Notification notif).

(** What handling one message of the client hands to the server. *)
Lemma handle_sent envs k msg s r s' :
  handle (envs k) msg s = (r, s') ->
  px_sent s' = px_sent s \/ (px_sent s' = px_sent s ++ [msg] /\ vetted envs msg).
Proof.
  destruct msg as [req|notif|resp|err]; simpl; [|..].
  - intros Hh. unfold handle_request in Hh.
    destruct (String.eqb_spec (rq_method req) "tools/call") as [Hm|Hm].
    + rewrite Hm in Hh. simpl in Hh. apply handle_tool_call_sent in Hh as [Hs|[Hs Ha]]; [by left|right].
      split; [done|]. by eapply vetted_call.
    + assert (Hf : forwards (Msg_Request req) s s').
      { destruct (String.eqb _ "initialize"); [|destruct (String.eqb _ "ping");
          [|destruct (String.eqb _ "tools/list")]].
        - eapply exchange_sent; [|exact Hh]. by intros ? ? ? ? [= _ <-].
        - by eapply forward_and_receive_sent.
        - eapply exchange_sent; [|exact Hh]. by intros ? ? ? ? [= _ <-].
        - by eapply forward_and_receive_sent. }
      destruct Hf as [Hf|Hf]; [by left|right]. split; [done|by apply vetted_other].
  - intros Hx. enough (forwards (Msg_Notification notif) s s') as [Hf|Hf];
      [by left|right; split; [done|constructor]|].
    apply st_bind_inv in Hx as [(e & Hs%server_send_sent & _)|(v & s1 & Hs%server_send_sent & [= _ <-])]; done.
  - intros [= _ <-]. by left.
  - intros [= _ <-]. by left.
Qed.

(** The messages a client's lines hold, as successive receptions find them. *)
Fixpoint client_messages (fuel : nat) (client : LineStream) : list JsonRpcMessage :=
  match fuel with
  | O => []
  | S fuel' =>
      match receive client with
      | (Ok msg, rest) => msg :: client_messages fuel' rest
      | (Err _, _) => []
      end
  end.

Lemma run_sent fuel envs client n writes s out r s' :
  run fuel envs n writes client s = Some (out, r, s') ->
  exists fwd, px_sent s' = px_sent s ++ fwd /\ fwd `sublist_of` client_messages fuel client /\
    Forall (vetted envs) fwd.
Proof.
  revert client n writes s out. induction fuel as [|fuel IH]; intros client n writes s out; [done|].
  simpl. destruct (receive client) as [[msg|e] rest];
    [|intros [= _ _ <-]; exists []; by rewrite app_nil_r].
  destruct (handle (envs n) msg s) as [v s1] eqn:Hh. apply (handle_sent envs) in Hh.
  assert (Hfirst : exists f1, px_sent s1 = px_sent s ++ f1 /\ f1 `sublist_of` [msg] /\
                     Forall (vetted envs) f1).
  { destruct Hh as [Hs|[Hs Ha]]; [exists []; rewrite app_nil_r; split_and!; [done|apply sublist_nil_l|done]|].
    exists [msg]. split_and!; [done..|]. by apply Forall_singleton. }
  destruct Hfirst as (f1 & Hf1 & Hsub & Ha1).
  assert (Hstop : forall l, f1 `sublist_of` msg :: l)
    by (intros l; etrans; [exact Hsub|]; apply sublist_skip, sublist_nil_l).
  destruct v as [resp|e]; [|intros [= _ _ <-]; by exists f1]. cbv zeta.
  set (w' := match resp with Some _ => tail writes | None => writes end).
  destruct (match resp with Some _ => send_raw writes | None => Ok tt end);
    [|intros [= _ _ <-]; by exists f1].
  assert (Hgo : match run fuel envs (S n) w' rest s1 with
                | Some (texts, r, s2) =>
                    Some ((match resp with Some text => [text] | None => [] end) ++ texts, r, s2)
                | None => None
                end = Some (out, r, s') ->
    exists fwd, px_sent s' = px_sent s ++ fwd /\ fwd `sublist_of` msg :: client_messages fuel rest /\
      Forall (vetted envs) fwd).
  { destruct (run fuel envs (S n) w' rest s1) as [[[texts r2] s2]|] eqn:Er; [|done].
    intros [= _ <- <-]. destruct (IH _ _ _ _ _ Er) as (f2 & Hf2 & Hs2 & Ha2). exists (f1 ++ f2).
    rewrite Hf2, Hf1, app_assoc. split_and!; [done| |by apply Forall_app].
    change (msg :: client_messages fuel rest) with ([msg] ++ client_messages fuel rest).
    by apply sublist_app. }
  destruct msg; try exact Hgo; intros [= _ _ <-]; by exists f1.
Qed.

(** The proxy passes on what the client sent and nothing else, and no tool-call request
    that the policies do not allow; notifications it passes on unevaluated.  A run ends within one round per line of the client and
    one more; what it has handed to the server is a subsequence of the messages of the
    client, unchanged and in order, and every request to call a tool among them was
    evaluated as an invocation of that very tool and allowed by the policies. *)
Theorem mcp_tool_calls_allowed envs client n writes s :
  exists out r s' fwd, run (S (length client)) envs n writes client s = Some (out, r, s') /\
    px_sent s' = px_sent s ++ fwd /\
    fwd `sublist_of` client_messages (S (length client)) client /\ Forall (vetted envs) fwd.
Proof.
  destruct (run_proxy_terminates envs client n writes s (S (length client))) as [[[out r] s'] Hr]; [lia|].
  destruct (run_sent _ _ _ _ _ _ _ _ _ Hr) as (fwd & Hf). by exists out, r, s', fwd.
Qed.

(** A notification is forwarded without any check, also one with the method
    tools/call: for every runtime and policies, if it can be written it reaches the
    server, the runtime is not asked, no decision is recorded and the client gets no
    error.  A server that acts on such a notification runs a tool the policies may
    deny. *)
Theorem notification_not_evaluated env notif s text :
  nt_method notif = "tools/call" ->
  serialize_message (Msg_Notification notif) = Ok text -> hd None (px_writes s) = None ->
  exists s', handle env (Msg_Notification notif) s = (Ok None, s') /\
    px_sent s' = px_sent s ++ [Msg_Notification notif] /\ px_stores s' = px_stores s.
Proof.
  intros _ Hs Hw. unfold handle_message, handle_notification, server_send, st_bind. rewrite Hs.
  destruct (px_writes s) as [|[e|] ws]; [|done|]; eexists; (split; [reflexivity|]); done.
Qed.

(** A tool call without usable parameters ends the proxy: the error meant for the client
    becomes the result of the run. *)
Lemma bad_params_end_proxy envs n writes client rest req s :
  receive client = (Ok (Msg_Request req), rest) -> rq_method req = "tools/call" ->
  rq_params req = None ->
  run (S (length client)) envs n writes client s
  = Some ([], Err (make_error (Some (rq_id req)) INVALID_PARAMS "missing params"), s).
Proof.
  intros Hr Hm Hp. simpl. rewrite Hr. unfold handle_message, handle_request. rewrite Hm. simpl.
  unfold handle_tool_call, st_bind, st_lift. by rewrite Hp.
Qed.

End Proxy.

(** ** How a run ends *)

Section Proxy.
Context {JT : JsonText} {SH : Sha256} {HX : HexLib} {AJ : AuditJson} {CH : Rfc3339}.
Context {IE : IdsJsonError} {RJ : RequestJson} {GL : GlobLib} {UL : UnicodeLower} {RD : ResourceDebug}.
Variable config : McpProxyConfig.
Variable rt : KavachRuntime.
Variable redact_text : string -> string.

(** A run never ends well: the message that would end the loop is refused before, and a
    client that closes its end is an error. *)
Lemma run_proxy_fails fuel envs n writes client s out r s' :
  run_proxy config rt redact_text fuel envs n writes client s = Some (out, r, s') -> is_ok r = false.
Proof.
  revert client n writes s out. induction fuel as [|fuel IH]; intros client n writes s out; [done|].
  simpl. destruct (receive client) as [[msg|e] rest]; [|by intros [= _ <- _]].
  destruct msg as [req|notif|resp|err]; [..|by intros [= _ <- _]|by intros [= _ <- _]].
  all: destruct (handle_message config rt redact_text (envs n) _ s) as [[answer|e] s1];
    [|by intros [= _ <- _]].
  all: cbv zeta; destruct (match answer with Some _ => send_raw writes | None => Ok tt end);
    [|by intros [= _ <- _]].
  all: destruct (run_proxy config rt redact_text fuel envs (S n) _ rest s1) as [[[texts r2] s2]|] eqn:E;
    [|done]; intros [= _ <- <-]; by eapply IH.
Qed.

End Proxy.
