(* ===== verification/DashEvent.v ===== *)
(** * Events of the dashboard

    crates/kavach-dashboard/src/event.rs: the common shape of the events, read from the
    lines of the decision feed that the policy commands write ([CliPolicy]) and from the
    records of the audit log. *)

From stdpp Require Import base tactics list strings.
From Stdlib Require Import ZArith Lia Ascii.
From S2P Require Import Prelude RustStr Json AuditModel ApprovalModel CliPolicy.

Open Scope Z_scope.

(** [FeedEvent]. *)
Record FeedEvent := {
  fe_source : string;
  fe_effect : string;
  fe_reason : string;
  fe_explanation : string;
  fe_matched_rule_ids : list string;
  fe_request_id : string;
  fe_at_secs : Z;
  fe_title : string;
  fe_executable : option string;
  fe_trace : option Value;
}.

(** [Value::as_u64]. *)
Definition as_u64 (v : Value) : option Z :=
  match v with V_Int n => if (0 <=? n) && (n <=? U64_MAX) then Some n else None | _ => None end.

(** [filter_map(Value::as_str)]. *)
Definition as_strs (l : list Value) : list string := omap as_str l.

(** [value.get(k).and_then(Value::as_str)]. *)
Definition get_str (k : string) (v : Value) : option string := value_get k v ≫= as_str.
Definition get_strs (k : string) (v : Value) : option (list string) :=
  option_map as_strs (value_get k v ≫= as_array).

(** [quote_word]: the same text as the command line's [shell_quote]. *)
Definition quote_word (word : string) : string :=
  if is_empty word || any_byte needs_quotes word then "'" +:+ escape_quotes word +:+ "'" else word.

(** [resource_title]. *)
Definition resource_title (resource : Value) : string * option string :=
  let kind := default "unknown" (get_str "kind" resource) in
  if String.eqb kind "command" then
    let exe := default "?" (get_str "executable" resource) in
    let args := map quote_word (default [] (get_strs "arguments" resource)) in
    let title := match args with [] => exe | _ => exe +:+ " " +:+ join " " args end in
    (title, Some exe)
  else
    let or_else o p := match o with Some v => Some v | None => p end in
    let path := or_else (value_get "path" resource)
                  (or_else (value_get "identifier" resource) (value_get "host" resource)) in
    (kind +:+ " " +:+ default "?" (path ≫= as_str), None).

Section Events.
Context {UL : UnicodeLower}.

(** [normalize_effect]. *)
Definition normalize_effect (text : string) : string :=
  let lower := to_lowercase text in
  if contains "deny" lower || contains "denied" lower then "Deny"
  else if contains "approv" lower || contains "ask" lower then "RequireApproval"
  else if contains "allow" lower then "Allow"
  else if is_empty text then "Unknown"
  else text.

(** [feed_event_from_cli_line]. *)
Definition feed_event_from_cli_line `{JsonText} (text : string) : option FeedEvent :=
  match json_from_str text with
  | Err _ => None
  | Ok value =>
      let resource := default V_Null (value_get "resource" value) in
      let '(title, executable) := resource_title resource in
      let str k := default "" (get_str k value) in
      Some {| fe_source := "cli";
              fe_effect := normalize_effect (str "effect");
              fe_reason := str "reason";
              fe_explanation := str "explanation";
              fe_matched_rule_ids := default [] (get_strs "matched_rule_ids" value);
              fe_request_id := str "request_id";
              fe_at_secs := default 0 (value_get "evaluated_at_secs" value ≫= as_u64);
              fe_title := title;
              fe_executable := executable;
              fe_trace := match value_get "trace" value with
                          | Some V_Null | None => None
                          | Some t => Some t
                          end |}
  end.

(** [parse_audit_timestamp]. *)
Definition parse_audit_timestamp `{Rfc3339} (timestamp : string) : Z :=
  match parse_rfc3339 timestamp with Ok t => Z.max (t / 1000000000) 0 | Err _ => 0 end.

(** [feed_event_from_audit]. *)
Definition feed_event_from_audit `{Rfc3339} (record : AuditEventRecord) : FeedEvent :=
  let or_empty o := default "" o in
  let summary := or_empty (ev_resource_summary record) in
  let title := if is_empty summary then or_empty (ev_operation record) else summary in
  {| fe_source := "audit";
     fe_effect := normalize_effect (or_empty (ev_decision record));
     fe_reason := or_empty (ev_reason_code record);
     fe_explanation := trim (category_display (ev_category record) +:+ " " +:+ summary);
     fe_matched_rule_ids := ev_matched_rule_ids record;
     fe_request_id := or_empty (ev_request_id record);
     fe_at_secs := parse_audit_timestamp (ev_timestamp record);
     fe_title := title;
     fe_executable := None;
     fe_trace := None |}.

(** [FeedEvent::matches_query]. *)
Definition matches_query (event : FeedEvent) (query : string) : bool :=
  let q := to_lowercase query in
  contains q (to_lowercase (fe_title event))
  || contains q (to_lowercase (fe_explanation event))
  || contains q (to_lowercase (fe_effect event))
  || contains q (to_lowercase (fe_request_id event))
  || existsb (fun id => contains q (to_lowercase id)) (fe_matched_rule_ids event).

End Events.

(** The derived [Serialize]. *)
Definition FeedEvent_to_value (e : FeedEvent) : Value :=
  V_Object
    [("source", V_String (fe_source e));
     ("effect", V_String (fe_effect e));
     ("reason", V_String (fe_reason e));
     ("explanation", V_String (fe_explanation e));
     ("matched_rule_ids", strings (fe_matched_rule_ids e));
     ("request_id", V_String (fe_request_id e));
     ("at_secs", V_Int (fe_at_secs e));
     ("title", V_String (fe_title e));
     ("executable", opt_string (fe_executable e));
     ("trace", default V_Null (fe_trace e))].
