(* ===== verification/Dashboard.v ===== *)
(** * The dashboard: live feed, history and policy summary

    crates/kavach-dashboard/src/feed.rs, routes.rs and main.rs.  What the files and the
    database yield at each poll is an argument, so that the polls can see any sequence
    of states of the file. *)

From stdpp Require Import base tactics list strings.
From Stdlib Require Import ZArith Lia Ascii.
From S2P Require Import Prelude RustStr Utf8 BTree Json CoreIds PolicyModel PolicyEngine PolicyLoad.
From S2P Require Import AuditModel ApprovalModel ConfigLoad CliPolicy DashEvent.
Import ConfigLoad.Config.

Open Scope Z_scope.

(** [str::lines]: the pieces that end with a line feed, without it and a carriage return
    before it, and what is left after the last one. *)
Definition strip_cr (s : string) : string :=
  match strip_suffix (String (byte_of 13) "") s with Some r => r | None => s end.

Fixpoint end_lines (pieces : list string) : list string :=
  match pieces with
  | [] => []
  | [rest] => if is_empty rest then [] else [rest]
  | piece :: more => strip_cr piece :: end_lines more
  end.

Definition str_lines (s : string) : list string := end_lines (split_on is_lf s).

(** ** The feed file (feed.rs) *)

Definition FEED_STARTUP_TAIL_LINES : nat := 200.

Section Feed.
Context {UL : UnicodeLower} {JT : JsonText}.

(** [parse_feed_line]. *)
Definition parse_feed_line (text : string) : option FeedEvent :=
  let text := trim text in
  if is_empty text then None else feed_event_from_cli_line text.

(** [read_to_string(..).unwrap_or_default()]: the text, if the file could be read and is
    UTF-8. *)
Definition text_or_empty (bytes : option string) : string :=
  match bytes with Some c => if utf8 c then c else "" | None => "" end.

(** [read_tail]. *)
Definition read_tail (bytes : option string) (max_lines : nat) : list FeedEvent :=
  reverse (omap parse_feed_line (take max_lines (reverse (str_lines (text_or_empty bytes))))).

(** [read_all]. *)
Definition read_all (bytes : option string) : list FeedEvent :=
  omap parse_feed_line (str_lines (text_or_empty bytes)).

(** What one call of [read_appended] meets: whether the file opens, its length, whether
    seeking works, its bytes when it is read, and when it is read again from the start. *)
Record FeedPoll := {
  fp_open : bool;
  fp_len : option Z;
  fp_seek : bool;
  fp_bytes : option string;
  fp_again : option string;
}.

(** [read_appended]. *)
Definition read_appended (p : FeedPoll) (offset : Z) : Z * list FeedEvent :=
  if negb (fp_open p) then (offset, [])
  else
    let len := default offset (fp_len p) in
    if len <? offset then (len, read_all (fp_again p))
    else if len =? offset then (offset, [])
    else if negb (fp_seek p) then (offset, [])
    else
      match fp_bytes p with
      | None => (offset, [])
      | Some bytes =>
          let text := utf8_lossy (str_drop (Z.to_nat offset) bytes) in
          (len, omap parse_feed_line (str_lines text))
      end.

(** The loop of [spawn_feed_tailer] over the polls of a run: what is published. *)
Fixpoint tail_loop (offset : Z) (polls : list FeedPoll) : list FeedEvent :=
  match polls with
  | [] => []
  | p :: rest => let '(next, events) := read_appended p offset in events ++ tail_loop next rest
  end.

(** [initial_offset]. *)
Definition initial_offset (len : option Z) : Z := default 0 len.

(** [spawn_feed_tailer]: the length of the file at the start, its bytes for the recent
    lines, and the polls. *)
Definition feed_tailer (len : option Z) (bytes : option string) (polls : list FeedPoll)
  : list FeedEvent :=
  read_tail bytes FEED_STARTUP_TAIL_LINES ++ tail_loop (initial_offset len) polls.

(** [FeedHub::publish]: the text that is sent, if any. *)
Definition publish (event : FeedEvent) : option string :=
  match json_to_string (FeedEvent_to_value event) with Ok text => Some text | Err _ => None end.

(** The task of [events]: it forwards what it receives up to the first error, which is
    also what a receiver gets that fell more than the buffer behind. *)
Inductive RecvError := Lagged (missed : Z) | Closed.

Fixpoint forward_events (received : list (result RecvError string)) : list string :=
  match received with
  | Ok text :: rest => text :: forward_events rest
  | _ => []
  end.

End Feed.

(** ** The audit database (feed.rs) *)

Section Audit.
Context {UL : UnicodeLower} {CH : Rfc3339} {AJ : AuditJson}.

(** What one poll of the database meets. *)
Record AuditPoll := {
  po_open : result AuditError AuditTable;
  po_count_fault : option string;
  po_query_fault : option string;
}.

(** [u64::saturating_add] and [saturating_sub]. *)
Definition saturating_add (a b : Z) : Z := Z.min (a + b) U64_MAX.
Definition saturating_sub (a b : Z) : Z := Z.max (a - b) 0.

Definition unwrap_or {E A} (d : A) (r : result E A) : A := match r with Ok a => a | Err _ => d end.

(** [poll_audit_once]. *)
Definition poll_start (p : AuditPoll) (t : AuditTable) (after : option Z) : Z :=
  match after with
  | Some s => saturating_add s 1
  | None => saturating_sub (unwrap_or 0 (AuditStore_event_count (po_count_fault p) t)) 50
  end.

Definition poll_audit_once (p : AuditPoll) (after : option Z) : list (Z * FeedEvent) :=
  match po_open p with
  | Err _ => []
  | Ok t =>
      map (fun record => (ev_sequence record, feed_event_from_audit record))
        (unwrap_or [] (AuditStore_events_after_sequence (po_query_fault p) t (poll_start p t after) 100))
  end.

(** The loop of [spawn_audit_poller]: what is published, with the sequence numbers. *)
Definition seen_after (last_seen : option Z) (fresh : list (Z * FeedEvent)) : option Z :=
  match last fresh with Some (s, _) => Some s | None => last_seen end.

Fixpoint audit_poller (last_seen : option Z) (polls : list AuditPoll) : list (Z * FeedEvent) :=
  match polls with
  | [] => []
  | p :: rest =>
      let fresh := poll_audit_once p last_seen in
      fresh ++ audit_poller (seen_after last_seen fresh) rest
  end.

(** ** History (routes.rs) *)

(** [HistoryQuery]. *)
Record HistoryQuery := {
  hq_q : option string;
  hq_decision : option string;
  hq_executable : option string;
  hq_rule : option string;
  hq_limit : option Z;
}.

(** A filter that is given and not empty. *)
Definition when_given (o : option string) (test : string -> bool) : bool :=
  match o with Some s => is_empty s || test s | None => true end.

(** [history_matches]. *)
Definition history_matches (event : FeedEvent) (query : HistoryQuery) : bool :=
  when_given (hq_q query) (matches_query event)
  && when_given (hq_decision query) (fun d =>
       String.eqb (to_ascii_lowercase (fe_effect event)) (to_ascii_lowercase (trim d)))
  && when_given (hq_executable query) (fun exe =>
       contains (to_lowercase exe) (to_lowercase (default "" (fe_executable event))))
  && when_given (hq_rule query) (fun rule =>
       existsb (fun id => contains (to_lowercase rule) (to_lowercase id)) (fe_matched_rule_ids event)).

(** The events of the database that [read_history] considers. *)
Definition recent_audit (db : option AuditPoll) : list FeedEvent :=
  match db with
  | None => []
  | Some p =>
      match po_open p with
      | Err _ => []
      | Ok t =>
          match AuditStore_event_count (po_count_fault p) t with
          | Err _ => []
          | Ok count =>
              match AuditStore_events_after_sequence (po_query_fault p) t (saturating_sub count 500) 500 with
              | Ok records => map feed_event_from_audit records
              | Err _ => []
              end
          end
      end
  end.

Definition feed_events `{JsonText} (bytes : option string) : list FeedEvent :=
  omap feed_event_from_cli_line (str_lines (text_or_empty bytes)).

(** [sort_by_key(|e| Reverse(e.at_secs))]. *)
Definition newer (a b : FeedEvent) : bool := fe_at_secs b <=? fe_at_secs a.

(** [read_history]. *)
Definition read_history `{JsonText} (bytes : option string) (db : option AuditPoll)
    (query : HistoryQuery) (limit : Z) : list FeedEvent :=
  let events := feed_events bytes ++ recent_audit db in
  take (Z.to_nat limit)
    (List.filter (fun e => history_matches e query) (sort_by newer events)).

(** [history]. *)
Definition history_limit (query : HistoryQuery) : Z := Z.min (default 50 (hq_limit query)) 500.

Definition history `{JsonText} (bytes : option string) (db : option AuditPoll) (query : HistoryQuery)
  : Value :=
  let limit := history_limit query in
  let events := read_history bytes db query limit in
  json_object [("total", V_Int (Z.of_nat (length events))); ("limit", V_Int limit);
               ("events", V_Array (map FeedEvent_to_value events))].

End Audit.

(** ** Policy summary (routes.rs) *)

Section Summary.
Context {TL : TomlLib} {PF : PolicyFiles} {GL : GlobLib}.

Definition not_loaded (error : string) : Value :=
  json_object [("loaded", V_Bool false); ("error", V_String error)].

(** The set of the values of one list condition over the rules. *)
Definition collect_condition (f : RuleConditions -> option (list string)) (rules : list Rule) : list string :=
  bset_of_list (flat_map (fun r => default [] (f (rule_conditions r))) rules).

(** [summarize_policy]. *)
Definition summarize_policy (policy_path : string) : Value :=
  match load_policy_from_file policy_path with
  | Err e => not_loaded (PolicyLoadError_display e)
  | Ok policy =>
      match PolicyEngine_new [policy] with
      | Err e => not_loaded (PolicyValidationError_display e)
      | Ok engine =>
          let warnings := map (fun w => json_object [("rule_id", V_String (id_str (pw_rule_id w)));
                                                     ("message", V_String (pw_message w))])
                            (PolicyEngine_warnings engine) in
          json_object
            [("loaded", V_Bool true);
             ("id", V_String (id_str (policy_id policy)));
             ("name", V_String (policy_name policy));
             ("default_effect", V_String (DefaultEffect_debug (policy_default_effect policy)));
             ("rule_count", V_Int (Z.of_nat (length (policy_rules policy))));
             ("executables", strings (collect_condition executables (policy_rules policy)));
             ("path_globs", strings (collect_condition path_globs (policy_rules policy)));
             ("warnings", V_Array warnings)]
      end
  end.

(** [policy_summary]. *)
Definition policy_summary (policy_path : option string) : Value :=
  match policy_path with
  | None => not_loaded "no policy file configured (start with --policy)"
  | Some path => summarize_policy path
  end.

End Summary.

(** ** main.rs *)

(** [feed_path]. *)
Definition dashboard_feed_path `{ConfigSources} (feed : option string) : string :=
  match feed with
  | Some path => path
  | None =>
      match env_var "KAVACH_FEED_LOG" with
      | Env_Value v => if is_empty v then "kavach-decisions.jsonl" else v
      | _ => "kavach-decisions.jsonl"
      end
  end.

(** [Args] and [AppState]. *)
Record DashArgs := {
  da_feed : option string;
  da_database : option string;
  da_policy : option string;
  da_port : Z;
}.

Record AppState := {
  app_feed_path : string;
  app_database_path : option string;
  app_policy_path : option string;
}.

(** What [main] has set up and written when it ends or serves: the state of the routes,
    whether the database is polled, the two outputs, and the exit code if it has ended. *)
Record DashMain := {
  dm_state : AppState;
  dm_polls_audit : bool;
  dm_stdout : string;
  dm_stderr : string;
  dm_exit : option Z;
}.

(** [main]; the arguments are the failures of binding and of serving. *)
Definition dashboard_main `{ConfigSources} (args : DashArgs) (bind_fault serve_fault : option string)
  : DashMain :=
  let feed := dashboard_feed_path (da_feed args) in
  let state := {| app_feed_path := feed; app_database_path := da_database args;
                  app_policy_path := da_policy args |} in
  let polls := match da_database args with Some _ => true | None => false end in
  let addr := "127.0.0.1:" +:+ dec (da_port args) in
  match bind_fault with
  | Some e =>
      {| dm_state := state; dm_polls_audit := polls; dm_stdout := "";
         dm_stderr := "failed to bind " +:+ addr +:+ ": " +:+ e +:+ NEWLINE; dm_exit := Some 1 |}
  | None =>
      {| dm_state := state; dm_polls_audit := polls;
         dm_stdout := "kavach-dashboard listening on http://" +:+ addr +:+ NEWLINE;
         dm_stderr := match serve_fault with Some e => "server error: " +:+ e +:+ NEWLINE | None => "" end;
         dm_exit := match serve_fault with Some _ => Some 1 | None => None end |}
  end.
