(* ===== verification/DashProps.v ===== *)
(** * Properties of the dashboard

    The feed log that the policy commands write is read back as the decisions that were
    made; the tail of the file publishes each of them, a second time only where it is
    appended while the file is read; the history is the newest matching events.  The poller of the audit database loses events. *)

From stdpp Require Import base tactics list sets sorting strings.
From Stdlib Require Import ZArith Lia Ascii Permutation Sorting.Sorted.
From S2P Require Import Prelude RustStr Utf8 BTree Json CoreError CoreIds CorePath CoreResource CoreRequest.
From S2P Require Import CoreDecision PolicyModel PolicyEngine PolicyLoad AuditModel AuditChain ApprovalModel.
From S2P Require Import ConfigLoad CliServe CliPolicy DashEvent Dashboard.

Open Scope Z_scope.

(** ** Lines *)

Lemma split_lf_line a b :
  any_byte is_lf a = false -> split_on is_lf (line a +:+ b) = a :: split_on is_lf b.
Proof.
  intros Ha. unfold line, NEWLINE. rewrite append_assoc.
  change (String (byte_of 10) "" +:+ b) with (String (byte_of 10) b). by apply split_on_append.
Qed.

Lemma snoc_inj a b c d : a +:+ String c "" = b +:+ String d "" -> c = d.
Proof.
  revert b. induction a as [|x a IH]; intros [|y b]; cbn.
  - by intros [= ->].
  - destruct b; done.
  - destruct a; done.
  - intros [= -> E]. by apply (IH b).
Qed.

Lemma strip_cr_brace m : strip_cr (m +:+ "}") = m +:+ "}".
Proof.
  unfold strip_cr. destruct (strip_suffix _ _) as [r|] eqn:E; [|done].
  apply strip_suffix_Some, snoc_inj in E. done.
Qed.

(** A text of whole lines: the texts of the lines, none of which holds a line feed or ends
    with a carriage return. *)
Definition whole_line (t : string) : Prop := any_byte is_lf t = false /\ strip_cr t = t.

Definition file_of (texts : list string) : string := join "" (map line texts).

Lemma file_of_cons t ts : file_of (t :: ts) = line t +:+ file_of ts.
Proof. unfold file_of, join. destruct ts; simpl; [by rewrite append_nil_r|done]. Qed.

Lemma file_of_app a b : file_of (a ++ b) = file_of a +:+ file_of b.
Proof.
  induction a as [|t a IH]; [done|]. rewrite <- app_comm_cons, !file_of_cons, IH.
  by rewrite append_assoc.
Qed.

Lemma str_lines_file ts : Forall whole_line ts -> str_lines (file_of ts) = ts.
Proof.
  unfold str_lines. induction 1 as [|t ts [Hlf Hcr] Hts IH]; [done|].
  rewrite file_of_cons, split_lf_line by done.
  destruct (split_on is_lf (file_of ts)) as [|h rest] eqn:Es; [by destruct (split_on_nonempty is_lf (file_of ts)) as (? & ? & ?); congruence|].
  change (strip_cr t :: end_lines (h :: rest) = t :: ts). by rewrite Hcr, IH.
Qed.

Lemma Utf8_line t : Utf8 t -> Utf8 (line t).
Proof. intros Ht. apply Utf8_append; [done|]. by apply utf8_spec. Qed.

Lemma Utf8_file ts : Forall Utf8 ts -> Utf8 (file_of ts).
Proof.
  induction 1 as [|t ts Ht Hts IH]; [by apply utf8_spec|]. rewrite file_of_cons.
  apply Utf8_append; [by apply Utf8_line|done].
Qed.

(** ** From a decision to an event *)

Section FeedLine.
Context {UL : UnicodeLower} {JT : JsonText}.

(** The event that stands for a decision on a request. *)
Definition event_title (r : Resource) : string :=
  match r with
  | R_Command cmd => join " " (cmd_executable cmd :: map shell_quote (cmd_arguments cmd))
  | R_File p => "file " +:+ np_normalized p
  | R_Directory p => "directory " +:+ np_normalized p
  | R_NetworkEndpoint net => "network_endpoint " +:+ host_str (net_host net)
  | R_Secret i => "secret " +:+ i
  | R_ExternalTool i => "external_tool " +:+ i
  | R_Unknown => "unknown ?"
  end.

Definition decision_event (d : AuthorizationDecision) (q : ToolRequest) : FeedEvent :=
  {| fe_source := "cli";
     fe_effect := DecisionEffect_debug (ad_effect d);
     fe_reason := ReasonCode_debug (ad_reason d);
     fe_explanation := ad_explanation d;
     fe_matched_rule_ids := map id_str (ad_matched_rule_ids d);
     fe_request_id := id_str (ad_request_id d);
     fe_at_secs := Z.max 0 (ad_evaluated_at d) / 1000000000;
     fe_title := event_title (tr_resource q);
     fe_executable := match tr_resource q with R_Command cmd => Some (cmd_executable cmd) | _ => None end;
     fe_trace := option_map (fun t => trace_value (Some t)) (ad_trace d) |}.

Lemma as_strs_strings l : as_strs (map V_String l) = l.
Proof. unfold as_strs. induction l as [|x l IH]; [done|]. cbn. by f_equal. Qed.

Lemma resource_title_spec r :
  resource_title (resource_value r)
  = (event_title r, match r with R_Command cmd => Some (cmd_executable cmd) | _ => None end).
Proof.
  unfold resource_title, get_strs, get_str. destruct r as [p|p|[exe args]|net|i|i|];
    unfold resource_value; rewrite !json_object_get; cbn -[as_strs]; try done.
  rewrite as_strs_strings. by destruct args.
Qed.

Lemma effect_debug_normal e : normalize_effect (DecisionEffect_debug e) = DecisionEffect_debug e.
Proof. by destruct e. Qed.

(** Reading the value of a feed line gives the event of the decision. *)
Lemma feed_line_event d q t :
  json_from_str t = Ok (decision_feed_line d q) ->
  as_u64 (V_Int (Z.max 0 (ad_evaluated_at d) / 1000000000)) = Some (Z.max 0 (ad_evaluated_at d) / 1000000000) ->
  feed_event_from_cli_line t = Some (decision_event d q).
Proof.
  intros Ht Hsecs. unfold feed_event_from_cli_line, get_str, get_strs. rewrite Ht.
  unfold decision_feed_line. rewrite !json_object_get.
  cbn -[resource_value trace_value as_u64 resource_title Z.div Z.max normalize_effect as_strs].
  rewrite resource_title_spec, Hsecs, effect_debug_normal, as_strs_strings.
  unfold decision_event. by destruct (ad_trace d).
Qed.

(** ** White space around a line *)

Lemma trim_start_brace m : is_empty (trim_start (m +:+ "}")) = false.
Proof.
  induction m as [m IH] using (induction_ltof1 _ String.length). unfold ltof in IH.
  destruct m as [|b0 m]; [done|]. rewrite append_cons. cbn [trim_start].
  destruct (is_ws1 b0); [apply IH; simpl; lia|].
  destruct m as [|b1 m]; [change ("" +:+ "}") with "}"; cbv iota|rewrite append_cons].
  { assert (is_ws2 b0 "}" = false) as ->; [apply andb_false_r|done]. }
  destruct (is_ws2 b0 b1); [apply IH; simpl; lia|].
  destruct m as [|b2 m]; [change ("" +:+ "}") with "}"; cbv iota|rewrite append_cons].
  { assert (is_ws3 b0 b1 "}" = false) as ->; [|done]. unfold is_ws3.
    change (in_range 128 128 "}") with false. change (in_range 159 159 "}") with false.
    change (in_range 128 138 "}" || in_range 168 169 "}" || in_range 175 175 "}") with false.
    by rewrite !andb_false_r. }
  destruct (is_ws3 b0 b1 b2); [apply IH; simpl; lia|done].
Qed.

Lemma trim_end_brace m : trim_end (m +:+ "}") = m +:+ "}".
Proof.
  induction m as [|c m IH]; [done|]. rewrite append_cons. cbn [trim_end].
  pose proof (trim_start_brace (String c m)) as H. rewrite append_cons in H. by rewrite H, IH.
Qed.

Lemma trim_braces m : trim ("{" +:+ m +:+ "}") = "{" +:+ m +:+ "}".
Proof.
  unfold trim. replace (trim_start ("{" +:+ m +:+ "}")) with ("{" +:+ m +:+ "}").
  - rewrite <- append_assoc. apply trim_end_brace.
  - simpl. destruct (m +:+ "}") as [|b1 s]; [done|]. simpl. destruct s; done.
Qed.

(** ** A feed line is read as its decision *)

Lemma as_u64_secs d q :
  json_wf (decision_feed_line d q) = true ->
  as_u64 (V_Int (Z.max 0 (ad_evaluated_at d) / 1000000000)) = Some (Z.max 0 (ad_evaluated_at d) / 1000000000).
Proof.
  intros Hwf.
  assert (Hg : value_get "evaluated_at_secs" (decision_feed_line d q)
               = Some (V_Int (Z.max 0 (ad_evaluated_at d) / 1000000000))).
  { unfold decision_feed_line. by rewrite json_object_get. }
  unfold json_wf in Hwf. destruct (decision_feed_line d q) as [| | | | | |o]; try done.
  apply (json_wf_at_get 126 _ _ _ Hwf) in Hg. clear Hwf. rename Hg into Hwf.
  unfold json_wf_at in Hwf. unfold as_u64. apply andb_true_iff in Hwf as [_ Hn%Z.ltb_lt].
  rewrite (proj2 (Z.leb_le _ U64_MAX)) by (unfold U64_MAX; lia).
  replace (0 <=? _) with true; [done|]. symmetry. apply Z.leb_le, Z.div_pos; lia.
Qed.

(** The line that is appended for a decision, and the feed file after some decisions. *)
Definition decision_text (dq : AuthorizationDecision * ToolRequest) : string :=
  unwrap_or "" (json_to_string (decision_feed_line dq.1 dq.2)).

Definition feed_file (dqs : list (AuthorizationDecision * ToolRequest)) : string :=
  file_of (map decision_text dqs).

Definition dq_event (dq : AuthorizationDecision * ToolRequest) : FeedEvent := decision_event dq.1 dq.2.

Definition printable (dq : AuthorizationDecision * ToolRequest) : Prop :=
  json_wf (decision_feed_line dq.1 dq.2) = true.

Context {JL : JsonLaws}.

Lemma decision_text_spec dq : printable dq ->
  json_to_string (decision_feed_line dq.1 dq.2) = Ok (decision_text dq)
  /\ Utf8 (decision_text dq) /\ whole_line (decision_text dq)
  /\ parse_feed_line (decision_text dq) = Some (dq_event dq).
Proof.
  intros Hwf. destruct (json_round_trip _ Hwf) as (t & Ht & Hp & Hu & Hlf).
  unfold decision_text. rewrite Ht. cbn [unwrap_or].
  destruct (json_braces _ _ Ht) as [m ->]. split_and!; [done|done| |].
  - split; [done|]. rewrite <- append_assoc. apply strip_cr_brace.
  - unfold parse_feed_line. rewrite trim_braces. change (is_empty ("{" +:+ m +:+ "}")) with false.
    apply feed_line_event; [done|]. by eapply as_u64_secs.
Qed.

Lemma omap_cons_Some {A B} (f : A -> option B) x y (l : list A) :
  f x = Some y -> omap f (x :: l) = y :: omap f l.
Proof. intros H. cbn. by rewrite H. Qed.

Lemma feed_texts_good dqs : Forall printable dqs ->
  Forall whole_line (map decision_text dqs) /\ Forall Utf8 (map decision_text dqs)
  /\ omap parse_feed_line (map decision_text dqs) = map dq_event dqs.
Proof.
  induction 1 as [|dq dqs Hdq _ (IH1 & IH2 & IH3)]; [done|].
  destruct (decision_text_spec dq Hdq) as (_ & ? & ? & Hp). rewrite !map_cons.
  split_and!; [by constructor|by constructor|]. by rewrite omap_cons_Some with (1 := Hp), IH3.
Qed.

Lemma utf8_feed_file dqs : Forall printable dqs -> Utf8 (feed_file dqs).
Proof. intros (_ & Hu & _)%feed_texts_good. by apply Utf8_file. Qed.

Lemma lines_feed_file dqs : Forall printable dqs ->
  str_lines (feed_file dqs) = map decision_text dqs.
Proof. intros (Hw & _)%feed_texts_good. by apply str_lines_file. Qed.

Lemma feed_file_app a b : feed_file (a ++ b) = feed_file a +:+ feed_file b.
Proof. unfold feed_file. by rewrite map_app, file_of_app. Qed.

Lemma text_of_feed_file dqs : Forall printable dqs -> text_or_empty (Some (feed_file dqs)) = feed_file dqs.
Proof. intros H%utf8_feed_file. simpl. by apply utf8_spec in H as ->. Qed.

(** The start: the events of the last [n] lines, in order. *)
Lemma omap_reverse {A B} (f : A -> option B) (l : list A) : omap f (reverse l) = reverse (omap f l).
Proof.
  induction l as [|x l IH]; [done|]. rewrite reverse_cons, omap_app, IH.
  destruct (f x) as [y|] eqn:E.
  - by rewrite !(omap_cons_Some _ _ _ _ E), reverse_cons.
  - change (omap f [x]) with (match f x with Some y => [y] | None => [] end).
    change (omap f (x :: l)) with (match f x with Some y => y :: omap f l | None => omap f l end).
    by rewrite E, app_nil_r.
Qed.

Lemma read_tail_spec n dqs : Forall printable dqs ->
  read_tail (Some (feed_file dqs)) n = map dq_event (drop (length dqs - n) dqs).
Proof.
  intros H. unfold read_tail. rewrite text_of_feed_file, lines_feed_file by done.
  rewrite take_reverse, length_map, skipn_map, omap_reverse, reverse_involutive.
  by apply feed_texts_good, Forall_drop.
Qed.

(** ** The live feed *)

(** Nothing is read at a poll: the file does not open, or its length, the seek or the
    read fails. *)
Definition poll_fails (p : FeedPoll) : bool :=
  negb (fp_open p) || match fp_len p with None => true | Some _ => false end
  || negb (fp_seek p) || match fp_bytes p with None => true | Some _ => false end.

(** The polls of a run in which whole lines are only ever appended, at any moment, also
    between a poll's length and its read: [before] are the decisions up to the offset,
    [late] those that were already read beyond it, [added] the decisions that the polls
    read for the first time, and [twice] those that they read again. *)
Inductive appending (before late : list (AuthorizationDecision * ToolRequest))
  : list FeedPoll -> list (AuthorizationDecision * ToolRequest)
    -> list (AuthorizationDecision * ToolRequest) -> Prop :=
| appending_end : appending before late [] [] []
| appending_fails p polls new added twice :
    poll_fails p = true ->
    fp_len p = None \/ fp_len p = Some (len (feed_file (before ++ late ++ new))) ->
    appending before late polls added twice ->
    appending before late (p :: polls) added twice
| appending_idle p polls added twice :
    late = [] -> fp_len p = Some (len (feed_file before)) ->
    appending before late polls added twice ->
    appending before late (p :: polls) added twice
| appending_reads p polls new later added twice :
    fp_open p = true -> fp_seek p = true -> late ++ new <> [] ->
    fp_len p = Some (len (feed_file (before ++ late ++ new))) ->
    fp_bytes p = Some (feed_file (before ++ (late ++ new) ++ later)) ->
    appending (before ++ late ++ new) later polls added twice ->
    appending before late (p :: polls) (new ++ later ++ added) (late ++ twice).

Lemma drop_len a b : str_drop (Z.to_nat (len a)) (a +:+ b) = b.
Proof.
  unfold len. rewrite Nat2Z.id, drop_append_r by lia. by rewrite Nat.sub_diag, str_drop_0.
Qed.

(** A failed poll changes nothing. *)
Lemma poll_fails_nothing p o n :
  poll_fails p = true -> 0 <= n -> fp_len p = None \/ fp_len p = Some (o + n) ->
  read_appended p o = (o, []).
Proof.
  unfold poll_fails, read_appended. intros Hf Hn Hlen.
  destruct (fp_open p); simpl in *; [|done].
  destruct Hlen as [E|E]; rewrite E in *; simpl in *.
  - by rewrite Z.ltb_irrefl, Z.eqb_refl.
  - replace (o + n <? o) with false by (symmetry; apply Z.ltb_ge; lia).
    destruct (_ =? _); [done|]. destruct (fp_seek p); simpl in *; [|done]. by destruct (fp_bytes p).
Qed.

(** A poll that finds nothing new changes nothing. *)
Lemma read_appended_idle p o : fp_len p = Some o -> read_appended p o = (o, []).
Proof.
  intros E. unfold read_appended. rewrite E. simpl. rewrite Z.ltb_irrefl, Z.eqb_refl.
  by destruct (negb _).
Qed.

Lemma feed_file_pos dqs : dqs <> [] -> 0 < len (feed_file dqs).
Proof.
  destruct dqs as [|dq dqs]; [done|]. intros _. unfold feed_file.
  rewrite map_cons, file_of_cons. unfold line, NEWLINE. rewrite !len_append.
  pose proof (len_nonneg (decision_text dq)). pose proof (len_nonneg (file_of (map decision_text dqs))).
  change (len (String (byte_of 10) "")) with 1. lia.
Qed.

(** A poll that sees some more lines publishes the events of what it reads, and goes on
    from the length that it saw. *)
Lemma read_appended_new p before new later :
  Forall printable (new ++ later) ->
  fp_open p = true -> fp_seek p = true -> new <> [] ->
  fp_len p = Some (len (feed_file (before ++ new))) ->
  fp_bytes p = Some (feed_file (before ++ new ++ later)) ->
  read_appended p (len (feed_file before))
  = (len (feed_file (before ++ new)), map dq_event (new ++ later)).
Proof.
  intros Hp Ho Hs Hne Hl Hb. unfold read_appended. rewrite Ho, Hl, Hs, Hb. simpl.
  rewrite (feed_file_app before new), (feed_file_app before (new ++ later)), len_append, drop_len.
  pose proof (feed_file_pos new Hne).
  destruct (Z.ltb_spec (len (feed_file before) + len (feed_file new)) (len (feed_file before))); [lia|].
  destruct (Z.eqb_spec (len (feed_file before) + len (feed_file new)) (len (feed_file before))); [lia|].
  rewrite utf8_lossy_valid by by apply utf8_feed_file. rewrite lines_feed_file by done.
  f_equal. by apply feed_texts_good.
Qed.

Lemma tail_loop_appending before late polls added twice :
  appending before late polls added twice -> Forall printable late -> Forall printable added ->
  exists published,
    tail_loop (len (feed_file before)) polls = map dq_event published
    /\ added `sublist_of` published /\ published ≡ₚ added ++ twice
    /\ (twice = [] -> published = added).
Proof.
  induction 1 as [before late|before late p polls new added twice Hf Hl Hg IH
    |before late p polls added twice -> Hl Hg IH
    |before late p polls new later added twice Ho Hs Hne Hl Hb Hg IH];
    intros Hlate Hp; cbn [tail_loop].
  - by exists [].
  - rewrite (poll_fails_nothing p _ (len (feed_file (late ++ new)))); [by apply IH|done|apply len_nonneg|].
    by rewrite feed_file_app, len_append in Hl.
  - rewrite read_appended_idle by done. by apply IH.
  - apply Forall_app in Hp as [Hn [Hr Ha]%Forall_app].
    rewrite (read_appended_new p before (late ++ new) later) by (rewrite ?Forall_app; done).
    destruct (IH Hr Ha) as (pub & -> & Hsub & Hperm & Honce).
    exists (late ++ new ++ later ++ pub). split_and!.
    + by rewrite !map_app, <- !app_assoc.
    + by apply sublist_inserts_l, sublist_app, sublist_app.
    + rewrite Hperm. solve_Permutation.
    + intros [-> ->]%app_eq_nil. by rewrite Honce.
Qed.

(** What the policy commands append to the feed file is the line of the decision. *)
Definition fed (path : string) (c : Console) : string :=
  join "" (map snd (List.filter (fun e => String.eqb e.1 path) (con_feed c))).

Lemma join_nil_app (a b : list string) : join "" (a ++ b) = join "" a +:+ join "" b.
Proof.
  assert (Hc : forall x l, join "" (x :: l) = x +:+ join "" l).
  { intros x [|y l]; simpl; [by rewrite append_nil_r|done]. }
  induction a as [|x a IH]; [done|]. rewrite <- app_comm_cons, !Hc, IH. by rewrite append_assoc.
Qed.

Lemma append_feed_log_file env path d q c :
  printable (d, q) -> cl_feed_write env = None ->
  (append_feed_log env path d q c).1 = Ok tt ->
  fed path (append_feed_log env path d q c).2 = fed path c +:+ feed_file [(d, q)].
Proof.
  intros (Ht & _)%decision_text_spec Hw. simpl in Ht. unfold append_feed_log, fed. rewrite Ht, Hw.
  destruct (cl_feed_open env); [done|]. simpl. intros _.
  rewrite List.filter_app, map_app, join_nil_app. f_equal. simpl. by rewrite String.eqb_refl.
Qed.

End FeedLine.

(** ** The audit database *)

Section AuditFeed.
Context {UL : UnicodeLower} {CH : Rfc3339} {AJ : AuditJson}.

Definition sequences_sorted (t : AuditTable) : Prop := StronglySorted (fun a b => row_sequence a < row_sequence b) t.

Lemma read_rows_sequences rows es :
  read_rows rows = Ok es -> map ev_sequence es = map row_sequence rows.
Proof.
  intros Hf%read_rows_ok. induction Hf as [|r e rows es Hr Hf IH]; [done|].
  apply row_to_event_fields in Hr as [Hs _]. simpl. by rewrite Hs, IH.
Qed.

Lemma events_after_sequences fault t after limit es :
  AuditStore_events_after_sequence fault t after limit = Ok es ->
  map ev_sequence es
  = map row_sequence (take (query_limit limit) (List.filter (fun r => after <? row_sequence r) t)).
Proof. unfold AuditStore_events_after_sequence, fail_if. destruct fault; [done|]. apply read_rows_sequences. Qed.

(** A poll publishes a run of the rows above its start. *)
Lemma poll_sequences p after :
  map fst (poll_audit_once p after) = []
  \/ exists t, po_open p = Ok t
     /\ map fst (poll_audit_once p after)
        = map row_sequence (take (query_limit 100) (List.filter (fun r => poll_start p t after <? row_sequence r) t)).
Proof.
  unfold poll_audit_once. destruct (po_open p) as [t|]; [|by left].
  rewrite map_map. cbn [fst].
  destruct (AuditStore_events_after_sequence _ _ _ _) as [es|] eqn:E; [|by left].
  right. exists t. split; [done|]. by apply events_after_sequences in E.
Qed.

Lemma poll_above p m :
  Forall (fun n => saturating_add m 1 < n) (map fst (poll_audit_once p (Some m))).
Proof.
  destruct (poll_sequences p (Some m)) as [->|(t & _ & ->)]; [done|].
  rewrite Forall_map. apply Forall_take, List.Forall_forall. intros r [_ Hr]%List.filter_In.
  by apply Z.ltb_lt in Hr.
Qed.

Lemma seen_after_some m fresh :
  Forall (fun n => saturating_add m 1 < n) (map fst fresh) ->
  exists m', seen_after (Some m) fresh = Some m' /\ saturating_add m 1 <= saturating_add m' 1.
Proof.
  unfold seen_after. destruct (last fresh) as [[s e]|] eqn:El; [|by exists m].
  intros Hf. exists s. split; [done|]. apply last_Some in El as [l ->].
  rewrite map_app, Forall_app in Hf. destruct Hf as [_ Hf]. apply Forall_cons in Hf as [Hf _].
  unfold saturating_add in *. simpl in Hf. lia.
Qed.

Lemma audit_poller_above m polls :
  Forall (fun n => saturating_add m 1 < n) (map fst (audit_poller (Some m) polls)).
Proof.
  revert m. induction polls as [|p polls IH]; intros m; [done|]. cbn [audit_poller].
  rewrite map_app, Forall_app. split; [apply poll_above|].
  destruct (seen_after_some _ _ (poll_above p m)) as (m' & -> & Hle).
  eapply Forall_impl; [apply IH|]. intros n Hn. cbn in *. lia.
Qed.

(** The log is numbered from one, and the poll reads it. *)
Definition poll_reads (p : AuditPoll) (t : AuditTable) : Prop :=
  po_open p = Ok t /\ po_count_fault p = None /\ po_query_fault p = None
  /\ map row_sequence t = seqZ 1 (Z.of_nat (length t)) /\ is_ok (read_rows t) = true.

Lemma filter_none {A} (f : A -> bool) l : (forall x, x ∈ l -> f x = false) -> List.filter f l = [].
Proof.
  induction l as [|x l IH]; intros H; [done|]. simpl. rewrite (H x) by set_solver.
  apply IH. set_solver.
Qed.

Lemma filter_all {A} (f : A -> bool) l : (forall x, x ∈ l -> f x = true) -> List.filter f l = l.
Proof.
  induction l as [|x l IH]; intros H; [done|]. simpl. rewrite (H x) by set_solver.
  f_equal. apply IH. set_solver.
Qed.

Lemma filter_above_seqZ s a n :
  a <= s + 1 -> List.filter (fun i => s <? i) (seqZ a n) = seqZ (s + 1) (n - (s + 1 - a)).
Proof.
  intros Ha. destruct (Z.le_gt_cases n (s + 1 - a)) as [Hle|Hgt].
  - rewrite (seqZ_nil (s + 1)) by lia. apply filter_none. intros i Hi%elem_of_seqZ.
    apply Z.ltb_ge. lia.
  - replace n with ((s + 1 - a) + (n - (s + 1 - a))) at 1 by lia.
    rewrite seqZ_app, List.filter_app by lia. replace (a + (s + 1 - a)) with (s + 1) by lia.
    rewrite filter_none, filter_all; [done| |].
    + intros i Hi%elem_of_seqZ. apply Z.ltb_lt. lia.
    + intros i Hi%elem_of_seqZ. apply Z.ltb_ge. lia.
Qed.

Lemma map_filter_above s t :
  map row_sequence (List.filter (fun r => s <? row_sequence r) t)
  = List.filter (fun i => s <? i) (map row_sequence t).
Proof. induction t as [|r t IH]; [done|]. simpl. destruct (s <? row_sequence r); simpl; by rewrite IH. Qed.

Lemma take_seqZ k a n : 0 <= k -> take (Z.to_nat k) (seqZ a n) = seqZ a (Z.min k n).
Proof.
  intros Hk. destruct (Z.le_gt_cases n k) as [Hle|Hgt].
  - rewrite Z.min_r, take_ge by (rewrite ?length_seqZ; lia). done.
  - rewrite Z.min_l by lia. replace n with (k + (n - k)) by lia. rewrite seqZ_app by lia.
    apply take_app_length'. rewrite length_seqZ. lia.
Qed.

Lemma read_rows_part t (f : AuditRow -> bool) k :
  is_ok (read_rows t) = true -> exists es, read_rows (take k (List.filter f t)) = Ok es.
Proof.
  destruct (read_rows t) as [es|] eqn:E; [|done]. intros _. apply read_rows_ok in E.
  assert (Hf : exists es', Forall2 (fun r e => row_to_event r = Some e) (List.filter f t) es').
  { induction E as [|r e t es Hr _ [es' IH]]; [by exists []|]. simpl.
    destruct (f r); [exists (e :: es'); by constructor|by exists es']. }
  destruct Hf as [es' Hf]. exists (take k es'). apply read_rows_ok. by apply Forall2_take.
Qed.

(** What a poll of a log of [n] events publishes: at most a hundred, from the second
    after the last one seen, or the newest fifty. *)
Lemma poll_exact p t after :
  poll_reads p t -> 0 <= poll_start p t after ->
  map fst (poll_audit_once p after)
  = seqZ (poll_start p t after + 1) (Z.min 100 (Z.of_nat (length t) - poll_start p t after)).
Proof.
  intros (Ho & Hc & Hq & Hs & Hr) H0. unfold poll_audit_once. rewrite Ho, Hq, map_map. cbn [fst].
  destruct (read_rows_part t (fun r => poll_start p t after <? row_sequence r) (query_limit 100) Hr) as [es He].
  unfold AuditStore_events_after_sequence, fail_if. rewrite He. cbn [unwrap_or].
  transitivity (map ev_sequence es); [done|]. rewrite (read_rows_sequences _ _ He), <- firstn_map, map_filter_above, Hs, filter_above_seqZ by lia.
  change (query_limit 100) with (Z.to_nat 100). rewrite take_seqZ by lia. do 2 f_equal. lia.
Qed.

(** Ordering: with logs numbered upwards, the poller publishes in the order of the log
    and nothing twice. *)
Definition poll_ordered (p : AuditPoll) : Prop :=
  forall t, po_open p = Ok t ->
    StronglySorted Z.lt (map row_sequence t) /\ Forall (fun n => n < U64_MAX) (map row_sequence t).

Lemma StronglySorted_sublist (l k : list Z) :
  l `sublist_of` k -> StronglySorted Z.lt k -> StronglySorted Z.lt l.
Proof.
  induction 1 as [|x l k Hs IH|x l k Hs IH]; intros Hk; [done| |].
  - apply StronglySorted_inv in Hk as [Hk Hx]. constructor; [by apply IH|].
    rewrite List.Forall_forall in *. intros y Hy. apply Hx, list_elem_of_In.
    eapply elem_of_sublist; [|exact Hs]. by apply list_elem_of_In.
  - apply StronglySorted_inv in Hk as [Hk _]. by apply IH.
Qed.

Lemma taken_sublist k (f : AuditRow -> bool) t :
  map row_sequence (take k (List.filter f t)) `sublist_of` map row_sequence t.
Proof.
  rewrite <- firstn_map. etrans; [apply sublist_take|].
  induction t as [|r t IH]; [done|]. simpl.
  destruct (f r); simpl; [by apply sublist_skip|by apply sublist_cons].
Qed.

Lemma poll_ordered_fresh p after :
  poll_ordered p ->
  StronglySorted Z.lt (map fst (poll_audit_once p after))
  /\ Forall (fun n => n < U64_MAX) (map fst (poll_audit_once p after)).
Proof.
  intros Hp. destruct (poll_sequences p after) as [->|(t & Ht & ->)]; [split; constructor|].
  destruct (Hp t Ht) as [Hs Hb]. split; [eapply StronglySorted_sublist; [apply taken_sublist|done]|].
  rewrite List.Forall_forall in *. intros n Hn. apply Hb, list_elem_of_In.
  eapply elem_of_sublist; [by apply list_elem_of_In|apply taken_sublist].
Qed.

Lemma sorted_below_last (l : list Z) m : StronglySorted Z.lt (l ++ [m]) -> Forall (fun n => n <= m) (l ++ [m]).
Proof.
  intros H. apply Forall_app. split; [|by repeat constructor]. apply Forall_forall. intros x Hx.
  assert (x < m); [|lia]. eapply (StronglySorted_app_1_elem_of _ l [m]); [done|done|set_solver].
Qed.

Lemma audit_poller_sorted last_seen polls :
  Forall poll_ordered polls -> StronglySorted Z.lt (map fst (audit_poller last_seen polls)).
Proof.
  intros Hp. revert last_seen. induction Hp as [|p polls Hp Hps IH]; intros ls; [constructor|].
  cbn [audit_poller]. rewrite map_app. destruct (poll_ordered_fresh p ls Hp) as [Hs Hb].
  set (fresh := poll_audit_once p ls) in *. clearbody fresh.
  destruct fresh as [|[m e] fresh _] using rev_ind; [apply IH|].
  unfold seen_after. rewrite last_snoc. apply StronglySorted_app_2; [|done|apply IH].
  intros x y Hx Hy. rewrite map_app in Hs, Hb, Hx. simpl in *.
  pose proof (sorted_below_last _ _ Hs) as Hle. apply Forall_app in Hb as [_ Hm].
  apply Forall_cons in Hm as [Hm _].
  pose proof (audit_poller_above m polls) as Ha. rewrite Forall_forall in Hle, Ha.
  specialize (Hle _ Hx). specialize (Ha _ Hy). unfold saturating_add in Ha. simpl in *. lia.
Qed.

(** ** History *)

Context {JT : JsonText}.

(** The events that match, of those that are considered. *)
Definition matching (bytes : option string) (db : option AuditPoll) (query : HistoryQuery) : list FeedEvent :=
  List.filter (fun e => history_matches e query) (feed_events bytes ++ recent_audit db).

Lemma filter_sorted {A} (R : A -> A -> Prop) (f : A -> bool) l :
  StronglySorted R l -> StronglySorted R (List.filter f l).
Proof.
  induction 1 as [|x l Hs IH Hx]; [constructor|]. simpl. destruct (f x); [|done].
  constructor; [done|]. rewrite List.Forall_forall in *. intros y [Hy _]%List.filter_In. by apply Hx.
Qed.

Lemma filter_perm {A} (f : A -> bool) l k : l ≡ₚ k -> List.filter f l ≡ₚ List.filter f k.
Proof.
  induction 1 as [|x l k _ IH|x y l|l1 l2 l3 _ IH1 _ IH2]; [done| | |by rewrite IH1].
  - simpl. destruct (f x); [by constructor|done].
  - simpl. destruct (f x), (f y); try done. apply Permutation_swap.
Qed.

Lemma newer_sorted (l : list FeedEvent) :
  StronglySorted (fun a b => fe_at_secs b <= fe_at_secs a) (sort_by newer l).
Proof.
  assert (Hs : StronglySorted (fun a b => newer a b = true) (sort_by newer l)).
  { apply sort_by_sorted; unfold newer; intros; repeat match goal with
      | H : (_ <=? _) = true |- _ => apply Z.leb_le in H
      | H : (_ <=? _) = false |- _ => apply Z.leb_gt in H end; try apply Z.leb_le; lia. }
  induction Hs as [|x l' _ IH Hx]; constructor; [done|].
  eapply Forall_impl; [exact Hx|]. intros y Hy. by apply Z.leb_le.
Qed.

(** The answer is the newest matching events, newest first. *)
Lemma read_history_spec bytes db query limit :
  exists rest,
    read_history bytes db query limit ++ rest ≡ₚ matching bytes db query
    /\ StronglySorted (fun a b => fe_at_secs b <= fe_at_secs a) (read_history bytes db query limit ++ rest)
    /\ (rest = [] \/ length (read_history bytes db query limit) = Z.to_nat limit).
Proof.
  unfold read_history.
  set (found := List.filter _ (sort_by newer _)). exists (drop (Z.to_nat limit) found).
  rewrite firstn_skipn. split_and!.
  - apply filter_perm, sort_by_perm.
  - apply filter_sorted, newer_sorted.
  - rewrite length_take. destruct (Nat.le_gt_cases (length found) (Z.to_nat limit)).
    + left. by apply drop_ge.
    + right. lia.
Qed.

(** No event has an effect that reads [require_approval]. *)
Lemma is_ascii_lower s : is_ascii (to_ascii_lowercase s) = is_ascii s.
Proof.
  unfold is_ascii, to_ascii_lowercase. induction s as [|c s IH]; [done|]. simpl. rewrite IH. f_equal.
  unfold byte_lower. destruct (is_ascii_uppercase c) eqn:E; [|done]. revert E. clear.
  by destruct c as [[] [] [] [] [] [] [] []].
Qed.

Lemma not_snake_effect text :
  to_ascii_lowercase (normalize_effect text) <> "require_approval".
Proof.
  unfold normalize_effect. destruct (_ || _); [done|]. destruct (_ || _) eqn:E; [done|].
  destruct (contains "allow" _); [done|]. destruct (is_empty text); [done|]. intros H.
  assert (Ha : is_ascii text = true) by by rewrite <- is_ascii_lower, H.
  unfold to_lowercase in E. rewrite Ha, H in E. done.
Qed.

Lemma normalized_events bytes db e :
  e ∈ feed_events bytes ++ recent_audit db -> exists text, fe_effect e = normalize_effect text.
Proof.
  rewrite elem_of_app. unfold feed_events, recent_audit. intros [(t & _ & Ht)%list_elem_of_omap|He].
  - unfold feed_event_from_cli_line in Ht. destruct (json_from_str t) as [v|]; [|done].
    destruct (resource_title _). simplify_eq. by eexists.
  - destruct db as [p|]; [|set_solver]. destruct (po_open p); [|set_solver].
    destruct (AuditStore_event_count _ _); [|set_solver].
    destruct (AuditStore_events_after_sequence _ _ _ _) as [rs|]; [|set_solver].
    apply list_elem_of_In, in_map_iff in He as (r & <- & _). by eexists.
Qed.

Lemma snake_decision_matches_none bytes db query e :
  hq_decision query = Some "require_approval" -> e ∈ feed_events bytes ++ recent_audit db ->
  history_matches e query = false.
Proof.
  intros Hq (text & He)%normalized_events. unfold history_matches. rewrite Hq, He. cbn [when_given].
  destruct (String.eqb_spec (to_ascii_lowercase (normalize_effect text))
              (to_ascii_lowercase (trim "require_approval"))) as [E|]; [|by rewrite andb_false_r].
  by destruct (not_snake_effect text).
Qed.

End AuditFeed.

(** ** What the dashboard promises *)

(** (C13) The live feed: when the policy commands only append whole lines to the feed file,
    and the dashboard reads its length and then its lines at the start, the dashboard
    publishes the events of the last 200 decisions and then those of the decisions that
    its polls read, whatever polls fail: every later decision at least once, in order,
    and a second time exactly those in [twice], which were written after a poll (or the
    start) had taken the length of the file and before it read the lines.  Where there
    are none, each is published once. *)
Theorem live_feed `{UnicodeLower} `{JsonLaws} before late polls added twice :
  Forall printable before -> Forall printable late -> Forall printable added ->
  appending before late polls added twice ->
  exists published,
    feed_tailer (Some (len (feed_file before))) (Some (feed_file (before ++ late))) polls
    = map dq_event (drop (length (before ++ late) - FEED_STARTUP_TAIL_LINES) (before ++ late))
      ++ map dq_event published
    /\ added `sublist_of` published
    /\ published ≡ₚ added ++ twice
    /\ (twice = [] -> published = added).
Proof.
  intros Hb Hl Ha Hg. destruct (tail_loop_appending _ _ _ _ _ Hg Hl Ha) as (pub & Hpub & Hrest).
  exists pub. split; [|done]. unfold feed_tailer, initial_offset. simpl default.
  by rewrite read_tail_spec, Hpub by by apply Forall_app.
Qed.

(** The audit poller: the first poll of a log publishes its newest fifty events in
    order, and no later poll ever publishes the event that is appended next. *)
Theorem audit_feed_gap `{UnicodeLower} `{Rfc3339} `{AuditJson} p t polls :
  poll_reads p t -> t <> [] -> Z.of_nat (length t) < U64_MAX ->
  map fst (poll_audit_once p None)
  = seqZ (Z.max (Z.of_nat (length t) - 50) 0 + 1) (Z.min 50 (Z.of_nat (length t)))
  /\ ~ (Z.of_nat (length t) + 1)
       ∈ map fst (audit_poller (seen_after None (poll_audit_once p None)) polls).
Proof.
  intros Hp Hne Hmax. assert (Hn : (0 < length t)%nat) by (destruct t; [done|simpl; lia]).
  assert (Hstart : poll_start p t None = Z.max (Z.of_nat (length t) - 50) 0).
  { destruct Hp as (_ & Hc & _). unfold poll_start. by rewrite Hc. }
  pose proof (poll_exact p t None Hp) as Hx. rewrite Hstart in Hx. specialize (Hx ltac:(lia)).
  replace (Z.min 100 _) with (Z.min 50 (Z.of_nat (length t))) in Hx by lia. split; [done|].
  unfold seen_after. destruct (poll_audit_once p None) as [|[m e] fresh _] using rev_ind.
  { apply (f_equal length) in Hx. rewrite length_seqZ in Hx. simpl in Hx. lia. }
  rewrite last_snoc. rewrite map_app in Hx. simpl in Hx.
  replace (Z.min 50 _) with (Z.of_nat (S (Z.to_nat (Z.min 50 (Z.of_nat (length t)) - 1)))) in Hx by lia.
  rewrite seqZ_S in Hx. apply app_inj_tail in Hx as [_ ->].
  intros Hin. pose proof (audit_poller_above (Z.max (Z.of_nat (length t) - 50) 0 + 1
    + Z.of_nat (Z.to_nat (Z.min 50 (Z.of_nat (length t)) - 1))) polls) as Ha.
  rewrite Forall_forall in Ha. apply Ha in Hin. unfold saturating_add in Hin. lia.
Qed.

(** The audit poller publishes in the order of the log and nothing twice. *)
Theorem audit_feed_once `{UnicodeLower} `{Rfc3339} `{AuditJson} last_seen polls :
  Forall poll_ordered polls -> StronglySorted Z.lt (map fst (audit_poller last_seen polls)).
Proof. apply audit_poller_sorted. Qed.

(** History: the answer holds the newest of the matching events, newest first, all of
    them unless the limit is reached, and never more than 500. *)
Theorem history_newest `{UnicodeLower} `{Rfc3339} `{AuditJson} `{JsonText} bytes db query :
  let result := read_history bytes db query (history_limit query) in
  (exists rest, result ++ rest ≡ₚ matching bytes db query
     /\ StronglySorted (fun a b => fe_at_secs b <= fe_at_secs a) (result ++ rest)
     /\ (rest = [] \/ length result = Z.to_nat (history_limit query)))
  /\ (length result <= 500)%nat
  /\ (hq_decision query = Some "require_approval" -> result = []).
Proof.
  intros result. split_and!; [apply read_history_spec| |].
  - unfold result, read_history. rewrite length_take. unfold history_limit. lia.
  - intros Hq. destruct (read_history_spec bytes db query (history_limit query)) as (rest & Hp & _).
    fold result in Hp. unfold matching in Hp. rewrite filter_none in Hp.
    + by apply Permutation_nil_r, app_eq_nil in Hp as [-> _].
    + intros e. by apply snake_decision_matches_none.
Qed.
