(* ===== verification/Setup.v ===== *)
(** * Setting up the agent hooks

    crates/kavach-cli/src/commands/setup.rs, on Unix: the merges into the configuration
    files of the agents, the staging of the hook scripts and the policy, and the whole
    command over a file system.  The texts that the binary embeds, the environment and
    the failures of the operating system are parameters. *)

From stdpp Require Import base tactics list gmap strings.
From Stdlib Require Import ZArith Lia Ascii.
From S2P Require Import Prelude RustStr Utf8 BTree Json ConfigLoad CliServe CliPolicy DashEvent.

Open Scope Z_scope.

(** ** Merging hook entries *)

(** [HookEntry]. *)
Record HookEntry := mkHookEntry { he_matcher : string; he_command : string }.

Definition is_str (s : string) (o : option string) : bool :=
  match o with Some t => String.eqb t s | None => false end.

(** The hook and the group of a new entry. *)
Definition hook_value (e : HookEntry) : Value :=
  json_object [("type", V_String "command"); ("command", V_String (he_command e))].
Definition group_value (e : HookEntry) : Value :=
  json_object [("matcher", V_String (he_matcher e)); ("hooks", V_Array [hook_value e])].

Definition group_matches (e : HookEntry) (g : Value) : bool := is_str (he_matcher e) (get_str "matcher" g).
Definition same_command (e : HookEntry) (h : Value) : bool := is_str (he_command e) (get_str "command" h).
Definition other_command (e : HookEntry) (h : Value) : bool :=
  match get_str "command" h with Some c => negb (String.eqb c (he_command e)) | None => false end.

Definition no_hooks_array (matcher : string) : string :=
  "matcher '" +:+ matcher +:+ "' has no hooks array; leaving it untouched".
Definition conflict_warning (matcher : string) : string :=
  "conflicting hook already registered on matcher '" +:+ matcher +:+ "'; Kavach entry not added".

(** An entry for a group with its matcher. *)
Definition merge_into (e : HookEntry) (g : Value) : Value * list string :=
  match g with
  | V_Object o =>
      match obj_get "hooks" o with
      | Some (V_Array hooks) =>
          if existsb (same_command e) hooks then (g, [])
          else if existsb (other_command e) hooks then (g, [conflict_warning (he_matcher e)])
          else (V_Object (bmap_insert "hooks" (V_Array (hooks ++ [hook_value e])) o), [])
      | _ => (g, [no_hooks_array (he_matcher e)])
      end
  | _ => (g, [no_hooks_array (he_matcher e)])
  end.

(** One turn of the loop: the first group with the matcher, or a new group. *)
Fixpoint merge_entry (e : HookEntry) (groups : list Value) : list Value * list string :=
  match groups with
  | [] => ([group_value e], [])
  | g :: rest =>
      if group_matches e g then let '(g', w) := merge_into e g in (g' :: rest, w)
      else let '(rest', w) := merge_entry e rest in (g :: rest', w)
  end.

Fixpoint merge_entries (entries : list HookEntry) (groups : list Value) : list Value * list string :=
  match entries with
  | [] => (groups, [])
  | e :: es =>
      let '(groups1, w1) := merge_entry e groups in
      let '(groups2, w2) := merge_entries es groups1 in
      (groups2, w1 ++ w2)
  end.

(** The object of a value, or a fresh one; [Map::entry(k).or_insert]. *)
Definition object_or_new (v : Value) : JsonObject := match v with V_Object o => o | _ => [] end.
Definition entry_or (k : string) (d : Value) (o : JsonObject) : Value := default d (obj_get k o).

(** [merge_hook_entries]. *)
Definition merge_hook_entries (doc : Value) (entries : list HookEntry) : Value * list string :=
  let map := object_or_new doc in
  match entry_or "hooks" (V_Object []) map with
  | V_Object hooks_map =>
      match entry_or "PreToolUse" (V_Array []) hooks_map with
      | V_Array groups =>
          let '(groups', warnings) := merge_entries entries groups in
          (V_Object (bmap_insert "hooks" (V_Object (bmap_insert "PreToolUse" (V_Array groups') hooks_map)) map),
           warnings)
      | _ => (V_Object map, ["existing 'hooks.PreToolUse' is not an array; leaving it untouched"])
      end
  | _ => (V_Object map, ["existing 'hooks' key is not an object; leaving it untouched"])
  end.

(** [merge_opencode_plugin]. *)
Definition merge_opencode_plugin (doc : Value) (plugin_path : string) : Value * bool :=
  let map := object_or_new doc in
  match entry_or "plugin" (V_Array []) map with
  | V_Array plugins =>
      if existsb (fun p => is_str plugin_path (as_str p)) plugins then (V_Object map, true)
      else (V_Object (bmap_insert "plugin" (V_Array (plugins ++ [V_String plugin_path])) map), false)
  | _ => (V_Object map, true)
  end.

(** ** Files *)

(** The files by path, what was printed, and the processes that were started. *)
Record SetupState := {
  ss_files : gmap string string;
  ss_out : list string;
  ss_spawned : list (string * list string);
}.

Abbreviation setup := (stateful SetupState CliError).

(** What the command meets: environment variables, its own path, and the failures of
    creating a directory, reading, writing (with what replaced the file, if it was opened)
    and starting a program. *)
Record SetupEnv := {
  se_var : string -> option string;
  se_exe : option string;
  se_mkdir : string -> option string;
  se_unreadable : string -> bool;
  se_write : string -> option (string * option string);
  se_spawn : string -> option string;
}.

(** [include_str!]. *)
Class SetupTexts := {
  COMMON_MODULE : string;
  CLAUDE_HOOK : string;
  CODEX_HOOK : string;
  OPENCODE_HOOK : string;
  privacy_starter_embedded : string;
}.

Definition CLAUDE_MATCHER : string := "Bash|PowerShell|Write|Edit|Read|MultiEdit|NotebookEdit".

Definition set_file (path text : string) (s : SetupState) : SetupState :=
  {| ss_files := <[path := text]> (ss_files s); ss_out := ss_out s; ss_spawned := ss_spawned s |}.

(** [Path::is_file], [create_dir_all] and [fs::write]. *)
Definition fs_is_file (path : string) (s : SetupState) : bool := bool_decide (is_Some (ss_files s !! path)).

Definition fs_create_dir_all (env : SetupEnv) (path : string) : setup unit :=
  st_lift (match se_mkdir env path with Some e => Err (io_error e) | None => Ok tt end).

Definition fs_write (env : SetupEnv) (path text : string) : setup unit := fun s =>
  match se_write env path with
  | Some (e, None) => (Err (io_error e), s)
  | Some (e, Some partial) => (Err (io_error e), set_file path partial s)
  | None => (Ok tt, set_file path text s)
  end.

(** [fs::read_to_string(path).ok()]. *)
Definition fs_read (env : SetupEnv) (path : string) (s : SetupState) : option string :=
  match ss_files s !! path with
  | Some bytes => if se_unreadable env path then None else if utf8 bytes then Some bytes else None
  | None => None
  end.

(** ** Places *)

(** [setup_root] and [home_dir]. *)
Definition setup_root (env : SetupEnv) : option string := se_var env "KAVACH_SETUP_ROOT".

Definition home_dir (env : SetupEnv) : option string :=
  match setup_root env with
  | Some root => Some root
  | None => match se_var env "USERPROFILE" with Some p => Some p | None => se_var env "HOME" end
  end.

(** [on_path]. *)
Definition is_colon (b : ascii) : bool := Ascii.eqb b ":".

Definition on_path (env : SetupEnv) (name : string) (s : SetupState) : bool :=
  match se_var env "PATH" with
  | None => false
  | Some path => existsb (fun dir => fs_is_file (path_join_text dir name) s) (split_on is_colon path)
  end.

(** [kavach_data_dir]. *)
Definition kavach_data_dir (home : string) : string := path_join_text home ".kavach".

(** ** Staging and wiring *)

Section Wiring.
Context {JT : JsonText} {JP : JsonPrint} {ST : SetupTexts}.
Variable env : SetupEnv.

(** [read_json_file]. *)
Definition read_json_file (path : string) (s : SetupState) : Value :=
  match fs_read env path s with
  | Some text =>
      match json_from_str text with
      | Ok (V_Object o) => V_Object o
      | _ => V_Object []
      end
  | None => V_Object []
  end.

(** [write_json_file]. *)
Definition write_json_file (path : string) (doc : Value) : setup unit :=
  let! _ := fs_create_dir_all env (parent_dir path) in
  let! text := st_lift (match json_to_string_pretty doc with Ok t => Ok t | Err e => Err (json_error e) end) in
  fs_write env path text.

(** A file is written unless it is there. *)
Definition write_new (path text : string) : setup unit := fun s =>
  if fs_is_file path s then (Ok tt, s) else fs_write env path text s.

(** [StagedScripts] and [stage_scripts]. *)
Record StagedScripts := { claude_hook : string; codex_hook : string }.

Definition stage_scripts (adapters_dir : string) : setup StagedScripts :=
  let! _ := fs_create_dir_all env adapters_dir in
  let common := path_join_text adapters_dir "kavach-adapter-common.psm1" in
  let claude := path_join_text adapters_dir "kavach-claude-hook.ps1" in
  let codex := path_join_text adapters_dir "kavach-codex-hook.ps1" in
  let! _ := write_new common COMMON_MODULE in
  let! _ := write_new claude CLAUDE_HOOK in
  let! _ := write_new codex CODEX_HOOK in
  st_ret {| claude_hook := claude; codex_hook := codex |}.

Definition DQUOTE : string := String (byte_of 34) EmptyString.

(** [ps_hook_command]; [Path::display] replaces what is no UTF-8. *)
Definition quoted (path : string) : string := DQUOTE +:+ utf8_lossy path +:+ DQUOTE.

Definition ps_hook_command (script policy feed : string) : string :=
  "powershell -NoProfile -ExecutionPolicy Bypass -File " +:+ quoted script
  +:+ " -Policy " +:+ quoted policy +:+ " -FeedLog " +:+ quoted feed.

(** [ToolOutcome]. *)
Record ToolOutcome := { to_tool : string; to_detected : bool; to_wired : bool; to_detail : string }.

Definition not_found (tool detail : string) : ToolOutcome :=
  {| to_tool := tool; to_detected := false; to_wired := false; to_detail := detail |}.
Definition not_wired (tool detail : string) : ToolOutcome :=
  {| to_tool := tool; to_detected := true; to_wired := false; to_detail := detail |}.
Definition is_wired (tool detail : string) : ToolOutcome :=
  {| to_tool := tool; to_detected := true; to_wired := true; to_detail := detail |}.

(** The tail that [setup_claude] and [setup_codex] share: merge and write. *)
Definition wire_hooks (tool path : string) (entries : list HookEntry) (s : SetupState)
  : ToolOutcome * SetupState :=
  let '(merged, warnings) := merge_hook_entries (read_json_file path s) entries in
  let shown := utf8_lossy path in
  match write_json_file path merged s with
  | (Ok _, s') =>
      (is_wired tool
         (match warnings with
          | [] => "wired " +:+ shown
          | _ => "wired " +:+ shown +:+ " (warnings: " +:+ join "; " warnings +:+ ")"
          end), s')
  | (Err e, s') => (not_wired tool ("failed to write " +:+ shown +:+ ": " +:+ cli_message e), s')
  end.

(** [setup_claude]. *)
Definition claude_settings (home : string) : string :=
  path_join_text (path_join_text home ".claude") "settings.json".

Definition setup_claude (home : string) (scripts : StagedScripts) (policy feed : string) (s : SetupState)
  : ToolOutcome * SetupState :=
  let settings := claude_settings home in
  if negb (fs_is_file settings s || on_path env "claude" s) then
    (not_found "Claude Code" "not found (no ~/.claude/settings.json, no `claude` on PATH)", s)
  else
    wire_hooks "Claude Code" settings
      [mkHookEntry CLAUDE_MATCHER (ps_hook_command (claude_hook scripts) policy feed)] s.

(** [setup_codex]. *)
Definition codex_hooks (home : string) : string :=
  path_join_text (path_join_text home ".codex") "hooks.json".

Definition setup_codex (home : string) (scripts : StagedScripts) (policy feed : string) (s : SetupState)
  : ToolOutcome * SetupState :=
  let hooks_json := codex_hooks home in
  if negb (fs_is_file hooks_json s
           || fs_is_file (path_join_text (path_join_text home ".codex") "config.toml") s
           || on_path env "codex" s) then
    (not_found "Codex CLI" "not found (no ~/.codex config, no `codex` on PATH)", s)
  else
    wire_hooks "Codex CLI" hooks_json
      (map (fun matcher => mkHookEntry matcher (ps_hook_command (codex_hook scripts) policy feed))
         ["Bash"; "apply_patch"]) s.

(** [setup_opencode]. *)
Definition opencode_config (home : string) : string :=
  path_join_text (path_join_text (path_join_text home ".config") "opencode") "opencode.json".

Definition stage_plugin (plugin_dest : string) : setup unit := fun s =>
  if fs_is_file plugin_dest s then (Ok tt, s)
  else (let! _ := fs_create_dir_all env (parent_dir plugin_dest) in
        fs_write env plugin_dest OPENCODE_HOOK) s.

Definition setup_opencode (home : string) (s : SetupState) : ToolOutcome * SetupState :=
  let config := opencode_config home in
  if negb (fs_is_file config s || on_path env "opencode" s) then
    (not_found "OpenCode" "not found (no opencode.json, no `opencode` on PATH)", s)
  else
    let plugin_dest := path_join_text (parent_dir config) "kavach-hook.mjs" in
    match stage_plugin plugin_dest s with
    | (Err _, s1) => (not_wired "OpenCode" "failed to stage plugin file", s1)
    | (Ok _, s1) =>
        let plugin_ref := utf8_lossy plugin_dest in
        let '(merged, already) := merge_opencode_plugin (read_json_file config s1) plugin_ref in
        match write_json_file config merged s1 with
        | (Ok _, s2) =>
            (is_wired "OpenCode"
               (if already then "already wired " +:+ utf8_lossy config
                else "wired " +:+ utf8_lossy config +:+ " (plugin " +:+ plugin_ref +:+ ")"), s2)
        | (Err e, s2) =>
            (not_wired "OpenCode" ("failed to write " +:+ utf8_lossy config +:+ ": " +:+ cli_message e), s2)
        end
    end.

(** ** The command *)

(** [try_start_dashboard]. *)
Definition try_start_dashboard (policy feed : string) (s : SetupState) : string * SetupState :=
  let beside := option_map (fun p => path_join_text (parent_dir p) "kavach-dashboard") (se_exe env) in
  let exe :=
    match beside with
    | Some p => if fs_is_file p s then Some p
                else if on_path env "kavach-dashboard" s then Some "kavach-dashboard" else None
    | None => if on_path env "kavach-dashboard" s then Some "kavach-dashboard" else None
    end in
  match exe with
  | None => ("dashboard requested but kavach-dashboard binary not found", s)
  | Some bin =>
      match se_spawn env bin with
      | Some e => ("failed to start dashboard: " +:+ e, s)
      | None =>
          ("dashboard starting at http://127.0.0.1:3939 (" +:+ utf8_lossy bin +:+ ")",
           {| ss_files := ss_files s; ss_out := ss_out s;
              ss_spawned := ss_spawned s ++ [(bin, ["--feed"; feed; "--policy"; policy])] |})
      end
  end.

Definition outcome_value (o : ToolOutcome) : Value :=
  json_object [("tool", V_String (to_tool o)); ("detected", V_Bool (to_detected o));
               ("wired", V_Bool (to_wired o)); ("detail", V_String (to_detail o))].

Definition dashboard_hint (policy feed : string) : string :=
  "start it with: kavach-dashboard --feed " +:+ quoted feed +:+ " --policy " +:+ quoted policy.

(** The part of [run] that writes files: the scripts, the policy and the agents. *)
Definition wire_tools (home policy : string) (scripts : StagedScripts) (feed : string) (s : SetupState)
  : list ToolOutcome * SetupState :=
  let '(o1, s1) := setup_claude home scripts policy feed s in
  let '(o2, s2) := setup_codex home scripts policy feed s1 in
  let '(o3, s3) := setup_opencode home s2 in
  ([o1; o2; o3], s3).

Definition stage_policy (data_dir default_policy : string) : setup unit := fun s =>
  if fs_is_file default_policy s then (Ok tt, s)
  else (let! _ := fs_create_dir_all env data_dir in
        fs_write env default_policy privacy_starter_embedded) s.

Definition say_setup (text : string) : setup unit := fun s =>
  (Ok tt, {| ss_files := ss_files s; ss_out := ss_out s ++ [text]; ss_spawned := ss_spawned s |}).

(** [run]. *)
Definition setup_run (policy : option string) (start_dashboard : bool) (mode : OutputMode) : setup unit :=
  let! home := st_lift (match home_dir env with
                        | Some h => Ok h
                        | None => Err (CliError_new X_InvalidInput
                            "could not determine home directory (set USERPROFILE/HOME)")
                        end) in
  let data_dir := kavach_data_dir home in
  let! scripts := stage_scripts (path_join_text data_dir "adapters") in
  let default_policy := path_join_text data_dir "policy.toml" in
  let! _ := stage_policy data_dir default_policy in
  let policy_path := default default_policy policy in
  let feed_path := path_join_text data_dir "decisions.jsonl" in
  fun s =>
    let '(outcomes, s1) := wire_tools home policy_path scripts feed_path s in
    let '(note, s2) := if start_dashboard then try_start_dashboard policy_path feed_path s1 else ("", s1) in
    let data := json_object
      [("tools", V_Array (map outcome_value outcomes));
       ("policy", V_String (utf8_lossy policy_path));
       ("feed", V_String (utf8_lossy feed_path));
       ("dashboard", V_String (if is_empty note then dashboard_hint policy_path feed_path else note))] in
    say_setup (render mode (CliOutput_with_data data)) s2.

End Wiring.
