(* ===== verification/SetupMerge.v ===== *)
(** * Merging into the configuration of an agent

    The merges of [Setup] only add: what a document holds is kept, an entry that was
    merged without a warning is registered, and merging again changes nothing. *)

From stdpp Require Import base tactics list strings.
From Stdlib Require Import ZArith Lia Ascii.
From S2P Require Import Prelude RustStr BTree Json CliPolicy DashEvent Setup.

(** ** Objects *)

Lemma bmap_insert_twice (k : string) (v w : Value) (o : JsonObject) :
  bmap_insert k v (bmap_insert k w o) = bmap_insert k v o.
Proof.
  induction o as [|[k' v'] o IH]; cbn -[key_cmp]; [by rewrite key_cmp_refl|].
  destruct (key_cmp k k') eqn:E; cbn -[key_cmp]; rewrite ?key_cmp_refl, ?E; [done|done|by rewrite IH].
Qed.

Lemma obj_get_same k v (o : JsonObject) : obj_get k (bmap_insert k v o) = Some v.
Proof. by rewrite obj_get_insert, String.eqb_refl. Qed.

Lemma obj_get_other k k' v (o : JsonObject) : k <> k' -> obj_get k (bmap_insert k' v o) = obj_get k o.
Proof. intros H. rewrite obj_get_insert. by destruct (String.eqb_spec k' k) as [->|]. Qed.

(** ** One group *)

(** The matcher of a group is never changed. *)
Lemma merge_into_matcher e e' g : group_matches e' (merge_into e g).1 = group_matches e' g.
Proof.
  unfold merge_into. destruct g as [| | | | | |o]; try done.
  destruct (obj_get "hooks" o) as [[| | | | |l|]|]; try done.
  destruct (existsb _ l); [done|]. destruct (existsb _ l); [done|].
  unfold group_matches, get_str. simpl. by rewrite obj_get_other.
Qed.

Lemma group_value_matches e : group_matches e (group_value e) = true.
Proof.
  unfold group_matches, get_str, group_value. rewrite json_object_get. simpl. apply String.eqb_refl.
Qed.

Lemma hook_value_same e : same_command e (hook_value e) = true.
Proof. unfold same_command, get_str, hook_value. rewrite json_object_get. simpl. apply String.eqb_refl. Qed.

Lemma group_value_object e :
  exists o, group_value e = V_Object o /\ obj_get "hooks" o = Some (V_Array [hook_value e]).
Proof.
  unfold group_value, json_object. eexists. split; [done|].
  change (value_get "hooks" (group_value e) = Some (V_Array [hook_value e])).
  unfold group_value. by rewrite json_object_get.
Qed.

(** Merging an entry into a group again changes nothing. *)
Lemma merge_into_again e g : merge_into e (merge_into e g).1 = merge_into e g.
Proof.
  destruct g as [| | | | | |o]; try done. unfold merge_into at 2 3.
  destruct (obj_get "hooks" o) as [[| | | | |l|]|] eqn:Eh; try (simpl; by rewrite Eh).
  destruct (existsb (same_command e) l) eqn:Es; [simpl; by rewrite Eh, Es|].
  destruct (existsb (other_command e) l) eqn:Eo; [simpl; by rewrite Eh, Es, Eo|].
  simpl. rewrite obj_get_same, existsb_app. simpl. by rewrite hook_value_same, orb_true_r.
Qed.

(** A group that an entry leaves alone is left alone by an entry with the same matcher. *)
Lemma commands_known e e' l :
  existsb (same_command e) l || existsb (other_command e) l = true ->
  existsb (same_command e') l || existsb (other_command e') l = true.
Proof.
  induction l as [|h l IH]; [done|]. simpl. unfold same_command at 1, other_command at 1, is_str.
  unfold same_command at 2, other_command at 2, is_str.
  destruct (get_str "command" h) as [c|]; [|done].
  intros _. destruct (String.eqb c (he_command e')); simpl; [done|by rewrite orb_true_r].
Qed.

Lemma merge_into_left_alone e e' g w :
  merge_into e g = (g, w) -> (merge_into e' g).1 = g.
Proof.
  destruct g as [| | | | | |o]; try done. simpl.
  destruct (obj_get "hooks" o) as [[| | | | |l|]|] eqn:Eh; try done. intros Hm.
  assert (Hk : existsb (same_command e) l || existsb (other_command e) l = true).
  { destruct (existsb (same_command e) l); [done|]. destruct (existsb (other_command e) l); [done|].
    injection Hm as Ho _. apply (f_equal (obj_get "hooks")) in Ho.
    rewrite obj_get_same, Eh in Ho. injection Ho as Hl. apply (f_equal length) in Hl.
    rewrite length_app in Hl. simpl in Hl. lia. }
  apply (commands_known e e') in Hk.
  destruct (existsb (same_command e') l); [done|]. by destruct (existsb (other_command e') l).
Qed.

(** ** The groups *)

Lemma merge_entry_again e gs : merge_entry e (merge_entry e gs).1 = merge_entry e gs.
Proof.
  induction gs as [|g gs IH]; cbn [merge_entry fst].
  - rewrite group_value_matches. destruct (group_value_object e) as (o & -> & Ho).
    unfold merge_into. rewrite Ho. cbn [existsb]. by rewrite hook_value_same.
  - destruct (group_matches e g) eqn:E.
    + pose proof (merge_into_again e g) as Ha. pose proof (merge_into_matcher e e g) as Hm.
      destruct (merge_into e g) as [g' w]. simpl in *. by rewrite Hm, E, Ha.
    + destruct (merge_entry e gs) as [gs' w]. simpl in *. by rewrite E, IH.
Qed.

(** An entry that has nothing to do keeps nothing to do. *)
Lemma merge_entry_settled e e' gs w :
  merge_entry e gs = (gs, w) -> merge_entry e (merge_entry e' gs).1 = ((merge_entry e' gs).1, w).
Proof.
  induction gs as [|g gs IH]; simpl; [done|].
  destruct (group_matches e g) eqn:E.
  - destruct (merge_into e g) as [g1 w1] eqn:Em. intros [= -> ->].
    destruct (group_matches e' g).
    + pose proof (merge_into_left_alone e e' g w Em) as Hl. destruct (merge_into e' g) as [g' w'].
      simpl in *. subst. by rewrite E, Em.
    + destruct (merge_entry e' gs). simpl. by rewrite E, Em.
  - destruct (merge_entry e gs) as [gs1 w1] eqn:Em. intros [= -> ->]. specialize (IH eq_refl).
    destruct (group_matches e' g).
    + pose proof (merge_into_matcher e' e g) as Hm. destruct (merge_into e' g) as [g' w'].
      simpl in *. by rewrite Hm, E, Em.
    + destruct (merge_entry e' gs) as [gs' w']. simpl in *. by rewrite E, IH.
Qed.

Lemma merge_entries_settled e es gs w :
  merge_entry e gs = (gs, w) -> merge_entry e (merge_entries es gs).1 = ((merge_entries es gs).1, w).
Proof.
  revert gs. induction es as [|e' es IH]; intros gs Hs; simpl; [done|].
  apply (merge_entry_settled e e') in Hs. destruct (merge_entry e' gs) as [gs1 w1]. simpl in Hs.
  apply IH in Hs. by destruct (merge_entries es gs1).
Qed.

Lemma merge_entries_again es gs : merge_entries es (merge_entries es gs).1 = merge_entries es gs.
Proof.
  revert gs. induction es as [|e es IH]; intros gs; simpl; [done|].
  pose proof (merge_entry_again e gs) as Ha. destruct (merge_entry e gs) as [gs1 w1]. simpl in Ha.
  pose proof (merge_entries_settled e es gs1 w1 Ha) as Hs. specialize (IH gs1).
  destruct (merge_entries es gs1) as [gs2 w2]. simpl in *. by rewrite Hs, IH.
Qed.

(** ** Nothing is taken away *)

(** A group is the same, or has more hooks at the end of its list. *)
Definition group_extends (g g' : Value) : Prop :=
  g' = g \/ exists o l hs, g = V_Object o /\ obj_get "hooks" o = Some (V_Array l)
                          /\ g' = V_Object (bmap_insert "hooks" (V_Array (l ++ hs)) o).

Definition groups_extend (gs gs' : list Value) : Prop :=
  exists gs1 more, gs' = gs1 ++ more /\ Forall2 group_extends gs gs1.

#[export] Instance group_extends_trans : Transitive group_extends.
Proof.
  intros g1 g2 g3 [->|(o & l & hs & -> & Ho & ->)] H23; [done|].
  destruct H23 as [->|(o' & l' & hs' & [= <-] & Ho' & ->)]; [right; by exists o, l, hs|].
  rewrite obj_get_same in Ho'. injection Ho' as <-. right. exists o, l, (hs ++ hs').
  by rewrite bmap_insert_twice, app_assoc.
Qed.

#[export] Instance group_extends_refl : Reflexive group_extends.
Proof. intros g. by left. Qed.

#[export] Instance groups_extend_refl : Reflexive groups_extend.
Proof. intros gs. exists gs, []. rewrite app_nil_r. split; [done|]. by apply Forall_Forall2_diag, Forall_true. Qed.

#[export] Instance groups_extend_trans : Transitive groups_extend.
Proof.
  intros gs1 gs2 gs3 (a & more & -> & Ha) (b & more' & -> & Hb).
  apply Forall2_app_inv_l in Hb as (b1 & b2 & Hb1 & Hb2 & ->).
  exists b1, (b2 ++ more'). rewrite app_assoc. split; [done|].
  by transitivity a.
Qed.

Lemma merge_into_extends e g : group_extends g (merge_into e g).1.
Proof.
  destruct g as [| | | | | |o]; try by left. simpl.
  destruct (obj_get "hooks" o) as [[| | | | |l|]|] eqn:Eh; try by left.
  destruct (existsb (same_command e) l); [by left|]. destruct (existsb (other_command e) l); [by left|].
  right. by exists o, l, [hook_value e].
Qed.

Lemma merge_entry_extends e gs : groups_extend gs (merge_entry e gs).1.
Proof.
  induction gs as [|g gs (gs1 & more & Hgs & Hf)]; simpl.
  - by exists [], [group_value e].
  - destruct (group_matches e g).
    + pose proof (merge_into_extends e g) as Hg. destruct (merge_into e g) as [g' w]. simpl in *.
      exists (g' :: gs), []. rewrite app_nil_r. split; [done|]. constructor; [done|].
      by apply Forall_Forall2_diag, Forall_true.
    + destruct (merge_entry e gs) as [gs' w]. simpl in *. subst.
      exists (g :: gs1), more. split; [done|]. by constructor.
Qed.

Lemma merge_entries_extends es gs : groups_extend gs (merge_entries es gs).1.
Proof.
  revert gs. induction es as [|e es IH]; intros gs; simpl; [done|].
  pose proof (merge_entry_extends e gs) as He. destruct (merge_entry e gs) as [gs1 w1].
  specialize (IH gs1). destruct (merge_entries es gs1) as [gs2 w2]. simpl in *. by etrans.
Qed.

(** ** Entries are registered *)

(** A group with the matcher of the entry lists a hook with its command. *)
Definition registered_in (e : HookEntry) (g : Value) : Prop :=
  group_matches e g = true
  /\ exists o l, g = V_Object o /\ obj_get "hooks" o = Some (V_Array l) /\ existsb (same_command e) l = true.

Definition registered (e : HookEntry) (gs : list Value) : Prop := Exists (registered_in e) gs.

Lemma registered_in_extends e g g' : group_extends g g' -> registered_in e g -> registered_in e g'.
Proof.
  intros [->|(o & l & hs & -> & Ho & ->)]; [done|]. intros (Hm & o1 & l1 & [= <-] & Ho1 & Hc).
  rewrite Ho in Ho1. injection Ho1 as <-. split.
  - unfold group_matches, get_str in *. simpl in *. by rewrite obj_get_other.
  - eexists _, (l ++ hs). rewrite obj_get_same, existsb_app, Hc. done.
Qed.

Lemma registered_extends e gs gs' : groups_extend gs gs' -> registered e gs -> registered e gs'.
Proof.
  intros (gs1 & more & -> & Hf) Hr. apply Exists_app. left.
  induction Hf as [|g g1 gs gs1 Hg Hf IH]; [by apply Exists_nil in Hr|].
  apply Exists_cons in Hr as [Hr|Hr]; [left; by eapply registered_in_extends|right; by apply IH].
Qed.

Lemma merge_entry_registers e gs : (merge_entry e gs).2 = [] -> registered e (merge_entry e gs).1.
Proof.
  induction gs as [|g gs IH]; cbn [merge_entry].
  - intros _. left. split; [apply group_value_matches|].
    destruct (group_value_object e) as (o & -> & Ho). exists o, [hook_value e].
    split_and!; [done|done|]. cbn [existsb]. by rewrite hook_value_same.
  - destruct (group_matches e g) eqn:E.
    + pose proof (merge_into_matcher e e g) as Hm. rewrite E in Hm. revert Hm.
      destruct g as [| | | | | |o]; try done. cbn -[bmap_insert].
      destruct (obj_get "hooks" o) as [[| | | | |l|]|] eqn:Eh; try done.
      destruct (existsb (same_command e) l) eqn:Es; [intros Hm _; left; split; [done|by exists o, l]|].
      destruct (existsb (other_command e) l); [done|]. intros Hm _. left. split; [done|].
      eexists _, _. rewrite obj_get_same. split_and!; [done|done|].
      rewrite existsb_app. cbn [existsb]. by rewrite hook_value_same, orb_true_r.
    + destruct (merge_entry e gs) as [gs' w]. intros Hw. right. by apply IH.
Qed.

Lemma merge_entries_register es gs :
  (merge_entries es gs).2 = [] -> Forall (fun e => registered e (merge_entries es gs).1) es.
Proof.
  revert gs. induction es as [|e es IH]; intros gs; simpl; [done|].
  pose proof (merge_entry_registers e gs) as He. destruct (merge_entry e gs) as [gs1 w1].
  pose proof (merge_entries_extends es gs1) as Hx. specialize (IH gs1).
  destruct (merge_entries es gs1) as [gs2 w2]. simpl in *. intros [-> ->]%app_eq_nil.
  constructor; [|by apply IH]. eapply registered_extends; [done|]. by apply He.
Qed.

(** ** Whole documents *)

(** The groups of a document. *)
Definition pre_tool_use (doc : Value) : option (list Value) :=
  match value_get "hooks" doc with
  | Some hooks => match value_get "PreToolUse" hooks with Some (V_Array gs) => Some gs | _ => None end
  | None => None
  end.

(** Every key of a document is kept, and so is every key of its hooks; its groups only
    grow. *)
Definition doc_extends (doc doc' : Value) : Prop :=
  (forall k, k <> "hooks" -> value_get k doc' = value_get k doc)
  /\ (forall hooks, value_get "hooks" doc = Some hooks ->
        exists hooks', value_get "hooks" doc' = Some hooks'
          /\ (as_object hooks = None -> hooks' = hooks)
          /\ (forall k, k <> "PreToolUse" -> value_get k hooks' = value_get k hooks)
          /\ forall pre, value_get "PreToolUse" hooks = Some pre ->
               exists pre', value_get "PreToolUse" hooks' = Some pre'
                 /\ (as_array pre = None -> pre' = pre)
                 /\ forall gs, pre = V_Array gs -> exists gs', pre' = V_Array gs' /\ groups_extend gs gs').

Lemma doc_extends_refl doc : doc_extends doc doc.
Proof.
  split; [done|]. intros hooks Hh. exists hooks. split_and!; [done..|].
  intros pre Hp. exists pre. split_and!; [done..|]. intros gs ->. by exists gs.
Qed.

Lemma merge_hook_extends doc es : as_object doc <> None -> doc_extends doc (merge_hook_entries doc es).1.
Proof.
  destruct doc as [| | | | | |o]; try done. intros _. unfold merge_hook_entries, entry_or. cbn [object_or_new].
  destruct (obj_get "hooks" o) as [hooks|] eqn:Eh.
  - cbn [from_option id]. destruct hooks as [| | | | | |hm]; try apply doc_extends_refl.
    destruct (obj_get "PreToolUse" hm) as [pre|] eqn:Ep.
    + cbn [from_option id]. destruct pre as [| | | | |gs|]; try apply doc_extends_refl.
      pose proof (merge_entries_extends es gs) as Hx. destruct (merge_entries es gs) as [gs' w]. simpl in Hx.
      split; [intros k Hk; simpl; by apply obj_get_other|]. simpl. rewrite Eh. intros ? [= <-].
      eexists. rewrite obj_get_same. split_and!; [done|done|intros k Hk; simpl; by apply obj_get_other|].
      simpl. rewrite Ep. intros ? [= <-]. eexists. rewrite obj_get_same. split_and!; [done|done|].
      intros ? [= <-]. by exists gs'.
    + simpl. destruct (merge_entries es []) as [gs' w].
      split; [intros k Hk; simpl; by apply obj_get_other|]. simpl. rewrite Eh. intros ? [= <-].
      eexists. rewrite obj_get_same. split_and!; [done|done|intros k Hk; simpl; by apply obj_get_other|].
      simpl. by rewrite Ep.
  - simpl. destruct (merge_entries es []) as [gs' w].
    split; [intros k Hk; simpl; by apply obj_get_other|]. simpl. by rewrite Eh.
Qed.

Lemma merge_hook_registers doc es :
  (merge_hook_entries doc es).2 = [] ->
  exists gs, pre_tool_use (merge_hook_entries doc es).1 = Some gs /\ Forall (fun e => registered e gs) es.
Proof.
  unfold merge_hook_entries. generalize (object_or_new doc) as o. intros o.
  destruct (entry_or "hooks" (V_Object []) o) as [| | | | | |hm]; try done.
  destruct (entry_or "PreToolUse" (V_Array []) hm) as [| | | | |gs|]; try done.
  pose proof (merge_entries_register es gs) as Hr. destruct (merge_entries es gs) as [gs' w].
  simpl in *. intros ->. exists gs'. unfold pre_tool_use. simpl. rewrite obj_get_same. simpl.
  rewrite obj_get_same. split; [done|by apply Hr].
Qed.

Lemma merge_hook_again doc es :
  merge_hook_entries (merge_hook_entries doc es).1 es = merge_hook_entries doc es.
Proof.
  unfold merge_hook_entries at 2 3. generalize (object_or_new doc) as o. intros o.
  destruct (entry_or "hooks" (V_Object []) o) as [| | | | | |hm] eqn:Eh;
    try (unfold merge_hook_entries; simpl; by rewrite Eh).
  destruct (entry_or "PreToolUse" (V_Array []) hm) as [| | | | |gs|] eqn:Ep;
    try (unfold merge_hook_entries; simpl; by rewrite Eh, Ep).
  pose proof (merge_entries_again es gs) as Ha. destruct (merge_entries es gs) as [gs' w]. simpl in Ha.
  unfold merge_hook_entries, entry_or. cbn [fst object_or_new]. rewrite obj_get_same. cbn [from_option id].
  rewrite obj_get_same. cbn [from_option id]. rewrite Ha, !bmap_insert_twice. done.
Qed.

Lemma merge_plugin_again doc path :
  (merge_opencode_plugin (merge_opencode_plugin doc path).1 path).1 = (merge_opencode_plugin doc path).1.
Proof.
  unfold merge_opencode_plugin at 2 3. generalize (object_or_new doc) as o. intros o.
  destruct (entry_or "plugin" (V_Array []) o) as [| | | | |l|] eqn:Ep;
    try (unfold merge_opencode_plugin; simpl; by rewrite Ep).
  destruct (existsb _ l) eqn:Ex; [unfold merge_opencode_plugin; simpl; by rewrite Ep, Ex|].
  unfold merge_opencode_plugin, entry_or. cbn [fst object_or_new]. rewrite obj_get_same. cbn [from_option id].
  rewrite existsb_app. simpl. by rewrite String.eqb_refl, orb_true_r.
Qed.
