(* ===== verification/SetupProps.v ===== *)
(** * Properties of the set-up command

    What is there is kept: only the configuration files of the agents that are detected
    are rewritten or created, by the merges of [SetupMerge], and running the command again
    changes no file. *)

From stdpp Require Import base tactics list sets gmap strings.
From Stdlib Require Import ZArith Lia Ascii.
From S2P Require Import Prelude RustStr Utf8 BTree Json ConfigLoad CliServe CliPolicy DashEvent.
From S2P Require Import Setup SetupMerge.

(** ** Files that are written *)

Definition config_files (home : string) : list string :=
  [claude_settings home; codex_hooks home; opencode_config home].

Definition opencode_plugin (home : string) : string :=
  path_join_text (parent_dir (opencode_config home)) "kavach-hook.mjs".

Definition adapters_dir (home : string) : string := path_join_text (kavach_data_dir home) "adapters".
Definition default_policy (home : string) : string := path_join_text (kavach_data_dir home) "policy.toml".

Definition script_files (home : string) : list string :=
  [path_join_text (adapters_dir home) "kavach-adapter-common.psm1";
   path_join_text (adapters_dir home) "kavach-claude-hook.ps1";
   path_join_text (adapters_dir home) "kavach-codex-hook.ps1"].

Definition staged_files (home : string) : list string :=
  script_files home ++ [default_policy home; opencode_plugin home].

(** From one state to the next, a file outside [rewritten] is unchanged, unless it is new
    and one of [created]. *)
Definition careful (rewritten created : list string) (s s' : SetupState) : Prop :=
  forall p, p ∉ rewritten -> is_Some (ss_files s !! p) \/ p ∉ created -> ss_files s' !! p = ss_files s !! p.

Section Careful.
Context (C S : list string).

Lemma careful_refl s : careful C S s s.
Proof. done. Qed.

Lemma careful_trans s1 s2 s3 : careful C S s1 s2 -> careful C S s2 s3 -> careful C S s1 s3.
Proof.
  intros H12 H23 p Hp Hor. rewrite <- (H12 p Hp Hor). apply H23; [done|].
  destruct Hor; [left; by rewrite H12; [|done|left]|by right].
Qed.

Lemma careful_files s s' : ss_files s' = ss_files s -> careful C S s s'.
Proof. by intros E p _ _; rewrite E. Qed.

Lemma careful_set path text s : path ∈ C -> careful C S s (set_file path text s).
Proof. intros Hp p Hn _. simpl. apply lookup_insert_ne. by intros <-. Qed.

Lemma careful_new path text s :
  path ∈ S -> fs_is_file path s = false -> careful C S s (set_file path text s).
Proof.
  unfold fs_is_file. intros Hp Hf%bool_decide_eq_false p _ Hor. simpl. apply lookup_insert_ne.
  intros <-. by destruct Hor.
Qed.

End Careful.

Section Run.
Context {JT : JsonText} {JP : JsonPrint} {ST : SetupTexts}.
Context (env : SetupEnv).

Lemma fs_write_careful C S path text s : path ∈ C -> careful C S s (fs_write env path text s).2.
Proof. intros Hp. unfold fs_write. destruct (se_write env path) as [[e [partial|]]|]; [by apply careful_set|done|by apply careful_set]. Qed.

Lemma fs_write_new C S path text s :
  path ∈ S -> fs_is_file path s = false -> careful C S s (fs_write env path text s).2.
Proof.
  intros Hp Hf. unfold fs_write.
  destruct (se_write env path) as [[e [partial|]]|]; [by apply careful_new|done|by apply careful_new].
Qed.

Lemma mkdir_state path s : (fs_create_dir_all env path s).2 = s.
Proof. done. Qed.

Lemma write_json_careful C S path doc s : path ∈ C -> careful C S s (write_json_file env path doc s).2.
Proof.
  intros Hp. unfold write_json_file, st_bind, fs_create_dir_all, st_lift.
  destruct (se_mkdir env _); [done|]. destruct (json_to_string_pretty doc); [|done].
  by apply fs_write_careful.
Qed.

Lemma write_new_careful C S path text s : path ∈ S -> careful C S s (write_new env path text s).2.
Proof.
  intros Hp. unfold write_new. destruct (fs_is_file path s) eqn:E; [done|]. by apply fs_write_new.
Qed.

(** A computation that is careful from every state. *)
Definition keeps {A} (C S : list string) (m : setup A) : Prop := forall s, careful C S s (m s).2.

Lemma keeps_ret {A} C S (a : A) : keeps C S (st_ret a).
Proof. done. Qed.

Lemma keeps_lift {A} C S (r : result CliError A) : keeps C S (st_lift r).
Proof. done. Qed.

Lemma keeps_bind {A B} C S (m : setup A) (k : A -> setup B) :
  keeps C S m -> (forall a, keeps C S (k a)) -> keeps C S (st_bind m k).
Proof.
  intros Hm Hk s. unfold st_bind. specialize (Hm s). destruct (m s) as [[a|e] s1]; [|done].
  eapply careful_trans; [exact Hm|]. apply Hk.
Qed.

Lemma stage_scripts_keeps C S home :
  (forall p, p ∈ script_files home -> p ∈ S) -> keeps C S (stage_scripts env (adapters_dir home)).
Proof.
  intros HS. unfold stage_scripts. apply keeps_bind; [done|intros _].
  repeat (apply keeps_bind; [intros s; apply write_new_careful, HS; set_solver|intros _]). apply keeps_ret.
Qed.

Lemma stage_policy_keeps C S home dir :
  default_policy home ∈ S -> keeps C S (stage_policy env dir (default_policy home)).
Proof.
  intros HS s. unfold stage_policy. destruct (fs_is_file _ s) eqn:E; [done|].
  unfold st_bind, fs_create_dir_all, st_lift. destruct (se_mkdir env dir); [done|]. by apply fs_write_new.
Qed.

Lemma wire_hooks_keeps C S tool path entries s :
  path ∈ C -> careful C S s (wire_hooks env tool path entries s).2.
Proof.
  intros Hp. unfold wire_hooks. destruct (merge_hook_entries _ _) as [merged w].
  pose proof (write_json_careful C S path merged s Hp) as H.
  by destruct (write_json_file env path merged s) as [[]].
Qed.

Lemma setup_claude_keeps C S home scripts policy feed s :
  claude_settings home ∈ C -> careful C S s (setup_claude env home scripts policy feed s).2.
Proof. intros Hp. unfold setup_claude. destruct (negb _); [done|]. by apply wire_hooks_keeps. Qed.

Lemma setup_codex_keeps C S home scripts policy feed s :
  codex_hooks home ∈ C -> careful C S s (setup_codex env home scripts policy feed s).2.
Proof. intros Hp. unfold setup_codex. destruct (negb _); [done|]. by apply wire_hooks_keeps. Qed.

Lemma setup_opencode_keeps C S home s :
  opencode_config home ∈ C -> opencode_plugin home ∈ S -> careful C S s (setup_opencode env home s).2.
Proof.
  intros Hc Hp. unfold setup_opencode. destruct (negb _); [done|].
  assert (Hs : careful C S s (stage_plugin env (opencode_plugin home) s).2).
  { unfold stage_plugin. destruct (fs_is_file _ s) eqn:E; [done|].
    unfold st_bind, fs_create_dir_all, st_lift. destruct (se_mkdir env _); [done|]. by apply fs_write_new. }
  fold (opencode_plugin home). destruct (stage_plugin env (opencode_plugin home) s) as [[u|e] s1]; [|done].
  destruct (merge_opencode_plugin _ _) as [merged already]. simpl in Hs.
  pose proof (write_json_careful C S (opencode_config home) merged s1 Hc) as H.
  destruct (write_json_file env (opencode_config home) merged s1) as [[] s2]; by eapply careful_trans.
Qed.

Lemma wire_tools_keeps home policy scripts feed s :
  careful (config_files home) (staged_files home) s (wire_tools env home policy scripts feed s).2.
Proof.
  unfold wire_tools, config_files, staged_files.
  pose proof (setup_claude_keeps (config_files home) (staged_files home) home scripts policy feed s) as H1.
  destruct (setup_claude env home scripts policy feed s) as [o1 s1].
  pose proof (setup_codex_keeps (config_files home) (staged_files home) home scripts policy feed s1) as H2.
  destruct (setup_codex env home scripts policy feed s1) as [o2 s2].
  pose proof (setup_opencode_keeps (config_files home) (staged_files home) home s2) as H3.
  destruct (setup_opencode env home s2) as [o3 s3]. simpl in *.
  eapply careful_trans; [apply H1; set_solver|]. eapply careful_trans; [apply H2; set_solver|].
  apply H3; [set_solver|]. unfold staged_files. set_solver.
Qed.

Lemma try_start_dashboard_files policy feed s :
  ss_files (try_start_dashboard env policy feed s).2 = ss_files s.
Proof. unfold try_start_dashboard. repeat case_match; done. Qed.

(** The last part of [setup_run]. *)
Definition wire_and_report (home policy_path : string) (scripts : StagedScripts) (feed_path : string)
    (start_dashboard : bool) (mode : OutputMode) : setup unit := fun s =>
  let '(outcomes, s1) := wire_tools env home policy_path scripts feed_path s in
  let '(note, s2) := if start_dashboard then try_start_dashboard env policy_path feed_path s1 else ("", s1) in
  let data := json_object
    [("tools", V_Array (map outcome_value outcomes));
     ("policy", V_String (utf8_lossy policy_path));
     ("feed", V_String (utf8_lossy feed_path));
     ("dashboard", V_String (if is_empty note then dashboard_hint policy_path feed_path else note))] in
  say_setup (render mode (CliOutput_with_data data)) s2.

Lemma wire_and_report_files home policy scripts feed start mode s :
  ss_files (wire_and_report home policy scripts feed start mode s).2
  = ss_files (wire_tools env home policy scripts feed s).2.
Proof.
  unfold wire_and_report. destruct (wire_tools env home policy scripts feed s) as [outcomes s1].
  destruct start; [|done]. pose proof (try_start_dashboard_files policy feed s1) as H.
  by destruct (try_start_dashboard env policy feed s1).
Qed.

Definition feed_file_path (home : string) : string := path_join_text (kavach_data_dir home) "decisions.jsonl".

Lemma setup_run_eq home policy start mode s :
  home_dir env = Some home ->
  setup_run env policy start mode s
  = (let! scripts := stage_scripts env (adapters_dir home) in
     let! _ := stage_policy env (kavach_data_dir home) (default_policy home) in
     wire_and_report home (default (default_policy home) policy) scripts (feed_file_path home) start mode) s.
Proof. intros Hh. unfold setup_run, st_bind at 1, st_lift. by rewrite Hh. Qed.

Lemma setup_run_keeps home policy start mode :
  home_dir env = Some home ->
  keeps (config_files home) (staged_files home) (setup_run env policy start mode).
Proof.
  intros Hh s. rewrite (setup_run_eq home) by done. revert s.
  change (keeps (config_files home) (staged_files home)
    (let! scripts := stage_scripts env (adapters_dir home) in
     let! _ := stage_policy env (kavach_data_dir home) (default_policy home) in
     wire_and_report home (default (default_policy home) policy) scripts (feed_file_path home) start mode)).
  apply keeps_bind; [apply stage_scripts_keeps; unfold staged_files; set_solver|intros scripts].
  apply keeps_bind; [apply stage_policy_keeps; unfold staged_files; set_solver|intros _ s].
  intros p Hp Hor. rewrite wire_and_report_files. by apply wire_tools_keeps.
Qed.

(** ** Paths *)

Definition last_bytes (n : nat) (s : string) : list ascii := take n (reverse (String.list_ascii_of_string s)).

Lemma list_ascii_append a b : String.list_ascii_of_string (a +:+ b) = String.list_ascii_of_string a ++ String.list_ascii_of_string b.
Proof. induction a as [|c a IH]; [done|]. rewrite append_cons. simpl. by rewrite IH. Qed.

Lemma last_bytes_join n dir file :
  (n <= length (String.list_ascii_of_string file))%nat -> last_bytes n (path_join_text dir file) = last_bytes n file.
Proof.
  intros Hn. assert (Hx : exists x, path_join_text dir file = x +:+ file).
  { unfold path_join_text. destruct (is_empty dir) eqn:E; [by exists ""|].
    destruct (ends_with "/" dir); [by exists dir|exists (dir +:+ "/"); by rewrite append_assoc]. }
  destruct Hx as [x ->]. unfold last_bytes. rewrite list_ascii_append, reverse_app, take_app_le; [done|].
  by rewrite length_reverse.
Qed.

End Run.

(** Paths whose last nine (or four) bytes differ are different. *)
Ltac paths_differ n :=
  let E := fresh in
  intros E; unfold claude_settings, codex_hooks, opencode_config, opencode_plugin, default_policy in E;
  apply (f_equal (last_bytes n)) in E;
  rewrite !(last_bytes_join n) in E by (vm_compute; lia); by vm_compute in E.

(** ** Documents stay printable *)

Lemma hook_value_wf n e : utf8 (he_command e) = true -> json_wf_at (S n) (hook_value e) = true.
Proof.
  intros H. unfold hook_value, json_object. cbn [fold_left fst snd].
  by repeat (apply json_wf_at_insert; [done|done|]).
Qed.

Lemma group_value_wf n e :
  utf8 (he_matcher e) = true -> utf8 (he_command e) = true ->
  json_wf_at (S (S (S n))) (group_value e) = true.
Proof.
  intros Hm Hc. unfold group_value, json_object. cbn [fold_left fst snd].
  apply json_wf_at_insert; [done| |by apply json_wf_at_insert].
  apply json_wf_at_array. constructor; [by apply hook_value_wf|done].
Qed.

Definition entry_wf (e : HookEntry) : Prop := utf8 (he_matcher e) = true /\ utf8 (he_command e) = true.

Lemma merge_into_wf n e g :
  entry_wf e -> json_wf_at (S (S (S n))) g = true -> json_wf_at (S (S (S n))) (merge_into e g).1 = true.
Proof.
  intros [Hm Hc] Hg. destruct g as [| | | | | |o]; try done. unfold merge_into.
  destruct (obj_get "hooks" o) as [[| | | | |l|]|] eqn:Eh; try done.
  destruct (existsb (same_command e) l); [done|]. destruct (existsb (other_command e) l); [done|].
  cbn [fst]. apply json_wf_at_insert; [done| |done].
  pose proof (json_wf_at_get _ _ _ _ Hg Eh) as Hl. apply json_wf_at_array in Hl. apply json_wf_at_array.
  apply Forall_app. split; [done|]. constructor; [by apply hook_value_wf|done].
Qed.

Lemma merge_entry_wf n e gs :
  entry_wf e -> Forall (fun v => json_wf_at (S (S (S n))) v = true) gs ->
  Forall (fun v => json_wf_at (S (S (S n))) v = true) (merge_entry e gs).1.
Proof.
  intros He. induction 1 as [|g gs Hg Hgs IH]; cbn [merge_entry].
  - destruct He. constructor; [by apply group_value_wf|done].
  - destruct (group_matches e g).
    + pose proof (merge_into_wf n e g He Hg) as H. destruct (merge_into e g). by constructor.
    + destruct (merge_entry e gs). by constructor.
Qed.

Lemma merge_entries_wf n es gs :
  Forall entry_wf es -> Forall (fun v => json_wf_at (S (S (S n))) v = true) gs ->
  Forall (fun v => json_wf_at (S (S (S n))) v = true) (merge_entries es gs).1.
Proof.
  intros Hes. revert gs. induction Hes as [|e es He Hes IH]; intros gs Hgs; [done|]. cbn [merge_entries].
  pose proof (merge_entry_wf n e gs He Hgs) as H1. destruct (merge_entry e gs) as [gs1 w1].
  specialize (IH gs1 H1). by destruct (merge_entries es gs1).
Qed.

Lemma entry_or_wf n k d o :
  json_wf_at (S n) (V_Object o) = true -> json_wf_at n d = true -> json_wf_at n (entry_or k d o) = true.
Proof.
  intros Ho Hd. unfold entry_or. destruct (obj_get k o) as [v|] eqn:E; [|done].
  by apply (json_wf_at_get _ _ _ _ Ho E).
Qed.

Lemma merge_hook_wf doc es :
  json_wf doc = true -> as_object doc <> None -> Forall entry_wf es ->
  json_wf (merge_hook_entries doc es).1 = true.
Proof.
  unfold json_wf. destruct doc as [| | | | | |o]; try done. intros Ho _ Hes.
  unfold merge_hook_entries. cbn [object_or_new].
  pose proof (entry_or_wf 126 "hooks" (V_Object []) o Ho eq_refl) as Hh.
  destruct (entry_or "hooks" (V_Object []) o) as [| | | | | |hm]; try done.
  pose proof (entry_or_wf 125 "PreToolUse" (V_Array []) hm Hh eq_refl) as Hp.
  destruct (entry_or "PreToolUse" (V_Array []) hm) as [| | | | |gs|]; try done.
  apply json_wf_at_array in Hp. pose proof (merge_entries_wf 121 es gs Hes Hp) as Hm.
  destruct (merge_entries es gs) as [gs' w]. cbn [fst] in *.
  apply json_wf_at_insert; [done| |done]. apply json_wf_at_insert; [done| |done]. by apply json_wf_at_array.
Qed.

Lemma merge_plugin_wf doc path :
  json_wf doc = true -> as_object doc <> None -> utf8 path = true ->
  json_wf (merge_opencode_plugin doc path).1 = true.
Proof.
  unfold json_wf. destruct doc as [| | | | | |o]; try done. intros Ho _ Hp.
  unfold merge_opencode_plugin. cbn [object_or_new].
  pose proof (entry_or_wf 126 "plugin" (V_Array []) o Ho eq_refl) as Hh.
  destruct (entry_or "plugin" (V_Array []) o) as [| | | | |l|]; try done.
  destruct (existsb _ l); [done|]. cbn [fst]. apply json_wf_at_insert; [done| |done].
  apply json_wf_at_array in Hh. apply json_wf_at_array, Forall_app. by repeat constructor.
Qed.

Lemma merge_hook_object doc es : as_object (merge_hook_entries doc es).1 <> None.
Proof. unfold merge_hook_entries. repeat case_match; done. Qed.

Lemma merge_plugin_object doc path : as_object (merge_opencode_plugin doc path).1 <> None.
Proof. unfold merge_opencode_plugin. repeat case_match; done. Qed.

(** ** Running again *)

Section Again.
Context {JT : JsonText} {JP : JsonPrint} {PL : PrettyLaws} {ST : SetupTexts}.
Context (env : SetupEnv).

(** No operation fails. *)
Definition quiet : Prop :=
  (forall p, se_mkdir env p = None) /\ (forall p, se_unreadable env p = false)
  /\ forall p, se_write env p = None.

Context (Hq : quiet).

Definition pretty_text (doc : Value) : string :=
  match json_to_string_pretty doc with Ok t => t | Err _ => "" end.

Lemma quiet_write path text s : fs_write env path text s = (Ok tt, set_file path text s).
Proof. unfold fs_write. by rewrite (proj2 (proj2 Hq)). Qed.

Lemma quiet_write_json path doc s :
  json_wf doc = true -> write_json_file env path doc s = (Ok tt, set_file path (pretty_text doc) s).
Proof.
  intros Hd. destruct (pretty_round_trip _ Hd) as (t & Ht & _).
  unfold write_json_file, st_bind, fs_create_dir_all, st_lift, pretty_text.
  rewrite (proj1 Hq), Ht. apply quiet_write.
Qed.

Lemma read_object path s : as_object (read_json_file env path s) <> None.
Proof. unfold read_json_file. repeat case_match; done. Qed.

(** A document that was written is read back. *)
Lemma read_written path doc s :
  json_wf doc = true -> as_object doc <> None -> ss_files s !! path = Some (pretty_text doc) ->
  read_json_file env path s = doc.
Proof.
  intros Hd Ho Hs. destruct (pretty_round_trip _ Hd) as (t & Ht & Hp & Hu).
  unfold read_json_file, fs_read, pretty_text in *. rewrite Hs, (proj1 (proj2 Hq)), Ht, Hu, Hp.
  by destruct doc.
Qed.

(** What a step that rewrites a document by [f] does, and that it does nothing the second
    time when [f] is a closure. *)
Definition rewrite_doc (f : Value -> Value) (path : string) (s : SetupState) : SetupState :=
  set_file path (pretty_text (f (read_json_file env path s))) s.

Lemma rewrite_doc_again f path s t :
  (forall doc, f (f doc) = f doc) ->
  json_wf (f (read_json_file env path s)) = true -> as_object (f (read_json_file env path s)) <> None ->
  ss_files t !! path = ss_files (rewrite_doc f path s) !! path ->
  ss_files (rewrite_doc f path t) = ss_files t.
Proof.
  intros Hf Hwf Ho Ht. unfold rewrite_doc in *. simpl in *. rewrite lookup_insert_eq in Ht.
  rewrite (read_written path _ t Hwf Ho Ht), Hf. by apply insert_id.
Qed.

Lemma wire_hooks_quiet tool path es s :
  json_wf (read_json_file env path s) = true -> Forall entry_wf es ->
  (wire_hooks env tool path es s).2 = rewrite_doc (fun doc => (merge_hook_entries doc es).1) path s.
Proof.
  intros Hd Hes. pose proof (merge_hook_wf _ es Hd (read_object path s) Hes) as Hm.
  unfold wire_hooks, rewrite_doc. destruct (merge_hook_entries (read_json_file env path s) es) as [merged w].
  simpl in *. by rewrite quiet_write_json.
Qed.

(** The wiring of an agent whose configuration is at [path] and that is detected by
    [detected]. *)
Definition wire_if (detected : SetupState -> bool) (f : Value -> Value) (path : string) (s : SetupState)
  : SetupState :=
  if detected s then rewrite_doc f path s else s.

Lemma wire_if_again detected f path s t :
  (forall doc, f (f doc) = f doc) ->
  json_wf (f (read_json_file env path s)) = true -> as_object (f (read_json_file env path s)) <> None ->
  ss_files t !! path = ss_files (wire_if detected f path s) !! path ->
  (ss_files s !! path = ss_files t !! path -> detected t = detected s) ->
  (is_Some (ss_files t !! path) -> detected t = true) ->
  ss_files (wire_if detected f path t) = ss_files t.
Proof.
  intros Hf Hwf Ho Ht Hsame Hfile. unfold wire_if in *. destruct (detected s) eqn:E.
  - rewrite Hfile; [by eapply rewrite_doc_again|]. rewrite Ht. unfold rewrite_doc. simpl.
    by rewrite lookup_insert_eq.
  - by rewrite Hsame.
Qed.

Lemma quoted_Utf8 path : Utf8 (quoted path).
Proof.
  apply Utf8_append; [by apply utf8_spec|]. apply Utf8_append; [apply utf8_lossy_Utf8|by apply utf8_spec].
Qed.

Lemma ps_hook_command_utf8 script policy feed : utf8 (ps_hook_command script policy feed) = true.
Proof.
  apply utf8_spec. unfold ps_hook_command.
  do 5 (apply Utf8_append; [first [apply quoted_Utf8|by apply utf8_spec]|]). apply quoted_Utf8.
Qed.

Definition claude_entries (home policy feed : string) : list HookEntry :=
  [mkHookEntry CLAUDE_MATCHER
     (ps_hook_command (path_join_text (adapters_dir home) "kavach-claude-hook.ps1") policy feed)].

Definition codex_entries (home policy feed : string) : list HookEntry :=
  map (fun matcher => mkHookEntry matcher
         (ps_hook_command (path_join_text (adapters_dir home) "kavach-codex-hook.ps1") policy feed))
    ["Bash"; "apply_patch"].

Lemma claude_entries_wf home policy feed : Forall entry_wf (claude_entries home policy feed).
Proof. repeat constructor; apply ps_hook_command_utf8. Qed.

Lemma codex_entries_wf home policy feed : Forall entry_wf (codex_entries home policy feed).
Proof. repeat constructor; apply ps_hook_command_utf8. Qed.

Definition staged (home : string) : StagedScripts :=
  {| claude_hook := path_join_text (adapters_dir home) "kavach-claude-hook.ps1";
     codex_hook := path_join_text (adapters_dir home) "kavach-codex-hook.ps1" |}.

Definition claude_detected (home : string) (s : SetupState) : bool :=
  fs_is_file (claude_settings home) s || on_path env "claude" s.

Definition codex_detected (home : string) (s : SetupState) : bool :=
  fs_is_file (codex_hooks home) s
  || fs_is_file (path_join_text (path_join_text home ".codex") "config.toml") s
  || on_path env "codex" s.

Definition opencode_detected (home : string) (s : SetupState) : bool :=
  fs_is_file (opencode_config home) s || on_path env "opencode" s.

Lemma setup_claude_quiet home policy feed s :
  json_wf (read_json_file env (claude_settings home) s) = true ->
  (setup_claude env home (staged home) policy feed s).2
  = wire_if (claude_detected home)
      (fun doc => (merge_hook_entries doc (claude_entries home policy feed)).1) (claude_settings home) s.
Proof.
  intros Hd. unfold setup_claude, wire_if, claude_detected. destruct (_ || _); [|done]. cbn [negb].
  apply wire_hooks_quiet; [done|]. apply claude_entries_wf.
Qed.

Lemma setup_codex_quiet home policy feed s :
  json_wf (read_json_file env (codex_hooks home) s) = true ->
  (setup_codex env home (staged home) policy feed s).2
  = wire_if (codex_detected home)
      (fun doc => (merge_hook_entries doc (codex_entries home policy feed)).1) (codex_hooks home) s.
Proof.
  intros Hd. unfold setup_codex, wire_if, codex_detected. destruct (_ || _ || _); [|done]. cbn [negb].
  apply wire_hooks_quiet; [done|]. apply codex_entries_wf.
Qed.

(** A new file. *)
Definition ensure (path text : string) (s : SetupState) : SetupState :=
  if fs_is_file path s then s else set_file path text s.

Lemma write_new_quiet path text s : write_new env path text s = (Ok tt, ensure path text s).
Proof. unfold write_new, ensure. destruct (fs_is_file path s); [done|]. apply quiet_write. Qed.

Definition plugin_ensured (home : string) (s : SetupState) : SetupState :=
  if opencode_detected home s then ensure (opencode_plugin home) OPENCODE_HOOK s else s.

Lemma setup_opencode_quiet home s :
  json_wf (read_json_file env (opencode_config home) (plugin_ensured home s)) = true ->
  (setup_opencode env home s).2
  = if opencode_detected home s then
      rewrite_doc (fun doc => (merge_opencode_plugin doc (utf8_lossy (opencode_plugin home))).1)
        (opencode_config home) (ensure (opencode_plugin home) OPENCODE_HOOK s)
    else s.
Proof.
  unfold setup_opencode, plugin_ensured, opencode_detected. fold (opencode_plugin home).
  destruct (_ || _); [|done]. cbn [negb]. intros Hd.
  assert (Hs : stage_plugin env (opencode_plugin home) s
               = (Ok tt, ensure (opencode_plugin home) OPENCODE_HOOK s)).
  { unfold stage_plugin, ensure. destruct (fs_is_file _ s); [done|].
    unfold st_bind, fs_create_dir_all, st_lift. rewrite (proj1 Hq). apply quiet_write. }
  rewrite Hs. set (s1 := ensure _ _ s) in *.
  assert (Hm : json_wf (merge_opencode_plugin (read_json_file env (opencode_config home) s1)
                          (utf8_lossy (opencode_plugin home))).1 = true).
  { apply merge_plugin_wf; [done|apply read_object|]. apply utf8_spec, utf8_lossy_Utf8. }
  unfold rewrite_doc. destruct (merge_opencode_plugin _ _) as [merged already]. simpl in *.
  by rewrite quiet_write_json.
Qed.

Lemma is_file_eq path s t : ss_files t !! path = ss_files s !! path -> fs_is_file path t = fs_is_file path s.
Proof. intros E. unfold fs_is_file. by rewrite E. Qed.

Lemma read_eq path s t :
  ss_files t !! path = ss_files s !! path -> read_json_file env path t = read_json_file env path s.
Proof. intros E. unfold read_json_file, fs_read. by rewrite E. Qed.

(** No file that is written has the name of a program that is looked for. *)
Lemma on_path_same home name s t :
  name ∈ ["claude"; "codex"; "opencode"] ->
  careful (config_files home) (staged_files home) s t -> on_path env name t = on_path env name s.
Proof.
  intros Hn Hc. unfold on_path. destruct (se_var env "PATH"); [|done].
  induction (split_on is_colon s0) as [|dir dirs IH]; [done|]. simpl. rewrite IH. f_equal. apply is_file_eq.
  rewrite !elem_of_cons, elem_of_nil in Hn.
  apply Hc; [|right]; unfold config_files, staged_files, script_files; cbn [app];
    rewrite !elem_of_cons, elem_of_nil; intros Hp;
    repeat (destruct Hp as [Hp|Hp]; [revert Hp; destruct Hn as [->|[->|[->|[]]]]; paths_differ 4%nat|]); by destruct Hp.
Qed.

(** The files that are staged before the agents are wired. *)
Definition staged_state (home : string) (s : SetupState) : SetupState :=
  ensure (default_policy home) privacy_starter_embedded
    (ensure (path_join_text (adapters_dir home) "kavach-codex-hook.ps1") CODEX_HOOK
       (ensure (path_join_text (adapters_dir home) "kavach-claude-hook.ps1") CLAUDE_HOOK
          (ensure (path_join_text (adapters_dir home) "kavach-adapter-common.psm1") COMMON_MODULE s))).

Lemma stage_scripts_quiet home s :
  stage_scripts env (adapters_dir home) s
  = (Ok (staged home),
     ensure (path_join_text (adapters_dir home) "kavach-codex-hook.ps1") CODEX_HOOK
       (ensure (path_join_text (adapters_dir home) "kavach-claude-hook.ps1") CLAUDE_HOOK
          (ensure (path_join_text (adapters_dir home) "kavach-adapter-common.psm1") COMMON_MODULE s))).
Proof.
  unfold stage_scripts, st_bind, fs_create_dir_all, st_lift. by rewrite (proj1 Hq), !write_new_quiet.
Qed.

Lemma stage_policy_quiet dir path s :
  stage_policy env dir path s = (Ok tt, ensure path privacy_starter_embedded s).
Proof.
  unfold stage_policy, ensure. destruct (fs_is_file path s); [done|].
  unfold st_bind, fs_create_dir_all, st_lift. rewrite (proj1 Hq). apply quiet_write.
Qed.

Lemma setup_run_quiet home policy start mode s :
  home_dir env = Some home ->
  ss_files (setup_run env policy start mode s).2
  = ss_files (wire_tools env home (default (default_policy home) policy) (staged home)
                (feed_file_path home) (staged_state home s)).2.
Proof.
  intros Hh. rewrite (setup_run_eq env home) by done. unfold st_bind.
  rewrite stage_scripts_quiet, stage_policy_quiet. apply wire_and_report_files.
Qed.

(** Staging again does nothing. *)
Lemma ensure_file path text s : fs_is_file path (ensure path text s) = true.
Proof.
  unfold ensure. destruct (fs_is_file path s) eqn:E; [done|].
  unfold fs_is_file. simpl. rewrite lookup_insert_eq. by apply bool_decide_eq_true.
Qed.

Lemma ensure_keeps path path' text s : fs_is_file path s = true -> fs_is_file path (ensure path' text s) = true.
Proof.
  unfold ensure. destruct (fs_is_file path' s); [done|]. unfold fs_is_file. simpl.
  rewrite !bool_decide_eq_true. destruct (decide (path = path')) as [->|Hne].
  - rewrite lookup_insert_eq. by eexists.
  - by rewrite lookup_insert_ne.
Qed.

Lemma ensure_id path text s : fs_is_file path s = true -> ensure path text s = s.
Proof. unfold ensure. by intros ->. Qed.

Lemma ensure_careful C S path text s : path ∈ S -> careful C S s (ensure path text s).
Proof. intros Hp. unfold ensure. destruct (fs_is_file path s) eqn:E; [done|]. by apply careful_new. Qed.

Definition early_files (home : string) : list string := script_files home ++ [default_policy home].

Lemma early_staged home p : p ∈ early_files home -> p ∈ staged_files home.
Proof.
  unfold early_files, staged_files. rewrite !elem_of_app, !elem_of_cons. intros [H|[H|H]]; [by left| |].
  - right. by left.
  - by apply elem_of_nil in H.
Qed.

Lemma staged_state_files home s p : p ∈ early_files home -> fs_is_file p (staged_state home s) = true.
Proof.
  unfold early_files, script_files, staged_state. cbn [app]. rewrite !elem_of_cons, elem_of_nil.
  intros [->|[->|[->|[->|[]]]]]; repeat first [apply ensure_file|apply ensure_keeps].
Qed.

Lemma staged_state_id home s :
  (forall p, p ∈ early_files home -> fs_is_file p s = true) -> staged_state home s = s.
Proof.
  unfold early_files, script_files, staged_state. cbn [app]. intros H.
  rewrite !(ensure_id _ _ s); [done|apply H; set_solver..].
Qed.

Lemma staged_state_careful C home s : careful C (early_files home) s (staged_state home s).
Proof.
  unfold staged_state, early_files, script_files. cbn [app].
  repeat (eapply careful_trans; [|apply ensure_careful; set_solver]). done.
Qed.

(** Configuration files are not staged files, and differ from each other. *)
Lemma config_not_staged home p : p ∈ config_files home -> p ∉ staged_files home.
Proof.
  unfold config_files, staged_files, script_files. cbn [app]. rewrite !elem_of_cons, !elem_of_nil.
  intros Hc Hs. destruct Hc as [->|[->|[->|[]]]];
    (destruct Hs as [Hs|[Hs|[Hs|[Hs|[Hs|[]]]]]]; revert Hs; paths_differ 4%nat).
Qed.

Lemma configs_differ home :
  claude_settings home <> codex_hooks home /\ claude_settings home <> opencode_config home
  /\ codex_hooks home <> opencode_config home.
Proof. split_and!; paths_differ 9%nat. Qed.

(** ** The second run *)

Section Second.
Context (home policy feed : string).

Definition claude_merge (doc : Value) : Value := (merge_hook_entries doc (claude_entries home policy feed)).1.
Definition codex_merge (doc : Value) : Value := (merge_hook_entries doc (codex_entries home policy feed)).1.
Definition plugin_merge (doc : Value) : Value :=
  (merge_opencode_plugin doc (utf8_lossy (opencode_plugin home))).1.

(** The configuration files hold documents that the library prints and reads back
    unchanged: no number has a fraction, integers fit, texts are UTF-8, and the nesting is
    at most as deep as the library reads.  (A file that holds no JSON object is read as an
    empty one.) *)
Definition docs_ok (s : SetupState) : Prop :=
  Forall (fun p => json_wf (read_json_file env p s) = true) (config_files home).

Lemma docs_ok_careful s s' :
  docs_ok s -> careful [] (staged_files home) s s' -> docs_ok s'.
Proof.
  unfold docs_ok. rewrite !Forall_forall. intros Hd Hc p Hp. rewrite (read_eq p s s'); [by apply Hd|].
  apply Hc; [set_solver|]. right. by apply config_not_staged.
Qed.

Let claude_step (s : SetupState) := wire_if (claude_detected home) claude_merge (claude_settings home) s.
Let codex_step (s : SetupState) := wire_if (codex_detected home) codex_merge (codex_hooks home) s.
Let opencode_step (s : SetupState) :=
  if opencode_detected home s then
    rewrite_doc plugin_merge (opencode_config home) (ensure (opencode_plugin home) OPENCODE_HOOK s)
  else s.

Lemma wire_if_other detected f path p s : p <> path -> ss_files (wire_if detected f path s) !! p = ss_files s !! p.
Proof. intros Hp. unfold wire_if, rewrite_doc. destruct (detected s); [|done]. by apply lookup_insert_ne. Qed.

Lemma ensure_other p path text s : p <> path -> ss_files (ensure path text s) !! p = ss_files s !! p.
Proof. intros Hp. unfold ensure. destruct (fs_is_file path s); [done|]. by apply lookup_insert_ne. Qed.

Lemma opencode_other p s :
  p <> opencode_config home -> p <> opencode_plugin home -> ss_files (opencode_step s) !! p = ss_files s !! p.
Proof.
  intros H1 H2. unfold opencode_step. destruct (opencode_detected home s); [|done].
  unfold rewrite_doc. simpl. rewrite lookup_insert_ne by done. by apply ensure_other.
Qed.

Lemma wire_tools_quiet s :
  docs_ok s ->
  (wire_tools env home policy (staged home) feed s).2 = opencode_step (codex_step (claude_step s)).
Proof.
  intros Hd. destruct (configs_differ home) as (D1 & D2 & D3).
  unfold docs_ok, config_files in Hd. rewrite !Forall_cons in Hd. destruct Hd as (H1 & H2 & H3 & _).
  unfold wire_tools. pose proof (setup_claude_quiet home policy feed s H1 : _ = claude_step s) as E1.
  destruct (setup_claude env home (staged home) policy feed s) as [o1 s1]. simpl in E1. subst s1.
  assert (E2 : (setup_codex env home (staged home) policy feed (claude_step s)).2 = codex_step (claude_step s)).
  { apply setup_codex_quiet. rewrite (read_eq _ s); [done|by apply wire_if_other]. }
  destruct (setup_codex env home (staged home) policy feed (claude_step s)) as [o2 s2].
  simpl in E2. subst s2.
  pose proof (setup_opencode_quiet home (codex_step (claude_step s))) as E3.
  destruct (setup_opencode env home (codex_step (claude_step s))) as [o3 s3]. cbn [snd] in *. apply E3.
  rewrite (read_eq _ s); [done|]. unfold plugin_ensured.
  assert (Hx : ss_files (codex_step (claude_step s)) !! opencode_config home = ss_files s !! opencode_config home).
  { unfold codex_step. rewrite wire_if_other by done. by apply wire_if_other. }
  destruct (opencode_detected _ _); [|done]. rewrite ensure_other; [done|].
  intros E. apply (config_not_staged home (opencode_config home)); [unfold config_files; set_solver|].
  rewrite E. unfold staged_files. rewrite !elem_of_app, !elem_of_cons. tauto.
Qed.

Lemma claude_again s t :
  docs_ok s -> careful (config_files home) (staged_files home) s t ->
  ss_files t !! claude_settings home = ss_files (claude_step s) !! claude_settings home ->
  ss_files (claude_step t) = ss_files t.
Proof.
  intros Hd Hc Ht. unfold docs_ok, config_files in Hd. rewrite !Forall_cons in Hd.
  destruct Hd as (H1 & _). unfold claude_step in *.
  eapply wire_if_again; [intros doc; unfold claude_merge; by rewrite merge_hook_again| | |exact Ht| |].
  - apply merge_hook_wf; [done|apply read_object|apply claude_entries_wf].
  - apply merge_hook_object.
  - intros E. unfold claude_detected. rewrite (is_file_eq _ s t) by done.
    by rewrite (on_path_same home "claude" s t) by (set_solver || done).
  - intros Hs. unfold claude_detected, fs_is_file. by rewrite bool_decide_true.
Qed.

Lemma config_toml_kept s t :
  careful (config_files home) (staged_files home) s t ->
  fs_is_file (path_join_text (path_join_text home ".codex") "config.toml") t
  = fs_is_file (path_join_text (path_join_text home ".codex") "config.toml") s.
Proof.
  intros Hc. apply is_file_eq, Hc; [|right]; unfold config_files, staged_files, script_files; cbn [app];
    rewrite !elem_of_cons, elem_of_nil; intros Hp;
    repeat (destruct Hp as [Hp|Hp]; [revert Hp; paths_differ 9%nat|]); by destruct Hp.
Qed.

Lemma codex_again s t :
  json_wf (read_json_file env (codex_hooks home) s) = true ->
  careful (config_files home) (staged_files home) s t ->
  ss_files t !! codex_hooks home = ss_files (codex_step s) !! codex_hooks home ->
  ss_files (codex_step t) = ss_files t.
Proof.
  intros H2 Hc Ht. unfold codex_step in *.
  eapply wire_if_again; [intros doc; unfold codex_merge; by rewrite merge_hook_again| | |exact Ht| |].
  - apply merge_hook_wf; [done|apply read_object|apply codex_entries_wf].
  - apply merge_hook_object.
  - intros E. unfold codex_detected. rewrite (is_file_eq (codex_hooks home) s t) by done.
    by rewrite (on_path_same home "codex" s t), (config_toml_kept s t) by (set_solver || done).
  - intros Hs. unfold codex_detected, fs_is_file at 1. by rewrite bool_decide_true.
Qed.

Lemma plugin_not_config : opencode_config home <> opencode_plugin home.
Proof.
  intros E. apply (config_not_staged home (opencode_config home)); [unfold config_files; set_solver|].
  rewrite E. unfold staged_files. rewrite !elem_of_app, !elem_of_cons. tauto.
Qed.

Lemma opencode_again s t :
  json_wf (read_json_file env (opencode_config home) s) = true ->
  ss_files t = ss_files (opencode_step s) -> ss_files (opencode_step t) = ss_files t.
Proof.
  intros H3 Ht. unfold opencode_step in Ht. pose proof plugin_not_config as Hne.
  destruct (opencode_detected home s) eqn:E.
  - assert (Hp : fs_is_file (opencode_plugin home) t = true).
    { rewrite (is_file_eq _ (ensure (opencode_plugin home) OPENCODE_HOOK s)); [apply ensure_file|].
      rewrite Ht. unfold rewrite_doc. simpl. by apply lookup_insert_ne. }
    assert (Hd : opencode_detected home t = true).
    { unfold opencode_detected, fs_is_file at 1. rewrite Ht. unfold rewrite_doc. simpl.
      rewrite lookup_insert_eq. by rewrite bool_decide_true. }
    unfold opencode_step. rewrite Hd, ensure_id by done.
    eapply rewrite_doc_again; [intros doc; apply merge_plugin_again| | |by rewrite Ht].
    + rewrite (read_eq _ s) by by apply ensure_other.
      apply merge_plugin_wf; [done|apply read_object|apply utf8_spec, utf8_lossy_Utf8].
    + apply merge_plugin_object.
  - unfold opencode_step. unfold opencode_detected, fs_is_file, on_path, fs_is_file in *.
    rewrite <- Ht in E. by rewrite E.
Qed.

Lemma wire_if_wf detected f path s :
  json_wf (read_json_file env path s) = true ->
  json_wf (f (read_json_file env path s)) = true -> as_object (f (read_json_file env path s)) <> None ->
  json_wf (read_json_file env path (wire_if detected f path s)) = true.
Proof.
  intros H1 H2 Ho. unfold wire_if. destruct (detected s); [|done].
  rewrite (read_written path (f (read_json_file env path s))); [done|done|done|].
  unfold rewrite_doc. simpl. by apply lookup_insert_eq.
Qed.

Lemma opencode_wf s :
  json_wf (read_json_file env (opencode_config home) s) = true ->
  json_wf (read_json_file env (opencode_config home) (opencode_step s)) = true.
Proof.
  intros H3. unfold opencode_step. destruct (opencode_detected home s); [|done].
  assert (Hm : json_wf (plugin_merge (read_json_file env (opencode_config home)
                 (ensure (opencode_plugin home) OPENCODE_HOOK s))) = true).
  { rewrite (read_eq _ s) by apply ensure_other, plugin_not_config.
    apply merge_plugin_wf; [done|apply read_object|apply utf8_spec, utf8_lossy_Utf8]. }
  erewrite read_written; [exact Hm|exact Hm|apply merge_plugin_object|].
  unfold rewrite_doc. simpl. apply lookup_insert_eq.
Qed.

(** Each configuration file after the three steps is as its own step left it. *)
Lemma steps_claude s :
  ss_files (opencode_step (codex_step (claude_step s))) !! claude_settings home
  = ss_files (claude_step s) !! claude_settings home.
Proof.
  destruct (configs_differ home) as (D1 & D2 & D3).
  rewrite opencode_other; [by apply wire_if_other|done|].
  intros E. apply (config_not_staged home (claude_settings home)); [unfold config_files; set_solver|].
  rewrite E. unfold staged_files. rewrite !elem_of_app, !elem_of_cons. tauto.
Qed.

Lemma steps_codex s :
  ss_files (opencode_step (codex_step (claude_step s))) !! codex_hooks home
  = ss_files (codex_step (claude_step s)) !! codex_hooks home.
Proof.
  destruct (configs_differ home) as (D1 & D2 & D3). apply opencode_other; [done|].
  intros E. apply (config_not_staged home (codex_hooks home)); [unfold config_files; set_solver|].
  rewrite E. unfold staged_files. rewrite !elem_of_app, !elem_of_cons. tauto.
Qed.

Lemma claude_step_docs s :
  docs_ok s -> json_wf (read_json_file env (codex_hooks home) (claude_step s)) = true
  /\ json_wf (read_json_file env (opencode_config home) (codex_step (claude_step s))) = true.
Proof.
  intros Hd. unfold docs_ok, config_files in Hd. rewrite !Forall_cons in Hd. destruct Hd as (_ & H2 & H3 & _).
  destruct (configs_differ home) as (D1 & D2 & D3). split.
  - rewrite (read_eq _ s); [done|]. by apply wire_if_other.
  - rewrite (read_eq _ s); [done|]. unfold codex_step. rewrite wire_if_other by done. by apply wire_if_other.
Qed.

Lemma docs_ok_after s : docs_ok s -> docs_ok (opencode_step (codex_step (claude_step s))).
Proof.
  intros Hd. destruct (claude_step_docs s Hd) as [H2 H3]. unfold docs_ok, config_files in *.
  rewrite !Forall_cons in *. destruct Hd as (H1 & _). split_and!; [| | |done].
  - rewrite (read_eq _ (claude_step s)) by apply steps_claude. apply wire_if_wf; [done| |apply merge_hook_object].
    apply merge_hook_wf; [done|apply read_object|apply claude_entries_wf].
  - rewrite (read_eq _ (codex_step (claude_step s))) by apply steps_codex.
    apply wire_if_wf; [done| |apply merge_hook_object].
    apply merge_hook_wf; [done|apply read_object|apply codex_entries_wf].
  - by apply opencode_wf.
Qed.

(** Wiring again the files that wiring left changes nothing. *)
Lemma wire_tools_again s t :
  docs_ok s -> ss_files t = ss_files (wire_tools env home policy (staged home) feed s).2 ->
  ss_files (wire_tools env home policy (staged home) feed t).2 = ss_files t.
Proof.
  intros Hd Ht. pose proof (wire_tools_keeps env home policy (staged home) feed s) as Hc.
  rewrite wire_tools_quiet in Ht, Hc by done.
  assert (Hct : careful (config_files home) (staged_files home) s t).
  { intros p Hp Hor. rewrite Ht. by apply Hc. }
  destruct (claude_step_docs s Hd) as [H2 H3].
  rewrite wire_tools_quiet; [|unfold docs_ok; eapply Forall_impl; [by apply docs_ok_after|]; cbn;
    intros p Hp; rewrite (read_eq p (opencode_step (codex_step (claude_step s)))); [done|by rewrite Ht]].
  assert (E1 : ss_files (claude_step t) = ss_files t).
  { apply (claude_again s); [done..|]. rewrite Ht. apply steps_claude. }
  assert (E2 : ss_files (codex_step (claude_step t)) = ss_files t).
  { rewrite <- E1. apply (codex_again (claude_step s)); [done| |by rewrite E1, Ht; apply steps_codex].
    intros p Hp Hor. rewrite E1. assert (Hs : ss_files (claude_step s) !! p = ss_files s !! p).
    { apply wire_if_other. intros ->. apply Hp. unfold config_files. rewrite !elem_of_cons. by left. }
    rewrite Hs in *. by apply Hct. }
  rewrite <- E2. apply (opencode_again (codex_step (claude_step s))); [done|]. by rewrite E2.
Qed.

End Second.

Lemma setup_run_again home policy start mode start' mode' s :
  home_dir env = Some home -> docs_ok home s ->
  ss_files (setup_run env policy start' mode' (setup_run env policy start mode s).2).2
  = ss_files (setup_run env policy start mode s).2.
Proof.
  intros Hh Hd. rewrite (setup_run_quiet home) by done.
  set (t := (setup_run env policy start mode s).2).
  assert (Ht : ss_files t = ss_files (wire_tools env home (default (default_policy home) policy) (staged home)
                                       (feed_file_path home) (staged_state home s)).2).
  { by apply setup_run_quiet. }
  rewrite staged_state_id.
  - eapply wire_tools_again; [|exact Ht]. eapply docs_ok_careful; [exact Hd|].
    intros p Hp Hor. apply (staged_state_careful []); [done|]. destruct Hor as [|Hn]; [by left|right].
    intros Hin. by apply Hn, early_staged.
  - intros p Hp. rewrite (is_file_eq p (staged_state home s)); [by apply staged_state_files|].
    rewrite Ht. apply wire_tools_keeps.
    + intros Hc. apply (config_not_staged home p Hc). by apply early_staged.
    + left. pose proof (staged_state_files home s p Hp) as Hf. by apply bool_decide_eq_true in Hf.
Qed.

End Again.

(** ** Only what is detected is wired *)

Section Detected.
Context {JT : JsonText} {JP : JsonPrint} {ST : SetupTexts}.
Context (env : SetupEnv) (home : string).

(** The configuration files of the agents that are detected. *)
Definition wired_configs (s : SetupState) : list string :=
  (if claude_detected env home s then [claude_settings home] else [])
  ++ (if codex_detected env home s then [codex_hooks home] else [])
  ++ (if opencode_detected env home s then [opencode_config home] else []).

(** The files that may be created beside them: the scripts, the default policy, and the
    plugin of OpenCode if that is detected. *)
Definition created_files (s : SetupState) : list string :=
  early_files home ++ (if opencode_detected env home s then [opencode_plugin home] else []).

Lemma wired_configs_sub s p : p ∈ wired_configs s -> p ∈ config_files home.
Proof. unfold wired_configs, config_files. repeat case_match; set_solver. Qed.

Lemma created_files_sub s p : p ∈ created_files s -> p ∈ staged_files home.
Proof.
  unfold created_files. rewrite elem_of_app. intros [H|H]; [by apply early_staged|].
  destruct (opencode_detected env home s); [|by apply elem_of_nil in H].
  unfold staged_files. set_solver.
Qed.

Lemma careful_sub C S C' S' s s' :
  (forall p, p ∈ C -> p ∈ C') -> (forall p, p ∈ S -> p ∈ S') -> careful C S s s' -> careful C' S' s s'.
Proof. intros HC HS Hc p Hp Hor. apply Hc; naive_solver. Qed.

Section Run.
Context (s0 : SetupState).

(** What was done so far left the files of the agents that are not detected alone. *)
Abbreviation so_far := (careful (wired_configs s0) (created_files s0) s0).

Lemma so_far_all s : so_far s -> careful (config_files home) (staged_files home) s0 s.
Proof. apply careful_sub; [apply wired_configs_sub|apply created_files_sub]. Qed.

Lemma so_far_config s path :
  so_far s -> path ∈ config_files home -> path ∉ wired_configs s0 ->
  fs_is_file path s = fs_is_file path s0.
Proof.
  intros Hs Hp Hn. apply is_file_eq, Hs; [done|right].
  intros Hx%created_files_sub. by apply (config_not_staged home path).
Qed.

Lemma claude_wired s : so_far s -> claude_detected env home s = true -> claude_settings home ∈ wired_configs s0.
Proof.
  intros Hs Hd. destruct (decide (claude_settings home ∈ wired_configs s0)) as [|Hn]; [done|exfalso].
  assert (H : claude_detected env home s0 = true).
  { rewrite <- Hd. unfold claude_detected. rewrite (so_far_config s) by (done || (unfold config_files; set_solver)).
    by rewrite (on_path_same env home "claude" s0 s) by (set_solver || by apply so_far_all). }
  apply Hn. unfold wired_configs. rewrite H. set_solver.
Qed.

Lemma codex_wired s : so_far s -> codex_detected env home s = true -> codex_hooks home ∈ wired_configs s0.
Proof.
  intros Hs Hd. destruct (decide (codex_hooks home ∈ wired_configs s0)) as [|Hn]; [done|exfalso].
  assert (H : codex_detected env home s0 = true).
  { rewrite <- Hd. unfold codex_detected. rewrite (so_far_config s) by (done || (unfold config_files; set_solver)).
    rewrite (config_toml_kept home s0 s) by by apply so_far_all.
    by rewrite (on_path_same env home "codex" s0 s) by (set_solver || by apply so_far_all). }
  apply Hn. unfold wired_configs. rewrite H. set_solver.
Qed.

Lemma opencode_wired s :
  so_far s -> opencode_detected env home s = true ->
  opencode_config home ∈ wired_configs s0 /\ opencode_plugin home ∈ created_files s0.
Proof.
  intros Hs Hd. assert (H : opencode_detected env home s0 = true).
  { destruct (opencode_detected env home s0) eqn:E; [done|]. rewrite <- E, <- Hd. unfold opencode_detected.
    rewrite (so_far_config s); [|done|unfold config_files; set_solver|].
    - by rewrite (on_path_same env home "opencode" s0 s) by (set_solver || by apply so_far_all).
    - destruct (configs_differ home) as (_ & D2 & D3). unfold wired_configs. rewrite E.
      rewrite !elem_of_app. intros [Hx|[Hx|Hx]]; repeat case_match; set_solver. }
  unfold wired_configs, created_files. rewrite H. set_solver.
Qed.

Lemma so_far_claude scripts policy feed s :
  so_far s -> so_far (setup_claude env home scripts policy feed s).2.
Proof.
  intros Hs. pose proof (claude_wired s Hs) as Hw. unfold claude_detected in Hw.
  unfold setup_claude. destruct (_ || _); cbn [negb]; [|done].
  eapply careful_trans; [exact Hs|]. by apply wire_hooks_keeps, Hw.
Qed.

Lemma so_far_codex scripts policy feed s :
  so_far s -> so_far (setup_codex env home scripts policy feed s).2.
Proof.
  intros Hs. pose proof (codex_wired s Hs) as Hw. unfold codex_detected in Hw.
  unfold setup_codex. destruct (_ || _ || _); cbn [negb]; [|done].
  eapply careful_trans; [exact Hs|]. by apply wire_hooks_keeps, Hw.
Qed.

Lemma so_far_opencode s : so_far s -> so_far (setup_opencode env home s).2.
Proof.
  intros Hs. destruct (opencode_detected env home s) eqn:E.
  - destruct (opencode_wired s Hs E) as [Hc Hp].
    eapply careful_trans; [exact Hs|]. by apply setup_opencode_keeps.
  - unfold setup_opencode. unfold opencode_detected in E. by rewrite E.
Qed.

Lemma so_far_wire_tools policy scripts feed s :
  so_far s -> so_far (wire_tools env home policy scripts feed s).2.
Proof.
  intros Hs. unfold wire_tools.
  pose proof (so_far_claude scripts policy feed s Hs) as H1.
  destruct (setup_claude env home scripts policy feed s) as [o1 s1].
  pose proof (so_far_codex scripts policy feed s1 H1) as H2.
  destruct (setup_codex env home scripts policy feed s1) as [o2 s2].
  pose proof (so_far_opencode s2 H2) as H3. by destruct (setup_opencode env home s2).
Qed.

Lemma setup_run_so_far policy start mode :
  home_dir env = Some home -> so_far (setup_run env policy start mode s0).2.
Proof.
  intros Hh. rewrite (setup_run_eq env home) by done. unfold st_bind.
  pose proof (stage_scripts_keeps env (wired_configs s0) (created_files s0) home) as Hsc.
  specialize (Hsc ltac:(unfold created_files, early_files; set_solver) s0).
  destruct (stage_scripts env (adapters_dir home) s0) as [[scripts|e] s1]; [|done].
  pose proof (stage_policy_keeps env (wired_configs s0) (created_files s0) home (kavach_data_dir home)) as Hpo.
  specialize (Hpo ltac:(unfold created_files, early_files; set_solver) s1).
  destruct (stage_policy env (kavach_data_dir home) (default_policy home) s1) as [[u|e] s2];
    [|by eapply careful_trans].
  assert (H2 : so_far s2) by by eapply careful_trans.
  intros p Hp Hor. rewrite wire_and_report_files. by apply so_far_wire_tools.
Qed.

End Run.

End Detected.

(** ** What the set-up promises *)

(** (C15) Merging hook entries into a configuration only adds: every key, group and hook of
    the document stays where it is, each entry is registered unless there is a warning,
    and merging the same entries again changes nothing. *)
Theorem merge_hooks_additive doc entries :
  (as_object doc <> None -> doc_extends doc (merge_hook_entries doc entries).1)
  /\ ((merge_hook_entries doc entries).2 = [] ->
      exists gs, pre_tool_use (merge_hook_entries doc entries).1 = Some gs
                 /\ Forall (fun e => registered e gs) entries)
  /\ merge_hook_entries (merge_hook_entries doc entries).1 entries = merge_hook_entries doc entries.
Proof.
  split_and!; [apply merge_hook_extends|apply merge_hook_registers|apply merge_hook_again].
Qed.

(** (C14) Whatever fails, the set-up changes or creates no file but these: the
    configuration files of the agents that are detected (Claude Code by its settings file
    or on the PATH, Codex by its hooks or config.toml or on the PATH, OpenCode by its
    configuration or on the PATH), which it may change or create; and, only where they are
    missing, the hook scripts, the default policy and, if OpenCode is detected, its plugin,
    which it may create. *)
Theorem setup_changes_only `{JsonText} `{JsonPrint} `{SetupTexts} env home policy start mode s p :
  home_dir env = Some home -> p ∉ wired_configs env home s ->
  is_Some (ss_files s !! p) \/ p ∉ created_files env home s ->
  ss_files (setup_run env policy start mode s).2 !! p = ss_files s !! p.
Proof. intros Hh Hp Hor. by apply (setup_run_so_far env home s). Qed.

(** (C16) Running the set-up again changes no file, when no operation fails and the
    configuration files, where they hold a JSON object, hold one that the JSON library
    prints and reads back unchanged: [docs_ok], without numbers that have a fraction, with
    integers that fit, texts in UTF-8, and nested no deeper than the library reads.  A
    document with a fraction is outside: the library may print it as another one. *)
Theorem setup_idempotent `{PrettyLaws} `{SetupTexts} env home policy start mode start' mode' s :
  quiet env -> home_dir env = Some home -> docs_ok env home s ->
  ss_files (setup_run env policy start' mode' (setup_run env policy start mode s).2).2
  = ss_files (setup_run env policy start mode s).2.
Proof. intros Hq Hh. by apply setup_run_again. Qed.
