(* ===== verification/DashExamples.v ===== *)
(** * Runs of the dashboard

    A printer and parser of JSON values that keeps what the theorems ask of one, and the
    dashboard on concrete files and logs. *)

From stdpp Require Import base tactics list sets sorting gmap strings countable.
From Stdlib Require Import ZArith Lia Ascii Sorting.Sorted.
From S2P Require Import Prelude RustStr Utf8 BTree Json CoreError CoreIds CorePath CoreResource CoreRequest.
From S2P Require Import CoreDecision PolicyModel PolicyEngine PolicyProps AuditModel AuditProps ApprovalModel CliPolicy.
From S2P Require Import Instances ConfigLoad CliServe DashEvent Dashboard DashProps Setup SetupMerge SetupProps.

Open Scope Z_scope.

(** ** A text for every value *)

Abbreviation Tree := (gen_tree (Z + string)).

Fixpoint tree_of (v : Value) : Tree :=
  match v with
  | V_Null => GenNode 0 []
  | V_Bool b => GenNode (if b then 2 else 1)%nat []
  | V_Int n => GenNode 3 [GenLeaf (inl n)]
  | V_Float s => GenNode 4 [GenLeaf (inr s)]
  | V_String s => GenNode 5 [GenLeaf (inr s)]
  | V_Array l => GenNode 6 (map tree_of l)
  | V_Object o => GenNode 7 (map (fun kv => GenNode 8 [GenLeaf (inr kv.1); tree_of kv.2]) o)
  end.

Fixpoint value_of (t : Tree) : Value :=
  match t with
  | GenNode 1 [] => V_Bool false
  | GenNode 2 [] => V_Bool true
  | GenNode 3 [GenLeaf (inl n)] => V_Int n
  | GenNode 4 [GenLeaf (inr s)] => V_Float s
  | GenNode 5 [GenLeaf (inr s)] => V_String s
  | GenNode 6 l => V_Array (map value_of l)
  | GenNode 7 l =>
      V_Object (map (fun t => match t with
                              | GenNode _ [GenLeaf (inr k); v] => (k, value_of v)
                              | _ => ("", V_Null)
                              end) l)
  | _ => V_Null
  end.

Lemma value_of_tree : forall v, value_of (tree_of v) = v.
Proof.
  fix IH 1. intros [|[]| | | |l|o]; simpl; try done.
  - f_equal. induction l as [|x l IHl]; simpl; [done|]. by rewrite IH, IHl.
  - f_equal. induction o as [|[k x] o IHo]; simpl; [done|]. by rewrite IH, IHo.
Qed.

Fixpoint bits (p : positive) : string :=
  match p with
  | xH => "}"
  | xO p' => String "0" (bits p')
  | xI p' => String "1" (bits p')
  end.

Fixpoint of_bits (s : string) : positive :=
  match s with
  | EmptyString => xH
  | String c s' =>
      if Ascii.eqb c "0" then xO (of_bits s') else if Ascii.eqb c "1" then xI (of_bits s') else xH
  end.

Lemma of_bits_bits p : of_bits (bits p) = p.
Proof. induction p; simpl; by f_equal. Qed.

Lemma bits_plain p : Utf8 (bits p) /\ any_byte is_lf (bits p) = false.
Proof.
  induction p as [p [H1 H2]|p [H1 H2]|]; simpl; (split; [|done]).
  - by apply (Utf8_append "1"); [apply utf8_spec|].
  - by apply (Utf8_append "0"); [apply utf8_spec|].
  - by apply utf8_spec.
Qed.

Lemma bits_brace p : exists m, bits p = m +:+ "}".
Proof.
  induction p as [p [m H]|p [m H]|]; [exists (String "1" m)|exists (String "0" m)|by exists ""];
    simpl; by rewrite H.
Qed.

#[export] Instance bit_json : JsonText :=
  {| json_to_string v := Ok (String "{" (bits (encode (tree_of v))));
     json_from_str t :=
       match t with
       | String _ t' => match decode (of_bits t') with Some tree => Ok (value_of tree) | None => Err "text" end
       | EmptyString => Err "text"
       end;
     conversion_error _ _ := "conversion" |}.

#[export] Instance bit_json_laws : JsonLaws.
Proof.
  constructor.
  - intros v _. exists (String "{" (bits (encode (tree_of v)))).
    destruct (bits_plain (encode (tree_of v))) as [Hu Hl]. split_and!; [done| | |done].
    + unfold json_from_str, bit_json. by rewrite of_bits_bits, decode_encode, value_of_tree.
    + by apply (Utf8_append "{"); [apply utf8_spec|].
  - intros o t Ht. generalize (V_Object o) Ht. clear o Ht. intros v Ht.
    injection Ht as <-. destruct (bits_brace (encode (tree_of v))) as [m ->]. by exists m.
Qed.

(** ** The live feed *)

#[local] Existing Instance ascii_lower.

Definition dx_decision (id : string) : AuthorizationDecision :=
  {| ad_effect := Allow; ad_reason := KavachAllowPolicyMatch; ad_explanation := "matched";
     ad_matched_rule_ids := [Id_raw "allow-read"]; ad_evaluated_at := 5000000000;
     ad_request_id := Id_raw id; ad_risk_score := None; ad_approval := None; ad_trace := None |}.

Definition dx (id : string) : AuthorizationDecision * ToolRequest := (dx_decision id, ex_read).

Definition poll_of (content : string) : FeedPoll :=
  {| fp_open := true; fp_len := Some (len content); fp_seek := true;
     fp_bytes := Some content; fp_again := Some content |}.

Definition no_file : FeedPoll :=
  {| fp_open := false; fp_len := None; fp_seek := false; fp_bytes := None; fp_again := None |}.

(** A poll during which the file grows from one content to another. *)
Definition poll_between (measured content : string) : FeedPoll :=
  {| fp_open := true; fp_len := Some (len measured); fp_seek := true;
     fp_bytes := Some content; fp_again := Some content |}.

Lemma live_feed_witness :
  exists published,
    feed_tailer (Some (len (feed_file [dx "a"]))) (Some (feed_file [dx "a"]))
      [no_file; poll_of (feed_file [dx "a"; dx "b"]); poll_of (feed_file [dx "a"; dx "b"]);
       poll_between (feed_file [dx "a"; dx "b"; dx "c"])
                    (feed_file [dx "a"; dx "b"; dx "c"; dx "d"]);
       poll_of (feed_file [dx "a"; dx "b"; dx "c"; dx "d"; dx "e"])]
    = map dq_event [dx "a"] ++ map dq_event published
    /\ [dx "b"; dx "c"; dx "d"; dx "e"] `sublist_of` published
    /\ published ≡ₚ [dx "b"; dx "c"; dx "d"; dx "e"] ++ [dx "d"]
    /\ ([dx "d"] = [] -> published = [dx "b"; dx "c"; dx "d"; dx "e"]).
Proof.
  apply (live_feed [dx "a"] [] _ [dx "b"; dx "c"; dx "d"; dx "e"] [dx "d"]); [by repeat constructor..|].
  apply appending_fails with (new := []); [done|by left|].
  apply (appending_reads _ [] _ _ [dx "b"] [] [dx "c"; dx "d"; dx "e"] [dx "d"]); [done..|].
  apply appending_idle; [done..|].
  apply (appending_reads _ [] _ _ [dx "c"] [dx "d"] [dx "e"] [dx "d"]); [done..|].
  apply (appending_reads _ [dx "d"] _ _ [dx "e"] [] [] []); [done..|]. apply appending_end.
Defined.

(** A line that is written between a poll's length and its read is published twice, and
    so is one that is written between the two reads of the start. *)
Example raced_line_twice :
  feed_tailer (Some (len (feed_file [dx "a"]))) (Some (feed_file [dx "a"]))
    [poll_between (feed_file [dx "a"; dx "b"]) (feed_file [dx "a"; dx "b"; dx "c"]);
     poll_of (feed_file [dx "a"; dx "b"; dx "c"])]
  = map dq_event [dx "a"; dx "b"; dx "c"; dx "c"]
  /\ feed_tailer (Some (len (feed_file [dx "a"]))) (Some (feed_file [dx "a"; dx "b"]))
       [poll_of (feed_file [dx "a"; dx "b"])]
     = map dq_event [dx "a"; dx "b"; dx "b"].
Proof. split; vm_compute; reflexivity. Qed.

(** A line that a poll sees half written is lost: the next poll starts inside it. *)
Example half_line_lost :
  let before := feed_file [dx "a"] in
  let half := before +:+ str_take 40 (decision_text (dx "b")) in
  feed_tailer (Some (len before)) (Some before) [poll_of half; poll_of (feed_file [dx "a"; dx "b"])]
  = [dq_event (dx "a")].
Proof. vm_compute. reflexivity. Qed.

(** ** The audit log and the history *)

#[local] Existing Instances ex_sha ex_hex ex_json toy_time.

Definition poll_log (ids : list string) : AuditPoll :=
  {| po_open := Ok (ex_log ids); po_count_fault := None; po_query_fault := None |}.

Lemma audit_feed_gap_witness :
  map fst (poll_audit_once (poll_log ["a"; "b"]) None) = [1; 2]
  /\ ~ 3 ∈ map fst (audit_poller (seen_after None (poll_audit_once (poll_log ["a"; "b"]) None))
                      [poll_log ["a"; "b"; "c"]; poll_log ["a"; "b"; "c"; "d"]]).
Proof.
  apply (audit_feed_gap (poll_log ["a"; "b"]) (ex_log ["a"; "b"])
           [poll_log ["a"; "b"; "c"]; poll_log ["a"; "b"; "c"; "d"]]).
  - split_and!; vm_compute; reflexivity.
  - vm_compute. discriminate.
  - vm_compute. reflexivity.
Defined.

(** The third event is never shown, the fourth is. *)
Example gap_shown :
  map fst (audit_poller None [poll_log ["a"; "b"]; poll_log ["a"; "b"; "c"]; poll_log ["a"; "b"; "c"; "d"]])
  = [1; 2; 4].
Proof. vm_compute. reflexivity. Qed.

Lemma ex_log_ordered ids ns :
  map row_sequence (ex_log ids) = ns -> StronglySorted Z.lt ns -> Forall (fun n => n < U64_MAX) ns ->
  poll_ordered (poll_log ids).
Proof. intros <- Hs Hb t [= <-]. by split. Qed.

Lemma audit_feed_once_witness :
  StronglySorted Z.lt (map fst (audit_poller None [poll_log ["a"; "b"]; poll_log ["a"; "b"; "c"; "d"]])).
Proof.
  apply (audit_feed_once None [poll_log ["a"; "b"]; poll_log ["a"; "b"; "c"; "d"]]).
  constructor; [|constructor; [|constructor]].
  - apply (ex_log_ordered _ [1; 2]); [vm_compute; reflexivity|repeat constructor|by repeat constructor].
  - apply (ex_log_ordered _ [1; 2; 3; 4]); [vm_compute; reflexivity|repeat constructor|by repeat constructor].
Defined.

(** The two newest of the matching events of a feed file. *)
Definition dx_query (decision : option string) : HistoryQuery :=
  {| hq_q := None; hq_decision := decision; hq_executable := None; hq_rule := None; hq_limit := Some 2 |}.

Example history_two :
  map fe_request_id
    (read_history (Some (feed_file [dx "a"; dx "b"; dx "c"])) None (dx_query (Some "ALLOW")) 2)
  = ["a"; "b"].
Proof. vm_compute. reflexivity. Qed.

Lemma history_newest_witness :
  read_history (Some (feed_file [dx "a"])) (Some (poll_log ["a"])) (dx_query (Some "require_approval")) 2 = [].
Proof.
  by apply (history_newest (Some (feed_file [dx "a"])) (Some (poll_log ["a"])) (dx_query (Some "require_approval"))).
Defined.

(** ** The set-up command *)

Module SetupRuns.

#[local] Instance bit_pretty : JsonPrint :=
  {| value_display _ := "value"; json_to_string_pretty v := json_to_string v |}.

#[local] Instance bit_pretty_laws : PrettyLaws.
Proof.
  constructor. intros v Hv. destruct (json_round_trip v Hv) as (t & Ht & Hp & Hu & _).
  exists t. split_and!; [done|done|by apply utf8_spec].
Qed.

#[local] Instance short_texts : SetupTexts :=
  {| COMMON_MODULE := "module"; CLAUDE_HOOK := "claude"; CODEX_HOOK := "codex"; OPENCODE_HOOK := "plugin";
     privacy_starter_embedded := "policy" |}.

(** Claude Code has a settings file, Codex is on the path, and OpenCode is not there. *)
Definition sx_env : SetupEnv :=
  {| se_var k := if String.eqb k "HOME" then Some "/h"
                 else if String.eqb k "PATH" then Some "/bin:/usr/bin" else None;
     se_exe := None; se_mkdir _ := None; se_unreadable _ := false; se_write _ := None; se_spawn _ := None |}.

Definition sx_text (v : Value) : string := match json_to_string v with Ok t => t | Err _ => "" end.

Definition sx_settings : Value := json_object [("theme", V_String "dark")].

Definition sx_state (settings : string) : SetupState :=
  {| ss_files := list_to_map [("/h/.claude/settings.json", settings); ("/usr/bin/codex", "binary");
                              ("/h/.kavach/policy.toml", "my policy")];
     ss_out := []; ss_spawned := [] |}.

Definition sx_run (s : SetupState) : SetupState := (setup_run sx_env None false Human s).2.

(** The agents that are there are wired; the policy that was there is kept. *)
Example sx_files :
  let files := ss_files (sx_run (sx_state (sx_text sx_settings))) in
  is_Some (files !! "/h/.codex/hooks.json") /\ is_Some (files !! "/h/.kavach/adapters/kavach-codex-hook.ps1")
  /\ files !! "/h/.config/opencode/opencode.json" = None
  /\ files !! "/h/.kavach/policy.toml" = Some "my policy".
Proof. split_and!; vm_compute; eauto. Qed.

(** A settings file that does not parse is replaced by a new document. *)
Example unparsable_settings_lost :
  json_from_str "oops, my settings" = Err "text"
  /\ read_json_file sx_env "/h/.claude/settings.json" (sx_run (sx_state "oops, my settings"))
     = (merge_hook_entries (V_Object []) (claude_entries "/h" "/h/.kavach/policy.toml" "/h/.kavach/decisions.jsonl")).1.
Proof. split; vm_compute; reflexivity. Qed.

(** With another hook on the matcher nothing is registered, and the outcome is still
    "wired". *)
Definition sx_conflict : Value :=
  json_object [("hooks", json_object [("PreToolUse", V_Array
    [group_value (mkHookEntry CLAUDE_MATCHER "other")])])].

Example conflict_reported_wired :
  let s := sx_state (sx_text sx_conflict) in
  let r := setup_claude sx_env "/h" (staged "/h") "p" "f" s in
  to_wired r.1 = true /\ ss_files r.2 = ss_files s.
Proof. cbv zeta. split; [vm_compute; reflexivity|]. apply (bool_decide_eq_true_1 (_ = _)). vm_compute. reflexivity. Qed.

(** ** Witnesses *)

Lemma merge_hooks_additive_witness :
  doc_extends sx_settings (merge_hook_entries sx_settings [mkHookEntry "Bash" "kavach"]).1
  /\ exists gs, pre_tool_use (merge_hook_entries sx_settings [mkHookEntry "Bash" "kavach"]).1 = Some gs
                /\ Forall (fun e => registered e gs) [mkHookEntry "Bash" "kavach"].
Proof.
  destruct (merge_hooks_additive sx_settings [mkHookEntry "Bash" "kavach"]) as (H1 & H2 & _).
  split; [apply H1; vm_compute; discriminate|apply H2; vm_compute; reflexivity].
Defined.

(** The policy that is there stays, and OpenCode, which is not detected, gets no
    configuration and no plugin. *)
Lemma setup_changes_only_witness :
  let files := ss_files (setup_run sx_env None false Human (sx_state "text")).2 in
  files !! "/h/.kavach/policy.toml" = Some "my policy"
  /\ files !! opencode_config "/h" = None /\ files !! opencode_plugin "/h" = None.
Proof.
  cbv zeta. split_and!;
    (rewrite (setup_changes_only sx_env "/h" None false Human (sx_state "text"));
     [vm_compute; reflexivity|vm_compute; reflexivity
     |apply (bool_decide_eq_true_1 (_ ∉ _)); vm_compute; reflexivity|]).
  - left. vm_compute. eauto.
  - right. apply (bool_decide_eq_true_1 (_ ∉ _)). vm_compute. reflexivity.
  - right. apply (bool_decide_eq_true_1 (_ ∉ _)). vm_compute. reflexivity.
Defined.

Lemma setup_idempotent_witness :
  ss_files (sx_run (sx_run (sx_state (sx_text sx_settings)))) = ss_files (sx_run (sx_state (sx_text sx_settings))).
Proof.
  apply (setup_idempotent sx_env "/h").
  - by split_and!.
  - vm_compute. reflexivity.
  - unfold docs_ok, config_files. repeat apply Forall_cons_2; [vm_compute; reflexivity..|apply Forall_nil_2].
Defined.

End SetupRuns.
