(* ===== verification/StoreOpen.v ===== *)
(** * Opening the databases

    The opening of the audit store and of the approval store: the connection, its pragmas
    and the migrations.  A database file is its schema (tables with their columns, indexes,
    and the rows of [schema_version]); [execute_batch] runs statement by statement, and each
    takes effect on its own.  The failures of the operating system and of SQLite, and the
    messages of SQLite, are parameters. *)

From stdpp Require Import base tactics list strings.
From Stdlib Require Import ZArith Lia.
From S2P Require Import Prelude RustStr AuditModel ApprovalModel CliPolicy.

Open Scope Z_scope.

(** ** A database *)

Record Schema := mkSchema {
  sc_tables : list (string * list string);
  sc_indexes : list string;
  sc_versions : list Z;
}.

Definition empty_db : Schema := mkSchema [] [] [].

(** The statements of the two migrations. *)
Inductive SqlStmt :=
| CreateTableIfNotExists (name : string) (columns : list string)
| CreateIndex (name table column : string)
| InsertVersion (version : Z).

Class SqliteTexts := {
  already_exists : string -> string;
  no_such : string -> string;
  unique_failed : string -> string;
  not_a_u64 : Z -> string;
}.

Definition find_table (name : string) (db : Schema) : option (list string) :=
  option_map snd (List.find (fun t => String.eqb t.1 name) (sc_tables db)).

Definition mem (s : string) (l : list string) : bool := existsb (String.eqb s) l.

Section Sqlite.
Context {SQ : SqliteTexts}.

Definition exec_stmt (stmt : SqlStmt) (db : Schema) : result string Schema :=
  match stmt with
  | CreateTableIfNotExists name columns =>
      match find_table name db with
      | Some _ => Ok db
      | None =>
          if mem name (sc_indexes db) then Err (already_exists name)
          else Ok (mkSchema (sc_tables db ++ [(name, columns)]) (sc_indexes db) (sc_versions db))
      end
  | CreateIndex name table column =>
      match find_table name db, mem name (sc_indexes db) with
      | None, false =>
          match find_table table db with
          | None => Err (no_such table)
          | Some columns =>
              if mem column columns
              then Ok (mkSchema (sc_tables db) (sc_indexes db ++ [name]) (sc_versions db))
              else Err (no_such column)
          end
      | _, _ => Err (already_exists name)
      end
  | InsertVersion version =>
      match find_table "schema_version" db with
      | None => Err (no_such "schema_version")
      | Some columns =>
          if negb (mem "version" columns && mem "applied_at" columns) then Err (no_such "version")
          else if existsb (Z.eqb version) (sc_versions db) then Err (unique_failed "schema_version.version")
          else Ok (mkSchema (sc_tables db) (sc_indexes db) (sc_versions db ++ [version]))
      end
  end.

(** [execute_batch]; [stop] is a failure from outside before the statement of that
    position, as when the disk is full or the process ends. *)
Fixpoint execute_batch (stop : option (nat * string)) (stmts : list SqlStmt) (db : Schema)
  : result string unit * Schema :=
  match stmts with
  | [] => (Ok tt, db)
  | stmt :: rest =>
      match stop with
      | Some (O, e) => (Err e, db)
      | _ =>
          match exec_stmt stmt db with
          | Err e => (Err e, db)
          | Ok db' => execute_batch (option_map (fun '(n, e) => (pred n, e)) stop) rest db'
          end
      end
  end.

(** The two queries before a migration: whether there is a table [schema_version], and
    the greatest version, read as a [u64]. *)
Definition has_version_table (db : Schema) : bool :=
  match find_table "schema_version" db with Some _ => true | None => false end.

Definition max_version (db : Schema) : result string Z :=
  match find_table "schema_version" db with
  | Some columns =>
      if negb (mem "version" columns) then Err (no_such "version")
      else match sc_versions db with
           | [] => Ok 0
           | v :: vs => let m := fold_left Z.max vs v in if m <? 0 then Err (not_a_u64 m) else Ok m
           end
  | None => Err (no_such "schema_version")
  end.

(** What one opening meets. *)
Record OpenFaults := {
  of_mkdir : option string;
  of_connect : option string;
  of_wal : option string;
  of_foreign_keys : option string;
  of_busy_timeout : option string;
  of_exists_query : option string;
  of_version_query : option string;
  of_batch : option (nat * string);
}.

Definition no_open_faults : OpenFaults := Build_OpenFaults None None None None None None None None.

Definition fault_first {E A} (err : string -> E) (fault : option string) (r : result E A) : result E A :=
  match fault with Some e => Err (err e) | None => r end.

(** The directory of the database is created if the path has one. *)
Definition make_parent {E} (err : string -> E) (faults : OpenFaults) (path : string) : result E unit :=
  if is_empty (parent_dir path) then Ok tt else fault_first err (of_mkdir faults) (Ok tt).

Definition query_version {E} (err : string -> E) (faults : OpenFaults) (db : Schema) : result E Z :=
  let? has := fault_first err (of_exists_query faults) (Ok (has_version_table db)) in
  if has then fault_first err (of_version_query faults) (map_err err (max_version db)) else Ok 0.

(** ** The audit store *)

Definition AUDIT_SCHEMA_VERSION : Z := 1.

Definition audit_migration : list SqlStmt :=
  [CreateTableIfNotExists "schema_version" ["version"; "applied_at"];
   CreateTableIfNotExists "audit_events"
     ["sequence"; "event_id"; "timestamp"; "category"; "request_id"; "agent_id"; "operation";
      "resource_kind"; "resource_summary"; "decision"; "reason_code"; "matched_rule_ids"; "metadata";
      "previous_hash"; "current_hash"];
   InsertVersion 1].

(** [AuditStoreBuilder], with its default and its setters. *)
Record AuditStoreBuilder (R : Type) := { asb_redactor : option R; asb_busy_timeout : Z }.
#[global] Arguments asb_redactor {R}.
#[global] Arguments asb_busy_timeout {R}.

Definition AuditStoreBuilder_new {R} : AuditStoreBuilder R := {| asb_redactor := None; asb_busy_timeout := 5000 |}.
Definition AuditStoreBuilder_default {R} : AuditStoreBuilder R := {| asb_redactor := None; asb_busy_timeout := 0 |}.
Definition with_redactor {R} (r : R) (b : AuditStoreBuilder R) : AuditStoreBuilder R :=
  {| asb_redactor := Some r; asb_busy_timeout := asb_busy_timeout b |}.
Definition with_busy_timeout {R} (ms : Z) (b : AuditStoreBuilder R) : AuditStoreBuilder R :=
  {| asb_redactor := asb_redactor b; asb_busy_timeout := ms |}.

(** [configure_connection]. *)
Definition configure_audit (faults : OpenFaults) : result AuditError unit :=
  fault_first AE_DatabaseOpen (of_wal faults)
    (fault_first AE_DatabaseOpen (of_foreign_keys faults)
       (fault_first AE_DatabaseOpen (of_busy_timeout faults) (Ok tt))).

(** [run_migrations]. *)
Definition run_audit_migrations (faults : OpenFaults) : stateful Schema AuditError unit := fun db =>
  match query_version AE_MigrationFailure faults db with
  | Err e => (Err e, db)
  | Ok version =>
      if AUDIT_SCHEMA_VERSION <? version then (Err (AE_UnsupportedSchemaVersion version), db)
      else if version <? 1 then
        let '(r, db') := execute_batch (of_batch faults) audit_migration db in
        (map_err AE_MigrationFailure r, db')
      else (Ok tt, db)
  end.

(** [AuditStoreBuilder::open]. *)
Definition AuditStore_open {R} (faults : OpenFaults) (b : AuditStoreBuilder R) (path : string)
  : stateful Schema AuditError (option R) :=
  let! _ := st_lift (make_parent AE_DatabaseOpen faults path) in
  let! _ := st_lift (fault_first AE_DatabaseOpen (of_connect faults) (Ok tt)) in
  let! _ := st_lift (configure_audit faults) in
  let! _ := run_audit_migrations faults in
  st_ret (asb_redactor b).

(** [AuditStoreBuilder::open_in_memory]: the database and the redactor, or an error. *)
Definition AuditStore_open_in_memory {R} (faults : OpenFaults) (b : AuditStoreBuilder R)
  : result AuditError (option R * Schema) :=
  let? _ := fault_first AE_DatabaseOpen (of_connect faults) (Ok tt) in
  let? _ := configure_audit faults in
  match run_audit_migrations faults empty_db with
  | (Err e, _) => Err e
  | (Ok _, db) => Ok (asb_redactor b, db)
  end.

(** ** The approval store *)

Definition APPROVAL_SCHEMA_VERSION : Z := 1.

Definition approval_migration : list SqlStmt :=
  [CreateTableIfNotExists "schema_version" ["version"; "applied_at"];
   CreateTableIfNotExists "approvals"
     ["approval_id"; "request_id"; "request_digest_hex"; "summary"; "operation"; "resource_kind";
      "matched_rule_ids"; "created_at"; "expires_at"; "state"; "token_hash"; "actor_id";
      "denial_reason"; "decision_at"; "consumed_at"; "audit_sequence"];
   CreateIndex "idx_approvals_state" "approvals" "state";
   CreateIndex "idx_approvals_request_id" "approvals" "request_id";
   CreateIndex "idx_approvals_digest" "approvals" "request_digest_hex";
   CreateIndex "idx_approvals_expires_at" "approvals" "expires_at";
   InsertVersion 1].

(** [configure_connection]. *)
Definition configure_approvals (faults : OpenFaults) : result ApprovalError unit :=
  fault_first APE_DatabaseOpen (of_wal faults)
    (fault_first APE_DatabaseOpen (of_foreign_keys faults)
       (fault_first APE_DatabaseOpen (of_busy_timeout faults) (Ok tt))).

(** [run_migrations]. *)
Definition run_approval_migrations (faults : OpenFaults) : stateful Schema ApprovalError unit := fun db =>
  match query_version APE_MigrationFailure faults db with
  | Err e => (Err e, db)
  | Ok version =>
      if APPROVAL_SCHEMA_VERSION <? version
      then (Err (APE_MigrationFailure ("unsupported schema version: " +:+ dec version)), db)
      else if version <? 1 then
        let '(r, db') := execute_batch (of_batch faults) approval_migration db in
        (map_err APE_MigrationFailure r, db')
      else (Ok tt, db)
  end.

(** [SqliteApprovalStore::open]. *)
Definition SqliteApprovalStore_open (faults : OpenFaults) (path : string) (config : ApprovalStoreConfig)
  : stateful Schema ApprovalError ApprovalStoreConfig :=
  let! _ := st_lift (validate_config config) in
  let! _ := st_lift (make_parent APE_DatabaseOpen faults path) in
  let! _ := st_lift (fault_first APE_DatabaseOpen (of_connect faults) (Ok tt)) in
  let! _ := st_lift (configure_approvals faults) in
  let! _ := run_approval_migrations faults in
  st_ret config.

(** [SqliteApprovalStore::open_in_memory]. *)
Definition SqliteApprovalStore_open_in_memory (faults : OpenFaults) (config : ApprovalStoreConfig)
  : result ApprovalError (ApprovalStoreConfig * Schema) :=
  let? _ := validate_config config in
  let? _ := fault_first APE_DatabaseOpen (of_connect faults) (Ok tt) in
  let? _ := configure_approvals faults in
  match run_approval_migrations faults empty_db with
  | (Err e, _) => Err e
  | (Ok _, db) => Ok (config, db)
  end.

(** [SqliteApprovalBroker] over an audit store [A] and a clock [C], [new], [open] and
    [open_in_memory]; [open_approval_broker] and its variant return them as they are. *)
Record SqliteApprovalBroker (A C : Type) := {
  sb_store : ApprovalStoreConfig;
  sb_audit_store : A;
  sb_clock : C;
}.
#[global] Arguments Build_SqliteApprovalBroker {A C}.

Definition SqliteApprovalBroker_new {A C} (store : ApprovalStoreConfig) (audit_store : A) (clock : C)
  : SqliteApprovalBroker A C := Build_SqliteApprovalBroker store audit_store clock.

Definition SqliteApprovalBroker_open {A C} (faults : OpenFaults) (db_path : string)
    (config : ApprovalStoreConfig) (audit_store : A) (clock : C)
  : stateful Schema ApprovalError (SqliteApprovalBroker A C) :=
  let! store := SqliteApprovalStore_open faults db_path config in
  st_ret (SqliteApprovalBroker_new store audit_store clock).

Definition SqliteApprovalBroker_open_in_memory {A C} (faults : OpenFaults) (config : ApprovalStoreConfig)
    (audit_store : A) (clock : C) : result ApprovalError (SqliteApprovalBroker A C * Schema) :=
  let? opened := SqliteApprovalStore_open_in_memory faults config in
  Ok (SqliteApprovalBroker_new (fst opened) audit_store clock, snd opened).

Definition open_approval_broker {A C} (faults : OpenFaults) (db_path : string)
    (config : ApprovalStoreConfig) (audit_store : A) (clock : C)
  : stateful Schema ApprovalError (SqliteApprovalBroker A C) :=
  SqliteApprovalBroker_open faults db_path config audit_store clock.

Definition open_approval_broker_in_memory {A C} (faults : OpenFaults) (config : ApprovalStoreConfig)
    (audit_store : A) (clock : C) : result ApprovalError (SqliteApprovalBroker A C * Schema) :=
  SqliteApprovalBroker_open_in_memory faults config audit_store clock.

End Sqlite.
