(* ===== verification/StoreOpenProps.v ===== *)
(** * Properties of the migrations

    The audit migration can be interrupted anywhere and is completed by the next opening;
    an approval migration that was interrupted between its indexes can never be completed;
    and two stores in one file are taken for each other. *)

From stdpp Require Import base tactics list relations strings.
From Stdlib Require Import ZArith Lia.
From S2P Require Import Prelude RustStr AuditModel ApprovalModel CliPolicy StoreOpen.

Open Scope Z_scope.

(** Closes a goal about a migration run on a known prefix. *)
Ltac run_stmts := vm_compute; first [reflexivity|split; reflexivity].

Section Open.
Context {SQ : SqliteTexts}.

(** The database after the first [n] statements of a migration. *)
Definition after_stmts (stmts : list SqlStmt) (n : nat) : Schema :=
  foldl (fun db stmt => match exec_stmt stmt db with Ok db' => db' | Err _ => db end) empty_db (take n stmts).

Definition audit_db : Schema := after_stmts audit_migration 3.
Definition approval_db : Schema := after_stmts approval_migration 7.

(** One opening, whatever fails. *)
Definition audit_opening (db db' : Schema) : Prop :=
  exists faults (b : AuditStoreBuilder unit) path, db' = (AuditStore_open faults b path db).2.

Definition approval_opening (db db' : Schema) : Prop :=
  exists faults path config, db' = (SqliteApprovalStore_open faults path config db).2.

(** An opening leaves the database alone or runs a part of the migration. *)
Lemma audit_open_state {R} faults (b : AuditStoreBuilder R) path db :
  (AuditStore_open faults b path db).2 = db
  \/ (AuditStore_open faults b path db).2 = (run_audit_migrations faults db).2.
Proof.
  unfold AuditStore_open, st_bind, st_lift.
  destruct (make_parent _ _ _); [|by left]. destruct (fault_first _ _ _); [|by left].
  destruct (configure_audit _); [|by left]. right. by destruct (run_audit_migrations faults db) as [[] ?].
Qed.

Lemma approval_open_state faults path config db :
  (SqliteApprovalStore_open faults path config db).2 = db
  \/ (SqliteApprovalStore_open faults path config db).2 = (run_approval_migrations faults db).2.
Proof.
  unfold SqliteApprovalStore_open, st_bind, st_lift. destruct (validate_config _); [|by left].
  destruct (make_parent _ _ _); [|by left]. destruct (fault_first _ _ _); [|by left].
  destruct (configure_approvals _); [|by left]. right. by destruct (run_approval_migrations faults db) as [[] ?].
Qed.

(** The statements of a batch stop at the failure or run to the end. *)
Lemma execute_batch_zero e stmts db : stmts <> [] -> execute_batch (Some (O, e)) stmts db = (Err e, db).
Proof. by destruct stmts. Qed.

(** ** The audit store *)

Lemma audit_batch_states stop k :
  (k <= 2)%nat ->
  exists k', (k' <= 3)%nat
    /\ (execute_batch stop audit_migration (after_stmts audit_migration k)).2 = after_stmts audit_migration k'.
Proof.
  intros Hk. destruct stop as [[n e]|].
  - destruct n as [|[|[|n]]]; destruct k as [|[|[|k]]]; try lia;
      first [exists 0%nat; split; [lia|run_stmts]|exists 1%nat; split; [lia|run_stmts]
            |exists 2%nat; split; [lia|run_stmts]|exists 3%nat; split; [lia|run_stmts]].
  - exists 3%nat. split; [lia|]. destruct k as [|[|[|k]]]; try lia; run_stmts.
Qed.

Lemma audit_migration_states faults k :
  (k <= 3)%nat ->
  exists k', (k' <= 3)%nat
    /\ (run_audit_migrations faults (after_stmts audit_migration k)).2 = after_stmts audit_migration k'.
Proof.
  intros Hk. unfold run_audit_migrations.
  destruct (query_version _ faults _) as [v|]; [|by exists k].
  destruct (AUDIT_SCHEMA_VERSION <? v); [by exists k|]. destruct (v <? 1) eqn:Ev; [|by exists k].
  destruct (decide (k <= 2)%nat) as [Hk2|].
  - destruct (audit_batch_states (of_batch faults) k Hk2) as (k' & ? & Hb).
    destruct (execute_batch _ _ _). by exists k'.
  - replace k with 3%nat by lia. exists 3%nat. split; [done|].
    destruct (of_batch faults) as [[[|[|[|m]]] e]|]; run_stmts.
Qed.

(** Any run of openings, faults or not, leaves a prefix of the migration. *)
Lemma audit_reached db : rtc audit_opening empty_db db ->
  exists k, (k <= 3)%nat /\ db = after_stmts audit_migration k.
Proof.
  intros H. remember empty_db as db0. assert (Hdb0 : exists k, (k <= 3)%nat /\ db0 = after_stmts audit_migration k).
  { exists 0%nat. split; [lia|done]. } clear Heqdb0.
  induction H as [|db0 db1 db2 (faults & b & path & ->) _ IH]; [done|]. apply IH.
  destruct Hdb0 as (k & Hk & ->). destruct (audit_open_state faults b path (after_stmts audit_migration k)) as [->| ->].
  - by exists k.
  - destruct (audit_migration_states faults k Hk) as (k' & Hk' & E). by exists k'.
Qed.

Lemma audit_open_quiet {R} (b : AuditStoreBuilder R) path k :
  (k <= 3)%nat ->
  AuditStore_open no_open_faults b path (after_stmts audit_migration k) = (Ok (asb_redactor b), audit_db).
Proof.
  intros Hk. unfold AuditStore_open, st_bind, st_lift, make_parent.
  destruct (is_empty (parent_dir path)); destruct k as [|[|[|[|k]]]]; try lia; run_stmts.
Qed.

(** ** The approval store *)

(** The database after an interruption before statement [n]. *)
Lemma approval_interrupted n e :
  (2 < n < 7)%nat ->
  (run_approval_migrations
     (Build_OpenFaults None None None None None None None (Some (n, e))) empty_db).2
  = after_stmts approval_migration n.
Proof. intros Hn. do 7 (destruct n as [|n]; [first [lia|run_stmts]|]). lia. Qed.

(** A batch whose first two statements change nothing and whose third fails. *)
Lemma third_fails stop s1 s2 s3 rest db e :
  exec_stmt s1 db = Ok db -> exec_stmt s2 db = Ok db -> exec_stmt s3 db = Err e ->
  exists e', execute_batch stop (s1 :: s2 :: s3 :: rest) db = (Err e', db).
Proof.
  intros H1 H2 H3. destruct stop as [[[|[|[|m]]] e']|]; cbn; rewrite ?H1, ?H2, ?H3; cbn;
    rewrite ?H1, ?H2, ?H3; eauto.
Qed.

(** Once the first index exists, the migration stops there. *)
Lemma interrupted_schema n :
  (2 < n < 7)%nat ->
  let db := after_stmts approval_migration n in
  (has_version_table db = true /\ max_version db = Ok 0)
  /\ forall stop, exists e, execute_batch stop approval_migration db = (Err e, db).
Proof.
  intros Hn db. subst db.
  do 7 (destruct n as [|n]; [first [lia|split; [run_stmts|intros stop; eapply third_fails; run_stmts]]|]). lia.
Qed.

Lemma approval_stuck faults n :
  (2 < n < 7)%nat ->
  (run_approval_migrations faults (after_stmts approval_migration n)).2 = after_stmts approval_migration n
  /\ is_ok (run_approval_migrations faults (after_stmts approval_migration n)).1 = false.
Proof.
  intros Hn. destruct (interrupted_schema n Hn) as [[Hh Hm] Hb].
  unfold run_approval_migrations, query_version. rewrite Hh, Hm.
  destruct (of_exists_query faults); [done|]. cbn [fault_first].
  destruct (of_version_query faults); [done|]. destruct (Hb (of_batch faults)) as [e ->]. done.
Qed.

Lemma approval_open_stuck faults path config n :
  (2 < n < 7)%nat ->
  (SqliteApprovalStore_open faults path config (after_stmts approval_migration n)).2
  = after_stmts approval_migration n
  /\ is_ok (SqliteApprovalStore_open faults path config (after_stmts approval_migration n)).1 = false.
Proof.
  intros Hn. destruct (approval_stuck faults n Hn) as [Hs Hr].
  unfold SqliteApprovalStore_open, st_bind, st_lift. destruct (validate_config _); [|done].
  destruct (make_parent _ _ _); [|done]. destruct (fault_first _ _ _); [|done].
  destruct (configure_approvals _); [|done].
  by destruct (run_approval_migrations faults _) as [[] ?].
Qed.

(** ** Versions *)

Lemma newer_version_refused_audit {R} (b : AuditStoreBuilder R) path db v :
  max_version db = Ok v -> has_version_table db = true -> 1 < v ->
  AuditStore_open no_open_faults b path db = (Err (AE_UnsupportedSchemaVersion v), db).
Proof.
  intros Hv Hh H1. unfold AuditStore_open, st_bind, st_lift, make_parent, run_audit_migrations, query_version.
  cbn -[parent_dir Z.ltb AUDIT_SCHEMA_VERSION]. rewrite Hh, Hv. cbn -[parent_dir Z.ltb AUDIT_SCHEMA_VERSION].
  replace (AUDIT_SCHEMA_VERSION <? v) with true by (symmetry; by apply Z.ltb_lt).
  by destruct (is_empty (parent_dir path)).
Qed.

(** ** Two stores in one file *)

(** An opening of a database of version 1 changes nothing. *)
Lemma version_one_kept faults path config db :
  has_version_table db = true -> max_version db = Ok 1 ->
  (SqliteApprovalStore_open faults path config db).2 = db.
Proof.
  intros Hh Hv. destruct (approval_open_state faults path config db) as [->| ->]; [done|].
  unfold run_approval_migrations, query_version. rewrite Hh, Hv.
  destruct (of_exists_query faults); [done|]. cbn [fault_first].
  by destruct (of_version_query faults).
Qed.

End Open.

(** ** What opening promises *)

(** (C35) However many openings of the audit database failed or were interrupted at any
    statement, the next one that meets no failure succeeds and leaves the whole schema. *)
Theorem audit_open_recovers `{SqliteTexts} {R} (b : AuditStoreBuilder R) path db :
  rtc audit_opening empty_db db ->
  AuditStore_open no_open_faults b path db = (Ok (asb_redactor b), audit_db)
  /\ is_Some (find_table "audit_events" audit_db) /\ max_version audit_db = Ok 1.
Proof.
  intros (k & Hk & ->)%audit_reached. split_and!; [by apply audit_open_quiet|by eexists|done].
Qed.

(** (C40) An opening of the approval database that is interrupted after its first index and
    before the version is recorded leaves a database that no later opening can use or
    repair. *)
Theorem approval_open_never_recovers `{SqliteTexts} n e db :
  (2 < n < 7)%nat ->
  rtc approval_opening
    (run_approval_migrations (Build_OpenFaults None None None None None None None (Some (n, e))) empty_db).2 db ->
  forall faults path config, is_ok (SqliteApprovalStore_open faults path config db).1 = false.
Proof.
  intros Hn. rewrite approval_interrupted by done. intros Hr.
  assert (E : db = after_stmts approval_migration n).
  { remember (after_stmts approval_migration n) as db0.
    induction Hr as [|db0 db1 db2 (faults & path & config & ->) _ IH]; [done|]. subst db0.
    destruct (approval_open_stuck faults path config n Hn) as [Es _]. rewrite Es in IH. by apply IH. }
  subst db. intros faults path config. by apply approval_open_stuck.
Qed.

(** One file for both stores: after the audit store has opened it, the approval store
    opens it without error and without its table, however often it is opened. *)
Theorem shared_database_accepted `{SqliteTexts} path config db :
  validate_config config = Ok tt -> rtc approval_opening audit_db db ->
  SqliteApprovalStore_open no_open_faults path config db = (Ok config, db)
  /\ find_table "approvals" db = None.
Proof.
  intros Hc Hr. assert (E : db = audit_db).
  { remember audit_db as db0.
    induction Hr as [|db0 db1 db2 (faults & p & c & ->) _ IH]; [done|]. subst db0.
    rewrite version_one_kept in IH by done. by apply IH. }
  subst db. split; [|done]. unfold SqliteApprovalStore_open, st_bind, st_lift, make_parent. rewrite Hc.
  by destruct (is_empty (parent_dir path)).
Qed.

(** ** Runs *)

#[local] Instance plain_sqlite : SqliteTexts :=
  {| already_exists s := s +:+ " already exists"; no_such s := "no such: " +:+ s;
     unique_failed s := "UNIQUE constraint failed: " +:+ s; not_a_u64 _ := "out of range" |}.

Definition interrupted_at (n : nat) : OpenFaults :=
  Build_OpenFaults None None None None None None None (Some (n, "disk full")).

Definition ox_config : ApprovalStoreConfig := {| cfg_default_ttl_seconds := 60; cfg_max_pending := 10 |}.

Lemma audit_open_recovers_witness :
  AuditStore_open no_open_faults (with_redactor tt AuditStoreBuilder_new) "data/audit.db"
    (AuditStore_open (interrupted_at 2) (@AuditStoreBuilder_new unit) "data/audit.db" empty_db).2
  = (Ok (Some tt), audit_db).
Proof.
  apply (audit_open_recovers (with_redactor tt AuditStoreBuilder_new) "data/audit.db").
  apply rtc_once. by exists (interrupted_at 2), AuditStoreBuilder_new, "data/audit.db".
Defined.

Lemma approval_open_never_recovers_witness :
  is_ok (SqliteApprovalStore_open no_open_faults "data/approvals.db" ox_config
           (run_approval_migrations (interrupted_at 4) empty_db).2).1 = false.
Proof. apply (approval_open_never_recovers 4 "disk full"); [lia|apply rtc_refl]. Defined.

Lemma shared_database_accepted_witness :
  SqliteApprovalStore_open no_open_faults "data/kavach.db" ox_config audit_db = (Ok ox_config, audit_db)
  /\ find_table "approvals" audit_db = None.
Proof. apply (shared_database_accepted "data/kavach.db" ox_config audit_db); [reflexivity|apply rtc_refl]. Defined.

(** The message of the second opening. *)
Example second_opening :
  (SqliteApprovalStore_open no_open_faults "data/approvals.db" ox_config
     (run_approval_migrations (interrupted_at 4) empty_db).2).1
  = Err (APE_MigrationFailure "idx_approvals_state already exists").
Proof. reflexivity. Qed.

(** A database in memory has the schema of a new file. *)
Example in_memory_like_a_file :
  AuditStore_open_in_memory no_open_faults (with_redactor tt AuditStoreBuilder_new) = Ok (Some tt, audit_db)
  /\ SqliteApprovalStore_open_in_memory no_open_faults ox_config = Ok (ox_config, approval_db).
Proof. split; vm_compute; reflexivity. Qed.

(** Without an interruption the database opens again. *)
Example approval_opens_twice :
  let '(r, db) := SqliteApprovalStore_open no_open_faults "data/approvals.db" ox_config empty_db in
  r = Ok ox_config /\ db = approval_db
  /\ SqliteApprovalStore_open no_open_faults "data/approvals.db" ox_config db = (Ok ox_config, db).
Proof. vm_compute. done. Qed.
