(* ===== verification/GatewayHttp.v ===== *)
(** * The HTTP surface of the gateway

    crates/kavach-gateway/src/server.rs, types.rs, error.rs, routes/health.rs and the
    layers of middleware/: the answers as status, headers and JSON body, and the layers
    around the routes in the order of [GatewayBuilder::start].  Which route a request
    goes to, and the answers that axum and tower-http give themselves, are part of the
    request.  The handlers never wait, so the timeout ends a request only before its
    handler runs. *)

From stdpp Require Import base tactics list sets strings.
From Stdlib Require Import ZArith Lia Ascii.
From S2P Require Import Prelude RustStr BTree Json CoreError CoreIds CorePath CoreResource CoreRequest.
From S2P Require Import CoreDecision CorePermit PolicyModel PolicyEngine PolicyLoad AuditModel AuditVerify ApprovalModel ApprovalBroker.
From S2P Require Import EnforceFs EnforceCmd EnforceNet Runtime GatewayModel GatewayTypes Gateway CliPolicy CliCommands.

Open Scope Z_scope.

(** ** Answers *)

Inductive HttpBody := B_Json (v : Value) | B_Other (bytes : string).

Record HttpResponse := {
  res_status : Z;
  res_headers : list (string * string);
  res_body : HttpBody;
}.

(** [SetResponseHeaderLayer::overriding]; names are in lower case. *)
Definition with_header (name value : string) (r : HttpResponse) : HttpResponse :=
  {| res_status := res_status r; res_headers := bmap_insert name value (res_headers r);
     res_body := res_body r |}.

Definition json_response (status : Z) (v : Value) : HttpResponse :=
  {| res_status := status; res_headers := [("content-type", "application/json")]; res_body := B_Json v |}.

(** [success_response] and the bodies of the handlers. *)
Definition success_body (request_id : option string) (data : Value) : Value :=
  json_object [("request_id", opt_string request_id); ("status", V_String "success"); ("data", data)].

Definition success_response (request_id : option string) (data : Value) : HttpResponse :=
  json_response 200 (success_body request_id data).

(** [error_response], and [IntoResponse] of [GatewayError]. *)
Definition error_body (request_id : option string) (code message : string) : Value :=
  json_object [("request_id", opt_string request_id); ("status", V_String "error"); ("data", V_Null);
               ("error", json_object [("code", V_String code); ("message", V_String message)])].

Definition error_response (request_id : option string) (code : KavachErrorCode) (message : string)
  : HttpResponse :=
  json_response (http_status code) (error_body request_id (KavachErrorCode_as_str code) message).

Definition GatewayError_into_response (e : GatewayError) : HttpResponse :=
  json_response (ge_status e) (error_body None (KavachErrorCode_as_str (ge_code e)) (ge_message e)).

(** ** Data (types.rs) *)

(** [Vec<u8>] as an array of numbers. *)
Fixpoint bytes_value (s : string) : list Value :=
  match s with EmptyString => [] | String c s' => V_Int (byte_val c) :: bytes_value s' end.

Definition opt_int (o : option Z) : Value := match o with Some n => V_Int n | None => V_Null end.

(** The derived [Serialize] of [PermitDto], [EvaluateOutcomeDto], [ApprovalRecordDto] and
    [AuditEventDto]. *)
Definition PermitDto_to_value (d : PermitDto) : Value :=
  json_object
    [("permit_token_hash", V_Array (bytes_value (pd_permit_token_hash d)));
     ("request_id", V_String (pd_request_id d)); ("scope", V_String (pd_scope d));
     ("matched_rule_ids", strings (pd_matched_rule_ids d));
     ("issued_at_secs", V_Int (pd_issued_at_secs d)); ("issued_at_nanos", V_Int (pd_issued_at_nanos d));
     ("expires_at_secs", V_Int (pd_expires_at_secs d)); ("expires_at_nanos", V_Int (pd_expires_at_nanos d));
     ("request_digest", V_String (pd_request_digest d)); ("consumed", V_Bool (pd_consumed d))].

Definition EvaluateOutcomeDto_to_value (o : EvaluateOutcomeDto) : Value :=
  match o with
  | EO_Denied request_id reason_code matched_rule_ids sanitized_summary audit_event_id =>
      json_object [("denied", json_object
        [("request_id", V_String request_id); ("reason_code", V_String reason_code);
         ("matched_rule_ids", strings matched_rule_ids);
         ("sanitized_summary", V_String sanitized_summary); ("audit_event_id", V_Int audit_event_id)])]
  | EO_ApprovalRequired request_id approval_id sanitized_summary audit_event_id =>
      json_object [("approval_required", json_object
        [("request_id", V_String request_id); ("approval_id", V_String approval_id);
         ("sanitized_summary", V_String sanitized_summary); ("audit_event_id", V_Int audit_event_id)])]
  | EO_Permitted request_id permit permit_secret_hex =>
      json_object [("permitted", json_object
        [("request_id", V_String request_id); ("permit", PermitDto_to_value permit);
         ("permit_secret_hex", V_String permit_secret_hex)])]
  end.

Definition ApprovalRecordDto_to_value (d : ApprovalRecordDto) : Value :=
  json_object
    [("approval_id", V_String (ard_approval_id d)); ("request_id", V_String (ard_request_id d));
     ("summary", V_String (ard_summary d)); ("operation", V_String (ard_operation d));
     ("resource_kind", V_String (ard_resource_kind d)); ("matched_rule_ids", strings (ard_matched_rule_ids d));
     ("state", V_String (ard_state d)); ("actor", opt_string (ard_actor d));
     ("denial_reason", opt_string (ard_denial_reason d)); ("created_at", V_String (ard_created_at d));
     ("expires_at", V_String (ard_expires_at d)); ("decision_at", opt_string (ard_decision_at d));
     ("consumed_at", opt_string (ard_consumed_at d)); ("audit_sequence", opt_int (ard_audit_sequence d))].

Definition AuditEventDto_to_value (d : AuditEventDto) : Value :=
  json_object
    [("sequence", V_Int (aed_sequence d)); ("event_id", V_String (aed_event_id d));
     ("timestamp", V_String (aed_timestamp d)); ("category", V_String (aed_category d));
     ("request_id", opt_string (aed_request_id d)); ("agent_id", opt_string (aed_agent_id d));
     ("operation", opt_string (aed_operation d)); ("resource_kind", opt_string (aed_resource_kind d));
     ("decision", opt_string (aed_decision d)); ("reason_code", opt_string (aed_reason_code d));
     ("summary", opt_string (aed_summary d)); ("matched_rule_ids", strings (aed_matched_rule_ids d));
     ("previous_hash", V_String (aed_previous_hash d)); ("current_hash", V_String (aed_current_hash d))].

(** The derived [Deserialize] of [PermitDto]: every field is required, numbers fit their
    types, and other fields are ignored. *)
Fixpoint bytes_of_values (l : list Value) : option string :=
  match l with
  | [] => Some ""
  | V_Int n :: l' =>
      if (0 <=? n) && (n <? 256) then option_map (String (byte_of n)) (bytes_of_values l') else None
  | _ => None
  end.

Fixpoint strings_of_values (l : list Value) : option (list string) :=
  match l with
  | [] => Some []
  | V_String s :: l' => option_map (cons s) (strings_of_values l')
  | _ => None
  end.

Definition int_below (bound : Z) (v : Value) : option Z :=
  match v with V_Int n => if (0 <=? n) && (n <? bound) then Some n else None | _ => None end.

Definition as_bool (v : Value) : option bool := match v with V_Bool b => Some b | _ => None end.

Definition PermitDto_from_value (v : Value) : option PermitDto :=
  match (value_get "permit_token_hash" v ≫= as_array) ≫= bytes_of_values,
        value_get "request_id" v ≫= as_str, value_get "scope" v ≫= as_str,
        (value_get "matched_rule_ids" v ≫= as_array) ≫= strings_of_values with
  | Some hash, Some request_id, Some scope, Some ids =>
      match value_get "issued_at_secs" v ≫= int_below (2 ^ 64), value_get "issued_at_nanos" v ≫= int_below (2 ^ 32),
            value_get "expires_at_secs" v ≫= int_below (2 ^ 64), value_get "expires_at_nanos" v ≫= int_below (2 ^ 32),
            value_get "request_digest" v ≫= as_str, value_get "consumed" v ≫= as_bool with
      | Some isecs, Some inanos, Some esecs, Some enanos, Some digest, Some consumed =>
          Some {| pd_permit_token_hash := hash; pd_request_id := request_id; pd_scope := scope;
                  pd_matched_rule_ids := ids; pd_issued_at_secs := isecs; pd_issued_at_nanos := inanos;
                  pd_expires_at_secs := esecs; pd_expires_at_nanos := enanos; pd_request_digest := digest;
                  pd_consumed := consumed |}
      | _, _, _, _, _, _ => None
      end
  | _, _, _, _ => None
  end.

(** The [data] of the answers. *)
Definition ready_data (policy_count : Z) : Value :=
  json_object
    [("ready", V_Bool true);
     ("adapters", json_object [("filesystem", V_String "ready"); ("command", V_String "ready");
                               ("network", V_String "ready")]);
     ("audit_store", V_String "ready"); ("approval_store", V_String "ready");
     ("policy_count", V_Int policy_count)].

Definition report_data (report : VerificationReport) : Value :=
  json_object
    [("chain_valid", V_Bool (vr_chain_valid report)); ("event_count", V_Int (vr_event_count report));
     ("verified_to", V_Int (vr_verified_to report));
     ("errors", V_Array (map (fun e => json_object
        [("sequence", V_Int (ve_sequence e)); ("kind", V_String (VerificationErrorKind_debug (ve_kind e)));
         ("detail", V_String (ve_detail e))]) (vr_errors report)))].

Definition policy_data (p : string * string * string * Z) : Value :=
  let '(id, name, default_effect, rule_count) := p in
  json_object [("policy_id", V_String id); ("policy_name", V_String name);
               ("default_effect", V_String default_effect); ("rule_count", V_Int rule_count)].

Definition GwData_to_value (data : GwData) : Value :=
  match data with
  | GD_outcome dto => EvaluateOutcomeDto_to_value dto
  | GD_executed result_debug => json_object [("result", V_String result_debug)]
  | GD_approvals dtos => V_Array (map ApprovalRecordDto_to_value dtos)
  | GD_approval dto => ApprovalRecordDto_to_value dto
  | GD_decided approval_id outcome =>
      json_object [("approval_id", V_String approval_id); ("outcome", V_String outcome)]
  | GD_events dtos => V_Array (map AuditEventDto_to_value dtos)
  | GD_verified report => report_data report
  | GD_policies policies => V_Array (map policy_data policies)
  | GD_reloaded policy_count => json_object [("reloaded", V_Bool true); ("policy_count", V_Int policy_count)]
  | GD_ready policy_count => ready_data policy_count
  end.

(** The handlers put the id of the request into the body, [list_policies] and those of
    health.rs do not. *)
Definition data_request_id (request_id : string) (data : GwData) : option string :=
  match data with GD_policies _ | GD_ready _ => None | _ => Some request_id end.

Definition respond_with (request_id : string) (r : result GatewayError GwData) : HttpResponse :=
  match r with
  | Ok data => success_response (data_request_id request_id data) (GwData_to_value data)
  | Err e => GatewayError_into_response e
  end.

(** [health] and [status]. *)
Definition health : HttpResponse := success_response None (json_object [("status", V_String "ok")]).

Definition status_response (version bind : string) (uptime_seconds : Z) : HttpResponse :=
  success_response None
    (json_object [("service", V_String "kavach-gateway"); ("version", V_String version);
                  ("bind", V_String bind); ("uptime_seconds", V_Int uptime_seconds)]).

(** ** A permit over the wire *)

Lemma byte_of_val c : byte_of (byte_val c) = c.
Proof. by destruct c as [[] [] [] [] [] [] [] []]. Qed.

Lemma bytes_value_back s : bytes_of_values (bytes_value s) = Some s.
Proof.
  induction s as [|c s IH]; [done|]. cbn [bytes_value bytes_of_values]. rewrite IH.
  replace ((0 <=? byte_val c) && (byte_val c <? 256)) with true; [simpl; by rewrite byte_of_val|].
  symmetry. by destruct c as [[] [] [] [] [] [] [] []].
Qed.

Lemma strings_back l : strings_of_values (map V_String l) = Some l.
Proof. induction l as [|x l IH]; [done|]. simpl. by rewrite IH. Qed.

(** The times of a permit fit their types. *)
Definition permit_fits (d : PermitDto) : bool :=
  let fits bound n := (0 <=? n) && (n <? bound) in
  fits (2 ^ 64) (pd_issued_at_secs d) && fits (2 ^ 32) (pd_issued_at_nanos d)
  && fits (2 ^ 64) (pd_expires_at_secs d) && fits (2 ^ 32) (pd_expires_at_nanos d).

Lemma PermitDto_round_trip d : permit_fits d = true -> PermitDto_from_value (PermitDto_to_value d) = Some d.
Proof.
  unfold permit_fits. rewrite !andb_true_iff. intros [[[[H1 H1'] [H2 H2']] [H3 H3']] [H4 H4']].
  unfold PermitDto_from_value, PermitDto_to_value. rewrite !json_object_get.
  cbn -[bytes_of_values strings_of_values Z.pow]. rewrite bytes_value_back, strings_back.
  rewrite H1, H1', H2, H2', H3, H3', H4, H4'. by destruct d.
Qed.

(** ** Routes and layers (server.rs) *)

(** Where a request goes.  Behind the token: the API calls, [/api/status], and the answers of
    axum for a method that is not served or a body that does not parse.  Not behind it:
    [/health], [/ready], the files of the dashboard, and what matches no route. *)
Inductive Routed :=
| Ro_health
| Ro_ready
| Ro_status
| Ro_api (call : ApiCall)
| Ro_api_refused (answer : HttpResponse)
| Ro_asset (answer : HttpResponse)
| Ro_shell (answer : HttpResponse)
| Ro_unmatched (answer : HttpResponse).

(** A request as the layers see it: when it arrives, its Authorization header, the id that is
    drawn for it, whether the semaphore is closed, whether its body is late, the answer of
    the body limit, the answer to a preflight, the headers that the CORS layer adds, its
    route, and the time since the start. *)
Record HttpRequest := {
  rq_arrival : Z;
  rq_authorization : option string;
  rq_request_id : string;
  rq_semaphore_closed : bool;
  rq_late : bool;
  rq_too_large : option HttpResponse;
  rq_preflight : option HttpResponse;
  rq_cors : list (string * string);
  rq_route : Routed;
  rq_uptime : Z;
}.

Definition CSP : string :=
  "default-src 'self'; script-src 'self'; style-src 'self' 'unsafe-inline'; img-src 'self' data:; "
  +:+ "connect-src 'self'; font-src 'self'; frame-ancestors 'none'; base-uri 'none'; form-action 'self'".

Definition no_store : HttpResponse -> HttpResponse := with_header "cache-control" "no-store".
Definition immutable : HttpResponse -> HttpResponse :=
  with_header "cache-control" "public, max-age=31536000, immutable".

(** [inject_request_id]. *)
Definition inject_request_id (request_id : string) : HttpResponse -> HttpResponse :=
  with_header "x-request-id" request_id.

(** The layers that only add headers, from the inside. *)
Definition header_layers (request_id : string) (r : HttpResponse) : HttpResponse :=
  with_header "content-security-policy" CSP
    (with_header "referrer-policy" "no-referrer"
       (with_header "x-content-type-options" "nosniff" (inject_request_id request_id r))).

Definition add_headers (headers : list (string * string)) (r : HttpResponse) : HttpResponse :=
  fold_left (fun r h => with_header h.1 h.2 r) headers r.

Section Http.
Context {SH : Sha256} {HX : HexLib} {AJ : AuditJson} {CH : Rfc3339} {IE : IdsJsonError}.
Context {RJ : RequestJson} {GL : GlobLib} {UL : UnicodeLower} {RD : ResourceDebug}.
Context {TL : TomlLib} {PF : PolicyFiles} {GT : GatewayTexts}.
Context {W : Type}.
Context {FA : Adapter W FilesystemInput FilesystemOutcome}.
Context {CA : Adapter W CommandInput CommandOutcome}.
Context {NA : Adapter W NetworkInput NetworkOutcome}.
Context (token : GatewayToken) (version bind : string).

Abbreviation GwState := (GatewayState W).

(** An answer and the state after it. *)
Definition served : Type := GwState -> HttpResponse * GwState.

Definition answer (r : HttpResponse) : served := fun s => (r, s).

Definition run_handler (request_id : string) (m : stateful GwState GatewayError GwData) : served := fun s =>
  let '(r, s') := m s in (respond_with request_id r, s').

(** Behind [require_auth]. *)
Definition with_token (q : HttpRequest) (next : served) : served :=
  match require_auth token (rq_authorization q) with
  | Err e => answer (GatewayError_into_response e)
  | Ok _ => next
  end.

Definition map_answer (f : HttpResponse -> HttpResponse) (m : served) : served := fun s =>
  let '(r, s') := m s in (f r, s').

(** The routers. *)
Definition router (env : GwEnv) (q : HttpRequest) : served :=
  match rq_route q with
  | Ro_health => map_answer no_store (answer health)
  | Ro_ready => map_answer no_store (run_handler (rq_request_id q) (respond GD_ready (gw_ready env)))
  | Ro_status => map_answer no_store (with_token q (answer (status_response version bind (rq_uptime q))))
  | Ro_api call => map_answer no_store (with_token q (run_handler (rq_request_id q) (handle env call)))
  | Ro_api_refused r => map_answer no_store (with_token q (answer r))
  | Ro_asset r => map_answer immutable (answer r)
  | Ro_shell r => map_answer no_store (answer r)
  | Ro_unmatched r => answer r
  end.

(** The CORS layer, which answers a preflight itself. *)
Definition cors_layer (q : HttpRequest) (next : served) : served :=
  match rq_preflight q with
  | Some r => answer r
  | None => map_answer (add_headers (rq_cors q)) next
  end.

(** [RequestBodyLimitLayer]. *)
Definition body_limit (q : HttpRequest) (next : served) : served :=
  match rq_too_large q with Some r => answer r | None => next end.

(** [request_timeout]. *)
Definition request_timeout (q : HttpRequest) (next : served) : served :=
  if rq_late q then answer (GatewayError_into_response (GatewayError_new KC_Timeout "request timed out"))
  else next.

(** [concurrency_limit]. *)
Definition concurrency_limit (q : HttpRequest) (next : served) : served :=
  if rq_semaphore_closed q
  then answer (GatewayError_into_response (GatewayError_new KC_InternalError "internal error"))
  else next.

(** [rate_limit] as a layer. *)
Definition rate_limit_layer (q : HttpRequest) (next : served) : served := fun s =>
  let '(r, limiter) := rate_limit (rq_arrival q) (gs_limiter s) in
  let s1 := {| gs_runtime := gs_runtime s; gs_stores := gs_stores s; gs_permits := gs_permits s;
               gs_tokens := gs_tokens s; gs_limiter := limiter |} in
  match r with
  | Err e => (GatewayError_into_response e, s1)
  | Ok _ => next s1
  end.

(** The application that [start] serves. *)
Definition app (env : GwEnv) (q : HttpRequest) : served :=
  rate_limit_layer q
    (concurrency_limit q
       (request_timeout q
          (body_limit q
             (cors_layer q
                (map_answer (header_layers (rq_request_id q)) (router env q)))))).

(** ** What the layers guarantee *)

(** The limiter apart, the state is the same. *)
Definition same_but_limiter (s s' : GwState) : Prop :=
  gs_runtime s' = gs_runtime s /\ gs_stores s' = gs_stores s /\ gs_permits s' = gs_permits s
  /\ gs_tokens s' = gs_tokens s.

Lemma with_header_get name name' value r :
  bmap_get name (res_headers (with_header name' value r))
  = match key_cmp name name' with Eq => Some value | _ => bmap_get name (res_headers r) end.
Proof. apply bmap_get_insert. Qed.

(** The headers of every answer from the routes. *)
Definition guarded (request_id : string) (r : HttpResponse) : Prop :=
  bmap_get "x-content-type-options" (res_headers r) = Some "nosniff"
  /\ bmap_get "referrer-policy" (res_headers r) = Some "no-referrer"
  /\ bmap_get "content-security-policy" (res_headers r) = Some CSP
  /\ bmap_get "x-request-id" (res_headers r) = Some request_id.

Lemma header_layers_guarded request_id r : guarded request_id (header_layers request_id r).
Proof. unfold guarded, header_layers, inject_request_id. by rewrite !with_header_get. Qed.

(** A CORS header never replaces one of them. *)
Definition cors_header (h : string * string) : Prop := starts_with "access-control-" h.1 = true \/ h.1 = "vary".

Lemma cors_guarded request_id headers r :
  Forall cors_header headers -> guarded request_id r -> guarded request_id (add_headers headers r).
Proof.
  intros Hh. revert r. induction Hh as [|[name value] headers Hn _ IH]; intros r Hg; [done|]. apply IH.
  assert (Hx : forall k, k ∈ ["x-content-type-options"; "referrer-policy"; "content-security-policy"; "x-request-id"] ->
    bmap_get k (res_headers (with_header name value r)) = bmap_get k (res_headers r)).
  { intros k Hk. rewrite with_header_get. destruct (key_cmp k name) eqn:E; [|done|done].
    apply key_cmp_eq in E as <-. exfalso. rewrite !elem_of_cons, elem_of_nil in Hk.
    destruct Hn as [Hn|Hn]; simpl in Hn; destruct Hk as [->|[->|[->|[->|[]]]]]; done. }
  destruct Hg as (H1 & H2 & H3 & H4).
  split_and!; rewrite Hx; (done || set_solver).
Qed.

Lemma add_headers_status headers r : res_status (add_headers headers r) = res_status r.
Proof. unfold add_headers. revert r. induction headers as [|h headers IH]; intros r; [done|]. simpl. by rewrite IH. Qed.

(** Past the outer layers. *)
Definition admitted (q : HttpRequest) (s : GwState) : Prop :=
  (rate_limit (rq_arrival q) (gs_limiter s)).1 = Ok tt /\ rq_semaphore_closed q = false
  /\ rq_late q = false /\ rq_too_large q = None /\ rq_preflight q = None.

Lemma decide_admitted q s : admitted q s \/ ~ admitted q s.
Proof.
  unfold admitted. destruct (rate_limit _ _).1 as [[]|e]; [|right; naive_solver].
  destruct (rq_semaphore_closed q); [right; naive_solver|]. destruct (rq_late q); [right; naive_solver|].
  destruct (rq_too_large q); [right; naive_solver|]. destruct (rq_preflight q); [right; naive_solver|].
  by left.
Qed.

Lemma app_admitted env q s :
  admitted q s ->
  exists s1, same_but_limiter s s1
    /\ app env q s = map_answer (add_headers (rq_cors q))
                       (map_answer (header_layers (rq_request_id q)) (router env q)) s1.
Proof.
  intros (Hr & Hs & Hl & Ht & Hp). unfold app, rate_limit_layer.
  destruct (rate_limit (rq_arrival q) (gs_limiter s)) as [r limiter]. simpl in Hr. subst r.
  exists {| gs_runtime := gs_runtime s; gs_stores := gs_stores s; gs_permits := gs_permits s;
            gs_tokens := gs_tokens s; gs_limiter := limiter |}.
  split; [by split_and!|]. unfold concurrency_limit, request_timeout, body_limit, cors_layer.
  by rewrite Hs, Hl, Ht, Hp.
Qed.

(** A request that an outer layer answers changes nothing but the limiter. *)
Lemma app_refused env q s :
  ~ admitted q s -> same_but_limiter s (app env q s).2.
Proof.
  intros Hn. unfold app, rate_limit_layer.
  destruct (rate_limit (rq_arrival q) (gs_limiter s)) as [[[]|e] limiter] eqn:Er; [|done].
  unfold concurrency_limit, request_timeout, body_limit, cors_layer.
  destruct (rq_semaphore_closed q) eqn:Es; [done|]. destruct (rq_late q) eqn:El; [done|].
  destruct (rq_too_large q) eqn:Et; [done|]. destruct (rq_preflight q) eqn:Ep; [done|].
  destruct Hn. unfold admitted. by rewrite Er.
Qed.

(** Behind the token. *)
Definition needs_token (route : Routed) : bool :=
  match route with Ro_status | Ro_api _ | Ro_api_refused _ => true | _ => false end.

Lemma router_refused env q s e :
  needs_token (rq_route q) = true -> require_auth token (rq_authorization q) = Err e ->
  router env q s = (no_store (GatewayError_into_response e), s).
Proof.
  intros Hn He. unfold router, with_token, map_answer. rewrite He. by destruct (rq_route q).
Qed.

Lemma require_auth_error authorization e :
  require_auth token authorization = Err e -> ge_status e = 401.
Proof.
  unfold require_auth, ok_or.
  destruct (match authorization with Some v => header_to_str v | None => None end) as [h|]; [|by intros [= <-]].
  destruct (strip_prefix "Bearer " h) as [t|]; [|by intros [= <-]].
  destruct (negb _); [by intros [= <-]|done].
Qed.

End Http.

(** (C11) The HTTP surface: a request to a route under /api without the bearer token of the
    operator changes nothing but the rate limiter, and is answered with 401 once the outer
    layers let it through; and every answer that comes from a route carries the security
    headers and the id of the request. *)
Theorem http_surface_guarded `{SH : Sha256} `{HX : HexLib} `{AJ : AuditJson} `{CH : Rfc3339}
    `{IE : IdsJsonError} `{RJ : RequestJson} `{GL : GlobLib} `{UL : UnicodeLower} `{RD : ResourceDebug}
    `{TL : TomlLib} `{PF : PolicyFiles} `{GT : GatewayTexts} {W : Type}
    `{FA : Adapter W FilesystemInput FilesystemOutcome} `{CA : Adapter W CommandInput CommandOutcome}
    `{NA : Adapter W NetworkInput NetworkOutcome} token version bind env q (s : GatewayState W) :
  Forall cors_header (rq_cors q) ->
  let '(r, s') := app token version bind env q s in
  (needs_token (rq_route q) = true -> is_ok (require_auth token (rq_authorization q)) = false ->
     same_but_limiter s s' /\ (admitted q s -> res_status r = 401))
  /\ (admitted q s -> guarded (rq_request_id q) r).
Proof.
  intros Hc. destruct (app token version bind env q s) as [r s'] eqn:Ea.
  destruct (decide_admitted q s) as [Had|Hno].
  - destruct (app_admitted token version bind env q s Had) as (s1 & Hs1 & E). rewrite Ea in E.
    split; [|intros _].
    + intros Hn He. destruct (require_auth token (rq_authorization q)) as [|e] eqn:Ee; [done|].
      unfold map_answer in E. rewrite (router_refused token version bind env q s1 e Hn Ee) in E.
      injection E as -> ->. split; [done|]. intros _. rewrite add_headers_status. cbn.
      by apply (require_auth_error token _ _ Ee).
    + unfold map_answer in E. destruct (router token version bind env q s1). injection E as -> ->.
      apply cors_guarded, header_layers_guarded. done.
  - pose proof (app_refused token version bind env q s Hno) as Hs. rewrite Ea in Hs.
    split; [intros _ _; split; [exact Hs|done]|done].
Qed.
