(* ===== verification/GatewayExamples.v ===== *)
(** * A gateway at work

    The runtime of the worked examples behind the gateway, with hexadecimal as the
    hex crate writes it.  One read is allowed, found twice and executed twice; the
    second execution fails.  Then requests over HTTP. *)

From stdpp Require Import base tactics list strings gmap.
From Stdlib Require Import ZArith Lia Ascii.
From S2P Require Import Prelude RustStr BTree Json CoreError CoreIds CorePath CoreResource.
From S2P Require Import CoreRequest CoreDecision CorePermit PolicyModel PolicyEngine PolicyProps PolicyLoad.
From S2P Require Import AuditModel AuditVerify ApprovalModel ApprovalBroker Instances.
From S2P Require Import EnforceFs EnforceFsProps EnforceCmd EnforceNet EnforceNetProps EnforceExamples.
From S2P Require Import Runtime RuntimeSpec RuntimeHistory RuntimeMachine RuntimeExamples.
From S2P Require Import GatewayModel GatewayTypes Gateway GatewayProps GatewayMachine GatewayHttp.

Open Scope Z_scope.

(** ** Hexadecimal *)

Definition hex_value (c : ascii) : option Z :=
  if is_ascii_digit c then Some (byte_val c - 48)
  else if in_range 97 102 c then Some (byte_val c - 87)
  else if in_range 65 70 c then Some (byte_val c - 55)
  else None.

Fixpoint encode_hex (s : string) : string :=
  match s with
  | EmptyString => ""
  | String c s' =>
      String (hex_digit (byte_val c / 16)) (String (hex_digit (byte_val c mod 16)) (encode_hex s'))
  end.

Fixpoint decode_hex (s : string) : result string string :=
  match s with
  | EmptyString => Ok ""
  | String c EmptyString => Err "Odd number of digits"
  | String c (String d s') =>
      match hex_value c, hex_value d with
      | Some hi, Some lo => let? r := decode_hex s' in Ok (String (byte_of (hi * 16 + lo)) r)
      | _, _ => Err "Invalid character"
      end
  end.

Definition real_hex : HexLib := {| hex_encode := encode_hex; hex_decode := decode_hex |}.

Lemma hex_pair c :
  hex_value (hex_digit (byte_val c / 16)) = Some (byte_val c / 16) /\
  hex_value (hex_digit (byte_val c mod 16)) = Some (byte_val c mod 16) /\
  byte_of (byte_val c / 16 * 16 + byte_val c mod 16) = c.
Proof. destruct c as [[] [] [] [] [] [] [] []]; vm_compute; by split_and!. Qed.

Lemma real_hex_laws : @HexLaws real_hex.
Proof.
  constructor. intros s. change (decode_hex (encode_hex s) = Ok s).
  induction s as [|c s IH]; [done|]. cbn [encode_hex decode_hex].
  destruct (hex_pair c) as (-> & -> & Hb). rewrite IH. by rewrite Hb.
Qed.

(** ** The gateway *)

#[local] Existing Instances toy_sha toy_sha_laws real_hex real_hex_laws toy_json toy_json_laws.
#[local] Existing Instances toy_time toy_ids_error toy_request_json literal_globs literal_globs_laws.
#[local] Existing Instance brief_debug.
#[local] Instance no_toml : TomlLib := {| toml_from_str _ := Err "no document" |}.
#[local] Instance no_files : PolicyFiles :=
  {| file_len _ := Err "no such file"; read_to_string _ := Err "no such file" |}.
#[local] Instance brief_texts : GatewayTexts :=
  {| execution_result_debug _ := "done" |}.

Definition gx_start : GatewayState (Machine World) :=
  {| gs_runtime := rx_rt; gs_stores := rx_fresh; gs_permits := IssuedPermitRegistry_new;
     gs_tokens := ∅; gs_limiter := RateLimiter_new 50 100 |}.

Definition gx_secret : string := "0123456789abcdef0123456789abcdef".

(** A request at second [sec], without faults. *)
Definition gx_env (n : string) (sec : Z) : GwEnv :=
  {| gw_rt := {| re_now _ := sec * SECOND; re_append _ := no_faults;
                 re_event_id k := if (k =? 0)%nat then "first-" +:+ n else "second-" +:+ n;
                 re_timestamp _ := "now"; re_random := Ok gx_secret;
                 re_broker := re_broker (rx_call_env n sec) |};
     gw_now _ := sec * SECOND; gw_runtime_lock := false;
     gw_permit_locks := {| pl_registry := false; pl_permit _ := false |};
     gw_token_lock := false; gw_audit_fault := None |}.

Abbreviation gx_handle := (handle (FA := rx_fs) (CA := rx_cmd) (NA := rx_net)).
Abbreviation gx_execute_run := (execute_run (FA := rx_fs) (CA := rx_cmd) (NA := rx_net)).

(** The client knows the secret and the hash, and lies about the rest. *)
Definition gx_body : ExecuteRequest :=
  {| er_request := rx_read;
     er_permit := {| pd_permit_token_hash := sha256 gx_secret; pd_request_id := "forged";
                     pd_scope := "CommandDestructive"; pd_matched_rule_ids := [];
                     pd_issued_at_secs := 0; pd_issued_at_nanos := 0;
                     pd_expires_at_secs := 0; pd_expires_at_nanos := 0;
                     pd_request_digest := ""; pd_consumed := false |};
     er_permit_secret_hex := hex_encode gx_secret;
     er_input := ID_None |}.

Definition gx_issued := gx_handle (gx_env "1" 10) (Api_evaluate rx_read) gx_start.
Definition gx_found1 := execute_lookup (gx_env "2" 20) gx_body (snd gx_issued).
Definition gx_found2 := execute_lookup (gx_env "3" 21) gx_body (snd gx_found1).
Definition gx_ran1 := gx_execute_run (gx_env "4" 22) gx_body gx_secret EI_None 0%nat (snd gx_found2).
Definition gx_ran2 := gx_execute_run (gx_env "5" 23) gx_body gx_secret EI_None 0%nat (snd gx_ran1).

Definition gx_result1 : result RuntimeError ExecutionResult :=
  Ok (ER_Filesystem (FO_FileRead "[hidden]" 3)).
Definition gx_result2 : result RuntimeError ExecutionResult :=
  Err (RE_PermitFailure "permit already consumed").

Abbreviation gx_world s := (rs_world (gs_stores s)).

Definition gx_event1 : GwEvent :=
  Ev_ran 0%nat gx_body gx_result1 (gx_world (snd gx_found2)) (gx_world (snd gx_ran1)).
Definition gx_event2 : GwEvent :=
  Ev_ran 0%nat gx_body gx_result2 (gx_world (snd gx_ran1)) (gx_world (snd gx_ran2)).

Definition gx_trace : list GwEvent :=
  [Ev_called gx_start (gx_env "1" 10) (Api_evaluate rx_read); Ev_quiet; Ev_quiet; gx_event1; gx_event2].

Definition gx_pool : Pool :=
  {| pool_state := snd gx_ran2; pool_flights := [F_ran gx_body true; F_ran gx_body true] |}.

Lemma gx_ran1_eq :
  gx_execute_run (gx_env "4" 22) gx_body gx_secret EI_None 0%nat (snd gx_found2)
  = (Ok (gx_result1, true), snd gx_ran1).
Proof. vm_compute. reflexivity. Defined.

Lemma gx_ran2_eq :
  gx_execute_run (gx_env "5" 23) gx_body gx_secret EI_None 0%nat (snd gx_ran1)
  = (Ok (gx_result2, true), snd gx_ran2).
Proof. vm_compute. reflexivity. Defined.

Lemma gx_found1_eq : execute_lookup (gx_env "2" 20) gx_body (snd gx_issued) = (Ok 0%nat, snd gx_found1).
Proof. vm_compute. reflexivity. Defined.

Lemma gx_found2_eq : execute_lookup (gx_env "3" 21) gx_body (snd gx_found1) = (Ok 0%nat, snd gx_found2).
Proof. vm_compute. reflexivity. Defined.

Lemma gx_prepared : execute_prepare gx_body = Ok (gx_secret, EI_None).
Proof. vm_compute. reflexivity. Defined.

Lemma gx_run : gw_run (FA := rx_fs) (CA := rx_cmd) (NA := rx_net) gx_trace gx_pool.
Proof.
  set (p0 := {| pool_state := gx_start; pool_flights := [] |}).
  assert (H0 : gw_run (FA := rx_fs) (CA := rx_cmd) (NA := rx_net) [] p0) by (by apply Run_fresh).
  eapply (Run_step [_; _; _; _]); [eapply (Run_step [_; _; _]); [eapply (Run_step [_; _]);
    [eapply (Run_step [_]); [eapply (Run_step []); [exact H0|]|]|]|]|].
  - apply (Step_call (gx_env "1" 10) (Api_evaluate rx_read) gx_start (fst gx_issued) (snd gx_issued));
      [done|apply surjective_pairing].
  - apply (Step_found (gx_env "2" 20) gx_body gx_secret EI_None _ 0%nat); [apply gx_prepared|apply gx_found1_eq].
  - apply (Step_found (gx_env "3" 21) gx_body gx_secret EI_None _ 0%nat); [apply gx_prepared|apply gx_found2_eq].
  - apply (Step_ran (gx_env "4" 22) gx_body gx_secret EI_None _ 0%nat _ true _ [] [_] gx_ran1_eq).
  - apply (Step_ran (gx_env "5" 23) gx_body gx_secret EI_None _ 0%nat _ true _ [_] [] gx_ran2_eq).
Defined.

(** ** Witnesses *)

Lemma issued_permit_once_witness :
  inert gx_result2 (gx_world (snd gx_ran1)) (gx_world (snd gx_ran2)).
Proof.
  apply (issued_permit_once (FA := rx_fs) (CA := rx_cmd) (NA := rx_net) gx_trace gx_pool
    [Ev_called gx_start (gx_env "1" 10) (Api_evaluate rx_read); Ev_quiet; Ev_quiet] 0%nat
    gx_body gx_result1 (gx_world (snd gx_found2)) (gx_world (snd gx_ran1)) []
    gx_body gx_result2 (gx_world (snd gx_ran1)) (gx_world (snd gx_ran2)) [] gx_run eq_refl).
  intros [_ [e He]]. discriminate.
Defined.

Lemma gateway_execution_entitled_witness :
  exists secret input e, execute_prepare gx_body = Ok (secret, input) /\
    e ∈ [Ev_called gx_start (gx_env "1" 10) (Api_evaluate rx_read); Ev_quiet; Ev_quiet] /\
    entitles e (er_request gx_body) (sha256 secret).
Proof.
  apply (gateway_execution_entitled (FA := rx_fs) (CA := rx_cmd) (NA := rx_net) gx_trace gx_pool
    [Ev_called gx_start (gx_env "1" 10) (Api_evaluate rx_read); Ev_quiet; Ev_quiet] 0%nat
    gx_body gx_result1 (gx_world (snd gx_found2)) (gx_world (snd gx_ran1)) [gx_event2] gx_run eq_refl).
  intros [_ [e He]]. discriminate.
Defined.

(** The operator's token, and a request that carries it. *)
Definition gx_token_hex : string := hex_encode gx_secret.
Definition gx_token : GatewayToken := GatewayToken_from_hash (sha256 gx_secret).
Definition gx_reply :=
  api gx_token 5 (Some ("Bearer " +:+ gx_token_hex)) (gx_env "1" 10) Api_list_policies
    (FA := rx_fs) (CA := rx_cmd) (NA := rx_net) gx_start.

Example gx_listed :
  fst gx_reply = Ok (GD_policies (map (fun p => (id_str (policy_id p), policy_name p, "deny",
                                                 Z.of_nat (length (policy_rules p)))) rx_policies)).
Proof. vm_compute. reflexivity. Qed.

(** Without the token the same request is refused. *)
Example gx_refused :
  api gx_token 5 (Some "Bearer 00") (gx_env "1" 10) Api_list_policies
    (FA := rx_fs) (CA := rx_cmd) (NA := rx_net) gx_start
  = (Err (unauthorized "invalid API token"),
     snd (api gx_token 5 None (gx_env "1" 10) Api_list_policies
            (FA := rx_fs) (CA := rx_cmd) (NA := rx_net) gx_start)).
Proof. vm_compute. reflexivity. Qed.

(** The classification of execution errors goes by their text: the operating system's
    own refusal contains the word permit and is reported to the client as its mistake,
    with the text. *)
Example os_refusal_is_bad_request :
  execute_response (Err (RE_FilesystemFailure (FilesystemError_display
    (FE_Io {| io_kind := IoOther; io_text := "Operation not permitted (os error 1)" |}))))
  = Err (bad_request
      "filesystem enforcement failed: i/o error: Operation not permitted (os error 1)").
Proof. vm_compute. reflexivity. Qed.

Lemma api_requires_token_witness : authorized gx_token (Some ("Bearer " +:+ gx_token_hex)).
Proof.
  destruct (api_requires_token (FA := rx_fs) (CA := rx_cmd) (NA := rx_net) (Some gx_token_hex) gx_token 5
    (Some ("Bearer " +:+ gx_token_hex)) (gx_env "1" 10) Api_list_policies gx_start (snd gx_reply)
    (fst gx_reply)) as [_ Hx]; [vm_compute; reflexivity|apply surjective_pairing|].
  cbn [fst RateLimiter_check gs_limiter gx_start] in Hx.
  destruct Hx as [[Ha _]|(_ & _ & e & He & _)]; [exact Ha|]. vm_compute in He. discriminate.
Defined.

(** ** Requests over HTTP *)

#[local] Existing Instances toy_sha real_hex toy_json toy_time toy_ids_error toy_request_json literal_globs.
#[local] Existing Instances brief_debug no_toml no_files brief_texts.

Definition hx_request (authorization : option string) (route : Routed) : HttpRequest :=
  {| rq_arrival := 5; rq_authorization := authorization; rq_request_id := "id-1";
     rq_semaphore_closed := false; rq_late := false; rq_too_large := None; rq_preflight := None;
     rq_cors := [("vary", "origin")]; rq_route := route; rq_uptime := 7 |}.

Abbreviation hx_app := (app (FA := rx_fs) (CA := rx_cmd) (NA := rx_net) gx_token "0.1.0" "127.0.0.1:8080").

(** With the token the policies are listed. *)
Example hx_policies :
  res_status (hx_app (gx_env "1" 10)
    (hx_request (Some ("Bearer " +:+ gx_token_hex)) (Ro_api Api_list_policies)) gx_start).1 = 200.
Proof. vm_compute. reflexivity. Qed.

(** An answer of an outer layer has none of the headers: here a body that comes too late. *)
Example late_answer_bare :
  let late := {| rq_arrival := 5; rq_authorization := None; rq_request_id := "id-1";
                 rq_semaphore_closed := false; rq_late := true; rq_too_large := None; rq_preflight := None;
                 rq_cors := []; rq_route := Ro_health; rq_uptime := 7 |} in
  let r := (hx_app (gx_env "1" 10) late gx_start).1 in
  res_status r = 504 /\ bmap_get "x-content-type-options" (res_headers r) = None
  /\ bmap_get "x-request-id" (res_headers r) = None /\ bmap_get "cache-control" (res_headers r) = None.
Proof. vm_compute. by split_and!. Qed.

Lemma http_surface_guarded_witness :
  let q := hx_request None (Ro_api Api_list_policies) in
  let r := (hx_app (gx_env "1" 10) q gx_start).1 in
  same_but_limiter gx_start (hx_app (gx_env "1" 10) q gx_start).2
  /\ res_status r = 401 /\ guarded "id-1" r.
Proof.
  cbv zeta. pose proof (http_surface_guarded (FA := rx_fs) (CA := rx_cmd) (NA := rx_net) gx_token "0.1.0" "127.0.0.1:8080"
    (gx_env "1" 10) (hx_request None (Ro_api Api_list_policies)) gx_start) as H.
  assert (Hc : Forall cors_header (rq_cors (hx_request None (Ro_api Api_list_policies)))).
  { constructor; [by right|constructor]. }
  assert (Ha : admitted (hx_request None (Ro_api Api_list_policies)) gx_start).
  { vm_compute. by split_and!. }
  specialize (H Hc). destruct (hx_app _ _ _) as [r s']. destruct H as [H1 H2].
  destruct (H1 eq_refl eq_refl) as [Hs Hr]. split_and!; [exact Hs|exact (Hr Ha)|exact (H2 Ha)].
Defined.
