(* ===== verification/GatewayServe.v ===== *)
(** * The gateway from its builder to its shutdown

    crates/kavach-gateway/src/server.rs: [GatewayBuilder], its setters, the whole of
    [start] and [shutdown_signal].  What reaches the process is a sequence of inputs: a
    request over HTTP, an interrupt, a termination signal.  Requests are served one after the
    other here; [GatewayMachine] has their interleavings, and the sessions of this file are
    runs of that machine. *)

From stdpp Require Import base tactics list strings gmap.
From Stdlib Require Import ZArith Lia Ascii.
From S2P Require Import Prelude RustStr BTree Json CoreError CoreIds CorePath CoreResource.
From S2P Require Import CoreRequest CoreDecision CorePermit PolicyModel PolicyEngine PolicyLoad.
From S2P Require Import AuditModel AuditVerify ApprovalModel ApprovalBroker.
From S2P Require Import EnforceFs EnforceCmd EnforceNet Runtime RuntimeSpec GatewayModel GatewayTypes.
From S2P Require Import Gateway GatewayServer GatewayMachine GatewayHttp.

Open Scope Z_scope.

(** What reaches a process that listens. *)
Inductive ServerInput :=
| In_request (env : GwEnv) (q : HttpRequest)
| In_ctrl_c
| In_terminate.

Section Serve.
Context {SH : Sha256} {HX : HexLib} {AJ : AuditJson} {CH : Rfc3339} {IE : IdsJsonError}.
Context {RJ : RequestJson} {GL : GlobLib} {UL : UnicodeLower} {RD : ResourceDebug}.
Context {TL : TomlLib} {PF : PolicyFiles} {GT : GatewayTexts}.
Context {W : Type}.
Context {FA : Adapter W FilesystemInput FilesystemOutcome}.
Context {CA : Adapter W CommandInput CommandOutcome}.
Context {NA : Adapter W NetworkInput NetworkOutcome}.
Variable version : string.

Abbreviation GwState := (GatewayState W).

(** ** The builder *)

(** [GatewayBuilder]; a runtime comes with the databases and the world behind it. *)
Record GatewayBuilder := {
  gb_runtime : option (KavachRuntime * RtState W);
  gb_token_hex : option string;
  gb_config : GatewayConfig;
}.

Definition GatewayBuilder_new : GatewayBuilder :=
  {| gb_runtime := None; gb_token_hex := None; gb_config := GatewayConfig_default |}.

Definition GatewayBuilder_with_runtime (runtime : KavachRuntime) (stores : RtState W) (b : GatewayBuilder)
  : GatewayBuilder :=
  {| gb_runtime := Some (runtime, stores); gb_token_hex := gb_token_hex b; gb_config := gb_config b |}.

Definition GatewayBuilder_with_auth_token_hex (token_hex : option string) (b : GatewayBuilder)
  : GatewayBuilder :=
  {| gb_runtime := gb_runtime b; gb_token_hex := token_hex; gb_config := gb_config b |}.

Definition GatewayBuilder_with_bind (bind : string) (b : GatewayBuilder) : GatewayBuilder :=
  let c := gb_config b in
  {| gb_runtime := gb_runtime b; gb_token_hex := gb_token_hex b;
     gb_config := {| gc_bind := bind; gc_request_body_limit := gc_request_body_limit c;
                     gc_request_timeout := gc_request_timeout c;
                     gc_concurrency_limit := gc_concurrency_limit c;
                     gc_rate_limit_per_second := gc_rate_limit_per_second c;
                     gc_rate_limit_burst := gc_rate_limit_burst c;
                     gc_allow_non_loopback := gc_allow_non_loopback c |} |}.

Definition GatewayBuilder_with_config (config : GatewayConfig) (b : GatewayBuilder) : GatewayBuilder :=
  {| gb_runtime := gb_runtime b; gb_token_hex := gb_token_hex b; gb_config := config |}.

(** ** Serving *)

(** [shutdown_signal]: an interrupt or a termination signal, whichever comes first. *)
Definition shutdown_signal (i : ServerInput) : bool :=
  match i with In_ctrl_c | In_terminate => true | In_request _ _ => false end.

(** [axum::serve(listener, app).with_graceful_shutdown(shutdown_signal())]: the answers, the
    state, and whether the server has shut down; the alternative is that it waits. *)
Fixpoint axum_serve (token : GatewayToken) (bind : string) (inputs : list ServerInput) (s : GwState)
  : list HttpResponse * GwState * bool :=
  match inputs with
  | [] => ([], s, false)
  | i :: rest =>
      if shutdown_signal i then ([], s, true)
      else
        match i with
        | In_request env q =>
            let '(r, s1) := app (FA := FA) (CA := CA) (NA := NA) token version bind env q s in
            let '(rs, s2, stopped) := axum_serve token bind rest s1 in
            (r :: rs, s2, stopped)
        | _ => axum_serve token bind rest s
        end
  end.

(** What a server has done so far. *)
Record ServerRun := {
  sn_addr : SocketAddr;
  sn_token : GatewayToken;
  sn_start : GwState;
  sn_answers : list HttpResponse;
  sn_state : GwState;
  sn_stopped : bool;
}.

(** [GatewayBuilder::start]; [listen] is the failure of [TcpListener::bind]. *)
Definition GatewayBuilder_start (b : GatewayBuilder) (listen : SocketAddr -> option string)
    (inputs : list ServerInput) : result string ServerRun :=
  let? runtime := ok_or "runtime is required" (gb_runtime b) in
  let? started := start (fst runtime) (snd runtime) (gb_token_hex b) (gb_config b) in
  let '(addr, token, s) := started in
  match listen addr with
  | Some e => Err e
  | None =>
      let '(answers, s', stopped) := axum_serve token (gc_bind (gb_config b)) inputs s in
      Ok {| sn_addr := addr; sn_token := token; sn_start := s; sn_answers := answers;
            sn_state := s'; sn_stopped := stopped |}
  end.

(** ** Sessions as runs of the machine *)

Abbreviation world s := (rs_world (gs_stores s)).
Abbreviation pool s := {| pool_state := s; pool_flights := [] |}.

(** The request [q] carries the token of the operator. *)
Definition authorized (token : GatewayToken) (q : HttpRequest) : Prop :=
  require_auth token (rq_authorization q) = Ok tt.

(** The steps of the machine for one request: none is an execution unless the request is
    one and carries the token. *)
Definition request_trace (token : GatewayToken) (env : GwEnv) (q : HttpRequest) (s s' : GwState)
    (tr : list (GwEvent (W := W))) : Prop :=
  Forall (eq Ev_quiet) tr \/
  (exists call s0, rq_route q = Ro_api call /\ authorized token q /\ is_execute call = false /\
     tr = [Ev_quiet; Ev_called s0 env call]) \/
  (exists body l v, rq_route q = Ro_api (Api_execute body) /\ authorized token q /\
     tr = [Ev_quiet; Ev_quiet; Ev_ran l body v (world s) (world s'); Ev_quiet]).

(** The readiness check changes nothing. *)
Lemma gw_ready_quiet env (s : GwState) : (respond GD_ready (gw_ready env) s).2 = s.
Proof.
  unfold respond, gw_ready, read_runtime, st_bind. destruct (gw_runtime_lock env); [done|].
  unfold ask_audit. destruct (AuditStore_chain_status _ _) as [cs|e]; [|done]. simpl.
  unfold on_stores, list_pending, st_bind, ask_store, st_lift. simpl.
  destruct (store_list_pending _ _ _) as [rows|e]; simpl; [destruct (map_result _ _); simpl|];
    by destruct s as [rt [[] ?] ? ? ?].
Qed.

(** A request without the token leaves everything but the rate limiter alone. *)
Lemma app_unauthorized token bind env q (s : GwState) :
  ~ authorized token q ->
  same_but_limiter s (app (FA := FA) (CA := CA) (NA := NA) token version bind env q s).2.
Proof.
  intros Hn. destruct (decide_admitted q s) as [Ha|Ha]; [|by apply app_refused].
  destruct (app_admitted (FA := FA) (CA := CA) (NA := NA) token version bind env q s Ha) as (s1 & Hs1 & ->).
  unfold map_answer. destruct (router token version bind env q s1) as [r s2] eqn:Er. simpl.
  enough (s2 = s1) as -> by done.
  unfold router, with_token, map_answer, answer, run_handler in Er. unfold authorized in Hn.
  destruct (rq_route q); try (injection Er as _ <-; done).
  - pose proof (gw_ready_quiet env s1) as Hq. destruct (respond _ _ s1). by injection Er as _ <-.
  - by destruct (require_auth _ _); injection Er as _ <-.
  - destruct (require_auth token (rq_authorization q)) as [[]|]; [done|]. by injection Er as _ <-.
  - by destruct (require_auth _ _); injection Er as _ <-.
Qed.

Lemma session_unauthorized token bind inputs (s : GwState) :
  Forall (fun i => match i with In_request _ q => ~ authorized token q | _ => True end) inputs ->
  same_but_limiter s (axum_serve token bind inputs s).1.2.
Proof.
  intros Hf. revert s. induction Hf as [|i rest Hi _ IH]; intros s; [done|].
  destruct i as [env q| |]; simpl; [|done|done].
  pose proof (app_unauthorized token bind env q s Hi) as Hs.
  destruct (app _ _ _ env q s) as [r s1]. specialize (IH s1).
  destruct (axum_serve token bind rest s1) as [[rs s2] stopped]. simpl in *.
  unfold same_but_limiter in *. naive_solver congruence.
Qed.

Lemma app_steps token bind env q (s : GwState) r s' :
  app (FA := FA) (CA := CA) (NA := NA) token version bind env q s = (r, s') ->
  exists tr, gw_steps (FA := FA) (CA := CA) (NA := NA) (pool s) tr (pool s') /\
    request_trace token env q s s' tr.
Proof.
  unfold app, rate_limit_layer. destruct (rate_limit _ _) as [a limiter]. intros Ha.
  fold (with_limiter limiter s) in Ha. set (s1 := with_limiter limiter s) in *.
  assert (Hdone : s' = s1 -> exists tr, gw_steps (FA := FA) (CA := CA) (NA := NA) (pool s) tr (pool s')
                    /\ request_trace token env q s s' tr).
  { intros ->. exists [Ev_quiet]. split; [|left; by repeat constructor].
    econstructor; [apply Step_arrival|constructor]. }
  destruct a as [[]|e]; [|injection Ha as _ <-; by apply Hdone].
  unfold concurrency_limit, request_timeout, body_limit, cors_layer, answer, map_answer in Ha.
  destruct (rq_semaphore_closed q); [injection Ha as _ <-; by apply Hdone|].
  destruct (rq_late q); [injection Ha as _ <-; by apply Hdone|].
  destruct (rq_too_large q); [injection Ha as _ <-; by apply Hdone|].
  destruct (rq_preflight q); [injection Ha as _ <-; by apply Hdone|].
  unfold router, with_token, map_answer, answer, run_handler in Ha.
  destruct (rq_route q) as [| | |call|x|x|x|x] eqn:Er; try (injection Ha as _ <-; by apply Hdone);
    try (destruct (require_auth _ _); injection Ha as _ <-; by apply Hdone).
  - pose proof (gw_ready_quiet env s1) as Hs. destruct (respond _ _ s1) as [v s2].
    injection Ha as _ <-. by apply Hdone.
  - destruct (require_auth token (rq_authorization q)) as [[]|e] eqn:Et;
      [|injection Ha as _ <-; by apply Hdone].
    destruct (handle env call s1) as [v s2] eqn:Eh. injection Ha as _ <-.
    destruct (is_execute call) eqn:Ex.
    + destruct call as [|body| | | | | | | | |]; try done.
      apply (gw_execute_steps (FA := FA) (CA := CA) (NA := NA)) with (fl := []) in Eh as (tr & Ht & Hc).
      exists (Ev_quiet :: tr). split; [econstructor; [apply Step_arrival|exact Ht]|].
      destruct Hc as [Hc|(l & w & ->)]; [left; by constructor|right; right]. by exists body, l, w.
    + exists [Ev_quiet; Ev_called s1 env call]. split.
      * econstructor; [apply Step_arrival|]. econstructor; [by eapply Step_call|constructor].
      * right. left. by exists call, s1.
Qed.

(** Requests that are served one after the other, from a state a run has reached; every
    call of that run was made by one of the inputs [past], with the token. *)
Definition made_by (token : GatewayToken) (past : list ServerInput) (e : GwEvent (W := W)) : Prop :=
  match e with
  | Ev_called _ env call =>
      exists q, In_request env q ∈ past /\ rq_route q = Ro_api call /\ authorized token q
  | _ => True
  end.

Lemma made_by_more token past i e : made_by token past e -> made_by token (past ++ [i]) e.
Proof.
  destruct e as [s env call| |]; simpl; [|done..]. intros (q & Hq & Hr & Ht). exists q.
  split_and!; [|done..]. apply elem_of_app. by left.
Qed.

Lemma request_trace_made_by token env q s s' tr past :
  request_trace token env q s s' tr -> Forall (made_by token (past ++ [In_request env q])) tr.
Proof.
  intros [Hf|[(call & s0 & Hr & Ht & _ & ->)|(body & l & v & _ & _ & ->)]].
  - eapply Forall_impl; [exact Hf|]. by intros e <-.
  - repeat constructor. exists q. split_and!; [|done..]. apply elem_of_app. right. by left.
  - by repeat constructor.
Qed.

Lemma gw_run_steps tr p tr' p' :
  gw_run (FA := FA) (CA := CA) (NA := NA) tr p -> gw_steps (FA := FA) (CA := CA) (NA := NA) p tr' p' ->
  gw_run (FA := FA) (CA := CA) (NA := NA) (tr ++ tr') p'.
Proof.
  intros Hr Hs. revert tr Hr. induction Hs as [p|p e p1 tr' p' Hst Hs IH]; intros tr Hr.
  - by rewrite app_nil_r.
  - rewrite cons_middle, app_assoc. apply IH. by eapply Run_step.
Qed.

(** ** What a session can do *)

Context {FAL : AdapterLaws (H1 := FA)} {CAL : AdapterLaws (H1 := CA)} {NAL : AdapterLaws (H1 := NA)}.

(** Among the inputs is an execution with the token, presented with the secret of a permit
    to which an earlier input, with the token as well, entitled it. *)
Definition entitled_execution (token : GatewayToken) (past inputs : list ServerInput) : Prop :=
  exists a env q b body secret input, inputs = a ++ In_request env q :: b /\
    rq_route q = Ro_api (Api_execute body) /\ authorized token q /\
    execute_prepare body = Ok (secret, input) /\
    exists s0 env0 q0 call, In_request env0 q0 ∈ past ++ a /\ rq_route q0 = Ro_api call /\
      authorized token q0 /\ entitles (W := W) (Ev_called s0 env0 call) (er_request body) (sha256 secret).

Lemma entitled_later token past i rest :
  entitled_execution token (past ++ [i]) rest -> entitled_execution token past (i :: rest).
Proof.
  intros (a & env & q & b & body & secret & input & -> & H1 & H2 & H3 & Hx).
  exists (i :: a), env, q, b, body, secret, input. split_and!; [done..|].
  by rewrite cons_middle, app_assoc.
Qed.

(** One request leaves the world alone or is an execution that was entitled to. *)
Lemma served_request_effect token bind env q (s : GwState) r s1 past tr :
  gw_run (FA := FA) (CA := CA) (NA := NA) tr (pool s) -> Forall (made_by token past) tr ->
  app (FA := FA) (CA := CA) (NA := NA) token version bind env q s = (r, s1) ->
  exists tr1, gw_run (FA := FA) (CA := CA) (NA := NA) (tr ++ tr1) (pool s1) /\
    Forall (made_by token (past ++ [In_request env q])) (tr ++ tr1) /\
    (world s1 = world s \/ forall rest, entitled_execution token past (In_request env q :: rest)).
Proof.
  intros Hrun Hpast Ha. destruct (app_steps _ _ _ _ _ _ _ Ha) as (tr1 & Hs & Ht). exists tr1.
  pose proof (gw_run_steps _ _ _ _ Hrun Hs) as Hr1. split; [done|]. split.
  { apply Forall_app. split; [|by eapply request_trace_made_by].
    eapply Forall_impl; [exact Hpast|]. intros e. apply made_by_more. }
  assert (Hquiet : Forall (fun e => is_run e = false) tr1 -> world s1 = world s).
  { clear -Hs FAL CAL NAL. remember (pool s) as p eqn:Ep. remember (pool s1) as p' eqn:Ep'. intros Hf.
    enough (E : world (pool_state p') = world (pool_state p)) by (subst; exact E).
    clear Ep Ep'. induction Hs as [p|p e p1 tr1 p' Hst Hs IH]; [done|].
    apply Forall_cons_1 in Hf as [He Hf].
    rewrite (IH Hf). by apply (only_runs_act (FA := FA) (CA := CA) (NA := NA)) in Hst. }
  destruct Ht as [Hf|[(call & s0 & _ & _ & _ & ->)|(body & l & v & Hroute & Hauth & ->)]].
  - left. apply Hquiet. eapply Forall_impl; [exact Hf|]. by intros e <-.
  - left. apply Hquiet. by repeat constructor.
  - destruct (run_entitled (tr ++ [Ev_quiet; Ev_quiet]) l body v (world s) (world s1) [Ev_quiet] (pool s1))
      as [[Hw _]|(secret & input & e & Hp & He & Hent)]; [by rewrite <- app_assoc|by left|right].
    intros rest. exists [], env, q, rest, body, secret, input. split_and!; [done..|].
    destruct e as [s0 env0 call| |]; [|done|done]. apply elem_of_app in He as [He|He].
    + rewrite Forall_forall in Hpast. destruct (Hpast _ He) as (q0 & Hq0 & Hr0 & Ht0).
      exists s0, env0, q0, call. by rewrite app_nil_r.
    + rewrite !elem_of_cons, elem_of_nil in He. naive_solver.
Qed.

Lemma session_effect token bind inputs (s : GwState) past tr :
  gw_run (FA := FA) (CA := CA) (NA := NA) tr (pool s) -> Forall (made_by token past) tr ->
  world (axum_serve token bind inputs s).1.2 = world s \/ entitled_execution token past inputs.
Proof.
  revert s past tr. induction inputs as [|i rest IH]; intros s past tr Hrun Hpast; [by left|].
  destruct i as [env q| |]; simpl; [|by left|by left].
  destruct (app _ _ _ env q s) as [r s1] eqn:Ea.
  destruct (served_request_effect _ _ _ _ _ _ _ _ _ Hrun Hpast Ea) as (tr1 & Hr1 & Hm & [Hw|He]); [|by right].
  specialize (IH s1 _ _ Hr1 Hm). destruct (axum_serve token bind rest s1) as [[rs s2] stopped].
  simpl in *. destruct IH as [IH|IH]; [left; congruence|right]. by apply entitled_later.
Qed.

End Serve.
