(* ===== verification/CliMain.v ===== *)
(** * The whole program

    crates/kavach-cli/src/main.rs with the commands that serve: commands/serve.rs and
    mcp.rs from the configuration file to the end of the process, and the dispatch over all
    commands.  The state is the console and the database files, the machine the adapters act
    on, and the file system of the set-up. *)

From stdpp Require Import base tactics list strings gmap.
From Stdlib Require Import ZArith Lia Ascii.
From S2P Require Import Prelude RustStr Utf8 BTree Json CoreError CoreIds CorePath CoreResource CoreRequest.
From S2P Require Import CoreDecision CorePermit PolicyModel PolicyEngine PolicyLoad AuditModel AuditVerify.
From S2P Require Import ApprovalModel ApprovalBroker EnforceFs EnforceCmd EnforceNet Runtime RuntimeMachine.
From S2P Require Import GatewayModel GatewayTypes Gateway GatewayServer GatewayMachine GatewayHttp GatewayServe.
From S2P Require Import ConfigLoad CliServe CliPolicy CliCommands McpProtocol McpProxy McpProps Setup.
Import ConfigLoad.Config.

Open Scope Z_scope.

(** What the program can change. *)
Record Program (W : Type) := {
  pg_cli : CliWorld;
  pg_machine : Machine W;
  pg_setup : SetupState;
}.
Arguments Build_Program {W} _ _ _.
Arguments pg_cli {W} _.
Arguments pg_machine {W} _.
Arguments pg_setup {W} _.

(** What a serving process meets: the failure of the tokio runtime, of the listener and of the
    spawning of the server, the inputs of the gateway, the client of the proxy with the
    outcomes of the writes to it, and the surroundings of its messages. *)
Record ServeEnv := {
  sn_tokio : option string;
  sn_listen : SocketAddr -> option string;
  sn_inputs : list ServerInput;
  sn_spawn : string -> list string -> result string Child;
  sn_client : McpTransport;
  sn_messages : nat -> MsgEnv;
}.

Section Main.
Context {JP : JsonPrint} {JT : JsonText} {CF : CliFiles} {PF : PolicyFiles} {TL : TomlLib}.
Context {GL : GlobLib} {UL : UnicodeLower} {UU : UnicodeUpper} {CS : ConfigSources} {ST : SetupTexts}.
Context {SH : Sha256} {HX : HexLib} {AJ : AuditJson} {CH : Rfc3339} {IE : IdsJsonError} {RJ : RequestJson}.
Context {RD : ResourceDebug} {GT : GatewayTexts}.
Context {W : Type} {OS : FsOs W} {OSL : FsOsLaws W} {PR : ProcOs W} {NO : NetOs W}.

(** As in the sections of the commands; [suffix] names temporary files, [redact_text] is the
    redaction of texts of the proxy. *)
Variable query_fault : nat -> option string.
Variable usize_max : Z.
Variable version : string.
Variable os_path : string -> OsPath.
Variable current_dir : OsPath.
Variable default_redactor : Redactor.
Variable suffix : Machine W -> string.
Variable redact_text : string -> string.

Abbreviation program A := (stateful (Program W) CliError A).

(** The databases after a process that had opened them. *)
Definition put_stores (cfg : KavachConfig) (stores : BrokerState) (w : CliWorld) : CliWorld :=
  {| cw_console := cw_console w;
     cw_audit := store_at cfg.(audit).(audit_database) (br_audit stores) (cw_audit w);
     cw_approvals := store_at cfg.(approval).(approval_database) (br_approvals stores) (cw_approvals w) |}.

Definition print (texts : list string) (w : CliWorld) : CliWorld :=
  {| cw_console := {| con_out := con_out (cw_console w) ++ texts; con_feed := con_feed (cw_console w) |};
     cw_audit := cw_audit w; cw_approvals := cw_approvals w |}.

Definition on_cli (f : CliWorld -> CliWorld) (s : Program W) : Program W :=
  {| pg_cli := f (pg_cli s); pg_machine := pg_machine s; pg_setup := pg_setup s |}.

(** ** serve.rs *)

(** The builder of the gateway, as [serve::run] chains it. *)
Definition serve_builder (p : Prepared) (m : Machine W) : GatewayBuilder (W := Machine W) :=
  GatewayBuilder_with_config (pr_gateway p)
    (GatewayBuilder_with_auth_token_hex (Some (pr_token p))
       (GatewayBuilder_with_runtime (pr_runtime p) {| rs_broker := pr_stores p; rs_world := m |}
          GatewayBuilder_new)).

(** The gateway with the adapters of the registry. *)
Definition serve_start (env : ServeEnv) (p : Prepared) (m : Machine W)
  : result string (ServerRun (W := Machine W)) :=
  GatewayBuilder_start (FA := machine_fs (pr_registry p) suffix) (CA := machine_cmd (pr_registry p))
    (NA := machine_net (pr_registry p)) version (serve_builder p m) (sn_listen env) (sn_inputs env).

(** [serve::run]: whether the server has shut down. *)
Definition serve_command (env : ServeEnv) (config_path : string) (mode : OutputMode) : program bool := fun s =>
  match serve_prepare usize_max os_path current_dir default_redactor (cw_audit (pg_cli s))
          (cw_approvals (pg_cli s)) config_path (mc_world (pg_machine s)) with
  | Err e => (Err e, s)
  | Ok p =>
      let message := "starting KAVACH gateway on " +:+ (pr_config p).(server).(bind) in
      let s1 := on_cli (print [render mode (CliOutput_with_message message)]) s in
      match serve_start env p (pg_machine s) with
      | Err e => (Err (gateway_failed e), s1)
      | Ok run =>
          (Ok (sn_stopped run),
           {| pg_cli := put_stores (pr_config p) (rs_broker (gs_stores (sn_state run))) (pg_cli s1);
              pg_machine := rs_world (gs_stores (sn_state run)); pg_setup := pg_setup s1 |})
      end
  end.

(** ** mcp.rs *)

(** How the thread of the proxy ended. *)
Inductive Joined := J_returned (r : result string unit) | J_panicked.

(** The match over [handle.join()]. *)
Definition mcp_joined (j : Joined) : result CliError unit :=
  match j with
  | J_returned (Ok _) => Ok tt
  | J_returned (Err e) => Err (CliError_new X_InternalError e)
  | J_panicked => Err (CliError_new X_InternalError "MCP proxy thread panicked")
  end.

(** The configuration of the proxy: the command of the server is fixed. *)
Definition mcp_proxy_config : McpProxyConfig :=
  {| mp_server_command := "mcp-server";
     mp_server_args := mp_server_args McpProxyConfig_default;
     mp_request_timeout := mp_request_timeout McpProxyConfig_default;
     mp_agent_id := mp_agent_id McpProxyConfig_default;
     mp_session_id := mp_session_id McpProxyConfig_default |}.

(** The thread: the texts for the client, the outcome, and the proxy at its end; [None] is
    beyond one round per line of the client and one more. *)
Definition mcp_thread (env : ServeEnv) (rt : KavachRuntime) (stores : BrokerState)
  : option (list string * result string unit * option ProxyState) :=
  match McpProxy_spawn (sn_spawn env) mcp_proxy_config stores with
  | Err e => Some ([], Err e, None)
  | Ok proxy =>
      let client := sn_client env in
      match run_proxy mcp_proxy_config rt redact_text (S (length (tp_reader client))) (sn_messages env) 0%nat
              (tp_writer client) (tp_reader client) proxy with
      | Some (texts, r, proxy') => Some (texts, r, Some proxy')
      | None => None
      end
  end.

(** What the server was sent. *)
Definition sent_to_server (o : option ProxyState) : list JsonRpcMessage :=
  match o with Some proxy => px_sent proxy | None => [] end.

(** [mcp::run]: the outcome, what the server was sent, and the state. *)
Definition mcp_command (env : ServeEnv) (config_path : string) (mode : OutputMode) (s : Program W)
  : option (result CliError unit * list JsonRpcMessage * Program W) :=
  match mcp_run usize_max os_path current_dir default_redactor (cw_audit (pg_cli s))
          (cw_approvals (pg_cli s)) config_path (mc_world (pg_machine s)) with
  | Ok (cfg, (rt, _, stores)) =>
      let banner := render mode (CliOutput_with_message "starting KAVACH MCP adapter on stdio") in
      match mcp_thread env rt stores with
      | None => None
      | Some (texts, r, proxy) =>
          let stores' := match proxy with Some px => px_stores px | None => stores end in
          Some (mcp_joined (J_returned r), sent_to_server proxy,
                on_cli (fun w => put_stores cfg stores' (print (banner :: map (fun t => t +:+ NEWLINE) texts) w)) s)
      end
  | Err e => Some (Err e, [], s)
  end.

(** ** main.rs *)

(** [Commands], all of them. *)
Inductive CliCommand :=
| CC_Command (c : Commands)
| CC_Serve (config : string)
| CC_McpServe (config : string)
| CC_Setup (policy : option string) (start_dashboard : bool).

Definition runtime_init_failed (e : string) : CliError :=
  CliError_new X_InternalError ("runtime init failed: " +:+ e).

(** The command's outcome and the state after it; [None] for a gateway that still serves. *)
Definition run_cli (env : CliEnv) (benv : CallEnv) (senv : ServeEnv) (xenv : SetupEnv) (mode : OutputMode)
    (c : CliCommand) (s : Program W) : option (result CliError unit) * Program W :=
  match c with
  | CC_Command c =>
      let '(r, w) := run_command query_fault usize_max version env benv mode c (pg_cli s) in
      (Some r, on_cli (fun _ => w) s)
  | CC_Serve config =>
      match sn_tokio senv with
      | Some e => (Some (Err (runtime_init_failed e)), s)
      | None =>
          match serve_command senv config mode s with
          | (Err e, s') => (Some (Err e), s')
          | (Ok stopped, s') => ((if stopped then Some (Ok tt) else None), s')
          end
      end
  | CC_McpServe config =>
      match sn_tokio senv with
      | Some e => (Some (Err (runtime_init_failed e)), s)
      | None =>
          match mcp_command senv config mode s with
          | Some (r, _, s') => (Some r, s')
          | None => (None, s)
          end
      end
  | CC_Setup policy start_dashboard =>
      let '(r, x) := setup_run xenv policy start_dashboard mode (pg_setup s) in
      (Some r, {| pg_cli := pg_cli s; pg_machine := pg_machine s; pg_setup := x |})
  end.

(** [main]: the exit code and the text on the standard error. *)
Definition kavach (env : CliEnv) (benv : CallEnv) (senv : ServeEnv) (xenv : SetupEnv) (mode : OutputMode)
    (c : CliCommand) (s : Program W) : option (Z * string) * Program W :=
  let '(r, s') := run_cli env benv senv xenv mode c s in
  (match r with
   | Some (Ok _) => Some (ExitCode_code X_Success, "")
   | Some (Err e) => Some (ExitCode_code (cli_code e), render Human (CliOutput_error (cli_message e)))
   | None => None
   end, s').

End Main.
