(* ===== verification/CliMainProps.v ===== *)
(** * What a run of the program can do

    The guarantees of the components, from the command line down: for the gateway
    and for the MCP proxy as processes started from a configuration file. *)

From stdpp Require Import base tactics list strings gmap.
From Stdlib Require Import ZArith Lia Ascii.
From S2P Require Import Prelude RustStr Utf8 BTree Json CoreError CoreIds CorePath CoreResource CoreRequest.
From S2P Require Import CoreDecision CorePermit PolicyModel PolicyEngine PolicyLoad AuditModel AuditVerify.
From S2P Require Import ApprovalModel ApprovalBroker EnforceFs EnforceCmd EnforceNet Runtime RuntimeMachine.
From S2P Require Import GatewayModel GatewayTypes Gateway GatewayServer GatewayMachine GatewayHttp GatewayServe.
From S2P Require Import ConfigLoad ConfigProps CliServe CliPolicy CliCommands.
From S2P Require Import McpProtocol McpProxy McpProps Setup CliMain.
Import ConfigLoad.Config.

Open Scope Z_scope.

Section Main.
Context {JP : JsonPrint} {JT : JsonText} {CF : CliFiles} {PF : PolicyFiles} {TL : TomlLib}.
Context {GL : GlobLib} {UL : UnicodeLower} {UU : UnicodeUpper} {CS : ConfigSources} {ST : SetupTexts}.
Context {SH : Sha256} {HX : HexLib} {AJ : AuditJson} {CH : Rfc3339} {IE : IdsJsonError} {RJ : RequestJson}.
Context {RD : ResourceDebug} {GT : GatewayTexts}.
Context {W : Type} {OS : FsOs W} {OSL : FsOsLaws W} {PR : ProcOs W} {NO : NetOs W}.
Variable usize_max : Z.
Variable version : string.
Variable os_path : string -> OsPath.
Variable current_dir : OsPath.
Variable default_redactor : Redactor.
Variable suffix : Machine W -> string.
Variable redact_text : string -> string.

Abbreviation serve := (serve_command usize_max version os_path current_dir default_redactor suffix).
Abbreviation mcp := (mcp_command usize_max os_path current_dir default_redactor redact_text).

(** ** The gateway *)

(** A gateway that runs was started with the token and on the machine it was given. *)
Lemma serve_start_inv env p m run :
  serve_start version suffix env p m = Ok run ->
  start_token (Some (pr_token p)) = Ok (sn_token run) /\
  fresh_gateway (sn_start run) /\ rs_broker (gs_stores (sn_start run)) = pr_stores p /\
  rs_world (gs_stores (sn_start run)) = m /\
  (gc_allow_non_loopback (pr_gateway p) = false -> gw_is_loopback (sa_ip (sn_addr run)) = true) /\
  axum_serve (FA := machine_fs (pr_registry p) suffix) (CA := machine_cmd (pr_registry p))
    (NA := machine_net (pr_registry p)) version (sn_token run) (gc_bind (pr_gateway p)) (sn_inputs env)
    (sn_start run) = (sn_answers run, sn_state run, sn_stopped run).
Proof.
  unfold serve_start, GatewayBuilder_start, serve_builder. cbn [gb_runtime ok_or
    GatewayBuilder_with_config GatewayBuilder_with_auth_token_hex GatewayBuilder_with_runtime
    gb_token_hex gb_config fst snd].
  destruct (start _ _ _ _) as [[[addr token] s]|e] eqn:Es; [|done].
  destruct (sn_listen env addr); [done|].
  destruct (axum_serve _ _ _ _ _) as [[answers s'] stopped] eqn:Ea. intros [= <-]. simpl.
  apply start_ok in Es as (_ & Hl & Ht & _ & Hs & Hp & Htok). rewrite Hs. by split_and!.
Qed.

(** The databases are as they were. *)
Definition same_files (w w' : CliWorld) : Prop :=
  forall path, cw_audit w' path = cw_audit w path /\ cw_approvals w' path = cw_approvals w path.

Lemma put_stores_same cfg stores w :
  cw_audit w cfg.(audit).(audit_database) = Ok (br_audit stores) ->
  cw_approvals w cfg.(approval).(approval_database) = Ok (br_approvals stores) ->
  same_files w (put_stores cfg stores w).
Proof.
  intros Ha Hp path. unfold put_stores, store_at. simpl.
  split; [destruct (String.eqb_spec path cfg.(audit).(audit_database)) as [->|]
         |destruct (String.eqb_spec path cfg.(approval).(approval_database)) as [->|]]; done.
Qed.

(** No request of the session carries [token]. *)
Definition without_token (token : GatewayToken) (inputs : list ServerInput) : Prop :=
  Forall (fun i => match i with In_request _ q => ~ authorized token q | _ => True end) inputs.

(** (C10) A gateway process acts only for its operator and only on what it decided.  Whatever
    requests and signals a process started by the serve command receives, whatever fails and
    however it ends: the machine is as it was, or among the requests is an execution that
    carries the operator's token and the secret of a permit to which an earlier request of the
    session, with the token too, entitled its client, by a policy decision or by the
    consumption of an approval; the token is that of the environment variable.  And a
    session in which no request carries the token leaves machine and databases as they were. *)
Theorem serve_acts_for_operator env path mode s r s' :
  serve env path mode s = (r, s') ->
  (pg_machine s' = pg_machine s \/
   exists hex token, env_var "KAVACH_GATEWAY_TOKEN" = Env_Value hex /\
     start_token (Some hex) = Ok token /\ entitled_execution (W := Machine W) token [] (sn_inputs env)) /\
  ((forall hex token, env_var "KAVACH_GATEWAY_TOKEN" = Env_Value hex -> start_token (Some hex) = Ok token ->
      without_token token (sn_inputs env)) ->
   pg_machine s' = pg_machine s /\ same_files (pg_cli s) (pg_cli s')).
Proof.
  unfold serve_command.
  destruct (serve_prepare _ _ _ _ _ _ _ _) as [p|e] eqn:Ep; [|intros [= _ <-]; split; [by left|done]].
  apply serve_prepare_secure in Ep as (_ & _ & Henv & _ & Ha & Hap & _).
  destruct (serve_start _ _ env p (pg_machine s)) as [run|e] eqn:Es;
    [|intros [= _ <-]; split; [by left|done]].
  apply serve_start_inv in Es as (Ht & Hf & Hb & Hm & _ & Hx). intros [= _ <-]. simpl. split.
  - pose proof (session_effect version (FA := machine_fs (pr_registry p) suffix) (CA := machine_cmd (pr_registry p))
      (NA := machine_net (pr_registry p)) (sn_token run) (gc_bind (pr_gateway p)) (sn_inputs env)
      (sn_start run) [] []) as Hs.
    rewrite Hx in Hs. simpl in Hs. rewrite Hm in Hs.
    destruct Hs as [Hs|Hs]; [by apply Run_fresh|by constructor|by left|right].
    by exists (pr_token p), (sn_token run).
  - intros Hno. pose proof (session_unauthorized version (FA := machine_fs (pr_registry p) suffix)
      (CA := machine_cmd (pr_registry p)) (NA := machine_net (pr_registry p)) (sn_token run)
      (gc_bind (pr_gateway p)) (sn_inputs env) (sn_start run) (Hno _ _ Henv Ht)) as (_ & Hs & _).
    rewrite Hx in Hs. simpl in Hs. rewrite Hs, Hm, Hb. split; [done|].
    exact (put_stores_same _ _ (print _ (pg_cli s)) Ha Hap).
Qed.

(** ** The proxy *)

(** (C8) The MCP process passes on what its client sent and nothing else, and no tool-call
    request that the policies do not allow.  The mcp command ends within one round per line
    of the client; what the server it spawned was sent is a subsequence of the client's
    messages, unchanged and in order; if that is anything, the runtime was built from the
    configured policy files in the secure posture, and each message is a request to call a
    tool that this runtime evaluated as an invocation of that very tool and allowed, a
    request with another method, or a notification, which is passed on unevaluated, even
    one with the method tools/call; the machine is not touched.  The command never ends
    with success: a client that closes its end is an internal error. *)
Theorem mcp_command_vetted env path mode s :
  exists r sent s', mcp env path mode s = Some (r, sent, s') /\ is_ok r = false /\
    pg_machine s' = pg_machine s /\
    sent `sublist_of` client_messages (S (length (tp_reader (sn_client env)))) (tp_reader (sn_client env)) /\
    (sent = [] \/
     exists cfg rt, load_config usize_max path = Ok cfg /\
       secure_runtime default_redactor cfg.(policy).(files) rt /\
       Forall (vetted mcp_proxy_config rt (sn_messages env)) sent).
Proof.
  unfold mcp_command. destruct (mcp_run _ _ _ _ _ _ _ _) as [[cfg [[rt reg] stores]]|e] eqn:Em.
  2:{ eexists _, [], s. split_and!; try done; [apply sublist_nil_l|by left]. }
  apply mcp_comes_up_secure in Em as (Hcfg & Hsec & _).
  unfold mcp_thread. destruct (McpProxy_spawn _ _ _) as [proxy|e] eqn:Esp.
  2:{ eexists _, [], _. split_and!; try done; [apply sublist_nil_l|by left]. }
  assert (Hempty : px_sent proxy = []).
  { unfold McpProxy_spawn in Esp. destruct (spawn_server _ _ _); [|done]. by injection Esp as <-. }
  set (client := sn_client env).
  destruct (run_proxy_terminates mcp_proxy_config rt redact_text (sn_messages env) (tp_reader client) 0%nat
    (tp_writer client) proxy (S (length (tp_reader client)))) as [[[texts r] proxy'] Hr]; [lia|].
  rewrite Hr. destruct (run_sent _ _ _ _ _ _ _ _ _ _ _ _ Hr) as (fwd & Hf & Hsub & Hv).
  apply run_proxy_fails in Hr. rewrite Hempty in Hf. simpl in Hf. subst fwd.
  eexists _, (px_sent proxy'), _. split_and!; [done|by destruct r|done|done|].
  right. by exists cfg, rt.
Qed.

(** The standard output, which is the channel of the protocol, starts with the text of the
    command line, whether the output is for humans or JSON: the first line a client reads
    is no message. *)
Lemma mcp_banner_first env path mode s r sent s' cfg built :
  mcp_run usize_max os_path current_dir default_redactor (cw_audit (pg_cli s)) (cw_approvals (pg_cli s))
    path (mc_world (pg_machine s)) = Ok (cfg, built) ->
  mcp env path mode s = Some (r, sent, s') ->
  exists texts, con_out (cw_console (pg_cli s'))
    = con_out (cw_console (pg_cli s))
      ++ render mode (CliOutput_with_message "starting KAVACH MCP adapter on stdio") :: texts.
Proof.
  intros Hm. unfold mcp_command. rewrite Hm. destruct built as [[rt reg] stores].
  destruct (mcp_thread _ _ _ _) as [[[texts x] proxy]|]; [|done]. intros [= _ _ <-]. by eexists.
Qed.

End Main.
