(* ===== verification/CliRuns.v ===== *)
(** * Runs of the command line

    [Start]: the serve command on a configuration file, one policy file and empty
    databases, over the world of the worked examples.  [PolicyRuns]: the policy commands on
    a policy file that allows reading, a request file and a file of scenarios.  [Sessions]:
    the gateway started from a configuration file, with one policy that allows reading, a
    session of the operator, a session without the token, and a proxy whose client closes
    its end.  [Proxies]: a client of the proxy that lists the tools and calls one, with
    policies that deny and with policies that allow the call, and a client that sends the
    call as a notification; the texts of the messages are short names.  [Commands]: the mcp
    command with a policy that allows the tool. *)

From stdpp Require Import base tactics list strings gmap.
From Stdlib Require Import ZArith Lia Ascii.
From S2P Require Import Prelude RustStr Utf8 BTree Json CoreError CoreIds CorePath CoreResource.
From S2P Require Import CoreRequest CoreDecision CorePermit PolicyModel PolicyEngine PolicySpec.
From S2P Require Import PolicyProps PolicyLoad AuditModel AuditVerify ApprovalModel.
From S2P Require Import ApprovalBroker Instances ApprovalProps EnforceFs EnforceFsProps.
From S2P Require Import EnforceCmd EnforceNet EnforceNetProps EnforceExamples Runtime.
From S2P Require Import RuntimeSpec RuntimeHistory RuntimeMachine RuntimeExamples ConfigLoad.
From S2P Require Import ConfigProps GatewayModel GatewayTypes Gateway GatewayExamples.
From S2P Require Import GatewayServer CliServe CliPolicy CliCommands CliProps McpProtocol.
From S2P Require Import McpProxy McpProps Setup GatewayHttp GatewayServe CliMain.
From S2P Require Import CliMainProps.
Import ConfigLoad.Config ConfigProps.ConfigExamples.

Open Scope Z_scope.

Module Start.

#[local] Existing Instances toy_sha real_hex toy_json literal_globs world_fs brief_texts lower_id.

Definition cx_policy : TomlDocument :=
  {| td_schema_version := 1;
     td_policy := {| tph_id := "policy-1"; tph_name := None; tph_description := None;
                     tph_default_effect := D_Deny |};
     td_rules := [] |}.

#[local] Instance cx_toml : TomlLib :=
  {| toml_from_str s := if String.eqb s "policy" then Ok cx_policy else Err "unexpected text" |}.
#[local] Instance cx_files : PolicyFiles := {| file_len _ := Ok 6; read_to_string _ := Ok "policy" |}.
#[local] Instance cx_sources : ConfigSources :=
  sources [("KAVACH_GATEWAY_TOKEN", gx_token_hex); ("KAVACH_AUDIT_VERIFY_ON_STARTUP", "TRUE")].

Definition cx_serve (bind : string) (env : list (string * string)) : result CliError Serving :=
  serve_run (CS := sources ([("KAVACH_GATEWAY_TOKEN", gx_token_hex); ("KAVACH_SERVER_BIND", bind)] ++ env))
    u64_max (fun _ => ["ws"]) ["ws"] rx_redactor (fun _ => Ok []) (fun _ => Ok []) "kavach.toml" ex_world.

(** The token is required, and an address on every interface is refused. *)
Example refused_starts :
  cx_serve "0.0.0.0:7421" [] = Err (CliError_new X_InternalError
    "gateway error: binding to a non-loopback address requires allow_non_loopback: true") /\
  cx_serve "127.0.0.1:7421" [("KAVACH_REDACTION_ENABLED", "0")] = Err (CliError_new X_InvalidInput
    "validation error: redaction.enabled must be true for the gateway").
Proof. vm_compute. by split. Qed.

Definition cx_started : result CliError Serving :=
  serve_run u64_max (fun _ => ["ws"]) ["ws"] rx_redactor (fun _ => Ok []) (fun _ => Ok [])
    "kavach.toml" ex_world.

Definition cx_serving : Serving (W := World) :=
  match cx_started with
  | Ok sv => sv
  | Err _ => {| sv_addr := {| sa_ip := V4 (mkIpv4 0 0 0 0); sa_port := 0; sa_scope := 0 |};
                sv_token := GatewayToken_from_hash ""; sv_registry := rx_registry;
                sv_state := {| gs_runtime := rx_rt;
                               gs_stores := {| rs_broker := fresh_broker; rs_world := ex_world |};
                               gs_permits := IssuedPermitRegistry_new; gs_tokens := ∅;
                               gs_limiter := RateLimiter_new 0 0 |} |}
  end.

Lemma cx_started_eq :
  serve_run u64_max (fun _ => ["ws"]) ["ws"] rx_redactor (fun _ => Ok []) (fun _ => Ok [])
    "kavach.toml" ex_world = Ok cx_serving.
Proof. vm_compute. reflexivity. Defined.

Lemma serve_comes_up_secure_witness :
  gw_is_loopback (sa_ip (sv_addr cx_serving)) = true /\
  rc_audit_fail_closed (rt_config (gs_runtime (sv_state cx_serving))) = true.
Proof.
  destruct (serve_comes_up_secure u64_max (fun _ => ["ws"]) ["ws"] rx_redactor (fun _ => Ok [])
    (fun _ => Ok []) "kavach.toml" ex_world cx_serving cx_started_eq)
    as (cfg & _ & _ & Hl & _ & _ & Hr & _).
  split; [exact Hl|exact (sr_fail_closed _ _ _ Hr)].
Defined.

End Start.

Module PolicyRuns.

#[local] Existing Instances toy_sha toy_hex toy_json toy_time toy_ids_error toy_request_json.
#[local] Existing Instances literal_globs literal_globs_laws ascii_lower.

Definition kx_policy : TomlDocument :=
  {| td_schema_version := 1;
     td_policy := {| tph_id := "policy-1"; tph_name := None; tph_description := None;
                     tph_default_effect := D_RequireApproval |};
     td_rules :=
       [{| trl_id := "allow-read"; trl_description := None; trl_effect := E_Allow;
           trl_conditions := Some
             {| trc_operations := ["file_read"]; trc_resource_kinds := []; trc_agent_ids := [];
                trc_min_trust_level := None; trc_required_capabilities := [];
                trc_intent_prefix := None; trc_path_globs := None; trc_executables := None;
                trc_network_hosts := None; trc_network_schemes := None;
                trc_secret_identifiers := None; trc_tool_identifiers := None;
                trc_network_ports := None; trc_argument_rules := None |} |}] |}.

(** A file holds its own name. *)
#[local] Instance kx_toml : TomlLib :=
  {| toml_from_str s := if String.eqb s "policy.toml" then Ok kx_policy else Err "unexpected text" |}.
#[local] Instance kx_files : PolicyFiles := {| file_len p := Ok (len p); read_to_string p := Ok p |}.
#[local] Instance kx_sources : ConfigSources := sources [].
#[local] Instance kx_print : JsonPrint :=
  {| value_display _ := "value"; json_to_string_pretty _ := Ok "text" |}.
#[local] Instance kx_json : JsonText :=
  {| json_from_str _ := Err "no text"; json_to_string v := Ok (match v with V_String s => s | _ => "line" end);
     conversion_error _ _ := "conversion" |}.

Definition kx_echo (args : list string) : ToolRequest :=
  ex_request CommandExecute (R_Command (mkCommandResource "echo" args)).

Definition kx_scenario (name expected file : string) : TestScenario :=
  {| ts_name := name; ts_expected := expected; ts_request := None; ts_request_file := Some file |}.

#[local] Instance kx_cli : CliFiles :=
  {| is_file p := negb (String.eqb p "missing.json");
     is_dir _ := true;
     request_from_str s :=
       if String.eqb s "read.json" || String.eqb s "tests/read.json" then Ok ex_read
       else if String.eqb s "tests/echo.json" then Ok (kx_echo ["hello world"; "it's"])
       else if String.eqb s "redirect.json" then Ok (kx_echo ["x"; ">"; "file"])
       else Err "unexpected text";
     scenarios_from_str s :=
       if String.eqb s "tests/good.json" then
         Ok [kx_scenario "reading" "Allow" "read.json"; kx_scenario "echo" "require-approval" "echo.json"]
       else Ok [kx_scenario "reading" "deny" "read.json"; kx_scenario "echo" "RequireApproval" "echo.json"];
     decision_to_string_pretty _ := Ok "decision" |}.

Definition kx_env (feed_write : option (string * string)) : CliEnv :=
  {| cl_now _ := 10; cl_no_color := true; cl_is_tty := true; cl_feed_open := None;
     cl_feed_write := feed_write |}.

Definition kx_world : CliWorld :=
  {| cw_console := {| con_out := []; con_feed := [] |};
     cw_audit _ := Ok []; cw_approvals _ := Ok [] |}.

Definition kx_main (feed_write : option (string * string)) (c : Commands) :=
  cli_main (fun _ => None) u64_max "0.1.0" (kx_env feed_write) (ap_env "n" 10) Human c kx_world.

Definition kx_code (o : Z * string * CliWorld) : Z := o.1.1.

(** The codes of checks: allowed, held for approval, denied, no request file, a request
    that does not parse, and a feed log that cannot be written although the request is
    allowed. *)
Example check_codes :
  map (fun '(request, fault) =>
         kx_code (kx_main fault (C_PolicyCheck "policy.toml" request (Some "feed.jsonl"))))
    [("read.json", None); ("tests/echo.json", None); ("redirect.json", None); ("missing.json", None);
     ("other.json", None); ("read.json", Some ("disk full", "{"))]
  = [0; 11; 10; 20; 20; 30].
Proof. vm_compute. reflexivity. Qed.

(** Requests of scenarios are found beside the file of scenarios. *)
Example test_codes :
  map (fun scenarios => kx_code (kx_main None (C_PolicyTest "policy.toml" scenarios)))
    ["tests/good.json"; "tests/wrong.json"; "missing.json"] = [0; 23; 20].
Proof. vm_compute. reflexivity. Qed.

(** The directory of a file, and labels that name an effect. *)
Example parent_dirs :
  map parent_dir ["a/b.json"; "/a.json"; "a.json"; "./a.json"; "a//./b.json"; "/x/y.json"]
  = ["a"; "/"; ""; "."; "a"; "/x"].
Proof. vm_compute. reflexivity. Qed.

Example labels :
  map normalize_effect_label ["Deny"; "RequireApproval"; "require-approval"; "  ALLOW "; "Require Approval"]
  = ["deny"; "require_approval"; "require_approval"; "allow"; "require_approval"].
Proof. vm_compute. reflexivity. Qed.

(** The summary of a command with special characters. *)
Example summary : cli_resource_summary (kx_echo ["x"; ">"; "it's"]) = "command echo x '>' 'it'\''s'".
Proof. vm_compute. reflexivity. Qed.

Definition kx_checked := kx_main None (C_PolicyCheck "policy.toml" "read.json" None).

Lemma policy_check_exact_witness :
  decided (kx_env None) "policy.toml" "read.json" None (cw_console kx_world) Allow.
Proof.
  apply (policy_check_exact (fun _ => None) u64_max "0.1.0" (kx_env None) (ap_env "n" 10) Human
           "policy.toml" "read.json" None kx_world kx_checked.1.1 kx_checked.1.2 kx_checked.2);
    vm_compute; reflexivity.
Defined.

Definition kx_tested := kx_main None (C_PolicyTest "policy.toml" "tests/good.json").

Lemma policy_test_exact_witness :
  exists policy scenarios, test_input "policy.toml" "tests/good.json" policy scenarios /\
    Forall (passes policy (parent_dir "tests/good.json")) scenarios.
Proof.
  apply (policy_test_exact (fun _ => None) u64_max "0.1.0" (kx_env None) (ap_env "n" 10) Human
           "policy.toml" "tests/good.json" kx_world kx_tested.1.1 kx_tested.1.2 kx_tested.2);
    vm_compute; reflexivity.
Defined.

(** A database with one pending approval, which the command denies. *)
Definition kx_pending : BrokerState := ap_state [(ap_env "1" 10, Call_request ap_request (Some 60))].

Definition kx_waiting : CliWorld :=
  {| cw_console := {| con_out := []; con_feed := [] |};
     cw_audit _ := Ok (br_audit kx_pending); cw_approvals _ := Ok (br_approvals kx_pending) |}.

Definition kx_denied :=
  cli_main (fun _ => None) u64_max "0.1.0" (kx_env None) (ap_env "2" 20) Human
    (C_ApprovalDeny "approval-1" None) kx_waiting.

Lemma only_deny_writes_witness :
  kx_denied.1.1 = 0 /\ exists id actor stores stores',
    deny None (ap_env "2" 20) id actor None stores = (Ok tt, stores').
Proof.
  assert (H0 : kx_denied.1.1 = 0) by (vm_compute; reflexivity). split; [exact H0|].
  destruct (only_deny_writes (fun _ => None) u64_max "0.1.0" (kx_env None) (ap_env "2" 20) Human
    (C_ApprovalDeny "approval-1" None) kx_waiting kx_denied.1.1 kx_denied.1.2 kx_denied.2)
    as [_ [Hs|(x1 & x2 & id & actor & a & b & stores & r & stores' & _ & _ & _ & _ & Hd & _ & _ & Hr)]].
  - reflexivity.
  - exfalso. destruct (Hs "./data/approvals.db") as [_ Hx]. vm_compute in Hx. discriminate Hx.
  - exists id, actor, stores, stores'. rewrite Hd. apply Hr in H0 as ->. reflexivity.
Defined.

End PolicyRuns.

Module Sessions.

#[local] Existing Instances toy_sha real_hex toy_json toy_time toy_ids_error toy_request_json literal_globs.
#[local] Existing Instances world_fs world_fs_laws world_proc world_net brief_debug brief_texts lower_id.

Definition zx_policy : TomlDocument :=
  {| td_schema_version := 1;
     td_policy := {| tph_id := "policy-1"; tph_name := None; tph_description := None;
                     tph_default_effect := D_Deny |};
     td_rules :=
       [{| trl_id := "allow-read"; trl_description := None; trl_effect := E_Allow;
           trl_conditions := Some
             {| trc_operations := ["file_read"]; trc_resource_kinds := []; trc_agent_ids := [];
                trc_min_trust_level := None; trc_required_capabilities := [];
                trc_intent_prefix := None; trc_path_globs := None; trc_executables := None;
                trc_network_hosts := None; trc_network_schemes := None;
                trc_secret_identifiers := None; trc_tool_identifiers := None;
                trc_network_ports := None; trc_argument_rules := None |} |}] |}.

#[local] Instance zx_toml : TomlLib :=
  {| toml_from_str s := if String.eqb s "policy" then Ok zx_policy else Err "unexpected text" |}.
#[local] Instance zx_files : PolicyFiles := {| file_len _ := Ok 6; read_to_string _ := Ok "policy" |}.
#[local] Instance zx_sources : ConfigSources := sources [("KAVACH_GATEWAY_TOKEN", gx_token_hex)].
#[local] Instance zx_print : JsonPrint :=
  {| value_display _ := "value"; json_to_string_pretty _ := Ok "text" |}.
#[local] Instance zx_json : JsonText :=
  {| json_from_str _ := Err "no text"; json_to_string _ := Ok "text"; conversion_error _ _ := "conversion" |}.

Definition zx_empty : Program World :=
  {| pg_cli := {| cw_console := {| con_out := []; con_feed := [] |};
                  cw_audit _ := Ok []; cw_approvals _ := Ok [] |};
     pg_machine := rx_machine;
     pg_setup := {| ss_files := ∅; ss_out := []; ss_spawned := [] |} |}.

(** A process with these inputs, and a client that says nothing; there is no MCP server. *)
Definition zx_env (inputs : list ServerInput) : ServeEnv :=
  {| sn_tokio := None; sn_listen _ := None; sn_inputs := inputs;
     sn_spawn _ _ := Err "No such file or directory";
     sn_client := McpTransport_new [] []; sn_messages _ := {| me_rt := rx_call_env "m" 10; me_now := 10; me_uuid := "u" |} |}.

(** An evaluation, its execution, and an interrupt; [authorization] is sent along. *)
Definition zx_session (authorization : option string) : list ServerInput :=
  [In_request (gx_env "1" 10) (hx_request authorization (Ro_api (Api_evaluate rx_read)));
   In_request (gx_env "2" 20) (hx_request authorization (Ro_api (Api_execute gx_body)));
   In_ctrl_c].

Definition zx_bearer : option string := Some ("Bearer " +:+ gx_token_hex).

Abbreviation zx_serve :=
  (serve_command u64_max "0.1.0" (fun _ => ["ws"]) ["ws"] rx_redactor rx_suffix).

Definition zx_run (authorization : option string) : result CliError bool * Program World :=
  zx_serve (zx_env (zx_session authorization)) "kavach.toml" Human zx_empty.

(** The operator's session reads a file; both requests and the start are on record. *)
Example operator_session :
  (zx_run zx_bearer).1 = Ok true /\ length (mc_fs (pg_machine (zx_run zx_bearer).2)) = 1%nat
  /\ con_out (cw_console (pg_cli (zx_run zx_bearer).2))
     = ["starting KAVACH gateway on 127.0.0.1:9090" +:+ NEWLINE].
Proof. vm_compute. by split_and!. Qed.

Lemma serve_acts_for_operator_witness :
  entitled_execution (W := Machine World) gx_token [] (sn_inputs (zx_env (zx_session zx_bearer)))
  /\ pg_machine (zx_run None).2 = pg_machine zx_empty.
Proof.
  split.
  - destruct (serve_acts_for_operator u64_max "0.1.0" (fun _ => ["ws"]) ["ws"] rx_redactor rx_suffix
      (zx_env (zx_session zx_bearer)) "kavach.toml" Human zx_empty (zx_run zx_bearer).1 (zx_run zx_bearer).2)
      as [[Hm|(hex & token & He & Ht & Hx)] _].
    + unfold zx_run. by destruct (zx_serve _ _ _ _).
    + apply (f_equal (fun m => length (mc_fs m))) in Hm. vm_compute in Hm. discriminate.
    + vm_compute in He. injection He as <-. vm_compute in Ht. injection Ht as <-. exact Hx.
  - destruct (serve_acts_for_operator u64_max "0.1.0" (fun _ => ["ws"]) ["ws"] rx_redactor rx_suffix
      (zx_env (zx_session None)) "kavach.toml" Human zx_empty (zx_run None).1 (zx_run None).2)
      as [_ Hn].
    + unfold zx_run. by destruct (zx_serve _ _ _ _).
    + apply Hn. intros hex token _ _. repeat constructor; intros Ha; vm_compute in Ha; discriminate.
Defined.

(** Without a server to spawn, the mcp command ends with an internal error. *)
Example no_server :
  option_map (fun x => x.1.1)
    (mcp_command u64_max (fun _ => ["ws"]) ["ws"] rx_redactor (fun s => s) (zx_env []) "kavach.toml" Human zx_empty)
  = Some (Err (CliError_new X_InternalError "failed to spawn MCP server: No such file or directory")).
Proof. vm_compute. reflexivity. Qed.

End Sessions.

Module Proxies.

#[local] Existing Instances toy_sha toy_hex toy_json toy_time toy_ids_error toy_request_json.
#[local] Existing Instances literal_globs brief_debug.

Definition mx_object (method : string) (id : list (string * Value)) (params : Value) : Value :=
  V_Object ([("jsonrpc", V_String "2.0"); ("method", V_String method); ("params", params)] ++ id).

Definition mx_call_params : Value := V_Object [("name", V_String "search"); ("arguments", V_Null)].

(** The messages behind the texts. *)
Definition mx_table : list (string * Value) :=
  [("list", mx_object "tools/list" [("id", V_Int 1)] V_Null);
   ("tools", V_Object [("jsonrpc", V_String "2.0"); ("id", V_Int 1);
                       ("result", V_Object [("tools", V_Array [V_Object [("name", V_String "search")]])])]);
   ("call", mx_object "tools/call" [("id", V_Int 2)] mx_call_params);
   ("note", mx_object "tools/call" [] mx_call_params);
   ("found", V_Object [("jsonrpc", V_String "2.0"); ("id", V_Int 2);
                       ("result", V_Object [("password", V_String "hunter2")])])].

#[local] Instance mx_json : JsonText :=
  {| json_from_str s := match List.find (fun kv => String.eqb kv.1 s) mx_table with
                        | Some kv => Ok kv.2 | None => Err "syntax" end;
     json_to_string v := Ok (match value_get "error" v with
                             | Some (V_Object (("code", V_Int n) :: _)) =>
                                 if n =? KAVACH_DENIED then "denied" else "error"
                             | _ => match value_get "result" v with
                                    | Some (V_Object [("password", V_String p)]) => p
                                    | _ => "message"
                                    end
                             end);
     conversion_error _ _ := "conversion" |}.

Definition mx_rule (effect : Effect) : Rule :=
  {| rule_id := Id_raw "tools"; rule_description := ""; rule_effect := effect;
     rule_conditions :=
       {| operations := ["tool_invoke"]; resource_kinds := []; agent_ids := []; min_trust_level := None;
          required_capabilities := []; intent_prefix := None; path_globs := None;
          executables := None; network_hosts := None; network_schemes := None;
          secret_identifiers := None; tool_identifiers := Some ["search"]; network_ports := None;
          argument_rules := None |} |}.

Definition mx_rt (effect : Effect) : KavachRuntime :=
  {| rt_engine := ex_engine [ex_policy [mx_rule effect]];
     rt_config := RuntimeConfig_default; rt_approval_config := ApprovalStoreConfig_default;
     rt_redactor := None |}.

Definition mx_start (server : list string) : ProxyState :=
  {| px_tools := ∅; px_initialized := false; px_server := map Ok server; px_writes := [];
     px_sent := []; px_stores := fresh_broker |}.

Definition mx_env (n : nat) : MsgEnv :=
  {| me_rt := rx_call_env (if Nat.eqb n 0 then "a" else "b") 10; me_now := 10; me_uuid := "u" |}.

Definition mx_run (effect : Effect) (client server : list string) :=
  run_proxy McpProxyConfig_default (mx_rt effect) (fun s => s) (S (length client)) mx_env 0%nat
    [] (map Ok client) (mx_start server).

(** The texts sent back and the number of messages handed to the server. *)
Definition mx_seen (o : option (list string * result string unit * ProxyState)) :=
  option_map (fun x => (fst (fst x), length (px_sent (snd x)))) o.

Example denied_call : mx_seen (mx_run E_Deny ["list"; "call"] ["tools"; "found"]) = Some (["message"; "denied"], 1%nat).
Proof. vm_compute. reflexivity. Qed.

Example allowed_call_runs :
  mx_seen (mx_run E_Allow ["list"; "call"] ["tools"; "found"]) = Some (["message"; SENSITIVE_FIELD], 2%nat).
Proof. vm_compute. reflexivity. Qed.

(** The same call without an identifier reaches the server although it is denied. *)
Example denied_notification : mx_seen (mx_run E_Deny ["note"] []) = Some ([], 1%nat).
Proof. vm_compute. reflexivity. Qed.

(** One line that does not parse swallows all that follow. *)
Example stray_line : mx_seen (mx_run E_Allow ["oops"; "list"; "call"] ["tools"; "found"]) = Some ([], 0%nat).
Proof. vm_compute. reflexivity. Qed.

Definition mx_note : JsonRpcNotification :=
  {| nt_jsonrpc := "2.0"; nt_method := "tools/call"; nt_params := Some mx_call_params |}.

Lemma notification_not_evaluated_witness :
  exists s', handle_message McpProxyConfig_default (mx_rt E_Deny) (fun s => s) (mx_env 0)
               (Msg_Notification mx_note) (mx_start []) = (Ok None, s') /\
    px_sent s' = [Msg_Notification mx_note] /\ px_stores s' = fresh_broker.
Proof.
  apply (notification_not_evaluated McpProxyConfig_default (mx_rt E_Deny) (fun s => s) (mx_env 0)
    mx_note (mx_start []) "message"); vm_compute; reflexivity.
Defined.

End Proxies.

(** The mcp command with a configuration file, one policy that allows the tool, and a client
    that lists the tools, calls one and sends the call again as a notification. *)
Module Commands.

#[local] Existing Instances toy_sha real_hex toy_json toy_time toy_ids_error toy_request_json.
#[local] Existing Instances literal_globs world_fs world_fs_laws world_proc world_net.
#[local] Existing Instances brief_debug brief_texts lower_id Proxies.mx_json.

Definition vx_policy : TomlDocument :=
  {| td_schema_version := 1;
     td_policy := {| tph_id := "policy-1"; tph_name := None; tph_description := None;
                     tph_default_effect := D_Deny |};
     td_rules :=
       [{| trl_id := "allow-search"; trl_description := None; trl_effect := E_Allow;
           trl_conditions := Some
             {| trc_operations := ["tool_invoke"]; trc_resource_kinds := []; trc_agent_ids := [];
                trc_min_trust_level := None; trc_required_capabilities := [];
                trc_intent_prefix := None; trc_path_globs := None; trc_executables := None;
                trc_network_hosts := None; trc_network_schemes := None;
                trc_secret_identifiers := None; trc_tool_identifiers := Some ["search"];
                trc_network_ports := None; trc_argument_rules := None |} |}] |}.

#[local] Instance vx_toml : TomlLib :=
  {| toml_from_str s := if String.eqb s "policy" then Ok vx_policy else Err "unexpected text" |}.
#[local] Instance vx_files : PolicyFiles := {| file_len _ := Ok 6; read_to_string _ := Ok "policy" |}.
#[local] Instance vx_sources : ConfigSources := sources [("KAVACH_GATEWAY_TOKEN", gx_token_hex)].
#[local] Instance vx_print : JsonPrint :=
  {| value_display _ := "value"; json_to_string_pretty _ := Ok "text" |}.

(** The client says these lines; the server answers with those. *)
Definition vx_env (client server : list string) : ServeEnv :=
  {| sn_tokio := None; sn_listen _ := None; sn_inputs := [];
     sn_spawn _ _ := Ok {| ch_stdin := Some []; ch_stdout := Some (map Ok server) |};
     sn_client := McpTransport_new (map Ok client) [];
     sn_messages n := {| me_rt := rx_call_env (if Nat.eqb n 0 then "a" else "b") 10;
                         me_now := 10; me_uuid := "u" |} |}.

Definition vx_lines : ServeEnv := vx_env ["list"; "call"; "note"] ["tools"; "found"].

Definition vx_run :=
  mcp_command u64_max (fun _ => ["ws"]) ["ws"] rx_redactor (fun s => s) vx_lines "kavach.toml" Human
    Sessions.zx_empty.

Definition vx_method (msg : JsonRpcMessage) : string :=
  match msg with Msg_Request req => rq_method req | Msg_Notification n => nt_method n | _ => "" end.

Definition vx_sent : list JsonRpcMessage :=
  match vx_run with Some (_, sent, _) => sent | None => [] end.

Definition vx_call : JsonRpcRequest :=
  {| rq_jsonrpc := "2.0"; rq_id := V_Int 2; rq_method := "tools/call";
     rq_params := Some Proxies.mx_call_params |}.

(** All three lines reach the server, and the call was allowed by a runtime with the
    policy of the configuration. *)
Lemma mcp_command_vetted_witness :
  map vx_method vx_sent = ["tools/list"; "tools/call"; "tools/call"] /\
  exists rt k, secure_runtime rx_redactor ["./config/default-policy.toml"] rt /\
    allowed_call mcp_proxy_config rt (sn_messages vx_lines k) vx_call.
Proof.
  split; [vm_compute; reflexivity|].
  destruct (mcp_command_vetted u64_max (fun _ => ["ws"]) ["ws"] rx_redactor (fun s => s) vx_lines
              "kavach.toml" Human Sessions.zx_empty)
    as (r & sent & s' & Hrun & _ & _ & _ & [Hnil|(cfg & rt & Hcfg & Hrt & Hall)]).
  - exfalso. assert (He : vx_sent = sent) by (unfold vx_sent, vx_run; by rewrite Hrun).
    rewrite Hnil in He. vm_compute in He. discriminate He.
  - assert (He : vx_sent = sent) by (unfold vx_sent, vx_run; by rewrite Hrun). subst sent.
    assert (Hin : vx_sent !! 1%nat = Some (Msg_Request vx_call)) by (vm_compute; reflexivity).
    apply (Forall_lookup_1 _ _ _ _ Hall) in Hin.
    inversion Hin as [k req _ Ha|req Hne|]; [|by destruct Hne].
    vm_compute in Hcfg. injection Hcfg as <-. exists rt, k. split; [exact Hrt|exact Ha].
Defined.

End Commands.
