(* ===== verification/TestPolicy.v ===== *)
(** * The tests of kavach-policy, on the model

    The unit tests of crates/kavach-policy/src/engine.rs ([EngineTests]) and io.rs
    ([IoTests]), translated one by one: a test is a computation that panics or ends, and
    [engine_tests] and [io_tests] evaluate them on the definitions of [PolicyEngine] and
    [PolicyLoad], with the globs of [Instances]. *)

From stdpp Require Import base tactics option list strings.
From Stdlib Require Import ZArith Lia Ascii.
From S2P Require Import Prelude RustStr BTree CoreError CoreIds CorePath CoreResource CoreRequest.
From S2P Require Import CoreShell CoreDecision PolicyModel PolicyEngine PolicyLoad Instances PolicyProps.

Open Scope Z_scope.

#[local] Existing Instances segment_globs ascii_lower.

(** ** Building blocks *)

(** The fields of a literal [RuleConditions { .., ..Default::default() }]. *)
Definition ops v '(Build_RuleConditions _ k a t c i p e h s x u n r) := Build_RuleConditions v k a t c i p e h s x u n r.
Definition kinds v '(Build_RuleConditions o _ a t c i p e h s x u n r) := Build_RuleConditions o v a t c i p e h s x u n r.
Definition agents v '(Build_RuleConditions o k _ t c i p e h s x u n r) := Build_RuleConditions o k v t c i p e h s x u n r.
Definition trust v '(Build_RuleConditions o k a _ c i p e h s x u n r) := Build_RuleConditions o k a (Some v) c i p e h s x u n r.
Definition caps v '(Build_RuleConditions o k a t _ i p e h s x u n r) := Build_RuleConditions o k a t v i p e h s x u n r.
Definition intent v '(Build_RuleConditions o k a t c _ p e h s x u n r) := Build_RuleConditions o k a t c (Some v) p e h s x u n r.
Definition globs v '(Build_RuleConditions o k a t c i _ e h s x u n r) := Build_RuleConditions o k a t c i (Some v) e h s x u n r.
Definition exes v '(Build_RuleConditions o k a t c i p _ h s x u n r) := Build_RuleConditions o k a t c i p (Some v) h s x u n r.
Definition hosts v '(Build_RuleConditions o k a t c i p e _ s x u n r) := Build_RuleConditions o k a t c i p e (Some v) s x u n r.
Definition schemes v '(Build_RuleConditions o k a t c i p e h _ x u n r) := Build_RuleConditions o k a t c i p e h (Some v) x u n r.
Definition secrets v '(Build_RuleConditions o k a t c i p e h s _ u n r) := Build_RuleConditions o k a t c i p e h s (Some v) u n r.
Definition tools v '(Build_RuleConditions o k a t c i p e h s x _ n r) := Build_RuleConditions o k a t c i p e h s x (Some v) n r.
Definition ports v '(Build_RuleConditions o k a t c i p e h s x u _ r) := Build_RuleConditions o k a t c i p e h s x u (Some v) r.
Definition args d m '(Build_RuleConditions o k a t c i p e h s x u n _) :=
  Build_RuleConditions o k a t c i p e h s x u n (Some {| deny_if_matches := d; require_match := m |}).

(** A literal [Rule] with the identifier [RuleId::new(id).unwrap()]. *)
Definition rule (name : string) (effect : Effect) (fields : list (RuleConditions -> RuleConditions)) : option Rule :=
  rid ← unwrap (Id_new name);
  Some {| rule_id := rid; rule_description := ""; rule_effect := effect;
          rule_conditions := foldl (fun c f => f c) RuleConditions_default fields |}.

Module EngineTests.

Definition agent_builder (name : string) : option AgentSubjectBuilder :=
  a ← unwrap (Id_new name); s ← unwrap (Id_new "sess-1"); Some (AgentSubjectBuilder_new a s).

Definition make_subject : option AgentSubject :=
  b ← agent_builder "agent-1"; Some (AgentSubjectBuilder_build (AgentSubjectBuilder_trust_level b Standard)).

Definition make_subject_with_caps (cs : list string) : option AgentSubject :=
  b ← agent_builder "agent-1";
  cs ← mapM (fun c => unwrap (Capability_new c)) cs;
  Some (AgentSubjectBuilder_build
    (foldl AgentSubjectBuilder_capability (AgentSubjectBuilder_trust_level b Standard) cs)).

Definition make_context : option RequestContext := unwrap (RequestContext_new 0 None None None None false).
Definition make_context_with_intent (text : string) : option RequestContext :=
  unwrap (RequestContext_new 0 None (Some text) None None false).

Definition make_request_with (subject : option AgentSubject) (operation : Operation)
    (resource : option Resource) (context : option RequestContext) : option ToolRequest :=
  id ← unwrap (Id_new "req-1"); s ← subject; r ← resource; c ← context;
  Some (ToolRequest_new id s operation r c).

Definition file (path : string) : option Resource := unwrap (Resource_file path).
Definition directory (path : string) : option Resource := unwrap (Resource_directory path).
Definition command (exe : string) (arguments : list string) : option Resource :=
  R_Command <$> unwrap (CommandResource_new exe arguments).

Definition make_request (subject : option AgentSubject) : option ToolRequest :=
  make_request_with subject (FileRead None) (file "/workspace/foo.txt") make_context.

Definition policy_with_id (name : string) (default_effect : DefaultEffect) (rules : list (option Rule))
  : option Policy :=
  pid ← unwrap (Id_new name); rules ← mapM id rules;
  Some {| policy_id := pid; policy_name := "test"; policy_description := "";
          policy_default_effect := default_effect; policy_rules := rules |}.

Definition policy (default_effect : DefaultEffect) (rules : list (option Rule)) : option Policy :=
  policy_with_id "pol-1" default_effect rules.

Definition make_network_request_with_port (scheme host : string) (port : option Z) : option ToolRequest :=
  s ← unwrap (NetworkScheme_new scheme);
  h ← unwrap (NetworkHost_new host);
  make_request_with make_subject NetworkRequest
    (R_NetworkEndpoint <$> unwrap (NetworkResource_new s h (NetworkPort_new <$> port) "/")) make_context.

Definition make_network_request (scheme host : string) : option ToolRequest :=
  make_network_request_with_port scheme host None.

Definition cmd_request_with (exe : string) (arguments : list string) (context : option RequestContext)
  : option ToolRequest :=
  make_request_with make_subject CommandExecute (command exe arguments) context.

Definition reading (path : string) : option ToolRequest :=
  make_request_with make_subject (FileRead None) (file path) make_context.
Definition writing (path : string) : option ToolRequest :=
  make_request_with make_subject FileWrite (file path) make_context.

Definition engine_new (policies : list (option Policy))
  : option (result PolicyValidationError PolicyEngine) := PolicyEngine_new <$> mapM id policies.
(** [PolicyEngine::new(policies).unwrap()]. *)
Definition engine (policies : list (option Policy)) : option PolicyEngine := engine_new policies ≫= unwrap.
Definition evaluate (e : PolicyEngine) (request : option ToolRequest) : option AuthorizationDecision :=
  PolicyEngine_evaluate e 0 <$> request.
Definition has_effect (e : PolicyEngine) (request : option ToolRequest) (effect : DecisionEffect) : test :=
  d ← evaluate e request; assert_eq (ad_effect d) effect.
Definition has_ids (d : AuthorizationDecision) (ids : list string) : test :=
  ids ← mapM (fun i => unwrap (Id_new i)) ids; assert_eq (ad_matched_rule_ids d) ids.
Definition contains_id (d : AuthorizationDecision) (i : string) (expected : bool) : test :=
  rid ← unwrap (Id_new i); assert_eq (bool_decide (rid ∈ ad_matched_rule_ids d)) expected.

(** *** Precedence: the identifiers of the winning rules *)

Definition deny_decision_contains_deny_ids_only : test :=
  e ← engine [policy D_Deny
    [rule "allow-rule" E_Allow [ops ["file_read"]];
     rule "approve-rule" E_RequireApproval [ops ["file_read"]];
     rule "deny-rule" E_Deny [ops ["file_read"]]]];
  d ← evaluate e (make_request make_subject);
  assert_eq (ad_effect d) Deny;; has_ids d ["deny-rule"].

Definition approval_decision_contains_approval_ids_only : test :=
  e ← engine [policy D_Deny
    [rule "allow-rule" E_Allow [ops ["file_read"]];
     rule "approve-rule" E_RequireApproval [ops ["file_read"]]]];
  d ← evaluate e (make_request make_subject);
  assert_eq (ad_effect d) RequireApproval;; has_ids d ["approve-rule"].

Definition allow_decision_contains_allow_ids_only : test :=
  e ← engine [policy D_Deny
    [rule "allow-rule-a" E_Allow [ops ["file_read"]];
     rule "allow-rule-b" E_Allow [kinds [RK_File]]]];
  d ← evaluate e (make_request make_subject);
  assert_eq (ad_effect d) Allow;;
  expected ← mapM (fun i => unwrap (Id_new i)) ["allow-rule-a"; "allow-rule-b"];
  assert_eq (ad_matched_rule_ids d) (vec_sort expected).

Definition default_deny_has_empty_matched_ids : test :=
  e ← engine [policy D_Deny [rule "write-only" E_Allow [ops ["file_write"]]]];
  d ← evaluate e (make_request make_subject);
  assert_eq (ad_effect d) Deny;;
  assert_eq (ad_reason d) KavachDenyDefault;;
  assert (list_is_empty (ad_matched_rule_ids d)).

Definition default_approval_has_empty_matched_ids : test :=
  e ← engine [policy D_RequireApproval []];
  d ← evaluate e (make_request make_subject);
  assert_eq (ad_effect d) RequireApproval;;
  assert_eq (ad_reason d) KavachApprovalRequired;;
  assert (list_is_empty (ad_matched_rule_ids d)).

(** [windows(2).all(|w| w[0] <= w[1])]. *)
Fixpoint ids_sorted (l : list RuleId) : bool :=
  match l with
  | a :: (b :: _) as rest => bool_decide (vec_sort [a; b] = [a; b]) && ids_sorted rest
  | _ => true
  end.

Definition winning_ids_are_sorted : test :=
  e ← engine [policy D_Deny
    [rule "z-deny" E_Deny [ops ["file_read"]];
     rule "a-deny" E_Deny [kinds [RK_File]];
     rule "m-deny" E_Deny [agents ["agent-1"]]]];
  d ← evaluate e (make_request make_subject);
  assert_eq (length (ad_matched_rule_ids d)) 3%nat;; assert (ids_sorted (ad_matched_rule_ids d)).

(** *** Duplicate identifiers and empty conditions *)

Definition duplicate_ids_within_one_policy_are_rejected : test :=
  r ← engine_new [policy D_Deny
    [rule "dup" E_Allow [ops ["file_read"]]; rule "dup" E_Deny [ops ["file_write"]]]];
  match r with Err (DuplicateRuleId i) => assert_eq (id_str i) "dup" | _ => None end.

Definition duplicate_ids_across_policies_are_rejected : test :=
  r ← engine_new
    [policy_with_id "pol-1" D_Deny [rule "shared" E_Allow [ops ["file_read"]]];
     policy_with_id "pol-2" D_Deny [rule "shared" E_Deny [ops ["file_write"]]]];
  match r with Err (DuplicateRuleId i) => assert_eq (id_str i) "shared" | _ => None end.

Definition empty_conditions_are_rejected : test :=
  r ← engine_new [policy D_Deny [rule "catch-all" E_Allow []]];
  match r with Err (EmptyConditions i) => assert_eq (id_str i) "catch-all" | _ => None end.

(** *** Precedence *)

Definition deny_precedence_over_allow : test :=
  e ← engine [policy D_Deny
    [rule "allow-all" E_Allow [ops ["file_read"]]; rule "deny-all" E_Deny [ops ["file_read"]]]];
  d ← evaluate e (make_request make_subject);
  assert_eq (ad_effect d) Deny;; contains_id d "allow-all" false;; contains_id d "deny-all" true.

Definition deny_precedence_over_approval : test :=
  e ← engine [policy D_Deny
    [rule "approve-all" E_RequireApproval [ops ["file_read"]]; rule "deny-all" E_Deny [ops ["file_read"]]]];
  has_effect e (make_request make_subject) Deny.

Definition approval_precedence_over_allow : test :=
  e ← engine [policy D_Deny
    [rule "allow-all" E_Allow [ops ["file_read"]]; rule "approve-all" E_RequireApproval [ops ["file_read"]]]];
  has_effect e (make_request make_subject) RequireApproval.

Definition allow_when_only_allow_rules_match : test :=
  e ← engine [policy D_Deny [rule "allow-read" E_Allow [ops ["file_read"]]]];
  d ← evaluate e (make_request make_subject);
  assert_eq (ad_effect d) Allow;; assert_eq (ad_reason d) KavachAllowPolicyMatch.

Definition no_match_falls_to_policy_default_deny : test :=
  e ← engine [policy D_Deny [rule "only-write" E_Allow [ops ["file_write"]]]];
  d ← evaluate e (make_request make_subject);
  assert_eq (ad_effect d) Deny;;
  assert_eq (ad_reason d) KavachDenyDefault;;
  assert (list_is_empty (ad_matched_rule_ids d)).

Definition invalid_request_fails_closed : test :=
  let ctx := {| ctx_timestamp := 0; ctx_working_directory := None;
                ctx_declared_intent := Some ("read" +:+ byte_string 0 +:+ "source");
                ctx_parent_request_id := None; ctx_metadata := RequestMetadata_new; ctx_dry_run := false |} in
  e ← engine [policy D_RequireApproval [rule "allow-all" E_Allow [ops ["file_read"]]]];
  d ← evaluate e (make_request_with make_subject (FileRead None) (file "/safe.txt") (Some ctx));
  assert_eq (ad_effect d) Deny;;
  assert_eq (ad_reason d) KavachDenyInvalidRequest;;
  assert (list_is_empty (ad_matched_rule_ids d)).

(** *** Dimensions *)

Definition matches_by_operation : test :=
  e ← engine [policy D_Deny
    [rule "allow-read" E_Allow [ops ["file_read"]]; rule "deny-write" E_Deny [ops ["file_write"]]]];
  has_effect e (make_request make_subject) Allow;; has_effect e (writing "/workspace/bar.txt") Deny.

Definition matches_by_resource_kind : test :=
  e ← engine [policy D_Deny [rule "allow-command" E_Allow [kinds [RK_Command]]]];
  d ← evaluate e (make_request make_subject);
  assert_eq (ad_effect d) Deny;; assert_eq (ad_reason d) KavachDenyDefault.

Definition matches_by_agent_id : test :=
  e ← engine [policy D_Deny [rule "allow-agent-1" E_Allow [agents ["agent-1"]]]];
  has_effect e (make_request make_subject) Allow.

Definition matches_by_trust_level : test :=
  let trusted_subject :=
    b ← agent_builder "agent-trusted"; Some (AgentSubjectBuilder_build (AgentSubjectBuilder_trust_level b Trusted)) in
  e ← engine [policy D_Deny [rule "allow-trusted" E_Allow [trust Trusted]]];
  has_effect e (make_request trusted_subject) Allow;;
  d ← evaluate e (make_request make_subject);
  assert_eq (ad_effect d) Deny;; assert_eq (ad_reason d) KavachDenyDefault.

Definition matches_by_capability : test :=
  e ← engine [policy D_Deny [rule "allow-secret-readers" E_Allow [caps ["read_secrets"]]]];
  has_effect e (make_request (make_subject_with_caps ["read_secrets"])) Allow;;
  has_effect e (make_request make_subject) Deny.

Definition matches_by_intent_prefix : test :=
  e ← engine [policy D_Deny [rule "allow-read-intent" E_Allow [intent "read"]]];
  has_effect e (make_request_with make_subject (FileRead None) (file "/workspace/foo.txt")
    (make_context_with_intent "read source")) Allow;;
  has_effect e (make_request_with make_subject FileWrite (file "/workspace/bar.txt")
    (make_context_with_intent "write output")) Deny.

(** *** Paths *)

Definition matches_by_path_glob : test :=
  e ← engine [policy D_Deny [rule "allow-src-rs" E_Allow [ops ["file_read"]; globs ["**/src/**/*.rs"]]]];
  has_effect e (reading "/workspace/src/foo/bar.rs") Allow;;
  has_effect e (reading "/workspace/README.md") Deny;;
  d ← evaluate e (reading "/workspace/README.md");
  assert_eq (ad_reason d) KavachDenyDefault.

Definition path_glob_matches_any_pattern_in_list : test :=
  e ← engine [policy D_Deny [rule "allow-known" E_Allow [globs ["**/Cargo.toml"; "**/src/**/*.rs"]]]];
  has_effect e (reading "/workspace/Cargo.toml") Allow;;
  has_effect e (reading "/workspace/src/lib.rs") Allow;;
  has_effect e (reading "/workspace/README.md") Deny.

Definition path_glob_non_file_resource_no_match : test :=
  e ← engine [policy D_Deny [rule "allow-any-file" E_Allow [globs ["*"]]]];
  has_effect e (cmd_request_with "cat" [] make_context) Deny.

Definition path_glob_empty_skips_check : test :=
  e ← engine [policy D_Deny [rule "allow-all-read" E_Allow [ops ["file_read"]]]];
  has_effect e (make_request make_subject) Allow.

Definition glob_star_matches_one_segment : test :=
  e ← engine [policy D_Deny [rule "allow-txt" E_Allow [globs ["/*.txt"]]]];
  has_effect e (reading "/foo.txt") Allow;;
  has_effect e (reading "/sub/foo.txt") Deny.

Definition glob_star_does_not_cross_separators : test :=
  e ← engine [policy D_Deny [rule "allow-src" E_Allow [globs ["/src/*.rs"]]]];
  has_effect e (reading "/src/lib.rs") Allow;;
  has_effect e (reading "/src/sub/lib.rs") Deny.

Definition glob_starstar_matches_nested : test :=
  e ← engine [policy D_Deny [rule "allow-all-rs" E_Allow [globs ["/src/**/*.rs"]]]];
  has_effect e (reading "/src/lib.rs") Allow;;
  has_effect e (reading "/src/a/b/c/lib.rs") Allow;;
  has_effect e (reading "/other/lib.rs") Deny.

Definition glob_windows_backslash_normalized : test :=
  path ← unwrap (NormalizedPath_new "C:\workspace\foo.txt");
  assert_eq (np_normalized path) "C:/workspace/foo.txt";;
  e ← engine [policy D_Deny [rule "allow-fs" E_Allow [globs ["C:/workspace/*"]]]];
  has_effect e (make_request_with make_subject (FileRead None) (Some (R_File path)) make_context) Allow.

Definition glob_directory_resource_matches : test :=
  e ← engine [policy D_Deny [rule "allow-dir" E_Allow [globs ["/workspace/project/*"]]]];
  has_effect e (make_request_with make_subject DirectoryList (directory "/workspace/project/subdir") make_context) Allow.

Definition glob_network_resource_never_matches : test :=
  e ← engine [policy D_Deny [rule "allow-net" E_Allow [globs ["*"]]]];
  has_effect e (make_network_request "https" "example.com") Deny.

Definition glob_secret_external_unknown_never_match : test :=
  e ← engine [policy D_Deny [rule "allow-any" E_Allow [globs ["*"]]]];
  let on resource := make_request_with make_subject (FileRead None) (Some resource) make_context in
  has_effect e (on (R_Secret "my-key")) Deny;;
  has_effect e (on (R_ExternalTool "kubectl")) Deny;;
  has_effect e (on R_Unknown) Deny.

Definition glob_and_operation_use_and_semantics : test :=
  e ← engine [policy D_Deny [rule "and-rule" E_Allow [ops ["file_write"]; globs ["**/Cargo.toml"]]]];
  has_effect e (writing "/workspace/Cargo.toml") Allow;;
  has_effect e (writing "/workspace/README.md") Deny;;
  has_effect e (reading "/workspace/Cargo.toml") Deny.

Definition glob_precedence_deny_over_allow_with_paths : test :=
  e ← engine [policy D_Deny
    [rule "allow-all" E_Allow [globs ["**"]]; rule "deny-toml" E_Deny [globs ["**/Cargo.toml"]]]];
  d ← evaluate e (writing "/workspace/Cargo.toml");
  assert_eq (ad_effect d) Deny;; contains_id d "deny-toml" true;; contains_id d "allow-all" false;;
  has_effect e (writing "/workspace/src/lib.rs") Allow.

(** *** Validation of path globs *)

Definition reject_empty_path_globs_programmatic : test :=
  r ← engine_new [policy D_Deny [rule "r1" E_Allow [ops ["file_read"]; globs []]]];
  match r with Err (EmptyPathGlobs i) => assert_eq (id_str i) "r1" | _ => None end.

Definition reject_too_many_path_globs_programmatic : test :=
  let patterns := up_to MAX_PATH_GLOB_PATTERNS (fun i => "pat-" +:+ dec i) in
  r ← engine_new [policy D_Deny [rule "r1" E_Allow [ops ["file_read"]; globs patterns]]];
  match r with
  | Err (TooManyPathGlobs i count) => assert_eq (id_str i) "r1";; assert_eq count (MAX_PATH_GLOB_PATTERNS + 1)
  | _ => None
  end.

Definition reject_empty_glob_pattern_programmatic : test :=
  r ← engine_new [policy D_Deny [rule "r1" E_Allow [ops ["file_read"]; globs [""]]]];
  match r with Err (EmptyGlobPattern i idx) => assert_eq (id_str i) "r1";; assert_eq idx 0 | _ => None end.

Definition reject_glob_pattern_too_long_programmatic : test :=
  let long := repeat_byte "a" (MAX_PATH_GLOB_LENGTH + 1) in
  r ← engine_new [policy D_Deny [rule "r1" E_Allow [ops ["file_read"]; globs [long]]]];
  match r with
  | Err (GlobPatternTooLong i idx n) =>
      assert_eq (id_str i) "r1";; assert_eq idx 0;; assert_eq n (MAX_PATH_GLOB_LENGTH + 1)
  | _ => None
  end.

Definition reject_duplicate_glob_pattern_programmatic : test :=
  r ← engine_new [policy D_Deny [rule "r1" E_Allow [ops ["file_read"]; globs ["src/**/*.rs"; "src/**/*.rs"]]]];
  match r with Err (DuplicateGlobPattern i) => assert_eq (id_str i) "r1" | _ => None end.

Definition reject_glob_pattern_null_byte : test :=
  r ← engine_new [policy D_Deny [rule "r1" E_Allow [ops ["file_read"]; globs ["src/**/*.rs" +:+ byte_string 0]]]];
  match r with Err (InvalidGlobPattern i idx) => assert_eq (id_str i) "r1";; assert_eq idx 0 | _ => None end.

Definition reject_glob_pattern_control_char : test :=
  r ← engine_new [policy D_Deny [rule "r1" E_Allow [ops ["file_read"]; globs ["src/**/*.rs" +:+ byte_string 10]]]];
  match r with Err (InvalidGlobPattern i idx) => assert_eq (id_str i) "r1";; assert_eq idx 0 | _ => None end.

Definition reject_invalid_glob_syntax_programmatic : test :=
  r ← engine_new [policy D_Deny [rule "r1" E_Allow [ops ["file_read"]; globs ["[invalid"]]]];
  match r with Err (InvalidGlobPattern i idx) => assert_eq (id_str i) "r1";; assert_eq idx 0 | _ => None end.

(** *** All conditions of a rule are required *)

Definition multiple_matchers_use_and_semantics : test :=
  e ← engine [policy D_Deny
    [rule "strict" E_Allow [ops ["file_read"]; kinds [RK_File]; agents ["agent-1"]]]];
  has_effect e (make_request make_subject) Allow;;
  has_effect e (make_request_with make_subject (FileRead None) (directory "/workspace") make_context) Deny;;
  has_effect e (writing "/workspace/bar.txt") Deny.

(** *** Executables *)

Definition command_matches_by_executable : test :=
  e ← engine [policy D_Deny [rule "allow-kubectl" E_Allow [exes ["kubectl"]]]];
  let req := cmd_request_with "kubectl" ["get"; "pods"] make_context in
  has_effect e req Allow;;
  d ← evaluate e req;
  assert_eq (ad_reason d) KavachAllowPolicyMatch.

Definition command_non_matching_executable_denies : test :=
  e ← engine [policy D_Deny [rule "allow-kubectl" E_Allow [exes ["kubectl"]]]];
  has_effect e (cmd_request_with "docker" ["ps"] make_context) Deny.

Definition command_executable_list_any_match_works : test :=
  e ← engine [policy D_Deny [rule "allow-safe" E_Allow [exes ["cat"; "ls"; "echo"]]]];
  has_effect e (cmd_request_with "cat" ["/etc/hosts"] make_context) Allow;;
  has_effect e (cmd_request_with "ls" ["-la"] make_context) Allow;;
  has_effect e (cmd_request_with "kubectl" ["get"; "pods"] make_context) Deny.

Definition executables_non_command_resource_no_match : test :=
  e ← engine [policy D_Deny [rule "allow-cat" E_Allow [exes ["cat"]]]];
  has_effect e (reading "/workspace/foo.txt") Deny.

Definition executables_empty_skips_check : test :=
  e ← engine [policy D_Deny [rule "allow-cmd" E_Allow [ops ["command_execute"]]]];
  has_effect e (cmd_request_with "any-tool" [] make_context) Allow.

Definition reject_empty_executables_programmatic : test :=
  r ← engine_new [policy D_Deny [rule "r1" E_Allow [ops ["command_execute"]; exes []]]];
  match r with Err (EmptyExecutables i) => assert_eq (id_str i) "r1" | _ => None end.

Definition reject_too_many_executables_programmatic : test :=
  let names := up_to MAX_EXECUTABLE_PATTERNS (fun i => "exe-" +:+ dec i) in
  r ← engine_new [policy D_Deny [rule "r1" E_Allow [ops ["command_execute"]; exes names]]];
  match r with
  | Err (TooManyExecutables i count) => assert_eq (id_str i) "r1";; assert_eq count (MAX_EXECUTABLE_PATTERNS + 1)
  | _ => None
  end.

Definition reject_empty_executable_pattern_programmatic : test :=
  r ← engine_new [policy D_Deny [rule "r1" E_Allow [ops ["command_execute"]; exes [""]]]];
  match r with Err (EmptyExecutable i idx) => assert_eq (id_str i) "r1";; assert_eq idx 0 | _ => None end.

Definition reject_executable_too_long_programmatic : test :=
  let long := repeat_byte "a" (MAX_EXECUTABLE_LENGTH + 1) in
  r ← engine_new [policy D_Deny [rule "r1" E_Allow [ops ["command_execute"]; exes [long]]]];
  match r with
  | Err (ExecutableTooLong i idx n) =>
      assert_eq (id_str i) "r1";; assert_eq idx 0;; assert_eq n (MAX_EXECUTABLE_LENGTH + 1)
  | _ => None
  end.

Definition reject_duplicate_executable_programmatic : test :=
  r ← engine_new [policy D_Deny [rule "r1" E_Allow [ops ["command_execute"]; exes ["kubectl"; "kubectl"]]]];
  match r with Err (DuplicateExecutable i) => assert_eq (id_str i) "r1" | _ => None end.

Definition reject_executable_null_byte : test :=
  r ← engine_new [policy D_Deny [rule "r1" E_Allow [ops ["command_execute"]; exes ["kubectl" +:+ byte_string 0]]]];
  match r with Err (InvalidExecutable i idx) => assert_eq (id_str i) "r1";; assert_eq idx 0 | _ => None end.

Definition reject_executable_control_char : test :=
  r ← engine_new [policy D_Deny [rule "r1" E_Allow [ops ["command_execute"]; exes ["kubectl" +:+ byte_string 10]]]];
  match r with Err (InvalidExecutable i idx) => assert_eq (id_str i) "r1";; assert_eq idx 0 | _ => None end.

(** *** Network *)

Definition network_matches_by_host : test :=
  e ← engine [policy D_Deny [rule "allow-example" E_Allow [hosts ["example.com"]]]];
  let req := make_network_request "https" "example.com" in
  has_effect e req Allow;;
  d ← evaluate e req;
  assert_eq (ad_reason d) KavachAllowPolicyMatch.

Definition network_non_matching_host_denies : test :=
  e ← engine [policy D_Deny [rule "allow-example" E_Allow [hosts ["example.com"]]]];
  has_effect e (make_network_request "https" "other.com") Deny.

Definition network_host_non_network_resource_no_match : test :=
  e ← engine [policy D_Deny [rule "allow-example" E_Allow [hosts ["example.com"]]]];
  has_effect e (make_request make_subject) Deny.

Definition network_matches_by_scheme : test :=
  e ← engine [policy D_Deny [rule "allow-https" E_Allow [schemes ["https"]]]];
  has_effect e (make_network_request "https" "example.com") Allow.

Definition network_non_matching_scheme_denies : test :=
  e ← engine [policy D_Deny [rule "allow-https" E_Allow [schemes ["https"]]]];
  has_effect e (make_network_request "http" "example.com") Deny.

Definition network_scheme_non_network_resource_no_match : test :=
  e ← engine [policy D_Deny [rule "allow-https" E_Allow [schemes ["https"]]]];
  has_effect e (make_request make_subject) Deny.

Definition network_host_and_scheme_and_operation : test :=
  e ← engine [policy D_Deny
    [rule "net-rule" E_Allow [ops ["network_request"]; hosts ["example.com"]; schemes ["https"]]]];
  has_effect e (make_network_request "https" "example.com") Allow;;
  has_effect e (make_network_request "https" "other.com") Deny;;
  has_effect e (make_network_request "http" "example.com") Deny.

Definition network_matches_by_port : test :=
  e ← engine [policy D_Deny [rule "allow-443" E_Allow [ports [443]]]];
  has_effect e (make_network_request_with_port "https" "example.com" (Some 443)) Allow.

Definition network_non_matching_port_denies : test :=
  e ← engine [policy D_Deny [rule "allow-443" E_Allow [ports [443]]]];
  has_effect e (make_network_request_with_port "https" "example.com" (Some 80)) Deny.

Definition network_port_wildcard_zero_matches_any : test :=
  e ← engine [policy D_Deny [rule "allow-any-port" E_Allow [ports [0]]]];
  has_effect e (make_network_request_with_port "https" "example.com" (Some 443)) Allow;;
  has_effect e (make_network_request_with_port "https" "example.com" (Some 8080)) Allow;;
  has_effect e (make_network_request "https" "example.com") Allow.

Definition network_port_no_port_resource_denies_when_ports_set : test :=
  e ← engine [policy D_Deny [rule "allow-443" E_Allow [ports [443]]]];
  has_effect e (make_network_request "https" "example.com") Deny.

Definition network_port_non_network_resource_no_match : test :=
  e ← engine [policy D_Deny [rule "allow-443" E_Allow [ports [443]]]];
  has_effect e (make_request make_subject) Deny.

(** *** Secrets and tools *)

Definition secret_request (identifier : string) : option ToolRequest :=
  make_request_with make_subject SecretAccess (Some (R_Secret identifier)) make_context.
Definition tool_request (identifier : string) : option ToolRequest :=
  make_request_with make_subject (ToolInvoke identifier) (Some (R_ExternalTool identifier)) make_context.

Definition secret_matches_by_identifier : test :=
  e ← engine [policy D_Deny [rule "allow-db-pass" E_Allow [secrets ["db_password"]]]];
  has_effect e (secret_request "db_password") Allow.

Definition secret_non_matching_identifier_denies : test :=
  e ← engine [policy D_Deny [rule "allow-db-pass" E_Allow [secrets ["db_password"]]]];
  has_effect e (secret_request "api_key") Deny.

Definition secret_identifier_non_secret_resource_no_match : test :=
  e ← engine [policy D_Deny [rule "allow-db-pass" E_Allow [secrets ["db_password"]]]];
  has_effect e (make_request make_subject) Deny.

Definition tool_matches_by_identifier : test :=
  e ← engine [policy D_Deny [rule "allow-kubectl" E_Allow [tools ["kubectl"]]]];
  has_effect e (tool_request "kubectl") Allow.

Definition tool_non_matching_identifier_denies : test :=
  e ← engine [policy D_Deny [rule "allow-kubectl" E_Allow [tools ["kubectl"]]]];
  has_effect e (tool_request "docker") Deny.

Definition tool_identifier_non_tool_resource_no_match : test :=
  e ← engine [policy D_Deny [rule "allow-kubectl" E_Allow [tools ["kubectl"]]]];
  has_effect e (make_request make_subject) Deny.

Definition tool_identifier_empty_skips_check : test :=
  e ← engine [policy D_Deny [rule "allow-tool" E_Allow [ops ["tool_invoke"]]]];
  has_effect e (tool_request "any-tool") Allow.

(** *** Validation of hosts and ports *)

Definition reject_empty_network_hosts_programmatic : test :=
  r ← engine_new [policy D_Deny [rule "r1" E_Allow [ops ["network_request"]; hosts []]]];
  match r with Err (EmptyNetworkHosts i) => assert_eq (id_str i) "r1" | _ => None end.

Definition reject_too_many_network_hosts_programmatic : test :=
  let names := up_to MAX_NETWORK_HOST_PATTERNS (fun i => "host-" +:+ dec i +:+ ".com") in
  r ← engine_new [policy D_Deny [rule "r1" E_Allow [ops ["network_request"]; hosts names]]];
  match r with
  | Err (TooManyNetworkHosts i count) => assert_eq (id_str i) "r1";; assert_eq count (MAX_NETWORK_HOST_PATTERNS + 1)
  | _ => None
  end.

Definition reject_empty_network_host_pattern_programmatic : test :=
  r ← engine_new [policy D_Deny [rule "r1" E_Allow [ops ["network_request"]; hosts [""]]]];
  match r with Err (EmptyNetworkHost i idx) => assert_eq (id_str i) "r1";; assert_eq idx 0 | _ => None end.

Definition reject_network_host_too_long_programmatic : test :=
  let long := repeat_byte "a" (MAX_IDENTIFIER_LENGTH + 1) in
  r ← engine_new [policy D_Deny [rule "r1" E_Allow [ops ["network_request"]; hosts [long]]]];
  match r with
  | Err (NetworkHostTooLong i idx n) =>
      assert_eq (id_str i) "r1";; assert_eq idx 0;; assert_eq n (MAX_IDENTIFIER_LENGTH + 1)
  | _ => None
  end.

Definition reject_duplicate_network_host_programmatic : test :=
  r ← engine_new [policy D_Deny [rule "r1" E_Allow [ops ["network_request"]; hosts ["example.com"; "example.com"]]]];
  match r with Err (DuplicateNetworkHost i) => assert_eq (id_str i) "r1" | _ => None end.

Definition reject_network_host_null_byte : test :=
  r ← engine_new [policy D_Deny [rule "r1" E_Allow [ops ["network_request"]; hosts ["example.com" +:+ byte_string 0]]]];
  match r with Err (InvalidNetworkHost i idx) => assert_eq (id_str i) "r1";; assert_eq idx 0 | _ => None end.

Definition reject_empty_network_ports_programmatic : test :=
  r ← engine_new [policy D_Deny [rule "r1" E_Allow [ops ["network_request"]; ports []]]];
  match r with Err (EmptyNetworkPorts i) => assert_eq (id_str i) "r1" | _ => None end.

Definition reject_too_many_network_ports_programmatic : test :=
  r ← engine_new [policy D_Deny
    [rule "r1" E_Allow [ops ["network_request"]; ports (up_to MAX_NETWORK_PORT_PATTERNS (fun i => i))]]];
  match r with
  | Err (TooManyNetworkPorts i count) => assert_eq (id_str i) "r1";; assert_eq count (MAX_NETWORK_PORT_PATTERNS + 1)
  | _ => None
  end.

Definition reject_duplicate_network_port_programmatic : test :=
  r ← engine_new [policy D_Deny [rule "r1" E_Allow [ops ["network_request"]; ports [443; 443]]]];
  match r with Err (DuplicateNetworkPort i) => assert_eq (id_str i) "r1" | _ => None end.

(** *** Several policies, defaults and repetition *)

Definition rules_from_multiple_policies_are_evaluated : test :=
  e ← engine
    [policy_with_id "base" D_Deny [rule "base-allow-all" E_Allow [ops ["file_read"]]];
     policy_with_id "override" D_Deny [rule "override-deny" E_Deny [ops ["file_read"]]]];
  d ← evaluate e (make_request make_subject);
  assert_eq (ad_effect d) Deny;;
  contains_id d "base-allow-all" false;; contains_id d "override-deny" true.

Definition empty_policies_default_to_deny : test :=
  e ← engine [];
  d ← evaluate e (make_request make_subject);
  assert_eq (ad_effect d) Deny;; assert_eq (ad_reason d) KavachDenyDefault.

Definition default_effect_cannot_be_allow : test :=
  match D_Deny with D_Deny => Some tt | D_RequireApproval => Some tt end.

Definition no_match_falls_to_default_require_approval : test :=
  e ← engine [policy D_RequireApproval []];
  d ← evaluate e (make_request make_subject);
  assert_eq (ad_effect d) RequireApproval;; assert_eq (ad_reason d) KavachApprovalRequired.

(** The second evaluation reads the clock later. *)
Definition repeated_evaluation_identical_decision : test :=
  e ← engine [policy D_Deny [rule "read-ok" E_Allow [ops ["file_read"]]]];
  req ← make_request make_subject;
  let d1 := PolicyEngine_evaluate e 0 req in
  let d2 := PolicyEngine_evaluate e 1 req in
  assert_eq (ad_effect d1) (ad_effect d2);;
  assert_eq (ad_reason d1) (ad_reason d2);;
  assert_eq (ad_matched_rule_ids d1) (ad_matched_rule_ids d2);;
  assert_eq (ad_request_id d1) (ad_request_id d2).

(** *** Baselines *)

Definition allow_python_policy : option Policy :=
  policy D_Deny [rule "allow-python" E_Allow [exes ["python"]]].
Definition allow_echo_policy : option Policy :=
  policy D_Deny [rule "allow-echo" E_Allow [exes ["echo"]]].

(** The trace of a denial by a baseline. *)
Definition carries_baseline (d : AuthorizationDecision) : test :=
  trace ← ad_trace d; assert (negb (is_none (baseline_triggered trace))).

Definition baseline_denies_python_m_pip : test :=
  e ← engine [allow_python_policy];
  d ← evaluate e (cmd_request_with "python" ["-m"; "pip"; "install"; "evil"] make_context);
  assert_eq (ad_effect d) Deny;;
  assert_eq (ad_reason d) KavachDenyExplicitRule;;
  contains_id d BASELINE_DANGEROUS_INTERPRETER_RULE_ID true;;
  carries_baseline d.

Definition baseline_denies_python_c_payload : test :=
  e ← engine [allow_python_policy];
  d ← evaluate e (cmd_request_with "python" ["-c"; "import os; os.system('id')"] make_context);
  assert_eq (ad_effect d) Deny;; assert_eq (ad_reason d) KavachDenyExplicitRule.

Definition baseline_denies_perl_ruby_node_eval_flags : test :=
  mapM (fun '(exe, flag) =>
    c ← unwrap (CommandResource_new exe [flag; "payload"]); assert (is_known_dangerous_invocation c))
    [("perl", "-e"); ("ruby", "-e"); ("node", "-e"); ("python3", "-c")];; Some tt.

Definition baseline_leaves_benign_interpreter_use_alone : test :=
  e ← engine [allow_python_policy];
  has_effect e (cmd_request_with "python" ["script.py"] make_context) Allow.

Definition baseline_denies_echo_redirect_for_allowlisted_executable : test :=
  e ← engine [allow_echo_policy];
  d ← evaluate e (cmd_request_with "echo" ["x"; ">"; "file"] make_context);
  assert_eq (ad_effect d) Deny;;
  assert_eq (ad_reason d) KavachDenyExplicitRule;;
  contains_id d BASELINE_SHELL_HAZARD_RULE_ID true;;
  carries_baseline d.

Definition baseline_shell_hazard_leaves_clean_args_alone : test :=
  e ← engine [allow_echo_policy];
  has_effect e (cmd_request_with "echo" ["hello"] make_context) Allow;;
  has_effect e (cmd_request_with "echo" ["a"; "|"; "cat"] make_context) Deny.

Definition baseline_denies_substitution_hazard_in_args : test :=
  e ← engine [allow_python_policy];
  has_effect e (cmd_request_with "python" ["script.py"; "$(id)"] make_context) Deny.

(** *** Argument rules *)

Definition argument_rules_deny_if_matches_vetoes_rule : test :=
  e ← engine [policy D_Deny [rule "allow-git-safe" E_Allow [exes ["git"]; args (Some ["--hard"]) None]]];
  has_effect e (cmd_request_with "git" ["status"] make_context) Allow;;
  d ← evaluate e (cmd_request_with "git" ["reset"; "--hard"] make_context);
  assert_eq (ad_effect d) Deny;; assert_eq (ad_reason d) KavachDenyDefault.

Definition argument_rules_require_match_gates_rule : test :=
  e ← engine [policy D_Deny [rule "allow-kubectl-get" E_Allow [exes ["kubectl"]; args None (Some ["get"])]]];
  has_effect e (cmd_request_with "kubectl" ["get"; "pods"] make_context) Allow;;
  has_effect e (cmd_request_with "kubectl" ["delete"; "pods"] make_context) Deny.

Definition argument_rules_match_per_argument_not_joined : test :=
  e ← engine [policy D_Deny [rule "allow-py" E_Allow [exes ["python"]; args (Some ["pip"]) None]]];
  has_effect e (cmd_request_with "python" ["pip"] make_context) Deny;;
  has_effect e (cmd_request_with "python" ["-m"; "pip"] make_context) Deny.

(** *** Relative patterns *)

Definition relative_pattern_matches_absolute_with_working_directory : test :=
  e ← engine [policy D_Deny [rule "allow-sympy" E_Allow [ops ["file_read"]; globs ["sympy/**/*.py"]]]];
  let wd_ctx := unwrap (RequestContext_new 0 (Some "/workspace") None None None false) in
  let read path ctx := make_request_with make_subject (FileRead None) (file path) ctx in
  has_effect e (read "sympy/core/x.py" make_context) Allow;;
  has_effect e (read "/workspace/sympy/core/x.py" wd_ctx) Allow;;
  has_effect e (read "/workspace/sympy/core/x.py" make_context) Deny;;
  has_effect e (read "/workspace2/sympy/core/x.py" wd_ctx) Deny.

Definition relative_pattern_emits_load_time_warning : test :=
  e ← engine [policy D_Deny [rule "allow-rel" E_Allow [globs ["sympy/**/*.py"]]]];
  match PolicyEngine_warnings e with
  | [w] => assert_eq (id_str (pw_rule_id w)) "allow-rel";; assert (contains "working_directory" (pw_message w))
  | _ => None
  end;;
  engine_abs ← engine [policy D_Deny [rule "allow-abs" E_Allow [globs ["/workspace/**/*.py"]]]];
  assert (list_is_empty (PolicyEngine_warnings engine_abs)).

Definition empty_working_directory_is_none : test :=
  ctx ← unwrap (RequestContext_new 0 (Some "") None None None false);
  assert (is_none (ctx_working_directory ctx)).

Definition backslash_normalization_matrix : test :=
  mapM (fun '(raw, expected) => path ← unwrap (NormalizedPath_new raw); assert_eq (np_normalized path) expected)
    [("C:\a/b\c.txt", "C:/a/b/c.txt"); ("a\..\b", "b"); ("trailing\", "trailing"); ("mixed//a\\b", "mixed/a/b")];;
  unc ← unwrap (NormalizedPath_new "\\server\share\x");
  assert (contains "server" (np_normalized unc));;
  assert (contains "share" (np_normalized unc));;
  assert (negb (contains "\" (np_normalized unc))).

Definition decision_trace_reports_failed_conditions : test :=
  e ← engine [policy D_Deny [rule "allow-kubectl" E_Allow [exes ["kubectl"]]]];
  d ← evaluate e (cmd_request_with "docker" ["ps"] make_context);
  assert_eq (ad_effect d) Deny;;
  trace ← ad_trace d;
  assert (is_none (baseline_triggered trace));;
  assert (bool_decide ("executables" ∈ failed_conditions trace)).

(** *** All of them *)

Example engine_tests : passes
    [deny_decision_contains_deny_ids_only; approval_decision_contains_approval_ids_only;
     allow_decision_contains_allow_ids_only; default_deny_has_empty_matched_ids;
     default_approval_has_empty_matched_ids; winning_ids_are_sorted;
     duplicate_ids_within_one_policy_are_rejected; duplicate_ids_across_policies_are_rejected;
     empty_conditions_are_rejected; deny_precedence_over_allow; deny_precedence_over_approval;
     approval_precedence_over_allow; allow_when_only_allow_rules_match;
     no_match_falls_to_policy_default_deny; invalid_request_fails_closed; matches_by_operation;
     matches_by_resource_kind; matches_by_agent_id; matches_by_trust_level; matches_by_capability;
     matches_by_intent_prefix; matches_by_path_glob; path_glob_matches_any_pattern_in_list;
     path_glob_non_file_resource_no_match; path_glob_empty_skips_check;
     glob_star_matches_one_segment; glob_star_does_not_cross_separators;
     glob_starstar_matches_nested; glob_windows_backslash_normalized;
     glob_directory_resource_matches; glob_network_resource_never_matches;
     glob_secret_external_unknown_never_match; glob_and_operation_use_and_semantics;
     glob_precedence_deny_over_allow_with_paths; reject_empty_path_globs_programmatic;
     reject_too_many_path_globs_programmatic; reject_empty_glob_pattern_programmatic;
     reject_glob_pattern_too_long_programmatic; reject_duplicate_glob_pattern_programmatic;
     reject_glob_pattern_null_byte; reject_glob_pattern_control_char;
     reject_invalid_glob_syntax_programmatic; multiple_matchers_use_and_semantics;
     command_matches_by_executable; command_non_matching_executable_denies;
     command_executable_list_any_match_works; executables_non_command_resource_no_match;
     executables_empty_skips_check; reject_empty_executables_programmatic;
     reject_too_many_executables_programmatic; reject_empty_executable_pattern_programmatic;
     reject_executable_too_long_programmatic; reject_duplicate_executable_programmatic;
     reject_executable_null_byte; reject_executable_control_char; network_matches_by_host;
     network_non_matching_host_denies; network_host_non_network_resource_no_match;
     network_matches_by_scheme; network_non_matching_scheme_denies;
     network_scheme_non_network_resource_no_match; network_host_and_scheme_and_operation;
     network_matches_by_port; network_non_matching_port_denies;
     network_port_wildcard_zero_matches_any; network_port_no_port_resource_denies_when_ports_set;
     network_port_non_network_resource_no_match; secret_matches_by_identifier;
     secret_non_matching_identifier_denies; secret_identifier_non_secret_resource_no_match;
     tool_matches_by_identifier; tool_non_matching_identifier_denies;
     tool_identifier_non_tool_resource_no_match; tool_identifier_empty_skips_check;
     reject_empty_network_hosts_programmatic; reject_too_many_network_hosts_programmatic;
     reject_empty_network_host_pattern_programmatic; reject_network_host_too_long_programmatic;
     reject_duplicate_network_host_programmatic; reject_network_host_null_byte;
     reject_empty_network_ports_programmatic; reject_too_many_network_ports_programmatic;
     reject_duplicate_network_port_programmatic; rules_from_multiple_policies_are_evaluated;
     empty_policies_default_to_deny; default_effect_cannot_be_allow;
     no_match_falls_to_default_require_approval; repeated_evaluation_identical_decision;
     baseline_denies_python_m_pip; baseline_denies_python_c_payload;
     baseline_denies_perl_ruby_node_eval_flags; baseline_leaves_benign_interpreter_use_alone;
     baseline_denies_echo_redirect_for_allowlisted_executable;
     baseline_shell_hazard_leaves_clean_args_alone; baseline_denies_substitution_hazard_in_args;
     argument_rules_deny_if_matches_vetoes_rule; argument_rules_require_match_gates_rule;
     argument_rules_match_per_argument_not_joined;
     relative_pattern_matches_absolute_with_working_directory;
     relative_pattern_emits_load_time_warning; empty_working_directory_is_none;
     backslash_normalization_matrix; decision_trace_reports_failed_conditions] = true.
Proof. vm_compute. reflexivity. Qed.

End EngineTests.

(** ** The tests of io.rs

    A TOML text is given as the value it parses to. *)

Module IoTests.

#[local] Instance DefaultEffect_eq_dec : EqDecision DefaultEffect.
Proof. solve_decision. Defined.

Definition S := TV_String.
Definition L (l : list string) : TomlValue := TV_Array (map TV_String l).

(** [load_policy_from_str] on a text that parses to [v]. *)
Definition load (v : TomlValue) : result PolicyLoadError Policy :=
  load_policy_from_str (H := {| toml_from_str _ :=
    match TomlDocument_deserialize v with Some doc => Ok doc | None => Err "unexpected value" end |}) "".

Definition header (id default : string) (more : list (string * TomlValue)) : string * TomlValue :=
  ("policy", TV_Table ([("id", S id)] ++ more ++ [("default_effect", S default)])).
Definition rule_table (id effect : string) (more : list (string * TomlValue)) : TomlValue :=
  TV_Table ([("id", S id); ("effect", S effect)] ++ more).
Definition conditions (entries : list (string * TomlValue)) : list (string * TomlValue) :=
  [("conditions", TV_Table entries)].
(** A document of version 1. *)
Definition document (h : string * TomlValue) (rules : list TomlValue) : TomlValue :=
  TV_Table ([("schema_version", TV_Int 1); h] ++ match rules with [] => [] | _ => [("rules", TV_Array rules)] end).
(** The document most tests share: one rule [r1] that allows. *)
Definition one_rule (id : string) (entries : list (string * TomlValue)) : TomlValue :=
  document (header id "deny" []) [rule_table "r1" "allow" (conditions entries)].

Definition is_parse_error (r : result PolicyLoadError Policy) : test :=
  match r with Err (PLE_Parse _) => Some tt | _ => None end.
Definition nth_rule (p : Policy) (n : nat) : option Rule := policy_rules p !! n.

Definition parse_minimal_policy : test :=
  p ← unwrap (load (one_rule "minimal" [("operations", L ["file_read"])]));
  assert_eq (id_str (policy_id p)) "minimal";;
  assert_eq (policy_default_effect p) D_Deny;;
  assert_eq (length (policy_rules p)) 1%nat;;
  r ← nth_rule p 0;
  assert_eq (id_str (rule_id r)) "r1";;
  assert_eq (rule_effect r) E_Allow;;
  assert_eq (operations (rule_conditions r)) ["file_read"].

Definition parse_full_policy : test :=
  p ← unwrap (load (document
    (header "project-default" "deny"
      [("name", S "Project Default Policy"); ("description", S "Default local development restrictions")])
    [rule_table "allow-project-read" "allow"
       (("description", S "Allow approved agents to read project files") ::
        conditions
          [("operations", L ["file_read"]); ("resource_kinds", L ["file"]); ("agent_ids", L ["coding-agent"]);
           ("min_trust_level", S "restricted"); ("required_capabilities", L ["file_read"]);
           ("intent_prefix", S "read project")]);
     rule_table "deny-write-tmp" "deny"
       (("description", S "Deny writes to /tmp") ::
        conditions
          [("operations", L ["file_write"]); ("resource_kinds", L ["file"; "directory"]);
           ("agent_ids", L ["coding-agent"])])]));
  assert_eq (id_str (policy_id p)) "project-default";;
  assert_eq (policy_name p) "Project Default Policy";;
  assert_eq (policy_default_effect p) D_Deny;;
  assert_eq (length (policy_rules p)) 2%nat;;
  r0 ← nth_rule p 0;
  assert_eq (id_str (rule_id r0)) "allow-project-read";;
  assert_eq (rule_description r0) "Allow approved agents to read project files";;
  assert_eq (rule_effect r0) E_Allow;;
  assert_eq (operations (rule_conditions r0)) ["file_read"];;
  assert_eq (resource_kinds (rule_conditions r0)) [RK_File];;
  assert_eq (agent_ids (rule_conditions r0)) ["coding-agent"];;
  assert_eq (min_trust_level (rule_conditions r0)) (Some Restricted);;
  assert_eq (required_capabilities (rule_conditions r0)) ["file_read"];;
  assert_eq (intent_prefix (rule_conditions r0)) (Some "read project");;
  r1 ← nth_rule p 1;
  assert_eq (id_str (rule_id r1)) "deny-write-tmp";;
  assert_eq (rule_effect r1) E_Deny;;
  assert_eq (operations (rule_conditions r1)) ["file_write"];;
  assert_eq (resource_kinds (rule_conditions r1)) [RK_File; RK_Directory].

Definition parse_approval_default_effect : test :=
  p ← unwrap (load (document (header "approval-only" "require_approval" []) []));
  assert_eq (policy_default_effect p) D_RequireApproval.

Definition parse_require_approval_rule_effect : test :=
  p ← unwrap (load (document (header "approval-policy" "deny" [])
    [rule_table "approve-read" "require_approval" (conditions [("operations", L ["file_read"])])]));
  r ← nth_rule p 0; assert_eq (rule_effect r) E_RequireApproval.

Definition parse_rule_without_conditions_is_rejected : test :=
  match load (document (header "no-conditions" "deny" []) [rule_table "catch-all" "deny" []]) with
  | Err (PLE_Validation (EmptyConditions i)) => assert_eq (id_str i) "catch-all"
  | _ => None
  end.

Definition duplicate_rule_ids_are_rejected : test :=
  match load (document (header "dup-policy" "deny" [])
    [rule_table "dup-rule" "allow" (conditions [("operations", L ["file_read"])]);
     rule_table "dup-rule" "deny" (conditions [("operations", L ["file_write"])])]) with
  | Err (PLE_Validation (DuplicateRuleId i)) => assert_eq (id_str i) "dup-rule"
  | _ => None
  end.

Definition reject_empty_rule_id : test :=
  match load (document (header "test" "deny" [])
    [rule_table "" "allow" (conditions [("operations", L ["file_read"])])]) with
  | Err (PLE_InvalidRuleId i _) => assert (is_empty i)
  | _ => None
  end.

Definition reject_empty_policy_id : test :=
  match load (document (header "" "deny" []) []) with
  | Err (PLE_InvalidPolicyId i _) => assert (is_empty i)
  | _ => None
  end.

Definition reject_unsupported_schema_version : test :=
  match load (TV_Table [("schema_version", TV_Int 99); header "test" "deny" []]) with
  | Err (PLE_UnsupportedSchemaVersion v) => assert_eq v 99
  | _ => None
  end.

(** The text has no value. *)
Definition reject_invalid_toml : test :=
  is_parse_error (load_policy_from_str (H := {| toml_from_str _ := Err "expected an equals" |})
    "this is not toml {{{").

Definition reject_missing_rule_effect : test :=
  is_parse_error (load (document (header "test" "deny" [])
    [TV_Table (("id", S "no-effect") :: conditions [("operations", L ["file_read"])])])).

Definition reject_invalid_effect_string : test :=
  is_parse_error (load (document (header "test" "deny" [])
    [rule_table "bad-effect" "maybe" (conditions [("operations", L ["file_read"])])])).

Definition reject_invalid_resource_kind : test :=
  is_parse_error (load (document (header "test" "deny" [])
    [rule_table "bad-kind" "deny" (conditions [("resource_kinds", L ["floppy_disk"])])])).

Definition reject_invalid_trust_level : test :=
  is_parse_error (load (document (header "test" "deny" [])
    [rule_table "bad-trust" "deny" (conditions [("min_trust_level", S "ultra")])])).

Definition reject_allow_default_effect : test :=
  is_parse_error (load (document (header "test" "allow" []) [])).

Definition reject_empty_rules_conditions : test :=
  match load (document (header "test" "deny" []) [rule_table "empty-cond" "allow" (conditions [])]) with
  | Err (PLE_Validation (EmptyConditions i)) => assert_eq (id_str i) "empty-cond"
  | _ => None
  end.

Definition reject_missing_schema_version : test :=
  is_parse_error (load (TV_Table
    [header "no-schema-version" "deny" [];
     ("rules", TV_Array [rule_table "r1" "allow" (conditions [("operations", L ["file_read"])])])])).

(** As written, the unknown key belongs to the table of the policy. *)
Definition reject_unknown_top_level_field : test :=
  is_parse_error (load (document (header "test" "deny" [("unknown_key", S "value")]) [])).

Definition reject_unknown_policy_header_field : test :=
  is_parse_error (load (document (header "test" "deny" [("unknown_field", S "boom")]) [])).

Definition reject_unknown_rule_field : test :=
  is_parse_error (load (document (header "test" "deny" [])
    [rule_table "r1" "allow" (("unknown_rule_key", S "nope") :: conditions [("operations", L ["file_read"])])])).

Definition reject_unknown_conditions_field : test :=
  is_parse_error (load (one_rule "test" [("operations", L ["file_read"]); ("unknown_cond", S "bad")])).

(** *** Conditions on paths and executables *)

Definition parse_path_globs : test :=
  p ← unwrap (load (one_rule "glob-policy" [("operations", L ["file_read"]); ("path_globs", L ["src/**/*.rs"; "Cargo.toml"])]));
  r ← nth_rule p 0; assert_eq (path_globs (rule_conditions r)) (Some ["src/**/*.rs"; "Cargo.toml"]).

(** The documents that a faulty list makes invalid. *)
Definition reading_globs (l : list string) : TomlValue :=
  one_rule "test" [("operations", L ["file_read"]); ("path_globs", L l)].
Definition running (l : list string) : TomlValue :=
  one_rule "test" [("operations", L ["command_execute"]); ("executables", L l)].
Definition contacting (l : list string) : TomlValue :=
  one_rule "test" [("operations", L ["network_request"]); ("network_hosts", L l)].
(** [for i in 1..=(n + 1)] over the patterns. *)
Definition too_many (n : Z) (f : Z -> string) : list string := up_to n (fun i => f (i + 1)).

Definition reject_invalid_glob_pattern : test :=
  match load (one_rule "bad-glob" [("operations", L ["file_read"]); ("path_globs", L ["[invalid"])]) with
  | Err (PLE_Validation (InvalidGlobPattern i idx)) => assert_eq (id_str i) "r1";; assert_eq idx 0
  | _ => None
  end.

Definition reject_empty_path_globs_toml : test :=
  match load (reading_globs []) with
  | Err (PLE_Validation (EmptyPathGlobs i)) => assert_eq (id_str i) "r1"
  | _ => None
  end.

Definition reject_too_many_path_globs_toml : test :=
  match load (reading_globs (too_many MAX_PATH_GLOB_PATTERNS (fun i => "pat-" +:+ dec i))) with
  | Err (PLE_Validation (TooManyPathGlobs i count)) =>
      assert_eq (id_str i) "r1";; assert_eq count (MAX_PATH_GLOB_PATTERNS + 1)
  | _ => None
  end.

Definition reject_empty_glob_pattern_toml : test :=
  match load (reading_globs [""]) with
  | Err (PLE_Validation (EmptyGlobPattern i idx)) => assert_eq (id_str i) "r1";; assert_eq idx 0
  | _ => None
  end.

Definition reject_glob_pattern_too_long_toml : test :=
  match load (reading_globs [repeat_byte "a" (MAX_PATH_GLOB_LENGTH + 1)]) with
  | Err (PLE_Validation (GlobPatternTooLong i idx n)) =>
      assert_eq (id_str i) "r1";; assert_eq idx 0;; assert_eq n (MAX_PATH_GLOB_LENGTH + 1)
  | _ => None
  end.

Definition reject_duplicate_glob_pattern_toml : test :=
  match load (reading_globs ["src/**/*.rs"; "src/**/*.rs"]) with
  | Err (PLE_Validation (DuplicateGlobPattern i)) => assert_eq (id_str i) "r1"
  | _ => None
  end.

(** The test accepts either error; a TOML text cannot hold the byte, a value can. *)
Definition reject_path_glob_null_byte_toml : test :=
  match load (reading_globs ["src/**/*.rs" +:+ byte_string 0]) with
  | Err (PLE_Parse _) => Some tt
  | Err (PLE_Validation (InvalidGlobPattern i idx)) => assert_eq (id_str i) "r1";; assert_eq idx 0
  | _ => None
  end.

Definition reject_path_glob_control_char_toml : test :=
  match load (reading_globs ["src/**/*.rs" +:+ byte_string 10]) with
  | Err (PLE_Validation (InvalidGlobPattern i idx)) => assert_eq (id_str i) "r1";; assert_eq idx 0
  | _ => None
  end.

(** The file is given by its length. *)
Definition reject_file_too_large : test :=
  match load_policy_from_file (H := {| toml_from_str _ := Err "text" |})
    (H0 := {| file_len _ := Ok (MAX_POLICY_FILE_SIZE + 1); read_to_string _ := Ok "x" |}) "big.toml" with
  | Err PLE_FileTooLarge => Some tt
  | _ => None
  end.

Definition parse_executables : test :=
  p ← unwrap (load (one_rule "exec-policy" [("operations", L ["command_execute"]); ("executables", L ["kubectl"; "docker"])]));
  r ← nth_rule p 0; assert_eq (executables (rule_conditions r)) (Some ["kubectl"; "docker"]).

Definition parse_argument_rules : test :=
  p ← unwrap (load (one_rule "arg-policy"
    [("operations", L ["command_execute"]); ("executables", L ["git"]);
     ("argument_rules", TV_Table [("deny_if_matches", L ["--hard"]); ("require_match", L ["reset"])])]));
  r ← nth_rule p 0;
  rules ← argument_rules (rule_conditions r);
  assert_eq (deny_if_matches rules) (Some ["--hard"]);;
  assert_eq (require_match rules) (Some ["reset"]).

Definition reject_empty_argument_rules_toml : test :=
  match load (one_rule "test"
    [("operations", L ["command_execute"]); ("executables", L ["git"]); ("argument_rules", TV_Table [])]) with
  | Err (PLE_Validation (EmptyArgumentRules i)) => assert_eq (id_str i) "r1"
  | _ => None
  end.

Definition reject_empty_executables_toml : test :=
  match load (running []) with
  | Err (PLE_Validation (EmptyExecutables i)) => assert_eq (id_str i) "r1"
  | _ => None
  end.

Definition reject_too_many_executables_toml : test :=
  match load (running (too_many MAX_EXECUTABLE_PATTERNS (fun i => "exe-" +:+ dec i))) with
  | Err (PLE_Validation (TooManyExecutables i count)) =>
      assert_eq (id_str i) "r1";; assert_eq count (MAX_EXECUTABLE_PATTERNS + 1)
  | _ => None
  end.

Definition reject_empty_executable_pattern_toml : test :=
  match load (running [""]) with
  | Err (PLE_Validation (EmptyExecutable i idx)) => assert_eq (id_str i) "r1";; assert_eq idx 0
  | _ => None
  end.

Definition reject_executable_too_long_toml : test :=
  match load (running [repeat_byte "a" (MAX_EXECUTABLE_LENGTH + 1)]) with
  | Err (PLE_Validation (ExecutableTooLong i idx n)) =>
      assert_eq (id_str i) "r1";; assert_eq idx 0;; assert_eq n (MAX_EXECUTABLE_LENGTH + 1)
  | _ => None
  end.

Definition reject_duplicate_executable_toml : test :=
  match load (running ["kubectl"; "kubectl"]) with
  | Err (PLE_Validation (DuplicateExecutable i)) => assert_eq (id_str i) "r1"
  | _ => None
  end.

Definition reject_executable_null_byte_toml : test :=
  match load (running ["kubectl" +:+ byte_string 0]) with
  | Err (PLE_Parse _) => Some tt
  | Err (PLE_Validation (InvalidExecutable i idx)) => assert_eq (id_str i) "r1";; assert_eq idx 0
  | _ => None
  end.

Definition reject_executable_control_char_toml : test :=
  match load (running ["kubectl" +:+ byte_string 10]) with
  | Err (PLE_Validation (InvalidExecutable i idx)) => assert_eq (id_str i) "r1";; assert_eq idx 0
  | _ => None
  end.

(** *** Conditions on endpoints, secrets and tools *)

Definition parse_network_hosts : test :=
  p ← unwrap (load (one_rule "net-policy"
    [("operations", L ["network_request"]); ("network_hosts", L ["example.com"; "internal.org"])]));
  r ← nth_rule p 0; assert_eq (network_hosts (rule_conditions r)) (Some ["example.com"; "internal.org"]).

Definition parse_network_schemes : test :=
  p ← unwrap (load (one_rule "scheme-policy" [("operations", L ["network_request"]); ("network_schemes", L ["https"; "wss"])]));
  r ← nth_rule p 0; assert_eq (network_schemes (rule_conditions r)) (Some ["https"; "wss"]).

Definition parse_secret_identifiers : test :=
  p ← unwrap (load (one_rule "secret-policy"
    [("operations", L ["secret_access"]); ("secret_identifiers", L ["db_password"; "api_key"])]));
  r ← nth_rule p 0; assert_eq (secret_identifiers (rule_conditions r)) (Some ["db_password"; "api_key"]).

Definition parse_tool_identifiers : test :=
  p ← unwrap (load (one_rule "tool-policy" [("operations", L ["tool_invoke"]); ("tool_identifiers", L ["kubectl"; "docker"])]));
  r ← nth_rule p 0; assert_eq (tool_identifiers (rule_conditions r)) (Some ["kubectl"; "docker"]).

Definition reject_empty_network_hosts_toml : test :=
  match load (contacting []) with
  | Err (PLE_Validation (EmptyNetworkHosts i)) => assert_eq (id_str i) "r1"
  | _ => None
  end.

Definition reject_empty_network_schemes_toml : test :=
  match load (one_rule "test" [("operations", L ["network_request"]); ("network_schemes", L [])]) with
  | Err (PLE_Validation (EmptyNetworkSchemes i)) => assert_eq (id_str i) "r1"
  | _ => None
  end.

Definition reject_empty_secret_identifiers_toml : test :=
  match load (one_rule "test" [("operations", L ["secret_access"]); ("secret_identifiers", L [])]) with
  | Err (PLE_Validation (EmptySecretIdentifiers i)) => assert_eq (id_str i) "r1"
  | _ => None
  end.

Definition reject_empty_tool_identifiers_toml : test :=
  match load (one_rule "test" [("operations", L ["tool_invoke"]); ("tool_identifiers", L [])]) with
  | Err (PLE_Validation (EmptyToolIdentifiers i)) => assert_eq (id_str i) "r1"
  | _ => None
  end.

Definition reject_too_many_network_hosts_toml : test :=
  match load (contacting (too_many MAX_NETWORK_HOST_PATTERNS (fun i => "host-" +:+ dec i +:+ ".com"))) with
  | Err (PLE_Validation (TooManyNetworkHosts i count)) =>
      assert_eq (id_str i) "r1";; assert_eq count (MAX_NETWORK_HOST_PATTERNS + 1)
  | _ => None
  end.

Definition reject_duplicate_network_host_toml : test :=
  match load (contacting ["example.com"; "example.com"]) with
  | Err (PLE_Validation (DuplicateNetworkHost i)) => assert_eq (id_str i) "r1"
  | _ => None
  end.

Definition reject_network_host_control_char_toml : test :=
  match load (contacting ["example.com" +:+ byte_string 10]) with
  | Err (PLE_Validation (InvalidNetworkHost i idx)) => assert_eq (id_str i) "r1";; assert_eq idx 0
  | _ => None
  end.

Definition connecting (ports : list Z) : TomlValue :=
  one_rule "test" [("operations", L ["network_request"]); ("network_ports", TV_Array (map TV_Int ports))].

Definition parse_network_ports : test :=
  p ← unwrap (load (one_rule "port-policy"
    [("operations", L ["network_request"]); ("network_ports", TV_Array (map TV_Int [443; 80; 8080]))]));
  r ← nth_rule p 0; assert_eq (network_ports (rule_conditions r)) (Some [443; 80; 8080]).

Definition reject_empty_network_ports_toml : test :=
  match load (connecting []) with
  | Err (PLE_Validation (EmptyNetworkPorts i)) => assert_eq (id_str i) "r1"
  | _ => None
  end.

Definition reject_duplicate_network_port_toml : test :=
  match load (connecting [443; 443]) with
  | Err (PLE_Validation (DuplicateNetworkPort i)) => assert_eq (id_str i) "r1"
  | _ => None
  end.

(** *** All of them *)

Example io_tests : passes
    [parse_minimal_policy; parse_full_policy; parse_approval_default_effect;
     parse_require_approval_rule_effect; parse_rule_without_conditions_is_rejected;
     duplicate_rule_ids_are_rejected; reject_empty_rule_id; reject_empty_policy_id;
     reject_unsupported_schema_version; reject_invalid_toml; reject_missing_rule_effect;
     reject_invalid_effect_string; reject_invalid_resource_kind; reject_invalid_trust_level;
     reject_allow_default_effect; reject_empty_rules_conditions; reject_missing_schema_version;
     reject_unknown_top_level_field; reject_unknown_policy_header_field; reject_unknown_rule_field;
     reject_unknown_conditions_field; parse_path_globs; reject_invalid_glob_pattern;
     reject_empty_path_globs_toml; reject_too_many_path_globs_toml; reject_empty_glob_pattern_toml;
     reject_glob_pattern_too_long_toml; reject_duplicate_glob_pattern_toml;
     reject_path_glob_null_byte_toml; reject_path_glob_control_char_toml; reject_file_too_large;
     parse_executables; parse_argument_rules; reject_empty_argument_rules_toml;
     reject_empty_executables_toml; reject_too_many_executables_toml;
     reject_empty_executable_pattern_toml; reject_executable_too_long_toml;
     reject_duplicate_executable_toml; reject_executable_null_byte_toml;
     reject_executable_control_char_toml; parse_network_hosts; parse_network_schemes;
     parse_secret_identifiers; parse_tool_identifiers; reject_empty_network_hosts_toml;
     reject_empty_network_schemes_toml; reject_empty_secret_identifiers_toml;
     reject_empty_tool_identifiers_toml; reject_too_many_network_hosts_toml;
     reject_duplicate_network_host_toml; reject_network_host_control_char_toml;
     parse_network_ports; reject_empty_network_ports_toml; reject_duplicate_network_port_toml] = true.
Proof. vm_compute. reflexivity. Qed.

End IoTests.
