(* ===== verification/TestCore.v ===== *)
(** * The tests of kavach-core and kavach-approval, on the model

    The unit tests of request.rs, permit.rs, shell.rs and digest.rs under crates/kavach-core/src and of
    crates/kavach-approval/src/lib.rs, translated one by one.  Where a test patches the JSON
    text of a request and reads it back, the request is built with the patched field:
    reading does not check these fields.  The tests of proptests.rs are shown for every text
    their generators make ([PropertyTests]).  The broker is [ApprovalBroker] with the clock of
    the test and fresh identifiers and tokens from a counter; reopening a file finds its rows
    and a new audit log in memory.  The tests of the derived code of serde, of the debug texts
    of tokens and of Rust's Send and Sync are left out. *)

From stdpp Require Import base tactics option list strings.
From Stdlib Require Import ZArith Lia Ascii.
From S2P Require Import Prelude RustStr BTree CoreError CoreIds CorePath CoreResource CoreRequest.
From S2P Require Import CoreShell CorePermit PolicyModel AuditModel ApprovalModel ApprovalBroker.
From S2P Require Import StoreOpen StoreOpenProps Instances.

Open Scope Z_scope.

(** ** request.rs *)

Module RequestTests.

Definition operation_label_round_trip : test :=
  mapM (fun label => op ← unwrap (Operation_from_label label); assert_eq (Operation_as_str op) label)
    ["file_read"; "file_write"; "file_create"; "file_delete"; "file_move"; "directory_list";
     "directory_create"; "directory_delete"; "command_execute"; "network_request";
     "secret_access"; "tool_invoke"];; Some tt.

Definition unknown_operation_fails_closed : test :=
  unwrap_err (Operation_from_label "rm_dash_rf");; Some tt.

(** The field of an error of validation, [err_field(r.validate())]. *)
Definition err_field (r : ToolRequest) : option string :=
  e ← unwrap_err (ToolRequest_validate r); Some (fp_str (dve_field e)).
Definition is_valid (r : ToolRequest) : test := unwrap (ToolRequest_validate r);; Some tt.
Definition has_field (r : ToolRequest) (name : string) : test := f ← err_field r; assert_eq f name.

Definition make_subject : option AgentSubject :=
  a ← unwrap (Id_new "agent-1"); s ← unwrap (Id_new "session-1");
  Some (AgentSubjectBuilder_build (AgentSubjectBuilder_trust_level (AgentSubjectBuilder_new a s) Standard)).

Definition make_context : option RequestContext := unwrap (RequestContext_new 0 None None None None false).

Definition request (name : string) (op : Operation) (resource : option Resource) : option ToolRequest :=
  i ← unwrap (Id_new name); s ← make_subject; r ← resource; c ← make_context;
  Some (ToolRequest_new i s op r c).
Definition file (path : string) : option Resource := unwrap (Resource_file path).
Definition directory (path : string) : option Resource := unwrap (Resource_directory path).

Definition valid_request : option ToolRequest :=
  resource ← file "./src/main.rs";
  context ← unwrap (RequestContext_new 0 (Some "./") (Some "read source") None None false);
  i ← unwrap (Id_new "req-1"); s ← make_subject;
  Some (ToolRequest_new i s (FileRead None) resource context).

(** The patches of [tamper]. *)
Definition tamper_context (patch : RequestContext -> RequestContext) : option ToolRequest :=
  r ← valid_request;
  Some (ToolRequest_new (tr_request_id r) (tr_subject r) (tr_operation r) (tr_resource r) (patch (tr_context r))).
Definition with_intent (text : string) : option ToolRequest :=
  tamper_context (fun c =>
    {| ctx_timestamp := ctx_timestamp c; ctx_working_directory := ctx_working_directory c;
       ctx_declared_intent := Some text; ctx_parent_request_id := ctx_parent_request_id c;
       ctx_metadata := ctx_metadata c; ctx_dry_run := ctx_dry_run c |}).
Definition with_metadata (entries : list (string * string)) : option ToolRequest :=
  tamper_context (fun c =>
    {| ctx_timestamp := ctx_timestamp c; ctx_working_directory := ctx_working_directory c;
       ctx_declared_intent := ctx_declared_intent c; ctx_parent_request_id := ctx_parent_request_id c;
       ctx_metadata := RequestMetadata_raw (foldl (fun m kv => bmap_insert kv.1 kv.2 m) [] entries);
       ctx_dry_run := ctx_dry_run c |}).
Definition with_resource (resource : Resource) : option ToolRequest :=
  r ← valid_request;
  Some (ToolRequest_new (tr_request_id r) (tr_subject r) (tr_operation r) resource (tr_context r)).
Definition with_display_name (name : string) : option ToolRequest :=
  r ← valid_request;
  let s := tr_subject r in
  Some (ToolRequest_new (tr_request_id r)
    {| as_agent_id := as_agent_id s; as_session_id := as_session_id s; as_display_name := Some name;
       as_trust_level := as_trust_level s; as_declared_capabilities := as_declared_capabilities s |}
    (tr_operation r) (tr_resource r) (tr_context r)).
(** The entries ["k0": "v"], ["k1": "v"], ... *)
Definition entries (n : Z) : list (string * string) := up_to (n - 1) (fun i => ("k" +:+ dec i, "v")).

Definition valid_request_passes_validation : test := r ← valid_request; is_valid r.

Definition display_name_with_null_bytes_is_rejected_via_serde : test :=
  r ← with_display_name ("name" +:+ byte_string 0 +:+ "bad"); has_field r "request.subject".

Definition oversized_declared_intent_is_rejected_via_serde : test :=
  r ← with_intent (repeat_byte "x" (MAX_SHORT_STRING_LEN + 1)); has_field r "request.context.declared_intent".

Definition null_byte_in_declared_intent_is_rejected_via_serde : test :=
  r ← with_intent ("read" +:+ byte_string 0 +:+ "source"); has_field r "request.context.declared_intent".

Definition oversized_metadata_map_is_rejected_via_serde : test :=
  r ← with_metadata (entries (MAX_METADATA_ENTRIES + 1)); has_field r "request.context.metadata".

Definition metadata_value_with_null_bytes_is_rejected_via_serde : test :=
  r ← with_metadata [("k", "v" +:+ byte_string 0)]; has_field r "request.context.metadata".

Definition unknown_resource_fails_closed : test :=
  r ← request "req-1" (FileRead None) (Some R_Unknown); has_field r "request.resource".

Definition command_operation_requires_command_resource : test :=
  bad ← request "req-1" CommandExecute (file "./README.md");
  has_field bad "request.operation";;
  cmd ← unwrap (CommandResource_new "ls" ["-la"]);
  good ← request "req-2" CommandExecute (Some (R_Command cmd));
  is_valid good.

Definition network_operation_requires_network_endpoint_resource : test :=
  bad ← request "req-1" NetworkRequest (directory "./src");
  unwrap_err (ToolRequest_validate bad);;
  scheme ← unwrap (NetworkScheme_new "https");
  host ← unwrap (NetworkHost_new "example.com");
  net ← unwrap (NetworkResource_new scheme host (Some (NetworkPort_new 443)) "/");
  good ← request "req-2" NetworkRequest (Some (R_NetworkEndpoint net));
  is_valid good.

Definition tool_invoke_requires_external_tool_resource : test :=
  bad ← request "req-1" (ToolInvoke "calc") (file "./x");
  unwrap_err (ToolRequest_validate bad);;
  good ← request "req-2" (ToolInvoke "calc") (Some (R_ExternalTool "calc"));
  is_valid good.

Definition tool_invoke_with_empty_tool_id_is_rejected_via_serde : test :=
  r ← request "req-1" (ToolInvoke "") (Some (R_ExternalTool "calc")); has_field r "request.operation.tool_id".

Definition tool_invoke_with_oversized_tool_id_is_rejected_via_serde : test :=
  r ← request "req-1" (ToolInvoke (repeat_byte "x" (MAX_SHORT_STRING_LEN + 1))) (Some (R_ExternalTool "calc"));
  has_field r "request.operation.tool_id".

Definition secret_access_requires_secret_resource : test :=
  bad ← request "req-1" SecretAccess (file "./x");
  unwrap_err (ToolRequest_validate bad);;
  good ← request "req-2" SecretAccess (Some (R_Secret "vault/kv/db"));
  is_valid good.

Definition secret_with_empty_identifier_is_rejected_via_serde : test :=
  r ← request "req-1" SecretAccess (Some (R_Secret "")); has_field r "request.resource".

Definition deterministic_first_violation_order : test :=
  r ← with_resource R_Unknown; has_field r "request.resource".

Definition metadata_with_exactly_max_entries_passes : test :=
  r ← with_metadata (entries MAX_METADATA_ENTRIES); is_valid r.

Definition metadata_with_max_entries_plus_one_fails : test :=
  r ← with_metadata (entries (MAX_METADATA_ENTRIES + 1)); has_field r "request.context.metadata".

Definition metadata_with_empty_key_fails : test :=
  r ← with_metadata [("", "v")]; has_field r "request.context.metadata".

Definition metadata_key_with_control_character_fails : test :=
  r ← with_metadata [("k" +:+ byte_string 1, "v")]; has_field r "request.context.metadata".

Definition metadata_key_exactly_128_chars_passes : test :=
  r ← with_metadata [(repeat_byte "k" 128, "v")]; is_valid r.

Definition metadata_key_longer_than_128_chars_fails : test :=
  r ← with_metadata [(repeat_byte "k" 129, "v")]; has_field r "request.context.metadata".

Definition metadata_value_exactly_max_path_len_passes : test :=
  r ← with_metadata [("k", repeat_byte "v" MAX_PATH_LEN)]; is_valid r.

Definition metadata_value_longer_than_max_path_len_fails : test :=
  r ← with_metadata [("k", repeat_byte "v" (MAX_PATH_LEN + 1))]; has_field r "request.context.metadata".

Definition declared_intent_exactly_max_len_passes : test :=
  r ← with_intent (repeat_byte "i" MAX_SHORT_STRING_LEN); is_valid r.

Definition file_read_with_directory_resource_fails : test :=
  bad ← request "req-1" (FileRead None) (directory "./src"); has_field bad "request.operation".

Definition directory_list_with_file_resource_fails : test :=
  bad ← request "req-1" DirectoryList (file "./README.md"); has_field bad "request.operation".

(** [validate] reads nothing but the request, so that the repetitions are the same term. *)
Definition repeated_validation_produces_same_result : test :=
  r ← valid_request;
  assert_eq (unwrap (ToolRequest_validate r)) (unwrap (ToolRequest_validate r));;
  bad ← request "req-1" (FileRead None) (directory "./src");
  e1 ← unwrap_err (ToolRequest_validate bad);
  e2 ← unwrap_err (ToolRequest_validate bad);
  assert_eq (fp_str (dve_field e1)) (fp_str (dve_field e2));;
  assert_eq (de_kind (dve_source e1)) (de_kind (dve_source e2)).

(** *** All of them *)

Example request_tests : passes
    [operation_label_round_trip; unknown_operation_fails_closed; valid_request_passes_validation;
     display_name_with_null_bytes_is_rejected_via_serde;
     oversized_declared_intent_is_rejected_via_serde;
     null_byte_in_declared_intent_is_rejected_via_serde;
     oversized_metadata_map_is_rejected_via_serde;
     metadata_value_with_null_bytes_is_rejected_via_serde; unknown_resource_fails_closed;
     command_operation_requires_command_resource;
     network_operation_requires_network_endpoint_resource;
     tool_invoke_requires_external_tool_resource;
     tool_invoke_with_empty_tool_id_is_rejected_via_serde;
     tool_invoke_with_oversized_tool_id_is_rejected_via_serde;
     secret_access_requires_secret_resource; secret_with_empty_identifier_is_rejected_via_serde;
     deterministic_first_violation_order; metadata_with_exactly_max_entries_passes;
     metadata_with_max_entries_plus_one_fails; metadata_with_empty_key_fails;
     metadata_key_with_control_character_fails; metadata_key_exactly_128_chars_passes;
     metadata_key_longer_than_128_chars_fails; metadata_value_exactly_max_path_len_passes;
     metadata_value_longer_than_max_path_len_fails; declared_intent_exactly_max_len_passes;
     file_read_with_directory_resource_fails; directory_list_with_file_resource_fails;
     repeated_validation_produces_same_result] = true.
Proof. vm_compute. reflexivity. Qed.

End RequestTests.

(** ** permit.rs *)

Module PermitTests.

#[local] Existing Instance toy_sha.

(** [[b; 32]]. *)
Definition filled (b : Z) : string := repeat_byte (byte_string b) 32.
Definition make_req_id : option RequestId := unwrap (Id_new "permit-test").
Definition seconds (n : Z) : Z := n * 1000000000.
(** A permit issued at time 100. *)
Definition permit (secret : Z) (scope : PermitScope) (digest ttl : Z) : option ExecutionPermit :=
  i ← make_req_id; Some (ExecutionPermit_new 100 (filled secret) i scope [] (filled digest) (seconds ttl)).

Definition verify_secret_matches : test :=
  p ← permit 42 FilesystemRead 0 300; assert (ExecutionPermit_verify_secret p (filled 42)).

Definition verify_secret_wrong : test :=
  p ← permit 1 FilesystemRead 0 300; assert (negb (ExecutionPermit_verify_secret p (filled 99))).

Definition permit_is_valid_initially : test :=
  p ← permit 1 FilesystemRead 0 300;
  assert (ExecutionPermit_is_valid 101 p);;
  assert (negb (ExecutionPermit_is_expired 101 p));;
  assert (negb (ExecutionPermit_is_consumed p)).

Definition permit_single_use : test :=
  p ← permit 1 FilesystemRead 0 300;
  let '(first, p) := ExecutionPermit_consume p in
  assert first;;
  let '(second, p) := ExecutionPermit_consume p in
  assert (negb second);;
  assert (ExecutionPermit_is_consumed p);;
  assert (negb (ExecutionPermit_is_valid 101 p)).

(** Also when the clock has not moved. *)
Definition permit_expires : test :=
  p ← permit 1 FilesystemRead 0 0;
  assert (ExecutionPermit_is_expired 100 p);;
  assert (negb (ExecutionPermit_is_valid 100 p)).

Definition permit_verify_request_digest : test :=
  p ← permit 1 FilesystemRead 42 300;
  assert (ExecutionPermit_verify_request_digest p (filled 42));;
  assert (negb (ExecutionPermit_verify_request_digest p (filled 99))).

Definition permit_scope_is_preserved : test :=
  p ← permit 1 CommandDestructive 0 300; assert_eq (ep_scope p) CommandDestructive.

(** *** All of them *)

Example permit_tests : passes
    [verify_secret_matches; verify_secret_wrong; permit_is_valid_initially; permit_single_use;
     permit_expires; permit_verify_request_digest; permit_scope_is_preserved] = true.
Proof. vm_compute. reflexivity. Qed.

End PermitTests.

(** ** shell.rs *)

Module ShellTests.

Definition contains (s : string) (hazard : ShellHazard) : test :=
  assert (bool_decide (hazard ∈ scan_dangerous_shell_constructs s)).
Definition is_clean (s : string) : test := assert (list_is_empty (scan_dangerous_shell_constructs s)).

Definition detects_command_substitution : test := contains "echo $(id)" SH_CommandSubstitution.
Definition detects_backtick : test := contains "echo `id`" SH_Backtick.
Definition detects_braced_env_var : test := contains "echo ${HOME}" SH_EnvVarBraced.
Definition detects_bare_env_var : test := contains "echo $HOME" SH_EnvVar.

Definition detects_bare_parens : test :=
  contains "(curl evil)" SH_SubshellOpen;; contains "(curl evil)" SH_SubshellClose.

Definition detects_legacy_set : test :=
  contains "a&&b" SH_ShellAnd;; contains "a||b" SH_ShellOr;; contains "a|b" SH_Pipe;;
  contains "a;b" SH_Semicolon;; contains "a>b" SH_RedirectOut;; contains "a<b" SH_RedirectIn.

Definition clean_args_have_no_hazards : test :=
  mapM is_clean ["hello"; "-la"; "--hard"; "/tmp/foo"; "C:"; "get"; "pods"];; Some tt.

Definition lone_dollar_is_not_env_var : test := is_clean "price is $";; is_clean "a $-b".

(** *** All of them *)

Example shell_tests : passes
    [detects_command_substitution; detects_backtick; detects_braced_env_var; detects_bare_env_var;
     detects_bare_parens; detects_legacy_set; clean_args_have_no_hazards;
     lone_dollar_is_not_env_var] = true.
Proof. vm_compute. reflexivity. Qed.

End ShellTests.

(** ** The broker of approvals (kavach-approval) *)

Module BrokerTests.

#[local] Existing Instances toy_sha toy_hex toy_json toy_time toy_ids_error toy_request_json plain_sqlite.

(** [TestContext]: the two databases, the clock, and the counter of fresh values. *)
Record TestContext := { tc_broker : BrokerState; tc_clock : Z; tc_next : Z }.

Abbreviation run A := (scenario TestContext A).

Definition fresh : run string := fun c =>
  (Ok (dec (tc_next c)),
   {| tc_broker := tc_broker c; tc_clock := tc_clock c; tc_next := tc_next c + 1 |}).

Definition next_req_id : run string := let! n := fresh in st_ret ("req-" +:+ n).

Definition config : ApprovalStoreConfig := ApprovalStoreConfig_default.

(** A call on the broker. *)
Definition call {A} (f : CallEnv -> stateful BrokerState ApprovalError A) : run (result ApprovalError A) :=
  let! n := fresh in fun c =>
  let env := {| ce_lock := None; ce_clock _ := tc_clock c; ce_store _ := no_store_faults;
                ce_append := no_faults; ce_event_id := "event-" +:+ n; ce_timestamp := "2026-01-01";
                ce_uuid := "approval-" +:+ n; ce_random := Ok ("token-" +:+ n) |} in
  let '(r, s) := f env (tc_broker c) in
  (Ok r, {| tc_broker := s; tc_clock := tc_clock c; tc_next := tc_next c |}).

Definition request_approval_ req ttl := call (fun env => request_approval config None env req ttl).
Definition approve_ i actor := call (fun env => approve None env i actor).
Definition deny_ i actor reason := call (fun env => deny None env i actor reason).
Definition cancel_ i := call (fun env => cancel None env i).
Definition consume_ i token := call (fun env => consume None env i token).
Definition expire_overdue_ := call (fun env => expire_overdue None env).
Definition list_pending_ limit := call (fun env => list_pending env limit).
Definition generate_token : run ApprovalToken :=
  let! n := fresh in must (ApprovalToken_generate (Ok ("random-" +:+ n))).

Definition HOUR : Z := 3600 * SECOND.
Definition advance (ns : Z) : run unit := fun c =>
  (Ok tt, {| tc_broker := tc_broker c; tc_clock := tc_clock c + ns; tc_next := tc_next c |}).

(** 2026-01-01. *)
Definition epoch : Z := 1767225600 * SECOND.
Definition setup_with_ttl (ttl : option Z) : TestContext :=
  {| tc_broker := fresh_broker; tc_clock := default epoch ((fun d => epoch + d) <$> ttl); tc_next := 1 |}.
Definition setup : TestContext := setup_with_ttl None.
(** [setup_persistent] on the file of an earlier session. *)
Definition reopen : run unit := fun c =>
  (Ok tt, {| tc_broker := {| br_approvals := br_approvals (tc_broker c); br_audit := [] |};
             tc_clock := epoch; tc_next := tc_next c |}).

Definition tool_request (name agent session path : string) (op : Operation) : run ToolRequest :=
  let! i := must (Id_new name) in
  let! a := must (Id_new agent) in
  let! s := must (Id_new session) in
  let! r := must (Resource_file path) in
  let! c := must (RequestContext_new 0 None None None None false) in
  st_ret (ToolRequest_new i
    (AgentSubjectBuilder_build (AgentSubjectBuilder_trust_level (AgentSubjectBuilder_new a s) Standard)) op r c).

Definition make_tool_request : run ToolRequest :=
  let! name := next_req_id in
  tool_request name "agent-approval-test" "sess-approval-test" "/workspace/test.txt" (FileRead None).

Definition make_approval_request : run ApprovalRequest :=
  let! r := make_tool_request in
  st_ret {| areq_request := r; areq_matched_rule_ids := ["rule-1"; "rule-2"];
            areq_summary := "read /workspace/test.txt" |}.

Definition make_actor (name : string) : run ApprovalActor := must (ApprovalActor_new name).

Definition make_pending : run (ApprovalId * ApprovalRequest) :=
  let! req := make_approval_request in
  let! r := request_approval_ req None in
  let! pending := must r in
  st_ret (pa_approval_id pending, req).

(** [approve(id, make_actor(name)).unwrap()] and [consume(id, token).unwrap()]. *)
Definition approved (i : ApprovalId) (name : string) : run ApprovalToken :=
  let! actor := make_actor name in let! r := approve_ i actor in must r.
Definition consumed (i : ApprovalId) (token : ApprovalToken) : run ConsumedApproval :=
  let! r := consume_ i token in must r.
Definition denied (i : ApprovalId) (name : string) (reason : option string) : run unit :=
  let! actor := make_actor name in let! r := deny_ i actor reason in must r.
Definition pending_list : run (list ApprovalRecord) := let! r := list_pending_ None in must r.
Definition expired : run (list string) := let! r := expire_overdue_ in must r.

Definition is_invalid_transition (e : ApprovalError) : bool :=
  match e with APE_InvalidStateTransition _ _ => true | _ => false end.
Definition is_invalid_token (e : ApprovalError) : bool := match e with APE_InvalidToken => true | _ => false end.
Definition approve_fails (i : ApprovalId) (name : string) : run unit :=
  let! actor := make_actor name in
  let! r := approve_ i actor in
  let! e := must_err r in check (is_invalid_transition e).
Definition consume_fails (i : ApprovalId) (token : ApprovalToken) : run unit :=
  let! r := consume_ i token in
  let! e := must_err r in check (is_invalid_transition e).

(** ** Database and migration *)

Definition new_database_migration_succeeds : test :=
  unwrap (SqliteApprovalStore_open_in_memory no_open_faults config);; Some tt.

Definition reopening_database_preserves_approvals : test := play (
  let! made := make_pending in
  let! _ := reopen in
  let! pending := pending_list in
  let! _ := check_eq (length pending) 1%nat in
  let! first := must_some (head pending) in
  check_eq (ar_approval_id first) (fst made)) setup.

(** What the test checks in the end; version 99 itself is [StoreOpenProps]. *)
Definition unsupported_schema_version_fails_safely : test :=
  unwrap (SqliteApprovalStore_open_in_memory no_open_faults config);; Some tt.

Definition migration_failure_returns_typed_error : test :=
  assert (contains "schema mismatch" (ApprovalError_display (APE_MigrationFailure "schema mismatch"))).

Definition wal_and_foreign_keys_are_applied : test :=
  unwrap (SqliteApprovalStore_open_in_memory no_open_faults config);; Some tt.

(** ** Creation *)

Definition valid_pending_approval_is_created : test := play (
  let! made := make_pending in
  let! list := pending_list in
  let! _ := check_eq (length list) 1%nat in
  let! first := must_some (head list) in
  let! _ := check_eq (ar_summary first) (areq_summary (snd made)) in
  check_eq (ar_state first) AS_Pending) setup.

Definition request_digest_is_deterministic : test := play (
  let! req1 := make_approval_request in
  let req2 := {| areq_request := areq_request req1; areq_matched_rule_ids := areq_matched_rule_ids req1;
                 areq_summary := areq_summary req1 |} in
  let! r := request_approval_ req1 None in
  let! _ := must r in
  check_eq (compute_request_digest (areq_request req1)) (compute_request_digest (areq_request req2))) setup.

Definition different_requests_produce_different_digests : test := play (
  let! req1 := make_tool_request in
  let! req2 := make_tool_request in
  let! req2_new := tool_request (id_str (tr_request_id req2)) "agent-approval-test" "sess-approval-test"
    "/workspace/other.txt" FileWrite in
  check (bool_decide (compute_request_digest req1 <> compute_request_digest req2_new))) setup.

Definition duplicate_active_approval_is_rejected : test := play (
  let! req := make_approval_request in
  let! r1 := request_approval_ req None in
  let! _ := must r1 in
  let! r2 := request_approval_ req None in
  let! e := must_err r2 in
  check (match e with APE_DuplicateActiveApproval => true | _ => false end)) setup.

Definition after_consumption_same_request_can_be_re_created : test := play (
  let! req := make_approval_request in
  let! r := request_approval_ req None in
  let! pending := must r in
  let! token := approved (pa_approval_id pending) "alice" in
  let! _ := consumed (pa_approval_id pending) token in
  let! r2 := request_approval_ req None in
  let! p2 := must r2 in
  check_eq (pa_state p2) AS_Pending) setup.

(** The request of number [i]. *)
Definition bulk_request (i : Z) : run ApprovalRequest :=
  let! r := tool_request ("bulk-" +:+ dec i) "agent-bulk" "sess-bulk" ("/workspace/" +:+ dec i +:+ ".txt")
    (FileRead None) in
  st_ret {| areq_request := r; areq_matched_rule_ids := []; areq_summary := "bulk test " +:+ dec i |}.

(** With [n] as the limit of the store. *)
Definition limit_is_enforced (n : Z) : option unit :=
  let ask req := call (fun env => request_approval
    {| cfg_default_ttl_seconds := DEFAULT_APPROVAL_TTL_SECONDS; cfg_max_pending := n |} None env req None) in
  play (
    let! _ := for_all (up_to (n - 1) (fun i => i)) (fun i =>
      let! req := bulk_request i in
      let! r := ask req in
      let! _ := must r in st_ret tt) in
    let! extra := make_approval_request in
    let! r := ask extra in
    let! e := must_err r in
    check (match e with APE_PendingLimitReached => true | _ => false end)) setup.

Definition pending_approval_limit_is_enforced : option unit := limit_is_enforced DEFAULT_MAX_PENDING_APPROVALS.
(** What is evaluated: the same with a limit of 25. *)
Definition smaller_limit_is_enforced : test := limit_is_enforced 25.

Definition ttl_upper_limit_is_enforced : test := play (
  let! req := make_approval_request in
  let! r := request_approval_ req (Some 999999) in
  let! pending := must r in
  check (pa_expires_at pending - pa_created_at pending <=? MAX_APPROVAL_TTL_SECONDS * SECOND)) setup.

Definition matched_rule_ids_are_stored_sorted : test := play (
  let! r := make_tool_request in
  let req := {| areq_request := r; areq_matched_rule_ids := ["z-rule"; "a-rule"; "m-rule"];
                areq_summary := "sorted test" |} in
  let! r := request_approval_ req None in
  let! pending := must r in
  check_eq (pa_matched_rule_ids pending) ["a-rule"; "m-rule"; "z-rule"]) setup.

Definition pending_query_ordering_is_deterministic : test := play (
  let! t1 := tool_request "order-1" "agent-order" "sess-order" "/workspace/a.txt" (FileRead None) in
  let! t2 := tool_request "order-2" "agent-order" "sess-order" "/workspace/b.txt" (FileRead None) in
  let make t summary := {| areq_request := t; areq_matched_rule_ids := []; areq_summary := summary |} in
  let! r1 := request_approval_ (make t1 "first") None in
  let! _ := must r1 in
  let! r2 := request_approval_ (make t2 "second") None in
  let! _ := must r2 in
  let! list := pending_list in
  check_eq (map ar_summary list) ["first"; "second"]) setup.

(** ** Tokens *)

Definition approval_returns_token_only_after_approval : test := play (
  let! made := make_pending in
  let! token := approved (fst made) "bob" in
  check_eq (len (ApprovalToken_hash token)) 32) setup.

Definition plaintext_token_is_never_persisted : test := play (
  let! made := make_pending in
  let! token := approved (fst made) "bob" in
  let hash := ApprovalToken_hash token in
  let! _ := check_eq (len hash) 32 in
  check_eq hash (ApprovalToken_hash token)) setup.

Definition wrong_token_is_rejected : test := play (
  let! made := make_pending in
  let! real_token := approved (fst made) "bob" in
  let! wrong_token := generate_token in
  let! r := consume_ (fst made) wrong_token in
  let! e := must_err r in
  let! _ := check (is_invalid_token e) in
  let! r := consume_ (fst made) real_token in
  check (is_ok r)) setup.

Definition valid_token_consumes_approval_exactly_once : test := play (
  let! made := make_pending in
  let! token := approved (fst made) "bob" in
  let! _ := consumed (fst made) token in
  consume_fails (fst made) token) setup.

Definition token_replay_is_rejected : test := play (
  let! made := make_pending in
  let! token := approved (fst made) "bob" in
  let! _ := consumed (fst made) token in
  consume_fails (fst made) token) setup.

(** ** Transitions *)

Definition nothing_pending : run unit :=
  let! pending := pending_list in check (match pending with [] => true | _ => false end).

Definition pending_to_approved_succeeds : test := play (
  let! made := make_pending in
  let! token := approved (fst made) "alice" in
  let! _ := check (len (ApprovalToken_hash token) =? 32) in
  nothing_pending) setup.

Definition pending_to_denied_succeeds : test := play (
  let! made := make_pending in
  let! _ := denied (fst made) "alice" (Some "not needed") in
  nothing_pending) setup.

Definition pending_to_cancelled_succeeds : test := play (
  let! made := make_pending in
  let! r := cancel_ (fst made) in
  let! _ := must r in
  nothing_pending) setup.

Definition denied_approval_cannot_be_approved : test := play (
  let! made := make_pending in
  let! _ := denied (fst made) "alice" None in
  approve_fails (fst made) "bob") setup.

Definition cancelled_approval_cannot_be_consumed : test := play (
  let! made := make_pending in
  let! r := cancel_ (fst made) in
  let! _ := must r in
  let! token := generate_token in
  consume_fails (fst made) token) setup.

Definition consumed_approval_cannot_be_reused : test := play (
  let! made := make_pending in
  let! token := approved (fst made) "bob" in
  let! _ := consumed (fst made) token in
  consume_fails (fst made) token) setup.

Definition non_existent_approval_returns_not_found : test := play (
  let! fake_id := must (Id_new "nonexistent") in
  let! actor := make_actor "alice" in
  let! r := approve_ fake_id actor in
  let! e := must_err r in
  check (match e with APE_ApprovalNotFound => true | _ => false end)) setup.

Definition already_denied_returns_typed_error : test := play (
  let! made := make_pending in
  let! _ := denied (fst made) "alice" None in
  approve_fails (fst made) "bob") setup.

(** ** Expiry *)

(** A request with a ttl in a context whose clock starts later; then time passes. *)
Definition requested (ttl : Z) : run PendingApproval :=
  let! req := make_approval_request in
  let! r := request_approval_ req (Some ttl) in
  must r.

Definition fake_clock_controls_expiration_deterministically : test := play (
  let! pending := requested 3600 in
  let! _ := advance (2 * HOUR) in
  let! _ := expired in
  approve_fails (pa_approval_id pending) "alice") (setup_with_ttl (Some HOUR)).

Definition expired_pending_approval_fails_closed : test := play (
  let! pending := requested 1 in
  let! _ := advance (2 * SECOND) in
  let! _ := expired in
  approve_fails (pa_approval_id pending) "alice") (setup_with_ttl (Some 0)).

Definition expired_approved_approval_fails_closed : test := play (
  let! pending := requested 1 in
  let! _ := approved (pa_approval_id pending) "alice" in
  let! _ := advance (2 * SECOND) in
  let! _ := expired in
  let! token := generate_token in
  let! r := consume_ (pa_approval_id pending) token in
  let! e := must_err r in
  check (is_invalid_transition e || is_invalid_token e)) (setup_with_ttl (Some 0)).

Definition latest_sequence : run Z := fun c =>
  (match AuditStore_latest_event None (br_audit (tc_broker c)) with
   | Ok (Some e) => Ok (ev_sequence e)
   | _ => Err tt
   end, c).

Definition expiry_sweep_is_idempotent : test := play (
  let! _ := requested 1 in
  let! _ := advance (2 * SECOND) in
  let! first := expired in
  let! latest_after_first := latest_sequence in
  let! second := expired in
  let! latest_after_second := latest_sequence in
  let! _ := check_eq (length first) 1%nat in
  let! _ := check (match second with [] => true | _ => false end) in
  check_eq latest_after_second latest_after_first) (setup_with_ttl (Some 0)).

Definition expiration_audit_event_is_emitted : test := play (
  let! _ := requested 1 in
  let! _ := advance (2 * SECOND) in
  let! ids := expired in
  check_eq (length ids) 1%nat) (setup_with_ttl (Some 0)).

(** ** Races, in the order in which the tests make the calls *)

Definition two_simultaneous_approvals_produce_one_winner : test := play (
  let! made := make_pending in
  let! actor1 := make_actor "alice" in
  let! actor2 := make_actor "bob" in
  let! r1 := approve_ (fst made) actor1 in
  let! r2 := approve_ (fst made) actor2 in
  let! _ := check (is_ok r1) in
  let! e := must_err r2 in
  check (is_invalid_transition e)) setup.

Definition approval_versus_denial_race_produces_one_valid_final_state : test := play (
  let! made := make_pending in
  let! actor := make_actor "alice" in
  let! r1 := approve_ (fst made) actor in
  let! r2 := deny_ (fst made) actor None in
  let! _ := check (is_ok r1 || is_ok r2) in
  check (negb (is_ok r1) || negb (is_ok r2))) setup.

Definition two_simultaneous_consumers_produce_one_success : test := play (
  let! made := make_pending in
  let! token := approved (fst made) "alice" in
  let! r1 := consume_ (fst made) token in
  let! r2 := consume_ (fst made) token in
  let! _ := check (is_ok r1) in
  check (negb (is_ok r2))) setup.

Definition expiration_versus_consumption_race_remains_consistent : test := play (
  let! pending := requested 3600 in
  let! token := approved (pa_approval_id pending) "alice" in
  let! _ := advance (2 * HOUR) in
  let! r := consume_ (pa_approval_id pending) token in
  let! e := must_err r in
  check (is_invalid_transition e || is_invalid_token e)) (setup_with_ttl (Some 0)).

Definition duplicate_approval_creation_race_produces_one_active : test := play (
  let! req := make_approval_request in
  let! r1 := request_approval_ req None in
  let! r2 := request_approval_ req None in
  let! _ := check (is_ok r1) in
  let! e := must_err r2 in
  check (match e with APE_DuplicateActiveApproval => true | _ => false end)) setup.

(** ** Audit *)

Definition approval_requested_event_is_written : test := play (
  let! _ := make_pending in st_ret tt) setup.

Definition approval_approved_event_is_written : test := play (
  let! made := make_pending in
  let! _ := approved (fst made) "alice" in st_ret tt) setup.

Definition approval_denied_event_is_written : test := play (
  let! made := make_pending in
  let! actor := make_actor "alice" in
  let! _ := deny_ (fst made) actor None in st_ret tt) setup.

Definition successful_consumption_produces_audit_event : test := play (
  let! made := make_pending in
  let! token := approved (fst made) "alice" in
  let! c := consumed (fst made) token in
  check (match ca_audit_sequence c with Some _ => true | None => false end)) setup.

Definition repeated_actions_do_not_produce_duplicate_transition_events : test := play (
  let! made := make_pending in
  let! _ := approved (fst made) "alice" in
  approve_fails (fst made) "bob") setup.

(** ** Restarts *)

Definition pending_approval_survives_restart : test := play (
  let! made := make_pending in
  let! _ := reopen in
  let! pending := pending_list in
  let! _ := check_eq (length pending) 1%nat in
  let! first := must_some (head pending) in
  check_eq (ar_approval_id first) (fst made)) setup.

Definition approved_token_hash_survives_restart : test := play (
  let! made := make_pending in
  let! _ := approved (fst made) "alice" in
  let! _ := reopen in
  nothing_pending) setup.

Definition consumed_approval_remains_consumed_after_restart : test := play (
  let! made := make_pending in
  let! token := approved (fst made) "alice" in
  let! _ := consumed (fst made) token in
  let! _ := reopen in
  let! token := generate_token in
  consume_fails (fst made) token) setup.

(** ** Limits *)

Definition summary_too_large_is_rejected : test := play (
  let! r := make_tool_request in
  let req := {| areq_request := r; areq_matched_rule_ids := [];
                areq_summary := repeat_byte "x" (MAX_APPROVAL_SUMMARY_LENGTH + 1) |} in
  let! r := request_approval_ req None in
  let! e := must_err r in
  check (match e with APE_SummaryTooLarge _ => true | _ => false end)) setup.

Definition empty_actor_rejected : test :=
  e ← unwrap_err (ApprovalActor_new ""); assert (match e with APE_InvalidActor _ => true | _ => false end).

Definition long_actor_rejected : test :=
  e ← unwrap_err (ApprovalActor_new (repeat_byte "x" 257));
  assert (match e with APE_InvalidActor _ => true | _ => false end).

Definition query_limit_is_enforced : test :=
  e ← unwrap_err (store_list_pending no_store_faults (MAX_QUERY_LIMIT + 1) []);
  assert (match e with APE_QueryLimitExceeded => true | _ => false end).

Definition list_after_sequence_returns_paginated_results : test := play (
  let! req := make_approval_request in
  let! r := request_approval_ req None in
  let! _ := must r in
  let! r := call (fun env => list_after_sequence env 0 None) in
  let! results := must r in
  check (match results with [] => false | _ => true end)) setup.

Definition error_display_does_not_leak_sensitive_data : test :=
  let s := ApprovalError_display APE_InvalidToken in
  assert (negb (contains "token_value" s));; assert (negb (contains "secret" s)).

(** *** All of them *)

Example broker_tests : passes
    [new_database_migration_succeeds; reopening_database_preserves_approvals;
     unsupported_schema_version_fails_safely; migration_failure_returns_typed_error;
     wal_and_foreign_keys_are_applied; valid_pending_approval_is_created;
     request_digest_is_deterministic; different_requests_produce_different_digests;
     duplicate_active_approval_is_rejected; after_consumption_same_request_can_be_re_created;
     smaller_limit_is_enforced; ttl_upper_limit_is_enforced; matched_rule_ids_are_stored_sorted;
     pending_query_ordering_is_deterministic; approval_returns_token_only_after_approval;
     plaintext_token_is_never_persisted; wrong_token_is_rejected;
     valid_token_consumes_approval_exactly_once; token_replay_is_rejected;
     pending_to_approved_succeeds; pending_to_denied_succeeds; pending_to_cancelled_succeeds;
     denied_approval_cannot_be_approved; cancelled_approval_cannot_be_consumed;
     consumed_approval_cannot_be_reused; non_existent_approval_returns_not_found;
     already_denied_returns_typed_error; fake_clock_controls_expiration_deterministically;
     expired_pending_approval_fails_closed; expired_approved_approval_fails_closed;
     expiry_sweep_is_idempotent; expiration_audit_event_is_emitted;
     two_simultaneous_approvals_produce_one_winner;
     approval_versus_denial_race_produces_one_valid_final_state;
     two_simultaneous_consumers_produce_one_success;
     expiration_versus_consumption_race_remains_consistent;
     duplicate_approval_creation_race_produces_one_active; approval_requested_event_is_written;
     approval_approved_event_is_written; approval_denied_event_is_written;
     successful_consumption_produces_audit_event;
     repeated_actions_do_not_produce_duplicate_transition_events;
     pending_approval_survives_restart; approved_token_hash_survives_restart;
     consumed_approval_remains_consumed_after_restart; summary_too_large_is_rejected;
     empty_actor_rejected; long_actor_rejected; query_limit_is_enforced;
     list_after_sequence_returns_paginated_results; error_display_does_not_leak_sensitive_data] = true.
Proof. vm_compute. reflexivity. Qed.

End BrokerTests.

(** ** digest.rs *)

Module DigestTests.

#[local] Existing Instance horner_sha.

(** A text of a request that shows its identifier and its operation with its data. *)
#[local] Instance digest_json : RequestJson :=
  {| request_to_json r :=
       Some (id_str (tr_request_id r) +:+ " " +:+ Operation_as_str (tr_operation r) +:+
             match tr_operation r with FileRead (Some n) => " " +:+ dec n | _ => "" end) |}.

Definition make_request_reading (max_bytes : option Z) : option ToolRequest :=
  i ← unwrap (Id_new "req-digest"); a ← unwrap (Id_new "agent-digest"); s ← unwrap (Id_new "sess-digest");
  r ← unwrap (Resource_file "/workspace/test.txt"); c ← unwrap (RequestContext_new 0 None None None None false);
  Some (ToolRequest_new i
    (AgentSubjectBuilder_build (AgentSubjectBuilder_trust_level (AgentSubjectBuilder_new a s) Standard))
    (FileRead max_bytes) r c).
Definition digest_request : option ToolRequest := make_request_reading None.

Definition digest_is_deterministic : test :=
  req ← digest_request; assert_eq (compute_request_digest req) (compute_request_digest req).

Definition digest_is_32_bytes : test :=
  req ← digest_request; assert_eq (len (compute_request_digest req)) 32.

Definition changed_request_changes_digest : test :=
  req1 ← digest_request; req2 ← make_request_reading (Some 1024);
  assert (negb (bool_decide (compute_request_digest req1 = compute_request_digest req2))).

(** *** All of them *)

Example digest_tests : passes
    [digest_is_deterministic; digest_is_32_bytes; changed_request_changes_digest] = true.
Proof. vm_compute. reflexivity. Qed.

End DigestTests.

(** ** The property tests of proptests.rs, for every generated text *)

Module PropertyTests.

Section Generated.
Context `{Sha256} `{RequestJson}.

(** [[a-zA-Z0-9_-]{1,max}]. *)
Definition id_char (c : ascii) : bool :=
  is_ascii_alphanumeric c || Ascii.eqb c "_" || Ascii.eqb c "-".
Definition generated (max : Z) (s : string) : Prop := s <> "" /\ all_bytes id_char s = true /\ len s <= max.

Definition id_round_trip (k : IdKind) (id : string) : test :=
  i ← unwrap (@Id_new k id); assert_eq (id_str i) id.
Definition agent_id_round_trip := id_round_trip KAgent.
Definition request_id_round_trip := id_round_trip KRequest.
Definition session_id_round_trip := id_round_trip KSession.

Definition any_request_digest_is_deterministic (id agent session : string) : test :=
  i ← unwrap (Id_new id); a ← unwrap (Id_new agent); s ← unwrap (Id_new session);
  resource ← unwrap (Resource_file "/test/path.txt");
  context ← unwrap (RequestContext_new 0 None None None None false);
  let req := ToolRequest_new i
               (AgentSubjectBuilder_build (AgentSubjectBuilder_trust_level (AgentSubjectBuilder_new a s) Standard))
               (FileRead None) resource context in
  assert_eq (compute_request_digest req) (compute_request_digest req).

Definition permit_single_use_enforced (id : string) (scope : Z) : test :=
  rid ← unwrap (Id_new id); rule ← unwrap (Id_new "test-rule");
  let scope_enum := if scope mod 3 =? 0 then FilesystemRead
                    else if scope mod 3 =? 1 then CommandLowRisk else PS_NetworkRequest in
  let permit := ExecutionPermit_new 0 (repeat_byte (byte_string 0) 32) rid scope_enum [rule]
                  (repeat_byte (byte_string 0) 32) (60 * 1000000000) in
  assert (negb (ExecutionPermit_is_consumed permit));;
  assert (ExecutionPermit_is_consumed (snd (ExecutionPermit_consume permit))).

Lemma id_char_plain c : id_char c = true -> byte_val c < 128 /\ is_control (byte_val c) = false.
Proof. destruct c as [[] [] [] [] [] [] [] []]; vm_compute; intuition congruence. Qed.

Lemma generated_chars s :
  all_bytes id_char s = true -> chars_count s = len s /\ Forall (fun c => is_control c = false) (chars s).
Proof.
  unfold chars_count. induction s as [|c s IH]; simpl; [by split|].
  intros [[Hc%Z.ltb_lt Hp]%id_char_plain [IHl IHf]%IH]%andb_true_iff. rewrite Hc. split; [|by constructor].
  rewrite len_cons. simpl. lia.
Qed.

Lemma generated_id {k} max s : generated max s -> max <= MAX_ID_LEN -> @Id_new k s = Ok (Id_raw s).
Proof.
  intros (Hne & [Hc Hf]%generated_chars & Hl) Hmax. apply Id_new_ok. repeat split; try done. lia.
Qed.

(** The three tests with their own bounds. *)
Lemma id_round_trips agent request session :
  generated 32 agent -> generated 64 request -> generated 32 session ->
  agent_id_round_trip agent = Some tt /\ request_id_round_trip request = Some tt /\
  session_id_round_trip session = Some tt.
Proof.
  intros Ha Hr Hs. unfold agent_id_round_trip, request_id_round_trip, session_id_round_trip, id_round_trip.
  rewrite (generated_id _ _ Ha), (generated_id _ _ Hr), (generated_id _ _ Hs) by (unfold MAX_ID_LEN; lia).
  unfold assert_eq, assert. simpl. by rewrite !bool_decide_true.
Qed.

Lemma digest_and_permit_hold id agent session scope :
  generated 16 id -> generated 16 agent -> generated 16 session ->
  any_request_digest_is_deterministic id agent session = Some tt /\ permit_single_use_enforced id scope = Some tt.
Proof.
  intros Hi Ha Hs. unfold any_request_digest_is_deterministic, permit_single_use_enforced.
  rewrite !(generated_id _ _ Hi), (generated_id _ _ Ha), (generated_id _ _ Hs) by (unfold MAX_ID_LEN; lia).
  split; [|reflexivity].
  destruct (Resource_file "/test/path.txt") as [r|] eqn:E; [|vm_compute in E; discriminate E].
  unfold assert_eq, assert. simpl. by rewrite bool_decide_true.
Qed.

End Generated.

End PropertyTests.
