(* ===== verification/TestEnforce.v ===== *)
(** * The tests of kavach-enforcement, on the model

    The unit tests of lib.rs, command.rs and network.rs under crates/kavach-enforcement/src,
    translated one by one.  The temporary directory of a test is a [Disk] with files,
    directories and symbolic links; a spawned process and a server on the loopback interface
    are what the adapter observes of them; a host resolves to the addresses the test relies
    on.  Bodies at the limit of one mebibyte are evaluated at a smaller limit.  Left out is
    the test that is the helper process of another test. *)

From stdpp Require Import base tactics option list strings.
From Stdlib Require Import ZArith Lia Ascii.
From S2P Require Import Prelude RustStr BTree CoreError CoreIds CorePath CoreResource CoreRequest CorePermit.
From S2P Require Import EnforceFs EnforceCmd EnforceNet PolicyProps Instances.

Open Scope Z_scope.

#[local] Existing Instances horner_sha brief_request_json ascii_lower.
#[local] Instance ascii_upper : UnicodeUpper := {| unicode_uppercase s := s |}.

(** [matches!(r, p)]. *)
#[local] Notation "'matches!' r 'with' p" := (match r with p => true | _ => false end)
  (at level 10, r at level 200, p pattern at level 200).

(** ** What the three files share *)

Definition make_subject : option AgentSubject :=
  a ← unwrap (Id_new "agent-1"); s ← unwrap (Id_new "sess-1");
  Some (AgentSubjectBuilder_build (AgentSubjectBuilder_trust_level (AgentSubjectBuilder_new a s) Standard)).

Definition make_context : option RequestContext := unwrap (RequestContext_new 0 None None None None false).

Definition request (op : Operation) (resource : option Resource) : option ToolRequest :=
  i ← unwrap (Id_new "req-1"); s ← make_subject; r ← resource; c ← make_context;
  Some (ToolRequest_new i s op r c).

(** Permits are issued at time 0 and shown at time 1. *)
Definition make_permit_for (secret ttl : Z) (scope : PermitScope) (r : ToolRequest) : ExecutionPermit :=
  ExecutionPermit_new 0 (repeat_byte (byte_string secret) 32) (tr_request_id r) scope []
    (compute_request_digest r) (ttl * NANOS_PER_SEC).
Definition make_permit (scope : PermitScope) (r : ToolRequest) : ExecutionPermit := make_permit_for 1 300 scope r.
Definition make_expired_permit (scope : PermitScope) (r : ToolRequest) : ExecutionPermit :=
  make_permit_for 2 0 scope r.
Definition consumed (p : ExecutionPermit) : ExecutionPermit := snd (ExecutionPermit_consume p).

(** ** A disk *)

Inductive Entry := E_Dir | E_File (content : string) | E_Link (target : OsPath).
Abbreviation Disk := (list (OsPath * Entry)).

Fixpoint entry_at (p : OsPath) (d : Disk) : option Entry :=
  match d with
  | [] => None
  | (q, e) :: d' => if bool_decide (p = q) then Some e else entry_at p d'
  end.
Definition removed (p : OsPath) (d : Disk) : Disk := List.filter (fun e => negb (bool_decide (e.1 = p))) d.
Definition entry_set (p : OsPath) (e : Entry) (d : Disk) : Disk := (p, e) :: removed p d.
(** Where a path leads: a link is followed. *)
Definition target_of (p : OsPath) (d : Disk) : OsPath :=
  match entry_at p d with Some (E_Link q) => q | _ => p end.
Definition entry (p : OsPath) (d : Disk) : option Entry := entry_at (target_of p d) d.
Definition children (p : OsPath) (d : Disk) : list string :=
  omap (fun e => if bool_decide (removelast e.1 = p) then last e.1 else None) d.
Definition io_error (k : IoKind) : IoError := {| io_kind := k; io_text := "refused" |}.

#[local] Instance disk_fs : FsOs Disk := {|
  os_canonicalize d p := match entry p d with Some _ => Ok (target_of p d) | None => Err (io_error IoNotFound) end;
  os_exists d p := bool_decide (is_Some (entry p d));
  os_is_symlink d p := matches! entry_at p d with Some (E_Link _);
  os_is_file d p := matches! entry p d with Some (E_File _);
  os_is_dir d p := matches! entry p d with Some E_Dir;
  os_len d p := match entry p d with Some (E_File c) => Ok (len c) | _ => Err (io_error IoNotFound) end;
  os_read d p := match entry p d with Some (E_File c) => Ok c | _ => Err (io_error IoNotFound) end;
  os_read_dir d p := Ok (map Ok (children p d));
  os_create_new p d :=
    match entry p d with
    | Some _ => (Err (io_error IoAlreadyExists), d)
    | None => (Ok tt, entry_set p (E_File "") d)
    end;
  os_write_flush p data d := (Ok tt, entry_set p (E_File data) d);
  os_rename p q d :=
    match entry_at p d with
    | Some e => (Ok tt, entry_set q e (removed p d))
    | None => (Err (io_error IoNotFound), d)
    end;
  os_remove_file p d :=
    if bool_decide (is_Some (entry_at p d)) then (Ok tt, removed p d) else (Err (io_error IoNotFound), d);
  os_create_dir p d :=
    match entry p d with
    | Some _ => (Err (io_error IoAlreadyExists), d)
    | None => (Ok tt, entry_set p E_Dir d)
    end;
  os_remove_dir p d := (Ok tt, removed p d);
|}.

(** ** The file system (lib.rs) *)

Module FsTests.

Abbreviation run A := (scenario (FsState Disk) A).

(** The temporary directory, in which a file outside of it exists too. *)
Definition tmp : OsPath := ["tmp"; "kavach"].
Definition at_start : FsState Disk :=
  {| fs_world := [(tmp, E_Dir); (["etc"; "passwd"], E_File "root")]; fs_log := [] |}.
Definition in_tmp (m : run unit) : test := play m at_start.

(** [std::fs] on names under the directory. *)
Definition path (name : string) : OsPath := path_join tmp name.
Definition put (name : string) (e : Entry) : run unit := fun s =>
  (Ok tt, {| fs_world := entry_set (path name) e (fs_world s); fs_log := fs_log s |}).
Definition write (name content : string) : run unit := put name (E_File content).
Definition create_dir (name : string) : run unit := put name E_Dir.
Definition look {A} (f : Disk -> A) : run A := fun s => (Ok (f (fs_world s)), s).
Definition on_disk (name : string) : run (option Entry) := look (entry_at (path name)).
Definition exists_ (name : string) : run bool := look (fun d => os_exists d (path name)).
Definition file_holds (name content : string) : run unit :=
  let! e := on_disk name in check (match e with Some (E_File c) => String.eqb c content | _ => false end).
(** No temporary file of a write is left. *)
Definition no_temp_file : run unit :=
  let! names := look (children tmp) in
  check (negb (existsb (starts_with ".kavach_tmp_write_") names)).

Definition make_enforcer : run FilesystemEnforcer :=
  let! r := look (fun d => FilesystemEnforcer_new d tmp) in must r.
Definition file_request (op : Operation) (filename : string) : run ToolRequest :=
  must_some (request op (unwrap (Resource_file filename))).
Definition dir_request (op : Operation) (dirname : string) : run ToolRequest :=
  must_some (request op (unwrap (Resource_directory dirname))).

(** [execute]: the result and the permit afterwards. *)
Definition execute (e : FilesystemEnforcer) (r : ToolRequest) (permit : ExecutionPermit)
    (input : FilesystemInput) : run (result FilesystemError FilesystemOutcome * ExecutionPermit) := fun s =>
  let '(o, p, s') := fs_execute e "00000000" 1 r input permit s in (Ok (o, p), s').
Definition executed (e : FilesystemEnforcer) (r : ToolRequest) (input : FilesystemInput) :=
  execute e r (make_permit FilesystemRead r) input.

Definition execution_without_permit_rejected : test := in_tmp (
  let! enforcer := make_enforcer in
  let! req := file_request FileCreate "no-permit.txt" in
  let! o := execute enforcer req (make_expired_permit FilesystemRead req) FI_None in
  check (negb (is_ok (fst o)))).

Definition fs_expired_permit_rejected : test := in_tmp (
  let! enforcer := make_enforcer in
  let! req := file_request (FileRead None) "doesnotexist.txt" in
  let! o := execute enforcer req (make_expired_permit FilesystemRead req) FI_None in
  check (matches! fst o with Err FE_PermitExpired)).

Definition fs_consumed_permit_rejected : test := in_tmp (
  let! enforcer := make_enforcer in
  let! req := file_request (FileRead None) "doesnotexist.txt" in
  let! o := execute enforcer req (consumed (make_permit FilesystemRead req)) FI_None in
  check (matches! fst o with Err FE_PermitConsumed)).

Definition forged_permit_mismatched_digest_rejected : test := in_tmp (
  let! enforcer := make_enforcer in
  let! req_a := file_request (FileRead None) "a.txt" in
  let! req_b := file_request (FileRead None) "b.txt" in
  let! o := execute enforcer req_a (make_permit FilesystemRead req_b) FI_None in
  check (matches! fst o with Err (FE_InvalidPermit _))).

Definition valid_file_read : test := in_tmp (
  let! _ := write "test.txt" "hello world" in
  let! enforcer := make_enforcer in
  let! req := file_request (FileRead None) "test.txt" in
  let! o := executed enforcer req FI_None in
  let! _ := check match fst o with
                  | Ok (FO_FileRead bytes bytes_read) => String.eqb bytes "hello world" && (bytes_read =? 11)
                  | _ => false
                  end in
  check (ep_consumed (snd o))).

Definition file_read_not_found : test := in_tmp (
  let! enforcer := make_enforcer in
  let! req := file_request (FileRead None) "missing.txt" in
  let! o := executed enforcer req FI_None in
  let! _ := check (matches! fst o with Err (FE_NotFound _)) in
  check (ep_consumed (snd o))).

Definition file_read_rejects_directory : test := in_tmp (
  let! _ := create_dir "subdir" in
  let! enforcer := make_enforcer in
  let! req := file_request (FileRead None) "subdir" in
  let! o := executed enforcer req FI_None in
  check (matches! fst o with Err FE_UnsupportedFileType)).

Definition read_size_limit_enforced : test := in_tmp (
  let! _ := write "big.txt" (repeat_byte "x" 2048) in
  let! enforcer := make_enforcer in
  let! req := file_request (FileRead (Some 100)) "big.txt" in
  let! o := executed enforcer req FI_None in
  check match fst o with Err (FE_ReadLimitExceeded n) => n =? 100 | _ => false end).

Definition file_create_succeeds : test := in_tmp (
  let! enforcer := make_enforcer in
  let! req := file_request FileCreate "new.txt" in
  let! o := executed enforcer req FI_None in
  let! _ := check (matches! fst o with Ok FO_FileCreate) in
  let! present := exists_ "new.txt" in check present).

Definition file_create_rejects_existing : test := in_tmp (
  let! _ := write "exists.txt" "data" in
  let! enforcer := make_enforcer in
  let! req := file_request FileCreate "exists.txt" in
  let! o := executed enforcer req FI_None in
  check (matches! fst o with Err (FE_AlreadyExists _))).

Definition file_write_replaces_content : test := in_tmp (
  let! _ := write "target.txt" "original content" in
  let! enforcer := make_enforcer in
  let! req := file_request FileWrite "target.txt" in
  let! o := executed enforcer req (FI_WriteBytes "replaced") in
  let! _ := check match fst o with Ok (FO_FileWrite bytes_written) => bytes_written =? 8 | _ => false end in
  file_holds "target.txt" "replaced").

Definition file_write_without_payload_rejected : test := in_tmp (
  let! _ := write "target.txt" "data" in
  let! enforcer := make_enforcer in
  let! req := file_request FileWrite "target.txt" in
  let! o := executed enforcer req FI_None in
  check (matches! fst o with Err FE_MissingWritePayload)).

Definition payload_on_file_read_rejected : test := in_tmp (
  let! _ := write "target.txt" "data" in
  let! enforcer := make_enforcer in
  let! req := file_request (FileRead None) "target.txt" in
  let! o := executed enforcer req (FI_WriteBytes "bad") in
  let! _ := check (matches! fst o with Err FE_UnexpectedPayload) in
  check (ep_consumed (snd o))).

Definition file_write_nonexistent_target_rejected : test := in_tmp (
  let! enforcer := make_enforcer in
  let! req := file_request FileWrite "nofile.txt" in
  let! o := executed enforcer req (FI_WriteBytes "x") in
  let! _ := check (matches! fst o with Err (FE_NotFound _)) in
  check (ep_consumed (snd o))).

Definition file_write_directory_target_rejected : test := in_tmp (
  let! _ := create_dir "adir" in
  let! enforcer := make_enforcer in
  let! req := file_request FileWrite "adir" in
  let! o := executed enforcer req (FI_WriteBytes "x") in
  check (matches! fst o with Err FE_UnsupportedFileType)).

Definition file_write_size_limit_enforced : test := in_tmp (
  let! _ := write "target.txt" "data" in
  let! enforcer := make_enforcer in
  let! enforcer := must (with_max_write_bytes 5 enforcer) in
  let! req := file_request FileWrite "target.txt" in
  let! o := executed enforcer req (FI_WriteBytes "too much data for the limit") in
  let! _ := check match fst o with Err (FE_WriteLimitExceeded n) => n =? 5 | _ => false end in
  check (ep_consumed (snd o))).

Definition file_write_temp_file_cleaned_after_success : test := in_tmp (
  let! _ := write "target.txt" "original" in
  let! enforcer := make_enforcer in
  let! req := file_request FileWrite "target.txt" in
  let! o := executed enforcer req (FI_WriteBytes "new content") in
  let! _ := check (matches! fst o with Ok (FO_FileWrite _)) in
  no_temp_file).

Definition file_write_consumes_permit_on_failure_and_reuse_rejected : test := in_tmp (
  let! enforcer := make_enforcer in
  let! req := file_request FileWrite "nofile.txt" in
  let! o := executed enforcer req (FI_WriteBytes "x") in
  let! _ := check (matches! fst o with Err (FE_NotFound _)) in
  let! _ := check (ep_consumed (snd o)) in
  let! o := execute enforcer req (snd o) (FI_WriteBytes "y") in
  check (matches! fst o with Err FE_PermitConsumed)).

Definition file_write_rejects_symlink_target : test := in_tmp (
  let! _ := write "real.txt" "original" in
  let! _ := put "link.txt" (E_Link (path "real.txt")) in
  let! enforcer := make_enforcer in
  let! req := file_request FileWrite "link.txt" in
  let! o := executed enforcer req (FI_WriteBytes "evil") in
  let! _ := check (matches! fst o with Err FE_UnsupportedFileType) in
  let! _ := file_holds "real.txt" "original" in
  let! present := exists_ "link.txt" in
  let! _ := check present in
  check (ep_consumed (snd o))).

Definition file_write_no_temp_left_on_failure : test := in_tmp (
  let! _ := write "target.txt" "original" in
  let! enforcer := make_enforcer in
  let! enforcer := must (with_max_write_bytes 3 enforcer) in
  let! req := file_request FileWrite "target.txt" in
  let! o := executed enforcer req (FI_WriteBytes "exceeds limit") in
  let! _ := check match fst o with Err (FE_WriteLimitExceeded n) => n =? 3 | _ => false end in
  let! _ := no_temp_file in
  file_holds "target.txt" "original").

Definition file_create_creates_empty_file : test := in_tmp (
  let! enforcer := make_enforcer in
  let! req := file_request FileCreate "new.txt" in
  let! o := executed enforcer req FI_None in
  let! _ := check (matches! fst o with Ok FO_FileCreate) in
  let! size := look (fun d => os_len d (path "new.txt")) in
  check match size with Ok n => n =? 0 | Err _ => false end).

Definition file_delete_succeeds : test := in_tmp (
  let! _ := write "delme.txt" "x" in
  let! enforcer := make_enforcer in
  let! req := file_request FileDelete "delme.txt" in
  let! o := executed enforcer req FI_None in
  let! _ := check (matches! fst o with Ok FO_FileDelete) in
  let! present := exists_ "delme.txt" in check (negb present)).

Definition file_delete_rejects_directory : test := in_tmp (
  let! _ := create_dir "adir" in
  let! enforcer := make_enforcer in
  let! req := file_request FileDelete "adir" in
  let! o := executed enforcer req FI_None in
  check (matches! fst o with Err FE_UnsupportedFileType)).

Definition lexical_dotdot_traversal_rejected : test := in_tmp (
  let! _ := create_dir "sub" in
  let! enforcer := make_enforcer in
  let! req := file_request (FileRead None) "sub/../outside.txt" in
  let! o := executed enforcer req FI_None in
  check (matches! fst o with Err (FE_NotFound _))).

Definition absolute_path_rejected : test := in_tmp (
  let! enforcer := make_enforcer in
  let! req := file_request (FileRead None) "/etc/passwd" in
  let! o := executed enforcer req FI_None in
  check (matches! fst o with Err (FE_WorkspaceEscape _))).

Definition directory_list_sorted : test := in_tmp (
  let! _ := write "z.txt" "" in
  let! _ := write "a.txt" "" in
  let! _ := create_dir "m_dir" in
  let! enforcer := make_enforcer in
  let! req := dir_request DirectoryList "." in
  let! o := executed enforcer req FI_None in
  check match fst o with
        | Ok (FO_DirectoryList entries) => bool_decide (entries = ["a.txt"; "m_dir"; "z.txt"])
        | _ => false
        end).

Definition directory_create_and_delete : test := in_tmp (
  let! enforcer := make_enforcer in
  let! req := dir_request DirectoryCreate "newdir" in
  let! o := executed enforcer req FI_None in
  let! _ := check (matches! fst o with Ok FO_DirectoryCreate) in
  let! dir := look (fun d => os_is_dir d (path "newdir")) in
  let! _ := check dir in
  let! req := dir_request DirectoryDelete "newdir" in
  let! o := executed enforcer req FI_None in
  let! _ := check (matches! fst o with Ok FO_DirectoryDelete) in
  let! present := exists_ "newdir" in check (negb present)).

Definition directory_delete_rejects_non_empty : test := in_tmp (
  let! _ := create_dir "notempty" in
  let! _ := write "notempty/f.txt" "" in
  let! enforcer := make_enforcer in
  let! req := dir_request DirectoryDelete "notempty" in
  let! o := executed enforcer req FI_None in
  check (matches! fst o with Err FE_DirectoryNotEmpty)).

Definition directory_create_rejects_existing : test := in_tmp (
  let! _ := create_dir "exists" in
  let! enforcer := make_enforcer in
  let! req := dir_request DirectoryCreate "exists" in
  let! o := executed enforcer req FI_None in
  check (matches! fst o with Err (FE_AlreadyExists _))).

Definition wrong_resource_type_rejected : test := in_tmp (
  let! enforcer := make_enforcer in
  let! req := dir_request (FileRead None) "." in
  let! o := executed enforcer req FI_None in
  check (matches! fst o with Err (FE_InvalidRequest _))).

Definition directory_entry_limit_enforced : test := in_tmp (
  let! _ := for_all (up_to 9 (fun i => "f" +:+ dec i +:+ ".txt")) (fun name => write name "") in
  let! enforcer := make_enforcer in
  let! enforcer := must (with_max_dir_entries 3 enforcer) in
  let! req := dir_request DirectoryList "." in
  let! o := executed enforcer req FI_None in
  check match fst o with Err (FE_DirectoryEntryLimitExceeded n) => n =? 3 | _ => false end).

(** *** All of them *)

Example fs_tests : passes
    [execution_without_permit_rejected; fs_expired_permit_rejected; fs_consumed_permit_rejected;
     forged_permit_mismatched_digest_rejected; valid_file_read; file_read_not_found;
     file_read_rejects_directory; read_size_limit_enforced; file_create_succeeds;
     file_create_rejects_existing; file_write_replaces_content;
     file_write_without_payload_rejected; payload_on_file_read_rejected;
     file_write_nonexistent_target_rejected; file_write_directory_target_rejected;
     file_write_size_limit_enforced; file_write_temp_file_cleaned_after_success;
     file_write_consumes_permit_on_failure_and_reuse_rejected; file_write_rejects_symlink_target;
     file_write_no_temp_left_on_failure; file_create_creates_empty_file; file_delete_succeeds;
     file_delete_rejects_directory; lexical_dotdot_traversal_rejected; absolute_path_rejected;
     directory_list_sorted; directory_create_and_delete; directory_delete_rejects_non_empty;
     directory_create_rejects_existing; wrong_resource_type_rejected;
     directory_entry_limit_enforced] = true.
Proof. vm_compute. reflexivity. Qed.

End FsTests.

(** ** Commands (command.rs) *)

Module CommandTests.

Definition root : OsPath := ["tmp"; "kavach"].

(** What a process that ends at once leaves, and one that never ends. *)
Definition ends (code : Z) (out : string) : ProcessRun :=
  {| run_try_wait _ := Ok (Some (Some code)); run_elapsed n := Z.of_nat n * POLL_INTERVAL; run_reap := Ok tt;
     run_setup := 0; run_stdout := [Rd_Data out; Rd_Data ""]; run_stderr := []; run_duration := 1 |}.
Definition timeout_helper : ProcessRun :=
  {| run_try_wait _ := Ok None; run_elapsed n := Z.of_nat n * POLL_INTERVAL; run_reap := Ok tt;
     run_setup := 0; run_stdout := [Rd_Data "timeout helper stdout ready"]; run_stderr := [];
     run_duration := 2 * NANOS_PER_SEC |}.

(** The programs of the machine. *)
#[local] Instance programs : ProcOs Disk := {|
  os_spawn cfg d :=
    (if String.eqb (pc_exe cfg) "echo" then Ok (ends 0 (join " " (pc_args cfg)))
     else if String.eqb (pc_exe cfg) "timeout_helper" then Ok timeout_helper
     else Err "No such file or directory", d);
  os_vars _ := [("PATH", "/bin")];
|}.

Abbreviation run A := (scenario (CmdState Disk) A).
Definition in_tmp (m : run unit) : test := play m {| cs_world := [(root, E_Dir)]; cs_log := [] |}.

Definition make_command_enforcer : run CommandEnforcer := fun s =>
  (map_err (fun _ => tt) (CommandEnforcer_new (cs_world s) root), s).
Definition cmd_request (exe : string) (args : list string) : run ToolRequest :=
  must_some (request CommandExecute (R_Command <$> unwrap (CommandResource_new exe args))).
Definition execute (e : CommandEnforcer) (r : ToolRequest) (permit : ExecutionPermit) (input : CommandInput)
  : run (result CommandError CommandOutcome * ExecutionPermit) := fun s =>
  let '(o, p, s') := cmd_execute e 1 r input permit s in (Ok (o, p), s').
Definition executed (e : CommandEnforcer) (r : ToolRequest) (input : CommandInput) :=
  execute e r (make_permit CommandLowRisk r) input.
Definition spawned : run nat := fun s => (Ok (length (cs_log s)), s).

(** [CommandInput::default]. *)
Definition no_input : CommandInput :=
  {| ci_working_directory := None; ci_env_vars := []; ci_dry_run := false; ci_timeout_seconds := None |}.

Definition CommandRisk_eqb (a b : CommandRisk) : bool := String.eqb (CommandRisk_as_str a) (CommandRisk_as_str b).
Definition risk_is (exe : string) (args : list string) (risk : CommandRisk) : test :=
  assert (CommandRisk_eqb (classify_risk exe args) risk).
Definition args_rejected (args : list string) : test := unwrap_err (validate_arguments args);; Some tt.

Definition safe_command_low_risk : test :=
  risk_is "ls" ["-la"] Risk_Low;; risk_is "cargo" ["check"] Risk_Low;; risk_is "git" ["status"] Risk_Low.

Definition git_reset_hard_destructive : test := risk_is "git" ["reset"; "--hard"] Risk_Destructive.

Definition git_clean_fd_destructive : test := risk_is "git" ["clean"; "-fd"] Risk_Destructive.

Definition git_push_force_destructive : test := risk_is "git" ["push"; "--force"] Risk_Destructive.

Definition rm_recursive_destructive : test := risk_is "rm" ["-rf"; "dir"] Risk_Destructive.

Definition format_command_forbidden : test := risk_is "format" ["C:"] Risk_Forbidden.

Definition shutdown_command_destructive : test := risk_is "shutdown" ["-h"; "now"] Risk_Destructive.

Definition curl_pipe_destructive : test := risk_is "curl" ["-s"; "url"; "|"; "sh"] Risk_Destructive.

Definition shell_executables_rejected : test :=
  unwrap_err (validate_executable "sh");; unwrap_err (validate_executable "bash");;
  unwrap_err (validate_executable "cmd");; unwrap_err (validate_executable "powershell");; Some tt.

Definition empty_executable_rejected : test := unwrap_err (validate_executable "");; Some tt.

Definition shell_chaining_rejected : test :=
  args_rejected ["a&&b"];; args_rejected ["a||b"];; args_rejected ["a|b"];; args_rejected ["a;b"].

Definition redirection_rejected : test := args_rejected [">output"];; args_rejected ["<input"].

Definition null_byte_rejected : test := args_rejected ["hello" +:+ byte_string 0].

Definition encoded_powershell_rejected : test := args_rejected ["-EncodedCommand"];; args_rejected ["-enc"].

Definition absolute_working_dir_rejected : test := in_tmp (
  let! enforcer := make_command_enforcer in
  let! req := cmd_request "echo" ["hello"] in
  let! o := executed enforcer req
    {| ci_working_directory := Some "/etc"; ci_env_vars := []; ci_dry_run := false; ci_timeout_seconds := None |} in
  check (matches! fst o with Err (CE_WorkspaceEscape _))).

Definition safe_command_executes_with_permit : test := in_tmp (
  let! enforcer := make_command_enforcer in
  let! req := cmd_request "echo" ["hello"] in
  let! o := executed enforcer req no_input in
  let! outcome := must (fst o) in
  let! _ := check (CommandRisk_eqb (co_risk outcome) Risk_Low) in
  check (negb (co_dry_run outcome))).

Definition dry_run_never_spawns : test := in_tmp (
  let! enforcer := make_command_enforcer in
  let! req := cmd_request "echo" ["hello"] in
  let! o := executed enforcer req
    {| ci_working_directory := None; ci_env_vars := []; ci_dry_run := true; ci_timeout_seconds := None |} in
  let! outcome := must (fst o) in
  let! _ := check (co_dry_run outcome) in
  let! _ := check_eq (co_exit_code outcome) None in
  let! _ := check (is_empty (co_stdout outcome)) in
  let! n := spawned in check_eq n 0%nat).

Definition cmd_expired_permit_rejected : test := in_tmp (
  let! enforcer := make_command_enforcer in
  let! req := cmd_request "echo" ["hello"] in
  let! o := execute enforcer req (make_expired_permit CommandLowRisk req) no_input in
  check (matches! fst o with Err CE_PermitExpired)).

Definition cmd_consumed_permit_rejected : test := in_tmp (
  let! enforcer := make_command_enforcer in
  let! req := cmd_request "echo" ["hello"] in
  let! o := execute enforcer req (consumed (make_permit CommandLowRisk req)) no_input in
  check (matches! fst o with Err CE_PermitConsumed)).

Definition cmd_forged_permit_rejected : test := in_tmp (
  let! enforcer := make_command_enforcer in
  let! req_a := cmd_request "echo" ["hello"] in
  let! req_b := cmd_request "echo" ["world"] in
  let! o := execute enforcer req_a (make_permit CommandLowRisk req_b) no_input in
  check (matches! fst o with Err (CE_InvalidPermit _))).

Definition failed_spawn_consumes_permit : test := in_tmp (
  let! enforcer := make_command_enforcer in
  let! req := cmd_request "nonexistent_binary_xyz" [] in
  let! o := executed enforcer req no_input in
  let! _ := check (matches! fst o with Err (CE_SpawnFailed _)) in
  check (ep_consumed (snd o))).

Definition forbidden_command_rejected : test := in_tmp (
  let! enforcer := make_command_enforcer in
  let! req := cmd_request "format" ["C:"] in
  let! o := executed enforcer req no_input in
  check (matches! fst o with Err (CE_ForbiddenCommand _))).

Definition destructive_command_rejected : test := in_tmp (
  let! enforcer := make_command_enforcer in
  let! req := cmd_request "rm" ["-rf"; "/tmp/foo"] in
  let! o := executed enforcer req no_input in
  check (matches! fst o with Err CE_DestructiveApprovalRequired)).

Definition non_command_resource_rejected : test := in_tmp (
  let! enforcer := make_command_enforcer in
  let! req := must_some (request CommandExecute (unwrap (Resource_file "foo.txt"))) in
  let! o := executed enforcer req no_input in
  check (matches! fst o with Err (CE_InvalidRequest _))).

(** That the helper no longer holds its port is the operating system's doing: here it is
    killed and reaped, or there were no result. *)
Definition timeout_kills_process : test := in_tmp (
  let! enforcer := make_command_enforcer in
  let! req := cmd_request "timeout_helper"
    ["--exact"; "command::tests::timeout_helper_process"; "--nocapture"] in
  let timeout_seconds := 2 in
  let input :=
    {| ci_working_directory := None;
       ci_env_vars := [("PATH", "/target/debug/deps"); ("KAVACH_TIMEOUT_HELPER_MODE", "1");
                       ("KAVACH_TIMEOUT_HELPER_PORT", "49152");
                       ("KAVACH_TIMEOUT_HELPER_READY_FILE", "/tmp/kavach/helper-ready")];
       ci_dry_run := false; ci_timeout_seconds := Some timeout_seconds |} in
  let! o := executed enforcer req input in
  let! _ := check match fst o with Err (CE_Timeout seconds) => seconds =? timeout_seconds | _ => false end in
  let! _ := check (ep_consumed (snd o)) in
  let! reuse := execute enforcer req (snd o) input in
  check (matches! fst reuse with Err CE_PermitConsumed)).

Definition argument_count_limit_enforced : test :=
  args_rejected (up_to MAX_ARGUMENT_COUNT (fun i => "arg" +:+ dec i)).

Definition argument_length_limit_enforced : test :=
  args_rejected [repeat_byte "a" (MAX_ARGUMENT_LENGTH + 1)].

Definition deterministic_risk_classification : test :=
  let r1 := classify_risk "git" ["reset"; "--hard"] in
  let r2 := classify_risk "git" ["reset"; "--hard"] in
  assert (CommandRisk_eqb r1 r2);; assert (CommandRisk_eqb r1 Risk_Destructive).

(** *** All of them *)

Example command_tests : passes
    [safe_command_low_risk; git_reset_hard_destructive; git_clean_fd_destructive;
     git_push_force_destructive; rm_recursive_destructive; format_command_forbidden;
     shutdown_command_destructive; curl_pipe_destructive; shell_executables_rejected;
     empty_executable_rejected; shell_chaining_rejected; redirection_rejected; null_byte_rejected;
     encoded_powershell_rejected; absolute_working_dir_rejected; safe_command_executes_with_permit;
     dry_run_never_spawns; cmd_expired_permit_rejected; cmd_consumed_permit_rejected;
     cmd_forged_permit_rejected; failed_spawn_consumes_permit; forbidden_command_rejected;
     destructive_command_rejected; non_command_resource_rejected; timeout_kills_process;
     argument_count_limit_enforced; argument_length_limit_enforced;
     deterministic_risk_classification] = true.
Proof. vm_compute. reflexivity. Qed.

End CommandTests.

(** ** The network (network.rs) *)

Module NetTests.

Definition v4 (a b c d : Z) : IpAddr := V4 (mkIpv4 a b c d).
Definition v6 (a b c d e f g h : Z) : IpAddr := V6 (mkIpv6 a b c d e f g h).

(** What the server of a test answers. *)
Abbreviation Server := (HttpCall -> result UreqError HttpResponse).

Definition reply (status : Z) (headers : list (string * string)) (body : list string) : Server := fun c =>
  Ok {| hr_status := status; hr_header_names := map fst headers; hr_header := fun name => bmap_get name headers;
        hr_body := match hc_method c with M_Head => [] | _ => map Ok body end; hr_elapsed := 1 |}.

(** Nothing listens; every name but these has a public address. *)
Definition nobody : Server := fun _ => Err (Ureq_Transport UK_ConnectionFailed "Connection refused" [Src_Io false]).
Definition addresses (name : string) : result string (list SocketAddr) :=
  let at_ ip := Ok [{| sa_ip := ip; sa_port := 0; sa_scope := 0 |}] in
  if starts_with "x-surely-does-not-resolve" name then Err "failed to lookup address information"
  else if starts_with "localhost:" name then
    Ok [{| sa_ip := v6 0 0 0 0 0 0 0 1; sa_port := 80; sa_scope := 0 |};
        {| sa_ip := v4 127 0 0 1; sa_port := 80; sa_scope := 0 |}]
  else if starts_with "127.0.0.1:" name then at_ (v4 127 0 0 1)
  else if starts_with "10.0.0.1:" name then at_ (v4 10 0 0 1)
  else at_ (v4 93 184 216 34).

#[local] Instance net_of : NetOs Server := {|
  os_resolve name w := (addresses name, w);
  http_send c w := (w c, w);
|}.

Abbreviation run A := (scenario (NetState Server) A).
Definition with_server (server : Server) (m : run unit) : test := play m {| ns_world := server; ns_log := [] |}.
Definition offline (m : run unit) : test := with_server nobody m.

Definition net_request_to (scheme host : string) (port : option NetworkPort) : run ToolRequest :=
  must_some (request NetworkRequest
    (s ← unwrap (NetworkScheme_new scheme); h ← unwrap (NetworkHost_new host);
     n ← unwrap (NetworkResource_new s h port "/"); Some (R_NetworkEndpoint n))).
Definition net_request (host scheme : string) : run ToolRequest := net_request_to scheme host None.
Definition net_request_with_port (host scheme : string) (port : Z) : run ToolRequest :=
  net_request_to scheme host (Some {| port_value := port |}).

Definition execute (e : NetworkEnforcer) (r : ToolRequest) (permit : ExecutionPermit) (input : NetworkInput)
  : run (result NetworkError NetworkOutcome * ExecutionPermit) := fun s =>
  let '(o, p, s') := net_execute e 1 r input permit s in (Ok (o, p), s').
Definition executed (e : NetworkEnforcer) (r : ToolRequest) (input : NetworkInput) :=
  execute e r (make_permit PS_NetworkRequest r) input.

(** [NetworkInput::default], and with one field. *)
Definition input_with (method : option NetworkMethod) (body : option string) (limit : option Z) : NetworkInput :=
  {| ni_method := method; ni_headers := []; ni_body := body; ni_no_redirect := false;
     ni_timeout_seconds := None; ni_response_body_limit := limit |}.
Definition no_input : NetworkInput := input_with None None None.

Definition enforcer : NetworkEnforcer := NetworkEnforcer_default.
Definition local_enforcer : NetworkEnforcer := with_allow_loopback true (with_allow_http true enforcer).

Definition expired_permit_rejected : test := offline (
  let! req := net_request "example.com" "https" in
  let! o := execute enforcer req (make_expired_permit PS_NetworkRequest req) no_input in
  check (matches! fst o with Err NE_PermitExpired)).

Definition consumed_permit_rejected : test := offline (
  let! req := net_request "example.com" "https" in
  let! o := execute enforcer req (consumed (make_permit PS_NetworkRequest req)) no_input in
  check (matches! fst o with Err NE_PermitConsumed)).

Definition forged_permit_rejected : test := offline (
  let! req_a := net_request "example.com" "https" in
  let! req_b := net_request "other.com" "https" in
  let! o := execute enforcer req_a (make_permit PS_NetworkRequest req_b) no_input in
  check (matches! fst o with Err (NE_InvalidPermit _))).

Definition dns_failure_consumes_permit : test := offline (
  let! req := net_request "x-surely-does-not-resolve-99999.test" "https" in
  let! o := executed enforcer req no_input in
  let! _ := check (matches! fst o with Err (NE_DnsResolutionFailed _)) in
  check (ep_consumed (snd o))).

Definition dns_failure_reuse_consumed_permit : test := offline (
  let! req := net_request "x-surely-does-not-resolve-99999.test" "https" in
  let! o := executed enforcer req no_input in
  let! _ := check (ep_consumed (snd o)) in
  let! o := execute enforcer req (snd o) no_input in
  check (matches! fst o with Err NE_PermitConsumed)).

Definition no_dns_before_permit_verified : test := offline (
  let! req := net_request "example.com" "https" in
  let! o := execute enforcer req (make_expired_permit PS_NetworkRequest req) no_input in
  check (matches! fst o with Err NE_PermitExpired)).

(** A request on a resource that is no endpoint. *)
Definition wrong_resource (resource : option Resource) : test := offline (
  let! req := must_some (request NetworkRequest resource) in
  let! o := executed enforcer req no_input in
  check (matches! fst o with Err (NE_InvalidRequest _))).
Definition ls_command (arguments : list string) : option Resource := R_Command <$> unwrap (CommandResource_new "ls" arguments).

Definition wrong_resource_type_before_dns : test := wrong_resource (unwrap (Resource_file "test.txt")).

Definition command_resource_before_dns : test := wrong_resource (ls_command ["-la"]).

Definition file_resource_never_reaches_network : test := wrong_resource (unwrap (Resource_file "test.txt")).

Definition command_resource_rejected : test := wrong_resource (ls_command []).

Definition https_accepted_by_default : test := offline (
  let! req := net_request "example.com" "https" in
  let! o := executed enforcer req no_input in
  let! _ := check (negb (matches! fst o with Err NE_PlainHttpDisabled)) in
  let! _ := check (negb (matches! fst o with Err (NE_UnsupportedScheme _))) in
  check (ep_consumed (snd o))).

Definition http_rejected_by_default : test := offline (
  let! req := net_request "example.com" "http" in
  let! o := executed enforcer req no_input in
  check (matches! fst o with Err NE_PlainHttpDisabled)).

Definition http_accepted_when_enabled : test := offline (
  let! req := net_request "example.com" "http" in
  let! o := executed (with_allow_http true enforcer) req no_input in
  check (negb (matches! fst o with Err NE_PlainHttpDisabled))).

Definition unsupported_scheme_rejected : test := offline (
  let! req := net_request "example.com" "ftp" in
  let! o := executed enforcer req no_input in
  check (matches! fst o with Err (NE_UnsupportedScheme _))).

Definition credentials_in_host_rejected_by_core : test :=
  unwrap_err (NetworkHost_new "user@example.com");; Some tt.

Definition blocked (ip : IpAddr) : test := assert (is_blocked_ip ip).

Definition loopback_ipv4_blocked : test := blocked (v4 127 0 0 1);; blocked (v4 127 0 0 2).

Definition private_ipv4_blocked : test :=
  blocked (v4 10 0 0 1);; blocked (v4 172 16 0 1);; blocked (v4 192 168 1 1).

Definition link_local_ipv4_blocked : test := blocked (v4 169 254 1 1).

Definition metadata_ip_blocked : test :=
  assert (is_metadata_ip (mkIpv4 169 254 169 254));; assert (negb (is_metadata_ip (mkIpv4 169 254 1 1))).

Definition loopback_ipv6_blocked : test := blocked (v6 0 0 0 0 0 0 0 1).

Definition link_local_ipv6_blocked : test := blocked (v6 0xfe80 0 0 0 0 0 0 1).

Definition unique_local_ipv6_blocked : test :=
  blocked (v6 0xfc00 0 0 0 0 0 0 1);; blocked (v6 0xfd00 0 0 0 0 0 0 1).

Definition ipv4_mapped_blocked : test := blocked (v6 0 0 0 0 0 0xffff 0x0a00 0x0001).

Definition cgnat_blocked : test := blocked (v4 100 64 0 1);; blocked (v4 100 127 255 255).

Definition multicast_ipv4_blocked : test := blocked (v4 224 0 0 1);; blocked (v4 239 255 255 255).

Definition metadata_hostname_detected : test :=
  assert (is_metadata_host "metadata.google.internal");; assert (is_metadata_host "Metadata.Google.Internal").

Definition unspecified_ipv4_blocked : test := blocked (v4 0 0 0 0).

Definition broadcast_ipv4_blocked : test := blocked (v4 255 255 255 255).

Definition ipv6_unspecified_blocked : test := blocked (v6 0 0 0 0 0 0 0 0).

Definition ipv6_multicast_blocked : test := blocked (v6 0xff00 0 0 0 0 0 0 1).

Definition public_ipv4_not_blocked : test :=
  assert (negb (is_blocked_ip (v4 8 8 8 8)));; assert (negb (is_blocked_ip (v4 1 1 1 1))).

Definition public_ipv6_not_blocked : test := assert (negb (is_blocked_ip (v6 0x2001 0x4860 0x4860 0 0 0 0 0x8888))).

Definition resolve_host_returns_blocked_address : test := offline (fun s =>
  (let! addrs := must (fst (resolve_host "localhost" 80 s)) in
   let! _ := check (negb (bool_decide (addrs = []))) in
   check (existsb (fun a => is_blocked_ip (sa_ip a)) addrs)) s).

Definition localhost_rejected_by_default : test := offline (
  let! req := net_request "localhost" "https" in
  let! o := executed enforcer req no_input in
  check (matches! fst o with Err (NE_BlockedAddress _))).

(** *** Headers, hosts, bodies *)

Definition headers_rejected (headers : list (string * string)) : test :=
  unwrap_err (validate_headers headers);; Some tt.
Definition CRLF : string := byte_string 13 +:+ byte_string 10.

Definition forbidden_host_header_rejected : test := headers_rejected [("Host", "evil.com")].

Definition crlf_injection_rejected : test :=
  headers_rejected [("X-Foo" +:+ CRLF +:+ "Bar", "val")];;
  headers_rejected [("X-Foo", "val" +:+ CRLF +:+ "inject")].

Definition header_count_limit_enforced : test :=
  headers_rejected (up_to MAX_HEADER_COUNT (fun i => ("X-Hdr-" +:+ dec i, "v"))).

Definition empty_header_name_rejected : test := headers_rejected [("", "val")].

Definition header_name_too_long_rejected : test :=
  headers_rejected [(repeat_byte "X" (MAX_HEADER_NAME_LENGTH + 1), "val")].

Definition header_value_too_long_rejected : test :=
  headers_rejected [("X-Foo", repeat_byte "x" (MAX_HEADER_VALUE_LENGTH + 1))].

Definition forbidden_headers_list : test :=
  mapM (fun h => assert (is_forbidden_header h))
    ["authorization"; "cookie"; "set-cookie"; "proxy-authorization"; "x-forwarded-for"; "forwarded";
     "via"; "transfer-encoding"; "upgrade"];; Some tt.

Definition host_rejected (host : string) : test := unwrap_err (validate_host host);; Some tt.

Definition empty_host_rejected : test := host_rejected "".

Definition null_host_rejected : test := host_rejected ("host" +:+ byte_string 0).

Definition control_char_host_rejected : test := host_rejected ("host" +:+ byte_string 9).

Definition host_too_long_rejected : test := host_rejected (repeat_byte "a" 256).

Definition valid_host_accepted : test :=
  unwrap (validate_host "example.com");; unwrap (validate_host "localhost").

(** The default enforcer with another limit on request bodies. *)
Definition with_limit (limit : Z) : NetworkEnforcer :=
  {| ne_allow_http := ne_allow_http enforcer; ne_timeout := ne_timeout enforcer;
     ne_connect_timeout := ne_connect_timeout enforcer;
     ne_response_body_limit := ne_response_body_limit enforcer; ne_request_body_limit := limit;
     ne_redirect_limit := ne_redirect_limit enforcer; ne_allow_loopback := ne_allow_loopback enforcer |}.

Definition body_over_limit (limit : Z) : test := offline (
  let! req := net_request "example.com" "https" in
  let! o := executed (with_limit limit) req (input_with None (Some (repeat_byte (byte_string 0) (limit + 1))) None) in
  check (matches! fst o with Err NE_RequestBodyLimitExceeded)).
Definition body_at_limit (limit : Z) : test := offline (
  let! req := net_request "example.com" "https" in
  let! o := executed (with_limit limit) req (input_with None (Some (repeat_byte (byte_string 0) limit)) None) in
  check (negb (matches! fst o with Err NE_RequestBodyLimitExceeded))).

(** As they stand, and evaluated with a smaller limit. *)
Definition request_body_limit_before_network : option unit := body_over_limit DEFAULT_REQUEST_BODY_LIMIT.
Definition request_body_at_limit_passes_validation : option unit := body_at_limit DEFAULT_REQUEST_BODY_LIMIT.
Definition smaller_body_limits : test := body_over_limit 100;; body_at_limit 100.

(** *** Redirects *)

Definition redirect_rejected (url : string) : test :=
  assert (matches! validate_redirect_url url false with Err (NE_RedirectRejected _)).

Definition validate_redirect_url_https_accepted : test := unwrap (validate_redirect_url "https://example.com/path" false).

Definition validate_redirect_url_http_accepted_when_allowed : test :=
  unwrap (validate_redirect_url "http://example.com/path" true).

Definition validate_redirect_url_http_rejected_by_default : test := redirect_rejected "http://example.com/path".

Definition validate_redirect_url_downgrade_rejected : test := redirect_rejected "http://example.com/path".

Definition validate_redirect_url_unsupported_scheme : test := redirect_rejected "ftp://example.com/path".

Definition validate_redirect_url_blocked_host_passes_validation : test :=
  unwrap (validate_redirect_url "https://127.0.0.1/path" false).

Definition validate_redirect_url_empty_host : test :=
  assert (matches! validate_redirect_url "https:///path" false with Err (NE_InvalidUrl _)).

Definition parts_are (url host : string) (port : Z) : test :=
  p ← unwrap (parse_url_parts url); assert_eq (pu_host p) host;; assert_eq (pu_port p) port.

Definition parse_url_parts_https : test := parts_are "https://example.com:8443/path" "example.com" 8443.

Definition parse_url_parts_default_port : test := parts_are "https://example.com/path" "example.com" 443.

Definition parse_url_parts_http_default_port : test := parts_are "http://example.com/path" "example.com" 80.

Definition parse_url_parts_unsupported_scheme : test := unwrap_err (parse_url_parts "ftp://example.com/path");; Some tt.

Definition redirect_limit_constants_consistent : test := assert (DEFAULT_REDIRECT_LIMIT <=? MAX_REDIRECT_LIMIT)%nat.

Definition redirect_https_to_http_downgrade_redirect_fails : test := redirect_rejected "http://example.com/downgrade".

Definition sensitive_response_headers_identified : test :=
  mapM (fun h => assert (is_sensitive_response_header h))
    ["set-cookie"; "authorization"; "proxy-authenticate"; "www-authenticate"];; Some tt.

Definition non_sensitive_headers_not_redacted : test :=
  assert (negb (is_sensitive_response_header "content-type"));;
  assert (negb (is_sensitive_response_header "cache-control")).

Definition address_classification_deterministic : test :=
  assert_eq (is_blocked_ip (v4 10 0 0 1)) (is_blocked_ip (v4 10 0 0 1)).

Definition is_timeout_from_io_error : test := assert (is_timeout_from_source [Src_Io true]).

Definition is_timeout_from_non_timeout_io : test := assert (negb (is_timeout_from_source [Src_Io false])).

Definition is_timeout_from_non_timeout_error : test := assert (negb (is_timeout_from_source [Src_Other])).

(** *** With a server on the loopback interface *)

Definition spawn_test_server (response : string) : Server :=
  reply 200 [("content-length", dec (len response)); ("connection", "close")] [response; ""].

Definition spawn_test_server_with_headers (response : string) (extra_headers : list (string * string)) : Server :=
  reply 200 (extra_headers ++ [("content-length", dec (len response)); ("connection", "close")]) [response; ""].

(** The body arrives in pieces of 8192 bytes. *)
Definition spawn_large_body_server (body_size : Z) : Server :=
  reply 200 [("content-length", dec body_size); ("connection", "close")]
    (List.repeat (repeat_byte "x" 8192) (Z.to_nat (body_size / 8192)) ++ [repeat_byte "x" (body_size mod 8192); ""]).

Definition redirect_to (location : string) : Server :=
  reply 302 [("location", location); ("content-length", "0"); ("connection", "close")] [""].

Definition server_answers (response : string) : test := with_server (spawn_test_server response) (
  let! req := net_request_with_port "127.0.0.1" "http" 49152 in
  let! o := executed local_enforcer req no_input in
  let! outcome := must (fst o) in
  let! _ := check_eq (no_status outcome) 200 in
  let! _ := check_eq (no_body outcome) response in
  check (ep_consumed (snd o))).

Definition http_loopback_with_allow_loopback_succeeds : test := server_answers "hello".

Definition https_loopback_with_allow_loopback_succeeds : test := server_answers "world".

Definition loopback_blocked_without_allow_loopback : test := with_server (spawn_test_server "should-not-reach") (
  let! req := net_request_with_port "127.0.0.1" "http" 49152 in
  let! o := executed enforcer req no_input in
  check (matches! fst o with Err NE_PlainHttpDisabled)).

(** The client gives the names of the headers in lower case. *)
Definition sensitive_response_headers_redacted : test := with_server
  (spawn_test_server_with_headers "body"
     [("set-cookie", "session=abc"); ("authorization", "Bearer token"); ("proxy-authenticate", "Basic");
      ("content-type", "text/plain")]) (
  let! req := net_request_with_port "127.0.0.1" "http" 49152 in
  let! o := executed local_enforcer req no_input in
  let! outcome := must (fst o) in
  let header_names := map fst (no_headers outcome) in
  let! _ := check (negb (existsb (String.eqb "set-cookie") header_names)) in
  let! _ := check (negb (existsb (String.eqb "authorization") header_names)) in
  let! _ := check (negb (existsb (String.eqb "proxy-authenticate") header_names)) in
  check (existsb (String.eqb "content-type") header_names)).

Definition head_response_returns_no_body : test := with_server (spawn_test_server "this-should-not-appear") (
  let! req := net_request_with_port "127.0.0.1" "http" 49152 in
  let! o := executed local_enforcer req (input_with (Some M_Head) None None) in
  let! outcome := must (fst o) in
  let! _ := check_eq (no_status outcome) 200 in
  check (is_empty (no_body outcome))).

Definition response_body_limit_during_streaming : test := with_server (spawn_large_body_server 100000) (
  let! req := net_request_with_port "127.0.0.1" "http" 49152 in
  let! o := executed local_enforcer req (input_with None None (Some 100)) in
  check (matches! fst o with Err NE_ResponseBodyLimitExceeded)).

Definition redirect_to_private_ip_is_blocked : test := with_server (redirect_to "http://10.0.0.1/") (
  let! req := net_request_with_port "127.0.0.1" "http" 49152 in
  let! o := executed local_enforcer req no_input in
  check (matches! fst o with Err (NE_RedirectRejected _))).

Definition redirect_to_metadata_hostname_blocked : test := with_server (redirect_to "http://metadata.google.internal/") (
  let! req := net_request_with_port "127.0.0.1" "http" 49152 in
  let! o := executed local_enforcer req no_input in
  check (matches! fst o with Err NE_MetadataEndpointBlocked)).

(** *** All of them *)

Example network_tests : passes
    [expired_permit_rejected; consumed_permit_rejected; forged_permit_rejected;
     dns_failure_consumes_permit; dns_failure_reuse_consumed_permit; no_dns_before_permit_verified;
     wrong_resource_type_before_dns; command_resource_before_dns;
     file_resource_never_reaches_network; command_resource_rejected; https_accepted_by_default;
     http_rejected_by_default; http_accepted_when_enabled; unsupported_scheme_rejected;
     credentials_in_host_rejected_by_core; loopback_ipv4_blocked; private_ipv4_blocked;
     link_local_ipv4_blocked; metadata_ip_blocked; loopback_ipv6_blocked; link_local_ipv6_blocked;
     unique_local_ipv6_blocked; ipv4_mapped_blocked; cgnat_blocked; multicast_ipv4_blocked;
     metadata_hostname_detected; unspecified_ipv4_blocked; broadcast_ipv4_blocked;
     ipv6_unspecified_blocked; ipv6_multicast_blocked; public_ipv4_not_blocked;
     public_ipv6_not_blocked; resolve_host_returns_blocked_address; localhost_rejected_by_default;
     forbidden_host_header_rejected; crlf_injection_rejected; header_count_limit_enforced;
     empty_header_name_rejected; header_name_too_long_rejected; header_value_too_long_rejected;
     forbidden_headers_list; empty_host_rejected; null_host_rejected; control_char_host_rejected;
     host_too_long_rejected; valid_host_accepted; smaller_body_limits;
     validate_redirect_url_https_accepted; validate_redirect_url_http_accepted_when_allowed;
     validate_redirect_url_http_rejected_by_default; validate_redirect_url_downgrade_rejected;
     validate_redirect_url_unsupported_scheme;
     validate_redirect_url_blocked_host_passes_validation; validate_redirect_url_empty_host;
     parse_url_parts_https; parse_url_parts_default_port; parse_url_parts_http_default_port;
     parse_url_parts_unsupported_scheme; redirect_limit_constants_consistent;
     redirect_https_to_http_downgrade_redirect_fails; sensitive_response_headers_identified;
     non_sensitive_headers_not_redacted; address_classification_deterministic;
     is_timeout_from_io_error; is_timeout_from_non_timeout_io; is_timeout_from_non_timeout_error;
     http_loopback_with_allow_loopback_succeeds; https_loopback_with_allow_loopback_succeeds;
     loopback_blocked_without_allow_loopback; sensitive_response_headers_redacted;
     head_response_returns_no_body; response_body_limit_during_streaming;
     redirect_to_private_ip_is_blocked; redirect_to_metadata_hostname_blocked] = true.
Proof. vm_compute. reflexivity. Qed.

End NetTests.
