(* ===== verification/TestRuntime.v ===== *)
(** * The tests of kavach-runtime and kavach-gateway, on the model

    The unit tests of crates/kavach-runtime/src/runtime.rs, lib.rs and outcome.rs and of
    crates/kavach-gateway/src/tests.rs, translated one by one over a machine whose only
    device is the disk of [TestEnforce]; then the property tests of kavach-approval, which
    are about the runtime, on chosen texts.  Every call gets its time, identifiers and random
    bytes from a counter; calls made by several threads are made in some order.  Where a test
    puts a runtime together by hand its broker writes to a second audit log, here to the one
    of the runtime; no such test looks at a log.  A request over HTTP comes with its route
    and its body as data; an answer is looked at as JSON.  Left out are the tests of derived
    JSON readers, of debug texts, of tokio's semaphore and of the answers that tower-http
    gives by itself. *)

From stdpp Require Import base tactics option list strings.
From Stdlib Require Import ZArith Lia Ascii.
From S2P Require Import Prelude RustStr Utf8 BTree Json Redaction CoreError CoreIds CorePath CoreResource.
From S2P Require Import CoreRequest CoreDecision CorePermit PolicyModel PolicyEngine PolicyProps.
From S2P Require Import AuditModel ApprovalModel ApprovalBroker Instances EnforceFs EnforceCmd EnforceNet.
From S2P Require Import PolicyLoad AuditVerify Runtime RuntimeMachine GatewayModel GatewayTypes Gateway GatewayServer.
From S2P Require Import GatewayExamples GatewayHttp GatewayServe TestPolicy TestRecords TestEnforce.

Open Scope Z_scope.

#[local] Existing Instances horner_sha brief_request_json toy_hex toy_json toy_time toy_ids_error.
#[local] Existing Instances segment_globs ascii_lower ascii_upper disk_fs pattern_matcher fixed_scores.
#[local] Instance brief_debug : ResourceDebug := {| resource_debug _ := "resource" |}.

(** No program and no network on this machine. *)
#[local] Instance no_programs : ProcOs Disk := {| os_spawn _ d := (Err "not found", d); os_vars _ := [] |}.
#[local] Instance no_network : NetOs Disk :=
  {| os_resolve _ d := (Err "no network", d);
     http_send _ d := (Err (Ureq_Transport UK_ConnectionFailed "no network" []), d) |}.

#[local] Notation "'matches!' r 'with' p" := (match r with p => true | _ => false end)
  (at level 10, r at level 200, p pattern at level 200).

Module RuntimeTests.

(** The databases and the machine, and the number of calls so far. *)
Record Site := { st_state : RtState (Machine Disk); st_calls : Z }.
Abbreviation run A := (scenario Site A).

(** A built runtime and its registry. *)
Abbreviation Built := (KavachRuntime * AdapterRegistry)%type.

(** [TempDir::new()] with the directory of the workspace. *)
Definition workspace : OsPath := ["tmp"; "workspace"].
Definition tmp : Site :=
  {| st_state := {| rs_broker := {| br_approvals := []; br_audit := [] |};
                    rs_world := {| mc_world := [(workspace, E_Dir)]; mc_fs := []; mc_cmd := []; mc_net := [] |} |};
     st_calls := 0 |}.
Definition in_tmp (m : run unit) : test := play m tmp.
Definition disk : run Disk := fun s => (Ok (mc_world (rs_world (st_state s))), s).
Definition put_file (name content : string) : run unit := fun s =>
  let m := rs_world (st_state s) in
  (Ok tt, {| st_state := {| rs_broker := rs_broker (st_state s);
                            rs_world := {| mc_world := entry_set (workspace ++ [name]) (E_File content) (mc_world m);
                                           mc_fs := mc_fs m; mc_cmd := mc_cmd m; mc_net := mc_net m |} |};
             st_calls := st_calls s |}).

(** The circumstances of the [n]-th call, at second [n]. *)
Definition env_of (n : Z) : RtEnv :=
  {| re_now _ := n * SECOND; re_append _ := no_faults;
     re_event_id k := "event-" +:+ dec n +:+ "-" +:+ dec (Z.of_nat k); re_timestamp _ := "2026-01-01";
     re_random := Ok ("secret-" +:+ dec n);
     re_broker k := {| ce_lock := None; ce_clock _ := n * SECOND; ce_store _ := no_store_faults;
                       ce_append := no_faults; ce_event_id := "broker-" +:+ dec n +:+ "-" +:+ dec (Z.of_nat k);
                       ce_timestamp := "2026-01-01"; ce_uuid := "approval-" +:+ dec n;
                       ce_random := Ok ("token-" +:+ dec n) |} |}.
Definition call {A} (f : RtEnv -> stateful BrokerState RuntimeError A) : run (result RuntimeError A) := fun s =>
  let '(r, b) := f (env_of (st_calls s)) (rs_broker (st_state s)) in
  (Ok r, {| st_state := {| rs_broker := b; rs_world := rs_world (st_state s) |}; st_calls := st_calls s + 1 |}).

Definition evaluate_ (t : Built) request := call (fun env => evaluate (fst t) env request).
Definition approve_ (t : Built) i actor := call (fun env => rt_approve (fst t) env i actor).
Definition deny_ (t : Built) i actor reason := call (fun env => rt_deny (fst t) env i actor reason).
Definition consume_approval_ (t : Built) request i token :=
  call (fun env => consume_approval (fst t) env request i token).
(** [execute]: the result and the permit afterwards. *)
Definition execute_ (t : Built) request permit secret input
  : run (result RuntimeError ExecutionResult * ExecutionPermit) := fun s =>
  let '(r, p, st) :=
    execute (fst t) (FA := machine_fs (snd t) (fun _ => "0")) (CA := machine_cmd (snd t))
      (NA := machine_net (snd t)) (env_of (st_calls s)) request permit secret input (st_state s) in
  (Ok (r, p), {| st_state := st; st_calls := st_calls s + 1 |}).
Definition generate_token : run ApprovalToken := must (ApprovalToken_generate (Ok "fake-token")).
Definition events : run (list AuditEventCategory) := fun s =>
  (map_err (fun _ => tt) (let? l := AuditStore_events_after_sequence None (br_audit (rs_broker (st_state s))) 0 10 in
                          Ok (map ev_category l)), s).

(** A policy with one rule on one operation. *)
Definition one_rule_policy (id name rule_id : string) (effect : Effect) (operation : string) : option Policy :=
  i ← unwrap (Id_new id); r ← rule rule_id effect [ops [operation]];
  Some {| policy_id := i; policy_name := name; policy_description := ""; policy_default_effect := D_Deny;
          policy_rules := [r] |}.

Definition allow_read_policy : option Policy :=
  one_rule_policy "pol-allow" "allow-read" "allow-read-rule" E_Allow "file_read".
Definition deny_all_policy : option Policy :=
  one_rule_policy "pol-deny" "deny-all" "deny-all-rule" E_Deny "file_read".
Definition require_approval_policy : option Policy :=
  one_rule_policy "pol-approval" "require-approval" "require-approval-rule" E_RequireApproval "file_read".

Definition request_by (id agent session : string) (op : Operation) (resource : option Resource) : option ToolRequest :=
  i ← unwrap (Id_new id); a ← unwrap (Id_new agent); s ← unwrap (Id_new session); r ← resource;
  c ← unwrap (RequestContext_new 0 None None None None false);
  Some (ToolRequest_new i (AgentSubjectBuilder_build (AgentSubjectBuilder_trust_level (AgentSubjectBuilder_new a s) Standard))
          op r c).
Definition file_request (id agent session path : string) : option ToolRequest :=
  request_by id agent session (FileRead None) (unwrap (Resource_file path)).
Definition make_file_read_request : run ToolRequest :=
  must_some (file_request "req-e2e" "agent-e2e" "sess-e2e" "/workspace/test.txt").

Definition make_actor (name : string) : run ApprovalActor := must (ApprovalActor_new name).

(** [builder.build().unwrap()]; the databases are new. *)
Definition built (b : RuntimeBuilder) : run Built :=
  let! d := disk in
  let! t := must (build b d workspace (composite_redactor (CompositeRedactorBuilder_build CompositeRedactorBuilder_new))
                    (fun _ => Ok []) (fun _ => Ok [])) in
  st_ret (fst t).
Definition with_policies (policies : list (option Policy)) (b : RuntimeBuilder) : option RuntimeBuilder :=
  l ← mapM id policies; Some (foldl add_policy b l).

Definition build_runtime (policies : list (option Policy)) : run Built :=
  let config := {| rc_permit_ttl := 300 * NANOS_PER_SEC; rc_audit_fail_closed := true;
                   rc_redaction_enabled := false; rc_max_sanitized_summary_length := 4096;
                   rc_dry_run := false |} in
  let! b := must_some (with_policies policies
                         (with_audit_db "audit.db" (with_workspace_root workspace
                            (with_config config RuntimeBuilder_new)))) in
  built b.

(** A runtime put together from its parts. *)
Definition by_hand (policies : list (option Policy)) (config : RuntimeConfig) : run Built :=
  let! l := must_some (mapM id policies) in
  let! engine := must (PolicyEngine_new l) in
  let! d := disk in
  let! registry := must (AdapterRegistry_new_test d workspace) in
  st_ret ({| rt_engine := engine; rt_config := config; rt_approval_config := ApprovalStoreConfig_default;
             rt_redactor := None |}, registry).

(** [runtime.evaluate(&req).unwrap()] and what it must be. *)
Definition evaluated (t : Built) (r : ToolRequest) : run RuntimeOutcome := let! o := evaluate_ t r in must o.
Definition permitted (t : Built) (r : ToolRequest) : run PermittedOutcome :=
  let! o := evaluated t r in must_some match o with RO_Permitted p => Some p | _ => None end.
Definition is_denied (o : RuntimeOutcome) : run unit := check (matches! o with RO_Denied _ _ _ _ _).
Definition asked (t : Built) (r : ToolRequest) : run ApprovalId :=
  let! o := evaluated t r in must_some match o with RO_ApprovalRequired _ i _ _ => Some i | _ => None end.
Definition is_approval_failure {A} (r : result RuntimeError A) : run unit :=
  check (matches! r with Err (RE_ApprovalFailure _)).
Definition is_permit_failure {A} (r : result RuntimeError A) : run unit :=
  check (matches! r with Err (RE_PermitFailure _)).
Definition approved (t : Built) (i : ApprovalId) (name : string) : run ApprovalToken :=
  let! actor := make_actor name in let! r := approve_ t i actor in must r.
Definition denied (t : Built) (i : ApprovalId) (name : string) (reason : string) : run unit :=
  let! actor := make_actor name in let! r := deny_ t i actor (Some reason) in must r.

(** *** Evaluation *)

Definition invalid_request_fails_closed : test := in_tmp (
  let! req := must_some (request_by "req-invalid" "agent" "sess" CommandExecute
                           (unwrap (Resource_file "/workspace/test.txt"))) in
  let! runtime := build_runtime [allow_read_policy] in
  let! result := evaluate_ runtime req in
  check (matches! result with Err (RE_InvalidRequest _))).

Definition explicit_deny_returns_denied : test := in_tmp (
  let! runtime := build_runtime [deny_all_policy] in
  let! req := make_file_read_request in
  let! outcome := evaluated runtime req in is_denied outcome).

Definition deny_has_no_permit : test := in_tmp (
  let! runtime := build_runtime [deny_all_policy] in
  let! req := make_file_read_request in
  let! outcome := evaluated runtime req in is_denied outcome).

Definition allow_returns_permit : test := in_tmp (
  let! runtime := build_runtime [allow_read_policy] in
  let! req := make_file_read_request in
  let! _ := permitted runtime req in st_ret tt).

Definition permit_is_bound_to_request : test := in_tmp (
  let! runtime := build_runtime [allow_read_policy] in
  let! req := make_file_read_request in
  let! p := permitted runtime req in
  let! _ := check_eq (ep_request_digest (po_permit p)) (compute_request_digest req) in
  check_eq (id_str (ep_request_id (po_permit p))) "req-e2e").

Definition require_approval_creates_pending : test := in_tmp (
  let! runtime := build_runtime [require_approval_policy] in
  let! req := make_file_read_request in
  let! _ := asked runtime req in st_ret tt).

(** *** Approvals *)

Definition approval_flow_produces_permit : test := in_tmp (
  let! runtime := build_runtime [require_approval_policy] in
  let! req := make_file_read_request in
  let! outcome := evaluated runtime req in
  let! ids := must_some match outcome with RO_ApprovalRequired r a _ _ => Some (a, r) | _ => None end in
  let! token := approved runtime (fst ids) "alice" in
  let! r := consume_approval_ runtime req (fst ids) token in
  let! permitted := must r in
  let! _ := check_eq (id_str (ep_request_id (po_permit permitted))) (id_str (snd ids)) in
  let! _ := check_eq (map id_str (ep_matched_rule_ids (po_permit permitted))) ["require-approval-rule"] in
  let! _ := check (negb (bool_decide (po_permit_secret permitted = repeat_byte (byte_string 0) 32))) in
  let! categories := events in
  check_eq categories [ApprovalRequested; ApprovalApproved; ApprovalConsumed]).

Definition wrong_approval_token_rejected : test := in_tmp (
  let! runtime := build_runtime [require_approval_policy] in
  let! req := make_file_read_request in
  let! approval_id := asked runtime req in
  let! fake_token := generate_token in
  let! r := consume_approval_ runtime req approval_id fake_token in is_approval_failure r).

Definition denied_approval_never_produces_permit : test := in_tmp (
  let! runtime := build_runtime [require_approval_policy] in
  let! req := make_file_read_request in
  let! approval_id := asked runtime req in
  let! _ := denied runtime approval_id "alice" "not needed" in
  let! fake_token := generate_token in
  let! r := consume_approval_ runtime req approval_id fake_token in is_approval_failure r).

Definition modified_request_after_approval_rejected : test := in_tmp (
  let! runtime := build_runtime [require_approval_policy] in
  let! req := make_file_read_request in
  let! approval_id := asked runtime req in
  let! token := approved runtime approval_id "alice" in
  let! modified_req := must_some (file_request "req-modified" "agent-e2e" "sess-e2e" "/workspace/test.txt") in
  let! r := consume_approval_ runtime modified_req approval_id token in
  let! _ := is_permit_failure r in
  let! r := consume_approval_ runtime req approval_id token in
  let! permitted := must r in
  check_eq (id_str (ep_request_id (po_permit permitted))) (id_str (tr_request_id req))).

Definition permit_replay_rejected : test := in_tmp (
  let! runtime := build_runtime [allow_read_policy] in
  let! req := make_file_read_request in
  let! p := permitted runtime req in
  let! _ := check (ExecutionPermit_verify_secret (po_permit p) (po_permit_secret p)) in
  let first := ExecutionPermit_consume (po_permit p) in
  let! _ := check (fst first) in
  check (negb (fst (ExecutionPermit_consume (snd first))))).

Definition permit_for_another_request_rejected : test := in_tmp (
  let! runtime := build_runtime [allow_read_policy] in
  let! req := make_file_read_request in
  let! p := permitted runtime req in
  let! other_req := must_some (file_request "req-other" "agent-other" "sess-other" "/workspace/other.txt") in
  check (negb (ExecutionPermit_verify_request_digest (po_permit p) (compute_request_digest other_req)))).

(** *** Dry runs *)

Definition dry_run_config : RuntimeConfig :=
  {| rc_permit_ttl := rc_permit_ttl RuntimeConfig_default;
     rc_audit_fail_closed := rc_audit_fail_closed RuntimeConfig_default;
     rc_redaction_enabled := rc_redaction_enabled RuntimeConfig_default;
     rc_max_sanitized_summary_length := rc_max_sanitized_summary_length RuntimeConfig_default;
     rc_dry_run := true |}.

Definition dry_run_rejects : run unit :=
  let! runtime := by_hand [allow_read_policy] dry_run_config in
  let! req := make_file_read_request in
  let! p := permitted runtime req in
  let! o := execute_ runtime req (po_permit p) (po_permit_secret p) EI_None in
  check (matches! fst o with Err RE_DryRunExecutionRejected).

Definition dry_run_never_issues_usable_permit : test := in_tmp dry_run_rejects.

Definition dry_run_permit_never_executes : test := in_tmp dry_run_rejects.

Definition repeated_evaluation_is_deterministic : test := in_tmp (
  let! runtime := build_runtime [allow_read_policy] in
  let! req := make_file_read_request in
  let! _ := permitted runtime req in let! _ := permitted runtime req in st_ret tt).

Definition scope_sufficient_checks_work : test :=
  assert (scope_sufficient FilesystemRead FilesystemRead);;
  assert (scope_sufficient FilesystemRead FilesystemWrite);;
  assert (scope_sufficient FilesystemRead FilesystemMutation);;
  assert (scope_sufficient FilesystemWrite FilesystemMutation);;
  assert (scope_sufficient CommandLowRisk CommandElevated);;
  assert (scope_sufficient CommandLowRisk CommandDestructive);;
  assert (scope_sufficient CommandElevated CommandDestructive);;
  assert (negb (scope_sufficient FilesystemWrite FilesystemRead));;
  assert (negb (scope_sufficient FilesystemMutation FilesystemRead));;
  assert (negb (scope_sufficient CommandElevated CommandLowRisk));;
  assert (negb (scope_sufficient FilesystemRead PS_NetworkRequest));;
  assert (negb (scope_sufficient PS_NetworkRequest CommandLowRisk)).

Definition is_missing_adapter (req : option ToolRequest) : test :=
  r ← req; assert (matches! resolve_operation r with Err (RE_MissingAdapter _)).

Definition missing_adapter_fails_closed : test :=
  is_missing_adapter (request_by "req-secret" "agent" "sess" SecretAccess (Some (R_Secret "my-key"))).

Definition unsupported_tool_invoke_fails_closed : test :=
  is_missing_adapter (request_by "req-tool" "agent" "sess" (ToolInvoke "my-tool") (Some (R_ExternalTool "my-tool"))).

(** Four threads, in some order. *)
Definition concurrent_evaluation_is_safe : test := in_tmp (
  let! runtime := build_runtime [allow_read_policy] in
  let! req := make_file_read_request in
  for_all (seq 0 4) (fun _ => let! _ := permitted runtime req in st_ret tt)).

Fixpoint successes (n : nat) (m : run bool) : run nat :=
  match n with
  | O => st_ret 0%nat
  | S n' => let! ok := m in let! k := successes n' m in st_ret (if ok then S k else k)
  end.

Definition concurrent_approval_token_consumption_produces_one_success : test := in_tmp (
  let! runtime := build_runtime [require_approval_policy] in
  let! req := make_file_read_request in
  let! approval_id := asked runtime req in
  let! token := approved runtime approval_id "alice" in
  let! n := successes 3 (let! r := consume_approval_ runtime req approval_id token in st_ret (is_ok r)) in
  check_eq n 1%nat).

(** *** Configuration and several policies *)

Definition open_config : RuntimeConfig :=
  {| rc_permit_ttl := 300 * NANOS_PER_SEC; rc_audit_fail_closed := false; rc_redaction_enabled := false;
     rc_max_sanitized_summary_length := 4096; rc_dry_run := false |}.

Definition audit_fail_closed_rejects_on_audit_failure : test := in_tmp (
  let! runtime := by_hand [allow_read_policy] open_config in
  let! req := make_file_read_request in
  let! _ := permitted runtime req in st_ret tt).

Definition empty_policy_default_deny : test := in_tmp (
  let! runtime := build_runtime [] in
  let! req := make_file_read_request in
  let! outcome := evaluated runtime req in is_denied outcome).

Definition max_summary_length_truncation : test := in_tmp (
  let config := {| rc_permit_ttl := 300 * NANOS_PER_SEC; rc_audit_fail_closed := false;
                   rc_redaction_enabled := false; rc_max_sanitized_summary_length := 10;
                   rc_dry_run := false |} in
  let! b := must_some (with_policies [deny_all_policy]
                         (with_audit_db "audit.db" (with_workspace_root workspace
                            (with_config config RuntimeBuilder_new)))) in
  let! runtime := built b in
  let! req := make_file_read_request in
  let! outcome := evaluated runtime req in
  check match outcome with RO_Denied _ _ _ sanitized_summary _ => len sanitized_summary <=? 10 | _ => false end).

Definition deny_precedence_over_allow : test := in_tmp (
  let! runtime := build_runtime [allow_read_policy; deny_all_policy] in
  let! req := make_file_read_request in
  let! outcome := evaluated runtime req in is_denied outcome).

Definition approval_precedence_over_allow : test := in_tmp (
  let! runtime := build_runtime [allow_read_policy; require_approval_policy] in
  let! req := make_file_read_request in
  let! _ := asked runtime req in st_ret tt).

Definition deny_precedence_over_approval : test := in_tmp (
  let! runtime := build_runtime [require_approval_policy; deny_all_policy] in
  let! req := make_file_read_request in
  let! outcome := evaluated runtime req in is_denied outcome).

(** *** Permits at execution *)

Definition permit_wrong_scope_rejected_at_execution : test := in_tmp (
  let! runtime := build_runtime [allow_read_policy] in
  let! req := make_file_read_request in
  let secret := repeat_byte (byte_string 42) 32 in
  let permit := ExecutionPermit_new 0 secret (tr_request_id req) PS_NetworkRequest [] (compute_request_digest req)
                  (300 * NANOS_PER_SEC) in
  let! o := execute_ runtime req permit secret EI_None in
  check (matches! fst o with Err (RE_PermitScopeMismatch _ _))).

(** Execution with the permit and the secret of an evaluation, changed by a test. *)
Definition execution_fails (change : PermittedOutcome -> ExecutionPermit * string) : test := in_tmp (
  let! runtime := build_runtime [allow_read_policy] in
  let! req := make_file_read_request in
  let! p := permitted runtime req in
  let! o := execute_ runtime req (fst (change p)) (snd (change p)) EI_None in is_permit_failure (fst o)).

(** Evaluated at second 0 and executed at second 1. *)
Definition expired_permit_rejected_at_execution : test := execution_fails (fun p =>
  let permit := po_permit p in
  ({| ep_token_hash := ep_token_hash permit; ep_request_id := ep_request_id permit; ep_scope := ep_scope permit;
      ep_matched_rule_ids := ep_matched_rule_ids permit; ep_issued_at := ep_issued_at permit;
      ep_expires_at := 1 * SECOND - 1 * SECOND; ep_consumed := ep_consumed permit;
      ep_request_digest := ep_request_digest permit |}, po_permit_secret p)).

Definition execute_with_consumed_permit_rejected : test := execution_fails (fun p =>
  (snd (ExecutionPermit_consume (po_permit p)), po_permit_secret p)).

Definition execute_wrong_secret_rejected : test := execution_fails (fun p =>
  (po_permit p, repeat_byte (byte_string 0) 32)).

Definition execute_wrong_request_digest_rejected : test := in_tmp (
  let! runtime := build_runtime [allow_read_policy] in
  let! req := make_file_read_request in
  let! p := permitted runtime req in
  let! other_req := must_some (file_request "req-other" "agent-other" "sess-other" "/workspace/other.txt") in
  let! o := execute_ runtime other_req (po_permit p) (po_permit_secret p) EI_None in is_permit_failure (fst o)).

Definition execute_file_read_round_trip : test := in_tmp (
  let! _ := put_file "exec-test.txt" "verified runtime read" in
  let! runtime := build_runtime [allow_read_policy] in
  let! req := must_some (file_request "req-read-exec" "agent" "sess" "exec-test.txt") in
  let! p := permitted runtime req in
  let! o := execute_ runtime req (po_permit p) (po_permit_secret p) EI_None in
  let! _ := check match fst o with
                  | Ok (ER_Filesystem (FO_FileRead bytes bytes_read)) =>
                      String.eqb bytes "verified runtime read" && (bytes_read =? 21)
                  | _ => false
                  end in
  let! _ := check (ep_consumed (snd o)) in
  let! categories := events in
  check_eq categories [DecisionAllow; ExecutionStarted; ExecutionSucceeded]).

(** *** The builder, approvals again, inputs, redaction *)

Definition builder_missing_workspace_root_defaults_to_current_dir : test := in_tmp (
  let! b := must_some (with_policies [allow_read_policy]
                         (with_audit_db "audit.db" (with_config RuntimeConfig_default RuntimeBuilder_new))) in
  let! runtime := built b in
  let! req := make_file_read_request in
  let! _ := permitted runtime req in st_ret tt).

Definition disapproval_after_deny_stays_denied : test := in_tmp (
  let! runtime := build_runtime [require_approval_policy] in
  let! req := make_file_read_request in
  let! approval_id := asked runtime req in
  let! _ := denied runtime approval_id "bob" "not needed" in
  let! token := generate_token in
  let! r := consume_approval_ runtime req approval_id token in check (negb (is_ok r))).

Definition second_approve_rejected : test := in_tmp (
  let! runtime := build_runtime [require_approval_policy] in
  let! req := make_file_read_request in
  let! approval_id := asked runtime req in
  let! _ := approved runtime approval_id "alice" in
  let! actor := make_actor "bob" in
  let! r := approve_ runtime approval_id actor in is_approval_failure r).

(** An allowed request of another kind, executed without its input. *)
Definition input_is_needed (policy : option Policy) (request : option ToolRequest) : test := in_tmp (
  let! runtime := by_hand [policy] RuntimeConfig_default in
  let! req := must_some request in
  let! p := permitted runtime req in
  let! o := execute_ runtime req (po_permit p) (po_permit_secret p) EI_None in
  check (matches! fst o with Err (RE_InvalidExecutionInput _))).

Definition execute_command_without_command_input_rejected : test :=
  input_is_needed (one_rule_policy "pol-cmd" "allow-cmd" "cmd-rule" E_Allow "command_execute")
    (request_by "req-cmd" "agent" "sess" CommandExecute (R_Command <$> unwrap (CommandResource_new "echo" ["hello"]))).

Definition execute_network_without_network_input_rejected : test :=
  input_is_needed (one_rule_policy "pol-net" "allow-net" "net-rule" E_Allow "network_request")
    (request_by "req-net" "agent" "sess" NetworkRequest
       (s ← unwrap (NetworkScheme_new "https"); h ← unwrap (NetworkHost_new "example.com");
        n ← unwrap (NetworkResource_new s h None "/"); Some (R_NetworkEndpoint n))).

Definition redaction_sanitizes_summary : test := in_tmp (
  let! container := must (SecretContainer_add "secret-token" SecretContainer_new) in
  let redactor := composite_redactor
    (CompositeRedactorBuilder_build (CompositeRedactorBuilder_with_exact_secrets container CompositeRedactorBuilder_new)) in
  let! b := must_some (with_policies [deny_all_policy]
                         (builder_with_redactor redactor
                           (with_audit_db "audit.db" (with_workspace_root workspace
                              (with_config RuntimeConfig_default RuntimeBuilder_new))))) in
  let! runtime := built b in
  let! req := make_file_read_request in
  let! outcome := evaluated runtime req in
  check match outcome with
        | RO_Denied _ _ _ sanitized_summary _ => negb (contains "secret-token" sanitized_summary)
        | _ => false
        end).

(** *** All of them *)

Example runtime_tests : passes
    [invalid_request_fails_closed; explicit_deny_returns_denied; deny_has_no_permit;
     allow_returns_permit; permit_is_bound_to_request; require_approval_creates_pending;
     approval_flow_produces_permit; wrong_approval_token_rejected;
     denied_approval_never_produces_permit; modified_request_after_approval_rejected;
     permit_replay_rejected; permit_for_another_request_rejected;
     dry_run_never_issues_usable_permit; dry_run_permit_never_executes;
     repeated_evaluation_is_deterministic; scope_sufficient_checks_work;
     missing_adapter_fails_closed; unsupported_tool_invoke_fails_closed;
     concurrent_evaluation_is_safe; concurrent_approval_token_consumption_produces_one_success;
     audit_fail_closed_rejects_on_audit_failure; empty_policy_default_deny;
     max_summary_length_truncation; deny_precedence_over_allow; approval_precedence_over_allow;
     deny_precedence_over_approval; permit_wrong_scope_rejected_at_execution;
     expired_permit_rejected_at_execution; execute_with_consumed_permit_rejected;
     execute_wrong_secret_rejected; execute_wrong_request_digest_rejected;
     execute_file_read_round_trip; builder_missing_workspace_root_defaults_to_current_dir;
     disapproval_after_deny_stays_denied; second_approve_rejected;
     execute_command_without_command_input_rejected;
     execute_network_without_network_input_rejected; redaction_sanitizes_summary] = true.
Proof. vm_compute. reflexivity. Qed.

End RuntimeTests.

(** ** The guard (lib.rs) *)

Module GuardTests.

Definition guard_request : option ToolRequest :=
  RuntimeTests.file_request "req-1" "agent-1" "sess-1" "/workspace/foo.txt".
Definition guard_policy (rule_id : string) (effect : Effect) : option Policy :=
  RuntimeTests.one_rule_policy "pol-1" "test" rule_id effect "file_read".
Definition guard_allow_policy : option Policy := guard_policy "allow-read" E_Allow.
Definition guard_deny_policy : option Policy := guard_policy "deny-all" E_Deny.

Definition guarded (policy : option Policy) : option GuardOutcome :=
  p ← policy; guard ← unwrap (PolicyGuard_new [p] (300 * NANOS_PER_SEC)); r ← guard_request;
  unwrap (guard_evaluate guard (RuntimeTests.env_of 0) r).

Definition guard_returns_permitted_for_allowed_request : test :=
  o ← guarded guard_allow_policy; assert (matches! o with GO_Permitted _).

Definition guard_returns_denied_for_denied_request : test :=
  o ← guarded guard_deny_policy; assert (matches! o with GO_Denied _ _).

Definition guard_permit (name : string) (secret : Z) : option ExecutionPermit :=
  i ← unwrap (Id_new name);
  Some (ExecutionPermit_new 0 (repeat_byte (byte_string secret) 32) i FilesystemRead []
          (repeat_byte (byte_string 0) 32) (300 * NANOS_PER_SEC)).

Definition guard_execution_permit_verify_secret : test :=
  permit ← guard_permit "guard-test" 42;
  assert (ExecutionPermit_verify_secret permit (repeat_byte (byte_string 42) 32));;
  assert (negb (ExecutionPermit_verify_secret permit (repeat_byte (byte_string 99) 32))).

Definition guard_execution_permit_single_use : test :=
  permit ← guard_permit "guard-test2" 1;
  let first := ExecutionPermit_consume permit in
  let second := ExecutionPermit_consume (snd first) in
  assert (fst first);; assert (negb (fst second));;
  assert (ep_consumed (snd second));; assert (negb (ExecutionPermit_is_valid 1 (snd second))).

Definition guard_request_digest_is_deterministic : test :=
  r ← guard_request; assert_eq (compute_request_digest r) (compute_request_digest r).

(** *** All of them *)

Example guard_tests : passes
    [guard_returns_permitted_for_allowed_request; guard_returns_denied_for_denied_request;
     guard_execution_permit_verify_secret; guard_execution_permit_single_use;
     guard_request_digest_is_deterministic] = true.
Proof. vm_compute. reflexivity. Qed.

End GuardTests.

(** ** The gateway (tests.rs) *)

Module GatewayTests.

#[local] Existing Instances horner_sha brief_request_json real_hex toy_json toy_time toy_ids_error.
#[local] Existing Instances segment_globs ascii_lower disk_fs brief_debug no_toml no_files brief_texts.

(** [TestState]: the registry of the adapters, the state and the number of calls so far. *)
Record Desk := { dk_registry : AdapterRegistry; dk_state : GatewayState (Machine Disk); dk_calls : Z }.
Abbreviation run A := (scenario Desk A).
Definition set_state (s : GatewayState (Machine Disk)) (d : Desk) : Desk :=
  {| dk_registry := dk_registry d; dk_state := s; dk_calls := dk_calls d + 1 |}.

(** 32 bytes from a number, as random bytes and as a token. *)
Definition bytes32 (name : string) (n : Z) : string :=
  let s := name +:+ dec n in s +:+ repeat_byte "." (32 - len s).
Definition env_of (n : Z) : GwEnv :=
  {| gw_rt := {| re_now _ := n * SECOND; re_append _ := no_faults;
                 re_event_id k := "event-" +:+ dec n +:+ "-" +:+ dec (Z.of_nat k); re_timestamp _ := "2026-01-01";
                 re_random := Ok (bytes32 "secret-" n); re_broker := re_broker (RuntimeTests.env_of n) |};
     gw_now _ := n * SECOND; gw_runtime_lock := false;
     gw_permit_locks := {| pl_registry := false; pl_permit _ := false |}; gw_token_lock := false;
     gw_audit_fault := None |}.

Definition generate : GatewayToken * string := GatewayToken_generate (bytes32 "token-" 1).
Definition token : GatewayToken := fst generate.
Definition token_hex : string := snd generate.
Definition bearer_header (hex : string) : string := "Bearer " +:+ hex.

Definition file_read_request (id : string) : option ToolRequest :=
  RuntimeTests.file_request id "agent-1" "sess-1" "/workspace/test.txt".
Definition allow_all_policy : option Policy :=
  RuntimeTests.one_rule_policy "allow-all" "allow-all" "rule-allow-all" E_Allow "file_read".
Definition approval_policy : option Policy :=
  RuntimeTests.one_rule_policy "approval-policy" "approval-policy" "rule-require-approval" E_RequireApproval "file_read".

Definition workspace : OsPath := ["tmp"; "workspace"].
Definition test_runtime_with_policies (files : list (string * string)) (policies : list (option Policy))
  : option (KavachRuntime * AdapterRegistry * RtState (Machine Disk)) :=
  let config := {| rc_permit_ttl := 300 * NANOS_PER_SEC; rc_audit_fail_closed := true;
                   rc_redaction_enabled := false; rc_max_sanitized_summary_length := 4096;
                   rc_dry_run := false |} in
  let disk := (workspace, E_Dir) :: map (fun f => (workspace ++ [f.1], E_File f.2)) files in
  l ← mapM id policies;
  t ← unwrap (build (foldl add_policy (with_approval_db "approval.db" (with_audit_db "audit.db"
                       (with_workspace_root workspace (with_config config RuntimeBuilder_new)))) l)
                disk workspace (composite_redactor (CompositeRedactorBuilder_build CompositeRedactorBuilder_new))
                (fun _ => Ok []) (fun _ => Ok []));
  Some (fst t, {| rs_broker := snd t;
                  rs_world := {| mc_world := disk; mc_fs := []; mc_cmd := []; mc_net := [] |} |}).

Definition test_state_with_policies (files : list (string * string)) (policies : list (option Policy)) : option Desk :=
  t ← test_runtime_with_policies files policies;
  Some {| dk_registry := snd (fst t);
          dk_state := {| gs_runtime := fst (fst t); gs_stores := snd t; gs_permits := IssuedPermitRegistry_new;
                         gs_tokens := ∅;
                         gs_limiter := RateLimiter_new (gc_rate_limit_per_second GatewayConfig_default)
                                         (gc_rate_limit_burst GatewayConfig_default) |};
          dk_calls := 0 |}.
Definition test_state : option Desk := test_state_with_policies [] [allow_all_policy].
Definition on_state (d : option Desk) (m : run unit) : test := d ← d; play m d.
Definition with_gateway (m : run unit) : test := on_state test_state m.

(** *** The application of the tests *)

(** The layers of [test_api_router] that add headers. *)
Definition test_header_layers (request_id : string) (r : HttpResponse) : HttpResponse :=
  with_header "content-security-policy" "frame-ancestors 'none'"
    (with_header "referrer-policy" "no-referrer"
      (with_header "cache-control" "no-store"
        (with_header "x-content-type-options" "nosniff" (inject_request_id request_id r)))).

Definition test_api_router (q : HttpRequest) : run HttpResponse := fun d =>
  let FA := machine_fs (dk_registry d) (fun _ => "0") in
  let CA := machine_cmd (dk_registry d) in
  let NA := machine_net (dk_registry d) in
  let '(r, s) :=
    body_limit q (cors_layer q (map_answer (test_header_layers (rq_request_id q))
      (router (FA := FA) (CA := CA) (NA := NA) token "0.1.0" "127.0.0.1:7421" (env_of (dk_calls d)) q)))
      (dk_state d) in
  (Ok r, set_state s d).

(** The identifiers that the middleware draws, in the form of a UUID. *)
Definition uuid (n : Z) : string :=
  let s := dec n in "00000000-0000-4000-8000-" +:+ repeat_byte "0" (12 - len s) +:+ s.
Definition is_uuid (s : string) : bool :=
  bool_decide (map len (split_on (Ascii.eqb "-") s) = [8; 4; 4; 4; 12])
  && all_bytes (fun c => is_ascii_hexdigit c || Ascii.eqb c "-") s.

Definition http (authorization : option string) (route : Routed) : run HttpResponse := fun d =>
  test_api_router {| rq_arrival := dk_calls d * SECOND; rq_authorization := authorization;
                     rq_request_id := uuid (dk_calls d); rq_semaphore_closed := false; rq_late := false;
                     rq_too_large := None; rq_preflight := None; rq_cors := []; rq_route := route;
                     rq_uptime := 0 |} d.
(** [oneshot] without and with the token. *)
Definition anonymous (route : Routed) : run HttpResponse := http None route.
Definition operator (call : ApiCall) : run HttpResponse := http (Some (bearer_header token_hex)) (Ro_api call).

Definition body_of (r : HttpResponse) : option Value := match res_body r with B_Json v => Some v | _ => None end.
Definition at_path (path : list string) (r : HttpResponse) : option Value :=
  v ← body_of r; foldl (fun o k => o ≫= value_get k) (Some v) path.
Definition text_at (path : list string) (r : HttpResponse) : option string := at_path path r ≫= as_str.
Definition status_is (r : HttpResponse) (code : Z) : run unit := check_eq (res_status r) code.
Definition text_is (r : HttpResponse) (path : list string) (text : string) : run unit :=
  check_eq (text_at path r) (Some text).
Definition succeeded (r : HttpResponse) : run unit := let! _ := status_is r 200 in text_is r ["status"] "success".

(** *** Tokens and errors *)

Definition token_generate_produces_64_char_hex : test :=
  assert_eq (len token_hex) 64;; assert (is_ascii token_hex);; assert_eq (len (gt_hash token)) 32.

Definition token_verify_accepts_correct_token : test := assert (GatewayToken_verify token token_hex).

Definition token_refused (text : string) : test := assert (negb (GatewayToken_verify token text)).

Definition token_verify_rejects_wrong_token : test := token_refused (repeat_byte "0" 64).

Definition token_verify_rejects_empty_string : test := token_refused "".

Definition token_from_hash_round_trip : test :=
  assert (GatewayToken_verify (GatewayToken_from_hash (gt_hash token)) token_hex).

Definition verify_constant_time_rejects_short_input : test := token_refused "abc".

Definition verify_constant_time_rejects_long_input : test := token_refused (repeat_byte "a" 128).

Definition verify_constant_time_rejects_invalid_hex : test := token_refused (repeat_byte "z" 64).

Definition kavach_error_code_as_str : test :=
  assert_eq (map KavachErrorCode_as_str
      [KC_InvalidRequest; KC_Unauthenticated; KC_Forbidden; KC_NotFound; KC_Conflict; KC_PayloadTooLarge;
       KC_RateLimited; KC_Timeout; KC_InternalError; KC_DependencyUnavailable])
    ["KAVACH_INVALID_REQUEST"; "KAVACH_UNAUTHENTICATED"; "KAVACH_FORBIDDEN"; "KAVACH_NOT_FOUND"; "KAVACH_CONFLICT";
     "KAVACH_PAYLOAD_TOO_LARGE"; "KAVACH_RATE_LIMITED"; "KAVACH_TIMEOUT"; "KAVACH_INTERNAL_ERROR";
     "KAVACH_DEPENDENCY_UNAVAILABLE"].

Definition kavach_error_code_http_status : test :=
  assert_eq (map http_status
      [KC_InvalidRequest; KC_Unauthenticated; KC_Forbidden; KC_NotFound; KC_Conflict; KC_PayloadTooLarge;
       KC_RateLimited; KC_Timeout; KC_InternalError; KC_DependencyUnavailable])
    [400; 401; 403; 404; 409; 413; 429; 504; 500; 503].

Definition error_is (e : GatewayError) (code : KavachErrorCode) (status : Z) : test :=
  assert_eq (KavachErrorCode_as_str (ge_code e)) (KavachErrorCode_as_str code);; assert_eq (ge_status e) status.

Definition gateway_error_constructors : test :=
  error_is (bad_request "bad") KC_InvalidRequest 400;;
  error_is (unauthorized "no auth") KC_Unauthenticated 401;;
  error_is (forbidden "nope") KC_Forbidden 403;;
  error_is (not_found "missing") KC_NotFound 404;;
  error_is (conflict "conflict") KC_Conflict 409;;
  error_is (internal "oops") KC_InternalError 500.

Definition timeout_error_code_maps_correctly : test :=
  error_is (GatewayError_new KC_Timeout "request timed out") KC_Timeout 504.

(** *** Data *)

Definition evaluate_outcome_dto_denied_serialization : test :=
  let json := EvaluateOutcomeDto_to_value (EO_Denied "r1" "policy_deny" ["rule-1"] "denied" 42) in
  denied ← value_get "denied" json;
  assert_eq (value_get "request_id" denied ≫= as_str) (Some "r1");;
  assert_eq (value_get "reason_code" denied ≫= as_str) (Some "policy_deny");;
  assert (matches! value_get "audit_event_id" denied with Some (V_Int 42)).

(** [rt.evaluate(&req).unwrap()] on the runtime of the state. *)
Definition rt_permitted (r : ToolRequest) : run PermittedOutcome := fun d =>
  let s := dk_state d in
  let '(o, b) := evaluate (gs_runtime s) (gw_rt (env_of (dk_calls d))) r (rs_broker (gs_stores s)) in
  (match o with Ok (RO_Permitted p) => Ok p | _ => Err tt end,
   set_state {| gs_runtime := gs_runtime s;
                gs_stores := {| rs_broker := b; rs_world := rs_world (gs_stores s) |};
                gs_permits := gs_permits s; gs_tokens := gs_tokens s; gs_limiter := gs_limiter s |} d).
(** [rt.execute(..)]: the result and the permit afterwards. *)
Definition rt_execute (r : ToolRequest) (permit : ExecutionPermit) (secret : string)
  : run (result RuntimeError ExecutionResult) := fun d =>
  let s := dk_state d in
  let '(o, _, st) :=
    execute (gs_runtime s) (FA := machine_fs (dk_registry d) (fun _ => "0")) (CA := machine_cmd (dk_registry d))
      (NA := machine_net (dk_registry d)) (gw_rt (env_of (dk_calls d))) r permit secret EI_None (gs_stores s) in
  (Ok o, set_state {| gs_runtime := gs_runtime s; gs_stores := st; gs_permits := gs_permits s;
                      gs_tokens := gs_tokens s; gs_limiter := gs_limiter s |} d).
Definition read_request (id : string) : run ToolRequest := must_some (file_read_request id).

Definition evaluate_outcome_dto_permitted_serialization : test := with_gateway (
  let! req := read_request "test-dto-perm" in
  let! outcome := rt_permitted req in
  let dto := EO_Permitted (id_str (ep_request_id (po_permit outcome))) (PermitDto_from (po_permit outcome))
               (hex_encode (po_permit_secret outcome)) in
  let! permitted := must_some (value_get "permitted" (EvaluateOutcomeDto_to_value dto)) in
  let! _ := check_eq (value_get "request_id" permitted ≫= as_str) (Some "test-dto-perm") in
  let! _ := must_some ((value_get "permit" permitted ≫= value_get "request_digest") ≫= as_str) in
  let! secret := must_some (value_get "permit_secret_hex" permitted ≫= as_str) in
  check_eq (len secret) 64).

Definition permit_dto_from_execution_permit : test := with_gateway (
  let! req := read_request "test-permit-dto" in
  let! outcome := rt_permitted req in
  let dto := PermitDto_from (po_permit outcome) in
  let! _ := check_eq (pd_request_id dto) "test-permit-dto" in
  let! _ := check (32 <=? len (pd_permit_token_hash dto)) in
  check_eq (len (pd_request_digest dto)) 64).

Definition permit_dto_round_trip_reconstruct : test := with_gateway (
  let! req := read_request "round-trip" in
  let! outcome := rt_permitted req in
  let! r := must_some (reconstruct_permit (PermitDto_from (po_permit outcome))) in
  let! reconstructed := must r in
  let! _ := check_eq (id_str (ep_request_id reconstructed)) "round-trip" in
  check (ep_issued_at reconstructed <? ep_expires_at reconstructed)).

Definition execute_request_invalid_secret_length_rejected : test := with_gateway (
  let! req := read_request "bad-secret" in
  let! outcome := rt_permitted req in
  let! r := must_some (reconstruct_permit (PermitDto_from (po_permit outcome))) in
  let! _ := must r in
  let! _ := must_err (parse_secret "abcd") in st_ret tt).

(** *** Health, authentication, identifiers *)

Definition health_returns_200 : test := with_gateway (
  let! res := anonymous Ro_health in
  let! _ := succeeded res in text_is res ["data"; "status"] "ok").

Definition ready_returns_200_when_healthy : test := with_gateway (
  let! res := anonymous Ro_ready in
  let! _ := succeeded res in
  let! _ := check (matches! at_path ["data"; "ready"] res with Some (V_Bool true)) in
  let! _ := text_is res ["data"; "audit_store"] "ready" in
  text_is res ["data"; "approval_store"] "ready").

Definition api_status_requires_auth : test := with_gateway (
  let! res := anonymous Ro_status in status_is res 401).

Definition api_status_returns_200_with_auth : test := with_gateway (
  let! res := http (Some (bearer_header token_hex)) Ro_status in
  let! _ := status_is res 200 in
  let! _ := text_is res ["data"; "service"] "kavach-gateway" in
  let! _ := must_some (text_at ["data"; "version"] res) in st_ret tt).

Definition refused_with (authorization : option string) : test := with_gateway (
  let! res := http authorization (Ro_api Api_list_approvals) in status_is res 401).

Definition api_requests_without_auth_are_rejected : test := refused_with None.

Definition api_requests_with_wrong_token_rejected : test := refused_with (Some "Bearer wrongtoken123").

Definition api_requests_with_bad_scheme_rejected : test := refused_with (Some "Basic dXNlcjpwYXNz").

Definition response_contains_x_request_id : test := with_gateway (
  let! res := anonymous Ro_health in
  let! val := must_some (bmap_get "x-request-id" (res_headers res)) in check (is_uuid val)).

Definition each_request_gets_unique_request_id : test := with_gateway (
  let! res1 := anonymous Ro_health in
  let! id1 := must_some (bmap_get "x-request-id" (res_headers res1)) in
  let! res2 := anonymous Ro_health in
  let! id2 := must_some (bmap_get "x-request-id" (res_headers res2)) in
  check (negb (String.eqb id1 id2))).

(** *** Approvals *)

Definition list_approvals_returns_empty_array : test := with_gateway (
  let! res := operator Api_list_approvals in
  let! _ := succeeded res in check (matches! at_path ["data"] res with Some (V_Array _))).

Definition get_nonexistent_approval_returns_404 : test := with_gateway (
  let! res := operator (Api_get_approval "nonexistent-id") in status_is res 404).

Definition approve_nonexistent_approval_returns_404 : test := with_gateway (
  let! res := operator (Api_approve "fake-id" "test-user") in status_is res 404).

Definition deny_nonexistent_approval_returns_404 : test := with_gateway (
  let! res := operator (Api_deny "fake-id" "test-user" None) in status_is res 404).

(** The categories of the audit log of the runtime. *)
Definition categories : run (list AuditEventCategory) := fun d =>
  (map_err (fun _ => tt)
     (let? l := AuditStore_events_after_sequence None (br_audit (rs_broker (gs_stores (dk_state d)))) 0 10 in
      Ok (map ev_category l)), d).

(** The permit and the secret of an answer, as a client reads them. *)
Definition permit_in (res : HttpResponse) : run (PermitDto * string) :=
  let! permit := must_some (at_path ["data"; "permitted"; "permit"] res ≫= PermitDto_from_value) in
  let! secret := must_some (text_at ["data"; "permitted"; "permit_secret_hex"] res) in
  st_ret (permit, secret).
Definition execute_call (r : ToolRequest) (permit : PermitDto) (secret_hex : string) : ApiCall :=
  Api_execute {| er_request := r; er_permit := permit; er_permit_secret_hex := secret_hex; er_input := ID_None |}.

Definition approval_route_is_request_bound_secret_safe_and_executable : test :=
  on_state (test_state_with_policies [("approved.txt", "approved execution")] [approval_policy]) (
  let! request := must_some (RuntimeTests.file_request "approval-real-route" "approval-agent" "approval-session"
                               "approved.txt") in
  let! evaluate := operator (Api_evaluate request) in
  let! _ := status_is evaluate 200 in
  let! approval_id := must_some (text_at ["data"; "approval_required"; "approval_id"] evaluate) in
  let! approve := operator (Api_approve approval_id "test-operator") in
  let! _ := status_is approve 200 in
  let! _ := text_is approve ["data"; "outcome"] "approved" in
  let! _ := check (matches! at_path ["data"; "token"] approve with None) in
  let! mismatched := must_some (RuntimeTests.file_request "approval-mismatch" "approval-agent" "approval-session"
                                  "approved.txt") in
  let! mismatch := operator (Api_consume approval_id mismatched) in
  let! _ := status_is mismatch 400 in
  let! consume := operator (Api_consume approval_id request) in
  let! _ := status_is consume 200 in
  let! permitted := permit_in consume in
  let! _ := check_eq (pd_matched_rule_ids (fst permitted)) ["rule-require-approval"] in
  let! execute := operator (execute_call request (fst permitted) (snd permitted)) in
  let! _ := status_is execute 200 in
  let! replay := operator (Api_consume approval_id request) in
  let! _ := check (negb (res_status replay =? 200)) in
  let! log := categories in
  check_eq log [ApprovalRequested; ApprovalApproved; ApprovalConsumed; ExecutionStarted; ExecutionSucceeded]).

(** *** The audit log and the policies *)

Definition query_limit (limit : option Z) : AuditEventsQuery :=
  {| aq_after := None; aq_before := None; aq_request_id := None; aq_category := None; aq_limit := limit |}.

Definition list_audit_events_returns_empty_array : test := with_gateway (
  let! res := operator (Api_list_events (query_limit None)) in
  let! _ := succeeded res in check (matches! at_path ["data"] res with Some (V_Array _))).

Definition audit_events_with_limit_zero_rejected : test := with_gateway (
  let! res := operator (Api_list_events (query_limit (Some 0))) in status_is res 400).

Definition audit_verify_returns_valid_chain : test := with_gateway (
  let! res := operator Api_verify_chain in
  let! _ := succeeded res in
  check (matches! at_path ["data"; "chain_valid"] res with Some (V_Bool true))).

Definition list_policies_returns_200 : test := with_gateway (
  let! res := operator Api_list_policies in status_is res 200).

Definition reload_policies_empty_paths_rejected : test := with_gateway (
  let! res := operator (Api_reload []) in status_is res 400).

(** There is no file. *)
Definition reload_policies_nonexistent_path_rejected : test := with_gateway (
  let! res := operator (Api_reload ["/nonexistent/policy.toml"]) in status_is res 400).

Definition evaluated (id : string) : run HttpResponse :=
  let! req := read_request id in operator (Api_evaluate req).

Definition evaluate_valid_request_returns_success : test := with_gateway (
  let! res := evaluated "test-eval-1" in succeeded res).

Definition invalid_reload_preserves_previous_policy : test := with_gateway (
  let! res := evaluated "pre-reload" in
  let! _ := status_is res 200 in
  let! res := operator (Api_reload ["/nonexistent/policy.toml"]) in
  let! _ := status_is res 400 in
  let! res := evaluated "post-reload" in status_is res 200).

(** *** Layers *)

Definition response_includes_security_headers : test := with_gateway (
  let! res := anonymous Ro_health in
  let header name := bmap_get name (res_headers res) in
  let! _ := check_eq (header "x-content-type-options") (Some "nosniff") in
  let! _ := check_eq (header "cache-control") (Some "no-store") in
  let! _ := check_eq (header "referrer-policy") (Some "no-referrer") in
  check (bool_decide (is_Some (header "content-security-policy")))).

(** The answers of a limiter to checks at the given times. *)
Fixpoint checks (rl : RateLimiter) (times : list Z) : list bool :=
  match times with
  | [] => []
  | t :: times' => let '(ok, rl') := RateLimiter_check t rl in ok :: checks rl' times'
  end.
Definition limiter_answers (max_per_second burst : Z) (times : list Z) (expected : list bool) : test :=
  assert_eq (checks (RateLimiter_new max_per_second burst) times) expected.
Definition at_once (n : nat) : list Z := List.repeat 0 n.

Definition rate_limiter_allows_within_limit : test :=
  limiter_answers 100 200 (at_once 100) (List.repeat true 100).

Definition rate_limiter_rejects_above_per_second : test :=
  limiter_answers 5 10 (at_once 6) (List.repeat true 5 ++ [false]).

Definition rate_limiter_allows_burst_then_rejects : test :=
  limiter_answers 10 5 (at_once 6) (List.repeat true 5 ++ [false]).

Definition rate_limiter_recovers_after_window : test :=
  limiter_answers 10 5 (at_once 5 ++ [1100000000]) (List.repeat true 6).

(** *** Execution *)

Definition evaluate_then_execute_uses_server_owned_permit_and_rejects_replay : test :=
  on_state (test_state_with_policies [("test.txt", "gateway execution")] [allow_all_policy]) (
  let! request := must_some (RuntimeTests.file_request "exec-real-route" "agent-route" "session-route" "test.txt") in
  let! response := operator (Api_evaluate request) in
  let! _ := status_is response 200 in
  let! permitted := permit_in response in
  let permit :=
    {| pd_permit_token_hash := pd_permit_token_hash (fst permitted); pd_request_id := "forged-request";
       pd_scope := "NetworkRequest"; pd_matched_rule_ids := pd_matched_rule_ids (fst permitted);
       pd_issued_at_secs := pd_issued_at_secs (fst permitted); pd_issued_at_nanos := pd_issued_at_nanos (fst permitted);
       pd_expires_at_secs := pd_expires_at_secs (fst permitted);
       pd_expires_at_nanos := pd_expires_at_nanos (fst permitted);
       pd_request_digest := repeat_byte "00" 32; pd_consumed := true |} in
  let! wrong_secret := operator (execute_call request permit (repeat_byte "00" 32)) in
  let! _ := status_is wrong_secret 400 in
  let! response := operator (execute_call request permit (snd permitted)) in
  let! _ := status_is response 200 in
  let! replay := operator (execute_call request permit (snd permitted)) in
  let! _ := status_is replay 400 in
  let! log := categories in
  check_eq log [DecisionAllow; ExecutionStarted; ExecutionSucceeded]).

Definition execute_rejects_a_valid_but_unregistered_permit : test := with_gateway (
  let! request := read_request "exec-unregistered" in
  let! permitted := rt_permitted request in
  let! res := operator (execute_call request (PermitDto_from (po_permit permitted))
                          (hex_encode (po_permit_secret permitted))) in
  let! _ := status_is res 400 in
  let! _ := text_is res ["error"; "code"] "KAVACH_INVALID_REQUEST" in
  let! message := must_some (text_at ["error"; "message"] res) in
  check (contains "not issued by this gateway" message)).

Definition execute_with_consumed_permit_detected : test := with_gateway (
  let! req := read_request "exec-consume" in
  let! outcome := rt_permitted req in
  let permit := po_permit outcome in
  let! _ := check (ExecutionPermit_is_valid 1 permit) in
  let first := ExecutionPermit_consume permit in
  let! _ := check (fst first) in
  let! _ := check (negb (ExecutionPermit_is_valid 1 (snd first))) in
  let second := ExecutionPermit_consume (snd first) in
  let! _ := check (negb (fst second)) in
  let! result := rt_execute req (snd second) (po_permit_secret outcome) in
  check (negb (is_ok result))).

Definition execute_with_wrong_secret_rejected : test := with_gateway (
  let! req := read_request "exec-wrong-secret" in
  let! outcome := rt_permitted req in
  let! result := rt_execute req (po_permit outcome) (repeat_byte (byte_string 99) 32) in
  check (negb (is_ok result))).

Definition execute_with_mismatched_request_rejected : test := with_gateway (
  let! req := read_request "exec-mismatch" in
  let! outcome := rt_permitted req in
  let! other_req := read_request "other-request" in
  let! result := rt_execute other_req (po_permit outcome) (po_permit_secret outcome) in
  check (negb (is_ok result))).

(** *** Starting *)

Definition non_loopback_bind_rejected_by_default : test :=
  msg ← unwrap_err (validate_bind "0.0.0.0:7421" false); assert (contains "allow_non_loopback" msg).

Definition non_loopback_allowed_with_opt_in : test := unwrap (validate_bind "0.0.0.0:7422" true).

Definition loopback_bind_always_allowed : test :=
  unwrap (validate_bind "127.0.0.1:7421" false);; unwrap (validate_bind "127.0.0.1:7421" true).

Definition ipv6_loopback_allowed_by_default : test := unwrap (validate_bind "[::1]:7421" false).

Definition invalid_bind_address_rejected : test := unwrap_err (validate_bind "not-an-address" false);; Some tt.

(** The error of a start with this token. *)
Definition start_error (auth_token : option string) : option string :=
  t ← test_runtime_with_policies [] [allow_all_policy];
  let FA := machine_fs (snd (fst t)) (fun _ => "0") in
  let CA := machine_cmd (snd (fst t)) in
  let NA := machine_net (snd (fst t)) in
  unwrap_err (GatewayBuilder_start (FA := FA) (CA := CA) (NA := NA) "0.1.0"
    (GatewayBuilder_with_auth_token_hex auth_token
      (GatewayBuilder_with_runtime (fst (fst t)) (snd t) GatewayBuilder_new)) (fun _ => None) []).

Definition gateway_startup_requires_operator_supplied_token : test :=
  error ← start_error None; assert (contains "authentication token is required" error).

Definition gateway_startup_rejects_non_exact_token_length : test :=
  error ← start_error (Some (repeat_byte "a" 63)); assert (contains "64 hexadecimal characters" error).

(** *** All of them *)

Example gateway_tests : passes
    [token_generate_produces_64_char_hex; token_verify_accepts_correct_token;
     token_verify_rejects_wrong_token; token_verify_rejects_empty_string;
     token_from_hash_round_trip; verify_constant_time_rejects_short_input;
     verify_constant_time_rejects_long_input; verify_constant_time_rejects_invalid_hex;
     kavach_error_code_as_str; kavach_error_code_http_status; gateway_error_constructors;
     timeout_error_code_maps_correctly; evaluate_outcome_dto_denied_serialization;
     evaluate_outcome_dto_permitted_serialization; permit_dto_from_execution_permit;
     permit_dto_round_trip_reconstruct; execute_request_invalid_secret_length_rejected;
     health_returns_200; ready_returns_200_when_healthy; api_status_requires_auth;
     api_status_returns_200_with_auth; api_requests_without_auth_are_rejected;
     api_requests_with_wrong_token_rejected; api_requests_with_bad_scheme_rejected;
     response_contains_x_request_id; each_request_gets_unique_request_id;
     list_approvals_returns_empty_array; get_nonexistent_approval_returns_404;
     approve_nonexistent_approval_returns_404; deny_nonexistent_approval_returns_404;
     approval_route_is_request_bound_secret_safe_and_executable;
     list_audit_events_returns_empty_array; audit_events_with_limit_zero_rejected;
     audit_verify_returns_valid_chain; list_policies_returns_200;
     reload_policies_empty_paths_rejected; reload_policies_nonexistent_path_rejected;
     evaluate_valid_request_returns_success; invalid_reload_preserves_previous_policy;
     response_includes_security_headers; rate_limiter_allows_within_limit;
     rate_limiter_rejects_above_per_second; rate_limiter_allows_burst_then_rejects;
     rate_limiter_recovers_after_window;
     evaluate_then_execute_uses_server_owned_permit_and_rejects_replay;
     execute_rejects_a_valid_but_unregistered_permit; execute_with_consumed_permit_detected;
     execute_with_wrong_secret_rejected; execute_with_mismatched_request_rejected;
     non_loopback_bind_rejected_by_default; non_loopback_allowed_with_opt_in;
     loopback_bind_always_allowed; ipv6_loopback_allowed_by_default; invalid_bind_address_rejected;
     gateway_startup_requires_operator_supplied_token;
     gateway_startup_rejects_non_exact_token_length] = true.
Proof. vm_compute. reflexivity. Qed.

End GatewayTests.

(** ** outcome.rs *)

Module OutcomeTests.

Definition redacted_read (bytes : string) (bytes_read : Z) : result string ExecutionResult :=
  ExecutionResult_redacted (composite_redactor (CompositeRedactorBuilder_build CompositeRedactorBuilder_new))
    (ER_Filesystem (FO_FileRead bytes bytes_read)).

Definition filesystem_read_content_is_redacted : test :=
  redacted ← unwrap (redacted_read "password=supersecret123" 23);
  match redacted with
  | ER_Filesystem (FO_FileRead bytes bytes_read) =>
      assert (utf8 bytes);; assert (negb (contains "supersecret123" bytes));;
      assert (contains "[REDACTED:" bytes);; assert_eq bytes_read 23
  | _ => None
  end.

Definition non_utf8_filesystem_read_fails_closed : test :=
  assert (negb (is_ok (redacted_read (byte_string 255 +:+ byte_string 254) 2))).

(** *** All of them *)

Example outcome_tests :
  passes [filesystem_read_content_is_redacted; non_utf8_filesystem_read_fails_closed] = true.
Proof. vm_compute. reflexivity. Qed.

End OutcomeTests.

(** ** The property tests of kavach-approval, on a choice of generated texts *)

Module ApprovalPropertyTests.

Import RuntimeTests.

Definition build_approval_policy : option Policy :=
  i ← unwrap (Id_new "prop-approval");
  r1 ← rule "require-approval" E_RequireApproval [ops ["file_delete"]];
  r2 ← rule "allow-read" E_Allow [ops ["file_read"]];
  Some {| policy_id := i; policy_name := "prop-test"; policy_description := ""; policy_default_effect := D_Deny;
          policy_rules := [r1; r2] |}.

(** The outcome for an operation of [agent] on [path], or on [/tmp/file.txt] when [path] is refused. *)
Definition outcome_of (id agent path : string) (op : Operation) : run RuntimeOutcome :=
  let config := {| rc_permit_ttl := 60 * NANOS_PER_SEC;
                   rc_audit_fail_closed := rc_audit_fail_closed RuntimeConfig_default;
                   rc_redaction_enabled := rc_redaction_enabled RuntimeConfig_default;
                   rc_max_sanitized_summary_length := rc_max_sanitized_summary_length RuntimeConfig_default;
                   rc_dry_run := rc_dry_run RuntimeConfig_default |} in
  let! b := must_some (with_policies [build_approval_policy]
                         (with_workspace_root workspace (with_config config RuntimeBuilder_new))) in
  let! runtime := built b in
  let! r := must_some (match Resource_file path with Ok r => Some r | Err _ => unwrap (Resource_file "/tmp/file.txt") end) in
  let! req := must_some (request_by id agent "prop-sess" op (Some r)) in
  evaluated runtime req.

Definition approval_required_for_delete (agent path : string) : test := in_tmp (
  let! outcome := outcome_of "prop-req" agent path FileDelete in
  check (matches! outcome with RO_ApprovalRequired _ _ _ _)).

Definition read_is_permitted_for_any_path (agent path : string) : test := in_tmp (
  let! outcome := outcome_of "prop-req-2" agent path (FileRead (Some 1024)) in
  check (matches! outcome with RO_Permitted _)).

(** Relative, absolute, climbing, hidden and degenerate paths. *)
Definition generated_paths : list string :=
  ["a"; "a/b.txt"; "/etc/passwd"; "../x"; "a/../.."; "/.."; "."; ".."; "/"; "//"; ".env"; "./.git/config"; "a//b/";
   "-"; "_.-/..."; "0123456789012345678901234567890123456789"].
Definition generated_agents : list string := ["a"; "-"; "_"; "0123456789abcdef"; "Agent-1_x"].

(** *** All of them *)

Example approval_property_tests :
  passes (flat_map (fun agent => flat_map (fun path =>
    [approval_required_for_delete agent path; read_is_permitted_for_any_path agent path])
    generated_paths) generated_agents) = true.
Proof. vm_compute. reflexivity. Qed.

End ApprovalPropertyTests.
