(* ===== verification/TestCli.v ===== *)
(** * The tests of the proxy, the configuration, the command line and the dashboard, on the model

    tests/integration.rs and the tests of proxy.rs of kavach-mcp ([McpTests]), the tests of
    kavach-config ([ConfigTests]), of commands/policy.rs and setup.rs of kavach-cli
    ([PolicyCmdTests], [SetupTests]), of event.rs of kavach-dashboard ([EventTests]), and
    tests/cli_integration.rs, where a run of the binary is a run of [kavach] on the files the
    test writes ([BinaryTests]).  A TOML file is given as the tables it parses to, a JSON
    text as its value; of the JSON of a decision the printer shows the rules and the trace.
    The tests of the argument parser are left out. *)

From stdpp Require Import base tactics option list strings gmap.
From Stdlib Require Import ZArith Lia Ascii.
From S2P Require Import Prelude RustStr Utf8 BTree Json Redaction CoreError CoreIds CorePath CoreResource.
From S2P Require Import CoreRequest CoreDecision CorePermit PolicyModel PolicyEngine PolicyProps.
From S2P Require Import AuditModel ApprovalModel ApprovalBroker Instances ApprovalProps EnforceFs EnforceCmd EnforceNet.
From S2P Require Import EnforceExamples PolicyLoad AuditVerify Runtime RuntimeMachine RuntimeExamples ConfigLoad.
From S2P Require Import GatewayExamples CliServe CliPolicy CliCommands McpProtocol McpProxy DashEvent Setup CliMain CliRuns.
From S2P Require Import TestPolicy TestRecords TestEnforce TestRuntime.

Open Scope Z_scope.

#[local] Existing Instances horner_sha brief_request_json toy_hex toy_json toy_time toy_ids_error.
#[local] Existing Instances segment_globs ascii_lower pattern_matcher fixed_scores.
#[local] Instance brief_debug : ResourceDebug := {| resource_debug _ := "resource" |}.

#[local] Notation "'matches!' r 'with' p" := (match r with p => true | _ => false end)
  (at level 10, r at level 200, p pattern at level 200).

(** ** JSON texts *)

(** [to_string] of a value without characters to escape. *)
Definition quoted (s : string) : string := byte_string 34 +:+ s +:+ byte_string 34.
Fixpoint json_text (v : Value) : string :=
  match v with
  | V_Null => "null"
  | V_Bool b => if b then "true" else "false"
  | V_Int n => dec n
  | V_Float t => t
  | V_String s => quoted s
  | V_Array l => "[" +:+ join "," (map json_text l) +:+ "]"
  | V_Object o => "{" +:+ join "," (map (fun kv => quoted kv.1 +:+ ":" +:+ json_text kv.2) o) +:+ "}"
  end.

(** The JSON library on the texts of these values. *)
Definition json_of (known : list (string * Value)) : JsonText :=
  {| json_from_str s := match List.find (fun kv => String.eqb kv.1 s) known with
                        | Some kv => Ok kv.2 | None => Err "expected value" end;
     json_to_string v := Ok (json_text v); conversion_error _ _ := "missing field" |}.

(** ** The MCP proxy: tests/integration.rs *)

Module McpTests.

Import TestRuntime.RuntimeTests.

Definition make_tool_request (tool_name request_id : string) : run ToolRequest :=
  must_some (request_by request_id "test-agent" "test-session" (ToolInvoke tool_name) (Some (R_ExternalTool tool_name))).

(** The runtime of a policy with one rule on tool calls. *)
Definition tool_runtime (id name : string) (default : DefaultEffect) (rule_id : string) (effect : Effect) : run Built :=
  build_runtime
    [i ← unwrap (Id_new id); r ← rule rule_id effect [ops ["tool_invoke"]];
     Some {| policy_id := i; policy_name := name; policy_description := ""; policy_default_effect := default;
             policy_rules := [r] |}].
Definition allowed_runtime : run Built :=
  tool_runtime "allow-mcp" "Allow MCP Tools" D_Deny "allow-tool-calls" E_Allow.
Definition denied_runtime : run Built :=
  tool_runtime "deny-mcp" "Deny MCP Tools" D_Deny "deny-tool-calls" E_Deny.
Definition approval_runtime : run Built :=
  tool_runtime "approval-mcp" "Approval MCP Tools" D_RequireApproval "approve-tool-calls" E_RequireApproval.

Definition allowed_tool_call : test := in_tmp (
  let! rt := allowed_runtime in
  let! req := make_tool_request "read_file" "test-allowed" in
  let! _ := permitted rt req in st_ret tt).

Definition denied_call (tool request_id : string) : test := in_tmp (
  let! rt := denied_runtime in
  let! req := make_tool_request tool request_id in
  let! outcome := evaluated rt req in is_denied outcome).

Definition denied_tool_call_never_forwarded : test := denied_call "read_file" "test-denied".

Definition approval_required_call_never_forwarded : test := in_tmp (
  let! rt := approval_runtime in
  let! req := make_tool_request "read_file" "test-approval" in
  let! _ := asked rt req in st_ret tt).

Definition runtime_failure_fails_closed : test := denied_call "unknown_tool" "test-fail-closed".

Definition repeated_requests_deterministic : test := in_tmp (
  let! rt := allowed_runtime in
  let! req := make_tool_request "read_file" "repeat-test" in
  let! _ := permitted rt req in let! _ := permitted rt req in st_ret tt).

Definition different_tools_produce_different_evaluations : test := in_tmp (
  let! rt := allowed_runtime in
  let! req_tool1 := make_tool_request "read_file" "tool-1" in
  let! req_tool2 := make_tool_request "write_file" "tool-2" in
  let! _ := permitted rt req_tool1 in let! _ := permitted rt req_tool2 in st_ret tt).

Definition event_count : run Z := fun s =>
  (Ok (match AuditStore_event_count None (br_audit (rs_broker (st_state s))) with Ok n => n | Err _ => 0 end), s).

Definition creates_audit_event (runtime : run Built) (request_id : string) : test := in_tmp (
  let! rt := runtime in
  let! req := make_tool_request "read_file" request_id in
  let! before := event_count in
  let! _ := evaluated rt req in
  let! after := event_count in
  Instances.check (before <? after)).

Definition allowed_call_creates_audit_event : test := creates_audit_event allowed_runtime "audit-test".
Definition denied_call_creates_audit_event : test := creates_audit_event denied_runtime "audit-deny".

(** *** Messages *)

Definition version_one : Value :=
  V_Object [("jsonrpc", V_String "1.0"); ("id", V_Int 1); ("method", V_String "ping")].
Definition no_method : Value := V_Object [("jsonrpc", V_String "2.0"); ("id", V_Int 1)].
(** With a blank, as the test writes it. *)
Definition with_key : string := "{" +:+ quoted "key" +:+ ": " +:+ quoted "sk-abc123def456" +:+ "}".

#[local] Instance message_json : JsonText :=
  json_of [(json_text version_one, version_one); (json_text no_method, no_method);
           (with_key, V_Object [("key", V_String "sk-abc123def456")])].

Definition rejected (json : string) : test := assert (matches! parse_message json with Err _).

Definition malformed_request_rejected : test := rejected "not valid json".
Definition empty_message_rejected : test := rejected "".
Definition invalid_jsonrpc_version_rejected : test := rejected (json_text version_one).
Definition request_without_method_rejected : test := rejected (json_text no_method).

(** The message around the oversized text, which is not written out. *)
Definition oversized_request_rejected : test :=
  let large := repeat_byte "x" (MAX_MESSAGE_SIZE + 1) in
  rejected ("{" +:+ quoted "jsonrpc" +:+ ":" +:+ quoted "2.0" +:+ "," +:+ quoted "id" +:+ ":1," +:+ quoted "method"
            +:+ ":" +:+ quoted "ping" +:+ "," +:+ quoted "params" +:+ ":{" +:+ quoted "data" +:+ ":" +:+ quoted large
            +:+ "}}").

Definition mcp_redacted (input : string) : option string :=
  mcp_redact_text (redact_text (composite_redactor (CompositeRedactorBuilder_build CompositeRedactorBuilder_new)))
    2 input.

Definition secret_redaction_removes_bearer_tokens : test :=
  result ← mcp_redacted "Bearer abcdef1234567890abcdef1234567890abcdef12";
  assert (contains "[REDACTED:" result);; assert (negb (contains "abcdef1234567890" result)).

Definition secret_redaction_removes_api_keys : test :=
  result ← mcp_redacted with_key;
  assert (contains "[REDACTED:" result);; assert (negb (contains "sk-abc123def456" result)).

(** *** The tests of proxy.rs *)

Definition all_bearer_tokens_are_redacted : test :=
  output ← mcp_redacted "Bearer first-secret-token-1234 and Bearer second-secret-token-5678.";
  assert (negb (contains "first-secret-token" output));; assert (negb (contains "second-secret-token" output)).

Definition nested_json_strings_are_redacted : test :=
  let output := redact_response (fun s => default "" (mcp_redacted s)) (V_Object
    [("content", V_Array [V_Object [("type", V_String "text"); ("text", V_String "password=supersecret123")]]);
     ("nested", V_Object [("token", V_String "Bearer another-secret-token-1234")])]) in
  let serialized := json_text output in
  assert (negb (contains "supersecret123" serialized));; assert (negb (contains "another-secret-token" serialized)).

Definition oversized_text_fails_closed : test :=
  output ← mcp_redacted (repeat_byte "x" (MAX_INPUT_BYTES + 1)); assert_eq output "[REDACTION FAILED]".

Definition proxy_config_timeout_default : test := assert_eq (mp_request_timeout McpProxyConfig_default) (30 * SECOND).

Lemma repeat_x_length n : 0 <= n -> len (repeat_byte "x" n) = n.
Proof.
  intros Hn. unfold repeat_byte. rewrite <- (Z2Nat.id n Hn) at 2. generalize (Z.to_nat n) as k.
  induction k as [|[|k] IH]; [reflexivity..|].
  change (len ("x" +:+ "" +:+ join "" (List.repeat "x" (Datatypes.S k))) = Z.of_nat (Datatypes.S (Datatypes.S k))).
  rewrite !len_append, IH. change (len "x") with 1. change (len "") with 0. lia.
Qed.

Lemma too_long_rejected json : MAX_MESSAGE_SIZE < len json -> rejected json = Some tt.
Proof. intros Hl%Z.ltb_lt. unfold rejected, parse_message. rewrite Hl. reflexivity. Qed.

(** The oversized text is measured, not computed. *)
Lemma oversized_rejected : oversized_request_rejected = Some tt.
Proof.
  assert (len (repeat_byte "x" (MAX_MESSAGE_SIZE + 1)) = MAX_MESSAGE_SIZE + 1) as Hl
    by (apply repeat_x_length; unfold MAX_MESSAGE_SIZE; lia).
  unfold oversized_request_rejected. revert Hl. generalize (repeat_byte "x" (MAX_MESSAGE_SIZE + 1)) as large.
  intros large Hl. apply too_long_rejected. unfold quoted. rewrite !len_append, Hl.
  repeat match goal with |- context [len ?s] =>
    pose proof (len_nonneg s); generalize dependent (len s); intros end.
  lia.
Qed.

Lemma too_long_unredacted input : MAX_INPUT_BYTES < len input -> mcp_redacted input = Some "[REDACTION FAILED]".
Proof.
  intros Hl%Z.ltb_lt. unfold mcp_redacted. cbn [mcp_redact_text].
  unfold composite_redactor, redact_text, CompositeRedactor_redact_text. rewrite Hl. reflexivity.
Qed.

Lemma oversized_text_fails : oversized_text_fails_closed = Some tt.
Proof.
  unfold oversized_text_fails_closed.
  rewrite too_long_unredacted; [reflexivity|]. rewrite repeat_x_length; unfold MAX_INPUT_BYTES; lia.
Qed.

(** *** All of them *)

Example mcp_tests : passes
    [malformed_request_rejected; empty_message_rejected; invalid_jsonrpc_version_rejected;
     request_without_method_rejected; secret_redaction_removes_bearer_tokens;
     secret_redaction_removes_api_keys; all_bearer_tokens_are_redacted;
     nested_json_strings_are_redacted; allowed_tool_call;
     denied_tool_call_never_forwarded; approval_required_call_never_forwarded; runtime_failure_fails_closed;
     repeated_requests_deterministic; different_tools_produce_different_evaluations;
     allowed_call_creates_audit_event; denied_call_creates_audit_event; proxy_config_timeout_default] = true.
Proof. vm_compute. reflexivity. Qed.

End McpTests.

(** ** The configuration: lib.rs of kavach-config *)

Module ConfigTests.

Import Config ConfigDocument.

Definition S := TV_String.
Definition table (entries : list (string * TomlValue)) : TomlValue := TV_Table entries.

(** [load_config] of a file whose text parses to [v], with an empty environment. *)
Definition load (v : option TomlValue) : result ConfigError KavachConfig :=
  load_config (H := {| env_var _ := Env_NotPresent; read_config _ := Ok "";
                       toml_config _ := ok_or "unexpected value" (v ← v; TomlConfig_deserialize v) |}) u64_max
    "config.toml".
(** A document with one section. *)
Definition section (name : string) (entries : list (string * TomlValue)) : option TomlValue :=
  Some (table [(name, table entries)]).

Definition defaults_are_secure : test :=
  let cfg := default_config in
  assert (fail_closed (security cfg));;
  assert (negb (allow_non_loopback (server cfg)));;
  assert (enabled (redaction cfg));;
  assert (verify_on_startup (audit cfg));;
  assert_eq (bind (server cfg)) "127.0.0.1:7421";;
  assert_eq (level (logging cfg)) "info".

Definition load_minimal_toml_config : test :=
  cfg ← unwrap (load (section "server" [("bind", S "127.0.0.1:9090")]));
  assert_eq (bind (server cfg)) "127.0.0.1:9090";; assert (fail_closed (security cfg)).

Definition load_full_toml_config : test :=
  cfg ← unwrap (load (Some (table
    [("server", table [("bind", S "127.0.0.1:7421"); ("request_timeout_seconds", TV_Int 60)]);
     ("security", table [("workspace_root", S "/home/user/project"); ("fail_closed", TV_Bool true)]);
     ("policy", table [("files", TV_Array [S "./config/policy-a.toml"; S "./config/policy-b.toml"])]);
     ("audit", table [("database", S "./data/audit.db")]);
     ("approval", table [("database", S "./data/approvals.db"); ("default_ttl_seconds", TV_Int 600);
                         ("max_pending", TV_Int 500)]);
     ("redaction", table [("enabled", TV_Bool true)]);
     ("logging", table [("level", S "debug"); ("format", S "json")])])));
  assert_eq (bind (server cfg)) "127.0.0.1:7421";;
  assert_eq (request_timeout_seconds (server cfg)) 60;;
  assert_eq (workspace_root (security cfg)) "/home/user/project";;
  assert_eq (length (files (policy cfg))) 2%nat;;
  assert_eq (audit_database (audit cfg)) "./data/audit.db";;
  assert_eq (approval_database (approval cfg)) "./data/approvals.db";;
  assert_eq (default_ttl_seconds (approval cfg)) 600;;
  assert_eq (max_pending (approval cfg)) 500;;
  assert_eq (level (logging cfg)) "debug";; assert_eq (format (logging cfg)) "json".

(** [load_config(&p).unwrap_err().to_string().contains(text)]. *)
Definition refused_with (text name field : string) (v : TomlValue) : test :=
  err ← unwrap_err (load (section name [(field, v)])); assert (contains text (config_error_text err)).

Definition fail_closed_false_is_rejected : test := refused_with "fail_closed" "security" "fail_closed" (TV_Bool false).
Definition allow_non_loopback_rejected : test :=
  refused_with "allow_non_loopback" "server" "allow_non_loopback" (TV_Bool true).
Definition empty_bind_rejected : test := refused_with "bind" "server" "bind" (S "").
Definition zero_request_body_limit_rejected : test :=
  refused_with "request_body_limit" "server" "request_body_limit" (TV_Int 0).
Definition zero_ttl_rejected : test :=
  refused_with "default_ttl_seconds" "approval" "default_ttl_seconds" (TV_Int 0).

Definition is_parse_error (v : option TomlValue) : test := assert (matches! load v with Err (CE_Parse _)).

Definition unknown_field_rejected : test :=
  is_parse_error (section "server" [("bind", S "127.0.0.1:9090"); ("unknown_key", S "bad")]).
Definition invalid_toml_rejected : test := is_parse_error None.

Definition file_not_found : test :=
  assert (matches! load_config (H := {| env_var _ := Env_NotPresent; read_config _ := Err "No such file";
                                        toml_config _ := Err "" |}) u64_max "/nonexistent/path/config.toml"
          with Err (CE_Io _)).

(** *** All of them *)

Example config_tests : passes
    [defaults_are_secure; load_minimal_toml_config; load_full_toml_config; fail_closed_false_is_rejected;
     allow_non_loopback_rejected; empty_bind_rejected; zero_request_body_limit_rejected; zero_ttl_rejected;
     unknown_field_rejected; invalid_toml_rejected; file_not_found] = true.
Proof. vm_compute. reflexivity. Qed.

End ConfigTests.

(** ** The command line: policy.rs *)

Module PolicyCmdTests.

Definition subject : option AgentSubject :=
  a ← unwrap (Id_new "agent-1"); s ← unwrap (Id_new "sess-1");
  Some (AgentSubjectBuilder_build (AgentSubjectBuilder_trust_level (AgentSubjectBuilder_new a s) Standard)).

Definition context : option RequestContext := unwrap (RequestContext_new 0 None None None None false).

Definition request_for (op : Operation) (resource : option Resource) : option ToolRequest :=
  i ← unwrap (Id_new "req-1"); s ← subject; r ← resource; c ← context; Some (ToolRequest_new i s op r c).

Definition cmd_request (exe : string) (args : list string) : option ToolRequest :=
  request_for CommandExecute (c ← unwrap (CommandResource_new exe args); Some (R_Command c)).

Definition decision_with_trace (trace : DecisionTrace) : option AuthorizationDecision :=
  i ← unwrap (Id_new "req-1");
  Some (AuthorizationDecision_with_trace
    (AuthorizationDecision_new Deny KavachDenyExplicitRule "denied" [] 0 i None None) trace).

Definition resource_summary_echoes_command : test :=
  req ← cmd_request "echo" ["x"; ">"; "file"]; assert_eq (cli_resource_summary req) "command echo x '>' file".

Definition resource_summary_echoes_file_path : test :=
  req ← request_for (FileRead None) (unwrap (Resource_file "/workspace/a.txt"));
  assert_eq (cli_resource_summary req) "file /workspace/a.txt".

Definition normalize_effect_label_handles_variants : test :=
  assert_eq (normalize_effect_label "Deny") "deny";;
  assert_eq (normalize_effect_label "RequireApproval") "require_approval";;
  assert_eq (normalize_effect_label "require-approval") "require_approval";;
  assert_eq (normalize_effect_label "  ALLOW ") "allow".

Definition paint_respects_no_color_and_tty : test :=
  assert (negb (paint_enabled true true));; assert (negb (paint_enabled false false));;
  assert (paint_enabled false true);; assert_eq (paint 31 "Deny" false) "Deny";;
  assert_eq (paint 31 "Deny" true) (byte_string 27 +:+ "[31mDeny" +:+ byte_string 27 +:+ "[0m").

Definition explain_shows_baseline_and_caps_failed_conditions : test :=
  req ← cmd_request "echo" ["x"; ">"; "file"];
  decision ← decision_with_trace
    {| baseline_triggered := Some "shell hazards in arguments: redirect_out";
       failed_conditions := ["a"; "b"; "c"; "d"; "e"; "f"; "g"] |};
  let text := format_explain_human decision req false in
  assert (contains "Resource: command echo x '>' file" text);; assert (contains "Decision: Deny" text);;
  assert (contains "Baseline: shell hazards in arguments: redirect_out" text);;
  assert (contains "Failed conditions: a, b, c, d, e (+2 more)" text).

(** *** All of them *)

Example policy_cmd_tests : passes
    [resource_summary_echoes_command; resource_summary_echoes_file_path;
     normalize_effect_label_handles_variants; paint_respects_no_color_and_tty;
     explain_shows_baseline_and_caps_failed_conditions] = true.
Proof. vm_compute. reflexivity. Qed.

End PolicyCmdTests.

(** ** The command line: setup.rs *)

Module SetupTests.

(** [doc["k"]] and [doc[n]]. *)
Definition field (k : string) (v : option Value) : option Value := v ← v; value_get k v.
Definition item (n : nat) (v : option Value) : option Value := v ← v; l ← as_array v; l !! n.
Definition items (v : option Value) : option nat := v ← v; l ← as_array v; Some (length l).
Definition is_string (s : string) (v : option Value) : test := v ← v; t ← as_str v; assert_eq t s.

Definition group (matcher command : string) : Value :=
  json_object [("matcher", V_String matcher);
               ("hooks", V_Array [json_object [("type", V_String "command"); ("command", V_String command)]])].
Definition existing (groups : list Value) (more : list (string * Value)) : Value :=
  json_object (("hooks", json_object [("PreToolUse", V_Array groups)]) :: more).
Definition bash_entry : list HookEntry := [{| he_matcher := "Bash"; he_command := "kavach-hook" |}].
Definition pre_tool_use (doc : Value) : option Value := field "PreToolUse" (field "hooks" (Some doc)).

Definition merge_adds_new_matcher_group : test :=
  let '(doc, warnings) := merge_hook_entries (V_Object []) bash_entry in
  assert_eq warnings [];; is_string "Bash" (field "matcher" (item 0 (pre_tool_use doc))).

Definition merge_is_idempotent_for_same_command : test :=
  let '(doc, warnings) := merge_hook_entries (existing [group "Bash" "kavach-hook"] []) bash_entry in
  assert_eq warnings [];; n ← items (field "hooks" (item 0 (pre_tool_use doc))); assert_eq n 1%nat.

Definition merge_warns_on_conflicting_hook : test :=
  let '(doc, warnings) := merge_hook_entries (existing [group "Bash" "other-hook"] []) bash_entry in
  assert_eq (length warnings) 1%nat;;
  w ← head warnings; assert (contains "conflicting hook" w);;
  is_string "other-hook" (field "command" (item 0 (field "hooks" (item 0 (pre_tool_use doc))))).

Definition merge_preserves_unrelated_entries : test :=
  let '(doc, _) := merge_hook_entries (existing [group "Edit" "fmt-hook"] [("other", V_Bool true)]) bash_entry in
  assert (matches! value_get "other" doc with Some (V_Bool true));;
  n ← items (pre_tool_use doc); assert_eq n 2%nat.

Definition opencode_plugin_merge_is_additive : test :=
  let '(doc, already) := merge_opencode_plugin (V_Object []) "/x/kavach-hook.mjs" in
  assert (negb already);;
  n ← items (value_get "plugin" doc); assert_eq n 1%nat;;
  is_string "/x/kavach-hook.mjs" (item 0 (value_get "plugin" doc));;
  let '(doc2, already2) := merge_opencode_plugin doc "/x/kavach-hook.mjs" in
  assert already2;; n2 ← items (value_get "plugin" doc2); assert_eq n2 1%nat.

(** *** All of them *)

Example setup_tests : passes
    [merge_adds_new_matcher_group; merge_is_idempotent_for_same_command; merge_warns_on_conflicting_hook;
     merge_preserves_unrelated_entries; opencode_plugin_merge_is_additive] = true.
Proof. vm_compute. reflexivity. Qed.

End SetupTests.

(** ** The dashboard: event.rs *)

Module EventTests.

(** The line of the test, with the keys in order as [json!] leaves them. *)
Definition feed_value : Value :=
  json_object
    [("source", V_String "cli"); ("effect", V_String "Deny"); ("reason", V_String "KavachDenyExplicitRule");
     ("explanation", V_String "denied by built-in baseline");
     ("matched_rule_ids", V_Array [V_String "baseline-shell-hazard"]); ("request_id", V_String "req-1");
     ("evaluated_at_secs", V_Int 1700000000);
     ("resource", json_object [("kind", V_String "command"); ("executable", V_String "echo");
                               ("arguments", V_Array [V_String "x"; V_String ">"; V_String "f"])]);
     ("trace", json_object [("baseline_triggered", V_String "shell hazards"); ("failed_conditions", V_Array [])])].

#[local] Instance feed_json : JsonText := json_of [(json_text feed_value, feed_value)].

Definition parses_cli_feed_line : test :=
  event ← feed_event_from_cli_line (json_text feed_value);
  assert_eq (fe_effect event) "Deny";;
  assert_eq (fe_title event) "echo x '>' f";;
  assert_eq (fe_executable event) (Some "echo");;
  assert (bool_decide (is_Some (fe_trace event)));;
  assert (matches_query event "SHELL-hazard");; assert (negb (matches_query event "kubectl")).

Definition rejects_blank_and_garbled_lines : test :=
  assert (forallb (fun l => matches! feed_event_from_cli_line l with None) [""; "   "; "{not json"]).

(** The store in memory is a table. *)
Definition maps_audit_record_to_event : test :=
  let '(r, table) := AuditStore_append None no_faults "event-1" "2026-01-01T00:00:00Z" []
    {| ai_category := DecisionDeny; ai_request_id := Some "req-9"; ai_agent_id := Some "agent-1";
       ai_operation := Some "command_execute"; ai_resource_kind := Some "command";
       ai_resource_summary := Some "echo hello"; ai_decision := Some "Deny";
       ai_reason_code := Some "KavachDenyExplicitRule"; ai_matched_rule_ids := ["deny-x"]; ai_metadata := [] |} in
  _ ← unwrap r;
  records ← unwrap (AuditStore_events_after_sequence None table 0 10);
  assert_eq (length records) 1%nat;;
  record ← head records;
  let event := feed_event_from_audit record in
  assert_eq (fe_source event) "audit";;
  assert_eq (fe_effect event) "Deny";;
  assert_eq (fe_title event) "echo hello";;
  assert_eq (fe_request_id event) "req-9";;
  assert (matches! fe_trace event with None);; assert (matches_query event "deny-x").

(** *** All of them *)

Example event_tests : passes
    [parses_cli_feed_line; rejects_blank_and_garbled_lines; maps_audit_record_to_event] = true.
Proof. vm_compute. reflexivity. Qed.

End EventTests.

(** ** The command line: tests/cli_integration.rs *)

Module BinaryTests.

Import Config.

Definition S := TV_String.
Definition L (l : list string) : TomlValue := TV_Array (map TV_String l).
Definition table (entries : list (string * TomlValue)) : TomlValue := TV_Table entries.

(** *** The contents of the files, by name *)

Definition EXPLAIN_POLICY_TOML : TomlValue :=
  table [("schema_version", TV_Int 1);
         ("policy", table [("id", S "explain-test"); ("default_effect", S "deny")]);
         ("rules", TV_Array [table
           [("id", S "allow-echo"); ("effect", S "allow");
            ("conditions", table [("operations", L ["command_execute"]); ("executables", L ["echo"])])]])].

Definition deny_policy_toml : TomlValue :=
  table [("schema_version", TV_Int 1);
         ("policy", table [("id", S "test-policy"); ("name", S "Test Policy"); ("default_effect", S "deny")]);
         ("rules", TV_Array [table
           [("id", S "rule-1"); ("effect", S "deny"); ("description", S "Deny all");
            ("conditions", table [("operations", L ["file_read"])])]])].

Definition valid_config_toml : TomlValue :=
  table [("server", table [("bind", S "127.0.0.1:7421")]);
         ("security", table [("workspace_root", S "/tmp/kavach"); ("fail_closed", TV_Bool true)]);
         ("policy", table [("files", TV_Array [])]);
         ("audit", table [("database", S "/tmp/kavach-audit.db")]);
         ("approval", table [("default_ttl_seconds", TV_Int 300)])].

(** config/kavach.example.toml. *)
Definition example_toml : TomlValue :=
  table [("server", table [("bind", S "127.0.0.1:7421"); ("request_body_limit", TV_Int 1048576);
                           ("request_timeout_seconds", TV_Int 30)]);
         ("security", table [("workspace_root", S ".")]);
         ("policy", table [("files", L ["./config/default-policy.toml"])]);
         ("audit", table [("database", S "./data/kavach-audit.db"); ("verify_on_startup", TV_Bool true)]);
         ("approval", table [("database", S "./data/kavach-approvals.db"); ("default_ttl_seconds", TV_Int 300);
                             ("max_pending", TV_Int 1000)]);
         ("redaction", table [("enabled", TV_Bool true)]);
         ("logging", table [("level", S "info"); ("format", S "pretty")])].

Definition toml_texts : list (string * TomlValue) :=
  [("EXPLAIN_POLICY_TOML", EXPLAIN_POLICY_TOML); ("deny policy", deny_policy_toml);
   ("valid config", valid_config_toml); ("example config", example_toml)].
Definition parse_toml (text : string) : option TomlValue :=
  snd <$> List.find (fun kv => String.eqb kv.1 text) toml_texts.

(** The JSON text of a request, and the request that serde makes of it. *)
Definition explain_request_json (exe : string) (args : list string) : Value :=
  V_Object
    [("request_id", V_String "req-1");
     ("subject", V_Object [("agent_id", V_String "a"); ("session_id", V_String "s"); ("display_name", V_String "d");
                           ("trust_level", V_String "standard"); ("declared_capabilities", V_Array [])]);
     ("operation", V_Object [("command_execute", V_Null)]);
     ("resource", V_Object [("Command", V_Object [("executable", V_String exe);
                                                  ("arguments", V_Array (map V_String args))])]);
     ("context", V_Object
        [("timestamp", V_Object [("secs_since_epoch", V_Int 0); ("nanos_since_epoch", V_Int 0)]);
         ("working_directory", V_String "/tmp"); ("declared_intent", V_String "t"); ("parent_request_id", V_Null);
         ("metadata", V_Object []); ("dry_run", V_Bool false)])].

Definition explain_request (exe : string) (args : list string) : option ToolRequest :=
  i ← unwrap (Id_new "req-1"); a ← unwrap (Id_new "a"); s ← unwrap (Id_new "s");
  c ← unwrap (RequestContext_new 0 (Some "/tmp") (Some "t") None None false);
  Some (ToolRequest_new i {| as_agent_id := a; as_session_id := s; as_display_name := Some "d";
                             as_trust_level := Standard; as_declared_capabilities := [] |}
          CommandExecute (R_Command (mkCommandResource exe args)) c).

Definition hello : string * list string := ("echo", ["hello"]).
Definition redirect : string * list string := ("echo", ["x"; ">"; "f"]).
Definition request_text (c : string * list string) : string := json_text (explain_request_json (fst c) (snd c)).

Definition scenario (name expected : string) (c : string * list string) : TestScenario :=
  {| ts_name := name; ts_expected := expected; ts_request := Some (explain_request_json (fst c) (snd c));
     ts_request_file := None |}.
Definition scenarios (deny_expected : string) : list TestScenario :=
  [scenario "echo hello" "allow" hello; scenario "echo redirect" deny_expected redirect].

(** *** A run of the binary *)

(** What a run prints, and its exit code. *)
Record Output := { o_code : Z; o_stdout : string; o_stderr : string }.

(** The files of a run by path, and the token in its environment. *)
Section Run.
Variable fixtures : list (string * string).
Variable token : option string.

Definition content (path : string) : option string :=
  snd <$> List.find (fun kv => String.eqb kv.1 path) fixtures.
Definition read (path : string) : result string string := ok_or "No such file or directory (os error 2)" (content path).

Definition cli_files : CliFiles :=
  {| is_file p := bool_decide (is_Some (content p)); is_dir p := String.eqb p ".";
     request_from_str s :=
       ok_or "expected value at line 1 column 1"
         (c ← List.find (fun c => String.eqb (request_text c) s) [hello; redirect]; explain_request (fst c) (snd c));
     scenarios_from_str s :=
       if String.eqb s "scenarios" then Ok (scenarios "deny")
       else if String.eqb s "wrong scenarios" then Ok (scenarios "allow") else Err "expected value";
     decision_to_string_pretty d :=
       Ok (json_text (V_Object [("matched_rule_ids", V_Array (map (fun i => V_String (id_str i)) (ad_matched_rule_ids d)));
                                ("trace", trace_value (ad_trace d))])) |}.
Definition policy_files : PolicyFiles :=
  {| file_len p := let? s := read p in Ok (len s); read_to_string := read |}.
Definition toml_lib : TomlLib :=
  {| toml_from_str s := ok_or "expected an equals" (v ← parse_toml s; TomlDocument_deserialize v) |}.
Definition sources : ConfigSources :=
  {| env_var v := if String.eqb v "KAVACH_GATEWAY_TOKEN" then
                    match token with Some t => Env_Value t | None => Env_NotPresent end
                  else Env_NotPresent;
     read_config := read;
     toml_config s := ok_or "expected an equals" (v ← parse_toml s; ConfigDocument.TomlConfig_deserialize v) |}.
Definition printer : JsonPrint := {| value_display := json_text; json_to_string_pretty v := Ok (json_text v) |}.

(** Files and directories that are not there cannot be opened. *)
Definition start : Program World :=
  {| pg_cli := {| cw_console := {| con_out := []; con_feed := [] |}; cw_audit _ := Ok []; cw_approvals _ := Ok [] |};
     pg_machine := rx_machine; pg_setup := {| ss_files := ∅; ss_out := []; ss_spawned := [] |} |}.

#[local] Existing Instances world_fs world_fs_laws world_proc world_net brief_texts.
#[local] Instance plain_upper : UnicodeUpper := {| unicode_uppercase s := s |}.
#[local] Instance no_texts : SetupTexts :=
  {| COMMON_MODULE := ""; CLAUDE_HOOK := ""; CODEX_HOOK := ""; OPENCODE_HOOK := ""; privacy_starter_embedded := "" |}.

(** The standard output is no terminal. *)
Definition kavach_run (mode : OutputMode) (c : CliCommand) : option Output :=
  let cli := {| cl_now _ := 10; cl_no_color := false; cl_is_tty := false; cl_feed_open := None; cl_feed_write := None |} in
  let serve := {| sn_tokio := None; sn_listen _ := None; sn_inputs := []; sn_spawn _ _ := Err "not found";
                  sn_client := McpTransport_new [] [];
                  sn_messages _ := {| me_rt := rx_call_env "m" 10; me_now := 10; me_uuid := "u" |} |} in
  let setup := {| se_var _ := None; se_exe := None; se_mkdir _ := None; se_unreadable _ := false;
                  se_write _ := None; se_spawn _ := None |} in
  let '(r, s) := kavach (JP := printer) (JT := json_of []) (CF := cli_files) (PF := policy_files) (TL := toml_lib)
                   (CS := sources) (fun _ => None) u64_max "0.1.0" (fun _ => ["ws"]) ["ws"] rx_redactor (fun _ => "0")
                   (fun s => s) cli (ap_env "n" 10) serve setup mode c start in
  r ← r; Some {| o_code := fst r; o_stdout := join "" (con_out (cw_console (pg_cli s))); o_stderr := snd r |}.

End Run.

Definition kavach_ (fixtures : list (string * string)) (c : Commands) : option Output :=
  kavach_run fixtures None Human (CC_Command c).
(** [assert().success()] and [assert().failure()] with texts on one of the outputs. *)
Definition success (o : option Output) (texts : list string) : test :=
  o ← o; assert (o_code o =? 0);; assert (forallb (fun t => contains t (o_stdout o)) texts).
Definition failure (o : option Output) (text : string) : test :=
  o ← o; assert (negb (o_code o =? 0));; assert (contains text (o_stderr o)).

Definition doctor_runs : test := success (kavach_ [] C_Doctor) [].

(** The gateway does not start. *)
Definition serve_rejected (token : option string) (hidden : list string) : test :=
  o ← kavach_run [("config/kavach.example.toml", "example config")] token Human (CC_Serve "config/kavach.example.toml");
  assert (o_code o =? 20);; assert (negb (contains "starting KAVACH gateway" (o_stdout o)));;
  assert (contains "64-character hexadecimal" (o_stderr o));;
  assert (forallb (fun t => negb (contains t (o_stderr o))) hidden).
Definition serve_rejects_missing_gateway_token_before_startup : test := serve_rejected None [].
Definition serve_rejects_malformed_gateway_token_before_startup : test := serve_rejected (Some "malformed") ["malformed"].

Definition not_found (c : Commands) : test := failure (kavach_ [] c) "not found".
Definition config_validate_nonexistent_path : test := not_found (C_ConfigValidate "/nonexistent/config.toml").
Definition policy_validate_nonexistent_path : test := not_found (C_PolicyValidate "/nonexistent/policy.toml").
Definition policy_check_nonexistent_policy : test := not_found (C_PolicyCheck "/no.toml" "/no.json" None).
Definition request_validate_nonexistent_path : test := not_found (C_RequestValidate "/nonexistent/request.json").
Definition audit_verify_nonexistent_database : test := not_found (C_AuditVerify "/nonexistent/audit.db").
Definition audit_list_nonexistent_database : test := not_found (C_AuditList "/nonexistent/audit.db").

Definition approval_approve_invalid_id : test := failure (kavach_ [] (C_ApprovalApprove "" None)) "invalid".
Definition approval_deny_invalid_id : test := failure (kavach_ [] (C_ApprovalDeny "" None)) "invalid".

Definition json_output_flag : test := success (kavach_run [] None Json (CC_Command C_Doctor)) ["status"].

Definition config_validate_valid_toml : test :=
  success (kavach_ [("valid.toml", "valid config")] (C_ConfigValidate "valid.toml")) ["valid"].
Definition config_validate_invalid_toml : test :=
  failure (kavach_ [("invalid.toml", "invalid toml content [[[")] (C_ConfigValidate "invalid.toml")) "parse error".

Definition policy_validate_valid_policy : test :=
  success (kavach_ [("policy.toml", "deny policy")] (C_PolicyValidate "policy.toml")) [].

Definition request_validate_invalid_json : test :=
  failure (kavach_ [("request.json", "not valid json")] (C_RequestValidate "request.json")) "invalid".

Definition write_explain_fixtures (c : string * list string) : list (string * string) :=
  [("policy.toml", "EXPLAIN_POLICY_TOML"); ("request.json", request_text c)].
Definition explain (c : string * list string) (json : bool) : option Output :=
  kavach_ (write_explain_fixtures c) (C_PolicyExplain "policy.toml" "request.json" json None).

Definition policy_explain_allow_shows_resource_and_decision : test :=
  success (explain hello false) ["Resource: command echo hello"; "Decision: Allow"; "Matched rules: allow-echo"].
Definition policy_explain_deny_shows_baseline_reason : test :=
  success (explain redirect false) ["Decision: Deny"; "Baseline:"; "baseline-shell-hazard"].
Definition policy_explain_json_dumps_full_decision_with_trace : test :=
  success (explain redirect true) [quoted "trace"; "baseline-shell-hazard"].

Definition write_policy_test_fixtures (wrong_expectation : bool) : list (string * string) :=
  [("policy.toml", "EXPLAIN_POLICY_TOML"); ("scenarios.json", if wrong_expectation then "wrong scenarios" else "scenarios")].
Definition policy_test (wrong_expectation : bool) : option Output :=
  kavach_ (write_policy_test_fixtures wrong_expectation) (C_PolicyTest "policy.toml" "scenarios.json").

Definition policy_test_all_pass_reports_summary : test :=
  success (policy_test false) ["total=2 passed=2 failed=0"].
Definition policy_test_failure_shows_detail_and_nonzero_exit : test :=
  o ← policy_test true; assert (o_code o =? 23);;
  assert (forallb (fun t => contains t (o_stdout o))
            ["total=2 passed=1 failed=1"; "FAIL: echo redirect"; "Baseline:"]).

(** *** All of them *)

Example binary_tests : passes
    [doctor_runs; serve_rejects_missing_gateway_token_before_startup;
     serve_rejects_malformed_gateway_token_before_startup; config_validate_nonexistent_path;
     policy_validate_nonexistent_path; policy_check_nonexistent_policy; request_validate_nonexistent_path;
     audit_verify_nonexistent_database; audit_list_nonexistent_database; approval_approve_invalid_id;
     approval_deny_invalid_id; json_output_flag; config_validate_valid_toml; config_validate_invalid_toml;
     policy_validate_valid_policy; request_validate_invalid_json;
     policy_explain_allow_shows_resource_and_decision; policy_explain_deny_shows_baseline_reason;
     policy_explain_json_dumps_full_decision_with_trace; policy_test_all_pass_reports_summary;
     policy_test_failure_shows_detail_and_nonzero_exit] = true.
Proof. vm_compute. reflexivity. Qed.

End BinaryTests.
